(* ===== verification/_CoqProject ===== *)
-Q . S2P
Prelude.v
Page.v
Ppn.v
Shared.v
Allocator.v
Reserved.v
Sv39Entry.v
Sv39.v
Sv39Walk.v
Sv39Spec.v
RangeSpec.v
UserMem.v
AddrSpace.v
Arena.v
Registry.v
Task.v
Executor.v
Ipc.v
Plic.v
Utf8.v
Syscall.v
Bytes.v
DuxMem.v
DuxIpc.v
DuxList.v
DeviceTree.v
VirtQueue.v
DriverArgs.v
InitDevices.v
KernelTree.v
Elf.v
Pci.v
PciDriver.v
PciIrq.v
VirtioPci.v
Boot.v
CMem.v
CString.v
CFormat.v
Minish.v
FatIo.v
Uart.v
Spawn.v
Abi.v
VirtioSetup.v
VirtioDevice.v
VirtioBlock.v
VirtioGpu.v
GpuDriver.v
Console.v
ScanCodes.v
VirtioInput.v
CStdio.v
Serial.v
CDir.v
Hart.v
Trap.v
Notify.v
Handler.v
Defer.v
