(* ===== verification/Prelude.v ===== *)
(** * Verification of the norost-a operating system

    norost-a is a microkernel for 64-bit RISC-V in Rust (src/kernel) with drivers
    and services in user space (src/lib, src/services).  This library models the
    kernel, the libraries of user space and the programs that find devices and
    start their drivers as functions on explicit state, and proves what the parts
    promise.

    ** The parts and their files

    - Prelude: machine integers, results, panics, the state monad [M], arrays,
      bit fields, loops ([for_each]) and termination ([halts]).  The crates are built in release
      mode, so arithmetic wraps and debug assertions are off; a panic aborts.
    - Page, Ppn, Shared: pages of virtual memory (arch/page.rs), physical page
      numbers, their ranges and [Map] (memory/ppn.rs, arch/map.rs), and the reference
      counts of shared pages (memory/shared.rs).
    - Allocator: the physical memory manager (memory/allocator.rs, memory/mod.rs).
      Each ring of pages refines a bounded queue; pages are conserved.  The class
      [FrameAllocator] is what the other parts use of it.
    - Reserved: the compile-time layout of reserved addresses (memory/reserved.rs).
    - Sv39Entry, Sv39: page table entries and every operation of the virtual
      memory system (arch/riscv/vms/sv39.rs).  All accesses go through the page
      tables as the hardware walks them, windows included.
    - Sv39Walk, Sv39Spec, RangeSpec: page tables as trees; [add], [remove],
      [physical_addresses], [allocate] and [deallocate] as operations on the
      translation from addresses to pages.
    - UserMem: accesses of 1, 2, 4 and 8 bytes through the page tables, and areas
      of memory as lists.
    - AddrSpace: [Sv39::new], the tables of a new address space.
    - Arena, Registry: the slot allocator with reference counts
      (allocator/arena.rs) and the task registry (task/registry.rs).
    - Task: task structures, addresses, groups and notifications (task/mod.rs,
      address.rs, group.rs, notification.rs), and the kernel state [Kernel] the
      later files work on.
    - Executor: the scheduler (task/executor.rs).
    - Ipc: packet tables in user memory and transmission (task/ipc.rs).
    - Plic: the interrupt controller (arch/riscv/plic.rs).
    - Utf8, Syscall: log text and all system calls (syscall.rs).
    - KernelTree, Elf: what the kernel does at its start: the streaming reader of
      the device tree and the scan in [main] (driver/device_tree.rs, main.rs), and
      the loader of the first program (elf.rs, main.rs).
    - Hart: a 64-bit RISC-V hart with its registers, control registers and the
      instructions the assembly of the kernel uses; the offsets of types.s and the
      macros of registers.s (arch/riscv).
    - Trap: system calls, the timer and the start of a task in assembly (trap.s,
      timer.s).
    - Notify: external interrupts, the entry of a notification handler and the return
      from it (plic.s, syscall.s, and io_notify_return of syscall.rs).
    - Boot: the start of memory management (memory/allocator.rs [Allocator::new],
      memory/mod.rs, main.rs): the ring of pages in freshly mapped memory and the
      mapping of the device tree.

    The libraries of user space, src/lib/rust:

    - Bytes: arrays of bytes, little and big endian numbers in them, and [has],
      which says that some bytes are at some place.
    - DuxMem, DuxIpc, DuxList: reservations of address space, packet rings and
      lists of objects (dux/src/mem.rs, util.rs, ipc/list.rs).
    - DeviceTree: the device tree library (device_tree/src/lib.rs).
    - VirtQueue, VirtioPci: split virtqueues and the PCI transport of virtio devices
      (virtio/src/queue.rs, pci.rs).
    - VirtioDevice: what requests to a virtio device have in common: physical
      addresses of locals, sending, notifying and waiting.
    - VirtioBlock, VirtioInput, VirtioGpu: the three devices (virtio_block, virtio_input
      and virtio_gpu), the first two with their drivers in src/services/driver.
    - DriverArgs: resources as program arguments (driver/src/lib.rs).
    - Pci: configuration headers, base addresses, capabilities and iterators of a
      PCI bus (pci/src/lib.rs).
    - Spawn: starting a program from its ELF headers (dux/src/task.rs), with the
      start code of the program that reads the stack back (driver/uart/src/rtbegin.rs).
    - Abi: the structures, numbers and calls that the kernel, the Rust library and the
      C header declare each for themselves (kernel/src/lib.rs, src/lib/c/std/include/kernel.h),
      and the registry as a program uses it (dux/src/task.rs).

    The C library, src/lib/c/std:

    - CMem: the memory of a C program, a partial map from addresses to bytes, where an
      access outside it is undefined.
    - CString, CFormat: string.c and format.c.
    - CStdio: streams, formatted output, vectored writes and files through packets
      (stdio.c, sys/uio.c, fcntl.c), over the packet functions of dux_ar.
    - CDir: directories (dirent.c) and the buffer of the library (common.c).

    The programs, src/services:

    - InitDevices: how the first program finds devices in the device tree and makes
      the arguments of their drivers (init/b0/src/device_tree.rs, main.rs).
    - PciDriver, PciIrq: the PCI driver, which gives devices their areas, starts
      their drivers and passes interrupts on (driver/pci/src/main.rs,
      notification.rs).
    - Uart, Serial: the serial driver's registers, interrupt handler and requests, and its
      start and service of packets, also as a C program sees it (driver/uart/src/main.rs).
    - FatIo: the page buffer below the FAT file system (driver/fat/src/io.rs) over any
      [BlockDriver].
    - VirtioSetup: how the drivers of virtio devices start (main.rs of
      driver/virtio_block, virtio_input and virtio_gpu).
    - GpuDriver: the driver of the display (driver/virtio_gpu/src/main.rs).
    - Console: text on the display (driver/console/src/main.rs, letter.rs).
    - Handler, Defer: the assembly around the notification functions of the drivers
      (driver/uart/src/main.rs, driver/pci/src/notification.rs,
      driver/virtio_block/src/notification.rs), and an interrupt that goes through one
      driver to another.
    - ScanCodes: the table of keys (driver/virtio_input/src/scancode.rs).
    - Minish: the line editor, the splitting of a line and the choice of the command in
      the shell (init/minish/src/main.c).

    ** How the parts interact

    A system call runs on a [Kernel]: the machine (physical memory, satp and
    the page allocator), the task structures, the arena of groups, the scheduler's
    globals and the services.  Operations of a part run on that part's state and
    are lifted ([on_machine], [on_groups], [on_plic]).  The virtual memory system
    takes pages through [FrameAllocator]; tasks, IPC and system calls map memory
    through the virtual memory system, and IPC reads and writes user memory through
    it.  The loader of the first program maps the pages of the file through the
    virtual memory system as well.  Below them the assembly saves a task and starts
    it again; there the Rust functions are parameters that follow the calling
    convention, and the structure of a task has the same layout on both sides.

    In user space the data passes from program to program: the device tree the
    kernel and the first program read is bytes ([DeviceTree] and [KernelTree] on one
    format), the first program turns it into arguments ([DriverArgs]), the PCI driver
    reads them and writes arguments of its own, and a virtio driver sets its device up
    from the configuration area ([VirtioPci] on [Pci]) and talks to it through a queue
    ([VirtQueue]).  Several theorems cover such a chain as a whole.  In [Abi]
    packets are laid out alike on both sides of a system call, and the library's
    registry is proved over the kernel's system calls.  The shell
    is proved over the string functions of the C library.  A block driver is what the
    buffer of the file system is proved over, and [VirtioBlock] is one; what a virtio
    device does with a request is a class ([VirtioDisk], [VirtioGpu]) with an instance
    that shows it can be had.

    ** What the theorems show

    Refinements: the ring of pages to a queue, the slot stack of a packet table to
    a bounded stack, the registry to an association list, the scheduler's search to
    a reference scheduler, and the page table operations to updates of the
    hardware's translation.  Invariants: well-formed tables and conservation of
    pages and of address ranges.  Termination: packet transmission, the
    functions of all system calls but the one that enters the scheduler, and the search of
    the scheduler, except where it never ends.  Round
    trips: device trees, object lists, driver arguments, page table leaves, the stack
    of a new program, formatted numbers and registered names are read back as they were
    written, and a program in an ELF file is seen by the program as the file has it, where no
    other segment clears its pages.  Equivalence: the kernel's reader of device trees and
    the library's agree.  Chains: resources in the device tree reach the driver as
    they are there, and the areas the PCI driver gives to a device are disjoint, in
    its registers and in the arguments of its driver.  Virtqueues refine a set of
    requests in flight, and the serial driver's ring refines a queue of characters.
    Context switches: an interrupted task continues with its registers, a system call
    changes only its results, an interrupt reaches the handler of its driver and the
    handler returns to where the task was; an interrupt is transparent to the driver it is
    for, also when the PCI driver passes it on.  Devices: a page goes to its sectors and back,
    text that is typed is read, the picture in the memory of the driver is the one on the
    screen, text sent to the console can be read there, and what a C program prints goes
    over the serial line.  The packet rings of a program refine queues whose slots keep their number, though not their
    identity.  Some theorems describe behaviour that differs from what
    comments and names say, such as the address that loses its group, the window that
    shows another page or the iterator over busses that panics.

    ** Bounds and fuel

    Loops that are not structural carry fuel.  The scheduler needs sixteen rounds,
    [process_packets] the distance of two 16-bit indices, [add_range] the length of
    the range plus one, UTF-8 scanning the length plus one; the theorems state that
    this is enough.  In user space the searches need the length of what they search,
    the device tree readers the number of words of the data or of nodes of the tree,
    the collection of used buffers one more than the eight descriptors a queue can
    hold, the printing of a number its 32 digits, reading arguments one more than
    their number, mapping a segment one more than its pages, the loops of the C library
    one more than the bytes of memory, writing a number the 64 digits of base two, and the iterators of a
    PCI bus one more than its 32 devices and one more than the capabilities of a
    header.  A C program that waits for an answer looks at two packets: it has then found it,
    or never will ([CStdio.wait_two]).  A compare-exchange loop succeeds at the first try, because one
    operation runs at a time; in [Shared] the ones that fail are given, and the fuel is one
    more than fail in a row.

    ** What is not modelled

    The assembly that runs before the first task and after a fatal error, the translation cache and its flushes,
    interleavings of several harts inside one operation, and device behaviour behind
    memory-mapped registers.  An address that is not aligned for its access, and the
    other cases the source leaves undefined, stop the model with a panic that says
    so.  Devices answer as parameters and hypotheses say: the writable bits of a PCI
    register, the buffers a virtio device returns.  Starting a program and system
    calls from user space are parameters too, except in [Spawn] and [Abi].  Printers for
    debugging and the third-party code are outside the present development. *)

From stdpp Require Export base numbers list gmap strings relations.

#[export] Set Default Proof Using "Type".

Declare Scope rust_scope.
Delimit Scope rust_scope with rust.

#[global] Open Scope Z_scope.

(** ** Machine integers

    A [w]-bit unsigned integer is a [Z] in [0 .. 2^w).  The crates are built
    with [cargo --release] (src/common_rust.mk, src/kernel/src/arch/riscv/Makefile),
    so [+], [-], [*] and [<<] wrap and [debug_assertions] are off. *)

Definition wrap (w x : Z) : Z := x mod 2 ^ w.

Definition fits (w x : Z) : Prop := 0 <= x < 2 ^ w.

#[export] Instance fits_dec w x : Decision (fits w x).
Proof. unfold fits. apply _. Defined.

Definition checked_add (w a b : Z) : option Z :=
  if decide (a + b < 2 ^ w) then Some (a + b) else None.

Definition checked_sub (a b : Z) : option Z :=
  if decide (b <= a) then Some (a - b) else None.

(** [TryFrom]/[TryInto] to an unsigned type of width [w]. *)
Definition try_into (w x : Z) : option Z :=
  if decide (fits w x) then Some x else None.

Definition bool_to_Z (b : bool) : Z := if b then 1 else 0.

(** ** Errors, panics and state *)

(** Rust's [Result]. *)
Inductive result (A E : Type) : Type :=
| Ok (a : A)
| Err (e : E).
Arguments Ok {A E} a.
Arguments Err {A E} e.

#[export] Instance result_eq_dec `{EqDecision A, EqDecision E} : EqDecision (result A E).
Proof. solve_decision. Defined.

Definition result_map {A B E} (f : A -> B) (r : result A E) : result B E :=
  match r with Ok a => Ok (f a) | Err e => Err e end.

Definition map_err {A E F} (f : E -> F) (r : result A E) : result A F :=
  match r with Ok a => Ok a | Err e => Err (f e) end.

Definition ok_or {A E} (e : E) (o : option A) : result A E :=
  match o with Some a => Ok a | None => Err e end.

(** What running a piece of code can do: return, panic (the profile sets
    [panic = "abort"], so nothing runs afterwards), or still be looping when
    the fuel given to a loop is used up. *)
Inductive outcome (A : Type) : Type :=
| Done (a : A)
| Panicked (why : string)
| OutOfFuel.
Arguments Done {A} a.
Arguments Panicked {A} why.
Arguments OutOfFuel {A}.

Definition obind {A B} (m : outcome A) (k : A -> outcome B) : outcome B :=
  match m with
  | Done a => k a
  | Panicked why => Panicked why
  | OutOfFuel => OutOfFuel
  end.

(** Code that reads and writes a state of type [S]. *)
Definition M (S A : Type) : Type := S -> outcome (A * S).

Definition ret {S A} (a : A) : M S A := fun s => Done (a, s).

Definition bind {S A B} (m : M S A) (k : A -> M S B) : M S B :=
  fun s => match m s with
           | Done (a, s') => k a s'
           | Panicked why => Panicked why
           | OutOfFuel => OutOfFuel
           end.

Definition panic {S A} (why : string) : M S A := fun _ => Panicked why.

Definition get {S} : M S S := fun s => Done (s, s).

Definition gets {S A} (f : S -> A) : M S A := fun s => Done (f s, s).

Definition modify {S} (f : S -> S) : M S unit := fun s => Done (tt, f s).

Definition unwrap {S A} (why : string) (o : option A) : M S A :=
  match o with Some a => ret a | None => panic why end.

Definition unwrap_ok {S A E} (why : string) (r : result A E) : M S A :=
  match r with Ok a => ret a | Err _ => panic why end.

(** The [?] operator: continue on [Ok], return the [Err] early. *)
Definition bind_ok {S A B E} (m : M S (result A E)) (k : A -> M S (result B E))
  : M S (result B E) :=
  bind m (fun r => match r with Ok a => k a | Err e => ret (Err e) end).

(** Lifting code on one part of a state to a pair, used for closures with
    captured variables. *)
Definition on_fst {S T X} (f : M S X) : M (S * T) X :=
  fun st => match f st.1 with
            | Done (x, s) => Done (x, (s, st.2))
            | Panicked why => Panicked why
            | OutOfFuel => OutOfFuel
            end.

Definition on_snd {S T X} (f : M T X) : M (S * T) X :=
  fun st => match f st.2 with
            | Done (x, t) => Done (x, (st.1, t))
            | Panicked why => Panicked why
            | OutOfFuel => OutOfFuel
            end.

Notation "'let!' x ':=' m 'in' k" := (obind m (fun x => k))
  (at level 10, x binder, m at level 100, k at level 200) : rust_scope.
Notation "'let*' x ':=' m 'in' k" := (bind m (fun x => k))
  (at level 10, x binder, m at level 100, k at level 200) : rust_scope.
Notation "'let?' x ':=' m 'in' k" := (bind_ok m (fun x => k))
  (at level 10, x binder, m at level 100, k at level 200) : rust_scope.
Notation "m ';;' k" := (bind m (fun _ => k))
  (at level 100, k at level 200, right associativity) : rust_scope.

#[global] Open Scope rust_scope.

(** ** Arrays

    Indexing by a machine integer; [nth_z] is [None] out of range, which is
    where the Rust code panics or, through a raw pointer, is undefined. *)

Definition nth_z {A} (l : list A) (i : Z) : option A :=
  if decide (0 <= i) then l !! Z.to_nat i else None.

Definition set_z {A} (l : list A) (i : Z) (x : A) : list A :=
  if decide (0 <= i) then <[Z.to_nat i := x]> l else l.

Definition zlen {A} (l : list A) : Z := Z.of_nat (length l).

Section arrays.
Context {A : Type}.
Implicit Types (l : list A) (i j : Z) (x : A).

Lemma zlen_nonneg l : 0 <= zlen l.
Proof. unfold zlen. lia. Qed.

Lemma zlen_set_z l i x : zlen (set_z l i x) = zlen l.
Proof. unfold zlen, set_z. case_decide; by rewrite ?length_insert. Qed.

Lemma nth_z_lt l i : 0 <= i < zlen l -> is_Some (nth_z l i).
Proof.
  unfold nth_z, zlen. intros Hi. rewrite decide_True by lia.
  apply lookup_lt_is_Some. lia.
Qed.

Lemma nth_z_Some l i x : nth_z l i = Some x -> 0 <= i < zlen l.
Proof.
  unfold nth_z, zlen. case_decide; [|done].
  intros ?%lookup_lt_Some. lia.
Qed.

Lemma nth_z_elem l i x : nth_z l i = Some x -> x ∈ l.
Proof. unfold nth_z. case_decide; [|done]. apply list_elem_of_lookup_2. Qed.

Lemma nth_z_set_eq l i x : 0 <= i < zlen l -> nth_z (set_z l i x) i = Some x.
Proof.
  unfold nth_z, set_z, zlen. intros Hi. rewrite !decide_True by lia.
  apply list_lookup_insert_eq. lia.
Qed.

Lemma nth_z_set_ne l i j x : i <> j -> nth_z (set_z l i x) j = nth_z l j.
Proof.
  unfold nth_z, set_z. intros Hij. repeat case_decide; try done.
  apply list_lookup_insert_ne. lia.
Qed.

Lemma nth_z_app_l l1 l2 i : i < zlen l1 -> nth_z (l1 ++ l2) i = nth_z l1 i.
Proof.
  unfold nth_z, zlen. intros Hi. case_decide; [|done].
  apply lookup_app_l. lia.
Qed.

Lemma nth_z_app_r l1 l2 i : zlen l1 <= i -> nth_z (l1 ++ l2) i = nth_z l2 (i - zlen l1).
Proof.
  unfold nth_z, zlen. intros Hi. rewrite !decide_True by lia.
  rewrite lookup_app_r by lia. f_equal. lia.
Qed.

Lemma set_z_0 x l y : set_z (x :: l) 0 y = y :: l.
Proof. done. Qed.

Lemma set_z_cons x l i y : 0 <= i -> set_z (x :: l) (1 + i) y = x :: set_z l i y.
Proof.
  intros. unfold set_z. rewrite !decide_True by lia.
  by rewrite Z2Nat.inj_add by lia.
Qed.

Lemma set_z_app l x l' y : set_z (l ++ x :: l') (zlen l) y = l ++ y :: l'.
Proof.
  unfold set_z, zlen. rewrite decide_True, Nat2Z.id by lia.
  by rewrite insert_app_r_alt, Nat.sub_diag by lia.
Qed.

Lemma nth_z_cons x l i : 0 <= i -> nth_z (x :: l) (1 + i) = nth_z l i.
Proof.
  intros. unfold nth_z. rewrite !decide_True by lia. by rewrite Z2Nat.inj_add by lia.
Qed.

Lemma nth_z_middle l x l' : nth_z (l ++ x :: l') (zlen l) = Some x.
Proof.
  unfold nth_z, zlen. rewrite decide_True, Nat2Z.id by lia. by apply list_lookup_middle.
Qed.

Lemma zlen_app l1 l2 : zlen (l1 ++ l2) = zlen l1 + zlen l2.
Proof. unfold zlen. rewrite length_app. lia. Qed.

Lemma zlen_nil : zlen (@nil A) = 0.
Proof. done. Qed.

Lemma zlen_cons x l : zlen (x :: l) = 1 + zlen l.
Proof. unfold zlen. cbn. lia. Qed.

Lemma zlen_replicate n x : zlen (replicate n x) = Z.of_nat n.
Proof. unfold zlen. by rewrite length_replicate. Qed.
End arrays.

Lemma last_snoc_inv {A} (l : list A) : l = [] \/ exists l' p, l = l' ++ [p].
Proof. destruct l as [|p l' _] using rev_ind; eauto. Qed.

Lemma zlen_fmap {A B} (f : A -> B) l : zlen (f <$> l) = zlen l.
Proof. unfold zlen. by rewrite length_fmap. Qed.

(** ** Wrap-around arithmetic *)

Lemma wrap_small w x : fits w x -> wrap w x = x.
Proof. apply Z.mod_small. Qed.

Lemma wrap_fits w x : 0 <= w -> fits w (wrap w x).
Proof. intros. apply Z.mod_pos_bound. lia. Qed.

Lemma wrap_wrap w x : 0 <= w -> wrap w (wrap w x) = wrap w x.
Proof. intros. by apply wrap_small, wrap_fits. Qed.

Lemma wrap_add_l w x y : wrap w (wrap w x + y) = wrap w (x + y).
Proof. apply Zplus_mod_idemp_l. Qed.

Lemma wrap_sub_l w x y : wrap w (wrap w x - y) = wrap w (x - y).
Proof. apply Zminus_mod_idemp_l. Qed.

(** [mod 2^v] only sees the low bits, so it does not notice a wrap at [w >= v]. *)
Lemma wrap_mod_pow2 v w x : 0 <= v <= w -> wrap w x mod 2 ^ v = x mod 2 ^ v.
Proof.
  intros [Hv Hw]. unfold wrap. apply Z.mod_mod_divide.
  exists (2 ^ (w - v)). rewrite <-Z.pow_add_r by lia. f_equal. lia.
Qed.

Lemma wrap_add_mod_pow2 v w x y :
  0 <= v <= w -> (wrap w x + y) mod 2 ^ v = (x + y) mod 2 ^ v.
Proof. intros. by rewrite Zplus_mod, wrap_mod_pow2, <-Zplus_mod. Qed.

(** Two [w]-bit counters less than [2^w] apart and equal after wrapping are equal. *)
Lemma wrap_eq_near w x y : wrap w x = wrap w y -> Z.abs (x - y) < 2 ^ w -> x = y.
Proof.
  unfold wrap. intros E Hd.
  assert ((x - y) mod 2 ^ w = 0) as E0 by (rewrite Zminus_mod, E, Z.sub_diag; apply Zmod_0_l).
  destruct (decide (0 <= x - y)).
  - rewrite Z.mod_small in E0 by lia. lia.
  - apply Z_mod_zero_opp_full in E0. rewrite Z.mod_small in E0 by lia. lia.
Qed.

(** ** Bit fields

    A word split at bit [n] is [hi * 2^n + lo] with [lo] in [0 .. 2^n).  The
    lemmas say how the bit operations act on each half. *)

Lemma field_testbit n hi lo i :
  0 <= n -> fits n lo -> 0 <= i ->
  Z.testbit (hi * 2 ^ n + lo) i = if decide (i < n) then Z.testbit lo i else Z.testbit hi (i - n).
Proof.
  intros Hn Hlo Hi. case_decide.
  - rewrite <-(Z.mod_pow2_bits_low (hi * 2 ^ n + lo) n) by lia.
    rewrite Z.add_comm, Z_mod_plus_full, Z.mod_small by done. done.
  - replace i with (i - n + n) at 1 by lia.
    rewrite <-Z.div_pow2_bits by lia.
    rewrite Z.div_add_l, Z.div_small by (done || lia). f_equal; lia.
Qed.

Lemma testbit_high_0 n x i : fits n x -> n <= i -> Z.testbit x i = false.
Proof.
  intros [H0 H1] Hi. destruct (decide (0 <= n)).
  - rewrite <-(Z.mod_small x (2 ^ n)) by lia. apply Z.mod_pow2_bits_high. lia.
  - rewrite Z.pow_neg_r in H1 by lia. lia.
Qed.

Lemma fits_bits n x :
  0 <= n -> 0 <= x -> (forall i, n <= i -> Z.testbit x i = false) -> fits n x.
Proof.
  intros Hn Hx Hb. split; [done|].
  replace x with (x mod 2 ^ n); [apply Z.mod_pos_bound; lia|].
  apply Z.bits_inj'. intros i Hi. destruct (decide (i < n)).
  - by rewrite Z.mod_pow2_bits_low by lia.
  - rewrite Z.mod_pow2_bits_high by lia. by rewrite Hb by lia.
Qed.

Lemma fits_lor n x y : 0 <= n -> fits n x -> fits n y -> fits n (Z.lor x y).
Proof.
  intros Hn Hx Hy. apply fits_bits; [done|apply Z.lor_nonneg; unfold fits in *; lia|].
  intros i Hi. by rewrite Z.lor_spec, !(testbit_high_0 n) by done.
Qed.

Lemma fits_ldiff n x y : 0 <= n -> fits n x -> fits n (Z.ldiff x y).
Proof.
  intros Hn Hx. apply fits_bits; [done|apply Z.ldiff_nonneg; unfold fits in *; lia|].
  intros i Hi. by rewrite Z.ldiff_spec, (testbit_high_0 n x) by done.
Qed.

Lemma fits_land_r n x y : 0 <= n -> 0 <= x -> fits n y -> fits n (Z.land x y).
Proof.
  intros Hn Hx Hy. apply fits_bits; [done|apply Z.land_nonneg; lia|].
  intros i Hi. by rewrite Z.land_spec, (testbit_high_0 n y), andb_false_r by done.
Qed.

Section fields.
Context (n : Z) (Hn : 0 <= n).
Implicit Types hi lo m : Z.

Lemma field_lor hi lo m :
  fits n lo -> fits n m -> Z.lor (hi * 2 ^ n + lo) m = hi * 2 ^ n + Z.lor lo m.
Proof using Hn.
  intros. apply Z.bits_inj'. intros i Hi.
  rewrite Z.lor_spec, !field_testbit, Z.lor_spec by auto using fits_lor.
  case_decide; [done|]. by rewrite (testbit_high_0 n m), orb_false_r by (done || lia).
Qed.

Lemma field_lor_hi hi lo m :
  fits n lo -> 0 <= m -> Z.lor (hi * 2 ^ n + lo) (Z.shiftl m n) = Z.lor hi m * 2 ^ n + lo.
Proof using Hn.
  intros. apply Z.bits_inj'. intros i Hi.
  rewrite Z.lor_spec, Z.shiftl_spec, !field_testbit, Z.lor_spec by auto.
  case_decide; [|done]. by rewrite (Z.testbit_neg_r m), orb_false_r by lia.
Qed.

Lemma field_ldiff hi lo m :
  fits n lo -> fits n m -> Z.ldiff (hi * 2 ^ n + lo) m = hi * 2 ^ n + Z.ldiff lo m.
Proof using Hn.
  intros. apply Z.bits_inj'. intros i Hi.
  rewrite Z.ldiff_spec, !field_testbit, Z.ldiff_spec by auto using fits_ldiff.
  case_decide; [done|]. by rewrite (testbit_high_0 n m), andb_true_r by (done || lia).
Qed.

Lemma field_ldiff_hi hi lo m :
  fits n lo -> 0 <= m -> Z.ldiff (hi * 2 ^ n + lo) (Z.shiftl m n) = Z.ldiff hi m * 2 ^ n + lo.
Proof using Hn.
  intros. apply Z.bits_inj'. intros i Hi.
  rewrite Z.ldiff_spec, Z.shiftl_spec, !field_testbit, Z.ldiff_spec by auto.
  case_decide; [|done]. by rewrite (Z.testbit_neg_r m), andb_true_r by lia.
Qed.

Lemma field_land hi lo m :
  fits n lo -> fits n m -> Z.land (hi * 2 ^ n + lo) m = Z.land lo m.
Proof using Hn.
  intros. apply Z.bits_inj'. intros i Hi.
  rewrite !Z.land_spec, field_testbit by auto.
  case_decide; [done|]. by rewrite (testbit_high_0 n m), !andb_false_r by (done || lia).
Qed.

Lemma field_shiftr hi lo : fits n lo -> Z.shiftr (hi * 2 ^ n + lo) n = hi.
Proof using Hn.
  intros. rewrite Z.shiftr_div_pow2, Z.div_add_l, Z.div_small by (done || lia). lia.
Qed.

Lemma field_mod hi lo : fits n lo -> (hi * 2 ^ n + lo) mod 2 ^ n = lo.
Proof using Hn.
  intros. rewrite Z.add_comm, Z_mod_plus_full. by apply Z.mod_small.
Qed.

Lemma field_split x : x = Z.shiftr x n * 2 ^ n + x mod 2 ^ n.
Proof using Hn.
  rewrite Z.shiftr_div_pow2 by done. rewrite Z.mul_comm. apply Z_div_mod_eq_full.
Qed.

Lemma field_lor_shiftl hi lo : fits n lo -> Z.lor (Z.shiftl hi n) lo = hi * 2 ^ n + lo.
Proof using Hn.
  intros. rewrite Z.shiftl_mul_pow2 by done.
  replace (hi * 2 ^ n) with (hi * 2 ^ n + 0) at 1 by lia.
  rewrite field_lor; [|split; lia|done]. by rewrite Z.lor_0_l.
Qed.
End fields.

Lemma land_mask x n : 0 <= n -> Z.land x (2 ^ n - 1) = x mod 2 ^ n.
Proof. intros. rewrite <-Z.land_ones by done. by rewrite Z.ones_equiv. Qed.

(** ** Loops *)

(** [for _ in 0..n { body }] over a state. *)
Fixpoint repeat_m {S} (n : nat) (body : M S unit) : M S unit :=
  match n with
  | O => ret tt
  | S n => body ;; repeat_m n body
  end.

(** ** Termination

    Code that never runs out of fuel, whatever the state. *)

Definition halts {S A} (m : M S A) : Prop := forall s, m s <> OutOfFuel.

Lemma halts_ret {S A} (a : A) : halts (S := S) (ret a).
Proof. done. Qed.

Lemma halts_panic {S A} why : halts (S := S) (A := A) (panic why).
Proof. done. Qed.

Lemma halts_bind {S A B} (m : M S A) (k : A -> M S B) :
  halts m -> (forall a, halts (k a)) -> halts (bind m k).
Proof.
  intros Hm Hk s. unfold bind. specialize (Hm s). destruct (m s) as [[a s']| |]; [apply Hk|done..].
Qed.

Lemma halts_bind_ok {S A B E} (m : M S (result A E)) (k : A -> M S (result B E)) :
  halts m -> (forall a, halts (k a)) -> halts (bind_ok m k).
Proof. intros Hm Hk. apply halts_bind; [done|]. intros [a|e]; [apply Hk|apply halts_ret]. Qed.

Lemma halts_unwrap {S A} why (o : option A) : halts (S := S) (unwrap why o).
Proof. by destruct o. Qed.

Lemma halts_unwrap_ok {S A E} why (r : result A E) : halts (S := S) (unwrap_ok why r).
Proof. by destruct r. Qed.

Lemma halts_state {S A} (f : S -> A * S) : halts (fun s => Done (f s)).
Proof. done. Qed.

Create HintDb halts.
#[export] Hint Resolve halts_ret halts_panic halts_unwrap halts_unwrap_ok : halts.
#[export] Hint Extern 1 (halts (modify _)) => exact (halts_state _) : halts.
#[export] Hint Extern 1 (halts (gets _)) => exact (halts_state _) : halts.
#[export] Hint Extern 1 (halts get) => exact (halts_state _) : halts.

(** Splits straight-line code into its calls. *)
Ltac halts_split :=
  repeat match goal with
  | |- halts (bind _ _) => apply halts_bind; [|intros ?]
  | |- halts (bind_ok _ _) => apply halts_bind_ok; [|intros ?]
  | |- halts (match ?x with _ => _ end) => destruct x eqn:?
  end; eauto with halts.

(** ** Automation *)

Create HintDb rust.
#[export] Hint Resolve zlen_nonneg wrap_fits nth_z_set_eq : rust.
Create Rewrite HintDb zlen.
#[export] Hint Rewrite @zlen_set_z @zlen_app @zlen_nil @zlen_cons @zlen_replicate @zlen_fmap : zlen.

(** A computation whose first step is known continues from its result. *)
Lemma bind_done {S A B} (m : M S A) (k : A -> M S B) s a s' : m s = Done (a, s') -> bind m k s = k a s'.
Proof. unfold bind. by intros ->. Qed.

Lemma on_fst_done {S T X} (f : M S X) s (t : T) x s' : f s = Done (x, s') -> on_fst f (s, t) = Done (x, (s', t)).
Proof. unfold on_fst. cbn. by intros ->. Qed.

Lemma on_snd_done {S T X} (f : M T X) (s : S) t x t' : f t = Done (x, t') -> on_snd f (s, t) = Done (x, (s, t')).
Proof. unfold on_snd. cbn. by intros ->. Qed.

Lemma bind_ok_done {S A B E} (m : M S (result A E)) (k : A -> M S (result B E)) s a s' :
  m s = Done (Ok a, s') -> bind_ok m k s = k a s'.
Proof. unfold bind_ok, bind. by intros ->. Qed.

(** ** Loops *)

(** A loop over a range. *)
Fixpoint for_each {S} (l : list Z) (f : Z -> M S unit) : M S unit :=
  match l with
  | [] => ret tt
  | i :: l => f i ;; for_each l f
  end.

(** Every round keeps the relation [R] between states and the invariant [I], and reaches [J] for its index,
    which the later rounds keep. *)
Lemma for_each_spec {S} (I : S -> Prop) (R : S -> S -> Prop) (J : Z -> S -> Prop) f : (forall s, R s s) -> (forall s1 s2 s3, R s1 s2 -> R s2 s3 -> R s1 s3) ->
  (forall i s s', J i s -> R s s' -> J i s') ->
  forall l s, I s -> (forall i s, i ∈ l -> I s -> exists s', f i s = Done (tt, s') /\ I s' /\ R s s' /\ J i s') ->
  exists s', for_each l f s = Done (tt, s') /\ I s' /\ R s s' /\ forall i, i ∈ l -> J i s'.
Proof.
  intros Hrefl Htrans Hkeep l. induction l as [|i l IH]; intros s Hi Hf; [exists s; split_and!; [done|done|done|set_solver]|].
  destruct (Hf i s) as (s1 & E1 & I1 & R1 & J1); [set_solver|done|]. destruct (IH s1) as (s2 & E2 & I2 & R2 & J2); [done|set_solver|].
  exists s2. cbn [for_each]. erewrite bind_done by exact E1. split; [exact E2|]. split; [done|]. split; [by eapply Htrans|].
  intros k [-> |Hk]%elem_of_cons; [by eapply Hkeep|by apply J2].
Qed.

(** Runs the head bind of a computation whose first step is known. *)
Ltac run_bind H := unfold bind, bind_ok at 1; rewrite H; cbn [bind].

(** Case analysis on every [decide] and [bool] test of the goal. *)
Ltac decide_all := repeat case_decide; try (exfalso; lia); try done.
