(* ===== verification/Page.v ===== *)
(** * Pages (src/kernel/src/arch/page.rs)

    The address of a 4 KiB page: its checked constructors, stepping from one
    page to another and counting the pages a number of bytes needs. *)

From S2P Require Import Prelude.

(** [PageData]'s constants; [Page] repeats them. *)
Definition OFFSET_BITS : Z := 12.
Definition PAGE_SIZE : Z := 4096.
Definition PAGE_ALIGN : Z := PAGE_SIZE.
Definition OFFSET_MASK : Z := Z.shiftl 1 OFFSET_BITS - 1.

(** [Page(NonNull<PageData>)], as its address. *)
Definition Page : Type := Z.

Inductive BadAlignment : Type := BadAlignment_.

Inductive FromPointerError : Type :=
| FromPointer_Null
| FromPointer_BadAlignment.

(** The guarantee of the type: properly aligned and non-null. *)
Definition page_ok (p : Page) : Prop := fits 64 p /\ p <> 0 /\ p mod PAGE_SIZE = 0.

#[export] Instance page_ok_dec p : Decision (page_ok p).
Proof. unfold page_ok. apply _. Defined.

Definition Page_new (address : Z) : result Page BadAlignment :=
  if decide (Z.land address (PAGE_ALIGN - 1) = 0) then Ok address else Err BadAlignment_.

Definition Page_from_pointer (ptr : Z) : result Page FromPointerError :=
  if decide (ptr <> 0) then
    match Page_new ptr with
    | Ok page => Ok page
    | Err BadAlignment_ => Err FromPointer_BadAlignment
    end
  else Err FromPointer_Null.

Definition Page_from_usize (ptr : Z) : result Page FromPointerError :=
  if decide (ptr <> 0) then
    if decide (Z.land ptr (PAGE_ALIGN - 1) = 0) then Ok ptr
    else Err FromPointer_BadAlignment
  else Err FromPointer_Null.

(** [TryFrom<*mut PageData>]. *)
Definition Page_try_from (ptr : Z) : result Page FromPointerError := Page_from_pointer ptr.

(** [ptr.add(offset)] advances by [offset] pages and wraps at 64 bits. *)
Definition Page_skip (p : Page) (offset : Z) : option Page :=
  let ptr := wrap 64 (p + offset * PAGE_SIZE) in
  if decide (ptr = 0) then None else Some ptr.

Definition Page_next (p : Page) : option Page := Page_skip p 1.

Definition min_pages_for_byte_count (bytes : Z) : Z :=
  wrap 64 (bytes + OFFSET_MASK) / PAGE_SIZE.

Lemma land_align x : Z.land x (PAGE_ALIGN - 1) = x mod PAGE_SIZE.
Proof. exact (land_mask x 12 ltac:(lia)). Qed.

Lemma Page_from_usize_pointer ptr : Page_from_usize ptr = Page_from_pointer ptr.
Proof. unfold Page_from_usize, Page_from_pointer, Page_new. decide_all. Qed.

(** The constructors accept exactly the page addresses and name the reason otherwise. *)
Lemma Page_from_pointer_spec ptr :
  fits 64 ptr ->
  Page_from_pointer ptr =
    if decide (page_ok ptr) then Ok ptr
    else if decide (ptr = 0) then Err FromPointer_Null else Err FromPointer_BadAlignment.
Proof.
  intros Hp. unfold Page_from_pointer, Page_new, page_ok. rewrite land_align.
  repeat case_decide; try done; tauto.
Qed.

Lemma Page_skip_ok p offset q : page_ok p -> Page_skip p offset = Some q -> page_ok q.
Proof.
  unfold Page_skip, page_ok. intros (Hf & _ & Ha). case_decide; [done|]. intros [= <-].
  split_and!; [by apply wrap_fits|done|].
  change PAGE_SIZE with (2 ^ 12) in *. rewrite wrap_mod_pow2 by lia.
  by rewrite Z_mod_plus_full.
Qed.

(** Away from the end of the address space a skip is plain pointer arithmetic. *)
Lemma Page_skip_in p offset :
  page_ok p -> 0 <= offset -> p + offset * PAGE_SIZE < 2 ^ 64 ->
  Page_skip p offset = Some (p + offset * PAGE_SIZE).
Proof.
  unfold Page_skip, page_ok, fits, PAGE_SIZE. intros (Hf & Hz & _) Ho Hlt.
  rewrite wrap_small by (split; lia). rewrite decide_False by lia. done.
Qed.

Lemma Page_skip_add p m n q :
  Page_skip p m = Some q -> Page_skip q n = Page_skip p (m + n).
Proof.
  unfold Page_skip. case_decide; [done|]. intros [= <-].
  rewrite wrap_add_l. by replace (p + m * PAGE_SIZE + n * PAGE_SIZE) with (p + (m + n) * PAGE_SIZE) by lia.
Qed.

Lemma min_pages_spec bytes n :
  0 <= bytes <= 2 ^ 64 - PAGE_SIZE ->
  min_pages_for_byte_count bytes <= n <-> bytes <= n * PAGE_SIZE.
Proof.
  unfold min_pages_for_byte_count, PAGE_SIZE. change OFFSET_MASK with 4095. intros Hb.
  rewrite wrap_small by (split; lia).
  pose proof (Z.div_mod (bytes + 4095) 4096 ltac:(lia)).
  pose proof (Z.mod_pos_bound (bytes + 4095) 4096 ltac:(lia)). nia.
Qed.

#[export] Hint Resolve Page_skip_ok : rust.

(** A page address steps to a page address: from any valid page, [skip] and
    [next] either report the wrap to the null page or return another aligned,
    non-null address, skips add up, and rounding a byte count up to pages gives
    the least sufficient number for every count the 64-bit sum can hold. *)
Theorem page_arithmetic (p q : Page) (m n bytes k : Z) :
  page_ok p -> Page_skip p m = Some q -> 0 <= bytes <= 2 ^ 64 - PAGE_SIZE ->
  page_ok q /\ Page_skip q n = Page_skip p (m + n) /\
  (min_pages_for_byte_count bytes <= k <-> bytes <= k * PAGE_SIZE).
Proof.
  intros. split_and!; eauto using Page_skip_add, Page_skip_ok, min_pages_spec.
Qed.

Lemma page_arithmetic_witness :
  page_ok (8192 * 4) /\ Page_skip (8192 * 4) 5 = Page_skip 8192 (6 + 5).
Proof.
  destruct (page_arithmetic 8192 (8192 * 4) 6 5 10000 3) as (H1 & H2 & H3).
  - by vm_compute.
  - by vm_compute.
  - vm_compute. split; discriminate.
  - by split.
Defined.
