(* ===== verification/Ppn.v ===== *)
(** * Physical page numbers (src/kernel/src/memory/ppn.rs, src/kernel/src/arch/map.rs)

    [PPN] and [PPNDirect] are 32-bit page numbers, kept as [Z]; [PPNRange] and
    [PPNDirectRange] are a base and a count.  [Map] and [MapRange] tag them with
    the kind of mapping.  The ranges are related to the list of page numbers
    they stand for. *)

From S2P Require Import Prelude Page.

(** [PPN], [PPNBox] and [PPNDirect]: the raw 32-bit number. *)
Definition PPN : Type := Z.

(** The release build of [PPN::from_ptr] truncates to 32 bits. *)
Definition PPN_from_ptr (ptr : Z) : PPN := wrap 32 (Z.shiftr ptr OFFSET_BITS).

Definition PPN_as_usize (p : PPN) : Z := wrap 64 (Z.shiftl p 12).

Inductive PpnError : Type := Ppn_BadAlignment | Ppn_OutOfRange.

Definition PPNDirect_from_usize (ptr : Z) : result PPN PpnError :=
  if decide (Z.land ptr OFFSET_MASK > 0) then Err Ppn_BadAlignment
  else match try_into 32 (Z.shiftr ptr OFFSET_BITS) with
       | Some ppn => Ok ppn
       | None => Err Ppn_OutOfRange
       end.

Record PPNRange : Type := mkPPNRange { start : Z; count : Z }.

#[export] Instance PPNRange_eq_dec : EqDecision PPNRange.
Proof. solve_decision. Defined.

Definition PPNRange_from_ptr (st cnt : Z) : PPNRange :=
  mkPPNRange (wrap 32 (Z.shiftr st OFFSET_BITS)) cnt.

Definition PPNRange_pop (r : PPNRange) : option PPN * PPNRange :=
  match checked_sub (count r) 1 with
  | Some c => (Some (wrap 32 (start r + c)), mkPPNRange (start r) c)
  | None => (None, r)
  end.

Definition PPNRange_pop_base (r : PPNRange) : option PPN * PPNRange :=
  match checked_sub (count r) 1 with
  | Some c => (Some (start r), mkPPNRange (wrap 32 (start r + 1)) c)
  | None => (None, r)
  end.

(** [count.try_into().unwrap()] panics when the argument does not fit [u32]. *)
Definition PPNRange_forget_base (r : PPNRange) (n : Z) : outcome (Z * PPNRange) :=
  match try_into 32 n with
  | None => Panicked "called `Result::unwrap()` on an `Err` value"
  | Some n =>
    match checked_sub (count r) n with
    | Some c => Done (n, mkPPNRange (wrap 32 (start r + n)) c)
    | None => Done (count r, mkPPNRange (start r) 0)
    end
  end.

Definition PPNRange_len (r : PPNRange) : Z := count r.

(** [PPNDirectRange] has the same two fields; its constructor checks the count. *)
Definition PPNDirectRange_new (st cnt : Z) : result PPNRange PpnError :=
  match try_into 32 cnt with
  | Some cnt => Ok (mkPPNRange st cnt)
  | None => Err Ppn_OutOfRange
  end.

Definition PPNDirectRange_pop_base (r : PPNRange) : option PPN * PPNRange :=
  match checked_sub (count r) 1 with
  | Some c => (Some (start r), mkPPNRange (wrap 32 (start r + 1)) c)
  | None => (None, r)
  end.

Definition PPNDirectRange_forget_base (r : PPNRange) (n : Z) : outcome (Z * PPNRange) :=
  match try_into 32 n with
  | None => Panicked "called `Result::unwrap()` on an `Err` value"
  | Some n =>
    match checked_sub (count r) n with
    | Some c => Done (n, mkPPNRange (wrap 32 (start r + n)) c)
    | None => Done (count r, mkPPNRange (start r) 0)
    end
  end.

(** ** Maps (arch/map.rs) *)

Inductive Map : Type :=
| Private (ppn : PPN)
| Direct (ppn : PPN)
| Shared (ppn : PPN)
| SharedLocked (ppn : PPN).

(** [SharedPPNRange] has no contents: every method of it is [todo!()]. *)
Inductive MapRange : Type :=
| RPrivate (r : PPNRange)
| RDirect (r : PPNRange)
| RShared
| RSharedLocked.

Definition not_yet_implemented : string := "not yet implemented".

Definition MapRange_len (m : MapRange) : outcome Z :=
  match m with
  | RPrivate p => Done (PPNRange_len p)
  | RDirect d => Done (count d)
  | RShared | RSharedLocked => Panicked not_yet_implemented
  end.

Definition MapRange_start (m : MapRange) : outcome Z :=
  match m with
  | RPrivate p => Done (start p)
  | RDirect d => Done (start d)
  | RShared | RSharedLocked => Panicked not_yet_implemented
  end.

Definition MapRange_pop_base (m : MapRange) : outcome (option Map * MapRange) :=
  match m with
  | RPrivate p => let '(o, p') := PPNRange_pop_base p in Done (Private <$> o, RPrivate p')
  | RDirect d => let '(o, d') := PPNDirectRange_pop_base d in Done (Direct <$> o, RDirect d')
  | RShared | RSharedLocked => Panicked not_yet_implemented
  end.

Definition MapRange_forget_base (m : MapRange) (n : Z) : outcome (Z * MapRange) :=
  match m with
  | RPrivate p => let! '(c, p') := PPNRange_forget_base p n in Done (c, RPrivate p')
  | RDirect d => let! '(c, d') := PPNDirectRange_forget_base d n in Done (c, RDirect d')
  | RShared | RSharedLocked => Panicked not_yet_implemented
  end.

(** ** The pages a range stands for *)

(** A range whose pages all have 32-bit numbers ([from_ptr]'s safety condition). *)
Definition range_ok (r : PPNRange) : Prop :=
  0 <= start r /\ 0 <= count r /\ start r + count r <= 2 ^ 32.

#[export] Instance range_ok_dec r : Decision (range_ok r).
Proof. unfold range_ok. apply _. Defined.

Definition ppns (r : PPNRange) : list PPN := seqZ (start r) (count r).

Lemma elem_of_ppns r p : p ∈ ppns r <-> start r <= p < start r + count r.
Proof. unfold ppns. rewrite elem_of_seqZ. lia. Qed.

Lemma NoDup_ppns r : NoDup (ppns r).
Proof. apply NoDup_seqZ. Qed.

(** [pop] takes the last page off. *)
Lemma PPNRange_pop_spec r o r' :
  range_ok r -> PPNRange_pop r = (o, r') ->
  range_ok r' /\
  match o with Some p => ppns r = ppns r' ++ [p] | None => ppns r = [] /\ r' = r end.
Proof.
  unfold PPNRange_pop, checked_sub, ppns, range_ok. intros Hr.
  case_decide as Hc; intros [= <- <-]; cbn.
  - split; [lia|]. rewrite wrap_small by (split; lia).
    replace (count r) with ((count r - 1) + 1) at 1 by lia.
    rewrite seqZ_app by lia. f_equal.
  - split; [lia|]. split; [|done]. apply seqZ_nil. lia.
Qed.

(** [pop_base] takes the first page off. *)
Lemma PPNRange_pop_base_spec r o r' :
  range_ok r -> PPNRange_pop_base r = (o, r') ->
  match o with
  | Some p => p = start r /\ ppns r = p :: ppns r' /\ (count r' = 0 \/ range_ok r')
              /\ count r' = count r - 1
  | None => ppns r = [] /\ r' = r
  end.
Proof.
  unfold PPNRange_pop_base, checked_sub, ppns, range_ok. intros Hr.
  case_decide as Hc; intros [= <- <-]; cbn.
  - destruct (decide (count r = 1)) as [E|E].
    + rewrite E. rewrite (seqZ_cons (start r) 1) by lia. cbn.
      rewrite !seqZ_nil by lia. split_and!; auto; lia.
    + rewrite wrap_small by (split; lia).
      rewrite (seqZ_cons (start r)) by lia.
      unfold Z.succ, Z.pred. replace (count r + -1) with (count r - 1) by lia.
      split_and!; [done|done|right; lia|done].
  - split; [|done]. apply seqZ_nil. lia.
Qed.

(** [forget_base] drops the first pages, at most all of them. *)
Lemma PPNRange_forget_base_spec r n :
  range_ok r -> fits 32 n ->
  exists r', PPNRange_forget_base r n = Done (Z.min n (count r), r') /\
             ppns r' = drop (Z.to_nat n) (ppns r) /\
             count r' = Z.max 0 (count r - n).
Proof.
  unfold PPNRange_forget_base, try_into, checked_sub, ppns, range_ok. intros Hr Hn.
  rewrite decide_True by done. case_decide as Hc.
  - eexists. split; [f_equal; f_equal; lia|]. cbn. split; [|lia].
    destruct (decide (n = count r)) as [->|Hne].
    + rewrite drop_ge by (rewrite length_seqZ; lia). apply seqZ_nil. lia.
    + unfold fits in Hn. rewrite wrap_small by (split; lia).
      replace (count r) with (n + (count r - n)) at 2 by lia.
      rewrite seqZ_app by lia. rewrite drop_app_length'; [done|]. rewrite length_seqZ. lia.
  - eexists. split; [f_equal; f_equal; lia|]. cbn. split; [|lia].
    rewrite drop_ge by (rewrite length_seqZ; lia). by apply seqZ_nil.
Qed.

Lemma PPNDirectRange_pop_base_eq r : PPNDirectRange_pop_base r = PPNRange_pop_base r.
Proof. done. Qed.

Lemma PPNDirectRange_forget_base_eq r n :
  PPNDirectRange_forget_base r n = PPNRange_forget_base r n.
Proof. done. Qed.

Lemma PPNDirect_from_usize_ok ptr :
  fits 64 ptr ->
  PPNDirect_from_usize ptr =
    if decide (ptr mod PAGE_SIZE <> 0) then Err Ppn_BadAlignment
    else if decide (ptr < 2 ^ 44) then Ok (ptr / PAGE_SIZE) else Err Ppn_OutOfRange.
Proof.
  intros Hp. unfold PPNDirect_from_usize, try_into, fits in *.
  replace (Z.land ptr OFFSET_MASK) with (ptr mod PAGE_SIZE) by (symmetry; apply (land_mask ptr 12); lia).
  rewrite Z.shiftr_div_pow2 by (compute; congruence).
  change (2 ^ OFFSET_BITS) with PAGE_SIZE. unfold PAGE_SIZE.
  pose proof (Z.mod_pos_bound ptr 4096). pose proof (Z.div_mod ptr 4096).
  decide_all.
Qed.
