(* ===== verification/Shared.v ===== *)
(** * Shared pages

    The reference counts of pages that several tasks map, src/kernel/src/memory/shared.rs: one 32-bit
    counter for each page, and one 16-bit word for each group of counters that says whether the memory of
    the group is there.  [SharedPPNRange] has no contents and all its functions are [todo!()].

    A weak compare-exchange may fail although the value is the expected one; which ones do is given by a
    list, one entry for each that is carried out.

    The theorems: clones and drops count the handles of a page, whatever compare-exchanges fail; the last
    drop panics; a page is never shared for the first time, because [new] returns only after a failure. *)

From S2P Require Import Prelude Ppn.

Record Shared : Type := mkShared { COUNTERS : gmap Z Z; ALLOC : gmap Z Z; failures : list bool }.

Definition with_counters (f : gmap Z Z -> gmap Z Z) (s : Shared) : Shared := mkShared (f (COUNTERS s)) (ALLOC s) (failures s).
Definition with_alloc (f : gmap Z Z -> gmap Z Z) (s : Shared) : Shared := mkShared (COUNTERS s) (f (ALLOC s)) (failures s).

Definition page_fault : string := "page fault in the kernel".

Definition PAGE_BITS : Z := 12.

Inductive AllocateError : Type := NoFreePages.
Inductive ReferenceCountOverflow : Type := mkReferenceCountOverflow.

(** Whether the next compare-exchange fails. *)
Definition fails : M Shared bool := fun s => Done (default false (head (failures s)), mkShared (COUNTERS s) (ALLOC s) (tail (failures s))).

(** [compare_exchange_weak] on a word that was found. *)
Definition compare_exchange_weak (set : Z -> Shared -> Shared) (now current new : Z) : M Shared (result Z Z) :=
  let* f := fails in
  if f || negb (now =? current) then ret (Err now) else modify (set new) ;; ret (Ok now).

Definition load_counter (i : Z) : M Shared Z := let* s := get in unwrap page_fault (COUNTERS s !! i).
Definition store_counter (i v : Z) : M Shared unit := load_counter i ;; modify (with_counters <[i := v]>).
Definition load_alloc (i : Z) : M Shared Z := let* s := get in unwrap page_fault (ALLOC s !! i).

Definition cas_alloc (i current new : Z) : M Shared (result Z Z) :=
  let* now := load_alloc i in compare_exchange_weak (fun v => with_alloc <[i := v]>) now current new.
Definition cas_counter (i current new : Z) : M Shared (result Z Z) :=
  let* now := load_counter i in compare_exchange_weak (fun v => with_counters <[i := v]>) now current new.

(** 16-bit signed addition. *)
Definition wrap_i16 (x : Z) : Z := wrap 16 (x + 2 ^ 15) - 2 ^ 15.

(** The loop of [new], which waits for the memory of the counters. *)
Fixpoint new_loop (fuel : nat) (i : Z) : M Shared unit :=
  match fuel with
  | O => fun _ => OutOfFuel
  | S fuel =>
      let* r := cas_alloc i 0 (-1) in
      match r with
      | Ok _ => panic not_yet_implemented
      | Err c => if c =? -1 then new_loop fuel i else
          let* r := cas_alloc i c (wrap_i16 (c + 1)) in
          match r with Ok _ => new_loop fuel i | Err _ => ret tt end
      end
  end.

Definition SharedPPN_new (fuel : nat) (ppn : PPN) : M Shared (result PPN AllocateError) :=
  new_loop fuel (Z.shiftr ppn PAGE_BITS) ;;
  store_counter ppn 0 ;;
  ret (Ok ppn).

Fixpoint SharedPPN_try_clone (fuel : nat) (p : PPN) : M Shared (result PPN ReferenceCountOverflow) :=
  match fuel with
  | O => fun _ => OutOfFuel
  | S fuel =>
      let* curr := load_counter p in
      match checked_add 32 curr 1 with
      | Some new =>
          let* r := cas_counter p curr new in
          match r with Ok _ => ret (Ok p) | Err _ => SharedPPN_try_clone fuel p end
      | None => ret (Err mkReferenceCountOverflow)
      end
  end.

(** [into_raw] and [from_raw] leave the counter as it is. *)
Definition SharedPPN_into_raw (p : PPN) : PPN := p.
Definition SharedPPN_from_raw (p : PPN) : PPN := p.

(** [fetch_sub] gives the value from before. *)
Definition SharedPPN_drop (p : PPN) : M Shared unit :=
  let* c := load_counter p in
  store_counter p (wrap 32 (c - 1)) ;;
  if c =? 0 then panic not_yet_implemented else ret tt.

(** ** Cloning *)

Lemma load_counter_done s i c : COUNTERS s !! i = Some c -> load_counter i s = Done (c, s).
Proof. intros Hc. unfold load_counter, bind, get. by rewrite Hc. Qed.

Lemma load_alloc_done s i c : ALLOC s !! i = Some c -> load_alloc i s = Done (c, s).
Proof. intros Hc. unfold load_alloc, bind, get. by rewrite Hc. Qed.

Lemma store_counter_done s i c v : COUNTERS s !! i = Some c -> store_counter i v s = Done (tt, with_counters <[i := v]> s).
Proof. intros Hc. unfold store_counter. by erewrite bind_done by (by apply load_counter_done). Qed.

(** A compare-exchange: the next entry of the list is used up. *)
Lemma cas_counter_done s i c current new : COUNTERS s !! i = Some c ->
  cas_counter i current new s = let s' := mkShared (COUNTERS s) (ALLOC s) (tail (failures s)) in
    Done (if default false (head (failures s)) || negb (c =? current) then (Err c, s') else (Ok c, with_counters <[i := new]> s')).
Proof. intros Hc. unfold cas_counter. erewrite bind_done by (by apply load_counter_done). unfold compare_exchange_weak. erewrite bind_done by done. by case_match. Qed.

Lemma cas_alloc_done s i c current new : ALLOC s !! i = Some c ->
  cas_alloc i current new s = let s' := mkShared (COUNTERS s) (ALLOC s) (tail (failures s)) in
    Done (if default false (head (failures s)) || negb (c =? current) then (Err c, s') else (Ok c, with_alloc <[i := new]> s')).
Proof. intros Hc. unfold cas_alloc. erewrite bind_done by (by apply load_alloc_done). unfold compare_exchange_weak. erewrite bind_done by done. by case_match. Qed.

(** The compare-exchanges that fail before one does not. *)
Fixpoint failing (l : list bool) : nat := match l with true :: l => S (failing l) | _ => 0 end.

(** A clone adds one to the counter or reports the overflow, after as many rounds as compare-exchanges fail. *)
Lemma try_clone_spec fuel : forall s p c, COUNTERS s !! p = Some c -> fits 32 c -> (failing (failures s) < fuel)%nat ->
  SharedPPN_try_clone fuel p s =
    Done (if decide (c + 1 < 2 ^ 32) then (Ok p, mkShared (<[p := c + 1]> (COUNTERS s)) (ALLOC s) (drop (S (failing (failures s))) (failures s)))
          else (Err mkReferenceCountOverflow, s)).
Proof.
  induction fuel as [|fuel IH]; intros [cs al fs] p c Hc Hf Hn; cbn in *; [lia|]. erewrite bind_done by (by apply load_counter_done).
  unfold checked_add. destruct (decide (c + 1 < 2 ^ 32)) as [Hlt|_]; [|done].
  unfold bind. rewrite (cas_counter_done _ p c) by done. cbn. rewrite Z.eqb_refl.
  destruct fs as [|[] fs]; cbn in *; [done| |done]. rewrite (IH (mkShared cs al fs) p c) by (cbn; done || lia). by rewrite decide_True by done.
Qed.

Lemma drop_spec s p c : COUNTERS s !! p = Some c -> fits 32 c -> c <> 0 ->
  SharedPPN_drop p s = Done (tt, mkShared (<[p := c - 1]> (COUNTERS s)) (ALLOC s) (failures s)).
Proof.
  intros Hc Hf Hn. unfold SharedPPN_drop. erewrite bind_done by (by apply load_counter_done). erewrite bind_done by (by eapply store_counter_done).
  rewrite (proj2 (Z.eqb_neq _ _)), wrap_small by (done || unfold fits in *; lia). done.
Qed.

(** ** Handles *)

Inductive op : Type := Clone (p : PPN) | Drop (p : PPN).

(** A program that clones and drops handles; a clone that overflows is not made. *)
Fixpoint run (fuel : nat) (l : list op) : M Shared unit :=
  match l with
  | [] => ret tt
  | Clone p :: l => SharedPPN_try_clone fuel p ;; run fuel l
  | Drop p :: l => SharedPPN_drop p ;; run fuel l
  end.

(** The handles of each page. *)
Definition spec_op (o : op) (h : gmap Z Z) : gmap Z Z :=
  match o with
  | Clone p => match h !! p with Some n => if decide (n < 2 ^ 32) then <[p := n + 1]> h else h | None => h end
  | Drop p => match h !! p with Some n => <[p := n - 1]> h | None => h end
  end.

(** A clone is made of a handle, and a drop is not that of the last one. *)
Definition allowed (o : op) (h : gmap Z Z) : Prop :=
  match o with Clone p => is_Some (h !! p) | Drop p => exists n, h !! p = Some n /\ 1 < n end.

Fixpoint all_allowed (l : list op) (h : gmap Z Z) : Prop :=
  match l with [] => True | o :: l => allowed o h /\ all_allowed l (spec_op o h) end.

(** A counter is one less than the handles. *)
Definition counts (s : Shared) (h : gmap Z Z) : Prop := forall p n, h !! p = Some n -> 1 <= n <= 2 ^ 32 /\ COUNTERS s !! p = Some (n - 1).

Lemma counts_update s h p n al fs : counts s h -> 1 <= n <= 2 ^ 32 -> counts (mkShared (<[p := n - 1]> (COUNTERS s)) al fs) (<[p := n]> h).
Proof.
  intros Hc Hn q m Hq. apply lookup_insert_Some in Hq as [[-> ->]|[Hne Hq]]; cbn; [by rewrite lookup_insert_eq|]. rewrite lookup_insert_ne by done. by apply Hc.
Qed.

(** The failures that are left are never more in a row. *)
Definition patient (fuel : nat) (fs : list bool) : Prop := forall k, (failing (drop k fs) < fuel)%nat.

Lemma patient_drop fuel k fs : patient fuel fs -> patient fuel (drop k fs).
Proof. intros H j. rewrite drop_drop. apply H. Qed.

(** Clones and drops count the handles of every page.  Whatever compare-exchanges fail, as long as one of
    [fuel] in a row succeeds, no operation panics, and at the end the counter of each page is one less than its
    handles; a clone beyond 2^32 handles is refused. *)
Theorem counts_handles fuel l : forall s h, counts s h -> all_allowed l h -> patient fuel (failures s) ->
  exists s', run fuel l s = Done (tt, s') /\ counts s' (foldl (fun h o => spec_op o h) h l).
Proof.
  induction l as [|o l IH]; intros s h Hc Ha Hp; [by exists s|]. destruct Ha as [Ho Ha]. destruct o as [p|p]; cbn [run foldl] in *; cbn [allowed spec_op] in *.
  - destruct Ho as [n Hn]. destruct (Hc p n Hn) as [Hr Hl]. rewrite Hn in *.
    assert (SharedPPN_try_clone fuel p s = _) as E by (apply (try_clone_spec fuel s p (n - 1)); [done|unfold fits; lia|exact (Hp 0%nat)]).
    destruct (decide (n < 2 ^ 32)) as [Hlt|Hge].
    + rewrite decide_True in E by lia. erewrite bind_done by exact E. apply IH; [|done|by apply patient_drop].
      replace (n - 1 + 1) with (n + 1 - 1) by lia. by apply counts_update; [|lia].
    + rewrite decide_False in E by lia. erewrite bind_done by exact E. by apply IH.
  - destruct Ho as (n & Hn & H1). destruct (Hc p n Hn) as [Hr Hl]. rewrite Hn in *.
    erewrite bind_done by (apply (drop_spec s p (n - 1)); [done|unfold fits; lia|lia]). apply IH; [|done|done]. by apply counts_update; [|lia].
Qed.

(** The drop of the last handle panics. *)
Theorem last_drop_panics s p : COUNTERS s !! p = Some 0 -> SharedPPN_drop p s = Panicked not_yet_implemented.
Proof. intros Hc. unfold SharedPPN_drop. erewrite bind_done by (by apply load_counter_done). by erewrite bind_done by (by eapply store_counter_done). Qed.

(** ** Sharing a page *)

(** Without a failing compare-exchange the loop of [new] does not end but by a panic. *)
Lemma new_loop_never fuel i : forall s r, failures s = [] -> new_loop fuel i s <> Done r.
Proof.
  induction fuel as [|fuel IH]; intros [cs al fs] r Hf; cbn in *; [done|]. subst fs. unfold bind at 1. destruct (al !! i) as [c|] eqn:E.
  - rewrite (cas_alloc_done _ i c) by done. cbn. destruct (Z.eqb_spec c 0) as [->|H0]; cbn; [done|]. destruct (c =? -1); [by apply IH|].
    unfold bind at 1. rewrite (cas_alloc_done _ i c) by done. cbn. rewrite Z.eqb_refl. by apply IH.
  - unfold cas_alloc, load_alloc, bind, get. cbn. by rewrite E.
Qed.

(** [new] returns only after a compare-exchange failed for no reason. *)
Theorem new_never_returns fuel ppn s r : failures s = [] -> SharedPPN_new fuel ppn s <> Done r.
Proof.
  intros Hf. unfold SharedPPN_new, bind at 1. pose proof (new_loop_never fuel (Z.shiftr ppn PAGE_BITS) s) as H.
  destruct (new_loop fuel _ s) as [r'| |]; [|done|done]. by destruct (H r' Hf).
Qed.

(** The memory of the counters is there and the second compare-exchange fails: the page has a counter, and the
    word of its group is not changed. *)
Theorem new_after_failure fuel ppn s fs v c : (0 < fuel)%nat -> failures s = false :: true :: fs -> ALLOC s !! Z.shiftr ppn PAGE_BITS = Some v -> v <> 0 -> v <> -1 ->
  COUNTERS s !! ppn = Some c -> SharedPPN_new fuel ppn s = Done (Ok ppn, mkShared (<[ppn := 0]> (COUNTERS s)) (ALLOC s) fs).
Proof.
  intros Hn Hf Ha H0 H1 Hc. destruct fuel as [|fuel]; [lia|]. destruct s as [cs al fs']. cbn in *. subst fs'. unfold SharedPPN_new. erewrite bind_done.
  2:{ cbn [new_loop]. unfold bind at 1. rewrite (cas_alloc_done _ _ v) by done. cbn. rewrite (proj2 (Z.eqb_neq v 0)) by done. cbn. rewrite (proj2 (Z.eqb_neq v (-1))) by done.
      unfold bind at 1. rewrite (cas_alloc_done _ _ v) by done. reflexivity. }
  by erewrite bind_done by (by eapply store_counter_done).
Qed.

(** A page with two handles. *)
Example share_example : run 3 [Clone 5; Drop 5; Clone 5] (mkShared {[5 := 1]} ∅ [true; false; true; true]) = Done (tt, mkShared {[5 := 2]} ∅ []).
Proof. vm_compute. reflexivity. Qed.
