(* ===== verification/Allocator.v ===== *)
(** * The physical page allocator (src/kernel/src/memory/allocator.rs, memory/mod.rs)

    Each hart has a ring of [STACK_SIZE] page numbers with 16-bit, freely
    wrapping [top] and [base] counters.  The ring is refined to a list: [push]
    and [pop] work at the end of the list, [pop_base] at its head.  The module
    ends with the interface [FrameAllocator] that the virtual memory system
    uses, and the instance that discharges it. *)

From S2P Require Import Prelude Page Ppn.

Definition STACK_SIZE : Z := 2048.

(** [size_of::<PPN>()] is 4 and [size_of::<(u16, u16)>()] is 4. *)
Definition MEM_STACK_SIZE : Z := STACK_SIZE * 4.
Definition MEM_TOTAL_SIZE : Z := MEM_STACK_SIZE + 4.

Record Stacks : Type := mkStacks {
  stacks : list (list Z);
  top_base : list (Z * Z)
}.

(** One hart's ring: [self.stacks[i]] panics out of range, and [top_base] is at
    least as long as [stacks]. *)
Definition Stacks_at (s : Stacks) (i : Z) : outcome (list Z * (Z * Z)) :=
  match nth_z (stacks s) i, nth_z (top_base s) i with
  | Some stack, Some tb => Done (stack, tb)
  | _, _ => Panicked "index out of bounds"
  end.

(** [&mut] access to one hart's ring, written back. *)
Definition Stacks_put (s : Stacks) (i : Z) (stack : list Z) (tb : Z * Z) : Stacks :=
  mkStacks (set_z (stacks s) i stack) (set_z (top_base s) i tb).

Definition ring_index (c : Z) : Z := Z.land c (STACK_SIZE - 1).

Definition Stacks_push (s : Stacks) (stack_index : Z) (ppn : PPN)
  : outcome (result unit PPN * Stacks) :=
  let! '(stack, (top, base)) := Stacks_at s stack_index in
  if decide (top = wrap 16 (base + STACK_SIZE)) then Done (Err ppn, s)
  else
    let stack' := set_z stack (ring_index top) ppn in
    Done (Ok tt, Stacks_put s stack_index stack' (wrap 16 (top + 1), base)).

Definition Stacks_pop (s : Stacks) (stack_index : Z) : outcome (option PPN * Stacks) :=
  let! '(stack, (top, base)) := Stacks_at s stack_index in
  if decide (top = base) then Done (None, s)
  else
    let top' := wrap 16 (top - 1) in
    match nth_z stack (ring_index top') with
    | Some ppn => Done (Some ppn, Stacks_put s stack_index stack (top', base))
    | None => Panicked "index out of bounds"
    end.

Definition Stacks_pop_base (s : Stacks) (stack_index : Z) : outcome (option PPN * Stacks) :=
  let! '(stack, (top, base)) := Stacks_at s stack_index in
  if decide (top = base) then Done (None, s)
  else
    match nth_z stack (ring_index base) with
    | Some ppn => Done (Some ppn, Stacks_put s stack_index stack (top, wrap 16 (base + 1)))
    | None => Panicked "index out of bounds"
    end.

(** [Allocator] wraps its [Stacks]; harts other than 0 are not used yet. *)
Record Allocator : Type := mkAllocator { alloc_stacks : Stacks }.

Inductive AllocateError : Type := AllocateError_.

Definition Allocator_alloc (a : Allocator) : outcome (result PPN unit * Allocator) :=
  let! '(o, s) := Stacks_pop (alloc_stacks a) 0 in
  match o with
  | Some ppn => Done (Ok ppn, mkAllocator s)
  | None => Panicked "TODO"
  end.

Definition Allocator_free (a : Allocator) (page : PPN) : outcome (unit * Allocator) :=
  let! '(r, s) := Stacks_push (alloc_stacks a) 0 page in
  match r with
  | Ok _ => Done (tt, mkAllocator s)
  | Err _ => Panicked not_yet_implemented
  end.

Definition Allocator_insert (a : Allocator) (page : PPN) : outcome (unit * Allocator) :=
  Allocator_free a page.

(** ** The global allocator (memory/mod.rs)

    [static mut ALLOCATOR: Option<Mutex<Allocator>>]; the release build takes
    it out with [unwrap_unchecked]. *)
Definition Pmm : Type := option Allocator.

Definition with_allocator {A} (f : Allocator -> outcome (A * Allocator)) : M Pmm A :=
  fun st => match st with
            | None => Panicked "undefined: ALLOCATOR is None"
            | Some a => let! '(x, a') := f a in Done (x, Some a')
            end.

(** What the rest of the kernel uses of the physical memory manager: taking one
    page under the lock.  [frames s l] says that [l] are the free pages, in the
    order they are handed out. *)
Class FrameAllocator (S : Type) : Type := {
  fa_alloc : M S (result PPN unit);
  frames : S -> list PPN -> Prop;
  fa_alloc_spec : forall s p l,
    frames s (p :: l) -> exists s', fa_alloc s = Done (Ok p, s') /\ frames s' l;
  fa_alloc_halts : halts fa_alloc
}.

(** [allocate]: lock, [alloc().unwrap()], unlock. *)
Definition mem_allocate {S} `{FrameAllocator S} : M S (result PPN AllocateError) :=
  let* r := fa_alloc in
  let* p := unwrap_ok "called `Result::unwrap()` on an `Err` value" r in
  ret (Ok p).

(** [mem_allocate_range]: the lock is dropped before the closure runs, so the
    closure may allocate itself; it runs over the same state. *)
Fixpoint mem_allocate_range {T} `{FrameAllocator T} (n : nat) (f : PPN -> M T unit)
  : M T (result unit unit) :=
  match n with
  | O => ret (Ok tt)
  | S n =>
    let? p := fa_alloc in
    f p ;;
    mem_allocate_range n f
  end.

Definition mem_deallocate (page : PPN) : M Pmm unit :=
  with_allocator (fun a => Allocator_free a page).

(** ** The ring as a list *)

(** [l] is the content of a ring from base to top. *)
Record ring_repr (stack : list Z) (tb : Z * Z) (l : list PPN) : Prop := mk_ring_repr {
  rr_size : zlen stack = STACK_SIZE;
  rr_base : fits 16 tb.2;
  rr_top : tb.1 = wrap 16 (tb.2 + zlen l);
  rr_len : zlen l <= STACK_SIZE;
  rr_get : forall i p, nth_z l i = Some p -> nth_z stack ((tb.2 + i) mod STACK_SIZE) = Some p
}.

Lemma ring_index_mod c : ring_index c = c mod STACK_SIZE.
Proof. exact (land_mask c 11 ltac:(lia)). Qed.

Lemma ring_index_wrap c : ring_index (wrap 16 c) = c mod STACK_SIZE.
Proof. rewrite ring_index_mod. change STACK_SIZE with (2 ^ 11). by apply wrap_mod_pow2. Qed.

Lemma ring_index_range c : 0 <= c mod STACK_SIZE < STACK_SIZE.
Proof. by apply Z.mod_pos_bound. Qed.

(** Positions of a ring that are less than a lap apart are distinct. *)
Lemma ring_index_inj x y :
  x mod STACK_SIZE = y mod STACK_SIZE -> Z.abs (x - y) < STACK_SIZE -> x = y.
Proof. exact (wrap_eq_near 11 x y). Qed.

Lemma ring_full stack top base l :
  ring_repr stack (top, base) l -> top = wrap 16 (base + STACK_SIZE) <-> zlen l = STACK_SIZE.
Proof.
  intros [_ _ Ht Hl _]. cbn in *. split; [|congruence]. intros E. rewrite Ht in E.
  apply wrap_eq_near in E; [lia|]. pose proof (zlen_nonneg l). unfold STACK_SIZE in *. lia.
Qed.

Lemma ring_empty stack top base l :
  ring_repr stack (top, base) l -> top = base <-> l = [].
Proof.
  intros [_ Hb Ht Hl _]. cbn in *. rewrite Ht. split.
  - intros E. rewrite <-(wrap_small 16 base) in E at 2 by done.
    apply wrap_eq_near in E; unfold zlen, STACK_SIZE in *; [|lia].
    apply nil_length_inv. lia.
  - intros ->. unfold zlen. cbn. rewrite Z.add_0_r. by apply wrap_small.
Qed.

Lemma ring_push stack top base l p :
  ring_repr stack (top, base) l -> zlen l < STACK_SIZE ->
  ring_repr (set_z stack (ring_index top) p) (wrap 16 (top + 1), base) (l ++ [p]).
Proof.
  intros [Hs Hb Ht _ Hg] Hlt. cbn in *. rewrite Ht, ring_index_wrap.
  pose proof (zlen_nonneg l).
  constructor; cbn; [by autorewrite with zlen|done| | |].
  - autorewrite with zlen. rewrite wrap_add_l. f_equal. lia.
  - autorewrite with zlen. lia.
  - intros i q Hi. pose proof (nth_z_Some _ _ _ Hi) as Hr.
    autorewrite with zlen in Hr.
    destruct (decide (i = zlen l)) as [->|Hne].
    + rewrite nth_z_app_r, Z.sub_diag in Hi by lia. cbn in Hi. injection Hi as <-.
      apply nth_z_set_eq. rewrite Hs. apply ring_index_range.
    + rewrite nth_z_app_l in Hi by lia. rewrite nth_z_set_ne; [by apply Hg|].
      intros E%ring_index_inj; lia.
Qed.

Lemma ring_pop stack top base l p :
  ring_repr stack (top, base) (l ++ [p]) ->
  nth_z stack (ring_index (wrap 16 (top - 1))) = Some p /\
  ring_repr stack (wrap 16 (top - 1), base) l.
Proof.
  intros [Hs Hb Ht Hl Hg]. cbn in *. autorewrite with zlen in *.
  rewrite Ht. rewrite ring_index_wrap.
  split.
  - rewrite <-(Hg (zlen l) p).
    + f_equal. change STACK_SIZE with (2 ^ 11). unfold Z.sub.
      rewrite wrap_add_mod_pow2 by lia. f_equal. lia.
    + rewrite nth_z_app_r by lia. by rewrite Z.sub_diag.
  - constructor; cbn; [done|done| |lia|].
    + rewrite wrap_sub_l. f_equal. lia.
    + intros i q Hi. apply Hg. rewrite nth_z_app_l; [done|].
      apply nth_z_Some in Hi. lia.
Qed.

Lemma ring_pop_base stack top base l p :
  ring_repr stack (top, base) (p :: l) ->
  nth_z stack (ring_index base) = Some p /\
  ring_repr stack (top, wrap 16 (base + 1)) l.
Proof.
  intros [Hs Hb Ht Hl Hg]. cbn in *. autorewrite with zlen in *.
  rewrite ring_index_mod. split.
  - rewrite <-(Hg 0 p) by done. by rewrite Z.add_0_r.
  - constructor; cbn; [done|by apply wrap_fits| |lia|].
    + rewrite Ht, wrap_add_l. f_equal. lia.
    + intros i q Hi. pose proof (nth_z_Some _ _ _ Hi).
      rewrite <-(Hg (i + 1) q).
      * f_equal. change STACK_SIZE with (2 ^ 11).
        rewrite wrap_add_mod_pow2 by lia. f_equal. lia.
      * unfold nth_z in *. rewrite decide_True in Hi by lia. rewrite decide_True by lia.
        by replace (Z.to_nat (i + 1)) with (S (Z.to_nat i)) by lia.
Qed.

(** The ring of hart [i] holds [l]. *)
Definition stack_repr (s : Stacks) (i : Z) (l : list PPN) : Prop :=
  exists stack tb, nth_z (stacks s) i = Some stack /\ nth_z (top_base s) i = Some tb /\
                   ring_repr stack tb l.

(** The rings of all other harts are as before. *)
Definition same_others (s s' : Stacks) (i : Z) : Prop :=
  forall j, j <> i -> nth_z (stacks s') j = nth_z (stacks s) j /\
                      nth_z (top_base s') j = nth_z (top_base s) j.

Lemma Stacks_at_eq s i stack tb :
  nth_z (stacks s) i = Some stack -> nth_z (top_base s) i = Some tb ->
  Stacks_at s i = Done (stack, tb).
Proof. unfold Stacks_at. by intros -> ->. Qed.

Lemma Stacks_put_repr s i stack tb stack' tb' l :
  nth_z (stacks s) i = Some stack -> nth_z (top_base s) i = Some tb ->
  ring_repr stack' tb' l ->
  stack_repr (Stacks_put s i stack' tb') i l /\ same_others s (Stacks_put s i stack' tb') i.
Proof.
  intros H1%nth_z_Some H2%nth_z_Some Hr. split.
  - exists stack', tb'. cbn. rewrite !nth_z_set_eq by done. done.
  - intros j Hj. cbn. rewrite !nth_z_set_ne by done. done.
Qed.

(** *** The abstract bounded double-ended queue *)

Inductive stack_op : Type := Push (p : PPN) | Pop | PopBase.

Inductive stack_ret : Type := Pushed (r : result unit PPN) | Popped (o : option PPN).

Definition deque_step (l : list PPN) (op : stack_op) : stack_ret * list PPN :=
  match op with
  | Push p => if decide (zlen l = STACK_SIZE) then (Pushed (Err p), l) else (Pushed (Ok tt), l ++ [p])
  | Pop => (Popped (last l), take (pred (length l)) l)
  | PopBase => (Popped (head l), tail l)
  end.

Definition Stacks_step (s : Stacks) (i : Z) (op : stack_op) : outcome (stack_ret * Stacks) :=
  match op with
  | Push p => let! '(r, s') := Stacks_push s i p in Done (Pushed r, s')
  | Pop => let! '(o, s') := Stacks_pop s i in Done (Popped o, s')
  | PopBase => let! '(o, s') := Stacks_pop_base s i in Done (Popped o, s')
  end.

Fixpoint deque_run (l : list PPN) (ops : list stack_op) : list stack_ret * list PPN :=
  match ops with
  | [] => ([], l)
  | op :: ops =>
    let '(r, l') := deque_step l op in
    let '(rs, l'') := deque_run l' ops in (r :: rs, l'')
  end.

Fixpoint Stacks_run (s : Stacks) (i : Z) (ops : list stack_op)
  : outcome (list stack_ret * Stacks) :=
  match ops with
  | [] => Done ([], s)
  | op :: ops =>
    let! '(r, s') := Stacks_step s i op in
    let! '(rs, s'') := Stacks_run s' i ops in Done (r :: rs, s'')
  end.

Lemma Stacks_push_refines s i l p :
  stack_repr s i l ->
  exists r l' s', Stacks_push s i p = Done (r, s') /\
    deque_step l (Push p) = (Pushed r, l') /\ stack_repr s' i l' /\ same_others s s' i.
Proof.
  intros (stack & [top base] & Hs & Ht & Hr). unfold Stacks_push.
  rewrite (Stacks_at_eq _ _ _ _ Hs Ht). cbn.
  pose proof (ring_full _ _ _ _ Hr) as Hfull. destruct (decide (zlen l = STACK_SIZE)) as [E|E].
  - rewrite decide_True by tauto. eexists _, _, _. split_and!; [done|done| |done].
    by exists stack, (top, base).
  - assert (zlen l < STACK_SIZE) by (destruct Hr; lia). rewrite decide_False by tauto.
    eexists _, _, _. split_and!; [done|done|..]; eapply Stacks_put_repr; eauto using ring_push.
Qed.

Lemma Stacks_pop_refines s i l :
  stack_repr s i l ->
  exists r l' s', Stacks_pop s i = Done (r, s') /\
    deque_step l Pop = (Popped r, l') /\ stack_repr s' i l' /\ same_others s s' i.
Proof.
  intros (stack & [top base] & Hs & Ht & Hr). unfold Stacks_pop.
  rewrite (Stacks_at_eq _ _ _ _ Hs Ht). cbn.
  pose proof (ring_empty _ _ _ _ Hr) as Hempty.
  destruct (last_snoc_inv l) as [->|(l' & p & ->)].
  - rewrite decide_True by tauto. eexists _, _, _. split_and!; [done|done| |done].
    by exists stack, (top, base).
  - rewrite decide_False by (rewrite Hempty; by destruct l').
    apply ring_pop in Hr as [Hp Hr]. rewrite Hp, last_snoc.
    rewrite length_app, Nat.add_comm. cbn. rewrite take_app_length.
    eexists _, _, _. split_and!; [done|done|..]; eapply Stacks_put_repr; eauto.
Qed.

Lemma Stacks_pop_base_refines s i l :
  stack_repr s i l ->
  exists r l' s', Stacks_pop_base s i = Done (r, s') /\
    deque_step l PopBase = (Popped r, l') /\ stack_repr s' i l' /\ same_others s s' i.
Proof.
  intros (stack & [top base] & Hs & Ht & Hr). unfold Stacks_pop_base.
  rewrite (Stacks_at_eq _ _ _ _ Hs Ht). cbn.
  pose proof (ring_empty _ _ _ _ Hr) as Hempty. destruct l as [|p l].
  - rewrite decide_True by tauto. eexists _, _, _. split_and!; [done|done| |done].
    by exists stack, (top, base).
  - rewrite decide_False by (rewrite Hempty; done).
    apply ring_pop_base in Hr as [Hp Hr]. rewrite Hp.
    eexists _, _, _. split_and!; [done|done|..]; eapply Stacks_put_repr; eauto.
Qed.

Lemma same_others_trans s1 s2 s3 i :
  same_others s1 s2 i -> same_others s2 s3 i -> same_others s1 s3 i.
Proof. intros H1 H2 j Hj. destruct (H1 j Hj), (H2 j Hj). split; congruence. Qed.

Lemma Stacks_step_refines s i l op :
  stack_repr s i l ->
  exists s', Stacks_step s i op = Done ((deque_step l op).1, s') /\
             stack_repr s' i (deque_step l op).2 /\ same_others s s' i.
Proof.
  intros Hs. destruct op as [p| |].
  - destruct (Stacks_push_refines s i l p Hs) as (r & l' & s' & E & E' & ?).
    exists s'. rewrite E'. cbn [Stacks_step]. by rewrite E.
  - destruct (Stacks_pop_refines s i l Hs) as (r & l' & s' & E & E' & ?).
    exists s'. rewrite E'. cbn [Stacks_step]. by rewrite E.
  - destruct (Stacks_pop_base_refines s i l Hs) as (r & l' & s' & E & E' & ?).
    exists s'. rewrite E'. cbn [Stacks_step]. by rewrite E.
Qed.

Lemma Stacks_run_refines ops s i l :
  stack_repr s i l ->
  exists s', Stacks_run s i ops = Done ((deque_run l ops).1, s') /\
             stack_repr s' i (deque_run l ops).2 /\ same_others s s' i.
Proof.
  revert s l. induction ops as [|op ops IH]; intros s l Hs; cbn.
  { exists s. split_and!; [done|done|]. intros j _. done. }
  destruct (Stacks_step_refines s i l op Hs) as (s1 & -> & Hs1 & Ho1). cbn.
  destruct (deque_step l op) as [r l1]. cbn in *.
  destruct (IH s1 l1 Hs1) as (s2 & -> & Hs2 & Ho2).
  destruct (deque_run l1 ops) as [rs l2]. cbn in *.
  exists s2. eauto using same_others_trans.
Qed.

(** *** The allocator hands out and takes back pages *)

Definition alloc_repr (a : Allocator) (l : list PPN) : Prop := stack_repr (alloc_stacks a) 0 l.

Lemma Allocator_alloc_spec a l p :
  alloc_repr a (l ++ [p]) ->
  exists a', Allocator_alloc a = Done (Ok p, a') /\ alloc_repr a' l.
Proof.
  intros (r & l' & s' & E & E' & Hs & _)%Stacks_pop_refines. unfold Allocator_alloc.
  rewrite E. cbn in *. rewrite last_snoc in E'. rewrite length_app, Nat.add_comm in E'.
  cbn in E'. rewrite take_app_length in E'. injection E' as <- <-. by eexists.
Qed.

Lemma Allocator_alloc_empty a : alloc_repr a [] -> Allocator_alloc a = Panicked "TODO".
Proof.
  intros (r & l' & s' & E & [= <- <-] & _)%Stacks_pop_refines. unfold Allocator_alloc.
  by rewrite E.
Qed.

Lemma Allocator_free_spec a l p :
  alloc_repr a l -> zlen l < STACK_SIZE ->
  exists a', Allocator_free a p = Done (tt, a') /\ alloc_repr a' (l ++ [p]).
Proof.
  intros (r & l' & s' & E & E' & Hs & _)%(fun H => Stacks_push_refines _ _ _ p H) Hl.
  unfold Allocator_free. rewrite E. cbn in *. rewrite decide_False in E' by lia.
  injection E' as <- <-. by eexists.
Qed.

Lemma Allocator_free_full a l p :
  alloc_repr a l -> zlen l = STACK_SIZE -> Allocator_free a p = Panicked not_yet_implemented.
Proof.
  intros (r & l' & s' & E & E' & Hs & _)%(fun H => Stacks_push_refines _ _ _ p H) Hl.
  unfold Allocator_free. rewrite E. cbn in *. rewrite decide_True in E' by done.
  by injection E' as <- <-.
Qed.

(** The global allocator discharges the interface. *)
Lemma with_allocator_alloc_spec st p l :
  (exists a, st = Some a /\ alloc_repr a (reverse (p :: l))) ->
  exists st', with_allocator Allocator_alloc st = Done (Ok p, st') /\
    exists a, st' = Some a /\ alloc_repr a (reverse l).
Proof.
  rewrite reverse_cons. intros (a & -> & (a' & E & Ha)%Allocator_alloc_spec). cbn.
  rewrite E. cbn. eauto.
Qed.

Lemma with_allocator_alloc_halts : halts (with_allocator Allocator_alloc).
Proof.
  intros [a|]; [|done]. unfold with_allocator, Allocator_alloc, Stacks_pop, Stacks_at.
  repeat (case_match; cbn; try done).
Qed.

#[export] Instance Pmm_FrameAllocator : FrameAllocator Pmm := {|
  fa_alloc := with_allocator Allocator_alloc;
  frames st l := exists a, st = Some a /\ alloc_repr a (reverse l);
  fa_alloc_spec := with_allocator_alloc_spec;
  fa_alloc_halts := with_allocator_alloc_halts
|}.

Lemma mem_allocate_halts {S} `{FrameAllocator S} : halts (S := S) mem_allocate.
Proof. unfold mem_allocate. halts_split. apply fa_alloc_halts. Qed.
#[export] Hint Resolve mem_allocate_halts : halts.

Lemma mem_allocate_spec {S} `{FrameAllocator S} s p l :
  frames s (p :: l) -> exists s', mem_allocate s = Done (Ok p, s') /\ frames s' l.
Proof.
  intros (s' & E & Hf)%fa_alloc_spec. exists s'. split; [|done].
  unfold mem_allocate, bind. by rewrite E.
Qed.

(** *** Life of the pages: taken from the allocator, and given back by their owner *)

Inductive pmm_step : Allocator * list PPN -> Allocator * list PPN -> Prop :=
| pmm_alloc a a' p owned :
    Allocator_alloc a = Done (Ok p, a') -> pmm_step (a, owned) (a', p :: owned)
| pmm_free a a' p o1 o2 :
    Allocator_free a p = Done (tt, a') -> pmm_step (a, o1 ++ p :: o2) (a', o1 ++ o2).

(** Every page is free or owned, and no page is both or counted twice. *)
Definition pmm_inv (pages : list PPN) (st : Allocator * list PPN) : Prop :=
  exists l, alloc_repr st.1 l /\ l ++ st.2 ≡ₚ pages.

Lemma Allocator_alloc_inv a l r a' :
  alloc_repr a l -> Allocator_alloc a = Done (r, a') ->
  exists l' p, l = l' ++ [p] /\ r = Ok p /\ alloc_repr a' l'.
Proof.
  intros Ha E. destruct (last_snoc_inv l) as [->|(l' & p & ->)].
  - rewrite Allocator_alloc_empty in E; done.
  - destruct (Allocator_alloc_spec _ _ _ Ha) as (a1 & E1 & Ha1).
    rewrite E1 in E. injection E as <- <-. eauto.
Qed.

Lemma pmm_step_inv pages st st' :
  zlen pages <= STACK_SIZE -> pmm_inv pages st -> pmm_step st st' -> pmm_inv pages st'.
Proof.
  intros Hlen (l & Ha & Hp) Hst. destruct Hst as [a a' p owned E|a a' p o1 o2 E]; cbn in *.
  - destruct (Allocator_alloc_inv _ _ _ _ Ha E) as (l' & q & -> & [= ->] & Ha').
    exists l'. split; [done|]. rewrite <-Hp. cbn. by rewrite <-app_assoc.
  - destruct (Allocator_free_spec a l p Ha) as (a1 & E1 & Ha1).
    + apply Permutation_length in Hp. rewrite !length_app in Hp. unfold zlen in *. cbn in Hp. lia.
    + rewrite E1 in E. injection E as <-. exists (l ++ [p]). split; [done|]. cbn.
      rewrite <-Hp, <-app_assoc. cbn. by rewrite Permutation_middle.
Qed.

Lemma pmm_reachable_inv pages st st' :
  zlen pages <= STACK_SIZE -> pmm_inv pages st -> rtc pmm_step st st' -> pmm_inv pages st'.
Proof. induction 3; eauto using pmm_step_inv. Qed.

(** A ring just mapped from zeroed memory, or one whose counters have run to [b]. *)
Lemma ring_repr_nil b : fits 16 b -> ring_repr (replicate 2048 0) (b, b) [].
Proof.
  intros Hb. constructor; cbn [fst snd]; [done|done| |done|].
  - rewrite Z.add_0_r. by rewrite wrap_small.
  - intros i p [? ?]%nth_z_Some. unfold zlen in *. cbn in *. lia.
Qed.

(** C5: for every sequence of [push], [pop] and [pop_base] on a hart's ring, from
    any content and any counter values, the code returns without panicking, its
    results are those of a double-ended queue bounded by [STACK_SIZE] (push fails
    exactly when the queue is full and hands the page back), the final ring holds
    the queue's final content, and the rings of the other harts are untouched. *)
Theorem stacks_refine_deque (s : Stacks) (i : Z) (l : list PPN) (ops : list stack_op) :
  stack_repr s i l ->
  exists s', Stacks_run s i ops = Done ((deque_run l ops).1, s') /\
             stack_repr s' i (deque_run l ops).2 /\ same_others s s' i.
Proof. apply Stacks_run_refines. Qed.

Lemma stacks_refine_deque_witness :
  let s := mkStacks [replicate 2048 0; replicate 2048 0] [(7, 7); (65535, 65535)] in
  exists s', Stacks_run s 1 [Push 5; Push 6; Push 7; PopBase; Pop; Pop; Pop] =
    Done ([Pushed (Ok tt); Pushed (Ok tt); Pushed (Ok tt); Popped (Some 5); Popped (Some 7);
           Popped (Some 6); Popped None], s') /\ stack_repr s' 1 [].
Proof.
  intros s.
  destruct (stacks_refine_deque s 1 [] [Push 5; Push 6; Push 7; PopBase; Pop; Pop; Pop])
    as (s' & E & Hs & _).
  - exists (replicate 2048 0), (65535, 65535). split_and!; [done..|]. by apply ring_repr_nil.
  - exists s'. split; [exact E|exact Hs].
Defined.

(** C4: pages are conserved.  In every state reached from an allocator that holds
    [pages] by allocations and by owners freeing what they own, the free pages
    and the owned pages together are exactly [pages]; an allocation never returns
    a page somebody owns; it panics exactly when every page is owned; and freeing
    an owned page always succeeds. *)
Theorem pmm_conservation (pages : list PPN) (a0 a : Allocator) (owned : list PPN) :
  zlen pages <= STACK_SIZE -> NoDup pages -> alloc_repr a0 pages ->
  rtc pmm_step (a0, []) (a, owned) ->
  (exists l, alloc_repr a l /\ l ++ owned ≡ₚ pages) /\
  (forall p a', Allocator_alloc a = Done (Ok p, a') -> p ∈ pages /\ p ∉ owned) /\
  (Allocator_alloc a = Panicked "TODO" <-> owned ≡ₚ pages) /\
  (forall p, p ∈ owned -> exists a', Allocator_free a p = Done (tt, a')).
Proof.
  intros Hlen Hnd Ha0 Hst.
  apply (pmm_reachable_inv pages) in Hst as (l & Ha & Hp); cbn in *;
    [|done|exists pages; cbn; by rewrite app_nil_r].
  split_and!.
  - eauto.
  - intros p a' E. destruct (Allocator_alloc_inv _ _ _ _ Ha E) as (l' & q & -> & [= ->] & _).
    rewrite <-Hp in Hnd. split; [rewrite <-Hp; set_solver|].
    intros Ho. apply NoDup_app in Hnd as (_ & Hd & _). apply (Hd q); set_solver.
  - split.
    + intros E. destruct (last_snoc_inv l) as [->|(l' & p & ->)]; [done|].
      destruct (Allocator_alloc_spec _ _ _ Ha) as (? & E' & _). congruence.
    + intros Ho. apply Allocator_alloc_empty.
      assert (length l = 0%nat) as El; [|by apply nil_length_inv in El as ->].
      apply Permutation_length in Hp, Ho. rewrite length_app in Hp. lia.
  - intros p Hin. apply Permutation_length in Hp. rewrite length_app in Hp.
    assert (length owned <> 0%nat) by (by destruct owned; [set_solver|]).
    destruct (Allocator_free_spec a l p Ha) as (a' & E & _); [unfold zlen in *; lia|eauto].
Qed.

(** An allocator whose ring holds the given pages from position 0 on. *)
Definition alloc_of (l : list PPN) : Allocator :=
  mkAllocator (mkStacks [l ++ replicate (2048 - length l) 0] [(zlen l, 0)]).

Lemma alloc_of_repr l : (length l <= 2048)%nat -> alloc_repr (alloc_of l) l.
Proof.
  intros Hl. eexists _, _. split_and!; [done..|].
  constructor; cbn [fst snd]; unfold STACK_SIZE.
  - autorewrite with zlen. unfold zlen. lia.
  - done.
  - rewrite wrap_small; [done|]. unfold fits, zlen. lia.
  - unfold zlen. lia.
  - intros i p Hi. change PPN with Z in *. pose proof (nth_z_Some _ _ _ Hi). unfold zlen in *.
    rewrite Z.add_0_l, Z.mod_small by lia. rewrite nth_z_app_l by (unfold zlen; lia). done.
Qed.

Definition two_page_allocator : Allocator := alloc_of [5; 6].

Lemma two_page_allocator_repr : alloc_repr two_page_allocator [5; 6].
Proof. apply alloc_of_repr. cbn. lia. Qed.

Lemma pmm_conservation_witness :
  exists a owned, rtc pmm_step (two_page_allocator, []) (a, owned) /\ owned = [6] /\
    (exists l, alloc_repr a l /\ l ++ [6] ≡ₚ [5; 6]).
Proof.
  destruct (Allocator_alloc two_page_allocator) as [[[p|] a]|w|] eqn:E; try by vm_compute in E.
  assert (rtc pmm_step (two_page_allocator, []) (a, [6])) as Hst.
  { apply rtc_once, pmm_alloc. rewrite E. vm_compute in E. by injection E as <- <-. }
  exists a, [6]. split_and!; [done|done|].
  apply (pmm_conservation [5; 6] two_page_allocator a [6]).
  - vm_compute. discriminate.
  - repeat constructor; set_solver.
  - apply two_page_allocator_repr.
  - exact Hst.
Defined.
