(* ===== verification/Reserved.v ===== *)
(** * The kernel's reserved address ranges (src/kernel/src/memory/reserved.rs)

    The [range!] macro lays ranges out downwards from the end of the address
    space: the global kernel ranges first, then, below a gigapage boundary, the
    ranges local to each address space.  The macro is a recursive function over
    the list of sizes; an invalid page is a compile-time panic, here [None]. *)

From S2P Require Import Prelude Page Allocator.

Record Range : Type := mkRange { rstart : Page; rend : Z }.

#[export] Instance Range_eq_dec : EqDecision Range.
Proof. solve_decision. Defined.

Definition byte_count (r : Range) : Z := wrap 64 (rend r + 1 - rstart r).

Definition page_count (r : Range) : Z := wrap 64 (byte_count r + OFFSET_MASK) / PAGE_SIZE.

Definition MAX_HARTS : Z := 4096.
Definition MAX_PAGE_SIZE : Z := Z.shiftl 1 30.
Definition MAX_PAGE_MASK : Z := MAX_PAGE_SIZE - 1.

(** [page!(offset o, s)] and [page!(end o)]. *)
Definition page_offset (offset s : Z) : option Page :=
  match Page_from_usize (wrap 64 (offset - s)) with Ok v => Some v | Err _ => None end.

Definition page_end (offset : Z) : option Page :=
  match Page_from_usize (Z.ldiff offset MAX_PAGE_MASK) with Ok v => Some v | Err _ => None end.

(** One named range after another; also returns the offset that is left. *)
Fixpoint ranges (offset : Z) (sizes : list Z) : option (list Range * Z) :=
  match sizes with
  | [] => Some ([], offset)
  | s :: sizes =>
    st ← page_offset offset s;
    '(rs, o) ← ranges (wrap 64 (offset - s)) sizes;
    Some (mkRange st (wrap 64 (offset - 1)) :: rs, o)
  end.

Record Layout : Type := mkLayout {
  l_global : list Range;
  l_GLOBAL : Range;
  l_local : list Range;
  l_LOCAL : Range
}.

#[export] Instance Layout_eq_dec : EqDecision Layout.
Proof. solve_decision. Defined.

(** The whole [range!] invocation, with its limit check: a constant
    subtraction that fails to compile when it underflows. *)
Definition range_macro (limit : Z) (global_sizes local_sizes : list Z) : option Layout :=
  '(gs, o) ← ranges 0 global_sizes;
  g_start ← page_end o;
  let g_offset := Z.ldiff o MAX_PAGE_MASK in
  '(ls, o') ← ranges g_offset local_sizes;
  l_start ← page_end o';
  _ ← checked_sub l_start limit;
  Some (mkLayout gs (mkRange g_start (wrap 64 (0 - 1)))
                 ls (mkRange l_start (wrap 64 (g_offset - 1)))).

(** The riscv64 configuration, for Sv39. *)
Definition riscv64_limit : Z := 0xffffff8000000000.

Definition riscv64_global : list Z := [
  (* KERNEL *)          Z.shiftl 1 17;
  (* PMM_BITMAP *)      Z.shiftl 1 44 / 8 / PAGE_SIZE;
  (* PMM_STACK *)       MEM_TOTAL_SIZE * MAX_HARTS * PAGE_SIZE;
  (* SHARED_COUNTERS *) Z.shiftl 1 (44 + 2) / PAGE_SIZE;
  (* SHARED_ALLOC *)    Z.shiftl 1 (44 - 12 + 1) / PAGE_SIZE;
  (* HART_STACKS *)     MAX_HARTS * PAGE_SIZE;
  (* DEVICE_TREE *)     Z.shiftl 1 16;
  (* TASK_GROUPS *)     Z.shiftl 1 20;
  (* TASK_DATA *)       Z.shiftl 1 30;
  (* PLIC *)            0x4000000;
  (* REGISTRY *)        Z.shiftl 1 20 ].

Definition riscv64_local : list Z := [
  (* HIGHMEM_A *) Z.shiftl 1 30;
  (* HIGHMEM_B *) Z.shiftl 1 30;
  (* VMM_ROOT *)  PAGE_SIZE ].

Definition riscv64_layout : option Layout :=
  range_macro riscv64_limit riscv64_global riscv64_local.

Definition no_range : Range := mkRange 0 0.

Definition no_layout : Layout := mkLayout [] no_range [] no_range.

(** The constants the macro defines, by position. *)
Definition layout : Layout := Eval vm_compute in default no_layout riscv64_layout.
Definition global_range (i : nat) : Range := Eval cbn in nth i (l_global layout) no_range.
Definition local_range (i : nat) : Range := Eval cbn in nth i (l_local layout) no_range.
Definition KERNEL : Range := Eval vm_compute in global_range 0.
Definition PMM_STACK : Range := Eval vm_compute in global_range 2.
Definition SHARED_COUNTERS : Range := Eval vm_compute in global_range 3.
Definition SHARED_ALLOC : Range := Eval vm_compute in global_range 4.
Definition HART_STACKS : Range := Eval vm_compute in global_range 5.
Definition DEVICE_TREE : Range := Eval vm_compute in global_range 6.
Definition TASK_GROUPS : Range := Eval vm_compute in global_range 7.
Definition TASK_DATA : Range := Eval vm_compute in global_range 8.
Definition PLIC : Range := Eval vm_compute in global_range 9.
Definition REGISTRY : Range := Eval vm_compute in global_range 10.
Definition HIGHMEM_A : Range := Eval vm_compute in local_range 0.
Definition HIGHMEM_B : Range := Eval vm_compute in local_range 1.
Definition VMM_ROOT : Range := Eval vm_compute in local_range 2.
Definition GLOBAL : Range := Eval vm_compute in l_GLOBAL layout.
Definition LOCAL : Range := Eval vm_compute in l_LOCAL layout.

(** ** Ranges tile the space below their offset *)

(** The end of the space below [offset]: offset 0 stands for [2^64]. *)
Definition top_of (offset : Z) : Z := if decide (offset = 0) then 2 ^ 64 else offset.

(** [rs] fill [lo .. hi) from the top, without gap or overlap, with the given sizes. *)
Fixpoint tiles (hi : Z) (rs : list Range) (sizes : list Z) (lo : Z) : Prop :=
  match rs, sizes with
  | [], [] => hi = lo
  | r :: rs, s :: sizes =>
    rend r = hi - 1 /\ rstart r = hi - s /\ page_ok (rstart r) /\ byte_count r = s /\
    tiles (rstart r) rs sizes lo
  | _, _ => False
  end.

Definition disjoint (r1 r2 : Range) : Prop := rend r1 < rstart r2 \/ rend r2 < rstart r1.

#[export] Instance disjoint_dec r1 r2 : Decision (disjoint r1 r2).
Proof. unfold disjoint. apply _. Defined.

Lemma page_offset_Some offset s p :
  page_offset offset s = Some p -> p = wrap 64 (offset - s) /\ page_ok p.
Proof.
  unfold page_offset. rewrite Page_from_usize_pointer, Page_from_pointer_spec by by apply wrap_fits.
  repeat case_decide; intros [= <-]; done.
Qed.

Lemma wrap_top offset s :
  fits 64 offset -> 0 < s < top_of offset -> wrap 64 (offset - s) = top_of offset - s.
Proof.
  unfold top_of, wrap, fits. case_decide; intros.
  - subst. rewrite <-(Z_mod_plus_full _ 1), Z.mod_small; lia.
  - apply Z.mod_small; lia.
Qed.

Lemma ranges_tile sizes offset rs o :
  fits 64 offset -> Forall (fun s => 0 < s) sizes -> foldr Z.add 0 sizes < top_of offset ->
  ranges offset sizes = Some (rs, o) ->
  tiles (top_of offset) rs sizes (top_of o) /\
  top_of o = top_of offset - foldr Z.add 0 sizes /\ fits 64 o.
Proof.
  revert offset rs. induction sizes as [|s sizes IH]; intros offset rs Hf Hs Hsum; cbn.
  { intros [= <- <-]. cbn in *. split_and!; [done|lia|done]. }
  apply Forall_cons in Hs as [Hs Hss]. cbn in Hsum.
  assert (0 <= foldr Z.add 0 sizes) by (clear -Hss; induction Hss; cbn; lia).
  assert (top_of offset <= 2 ^ 64) by (unfold top_of, fits in *; case_decide; lia).
  destruct (page_offset offset s) as [p|] eqn:Hp; [|done]. cbn.
  apply page_offset_Some in Hp as [Ep Hp].
  destruct (ranges (wrap 64 (offset - s)) sizes) as [[rs' o']|] eqn:Hr; [|done].
  intros [= <- <-]. rewrite wrap_top in Hr, Ep by (done || lia).
  assert (top_of (top_of offset - s) = top_of offset - s) as Et
    by (unfold top_of at 1; by rewrite decide_False by lia).
  apply IH in Hr as (Ht & Eo & Hfo); [|split; lia|done|lia].
  split_and!; [|lia|done]. cbn [rend rstart tiles].
  assert (wrap 64 (offset - 1) = top_of offset - 1) as -> by (apply wrap_top; [done|lia]).
  split_and!; [done|done|done| |].
  - unfold byte_count. cbn. rewrite wrap_small; [lia|split; lia].
  - rewrite Ep, Et in *. done.
Qed.

Lemma tiles_bounds hi rs sizes lo r :
  Forall (fun s => 0 < s) sizes -> tiles hi rs sizes lo -> r ∈ rs ->
  lo <= rstart r <= rend r /\ rend r < hi.
Proof.
  intros Hs. revert hi rs. induction Hs as [|s sizes Hs Hss IH]; intros hi [|r0 rs]; cbn; try done.
  { set_solver. }
  intros (E1 & E2 & _ & _ & Ht) Hin.
  assert (lo <= rstart r0).
  { clear -Ht Hss. revert Ht. generalize (rstart r0). revert rs.
    induction Hss as [|s sizes Hs Hss IH]; intros [|r rs] hi; cbn; try done; [lia|].
    intros (? & ? & _ & _ & Ht). apply IH in Ht. lia. }
  apply elem_of_cons in Hin as [->|Hin]; [lia|].
  specialize (IH _ _ Ht Hin). lia.
Qed.

Lemma tiles_disjoint hi rs sizes lo i j r1 r2 :
  Forall (fun s => 0 < s) sizes -> tiles hi rs sizes lo ->
  rs !! i = Some r1 -> rs !! j = Some r2 -> (i < j)%nat -> disjoint r1 r2.
Proof.
  intros Hs. revert hi rs i j.
  induction Hs as [|s sizes Hs Hss IH]; intros hi [|r0 rs] i j; cbn; try done.
  intros (E1 & E2 & _ & _ & Ht) H1 H2 Hij. destruct j as [|j]; [lia|]. cbn in H2.
  destruct i as [|i]; cbn in H1.
  - injection H1 as <-. apply list_elem_of_lookup_2 in H2.
    destruct (tiles_bounds _ _ _ _ _ Hss Ht H2). right. lia.
  - eapply IH; eauto. lia.
Qed.

(** Whatever positive sizes are given, if the [range!] macro compiles then
    the ranges it defines fill the space below their starting offset from the
    top: each has exactly its declared size, starts at a valid page, ends where
    the one before it starts, and any two of them are disjoint. *)
Theorem ranges_are_disjoint (offset o : Z) (sizes : list Z) (rs : list Range) (i j : nat) (r1 r2 : Range) :
  fits 64 offset -> Forall (fun s => 0 < s) sizes -> foldr Z.add 0 sizes < top_of offset ->
  ranges offset sizes = Some (rs, o) ->
  tiles (top_of offset) rs sizes (top_of o) /\
  (rs !! i = Some r1 -> rs !! j = Some r2 -> (i < j)%nat -> disjoint r1 r2).
Proof.
  intros Hf Hs Hsum Hr. destruct (ranges_tile _ _ _ _ Hf Hs Hsum Hr) as (Ht & _ & _).
  split; [done|]. eauto using tiles_disjoint.
Qed.

Lemma ranges_are_disjoint_witness : disjoint (global_range 3) (global_range 9).
Proof.
  refine (proj2 (ranges_are_disjoint 0 _ riscv64_global (l_global layout) 3 9 _ _ _ _ _ _)
            eq_refl eq_refl _).
  - by split.
  - repeat constructor.
  - by vm_compute.
  - vm_compute. reflexivity.
  - lia.
Defined.

(** The root table slot of an address. *)
Definition root_slot (a : Z) : Z := Z.land (Z.shiftr a 30) 511.

(** The riscv64 layout compiles, lies in the top half of the Sv39 space above
    its declared limit, and keeps apart what the virtual memory code relies on:
    the two HIGHMEM windows are exactly one aligned gigapage each, the root table
    window has a slot of its own, and no local slot is shared with a global one. *)
Theorem riscv64_layout_ok :
  riscv64_layout = Some layout /\
  Forall (fun r => riscv64_limit <= rstart r /\ page_ok (rstart r))
         (l_global layout ++ l_local layout) /\
  (rstart HIGHMEM_A mod MAX_PAGE_SIZE = 0 /\ byte_count HIGHMEM_A = MAX_PAGE_SIZE) /\
  (rstart HIGHMEM_B mod MAX_PAGE_SIZE = 0 /\ byte_count HIGHMEM_B = MAX_PAGE_SIZE) /\
  page_count VMM_ROOT = 1 /\
  NoDup [root_slot (rstart HIGHMEM_A); root_slot (rstart HIGHMEM_B); root_slot (rstart VMM_ROOT)] /\
  Forall (fun r => root_slot (rstart GLOBAL) <= root_slot (rstart r)) (l_global layout) /\
  Forall (fun r => 256 <= root_slot (rstart r) < root_slot (rstart GLOBAL)) (l_local layout).
Proof. apply (bool_decide_unpack _). vm_compute. exact I. Qed.
