(* ===== verification/Sv39Entry.v ===== *)
(** * Sv39 page table entries
    (src/kernel/src/arch/vms.rs, arch/riscv/vms/mod.rs, arch/riscv/vms/sv39.rs)

    Entries are 64-bit words: the page number from bit 10, two software bits
    for the kind of mapping, and the flags D A G U X W R V.  [Entry] and [Leaf]
    are two views of the same word with their own methods; a method with
    [&mut self] returns the new word. *)

From S2P Require Import Prelude Page Ppn Allocator Reserved.

(** ** arch/vms.rs *)

Inductive Accessibility : Type := UserLocal | KernelLocal | KernelGlobal.

Inductive RWX : Type := RWX_R | RWX_RW | RWX_X | RWX_RX | RWX_RWX.

#[export] Instance RWX_eq_dec : EqDecision RWX.
Proof. solve_decision. Defined.

Inductive PrivateOrShared : Type := PoS_Private (p : PPN) | PoS_Shared (p : PPN).

Inductive AddError : Type :=
| Add_Overlaps
| Add_OutOfRange
| Add_AllocateError (e : AllocateError).

Inductive ShareError : Type :=
| Share_Overlaps
| Share_OutOfRange
| Share_AllocateError (e : AllocateError)
| Share_NoEntry.

Definition ShareError_from (error : AddError) : ShareError :=
  match error with
  | Add_Overlaps => Share_Overlaps
  | Add_OutOfRange => Share_OutOfRange
  | Add_AllocateError e => Share_AllocateError e
  end.

(** ** arch/riscv/vms/mod.rs *)

Definition from_rwx (rwx : RWX) : Z :=
  match rwx with
  | RWX_R => 0x2
  | RWX_RW => 0x6
  | RWX_X => 0x8
  | RWX_RX => 0xa
  | RWX_RWX => 0xe
  end.

Definition to_rwx (flags : Z) : option RWX :=
  match Z.land flags 0xe with
  | 0x2 => Some RWX_R
  | 0x6 => Some RWX_RW
  | 0x8 => Some RWX_X
  | 0xa => Some RWX_RX
  | 0xe => Some RWX_RWX
  | _ => None
  end.

(** ** Entry *)

Definition VALID_MASK : Z := 0x1.
Definition RWX_MASK : Z := 0xe.
Definition USERMODE_MASK : Z := 0x10.

(** Written as [0b10_0000], a mask, and used below as a shift amount. *)
Definition Entry_GLOBAL_BIT : Z := 0x20.

Definition Entry_new_invalid : Z := 0.

Definition Entry_is_valid (e : Z) : bool := bool_decide (Z.land e VALID_MASK > 0).

Definition Entry_set_valid (e : Z) (valid : bool) : Z :=
  Z.lor (Z.ldiff e VALID_MASK) (bool_to_Z valid * VALID_MASK).

Definition Entry_rwx (e : Z) : option RWX := to_rwx (Z.land e RWX_MASK).

Definition Entry_set_rwx (e : Z) (rwx : RWX) : Z := Z.lor (Z.ldiff e RWX_MASK) (from_rwx rwx).

Definition Entry_set_usermode (e : Z) (allow : bool) : Z :=
  Z.lor (Z.ldiff e USERMODE_MASK) (bool_to_Z allow * USERMODE_MASK).

Definition Entry_set_global (e : Z) (global : bool) : Z :=
  Z.lor (Z.ldiff e (Z.shiftl 1 Entry_GLOBAL_BIT)) (Z.shiftl (bool_to_Z global) Entry_GLOBAL_BIT).

Definition Entry_is_table (e : Z) : bool :=
  match Entry_rwx e with None => true | Some _ => false end.

(** [new_leaf2] takes a physical address, [new_leaf3] a page number. *)
Definition Entry_new_leaf2 (ppn : Z) (rwx : RWX) (usermode global : bool) : Z :=
  let s := Z.shiftr ppn 2 in
  let s := Entry_set_rwx s rwx in
  let s := Entry_set_valid s true in
  let s := Entry_set_usermode s usermode in
  let s := Entry_set_global s global in
  Z.lor s 0xc0.

Definition Entry_new_leaf3 (ppn : Z) (rwx : RWX) (usermode global : bool) : Z :=
  let s := wrap 64 (Z.shiftl ppn 10) in
  let s := Entry_set_rwx s rwx in
  let s := Entry_set_valid s true in
  let s := Entry_set_usermode s usermode in
  let s := Entry_set_global s global in
  Z.lor s 0xc0.

Definition Entry_new_table (ppn : PPN) : Z :=
  Entry_set_valid (wrap 64 (Z.shiftl ppn 10)) true.

(** The page number as the kernel extracts it: [(pte.0 >> 10) as u32]. *)
Definition entry_ppn (e : Z) : PPN := wrap 32 (Z.shiftr e 10).

(** ** Leaf *)

Definition Leaf_VALID_BIT : Z := 0.
Definition Leaf_USERMODE_BIT : Z := 4.
Definition Leaf_GLOBAL_BIT : Z := 5.
Definition Leaf_ACCESSED_BIT : Z := 6.
Definition Leaf_DIRTY_BIT : Z := 7.
Definition TYPE_MASK : Z := Z.shiftl 3 8.
Definition TYPE_PRIVATE : Z := Z.shiftl 0 8.
Definition TYPE_DIRECT : Z := Z.shiftl 1 8.
Definition TYPE_SHARED : Z := Z.shiftl 2 8.
Definition TYPE_SHARED_LOCKED : Z := Z.shiftl 3 8.

Definition Leaf_is_valid (e : Z) : bool := bool_decide (Z.land e (Z.shiftl 1 Leaf_VALID_BIT) > 0).

Definition Leaf_is_shared (e : Z) : bool :=
  bool_decide (Z.land e TYPE_SHARED > 0) || bool_decide (Z.land e TYPE_SHARED_LOCKED > 0).

(** The word is zeroed before its kind is tested. *)
Definition Leaf_clear (e : Z) : result PrivateOrShared unit * Z :=
  if Leaf_is_valid e then
    let ppn := entry_ppn e in
    let e := 0 in
    if Leaf_is_shared e then (Ok (PoS_Shared ppn), e) else (Ok (PoS_Private ppn), e)
  else (Err tt, e).

Definition Leaf_set (e : Z) (map : Map) (rwx : RWX) (accessibility : Accessibility)
  : result unit AddError * Z :=
  let '(usermode, global) :=
    match accessibility with
    | UserLocal => (true, false)
    | KernelLocal => (false, false)
    | KernelGlobal => (false, true)
    end in
  if negb (Leaf_is_valid e) then
    let s := 0 in
    let '(s, ppn) :=
      match map with
      | Private ppn => (Z.lor s TYPE_PRIVATE, ppn)
      | Direct ppn => (Z.lor s TYPE_DIRECT, ppn)
      | Shared ppn => (Z.lor s TYPE_SHARED, ppn)
      | SharedLocked ppn => (Z.lor s TYPE_SHARED_LOCKED, ppn)
      end in
    let s := Z.lor s (wrap 64 (Z.shiftl ppn 10)) in
    let s := Z.lor s (Z.shiftl 1 Leaf_VALID_BIT) in
    let s := Z.lor s (from_rwx rwx) in
    let s := Z.lor s (Z.shiftl (bool_to_Z usermode) Leaf_USERMODE_BIT) in
    let s := Z.lor s (Z.shiftl (bool_to_Z global) Leaf_GLOBAL_BIT) in
    let s := Z.lor s (Z.shiftl 1 Leaf_ACCESSED_BIT) in
    let s := Z.lor s (Z.shiftl 1 Leaf_DIRTY_BIT) in
    (Ok tt, s)
  else (Err Add_Overlaps, e).

(** The test [true || self.is_shared()] always takes the first branch, so
    [SharedPPN::new] is never called here. *)
Definition Leaf_share (e : Z) : result Map ShareError :=
  if Leaf_is_valid e then
    if decide (Z.land e TYPE_MASK = TYPE_DIRECT) then Ok (Direct (entry_ppn e))
    else Ok (Shared (entry_ppn e))
  else Err Share_NoEntry.

(** ** VirtualAddress *)

Definition PPN_2_OFFSET : Z := 30.
Definition PPN_1_OFFSET : Z := 21.
Definition PPN_0_OFFSET : Z := 12.
Definition PPN_2_MASK : Z := Z.shiftl 0x1ff PPN_2_OFFSET.
Definition PPN_1_MASK : Z := Z.shiftl 0x1ff PPN_1_OFFSET.
Definition PPN_0_MASK : Z := Z.shiftl 0x1ff PPN_0_OFFSET.

Definition ppn_2 (va : Z) : Z := Z.shiftr (Z.land va PPN_2_MASK) PPN_2_OFFSET.
Definition ppn_1 (va : Z) : Z := Z.shiftr (Z.land va PPN_1_MASK) PPN_1_OFFSET.
Definition ppn_0 (va : Z) : Z := Z.shiftr (Z.land va PPN_0_MASK) PPN_0_OFFSET.

(** ** Words as a page number and ten flag bits *)

(** [pte hi f] is the word with page number [hi] and flags [f]. *)
Definition pte (hi f : Z) : Z := hi * 2 ^ 10 + f.

Definition flags_ok (f : Z) : Prop := fits 10 f.

Lemma pte_split e : e = pte (Z.shiftr e 10) (e mod 2 ^ 10).
Proof. by apply (field_split 10). Qed.

Lemma pte_lor hi f m : fits 10 f -> fits 10 m -> Z.lor (pte hi f) m = pte hi (Z.lor f m).
Proof. by apply field_lor. Qed.

Lemma pte_ldiff hi f m : fits 10 f -> fits 10 m -> Z.ldiff (pte hi f) m = pte hi (Z.ldiff f m).
Proof. by apply field_ldiff. Qed.

Lemma pte_land hi f m : fits 10 f -> fits 10 m -> Z.land (pte hi f) m = Z.land f m.
Proof. by apply field_land. Qed.

Lemma pte_shiftr hi f : fits 10 f -> Z.shiftr (pte hi f) 10 = hi.
Proof. by apply field_shiftr. Qed.

Lemma pte_mod hi f : fits 10 f -> pte hi f mod 2 ^ 10 = f.
Proof. by apply field_mod. Qed.

Lemma entry_ppn_pte hi f : fits 32 hi -> fits 10 f -> entry_ppn (pte hi f) = hi.
Proof. intros. unfold entry_ppn. rewrite pte_shiftr by done. by apply wrap_small. Qed.

Lemma shiftl_pte hi : fits 32 hi -> wrap 64 (Z.shiftl hi 10) = pte hi 0.
Proof.
  intros [H0 H1]. rewrite Z.shiftl_mul_pow2 by lia. unfold pte. rewrite Z.add_0_r.
  apply wrap_small. unfold fits. lia.
Qed.

Lemma lor_pte m hi f : fits 10 f -> fits 10 m -> Z.lor m (pte hi f) = pte hi (Z.lor m f).
Proof. intros. rewrite Z.lor_comm, pte_lor by done. by rewrite Z.lor_comm. Qed.

(** Flag tests of a word only look at its flags. *)
Lemma Leaf_is_valid_pte hi f : fits 10 f -> Leaf_is_valid (pte hi f) = Leaf_is_valid f.
Proof. intros. unfold Leaf_is_valid. by rewrite pte_land. Qed.

Lemma Entry_is_valid_pte hi f : fits 10 f -> Entry_is_valid (pte hi f) = Entry_is_valid f.
Proof. intros. unfold Entry_is_valid. by rewrite pte_land. Qed.

Lemma Entry_rwx_pte hi f : fits 10 f -> Entry_rwx (pte hi f) = Entry_rwx f.
Proof. intros. unfold Entry_rwx. by rewrite pte_land. Qed.

Lemma Entry_is_table_pte hi f : fits 10 f -> Entry_is_table (pte hi f) = Entry_is_table f.
Proof. intros. unfold Entry_is_table. by rewrite Entry_rwx_pte. Qed.

(** ** What the constructors build *)

Definition map_ppn (m : Map) : PPN :=
  match m with Private p | Direct p | Shared p | SharedLocked p => p end.

Definition map_type (m : Map) : Z :=
  match m with
  | Private _ => TYPE_PRIVATE | Direct _ => TYPE_DIRECT
  | Shared _ => TYPE_SHARED | SharedLocked _ => TYPE_SHARED_LOCKED
  end.

Definition acc_flags (a : Accessibility) : Z :=
  match a with UserLocal => 0x10 | KernelLocal => 0 | KernelGlobal => 0x20 end.

Definition leaf_flags (m : Map) (rwx : RWX) (a : Accessibility) : Z :=
  map_type m + 0xc0 + acc_flags a + from_rwx rwx + 1.

Lemma leaf_flags_fits m rwx a : fits 10 (leaf_flags m rwx a).
Proof. destruct m, rwx, a; by vm_compute. Qed.

Lemma Leaf_set_invalid e m rwx a :
  Leaf_is_valid e = false -> fits 32 (map_ppn m) ->
  Leaf_set e m rwx a = (Ok tt, pte (map_ppn m) (leaf_flags m rwx a)).
Proof.
  intros He Hp. unfold Leaf_set. rewrite He. destruct a, m as [p|p|p|p]; cbn [negb map_ppn] in *;
    rewrite shiftl_pte by done; rewrite lor_pte by (by vm_compute);
    destruct rwx; rewrite !pte_lor by (by vm_compute); f_equal.
Qed.

Lemma Leaf_set_valid e m rwx a :
  Leaf_is_valid e = true -> Leaf_set e m rwx a = (Err Add_Overlaps, e).
Proof. intros He. unfold Leaf_set. rewrite He. by destruct a. Qed.

Lemma Leaf_clear_valid e :
  Leaf_is_valid e = true -> Leaf_clear e = (Ok (PoS_Private (entry_ppn e)), 0).
Proof. unfold Leaf_clear. by intros ->. Qed.

Lemma Leaf_clear_invalid e : Leaf_is_valid e = false -> Leaf_clear e = (Err tt, e).
Proof. unfold Leaf_clear. by intros ->. Qed.

Lemma Entry_new_table_pte p : fits 32 p -> Entry_new_table p = pte p 1.
Proof.
  intros. unfold Entry_new_table, Entry_set_valid. rewrite shiftl_pte by done.
  rewrite pte_ldiff by (by vm_compute). by rewrite pte_lor by (by vm_compute).
Qed.

(** [set_global] acts on bit 32 of the word, which is bit 22 of the page number. *)
Lemma Entry_set_global_pte hi f g :
  fits 10 f -> 0 <= hi ->
  Entry_set_global (pte hi f) g = pte (Z.lor (Z.ldiff hi (2 ^ 22)) (Z.shiftl (bool_to_Z g) 22)) f.
Proof.
  intros Hf Hhi. unfold Entry_set_global, pte.
  replace (Z.shiftl 1 Entry_GLOBAL_BIT) with (Z.shiftl (2 ^ 22) 10) by done.
  replace (Z.shiftl (bool_to_Z g) Entry_GLOBAL_BIT) with (Z.shiftl (Z.shiftl (bool_to_Z g) 22) 10)
    by (by destruct g).
  rewrite field_ldiff_hi by (done || lia).
  rewrite field_lor_hi; [done|done|done|]. by destruct g.
Qed.

Lemma Entry_new_leaf3_pte p rwx u g :
  fits 32 p ->
  Entry_new_leaf3 p rwx u g =
    pte (Z.lor (Z.ldiff p (2 ^ 22)) (Z.shiftl (bool_to_Z g) 22))
        (0xc1 + from_rwx rwx + bool_to_Z u * 0x10).
Proof.
  intros Hp. unfold Entry_new_leaf3, Entry_set_rwx, Entry_set_valid, Entry_set_usermode.
  rewrite shiftl_pte by done. unfold fits in Hp.
  destruct rwx, u; repeat first [rewrite pte_ldiff by (by vm_compute) | rewrite pte_lor by (by vm_compute)];
    rewrite Entry_set_global_pte by (lia || by vm_compute); by rewrite pte_lor by (by vm_compute).
Qed.

Lemma Entry_new_leaf2_leaf3 p rwx u g :
  fits 32 p -> Entry_new_leaf2 (p * PAGE_SIZE) rwx u g = Entry_new_leaf3 p rwx u g.
Proof.
  intros Hp. unfold Entry_new_leaf2, Entry_new_leaf3. rewrite shiftl_pte by done.
  replace (Z.shiftr (p * PAGE_SIZE) 2) with (pte p 0); [done|].
  unfold pte, PAGE_SIZE. rewrite Z.shiftr_div_pow2 by lia.
  replace (p * 4096) with (p * 2 ^ 10 * 2 ^ 2) by lia. rewrite Z.div_mul by lia. lia.
Qed.

(** ** Addresses split into table indices *)

Lemma ppn_n_spec va k : 0 <= k -> Z.shiftr (Z.land va (Z.shiftl 0x1ff k)) k = (va / 2 ^ k) mod 512.
Proof.
  intros Hk. rewrite Z.shiftr_land, Z.shiftr_shiftl_l, Z.sub_diag, Z.shiftl_0_r by done.
  change 0x1ff with (2 ^ 9 - 1). rewrite land_mask by lia. by rewrite Z.shiftr_div_pow2.
Qed.

Lemma ppn_2_spec va : ppn_2 va = (va / 2 ^ 30) mod 512.
Proof. by apply ppn_n_spec. Qed.

Lemma ppn_1_spec va : ppn_1 va = (va / 2 ^ 21) mod 512.
Proof. by apply ppn_n_spec. Qed.

Lemma ppn_0_spec va : ppn_0 va = (va / 2 ^ 12) mod 512.
Proof. by apply ppn_n_spec. Qed.

Lemma ppn_n_range va : 0 <= ppn_2 va < 512 /\ 0 <= ppn_1 va < 512 /\ 0 <= ppn_0 va < 512.
Proof. rewrite ppn_2_spec, ppn_1_spec, ppn_0_spec. split_and!; by apply Z.mod_pos_bound. Qed.

(** The address with the given indices, in the window that starts at slot [i2]. *)
Lemma ppn_n_of i2 i1 i0 o :
  0 <= i2 < 512 -> 0 <= i1 < 512 -> 0 <= i0 < 512 -> 0 <= o < 4096 ->
  forall hi, let va := hi * 2 ^ 39 + i2 * 2 ^ 30 + i1 * 2 ^ 21 + i0 * 2 ^ 12 + o in
  ppn_2 va = i2 /\ ppn_1 va = i1 /\ ppn_0 va = i0 /\ va mod 4096 = o.
Proof.
  intros H2 H1 H0 Ho hi va. rewrite ppn_2_spec, ppn_1_spec, ppn_0_spec. subst va. split_and!.
  - replace (hi * 2 ^ 39 + i2 * 2 ^ 30 + i1 * 2 ^ 21 + i0 * 2 ^ 12 + o)
      with ((hi * 512 + i2) * 2 ^ 30 + (i1 * 2 ^ 21 + i0 * 2 ^ 12 + o)) by lia.
    rewrite Z.div_add_l, Z.div_small by lia.
    replace (hi * 512 + i2 + 0) with (i2 + hi * 512) by lia.
    rewrite Z_mod_plus_full. by apply Z.mod_small.
  - replace (hi * 2 ^ 39 + i2 * 2 ^ 30 + i1 * 2 ^ 21 + i0 * 2 ^ 12 + o)
      with (((hi * 512 + i2) * 512 + i1) * 2 ^ 21 + (i0 * 2 ^ 12 + o)) by lia.
    rewrite Z.div_add_l, Z.div_small by lia.
    replace ((hi * 512 + i2) * 512 + i1 + 0) with (i1 + (hi * 512 + i2) * 512) by lia.
    rewrite Z_mod_plus_full. by apply Z.mod_small.
  - replace (hi * 2 ^ 39 + i2 * 2 ^ 30 + i1 * 2 ^ 21 + i0 * 2 ^ 12 + o)
      with ((((hi * 512 + i2) * 512 + i1) * 512 + i0) * 2 ^ 12 + o) by lia.
    rewrite Z.div_add_l, Z.div_small by lia.
    replace (((hi * 512 + i2) * 512 + i1) * 512 + i0 + 0)
      with (i0 + ((hi * 512 + i2) * 512 + i1) * 512) by lia.
    rewrite Z_mod_plus_full. by apply Z.mod_small.
  - replace (hi * 2 ^ 39 + i2 * 2 ^ 30 + i1 * 2 ^ 21 + i0 * 2 ^ 12 + o)
      with (o + (hi * 2 ^ 27 + i2 * 2 ^ 18 + i1 * 2 ^ 9 + i0) * 4096) by lia.
    rewrite Z_mod_plus_full. by apply Z.mod_small.
Qed.

(** ** Properties *)

Lemma leaf_flags_decode m rwx a :
  Leaf_is_valid (leaf_flags m rwx a) = true /\
  Entry_rwx (leaf_flags m rwx a) = Some rwx /\
  Z.testbit (leaf_flags m rwx a) 4 = (match a with UserLocal => true | _ => false end) /\
  Z.testbit (leaf_flags m rwx a) 5 = (match a with KernelGlobal => true | _ => false end) /\
  Z.land (leaf_flags m rwx a) TYPE_MASK = map_type m.
Proof. destruct m, rwx, a; by vm_compute. Qed.

Lemma pte_testbit hi f i : fits 10 f -> 0 <= i < 10 -> Z.testbit (pte hi f) i = Z.testbit f i.
Proof. intros. unfold pte. rewrite field_testbit by (done || lia). by rewrite decide_True by lia. Qed.

(** Setting an unused leaf succeeds and loses nothing: the written word is a
    valid leaf from which the page number, the permissions, the user and global
    bits and the kind of mapping can all be read back, and a second [set] of the
    same leaf is refused without changing it. *)
Theorem leaf_set_roundtrip (e : Z) (m : Map) (rwx : RWX) (a : Accessibility) :
  Leaf_is_valid e = false -> fits 32 (map_ppn m) ->
  exists e', Leaf_set e m rwx a = (Ok tt, e') /\
    Leaf_is_valid e' = true /\ Entry_is_table e' = false /\
    entry_ppn e' = map_ppn m /\ Entry_rwx e' = Some rwx /\
    Z.testbit e' 4 = (match a with UserLocal => true | _ => false end) /\
    Z.testbit e' 5 = (match a with KernelGlobal => true | _ => false end) /\
    Z.land e' TYPE_MASK = map_type m /\
    forall m' rwx' a', Leaf_set e' m' rwx' a' = (Err Add_Overlaps, e').
Proof.
  intros He Hp. pose proof (leaf_flags_fits m rwx a) as Hf.
  destruct (leaf_flags_decode m rwx a) as (Hv & Hr & Hu & Hg & Ht).
  exists (pte (map_ppn m) (leaf_flags m rwx a)). split; [by apply Leaf_set_invalid|].
  rewrite Leaf_is_valid_pte, Entry_is_table_pte, entry_ppn_pte, Entry_rwx_pte, !pte_testbit,
    pte_land by (done || lia || by vm_compute).
  split_and!; try done.
  - unfold Entry_is_table. by rewrite Hr.
  - intros. apply Leaf_set_valid. by rewrite Leaf_is_valid_pte.
Qed.

Lemma leaf_set_roundtrip_witness :
  exists e', Leaf_set 0 (Shared 0x80200) RWX_RW UserLocal = (Ok tt, e') /\ entry_ppn e' = 0x80200 /\
             Entry_rwx e' = Some RWX_RW.
Proof.
  destruct (leaf_set_roundtrip 0 (Shared 0x80200) RWX_RW UserLocal) as (e' & H1 & _ & _ & H2 & H3 & _).
  - reflexivity.
  - by vm_compute.
  - eauto.
Defined.

(** [Leaf::clear] forgets the kind of the mapping: for every valid leaf,
    shared ones included, it zeroes the word and then reports a private page, so
    a shared page is never handed back as shared; and a leaf set from a private
    page is shared as [Shared] while itself staying marked private. *)
Theorem leaf_clear_always_private (e : Z) (p : PPN) (rwx : RWX) (a : Accessibility) :
  (Leaf_is_valid e = true -> Leaf_clear e = (Ok (PoS_Private (entry_ppn e)), 0)) /\
  (Leaf_is_valid e = false -> Leaf_clear e = (Err tt, e)) /\
  (fits 32 p ->
   Leaf_share (Leaf_set 0 (Private p) rwx a).2 = Ok (Shared p) /\
   Leaf_is_shared (Leaf_set 0 (Private p) rwx a).2 = false /\
   Leaf_is_shared (Leaf_set 0 (Direct p) rwx a).2 = true).
Proof.
  split_and!; [apply Leaf_clear_valid|apply Leaf_clear_invalid|].
  - unfold Leaf_share, Leaf_is_shared. intros Hp. rewrite !Leaf_set_invalid by done. cbn [map_ppn snd].
    rewrite !Leaf_is_valid_pte, !entry_ppn_pte, !pte_land
      by (done || apply leaf_flags_fits || by vm_compute).
    destruct rwx, a; by vm_compute.
Qed.
