(* ===== verification/Sv39.v ===== *)
(** * The Sv39 virtual memory system (src/kernel/src/arch/riscv/vms/sv39.rs)

    The machine has physical memory, the [satp] register and the page allocator.
    Every access the code makes to a table goes through the page tables as the
    hardware would translate it: the root table through its window [ROOT], other
    tables through the [HIGHMEM_A] and [HIGHMEM_B] gigapage windows, whose slots
    the code rewrites, and early in boot through the identity map.  Pointers to
    entries are virtual addresses.

    The hardware's walk is that of the RISC-V privileged architecture, chapter
    4.4, that the source refers to.  There is no translation cache in the model:
    a walk always sees the tables as they are, so [sfence.vma] does nothing. *)

From S2P Require Import Prelude Page Ppn Allocator Reserved Sv39Entry.

(** ** The machine *)

(** Physical memory: the 64-bit word at an index (0..511) of a page. *)
Definition rd (m : gmap (Z * Z) Z) (p i : Z) : Z := default 0 (m !! (p, i)).

Definition wr (m : gmap (Z * Z) Z) (p i v : Z) : gmap (Z * Z) Z := <[(p, i) := v]> m.

Record Machine (A : Type) : Type := mkMachine {
  phys : gmap (Z * Z) Z;
  satp : Z;
  pmm : A
}.
Arguments mkMachine {A} phys satp pmm.
Arguments phys {A} m.
Arguments satp {A} m.
Arguments pmm {A} m.

(** What the hardware sees in an entry. *)
Inductive HwKind : Type := HwFault | HwLeaf (ppn : Z) | HwTable (ppn : Z).

Definition hw_ppn (e : Z) : Z := Z.shiftr e 10 mod 2 ^ 44.

Definition hw_kind (e : Z) : HwKind :=
  if negb (Z.testbit e 0) || (negb (Z.testbit e 1) && Z.testbit e 2) then HwFault
  else if Z.testbit e 1 || Z.testbit e 3 then HwLeaf (hw_ppn e)
  else HwTable (hw_ppn e).

(** The page an address translates to, and the leaf entry found. *)
Definition hw_walk (m : gmap (Z * Z) Z) (root va : Z) : option (Z * Z) :=
  let e2 := rd m root (ppn_2 va) in
  match hw_kind e2 with
  | HwFault => None
  | HwLeaf p => if decide (p mod 2 ^ 18 = 0) then Some (p + ppn_1 va * 2 ^ 9 + ppn_0 va, e2) else None
  | HwTable p1 =>
    let e1 := rd m p1 (ppn_1 va) in
    match hw_kind e1 with
    | HwFault => None
    | HwLeaf p => if decide (p mod 2 ^ 9 = 0) then Some (p + ppn_0 va, e1) else None
    | HwTable p0 =>
      let e0 := rd m p0 (ppn_0 va) in
      match hw_kind e0 with
      | HwLeaf p => Some (p, e0)
      | _ => None
      end
    end
  end.

Definition satp_root (satp : Z) : Z := satp mod 2 ^ 44.

Section interface.
Context {A : Type} `{FrameAllocator A}.

Definition machine_alloc : M (Machine A) (result PPN unit) :=
  fun s => match fa_alloc (pmm s) with
           | Done (r, a) => Done (r, mkMachine (phys s) (satp s) a)
           | Panicked why => Panicked why
           | OutOfFuel => OutOfFuel
           end.

Lemma machine_alloc_spec s p l :
  frames (pmm s) (p :: l) ->
  exists s', machine_alloc s = Done (Ok p, s') /\ frames (pmm s') l.
Proof.
  intros (a & E & Hf)%fa_alloc_spec. unfold machine_alloc. rewrite E. eauto.
Qed.

Lemma machine_alloc_halts : halts machine_alloc.
Proof.
  intros s. unfold machine_alloc. pose proof (fa_alloc_halts (pmm s)).
  by destruct (fa_alloc (pmm s)) as [[]| |].
Qed.

#[export] Instance Machine_FrameAllocator : FrameAllocator (Machine A) := {|
  fa_alloc := machine_alloc;
  frames s l := frames (pmm s) l;
  fa_alloc_spec := machine_alloc_spec;
  fa_alloc_halts := machine_alloc_halts
|}.

Lemma on_fst_alloc_spec {T} (st : A * T) p l :
  frames st.1 (p :: l) ->
  exists st', on_fst fa_alloc st = Done (Ok p, st') /\ frames st'.1 l.
Proof. intros (a & E & Hf)%fa_alloc_spec. unfold on_fst. rewrite E. eauto. Qed.

Lemma on_fst_halts {S T X} (m : M S X) : halts m -> halts (on_fst (T := T) m).
Proof. intros Hm st. unfold on_fst. specialize (Hm st.1). by destruct (m st.1) as [[]| |]. Qed.

#[export] Instance pair_FrameAllocator {T} : FrameAllocator (A * T) := {|
  fa_alloc := on_fst fa_alloc;
  frames st l := frames st.1 l;
  fa_alloc_spec := on_fst_alloc_spec;
  fa_alloc_halts := on_fst_halts _ fa_alloc_halts
|}.
End interface.

(** ** Constants *)

Definition ROOT : Z := rstart VMM_ROOT.
Definition HIGHMEM_A_start : Z := rstart HIGHMEM_A.
Definition HIGHMEM_B_start : Z := rstart HIGHMEM_B.

Definition GLOBAL_KERNEL_TABLE_START_INDEX : Z := Z.land (Z.shiftr (rstart GLOBAL) 30) 0x1ff.

(** The address of entry [i] of a table at [tbl]. *)
Definition entry_at (tbl i : Z) : Z := wrap 64 (tbl + 8 * i).

Section operations.
Context {A : Type} `{FrameAllocator A}.

(** Memory accesses of the kernel. *)
Definition load (va : Z) : M (Machine A) Z :=
  fun s => match hw_walk (phys s) (satp_root (satp s)) va with
           | Some (p, e) =>
             if Z.testbit e 1 then Done (rd (phys s) p (va mod 4096 / 8), s)
             else Panicked "load page fault"
           | None => Panicked "load page fault"
           end.

Definition store (va v : Z) : M (Machine A) unit :=
  fun s => match hw_walk (phys s) (satp_root (satp s)) va with
           | Some (p, e) =>
             if Z.testbit e 2 then
               Done (tt, mkMachine (wr (phys s) p (va mod 4096 / 8) v) (satp s) (pmm s))
             else Panicked "store page fault"
           | None => Panicked "store page fault"
           end.

(** ** The HIGHMEM windows *)

Definition map_highmem_a (ppn : option Z) : M (Machine A) unit :=
  store (entry_at ROOT (ppn_2 HIGHMEM_A_start))
    (match ppn with
     | Some ppn => Entry_new_leaf3 (Z.ldiff ppn (Z.shiftl 1 18 - 1)) RWX_RW false false
     | None => Entry_new_invalid
     end).

Definition map_highmem_b (ppn : option PPN) : M (Machine A) unit :=
  store (entry_at ROOT (ppn_2 HIGHMEM_B_start))
    (match ppn with
     | Some ppn => Entry_new_leaf2 (Z.ldiff (PPN_as_usize ppn) (Z.shiftl 1 30 - 1)) RWX_RW false false
     | None => Entry_new_invalid
     end).

Definition translate_highmem_a (ppn : Z) : M (Machine A) Page :=
  unwrap "called `Option::unwrap()` on a `None` value" (Page_skip HIGHMEM_A_start (ppn mod Z.shiftl 1 18)).

Definition translate_highmem_b (ppn : Z) : M (Machine A) Page :=
  unwrap "called `Option::unwrap()` on a `None` value" (Page_skip HIGHMEM_B_start (ppn mod Z.shiftl 1 18)).

(** [sfence.vma] for one window: nothing to flush in the model. *)
Definition flush_highmem_a : M (Machine A) unit := ret tt.
Definition flush_highmem_b : M (Machine A) unit := ret tt.

(** ** Finding the entry of an address *)

Definition get_pte (address : Page) : M (Machine A) (result Z AddError) :=
  let* pte := load (entry_at ROOT (ppn_2 address)) in
  if negb (Entry_is_table pte) then panic not_yet_implemented else
  let ppn := entry_ppn pte in
  map_highmem_a (Some ppn) ;;
  flush_highmem_a ;;
  let* tbl := translate_highmem_a ppn in
  let* pte := load (entry_at tbl (ppn_1 address)) in
  if negb (Entry_is_table pte) then panic not_yet_implemented else
  let ppn := entry_ppn pte in
  map_highmem_a (Some ppn) ;;
  flush_highmem_a ;;
  let* tbl := translate_highmem_a ppn in
  ret (Ok (entry_at tbl (ppn_0 address))).

(** One step of the allocating walk: the table behind the entry at [ptr], made if
    there is none. *)
Definition table_or_alloc (ptr : Z) : M (Machine A) (result PPN AddError) :=
  let* pte := load ptr in
  if negb (Entry_is_valid pte) then
    let* r := mem_allocate in
    match r with
    | Err e => ret (Err (Add_AllocateError e))
    | Ok ppn =>
      store ptr (Entry_new_table ppn) ;;
      let* pte := load ptr in
      ret (Ok (entry_ppn pte))
    end
  else if negb (Entry_is_table pte) then ret (Err Add_Overlaps)
  else ret (Ok (entry_ppn pte)).

Definition get_pte_from_alloc (root : Z) (address : Page) : M (Machine A) (result Z AddError) :=
  let? ppn := table_or_alloc (entry_at root (ppn_2 address)) in
  map_highmem_b (Some ppn) ;;
  flush_highmem_b ;;
  let* tbl := translate_highmem_b ppn in
  let? ppn := table_or_alloc (entry_at tbl (ppn_1 address)) in
  map_highmem_b (Some ppn) ;;
  flush_highmem_b ;;
  let* tbl := translate_highmem_b ppn in
  ret (Ok (entry_at tbl (ppn_0 address))).

Definition get_pte_alloc (address : Page) : M (Machine A) (result Z AddError) :=
  get_pte_from_alloc ROOT address.

Definition get_pte_alloc_mega (address : Page) : M (Machine A) (result Z AddError) :=
  let? ppn := table_or_alloc (entry_at ROOT (ppn_2 address)) in
  map_highmem_b (Some ppn) ;;
  flush_highmem_b ;;
  let* tbl := translate_highmem_b ppn in
  ret (Ok (entry_at tbl (ppn_1 address))).

Definition get_pte_alloc_giga (address : Page) : M (Machine A) (result Z AddError) :=
  ret (Ok (entry_at ROOT (ppn_2 address))).

(** [pte.as_mut().set(...)] and [.clear()] through a pointer. *)
Definition leaf_set_at (ptr : Z) (map : Map) (rwx : RWX) (acc : Accessibility)
  : M (Machine A) (result unit AddError) :=
  let* e := load ptr in
  match Leaf_set e map rwx acc with
  | (Ok _, e') => store ptr e' ;; ret (Ok tt)
  | (Err err, _) => ret (Err err)
  end.

Definition leaf_clear_at (ptr : Z) : M (Machine A) (result PrivateOrShared unit) :=
  let* e := load ptr in
  match Leaf_clear e with
  | (Ok r, e') => store ptr e' ;; ret (Ok r)
  | (Err err, _) => ret (Err err)
  end.

(** ** Adding and removing mappings *)

Definition add (address : Page) (map : Map) (rwx : RWX) (acc : Accessibility)
  : M (Machine A) (result unit AddError) :=
  let? pte := get_pte_alloc address in
  let* r := leaf_set_at pte map rwx acc in
  ret (map_err (fun _ => Add_Overlaps) r).

(** [self] is a [satp] value; its low 32 bits are the root's page number. *)
Definition add_to (self : Z) (address : Page) (map : Map) (rwx : RWX) (acc : Accessibility)
  : M (Machine A) (result unit AddError) :=
  let ppn := wrap 32 self in
  map_highmem_b (Some ppn) ;;
  let* root := translate_highmem_b ppn in
  flush_highmem_b ;;
  let? pte := get_pte_from_alloc root address in
  let* r := leaf_set_at pte map rwx acc in
  ret (map_err (fun _ => Add_Overlaps) r).

Definition remove (address : Page) : M (Machine A) (result PrivateOrShared unit) :=
  let* r := get_pte address in
  match r with
  | Err _ => ret (Err tt)
  | Ok pte => leaf_clear_at pte
  end.

(** [allocate]: the closure owns the moving address [va]. *)
Definition allocate (virtual_address : Page) (count : Z) (rwx : RWX) (acc : Accessibility)
  : M (Machine A) (result unit AddError) :=
  let body (ppn : PPN) : M (Machine A * Page) unit :=
    let* '(_, va) := get in
    let* r := on_fst (add va (Private ppn) rwx acc) in
    unwrap_ok "called `Result::unwrap()` on an `Err` value" r ;;
    let* va := unwrap "called `Option::unwrap()` on a `None` value" (Page_next va) in
    modify (fun st => (st.1, va)) in
  fun s => match mem_allocate_range (Z.to_nat count) body (s, virtual_address) with
           | Done (Ok _, st) => Done (Ok tt, st.1)
           | Done (Err _, _) => Panicked "called `Result::unwrap()` on an `Err` value"
           | Panicked why => Panicked why
           | OutOfFuel => OutOfFuel
           end.

Fixpoint deallocate (virtual_address : Page) (count : nat) : M (Machine A) (result unit unit) :=
  match count with
  | O => ret (Ok tt)
  | S count =>
    let* r := remove virtual_address in
    unwrap_ok "called `Result::unwrap()` on an `Err` value" r ;;
    let* va := unwrap "called `Option::unwrap()` on a `None` value" (Page_next virtual_address) in
    deallocate va count
  end.

(** Code that is pure but can panic. *)
Definition lift {X} (o : outcome X) : M (Machine A) X :=
  fun s => match o with
           | Done x => Done (x, s)
           | Panicked why => Panicked why
           | OutOfFuel => OutOfFuel
           end.

(** The three [while let Some(map) = map_range.pop_base()] loops differ in the size
    of a step and in the entry they fill.  Each iteration takes at least one page
    off the range, so its length plus one is enough fuel. *)
Fixpoint add_range_loop (fuel : nat) (step : Z) (entry : Page -> M (Machine A) (result Z AddError))
    (address : Page) (map_range : MapRange) (rwx : RWX) (acc : Accessibility)
  : M (Machine A) (result unit AddError) :=
  match fuel with
  | O => fun _ => OutOfFuel
  | S fuel =>
    let* '(o, map_range) := lift (MapRange_pop_base map_range) in
    match o with
    | None => ret (Ok tt)
    | Some map =>
      let* '(c, map_range) :=
        if decide (step = 1) then ret (0, map_range)
        else lift (MapRange_forget_base map_range (step - 1)) in
      if decide (c + 1 <> step) then panic "assertion failed: `(left == right)`" else
      let* r := entry address in
      match r with
      | Err _ => panic not_yet_implemented
      | Ok pte =>
        let* r := leaf_set_at pte map rwx acc in
        match r with
        | Err _ => panic not_yet_implemented
        | Ok _ =>
          let* address := unwrap "called `Option::unwrap()` on a `None` value" (Page_skip address step) in
          add_range_loop fuel step entry address map_range rwx acc
        end
      end
    end
  end.

Definition add_range (address : Page) (map_range : MapRange) (rwx : RWX) (acc : Accessibility)
  : M (Machine A) (result unit AddError) :=
  let* count := lift (MapRange_len map_range) in
  let* ppn_min := lift (MapRange_start map_range) in
  let* count32 := unwrap "called `Result::unwrap()` on an `Err` value" (try_into 32 count) in
  match checked_add 32 ppn_min count32 with
  | None => ret (Err Add_OutOfRange)
  | Some ppn_max =>
    let fuel := S (Z.to_nat count) in
    if decide (address mod Z.shiftl 1 30 = 0 /\ ppn_min mod Z.shiftl 1 18 = 0 /\
               ppn_max mod Z.shiftl 1 18 = 0) then
      add_range_loop fuel (Z.shiftl 1 18) get_pte_alloc_giga address map_range rwx acc
    else if decide (address mod Z.shiftl 1 21 = 0 /\ ppn_min mod Z.shiftl 1 9 = 0 /\
                    ppn_max mod Z.shiftl 1 9 = 0) then
      add_range_loop fuel (Z.shiftl 1 9) get_pte_alloc_mega address map_range rwx acc
    else
      add_range_loop fuel 1 get_pte_alloc address map_range rwx acc
  end.

(** ** Reading mappings *)

(** One iteration of [physical_addresses]: the value written, and the address the
    next iteration looks at.  A huge page is left by [continue], before the
    address moves on. *)
Definition physical_address_step (addr : Page)
  : M (Machine A) (result (Z * option Page) unit) :=
  let* pte := load (entry_at ROOT (ppn_2 addr)) in
  if negb (Entry_is_valid pte) then ret (Err tt) else
  if negb (Entry_is_table pte) then
    ret (Ok (Z.lor (wrap 64 (Z.shiftl (Z.ldiff pte 0x3ff) 2)) (Z.land addr (Z.shiftl 1 30 - 1)), Some addr))
  else
  let ppn := entry_ppn pte in
  map_highmem_a (Some ppn) ;;
  flush_highmem_a ;;
  let* tbl := translate_highmem_a ppn in
  let* pte := load (entry_at tbl (ppn_1 addr)) in
  if negb (Entry_is_valid pte) then ret (Err tt) else
  if negb (Entry_is_table pte) then
    ret (Ok (Z.lor (wrap 64 (Z.shiftl (Z.ldiff pte 0x3ff) 2)) (Z.land addr (Z.shiftl 1 21 - 1)), Some addr))
  else
  let ppn := entry_ppn pte in
  map_highmem_a (Some ppn) ;;
  flush_highmem_a ;;
  let* tbl := translate_highmem_a ppn in
  let* pte := load (entry_at tbl (ppn_0 addr)) in
  ret (Ok (wrap 64 (Z.shiftl (Z.ldiff pte 0x3ff) 2), Page_next addr)).

(** The loop over the slots of [store]; what it leaves there, and the result. *)
Fixpoint physical_addresses_loop (address : option Page) (store : list Z)
  : M (Machine A) (result unit unit * list Z) :=
  match store with
  | [] => ret (Ok tt, [])
  | s :: rest =>
    let* addr := unwrap "called `Option::unwrap()` on a `None` value" address in
    let* r := physical_address_step addr in
    match r with
    | Err _ => ret (Err tt, s :: rest)
    | Ok (v, address) =>
      let* '(r, rest) := physical_addresses_loop address rest in
      ret (r, v :: rest)
    end
  end.

Definition physical_addresses (address : Page) (store : list Z)
  : M (Machine A) (result unit unit * list Z) :=
  physical_addresses_loop (Some address) store.

(** ** Creating and switching address spaces *)

(** [for i in start..start + n { new[i] = curr[i] }] through two windows. *)
Fixpoint copy_entries (n : nat) (i : Z) (curr new : Z) : M (Machine A) unit :=
  match n with
  | O => ret tt
  | S n =>
    let* v := load (entry_at curr i) in
    store (entry_at new i) v ;;
    copy_entries n (i + 1) curr new
  end.

Definition Sv39_new : M (Machine A) (result Z AllocateError) :=
  let? ppn2 := mem_allocate in
  let? ppn1 := mem_allocate in
  let? ppn0 := mem_allocate in
  let va := ROOT in
  let satp := Z.lor ppn2 (Z.shiftl 1 63) in
  (* Map global kernel PTEs. *)
  map_highmem_a (Some ppn2) ;;
  let* new := translate_highmem_a ppn2 in
  copy_entries (Z.to_nat (512 - GLOBAL_KERNEL_TABLE_START_INDEX)) GLOBAL_KERNEL_TABLE_START_INDEX ROOT new ;;
  (* Add a PTE pointing to VPN[2] in VPN[0] *)
  map_highmem_a (Some ppn0) ;;
  flush_highmem_a ;;
  let* tbl := translate_highmem_a ppn0 in
  let* r := leaf_set_at (entry_at tbl (ppn_0 va)) (Private ppn2) RWX_RW KernelLocal in
  unwrap_ok "called `Result::unwrap()` on an `Err` value" r ;;
  (* Add a PTE pointing to VPN[0] in VPN[1] *)
  map_highmem_a (Some ppn1) ;;
  flush_highmem_a ;;
  let* tbl := translate_highmem_a ppn1 in
  store (entry_at tbl (ppn_1 va)) (Entry_new_table ppn0) ;;
  (* Add a PTE pointing to VPN[1] in VPN[2] *)
  map_highmem_a (Some ppn2) ;;
  flush_highmem_a ;;
  let* tbl := translate_highmem_a ppn2 in
  store (entry_at tbl (ppn_2 va)) (Entry_new_table ppn1) ;;
  (* Unmap HIGHMEM_A *)
  map_highmem_a None ;;
  flush_highmem_a ;;
  ret (Ok satp).

(** [for i in 0..256 { root[i] = Entry::new_invalid() }] *)
Fixpoint clear_entries (n : nat) (i : Z) : M (Machine A) unit :=
  match n with
  | O => ret tt
  | S n => store (entry_at ROOT i) Entry_new_invalid ;; clear_entries n (i + 1)
  end.

Definition clear_identity_maps : M (Machine A) unit := clear_entries 256 0.

Definition current : M (Machine A) Z := gets satp.

Definition activate (self : Z) : M (Machine A) unit :=
  modify (fun s => mkMachine (phys s) self (pmm s)).

(** [share]: the source entry is found through HIGHMEM_A, the target through
    HIGHMEM_B, so both pointers stay usable. *)
Definition share (self : Z) (self_address from_address : Page) (rwx : RWX) (acc : Accessibility)
  : M (Machine A) (result unit ShareError) :=
  let* r := get_pte from_address in
  match r with
  | Err e => ret (Err (ShareError_from e))
  | Ok from =>
    let* from_e := load from in
    if negb (Leaf_is_valid from_e) then ret (Err Share_NoEntry) else
    let ppn := wrap 32 self in
    map_highmem_b (Some ppn) ;;
    let* root := translate_highmem_b ppn in
    flush_highmem_b ;;
    let* r := get_pte_from_alloc root self_address in
    match r with
    | Err e => ret (Err (ShareError_from e))
    | Ok to =>
      let* to_e := load to in
      if Leaf_is_valid to_e then ret (Err Share_Overlaps) else
      let* from_e := load from in
      match Leaf_share from_e with
      | Err e => ret (Err e)
      | Ok map =>
        let* r := leaf_set_at to map rwx acc in
        ret (map_err ShareError_from r)
      end
    end
  end.

(** ** Mapping pages before the allocator exists *)

(** One iteration of the loop of [allocate_pages]; [f] supplies pages. *)
Definition allocate_pages_step {F} (f : M F PPN) (va : Z) : M (Machine A * F) unit :=
  let table (ptr : Z) : M (Machine A * F) PPN :=
    let* pte := on_fst (load ptr) in
    if negb (Entry_is_valid pte) then
      let* e := on_snd f in
      on_fst (store ptr (Entry_new_table e)) ;;
      let* pte := on_fst (load ptr) in
      ret (entry_ppn pte)
    else if negb (Entry_is_table pte) then panic "Page overlaps with an existing page"
    else ret (entry_ppn pte) in
  let* ppn := table (entry_at ROOT (ppn_2 va)) in
  on_fst (map_highmem_a (Some ppn)) ;;
  on_fst flush_highmem_a ;;
  let* tbl := on_fst (translate_highmem_a ppn) in
  let* ppn := table (entry_at tbl (ppn_1 va)) in
  on_fst (map_highmem_a (Some ppn)) ;;
  on_fst flush_highmem_a ;;
  let* tbl := on_fst (translate_highmem_a ppn) in
  let* p := on_snd f in
  let* r := on_fst (leaf_set_at (entry_at tbl (ppn_0 va)) (Private p) RWX_RW KernelGlobal) in
  unwrap_ok "Page overlaps with an existing page" r.

Fixpoint allocate_pages_loop {F} (f : M F PPN) (va : Z) (count : nat) : M (Machine A * F) unit :=
  match count with
  | O => ret tt
  | S count =>
    allocate_pages_step f va ;;
    allocate_pages_loop f (wrap 64 (va + PAGE_SIZE)) count
  end.

Definition allocate_pages {F} (f : M F PPN) (address : Page) (count : Z) : M (Machine A * F) unit :=
  let va := ROOT in
  (* csrr root, satp; slli root, root, 12 *)
  let* sp := on_fst current in
  let root := wrap 64 (Z.shiftl sp 12) in
  let* ppn0 := on_snd f in
  let* ppn1 := on_snd f in
  let ppn2 := PPN_from_ptr root in
  let* leaf := unwrap_ok "called `Result::unwrap()` on an `Err` value"
                 (let '(r, e) := Leaf_set 0 (Private (PPN_from_ptr root)) RWX_RW KernelLocal in
                  result_map (fun _ => e) r) in
  on_fst (store (entry_at (PPN_as_usize ppn0) (ppn_0 va)) leaf) ;;
  on_fst (store (entry_at (PPN_as_usize ppn1) (ppn_1 va)) (Entry_new_table ppn0)) ;;
  on_fst (store (entry_at (PPN_as_usize ppn2) (ppn_2 va)) (Entry_new_table ppn1)) ;;
  allocate_pages_loop f address (Z.to_nat count) ;;
  on_fst (map_highmem_a None) ;;
  on_fst flush_highmem_a.
End operations.

(** ** Termination

    Every operation returns or panics, whatever the tables contain. *)

Section termination.
Context {A : Type} `{FrameAllocator A}.

Lemma load_halts va : halts (load (A := A) va).
Proof. intros s. unfold load. by repeat case_match. Qed.

Lemma store_halts va v : halts (store (A := A) va v).
Proof. intros s. unfold store. by repeat case_match. Qed.

Lemma lift_bind_halts {X Y} (o : outcome X) (k : X -> M (Machine A) Y) :
  o <> OutOfFuel -> (forall x, o = Done x -> halts (k x)) -> halts (bind (lift o) k).
Proof. intros Ho Hk s. destruct o; cbn; [by apply Hk|done..]. Qed.
End termination.

#[export] Hint Resolve load_halts store_halts on_fst_halts : halts.

Section operations_halt.
Context {A : Type} `{FrameAllocator A}.

Lemma map_highmem_a_halts p : halts (map_highmem_a (A := A) p).
Proof. apply store_halts. Qed.

Lemma map_highmem_b_halts p : halts (map_highmem_b (A := A) p).
Proof. apply store_halts. Qed.

Lemma translate_highmem_a_halts p : halts (translate_highmem_a (A := A) p).
Proof. unfold translate_highmem_a. eauto with halts. Qed.

Lemma translate_highmem_b_halts p : halts (translate_highmem_b (A := A) p).
Proof. unfold translate_highmem_b. eauto with halts. Qed.

#[local] Hint Resolve map_highmem_a_halts map_highmem_b_halts translate_highmem_a_halts
  translate_highmem_b_halts : halts.
#[local] Hint Extern 1 (halts flush_highmem_a) => exact (halts_ret tt) : halts.
#[local] Hint Extern 1 (halts flush_highmem_b) => exact (halts_ret tt) : halts.

Lemma get_pte_halts va : halts (get_pte (A := A) va).
Proof. unfold get_pte. halts_split. Qed.

Lemma table_or_alloc_halts ptr : halts (table_or_alloc (A := A) ptr).
Proof. unfold table_or_alloc. halts_split. Qed.
#[local] Hint Resolve get_pte_halts table_or_alloc_halts : halts.

Lemma get_pte_from_alloc_halts root va : halts (get_pte_from_alloc (A := A) root va).
Proof. unfold get_pte_from_alloc. halts_split. Qed.

Lemma get_pte_alloc_mega_halts va : halts (get_pte_alloc_mega (A := A) va).
Proof. unfold get_pte_alloc_mega. halts_split. Qed.

Lemma leaf_set_at_halts ptr m rwx acc : halts (leaf_set_at (A := A) ptr m rwx acc).
Proof. unfold leaf_set_at. halts_split. Qed.

Lemma leaf_clear_at_halts ptr : halts (leaf_clear_at (A := A) ptr).
Proof. unfold leaf_clear_at. halts_split. Qed.
#[local] Hint Resolve get_pte_from_alloc_halts get_pte_alloc_mega_halts leaf_set_at_halts
  leaf_clear_at_halts : halts.

Lemma add_halts va m rwx acc : halts (add (A := A) va m rwx acc).
Proof. unfold add, get_pte_alloc. halts_split. Qed.

Lemma add_to_halts self va m rwx acc : halts (add_to (A := A) self va m rwx acc).
Proof. unfold add_to. halts_split. Qed.

Lemma remove_halts va : halts (remove (A := A) va).
Proof. unfold remove. halts_split. Qed.

Lemma share_halts self va from rwx acc : halts (share (A := A) self va from rwx acc).
Proof. unfold share. halts_split. Qed.

Lemma activate_halts self : halts (activate (A := A) self).
Proof. unfold activate. eauto with halts. Qed.

(** The number of pages a range still has. *)
Definition range_left (r : MapRange) : Z :=
  match r with RPrivate p | RDirect p => count p | _ => 0 end.

Lemma pop_base_left r x r' :
  MapRange_pop_base r = Done (Some x, r') -> range_left r' = range_left r - 1 /\ 0 <= range_left r'.
Proof.
  destruct r as [p|p| |]; cbn; try done;
    unfold PPNRange_pop_base, PPNDirectRange_pop_base, checked_sub; case_decide; cbn; try done;
    intros [= _ <-]; cbn; lia.
Qed.

Lemma forget_base_left r n c r' :
  0 <= range_left r -> MapRange_forget_base r n = Done (c, r') -> 0 <= range_left r' <= range_left r.
Proof.
  destruct r as [p|p| |]; cbn; try done; intros Hp;
    unfold PPNRange_forget_base, PPNDirectRange_forget_base, try_into, checked_sub, fits;
    repeat case_decide; cbn; try done; intros [= _ <-]; cbn; lia.
Qed.

Lemma pop_base_halts r : MapRange_pop_base r <> OutOfFuel.
Proof. destruct r; cbn; by repeat case_match. Qed.

Lemma forget_base_halts r n : MapRange_forget_base r n <> OutOfFuel.
Proof.
  destruct r; cbn; try done;
    unfold PPNRange_forget_base, PPNDirectRange_forget_base; by repeat (case_match; cbn).
Qed.

(** Each turn takes at least one page off the range. *)
Lemma add_range_loop_halts fuel step entry va r rwx acc :
  (forall va, halts (entry va)) -> 0 <= range_left r < Z.of_nat fuel ->
  halts (add_range_loop (A := A) fuel step entry va r rwx acc).
Proof.
  intros He. revert va r. induction fuel as [|fuel IH]; intros va r Hr; cbn [add_range_loop]; [lia|].
  apply lift_bind_halts; [apply pop_base_halts|]. intros [[m|] r1] E1; [|apply halts_ret].
  apply pop_base_left in E1 as [El H0].
  assert (forall c r2, 0 <= range_left r2 <= range_left r1 ->
    halts (if decide (c + 1 <> step) then panic "assertion failed: `(left == right)`" else
      let* r := entry va in
      match r with
      | Err _ => panic not_yet_implemented
      | Ok pte =>
        let* r := leaf_set_at (A := A) pte m rwx acc in
        match r with
        | Err _ => panic not_yet_implemented
        | Ok _ =>
          let* address := unwrap "called `Option::unwrap()` on a `None` value" (Page_skip va step) in
          add_range_loop fuel step entry address r2 rwx acc
        end
      end)) as Hrest.
  { intros c r2 H2. halts_split. apply IH. lia. }
  case_decide.
  - intros s. unfold bind at 1, ret at 1. apply Hrest. lia.
  - apply lift_bind_halts; [apply forget_base_halts|]. intros [c r2] E2.
    apply Hrest. by apply (forget_base_left r1 (step - 1) c).
Qed.

Lemma add_range_halts va r rwx acc : 0 <= range_left r -> halts (add_range (A := A) va r rwx acc).
Proof.
  intros Hr. unfold add_range. apply lift_bind_halts; [by destruct r|]. intros n En.
  apply lift_bind_halts; [by destruct r|]. intros st Es.
  assert (n = range_left r) as -> by (destruct r; naive_solver).
  halts_split; apply add_range_loop_halts; try lia; intros; unfold get_pte_alloc, get_pte_alloc_giga;
    eauto with halts.
Qed.
End operations_halt.

#[export] Hint Resolve add_halts add_to_halts remove_halts share_halts activate_halts : halts.
