(* ===== verification/Sv39Walk.v ===== *)
(** * Page tables as trees

    The tables reachable from a root form a tree when no page is used for two
    tables.  This file relates writes to entries of that tree with the hardware
    walk: a write changes the translation of exactly the addresses whose path
    goes through the written entry. *)

From S2P Require Import Prelude Page Ppn Allocator Reserved Sv39Entry Sv39.

(** A table of the tree: the root, a level 1 table or a level 0 table. *)
Inductive node : Type := NRoot | N1 (i : Z) | N0 (i j : Z).

#[export] Instance node_eq_dec : EqDecision node.
Proof. solve_decision. Defined.

Definition child_page (m : gmap (Z * Z) Z) (p i : Z) : option Z :=
  match hw_kind (rd m p i) with HwTable q => Some q | _ => None end.

Definition node_page (m : gmap (Z * Z) Z) (root : Z) (n : node) : option Z :=
  match n with
  | NRoot => Some root
  | N1 i => child_page m root i
  | N0 i j => p ← child_page m root i; child_page m p j
  end.

(** No page serves as two tables. *)
Definition node_inj (m : gmap (Z * Z) Z) (root : Z) : Prop :=
  forall n1 n2 p, node_page m root n1 = Some p -> node_page m root n2 = Some p -> n1 = n2.

(** The entry [i] of table [n] lies on the path to table [n']. *)
Definition passes (n : node) (i : Z) (n' : node) : Prop :=
  match n' with
  | NRoot => False
  | N1 a => (n, i) = (NRoot, a)
  | N0 a b => (n, i) = (NRoot, a) \/ (n, i) = (N1 a, b)
  end.

(** The walk of [va] does not read entry [i] of table [n]. *)
Definition avoids (va : Z) (n : node) (i : Z) : Prop :=
  (n, i) <> (NRoot, ppn_2 va) /\ (n, i) <> (N1 (ppn_2 va), ppn_1 va) /\
  (n, i) <> (N0 (ppn_2 va) (ppn_1 va), ppn_0 va).

Lemma rd_wr_eq m p i v : rd (wr m p i v) p i = v.
Proof. unfold rd, wr. by rewrite lookup_insert_eq. Qed.

Lemma rd_wr_ne m p i v q j : (p, i) <> (q, j) -> rd (wr m p i v) q j = rd m q j.
Proof. intros. unfold rd, wr. by rewrite lookup_insert_ne. Qed.

Lemma rd_empty p i : rd ∅ p i = 0.
Proof. done. Qed.

(** ** Kinds of entries *)

Lemma testbit_pte_kind hi f :
  fits 10 f ->
  hw_kind (pte hi f) =
    if negb (Z.testbit f 0) || (negb (Z.testbit f 1) && Z.testbit f 2) then HwFault
    else if Z.testbit f 1 || Z.testbit f 3 then HwLeaf (hi mod 2 ^ 44) else HwTable (hi mod 2 ^ 44).
Proof.
  intros. unfold hw_kind, hw_ppn. rewrite !pte_testbit, pte_shiftr by (done || lia). done.
Qed.

Lemma ppn_mod_44 p : fits 32 p -> p mod 2 ^ 44 = p.
Proof. intros [? ?]. apply Z.mod_small. lia. Qed.

Lemma hw_kind_0 : hw_kind 0 = HwFault.
Proof. done. Qed.

Lemma hw_kind_table p : fits 32 p -> hw_kind (pte p 1) = HwTable p.
Proof. intros. rewrite testbit_pte_kind by (by vm_compute). cbn. by rewrite ppn_mod_44. Qed.

Lemma hw_kind_leaf_set m rwx a :
  fits 32 (map_ppn m) -> hw_kind (pte (map_ppn m) (leaf_flags m rwx a)) = HwLeaf (map_ppn m).
Proof.
  intros. rewrite testbit_pte_kind by apply leaf_flags_fits. rewrite ppn_mod_44 by done.
  destruct rwx, m, a; done.
Qed.

(** The kernel's tests agree with the hardware on the low flag bits. *)
Lemma is_valid_testbit e : Entry_is_valid e = Z.testbit e 0.
Proof.
  unfold Entry_is_valid. change VALID_MASK with (2 ^ 1 - 1). rewrite land_mask by lia.
  change (2 ^ 1) with 2. rewrite Zmod_odd, Z.bit0_odd. by destruct (Z.odd e).
Qed.

Lemma leaf_entry_valid e : Leaf_is_valid e = Entry_is_valid e.
Proof. done. Qed.

Lemma land_14_cases e :
  Z.land e 0xe = bool_to_Z (Z.testbit e 1) * 2 + bool_to_Z (Z.testbit e 2) * 4 + bool_to_Z (Z.testbit e 3) * 8.
Proof.
  apply Z.bits_inj'. intros i Hi. rewrite Z.land_spec.
  destruct (decide (i < 4)).
  - assert (i = 0 \/ i = 1 \/ i = 2 \/ i = 3) as [->|[->|[->| ->]]] by lia;
      destruct (Z.testbit e 1), (Z.testbit e 2), (Z.testbit e 3), (Z.testbit e 0); done.
  - rewrite (testbit_high_0 4 0xe), andb_false_r by (lia || by vm_compute).
    symmetry. apply (testbit_high_0 4); [|lia].
    destruct (Z.testbit e 1), (Z.testbit e 2), (Z.testbit e 3); by vm_compute.
Qed.

Lemma Entry_is_table_bits e :
  Entry_is_table e = negb (Z.testbit e 1) && (negb (Z.testbit e 3) || Z.testbit e 2).
Proof.
  unfold Entry_is_table, Entry_rwx, to_rwx, RWX_MASK.
  rewrite <-Z.land_assoc. change (Z.land 0xe 0xe) with 0xe. rewrite land_14_cases.
  destruct (Z.testbit e 1), (Z.testbit e 2), (Z.testbit e 3); done.
Qed.

Lemma hw_table_kernel e q :
  hw_kind e = HwTable q -> fits 32 q ->
  Entry_is_valid e = true /\ Entry_is_table e = true /\ entry_ppn e = q.
Proof.
  unfold hw_kind. rewrite is_valid_testbit, Entry_is_table_bits.
  destruct (Z.testbit e 0), (Z.testbit e 1), (Z.testbit e 2), (Z.testbit e 3); cbn; try done.
  intros [= <-] Hq. split_and!; [done..|]. unfold entry_ppn, hw_ppn in *.
  rewrite <-(wrap_small 32 (_ mod _)) by done. unfold wrap.
  rewrite Z.mod_mod_divide; [done|]. by exists (2 ^ 12).
Qed.

Lemma hw_leaf_kernel e p :
  hw_kind e = HwLeaf p -> Entry_is_valid e = true /\ Entry_is_table e = false.
Proof.
  unfold hw_kind. rewrite is_valid_testbit, Entry_is_table_bits.
  destruct (Z.testbit e 0), (Z.testbit e 1), (Z.testbit e 2), (Z.testbit e 3); cbn; done.
Qed.

(** ** Writes and the tree *)

Section tree.
Context (m : gmap (Z * Z) Z) (root : Z).
Context (Hinj : node_inj m root).

Lemma child_page_wr_ne p i v q j :
  (p, i) <> (q, j) -> child_page (wr m p i v) q j = child_page m q j.
Proof. intros. unfold child_page. by rewrite rd_wr_ne. Qed.

Lemma node_page_wr n p i v n' :
  node_page m root n = Some p -> ~ passes n i n' ->
  node_page (wr m p i v) root n' = node_page m root n'.
Proof using Hinj.
  intros Hn Hp. destruct n' as [|a|a b]; cbn in *; [done|..].
  - apply child_page_wr_ne. intros [= -> ->]. apply Hp. f_equal.
    by apply (Hinj n NRoot root).
  - rewrite child_page_wr_ne.
    2:{ intros [= -> ->]. apply Hp. left. f_equal. by apply (Hinj n NRoot root). }
    destruct (child_page m root a) as [q|] eqn:Hq; [|done]. cbn.
    apply child_page_wr_ne. intros [= -> ->]. apply Hp. right. f_equal.
    by apply (Hinj n (N1 a) q).
Qed.

(** Reading an entry of another table, or another entry of the same table. *)
Lemma rd_wr_node n p i v n' q j :
  node_page m root n = Some p -> node_page m root n' = Some q -> (n, i) <> (n', j) ->
  rd (wr m p i v) q j = rd m q j.
Proof using Hinj.
  intros Hn Hn' Hne. apply rd_wr_ne. intros [= -> ->]. apply Hne. f_equal. by eapply Hinj.
Qed.

Lemma hw_walk_wr n p i v va :
  node_page m root n = Some p -> avoids va n i ->
  hw_walk (wr m p i v) root va = hw_walk m root va.
Proof using Hinj.
  intros Hn (H2 & H1 & H0). unfold hw_walk.
  rewrite (rd_wr_node n p i v NRoot root) by done.
  destruct (hw_kind (rd m root (ppn_2 va))) as [| |q1] eqn:E2; [done..|].
  assert (node_page m root (N1 (ppn_2 va)) = Some q1) as Hq1 by (cbn; unfold child_page; by rewrite E2).
  rewrite (rd_wr_node n p i v (N1 (ppn_2 va)) q1) by done.
  destruct (hw_kind (rd m q1 (ppn_1 va))) as [| |q0] eqn:E1; [done..|].
  rewrite (rd_wr_node n p i v (N0 (ppn_2 va) (ppn_1 va)) q0); try done.
  cbn. unfold child_page. by rewrite E2; cbn; rewrite E1.
Qed.

(** Writing an entry that is not a table only removes tables. *)
Lemma node_page_wr_leaf n p i v n' q :
  node_page m root n = Some p -> child_page (wr m p i v) p i = None ->
  node_page (wr m p i v) root n' = Some q -> node_page m root n' = Some q.
Proof using Hinj.
  intros Hn Hv Hq. destruct n' as [|a|a b]; cbn in *; [done|..].
  - destruct (decide ((p, i) = (root, a))) as [[= -> ->]|Hne]; [congruence|].
    by rewrite child_page_wr_ne in Hq.
  - destruct (decide ((p, i) = (root, a))) as [[= -> ->]|Hne]; [by rewrite Hv in Hq|].
    rewrite child_page_wr_ne in Hq by done.
    destruct (child_page m root a) as [q1|] eqn:Hq1; [|done]. cbn in *.
    destruct (decide ((p, i) = (q1, b))) as [[= -> ->]|Hne']; [congruence|].
    by rewrite child_page_wr_ne in Hq.
Qed.

Lemma node_inj_wr_leaf n p i v :
  node_page m root n = Some p -> child_page (wr m p i v) p i = None ->
  node_inj (wr m p i v) root.
Proof using Hinj.
  intros Hn Hv n1 n2 q H1 H2. eapply Hinj; eapply node_page_wr_leaf; eauto.
Qed.

(** Linking a zeroed page that is not yet a table adds one table. *)
Definition node_child (n : node) (i : Z) : option node :=
  match n with NRoot => Some (N1 i) | N1 a => Some (N0 a i) | N0 _ _ => None end.

Definition fresh (f : Z) : Prop :=
  (forall n, node_page m root n <> Some f) /\ (forall j, rd m f j = 0).

Lemma node_page_wr_table n p i v f n' q :
  node_page m root n = Some p -> fresh f -> hw_kind v = HwTable f ->
  node_page (wr m p i v) root n' = Some q ->
  node_page m root n' = Some q \/ (node_child n i = Some n' /\ q = f).
Proof using Hinj.
  intros Hn [Hfr Hz] Hv Hq.
  assert (p <> f) as Hpf by (intros ->; by eapply Hfr).
  assert (child_page (wr m p i v) p i = Some f) as Hc by (unfold child_page; by rewrite rd_wr_eq, Hv).
  destruct n' as [|a|a b]; cbn in Hq |- *; [by left|..].
  - destruct (decide ((p, i) = (root, a))) as [[= -> ->]|Hne].
    + right. rewrite Hc in Hq. injection Hq as <-.
      rewrite (Hinj n NRoot root) by done. done.
    + left. by rewrite child_page_wr_ne in Hq.
  - destruct (decide ((p, i) = (root, a))) as [[= -> ->]|Hne].
    + rewrite Hc in Hq. cbn in Hq. rewrite child_page_wr_ne in Hq by congruence.
      unfold child_page in Hq. by rewrite Hz in Hq.
    + rewrite child_page_wr_ne in Hq by done.
      destruct (child_page m root a) as [q1|] eqn:Hq1; [|done]. cbn in *.
      destruct (decide ((p, i) = (q1, b))) as [[= -> ->]|Hne'].
      * right. rewrite Hc in Hq. injection Hq as <-. by rewrite (Hinj n (N1 a) q1) by done.
      * left. by rewrite child_page_wr_ne in Hq.
Qed.

Lemma node_inj_wr_table n p i v f :
  node_page m root n = Some p -> fresh f -> hw_kind v = HwTable f ->
  node_inj (wr m p i v) root.
Proof using Hinj.
  intros Hn Hf Hv n1 n2 q H1 H2.
  destruct (node_page_wr_table _ _ _ _ _ _ _ Hn Hf Hv H1) as [H1'|[H1' ->]],
           (node_page_wr_table _ _ _ _ _ _ _ Hn Hf Hv H2) as [H2'|[H2' E]]; subst.
  - by eapply Hinj.
  - by apply Hf in H1'.
  - by apply Hf in H2'.
  - congruence.
Qed.
End tree.
