(* ===== verification/Sv39Spec.v ===== *)
(** * What the virtual memory operations do to the address space

    The address space of a machine is its hardware walk.  Under a well-formed
    tree of tables the kernel's accesses through its windows reach the entries
    they mean to, [add] inserts exactly one translation and [remove] deletes
    exactly one; everything outside the two windows is unchanged. *)

From S2P Require Import Prelude Page Ppn Allocator Reserved Sv39Entry Sv39 Sv39Walk.

(** Page numbers the windows can reach: 32 bits, and bit 22 clear, because
    [Entry::set_global] clears that bit of a window entry. *)
Definition ppn_ok (p : Z) : Prop := fits 32 p /\ Z.testbit p 22 = false.

#[export] Instance ppn_ok_dec p : Decision (ppn_ok p).
Proof. unfold ppn_ok. apply _. Defined.

(** ** Where the windows are *)

Lemma entry_at_root i : 0 <= i < 512 ->
  ppn_2 (entry_at ROOT i) = 363 /\ ppn_1 (entry_at ROOT i) = 511 /\
  ppn_0 (entry_at ROOT i) = 511 /\ entry_at ROOT i mod 4096 = 8 * i.
Proof.
  intros Hi. unfold entry_at.
  replace (ROOT + 8 * i) with ((2 ^ 25 - 1) * 2 ^ 39 + 363 * 2 ^ 30 + 511 * 2 ^ 21 + 511 * 2 ^ 12 + 8 * i)
    by (change ROOT with 18446743914795757568; lia).
  rewrite wrap_small by (unfold fits; lia).
  apply ppn_n_of; lia.
Qed.

(** The address in the window of slot [w] at which page [p] is seen. *)
Definition window_at (start p : Z) : Z := start + (p mod 2 ^ 18) * PAGE_SIZE.

Definition is_window (w start : Z) : Prop :=
  0 <= w < 512 /\ start = (2 ^ 25 - 1) * 2 ^ 39 + w * 2 ^ 30.

Lemma highmem_a_window : is_window 365 HIGHMEM_A_start.
Proof. by vm_compute. Qed.

Lemma highmem_b_window : is_window 364 HIGHMEM_B_start.
Proof. by vm_compute. Qed.

Lemma window_slot w start : is_window w start -> ppn_2 start = w.
Proof.
  intros [Hw ->].
  destruct (ppn_n_of w 0 0 0 Hw ltac:(lia) ltac:(lia) ltac:(lia) (2 ^ 25 - 1)) as (E & _).
  rewrite <-E at 2. f_equal. lia.
Qed.

Lemma window_indices w start p i :
  is_window w start -> 0 <= i < 512 ->
  ppn_2 (entry_at (window_at start p) i) = w /\
  ppn_1 (entry_at (window_at start p) i) * 2 ^ 9 + ppn_0 (entry_at (window_at start p) i) = p mod 2 ^ 18 /\
  entry_at (window_at start p) i mod 4096 = 8 * i.
Proof.
  intros [Hw ->] Hi. unfold entry_at, window_at, PAGE_SIZE.
  pose proof (Z.mod_pos_bound p (2 ^ 18) ltac:(lia)) as Hq. set (q := p mod 2 ^ 18) in *.
  pose proof (Z.div_mod q 512 ltac:(lia)). pose proof (Z.mod_pos_bound q 512 ltac:(lia)).
  assert (0 <= q / 512 < 512) by (split; [apply Z.div_pos; lia|apply Z.div_lt_upper_bound; lia]).
  rewrite wrap_small by (unfold fits; lia).
  replace ((2 ^ 25 - 1) * 2 ^ 39 + w * 2 ^ 30 + q * 4096 + 8 * i)
    with ((2 ^ 25 - 1) * 2 ^ 39 + w * 2 ^ 30 + (q / 512) * 2 ^ 21 + (q mod 512) * 2 ^ 12 + 8 * i) by lia.
  destruct (ppn_n_of w (q / 512) (q mod 512) (8 * i) Hw ltac:(lia) ltac:(lia) ltac:(lia) (2 ^ 25 - 1))
    as (-> & -> & -> & ->). split_and!; lia.
Qed.

Lemma window_page_skip w start p :
  is_window w start -> Page_skip start (p mod Z.shiftl 1 18) = Some (window_at start p).
Proof.
  intros [Hw ->]. pose proof (Z.mod_pos_bound p (2 ^ 18) ltac:(lia)).
  change (Z.shiftl 1 18) with (2 ^ 18). apply Page_skip_in; [|lia|unfold PAGE_SIZE; lia].
  unfold page_ok, fits, PAGE_SIZE. split_and!; [lia|lia|lia|].
  replace ((2 ^ 25 - 1) * 2 ^ 39 + w * 2 ^ 30) with (0 + ((2 ^ 25 - 1) * 2 ^ 27 + w * 2 ^ 18) * 4096) by lia.
  by rewrite Z_mod_plus_full.
Qed.

(** ** The entry written into a window's slot *)

Definition window_base (p : Z) : Z := p / 2 ^ 18 * 2 ^ 18.

Definition window_entry (p : Z) : Z := pte (window_base p) 0xc7.

Lemma ldiff_mask x n : 0 <= n -> Z.ldiff x (Z.shiftl 1 n - 1) = x / 2 ^ n * 2 ^ n.
Proof.
  intros. rewrite Z.shiftl_1_l. replace (2 ^ n - 1) with (Z.ones n) by (rewrite Z.ones_equiv; lia).
  rewrite Z.ldiff_ones_r, Z.shiftr_div_pow2, Z.shiftl_mul_pow2 by done. done.
Qed.

Lemma window_base_fits p : fits 32 p -> fits 32 (window_base p).
Proof.
  unfold fits, window_base. intros. pose proof (Z.div_mod p (2 ^ 18) ltac:(lia)).
  pose proof (Z.mod_pos_bound p (2 ^ 18) ltac:(lia)). assert (0 <= p / 2 ^ 18) by (apply Z.div_pos; lia). lia.
Qed.

Lemma window_base_bit p i : 18 <= i -> Z.testbit (window_base p) i = Z.testbit p i.
Proof.
  intros. unfold window_base. rewrite <-Z.shiftl_mul_pow2, Z.shiftl_spec, <-Z.shiftr_div_pow2,
    Z.shiftr_spec by lia. f_equal. lia.
Qed.

Lemma ldiff_pow2_clear x n : 0 <= n -> Z.testbit x n = false -> Z.ldiff x (2 ^ n) = x.
Proof.
  intros Hn Hb. apply Z.bits_inj'. intros i Hi. rewrite Z.ldiff_spec, Z.pow2_bits_eqb by done.
  destruct (Z.eqb_spec n i) as [<-|]; [by rewrite Hb|by rewrite andb_true_r].
Qed.

Lemma window_entry_a p :
  fits 32 p ->
  Entry_new_leaf3 (Z.ldiff p (Z.shiftl 1 18 - 1)) RWX_RW false false =
    pte (Z.ldiff (window_base p) (2 ^ 22)) 0xc7.
Proof.
  intros Hp. rewrite ldiff_mask by lia. fold (window_base p).
  rewrite Entry_new_leaf3_pte by by apply window_base_fits. by rewrite Z.lor_0_r.
Qed.

Lemma window_entry_b p :
  fits 32 p ->
  Entry_new_leaf2 (Z.ldiff (PPN_as_usize p) (Z.shiftl 1 30 - 1)) RWX_RW false false =
    pte (Z.ldiff (window_base p) (2 ^ 22)) 0xc7.
Proof.
  intros Hp. rewrite ldiff_mask by lia. unfold PPN_as_usize.
  rewrite Z.shiftl_mul_pow2 by lia. unfold fits in Hp.
  rewrite wrap_small by (unfold fits; lia).
  replace (p * 2 ^ 12 / 2 ^ 30 * 2 ^ 30) with (window_base p * PAGE_SIZE).
  - rewrite Entry_new_leaf2_leaf3 by by apply window_base_fits.
    rewrite Entry_new_leaf3_pte by by apply window_base_fits. by rewrite Z.lor_0_r.
  - unfold window_base, PAGE_SIZE. replace (2 ^ 30) with (2 ^ 18 * 2 ^ 12) at 1 by lia.
    rewrite Z.div_mul_cancel_r by lia. lia.
Qed.

Lemma window_entry_ok p : ppn_ok p -> pte (Z.ldiff (window_base p) (2 ^ 22)) 0xc7 = window_entry p.
Proof.
  intros [Hp Hb]. unfold window_entry. rewrite ldiff_pow2_clear; [done|lia|].
  by rewrite window_base_bit by lia.
Qed.

Lemma window_entry_kind p : fits 32 p -> hw_kind (window_entry p) = HwLeaf (window_base p).
Proof.
  intros Hp%window_base_fits. unfold window_entry. rewrite testbit_pte_kind by (by vm_compute).
  cbn. by rewrite ppn_mod_44.
Qed.

Lemma window_base_mod p : window_base p mod 2 ^ 18 = 0.
Proof. apply Z.mod_mul. lia. Qed.

Lemma window_walk w start m root p i :
  is_window w start -> fits 32 p -> 0 <= i < 512 -> rd m root w = window_entry p ->
  hw_walk m root (entry_at (window_at start p) i) = Some (p, window_entry p).
Proof.
  intros Hw Hp Hi E. destruct (window_indices w start p i Hw Hi) as (E2 & E10 & _).
  unfold hw_walk. rewrite E2, E, window_entry_kind, decide_True by (done || apply window_base_mod).
  f_equal. f_equal. unfold window_base.
  pose proof (Z.div_mod p (2 ^ 18) ltac:(lia)). lia.
Qed.

(** ** Well-formed tables *)

Record wf_tables (m : gmap (Z * Z) Z) (root : Z) : Prop := mk_wf_tables {
  wt_inj : node_inj m root;
  wt_ppn : forall n p, node_page m root n = Some p -> ppn_ok p;
  (* no reserved encodings *)
  wt_legal : forall n p i, node_page m root n = Some p ->
    hw_kind (rd m p i) = HwFault -> Entry_is_valid (rd m p i) = false;
  (* huge pages are aligned *)
  wt_giga : forall i p, hw_kind (rd m root i) = HwLeaf p -> p mod 2 ^ 18 = 0;
  wt_mega : forall i p j q, node_page m root (N1 i) = Some p ->
    hw_kind (rd m p j) = HwLeaf q -> q mod 2 ^ 9 = 0;
  (* three levels *)
  wt_deep : forall i j p k q, node_page m root (N0 i j) = Some p -> hw_kind (rd m p k) <> HwTable q;
  (* the window on the root table *)
  wt_root : exists e, Z.testbit e 1 = true /\ Z.testbit e 2 = true /\
    forall i, 0 <= i < 512 -> hw_walk m root (entry_at ROOT i) = Some (root, e)
}.

(** Free pages: usable as tables, not tables yet, zeroed, no page twice. *)
Definition free_ok (m : gmap (Z * Z) Z) (root : Z) (l : list PPN) : Prop :=
  NoDup l /\ Forall (fun f => ppn_ok f /\ fresh m root f) l.

(** Entry [i] of table [n] is not part of the root table's own window. *)
Definition not_root_window (n : node) (i : Z) : Prop :=
  (n, i) <> (NRoot, 363) /\ (n, i) <> (N1 363, 511) /\ (n, i) <> (N0 363 511, 511).

Lemma not_root_window_avoids n i k :
  0 <= k < 512 -> not_root_window n i -> avoids (entry_at ROOT k) n i.
Proof.
  intros Hk (H1 & H2 & H3). unfold avoids.
  destruct (entry_at_root k Hk) as (-> & -> & -> & _). done.
Qed.

(** A leaf or invalid entry that table [n] may hold. *)
Definition leaf_for (n : node) (v : Z) : Prop :=
  match hw_kind v with
  | HwTable _ => False
  | HwFault => Entry_is_valid v = false
  | HwLeaf p => match n with NRoot => p mod 2 ^ 18 = 0 | N1 _ => p mod 2 ^ 9 = 0 | N0 _ _ => True end
  end.

Section writes.
Context (m : gmap (Z * Z) Z) (root : Z) (Hwf : wf_tables m root).

Lemma child_page_leaf n p i v : leaf_for n v -> child_page (wr m p i v) p i = None.
Proof. unfold leaf_for, child_page. rewrite rd_wr_eq. by destruct (hw_kind v). Qed.

Lemma node_other_entry n p i n' q k v :
  node_page m root n = Some p -> node_page m root n' = Some q ->
  (n, i) = (n', k) /\ rd (wr m p i v) q k = v \/
  (n, i) <> (n', k) /\ rd (wr m p i v) q k = rd m q k.
Proof using Hwf.
  intros Hn Hn'. destruct (decide ((n, i) = (n', k))) as [[= <- <-]|Hne].
  - left. split; [done|]. rewrite Hn in Hn'. injection Hn' as <-. apply rd_wr_eq.
  - right. split; [done|]. by eapply rd_wr_node; eauto using wt_inj.
Qed.

Lemma wf_tables_wr_leaf n p i v :
  node_page m root n = Some p -> leaf_for n v -> not_root_window n i ->
  wf_tables (wr m p i v) root.
Proof using Hwf.
  intros Hn Hv Hr. pose proof (child_page_leaf n p i v Hv) as Hc.
  assert (forall n' q, node_page (wr m p i v) root n' = Some q -> node_page m root n' = Some q)
    as Hback by (intros; eapply node_page_wr_leaf; eauto using wt_inj).
  constructor.
  - eapply node_inj_wr_leaf; eauto using wt_inj.
  - eauto using wt_ppn.
  - intros n' q k Hn'%Hback. destruct (node_other_entry n p i n' q k v Hn Hn') as [[_ ->]|[_ ->]].
    + unfold leaf_for in Hv. by intros E; rewrite E in Hv.
    + by eapply wt_legal.
  - intros k q. destruct (node_other_entry n p i NRoot root k v Hn eq_refl) as [[[= -> ->] ->]|[_ ->]].
    + unfold leaf_for in Hv. by intros E; rewrite E in Hv.
    + by apply wt_giga.
  - intros a q j r Hq%Hback. destruct (node_other_entry n p i (N1 a) q j v Hn Hq) as [[[= -> ->] ->]|[_ ->]].
    + unfold leaf_for in Hv. by intros E; rewrite E in Hv.
    + by eapply wt_mega.
  - intros a b q k r Hq%Hback. destruct (node_other_entry n p i (N0 a b) q k v Hn Hq) as [[_ ->]|[_ ->]].
    + unfold leaf_for in Hv. by intros E; rewrite E in Hv.
    + by eapply wt_deep.
  - destruct (wt_root _ _ Hwf) as (e & H1 & H2 & He). exists e. split_and!; [done..|].
    intros k Hk. rewrite <-(He k Hk). eapply hw_walk_wr; eauto using wt_inj, not_root_window_avoids.
Qed.

Lemma wf_tables_wr_table n p i f :
  node_page m root n = Some p -> ppn_ok f -> fresh m root f ->
  match n with N0 _ _ => False | _ => True end -> not_root_window n i ->
  wf_tables (wr m p i (pte f 1)) root.
Proof using Hwf.
  intros Hn Hf Hfr Hlvl Hr. pose proof (hw_kind_table f (proj1 Hf)) as Hk.
  set (v := pte f 1) in *.
  assert (forall n' q, node_page (wr m p i v) root n' = Some q ->
    node_page m root n' = Some q \/ (node_child n i = Some n' /\ q = f)) as Hback
    by (intros; eapply node_page_wr_table; eauto using wt_inj).
  assert (forall k, rd (wr m p i v) f k = 0) as Hz.
  { intros k. rewrite rd_wr_ne; [apply Hfr|]. intros [= -> ->]. by apply Hfr in Hn. }
  constructor.
  - eapply node_inj_wr_table; eauto using wt_inj.
  - intros n' q [Hq|[_ ->]]%Hback; eauto using wt_ppn.
  - intros n' q k [Hq|[_ ->]]%Hback; [|by rewrite Hz].
    destruct (node_other_entry n p i n' q k v Hn Hq) as [[_ ->]|[_ ->]]; [by rewrite Hk|by eapply wt_legal].
  - intros k q. destruct (node_other_entry n p i NRoot root k v Hn eq_refl) as [[_ ->]|[_ ->]];
      [by rewrite Hk|by apply wt_giga].
  - intros a q j r [Hq|[_ ->]]%Hback; [|by rewrite Hz].
    destruct (node_other_entry n p i (N1 a) q j v Hn Hq) as [[_ ->]|[_ ->]];
      [by rewrite Hk|by eapply wt_mega].
  - intros a b q k r [Hq|[_ ->]]%Hback; [|by rewrite Hz].
    destruct (node_other_entry n p i (N0 a b) q k v Hn Hq) as [[[= -> ->] _]|[_ ->]];
      [done|by eapply wt_deep].
  - destruct (wt_root _ _ Hwf) as (e & H1 & H2 & He). exists e. split_and!; [done..|].
    intros k Hk'. rewrite <-(He k Hk'). eapply hw_walk_wr; eauto using wt_inj, not_root_window_avoids.
Qed.

Lemma free_ok_wr_leaf n p i v l :
  node_page m root n = Some p -> leaf_for n v -> free_ok m root l -> free_ok (wr m p i v) root l.
Proof using Hwf.
  intros Hn Hv [Hnd Hl]. split; [done|]. eapply Forall_impl; [done|].
  intros f [Hf [Hn' Hz]]. split; [done|]. split.
  - intros n' E. eapply Hn', node_page_wr_leaf; eauto using wt_inj, child_page_leaf.
  - intros j. rewrite rd_wr_ne; [done|]. intros [= -> ->]. by apply Hn' in Hn.
Qed.

Lemma free_ok_wr_table n p i f l :
  node_page m root n = Some p -> free_ok m root (f :: l) -> free_ok (wr m p i (pte f 1)) root l.
Proof using Hwf.
  intros Hn [[Hfl Hnd]%NoDup_cons [[Hf Hfr] Hl]%Forall_cons]. split; [done|].
  apply Forall_forall. intros g Hg. rewrite Forall_forall in Hl.
  destruct (Hl g Hg) as [Hgo [Hn' Hz]]. split; [done|]. split.
  - intros n' E. pose proof (hw_kind_table f (proj1 Hf)) as Hk.
    destruct (node_page_wr_table m root (wt_inj _ _ Hwf) n p i _ f n' g Hn Hfr Hk E) as [E'|[_ ->]];
      [by apply Hn' in E'|done].
  - intros j. rewrite rd_wr_ne; [done|]. intros [= -> ->]. by apply Hn' in Hn.
Qed.

(** Linking an empty table behind an invalid entry changes no translation. *)
Lemma hw_walk_wr_table n p i f va :
  node_page m root n = Some p -> ppn_ok f -> fresh m root f ->
  match n with N0 _ _ => False | _ => True end ->
  hw_kind (rd m p i) = HwFault ->
  hw_walk (wr m p i (pte f 1)) root va = hw_walk m root va.
Proof using Hwf.
  intros Hn Hf [Hfr Hz] Hlvl Hi.
  destruct (decide (avoids va n i)) as [Ha|Ha]; [by eapply hw_walk_wr; eauto using wt_inj|].
  assert (forall k, rd (wr m p i (pte f 1)) f k = 0) as Hz'.
  { intros k. rewrite rd_wr_ne; [done|]. intros [= -> ->]. by apply Hfr in Hn. }
  assert ((n, i) = (NRoot, ppn_2 va) \/ (n, i) = (N1 (ppn_2 va), ppn_1 va)) as [[= -> ->]|[= -> ->]].
  { unfold avoids in Ha. destruct n as [| |]; [..|done].
    - left. destruct (decide ((NRoot, i) = (NRoot, ppn_2 va))); [done|]. exfalso. apply Ha. done.
    - right. destruct (decide ((N1 i0, i) = (N1 (ppn_2 va), ppn_1 va))); [done|]. exfalso. apply Ha. done. }
  - injection Hn as <-. unfold hw_walk. rewrite rd_wr_eq, Hi, hw_kind_table by apply Hf.
    by rewrite Hz'.
  - unfold hw_walk. rewrite (rd_wr_node m root (wt_inj _ _ Hwf) (N1 (ppn_2 va)) p (ppn_1 va) _ NRoot root) by done.
    cbn in Hn. unfold child_page in Hn.
    destruct (hw_kind (rd m root (ppn_2 va))) as [| |q]; [done..|]. injection Hn as ->.
    rewrite rd_wr_eq, Hi, hw_kind_table by apply Hf. by rewrite Hz'.
Qed.
End writes.

(** ** The kernel's accesses *)

Section machine.
Context {A : Type} `{FrameAllocator A}.
Implicit Types s : Machine A.

Definition root_of s : Z := satp_root (satp s).

Definition upd s (p i v : Z) : Machine A := mkMachine (wr (phys s) p i v) (satp s) (pmm s).

(** The invariant: well-formed tables, and [l] are the allocator's free pages. *)
Definition vm_inv s (l : list PPN) : Prop :=
  wf_tables (phys s) (root_of s) /\ free_ok (phys s) (root_of s) l /\ frames (pmm s) l.

(** The pointer [ptr] is a readable and writable view of entry [i] of page [p]. *)
Definition reaches s (ptr p i : Z) : Prop :=
  exists e, Z.testbit e 1 = true /\ Z.testbit e 2 = true /\
    hw_walk (phys s) (root_of s) ptr = Some (p, e) /\ ptr mod 4096 = 8 * i.

Definition not_window (va : Z) : Prop := ppn_2 va <> 364 /\ ppn_2 va <> 365.

Definition node_outside (n : node) : Prop :=
  match n with NRoot => True | N1 i | N0 i _ => i <> 364 /\ i <> 365 end.

(** [s'] translates every address outside the windows as [s] does, and keeps its tables. *)
Record evolves s s' : Prop := mk_evolves {
  ev_satp : satp s' = satp s;
  ev_walk : forall va, not_window va ->
    hw_walk (phys s') (root_of s) va = hw_walk (phys s) (root_of s) va;
  ev_node : forall n p, node_outside n ->
    node_page (phys s) (root_of s) n = Some p -> node_page (phys s') (root_of s) n = Some p
}.

Lemma evolves_refl s : evolves s s.
Proof. by constructor. Qed.

Lemma evolves_root s s' : evolves s s' -> root_of s' = root_of s.
Proof. intros [E _ _]. unfold root_of. by rewrite E. Qed.

Lemma evolves_trans s1 s2 s3 : evolves s1 s2 -> evolves s2 s3 -> evolves s1 s3.
Proof.
  intros H1 H2. pose proof (evolves_root _ _ H1) as Er. destruct H1, H2. rewrite Er in *.
  constructor; [congruence| |eauto].
  intros va Hva. rewrite ev_walk1 by done. by apply ev_walk0.
Qed.

(** Every table was one before, or is one of the pages [fs]; other pages keep their contents. *)
Definition grows (fs : list PPN) s s' : Prop :=
  (forall n p, node_page (phys s') (root_of s) n = Some p -> node_page (phys s) (root_of s) n = Some p \/ p ∈ fs) /\
  (forall p, (forall n, node_page (phys s) (root_of s) n <> Some p) -> p ∉ fs -> forall i, rd (phys s') p i = rd (phys s) p i).

Lemma grows_refl fs s : grows fs s s.
Proof. split; [by left|done]. Qed.

Lemma grows_trans fs fs1 fs2 s1 s2 s3 :
  fs1 ⊆ fs -> fs2 ⊆ fs -> root_of s2 = root_of s1 -> grows fs1 s1 s2 -> grows fs2 s2 s3 -> grows fs s1 s3.
Proof.
  intros Hs1 Hs2 Er [H1 D1] [H2 D2]. rewrite Er in *. split.
  - intros n p [Hn|Hp]%H2; [|right; by apply Hs2]. destruct (H1 n p Hn) as [|Hp]; [by left|right; by apply Hs1].
  - intros p Hp Hn i. rewrite D2; [apply D1; [done|]|..]; [set_solver| |set_solver]. intros n [Ho|Ho]%H1; [by apply Hp in Ho|set_solver].
Qed.

Lemma grows_leaf s n p i v : wf_tables (phys s) (root_of s) -> node_page (phys s) (root_of s) n = Some p -> leaf_for n v -> grows [] s (upd s p i v).
Proof.
  intros Hwf Hn Hv. split; [intros n' q Hq; left; cbn in Hq|].
  - eapply node_page_wr_leaf; eauto using wt_inj. by eapply child_page_leaf.
  - intros q Hq _ j. cbn. rewrite rd_wr_ne; [done|]. intros [= -> _]. by apply Hq in Hn.
Qed.

Lemma load_at s ptr p i : reaches s ptr p i -> load ptr s = Done (rd (phys s) p i, s).
Proof.
  intros (e & H1 & H2 & E & Ei). unfold load. fold (root_of s). rewrite E, H1, Ei.
  by rewrite Z.mul_comm, Z.div_mul.
Qed.

Lemma store_at s ptr p i v : reaches s ptr p i -> store ptr v s = Done (tt, upd s p i v).
Proof.
  intros (e & H1 & H2 & E & Ei). unfold store. fold (root_of s). rewrite E, H2, Ei.
  by rewrite Z.mul_comm, Z.div_mul.
Qed.

Lemma reaches_root s i :
  wf_tables (phys s) (root_of s) -> 0 <= i < 512 -> reaches s (entry_at ROOT i) (root_of s) i.
Proof.
  intros Hwf Hi. destruct (wt_root _ _ Hwf) as (e & H1 & H2 & He). exists e.
  destruct (entry_at_root i Hi) as (_ & _ & _ & E). eauto.
Qed.

Lemma reaches_window w start s p i :
  is_window w start -> fits 32 p -> 0 <= i < 512 ->
  rd (phys s) (root_of s) w = window_entry p -> reaches s (entry_at (window_at start p) i) p i.
Proof.
  intros Hw Hp Hi E. destruct (window_indices w start p i Hw Hi) as (_ & _ & E8).
  exists (window_entry p). split_and!; [..|done].
  - unfold window_entry. rewrite pte_testbit by (lia || by vm_compute). done.
  - unfold window_entry. rewrite pte_testbit by (lia || by vm_compute). done.
  - by apply (window_walk w).
Qed.

Lemma reaches_upd s ptr p i n q j v :
  wf_tables (phys s) (root_of s) -> reaches s ptr p i ->
  node_page (phys s) (root_of s) n = Some q -> avoids ptr n j ->
  reaches (upd s q j v) ptr p i.
Proof.
  intros Hwf (e & H1 & H2 & E & Ei) Hn Ha. exists e. split_and!; [done..| |done].
  rewrite <-E. change (root_of (upd s q j v)) with (root_of s). cbn.
  eapply hw_walk_wr; eauto using wt_inj.
Qed.

Lemma window_entry_leaf p : fits 32 p -> leaf_for NRoot (window_entry p).
Proof. intros. unfold leaf_for. rewrite window_entry_kind by done. apply window_base_mod. Qed.

(** Pointing a window at a page. *)
Lemma map_window w start s p l :
  is_window w start -> w = 364 \/ w = 365 -> vm_inv s l -> fits 32 p ->
  let s' := upd s (root_of s) w (window_entry p) in
  store (entry_at ROOT w) (window_entry p) s = Done (tt, s') /\
  vm_inv s' l /\ evolves s s' /\
  forall i, 0 <= i < 512 -> reaches s' (entry_at (window_at start p) i) p i.
Proof.
  intros Hw Hww (Hwf & Hfree & Hfr) Hp s'.
  assert (node_page (phys s) (root_of s) NRoot = Some (root_of s)) as Hn by done.
  assert (not_root_window NRoot w) by (unfold not_root_window; split_and!; intros [=]; lia).
  pose proof (window_entry_leaf p Hp) as Hl. split_and!.
  - apply store_at, reaches_root; [done|]. destruct Hw. lia.
  - split_and!; cbn; [by eapply wf_tables_wr_leaf|by eapply free_ok_wr_leaf|done].
  - constructor; [done|..].
    + intros va [Hv1 Hv2]. eapply hw_walk_wr; eauto using wt_inj.
      unfold avoids. split_and!; intros [=]; lia.
    + intros n q Ho <-. apply (node_page_wr _ _ (wt_inj _ _ Hwf) NRoot); [done|].
      destruct n as [|a|a b]; cbn in *; intros E; simplify_eq; naive_solver lia.
  - intros i Hi. apply (reaches_window w); [done..|]. cbn. apply rd_wr_eq.
Qed.

Lemma map_highmem_a_spec s p l :
  vm_inv s l -> ppn_ok p ->
  exists s', map_highmem_a (Some p) s = Done (tt, s') /\ vm_inv s' l /\ evolves s s' /\
    forall i, 0 <= i < 512 -> reaches s' (entry_at (window_at HIGHMEM_A_start p) i) p i.
Proof.
  intros Hs Hp. eexists. unfold map_highmem_a.
  rewrite window_entry_a, window_entry_ok, (window_slot 365) by (done || apply Hp || apply highmem_a_window).
  apply map_window; [apply highmem_a_window|lia|done|apply Hp].
Qed.

Lemma map_highmem_b_spec s (p : PPN) l :
  vm_inv s l -> ppn_ok p ->
  exists s', map_highmem_b (Some p) s = Done (tt, s') /\ vm_inv s' l /\ evolves s s' /\ grows [] s s' /\
    forall i, 0 <= i < 512 -> reaches s' (entry_at (window_at HIGHMEM_B_start p) i) p i.
Proof.
  intros Hs Hp. unfold map_highmem_b.
  rewrite window_entry_b, window_entry_ok, (window_slot 364) by (done || apply Hp || apply highmem_b_window).
  destruct (map_window 364 HIGHMEM_B_start s p l highmem_b_window ltac:(lia) Hs (proj1 Hp)) as (E & Hs' & Ev & Hr).
  eexists. split_and!; [exact E|done|done| |done].
  apply (grows_leaf s NRoot); [apply Hs|done|by apply window_entry_leaf, Hp].
Qed.

Lemma translate_highmem_a_spec p s :
  translate_highmem_a p s = Done (window_at HIGHMEM_A_start p, s).
Proof.
  unfold translate_highmem_a. by rewrite (window_page_skip 365) by apply highmem_a_window.
Qed.

Lemma translate_highmem_b_spec p s :
  translate_highmem_b p s = Done (window_at HIGHMEM_B_start p, s).
Proof.
  unfold translate_highmem_b. by rewrite (window_page_skip 364) by apply highmem_b_window.
Qed.

Lemma machine_allocate s f l :
  frames (pmm s) (f :: l) ->
  exists a, mem_allocate s = Done (Ok f, mkMachine (phys s) (satp s) a) /\ frames a l.
Proof.
  intros (a & E & Hf)%fa_alloc_spec. exists a. split; [|done].
  unfold mem_allocate, bind. cbn. unfold machine_alloc. by rewrite E.
Qed.

(** Entries below which the kernel adds tables: outside the windows. *)
Definition entry_outside (n : node) (i : Z) : Prop :=
  match n with
  | NRoot => i <> 363 /\ i <> 364 /\ i <> 365
  | N1 a => a <> 363 /\ a <> 364 /\ a <> 365
  | N0 a _ => a <> 363 /\ a <> 364 /\ a <> 365
  end.

Lemma entry_outside_root n i : entry_outside n i -> not_root_window n i.
Proof. destruct n; cbn; unfold not_root_window; naive_solver. Qed.

Lemma child_node_page m root n p i f :
  node_inj m root -> node_page m root n = Some p ->
  match n with N0 _ _ => False | _ => True end -> fits 32 f ->
  exists c, node_child n i = Some c /\ node_page (wr m p i (pte f 1)) root c = Some f.
Proof.
  intros Hinj Hn Hlvl Hf.
  assert (child_page (wr m p i (pte f 1)) p i = Some f) as Hc
    by (unfold child_page; by rewrite rd_wr_eq, hw_kind_table).
  destruct n as [|a|]; [| |done]; eexists; (split; [done|]); cbn.
  - by injection Hn as <-.
  - rewrite child_page_wr_ne.
    + cbn in Hn. by rewrite Hn.
    + intros [= -> ->]. by pose proof (Hinj (N1 a) NRoot root Hn eq_refl).
Qed.

Lemma child_of_table m root n p i q :
  node_page m root n = Some p -> match n with N0 _ _ => False | _ => True end ->
  hw_kind (rd m p i) = HwTable q ->
  exists c, node_child n i = Some c /\ node_page m root c = Some q.
Proof.
  intros Hn Hlvl Ek. assert (child_page m p i = Some q) as Hc by (unfold child_page; by rewrite Ek).
  destruct n as [|a|]; [| |done]; eexists; (split; [done|]); cbn in *.
  - by injection Hn as <-.
  - by rewrite Hn.
Qed.

(** A write over a faulting entry keeps every table. *)
Lemma node_page_wr_fault m root n p i v n' q :
  node_inj m root -> node_page m root n = Some p -> hw_kind (rd m p i) = HwFault ->
  node_page m root n' = Some q -> node_page (wr m p i v) root n' = Some q.
Proof.
  intros Hinj Hn Ek Hq. rewrite <-Hq. apply (node_page_wr m root Hinj n); [done|].
  assert (child_page m p i = None) as Hc by (unfold child_page; by rewrite Ek).
  destruct n' as [|a|a b]; cbn in *; [tauto|..].
  - intros [= -> ->]. cbn in Hn. congruence.
  - destruct (child_page m root a) as [q1|] eqn:Hq1; [|done]. cbn in Hq.
    intros [[= -> ->]|[= -> ->]]; cbn in Hn; congruence.
Qed.

Lemma table_or_alloc_spec s ptr n p i f l :
  vm_inv s (f :: l) -> node_page (phys s) (root_of s) n = Some p ->
  match n with N0 _ _ => False | _ => True end ->
  entry_outside n i -> reaches s ptr p i -> avoids ptr n i ->
  (exists q, hw_kind (rd (phys s) p i) = HwLeaf q /\
     table_or_alloc ptr s = Done (Err Add_Overlaps, s)) \/
  (exists q s' l' c, table_or_alloc ptr s = Done (Ok q, s') /\ (l' = f :: l \/ l' = l) /\
     vm_inv s' l' /\ evolves s s' /\ grows [f] s s' /\ node_child n i = Some c /\
     node_page (phys s') (root_of s) c = Some q /\ ppn_ok q).
Proof.
  intros (Hwf & Hfree & Hfr) Hn Hlvl Ho Hp Ha. pose proof (entry_outside_root _ _ Ho) as Hr.
  unfold table_or_alloc, bind. rewrite (load_at s ptr p i Hp).
  destruct (hw_kind (rd (phys s) p i)) as [|q|q] eqn:Ek.
  - rewrite (wt_legal _ _ Hwf n p i Hn Ek). cbn [negb]. right.
    destruct (machine_allocate s f l Hfr) as (a & -> & Hfa).
    assert (ppn_ok f /\ fresh (phys s) (root_of s) f) as [Hf Hff]
      by (by destruct Hfree as [_ [? _]%Forall_cons]).
    set (s1 := mkMachine (phys s) (satp s) a).
    assert (reaches s1 ptr p i) as Hp1 by exact Hp.
    rewrite (store_at s1 ptr p i _ Hp1), Entry_new_table_pte by apply Hf.
    rewrite (load_at (upd s1 p i (pte f 1)) ptr p i) by (eapply reaches_upd; eauto).
    cbn [phys upd]. rewrite rd_wr_eq, entry_ppn_pte by (apply Hf || by vm_compute).
    destruct (child_node_page (phys s) (root_of s) n p i f (wt_inj _ _ Hwf) Hn Hlvl (proj1 Hf))
      as (c & Hc & Hcp).
    exists f, (upd s1 p i (pte f 1)), l, c.
    split; [done|]. split; [by right|]. split; [|split; [|split; [|by split_and!]]].
    + split_and!; cbn; [by eapply wf_tables_wr_table|by eapply free_ok_wr_table|done].
    + constructor; [done|..].
      * intros va _. by eapply hw_walk_wr_table.
      * intros n' q' _ Hn'. by eapply node_page_wr_fault; eauto using wt_inj.
    + split; [|intros q' Hq' _ j; change (rd (wr (phys s) p i (pte f 1)) q' j = rd (phys s) q' j); rewrite rd_wr_ne; [done|]; intros [= -> _]; by apply Hq' in Hn].
      intros n' q' Hn'. destruct (node_page_wr_table _ _ (wt_inj _ _ Hwf) n p i _ f n' q' Hn Hff (hw_kind_table f (proj1 Hf)) Hn') as [|[_ ->]];
        [by left|right; by left].
  - left. exists q. split; [done|]. destruct (hw_leaf_kernel _ _ Ek) as [-> ->]. done.
  - right.
    destruct (child_of_table _ _ n p i q Hn Hlvl Ek) as (c & Hc & Hcp).
    pose proof (wt_ppn _ _ Hwf _ _ Hcp) as Hq.
    destruct (hw_table_kernel _ _ Ek (proj1 Hq)) as (-> & -> & ->).
    exists q, s, (f :: l), c. split; [done|]. split; [by left|].
    split; [by split_and!|]. split; [apply evolves_refl|]. split; [apply grows_refl|]. by split_and!.
Qed.

Lemma window_avoids w start p k n i :
  is_window w start -> w = 364 \/ w = 365 -> 0 <= k < 512 -> entry_outside n i ->
  avoids (entry_at (window_at start p) k) n i.
Proof.
  intros Hw Hww Hk Ho. destruct (window_indices w start p k Hw Hk) as (E & _).
  unfold avoids. rewrite E. destruct n; cbn in Ho; split_and!; intros [=]; lia.
Qed.

Lemma root_avoids k n i : 0 <= k < 512 -> entry_outside n i -> avoids (entry_at ROOT k) n i.
Proof. eauto using not_root_window_avoids, entry_outside_root. Qed.

(** Addresses the kernel maps for tasks and for itself: not in a window. *)
Definition mappable (va : Z) : Prop := ppn_2 va <> 363 /\ ppn_2 va <> 364 /\ ppn_2 va <> 365.

Lemma mappable_not_window va : mappable va -> not_window va.
Proof. unfold mappable, not_window. tauto. Qed.

(** Walks in terms of tables. *)
Lemma hw_walk_giga m root va p :
  wf_tables m root -> hw_kind (rd m root (ppn_2 va)) = HwLeaf p -> is_Some (hw_walk m root va).
Proof.
  intros Hwf E. unfold hw_walk. rewrite E, (wt_giga _ _ Hwf _ _ E). by rewrite decide_True.
Qed.

Lemma child_page_kind m p i q : child_page m p i = Some q <-> hw_kind (rd m p i) = HwTable q.
Proof. unfold child_page. destruct (hw_kind _); split; congruence. Qed.

Lemma hw_walk_mega m root va q p :
  wf_tables m root -> node_page m root (N1 (ppn_2 va)) = Some q ->
  hw_kind (rd m q (ppn_1 va)) = HwLeaf p -> is_Some (hw_walk m root va).
Proof.
  intros Hwf Hq E. unfold hw_walk. pose proof Hq as Hq'. cbn in Hq. apply child_page_kind in Hq as ->.
  rewrite E, (wt_mega _ _ Hwf _ _ _ _ Hq' E). by rewrite decide_True.
Qed.

Lemma hw_walk_node m root va q :
  node_page m root (N0 (ppn_2 va) (ppn_1 va)) = Some q ->
  hw_walk m root va = match hw_kind (rd m q (ppn_0 va)) with
                      | HwLeaf p => Some (p, rd m q (ppn_0 va)) | _ => None end.
Proof.
  cbn. intros (q1 & H1 & H0)%bind_Some. apply child_page_kind in H1, H0.
  unfold hw_walk. by rewrite H1, H0.
Qed.

(** At most the first two of the free pages have been used. *)
Definition at_most_two (f1 f2 : PPN) (l l' : list PPN) : Prop :=
  l' `suffix_of` (f1 :: f2 :: l) /\ l `suffix_of` l'.

Lemma get_pte_alloc_spec s va f1 f2 l :
  vm_inv s (f1 :: f2 :: l) -> mappable va ->
  exists s' l', vm_inv s' l' /\ evolves s s' /\ at_most_two f1 f2 l l' /\ grows [f1; f2] s s' /\
    ((get_pte_alloc va s = Done (Err Add_Overlaps, s') /\
      is_Some (hw_walk (phys s) (root_of s) va)) \/
     (exists ptr q, get_pte_alloc va s = Done (Ok ptr, s') /\
        node_page (phys s') (root_of s') (N0 (ppn_2 va) (ppn_1 va)) = Some q /\
        reaches s' ptr q (ppn_0 va))).
Proof.
  intros Hs Hva. pose proof (ppn_n_range va) as (R2 & R1 & R0).
  unfold get_pte_alloc, get_pte_from_alloc, bind_ok, bind.
  pose proof (reaches_root s _ (proj1 Hs) R2) as Hreach.
  pose proof (root_avoids (ppn_2 va) NRoot (ppn_2 va) R2 Hva) as Hav.
  destruct (table_or_alloc_spec s _ NRoot _ (ppn_2 va) f1 (f2 :: l) Hs eq_refl I Hva Hreach Hav)
    as [(p & Ek & ->)|(q1 & s1 & l1 & c & -> & Hl1 & Hs1 & Ev1 & Hg1 & [= <-] & Hq1 & Ho1)].
  { exists s, (f1 :: f2 :: l). split; [done|]. split; [apply evolves_refl|].
    split; [split; [done|by exists [f1; f2]]|]. split; [apply grows_refl|]. left. split; [done|]. eapply hw_walk_giga; [apply Hs|done]. }
  cbv beta iota. destruct (map_highmem_b_spec s1 q1 l1 Hs1 Ho1) as (s2 & -> & Hs2 & Ev2 & Hg2 & Hr2).
  cbn [flush_highmem_b ret]. rewrite translate_highmem_b_spec. cbv beta iota.
  pose proof (evolves_trans _ _ _ Ev1 Ev2) as Ev12. pose proof (evolves_root _ _ Ev1) as Er1.
  assert (node_page (phys s2) (root_of s2) (N1 (ppn_2 va)) = Some q1) as Hq1'.
  { rewrite (evolves_root _ _ Ev12), <-Er1. apply (ev_node _ _ Ev2); [|by rewrite Er1].
    by apply mappable_not_window. }
  assert (exists f l0, l1 = f :: l0 /\ l1 `suffix_of` (f1 :: f2 :: l) /\ l `suffix_of` l0 /\ [f] ⊆ [f1; f2])
    as (f & l0 & -> & Hsuf1 & Hsuf0 & Hf).
  { destruct Hl1 as [-> | ->]; eexists _, _; (split; [done|]); split_and!.
    - done. - by exists [f2]. - set_solver. - by exists [f1]. - done. - set_solver. }
  assert (grows [f1; f2] s s2) as Hg12 by (apply (grows_trans _ [f1] [] _ s1); [set_solver..|done|done|done]).
  pose proof (window_avoids 364 HIGHMEM_B_start q1 (ppn_1 va) (N1 (ppn_2 va)) (ppn_1 va)
                highmem_b_window (or_introl eq_refl) R1 Hva) as Hav1.
  destruct (table_or_alloc_spec s2 _ (N1 (ppn_2 va)) q1 (ppn_1 va) f l0 Hs2 Hq1' I Hva (Hr2 _ R1) Hav1)
    as [(p & Ek & ->)|(q0 & s3 & l3 & c & -> & Hl3 & Hs3 & Ev3 & Hg3 & [= <-] & Hq0 & Ho0)].
  { exists s2, (f :: l0). split; [done|]. split; [done|].
    split; [split; [done|by apply suffix_cons_r]|]. split; [done|]. left. split; [done|].
    rewrite <-(ev_walk _ _ Ev12) by by apply mappable_not_window.
    rewrite <-(evolves_root _ _ Ev12). eapply hw_walk_mega; [apply Hs2|done|done]. }
  cbv beta iota. destruct (map_highmem_b_spec s3 q0 l3 Hs3 Ho0) as (s4 & -> & Hs4 & Ev4 & Hg4 & Hr4).
  cbn [flush_highmem_b ret]. rewrite translate_highmem_b_spec.
  exists s4, l3. split; [done|]. split; [eauto using evolves_trans|]. split; [|split].
  - destruct Hl3 as [-> | ->]; split; [done|by apply suffix_cons_r| |done].
    etrans; [|done]. by exists [f].
  - assert (grows [f1; f2] s2 s4) as Hg24 by (apply (grows_trans _ [f] [] _ s3); [done|set_solver|by apply evolves_root|done|done]).
    apply (grows_trans _ [f1; f2] [f1; f2] _ s2); [done..| |done|done]. by apply evolves_root.
  - right. eexists _, q0. split_and!; [done| |by apply Hr4].
    pose proof (evolves_root _ _ Ev3) as Er3. rewrite (evolves_root _ _ Ev4).
    apply (ev_node _ _ Ev4); [by apply mappable_not_window|by rewrite Er3].
Qed.

(** Addresses on the same 4 KiB page of the Sv39 space. *)
Definition same_page (va va' : Z) : Prop :=
  ppn_2 va' = ppn_2 va /\ ppn_1 va' = ppn_1 va /\ ppn_0 va' = ppn_0 va.

#[export] Instance same_page_dec va va' : Decision (same_page va va').
Proof. unfold same_page. apply _. Defined.

Lemma not_same_page_avoids va va' :
  ~ same_page va va' -> avoids va' (N0 (ppn_2 va) (ppn_1 va)) (ppn_0 va).
Proof. intros Hn. unfold avoids. split_and!; intros [=]; apply Hn; done. Qed.

Lemma node_outside_mappable va : mappable va -> node_outside (N0 (ppn_2 va) (ppn_1 va)).
Proof. unfold mappable. cbn. tauto. Qed.

(** Writing a leaf at the bottom of the tree changes the translation of one page. *)
Lemma upd_leaf_spec s va q v l :
  vm_inv s l -> mappable va -> leaf_for (N0 (ppn_2 va) (ppn_1 va)) v ->
  node_page (phys s) (root_of s) (N0 (ppn_2 va) (ppn_1 va)) = Some q ->
  vm_inv (upd s q (ppn_0 va) v) l /\
  forall va', hw_walk (phys (upd s q (ppn_0 va) v)) (root_of s) va' =
    if decide (same_page va va')
    then match hw_kind v with HwLeaf p => Some (p, v) | _ => None end
    else hw_walk (phys s) (root_of s) va'.
Proof.
  intros (Hwf & Hfree & Hfr) Hva Hv Hq. split.
  - pose proof (entry_outside_root (N0 (ppn_2 va) (ppn_1 va)) (ppn_0 va) Hva).
    split_and!; cbn; [by eapply wf_tables_wr_leaf|by eapply free_ok_wr_leaf|done].
  - intros va'. cbn. case_decide as Hp.
    + destruct Hp as (E2 & E1 & E0).
      rewrite (hw_walk_node _ _ va' q); [by rewrite E0, rd_wr_eq|].
      rewrite E2, E1. rewrite (node_page_wr _ _ (wt_inj _ _ Hwf) (N0 (ppn_2 va) (ppn_1 va))); [done..|].
      cbn. intros [|]; congruence.
    + eapply hw_walk_wr; eauto using wt_inj, not_same_page_avoids.
Qed.

Lemma leaf_kind_valid m root va q l :
  wf_tables m root -> free_ok m root l ->
  node_page m root (N0 (ppn_2 va) (ppn_1 va)) = Some q ->
  Leaf_is_valid (rd m q (ppn_0 va)) = true <-> is_Some (hw_walk m root va).
Proof.
  intros Hwf _ Hq. rewrite (hw_walk_node _ _ _ q Hq), leaf_entry_valid.
  destruct (hw_kind (rd m q (ppn_0 va))) as [|p|p] eqn:E.
  - rewrite (wt_legal _ _ Hwf _ _ _ Hq E). split; [done|by intros []].
  - destruct (hw_leaf_kernel _ _ E) as [-> _]. split; [by eexists|done].
  - by apply (wt_deep _ _ Hwf _ _ _ _ _ Hq) in E.
Qed.

Lemma add_spec s va map rwx acc f1 f2 l :
  vm_inv s (f1 :: f2 :: l) -> mappable va -> fits 32 (map_ppn map) ->
  exists r s' l', add va map rwx acc s = Done (r, s') /\ vm_inv s' l' /\
    at_most_two f1 f2 l l' /\ satp s' = satp s /\
    r = match hw_walk (phys s) (root_of s) va with Some _ => Err Add_Overlaps | None => Ok tt end /\
    forall va', not_window va' ->
      hw_walk (phys s') (root_of s) va' =
        match hw_walk (phys s) (root_of s) va with
        | Some _ => hw_walk (phys s) (root_of s) va'
        | None => if decide (same_page va va')
                  then Some (map_ppn map, pte (map_ppn map) (leaf_flags map rwx acc))
                  else hw_walk (phys s) (root_of s) va'
        end.
Proof.
  intros Hs Hva Hm. destruct (get_pte_alloc_spec s va f1 f2 l Hs Hva)
    as (s1 & l1 & Hs1 & Ev & Hsuf & _ & [(E & [x Hx])|(ptr & q & E & Hq & Hr)]);
    unfold add, bind_ok, bind; rewrite E.
  { exists (Err Add_Overlaps), s1, l1. rewrite Hx. split_and!; [done..|apply Ev|done|].
    intros. by apply (ev_walk _ _ Ev). }
  unfold leaf_set_at, bind. rewrite (load_at _ _ _ _ Hr).
  pose proof (leaf_kind_valid _ _ va q l1 (proj1 Hs1) (proj1 (proj2 Hs1)) Hq) as Hv.
  pose proof (evolves_root _ _ Ev) as Er. rewrite Er in Hv, Hq.
  rewrite (ev_walk _ _ Ev) in Hv by by apply mappable_not_window.
  destruct (hw_walk (phys s) (root_of s) va) as [x|] eqn:Hx.
  { rewrite Leaf_set_valid by by apply Hv.
    exists (Err Add_Overlaps), s1, l1. split_and!; [done..|apply Ev|done|].
    intros. by apply (ev_walk _ _ Ev). }
  rewrite Leaf_set_invalid; [|destruct (Leaf_is_valid _); [by destruct Hv as [[] _]|done]|done].
  rewrite (store_at _ _ _ _ _ Hr). rewrite <-Er in Hq.
  destruct (upd_leaf_spec s1 va q (pte (map_ppn map) (leaf_flags map rwx acc)) l1 Hs1 Hva) as [Hs2 Hw];
    [by unfold leaf_for; rewrite hw_kind_leaf_set|done|].
  eexists (Ok tt), _, l1. split_and!; [done|exact Hs2|done|apply Ev|done|].
  intros va' Hva'. rewrite <-Er, Hw, hw_kind_leaf_set by done.
  case_decide; [done|]. rewrite Er. by apply (ev_walk _ _ Ev).
Qed.

(** The tables [add] adds are the first free pages. *)
Lemma add_grows s va map rwx acc f1 f2 l r s' :
  vm_inv s (f1 :: f2 :: l) -> mappable va -> fits 32 (map_ppn map) -> add va map rwx acc s = Done (r, s') -> grows [f1; f2] s s'.
Proof.
  intros Hs Hva Hm. destruct (get_pte_alloc_spec s va f1 f2 l Hs Hva)
    as (s1 & l1 & Hs1 & Ev & Hsuf & Hg & [(E & [x Hx])|(ptr & q & E & Hq & Hr)]);
    unfold add, bind_ok, bind; rewrite E; [by intros [= _ <-]|].
  unfold leaf_set_at, bind. rewrite (load_at _ _ _ _ Hr). destruct (Leaf_is_valid (rd (phys s1) q (ppn_0 va))) eqn:Hv.
  - rewrite Leaf_set_valid by done. by intros [= _ <-].
  - rewrite Leaf_set_invalid by done. rewrite (store_at _ _ _ _ _ Hr). intros [= _ <-].
    apply (grows_trans _ [f1; f2] [] _ s1); [done|set_solver|by apply evolves_root|done|].
    apply (grows_leaf s1 (N0 (ppn_2 va) (ppn_1 va))); [apply Hs1|done|by unfold leaf_for; rewrite hw_kind_leaf_set].
Qed.

(** ** Looking entries up without allocating *)

(** [get_pte] follows two entries that do not have permission bits, valid or not. *)
Lemma get_pte_chain s va q1 q0 l :
  vm_inv s l -> mappable va ->
  Entry_is_table (rd (phys s) (root_of s) (ppn_2 va)) = true ->
  entry_ppn (rd (phys s) (root_of s) (ppn_2 va)) = q1 -> ppn_ok q1 -> q1 <> root_of s ->
  Entry_is_table (rd (phys s) q1 (ppn_1 va)) = true ->
  entry_ppn (rd (phys s) q1 (ppn_1 va)) = q0 -> ppn_ok q0 ->
  exists ptr s', get_pte va s = Done (Ok ptr, s') /\ vm_inv s' l /\ evolves s s' /\
    reaches s' ptr q0 (ppn_0 va) /\
    forall p i, p <> root_of s -> rd (phys s') p i = rd (phys s) p i.
Proof.
  intros Hs Hva T2 E2 O1 N1' T1 E1 O0. pose proof (ppn_n_range va) as (R2 & R1 & R0).
  unfold get_pte, bind. rewrite (load_at _ _ _ _ (reaches_root s _ (proj1 Hs) R2)), T2, E2.
  cbn [negb]. unfold map_highmem_a.
  rewrite !window_entry_a, !window_entry_ok, (window_slot 365)
    by (done || apply O1 || apply O0 || apply highmem_a_window).
  destruct (map_window 365 HIGHMEM_A_start s q1 l highmem_a_window ltac:(lia) Hs (proj1 O1))
    as (-> & Hs1 & Ev1 & Hr1). set (s1 := upd s _ _ _) in *.
  cbn [flush_highmem_a ret]. rewrite translate_highmem_a_spec, (load_at _ _ _ _ (Hr1 _ R1)).
  assert (forall p i, p <> root_of s -> rd (phys s1) p i = rd (phys s) p i) as Hrd1
    by (intros; unfold s1; cbn; apply rd_wr_ne; congruence).
  rewrite Hrd1, T1, E1 by done. cbn [negb].
  rewrite !window_entry_a, !window_entry_ok by (done || apply O0).
  destruct (map_window 365 HIGHMEM_A_start s1 q0 l highmem_a_window ltac:(lia) Hs1 (proj1 O0))
    as (-> & Hs2 & Ev2 & Hr2). cbn [flush_highmem_a ret]. rewrite translate_highmem_a_spec.
  eexists _, _. split; [done|]. split; [exact Hs2|]. split; [by eapply evolves_trans|].
  split; [by apply Hr2|]. intros p i Hp. etrans; [|by apply Hrd1].
  apply rd_wr_ne. intros [= Ep _]. by apply Hp.
Qed.

(** When the tables exist, [get_pte] finds the leaf of the address. *)
Lemma get_pte_spec s va q l :
  vm_inv s l -> mappable va ->
  node_page (phys s) (root_of s) (N0 (ppn_2 va) (ppn_1 va)) = Some q ->
  exists ptr s', get_pte va s = Done (Ok ptr, s') /\ vm_inv s' l /\ evolves s s' /\
    reaches s' ptr q (ppn_0 va) /\ rd (phys s') q (ppn_0 va) = rd (phys s) q (ppn_0 va).
Proof.
  intros Hs Hva Hq. pose proof Hs as ([Hinj Hppn _ _ _ _ _] & _).
  pose proof Hq as (q1 & H1 & H0)%bind_Some.
  assert (ppn_ok q1) as O1 by by apply (Hppn (N1 (ppn_2 va))).
  assert (ppn_ok q) as O0 by by eapply Hppn.
  apply child_page_kind in H0. pose proof (proj1 (child_page_kind _ _ _ _) H1) as H1'.
  destruct (hw_table_kernel _ _ H1' (proj1 O1)) as (_ & T2 & E2).
  destruct (hw_table_kernel _ _ H0 (proj1 O0)) as (_ & T1 & E1).
  destruct (get_pte_chain s va q1 q l Hs Hva T2 E2 O1) as (ptr & s' & E & Hs' & Ev & Hr & Hrd); try done.
  { intros ->. by pose proof (Hinj (N1 (ppn_2 va)) NRoot _ H1 eq_refl). }
  exists ptr, s'. split_and!; [done..|]. apply Hrd. intros ->.
  by pose proof (Hinj _ NRoot _ Hq eq_refl).
Qed.

Lemma remove_spec s va q l :
  vm_inv s l -> mappable va ->
  node_page (phys s) (root_of s) (N0 (ppn_2 va) (ppn_1 va)) = Some q ->
  exists r s', remove va s = Done (r, s') /\ vm_inv s' l /\ satp s' = satp s /\
    r = match hw_walk (phys s) (root_of s) va with
        | Some (_, e) => Ok (PoS_Private (entry_ppn e)) | None => Err tt end /\
    forall va', not_window va' ->
      hw_walk (phys s') (root_of s) va' =
        if decide (same_page va va') then None else hw_walk (phys s) (root_of s) va'.
Proof.
  intros Hs Hva Hq. destruct (get_pte_spec s va q l Hs Hva Hq) as (ptr & s1 & E & Hs1 & Ev & Hr & Erd).
  pose proof (evolves_root _ _ Ev) as Er.
  unfold remove, bind. rewrite E. unfold leaf_clear_at, bind. rewrite (load_at _ _ _ _ Hr), Erd.
  pose proof (leaf_kind_valid _ _ va q l (proj1 Hs) (proj1 (proj2 Hs)) Hq) as Hv.
  destruct (Leaf_is_valid (rd (phys s) q (ppn_0 va))) eqn:Hlv.
  - rewrite Leaf_clear_valid, (store_at _ _ _ _ _ Hr) by done. destruct Hv as [Hv _].
    assert (node_page (phys s1) (root_of s1) (N0 (ppn_2 va) (ppn_1 va)) = Some q) as Hq1
      by (rewrite Er; by apply (ev_node _ _ Ev), Hq; apply node_outside_mappable).
    destruct (upd_leaf_spec s1 va q 0 l Hs1 Hva) as [Hs2 Hw]; [done|done|].
    eexists _, _. split; [done|]. split; [exact Hs2|]. split; [apply Ev|]. split.
    + specialize (Hv eq_refl). rewrite (hw_walk_node _ _ _ q Hq) in Hv |- *.
      by destruct (hw_kind _); destruct Hv.
    + intros va' Hva'. rewrite <-Er, Hw. case_decide; [done|]. rewrite Er. by apply (ev_walk _ _ Ev).
  - rewrite Leaf_clear_invalid by done. assert (hw_walk (phys s) (root_of s) va = None) as Hn.
    { destruct (hw_walk (phys s) (root_of s) va); [|done]. by destruct Hv as [_ Hv]; discriminate Hv. }
    eexists _, s1. split; [done|]. split; [done|]. split; [apply Ev|]. split; [by rewrite Hn|].
    intros va' Hva'. rewrite (ev_walk _ _ Ev) by done. case_decide as Hp; [|done].
    destruct Hp as (P2 & P1 & P0). rewrite (hw_walk_node _ _ va' q) by by rewrite P2, P1.
    rewrite P0. by rewrite (hw_walk_node _ _ _ q Hq) in Hn.
Qed.

(** ** Reading physical addresses back *)

(** A page mapped at the bottom level, with a word that has no reserved high bits. *)
Definition mapped4k (m : gmap (Z * Z) Z) (root va p : Z) : Prop :=
  exists q, node_page m root (N0 (ppn_2 va) (ppn_1 va)) = Some q /\
    hw_kind (rd m q (ppn_0 va)) = HwLeaf p /\ fits 54 (rd m q (ppn_0 va)).

Lemma pte_address e p : hw_kind e = HwLeaf p -> fits 54 e ->
  wrap 64 (Z.shiftl (Z.ldiff e 0x3ff) 2) = p * PAGE_SIZE.
Proof.
  intros Hk He. replace p with (Z.shiftr e 10).
  2:{ unfold hw_kind in Hk. repeat case_match; simplify_eq. unfold hw_ppn.
      symmetry. apply Z.mod_small. rewrite Z.shiftr_div_pow2 by lia. unfold fits in He.
      split; [apply Z.div_pos|apply Z.div_lt_upper_bound]; lia. }
  change 0x3ff with (Z.shiftl 1 10 - 1). rewrite ldiff_mask, Z.shiftl_mul_pow2, Z.shiftr_div_pow2 by lia.
  unfold fits in He. pose proof (Z.div_mod e (2 ^ 10) ltac:(lia)).
  pose proof (Z.mod_pos_bound e (2 ^ 10) ltac:(lia)).
  assert (0 <= e / 2 ^ 10) by (apply Z.div_pos; lia).
  rewrite wrap_small by (unfold fits; lia). unfold PAGE_SIZE. lia.
Qed.

Lemma mapped4k_evolves s s' va p :
  evolves s s' -> mappable va -> (forall q i, q <> root_of s -> rd (phys s') q i = rd (phys s) q i) ->
  node_inj (phys s) (root_of s) ->
  mapped4k (phys s) (root_of s) va p -> mapped4k (phys s') (root_of s') va p.
Proof.
  intros Ev Hva Hrd Hinj (q & Hq & Hk & He). rewrite (evolves_root _ _ Ev). exists q.
  assert (q <> root_of s) by (intros ->; by pose proof (Hinj _ NRoot _ Hq eq_refl)).
  rewrite Hrd by done. split_and!; [|done..].
  apply (ev_node _ _ Ev); [|done]. by apply node_outside_mappable.
Qed.

Lemma physical_address_step_spec s va p l :
  vm_inv s l -> mappable va -> mapped4k (phys s) (root_of s) va p ->
  exists s', physical_address_step va s = Done (Ok (p * PAGE_SIZE, Page_next va), s') /\
    vm_inv s' l /\ evolves s s' /\ forall q i, q <> root_of s -> rd (phys s') q i = rd (phys s) q i.
Proof.
  intros Hs Hva (q & Hq & Hk & He). pose proof Hs as ([Hinj Hppn _ _ _ _ _] & _).
  pose proof Hq as (q1 & H1 & H0)%bind_Some.
  assert (ppn_ok q1) as O1 by by apply (Hppn (N1 (ppn_2 va))).
  assert (ppn_ok q) as O0 by by eapply Hppn.
  assert (q1 <> root_of s) as Ne1
    by (intros ->; by pose proof (Hinj (N1 (ppn_2 va)) NRoot _ H1 eq_refl)).
  assert (q <> root_of s) as Ne0 by (intros ->; by pose proof (Hinj _ NRoot _ Hq eq_refl)).
  apply child_page_kind in H0. pose proof (proj1 (child_page_kind _ _ _ _) H1) as H1'.
  destruct (hw_table_kernel _ _ H1' (proj1 O1)) as (V2 & T2 & E2).
  destruct (hw_table_kernel _ _ H0 (proj1 O0)) as (V1 & T1 & E1).
  pose proof (ppn_n_range va) as (R2 & R1 & R0).
  unfold physical_address_step, bind.
  rewrite (load_at _ _ _ _ (reaches_root s _ (proj1 Hs) R2)), V2, T2, E2. cbn [negb].
  unfold map_highmem_a.
  rewrite !window_entry_a, !window_entry_ok, (window_slot 365)
    by (done || apply O1 || apply O0 || apply highmem_a_window).
  destruct (map_window 365 HIGHMEM_A_start s q1 l highmem_a_window ltac:(lia) Hs (proj1 O1))
    as (-> & Hs1 & Ev1 & Hr1). set (s1 := upd s _ _ _) in *.
  cbn [flush_highmem_a ret]. rewrite translate_highmem_a_spec, (load_at _ _ _ _ (Hr1 _ R1)).
  assert (forall p i, p <> root_of s -> rd (phys s1) p i = rd (phys s) p i) as Hrd1
    by (intros; unfold s1; cbn; apply rd_wr_ne; congruence).
  rewrite Hrd1, V1, T1, E1 by done. cbn [negb].
  rewrite !window_entry_a, !window_entry_ok by (done || apply O0).
  destruct (map_window 365 HIGHMEM_A_start s1 q l highmem_a_window ltac:(lia) Hs1 (proj1 O0))
    as (-> & Hs2 & Ev2 & Hr2). set (s2 := upd s1 _ _ _) in *.
  cbn [flush_highmem_a ret]. rewrite translate_highmem_a_spec, (load_at _ _ _ _ (Hr2 _ R0)).
  assert (forall p i, p <> root_of s -> rd (phys s2) p i = rd (phys s) p i) as Hrd2
    by (intros; etrans; [apply rd_wr_ne|by apply Hrd1]; intros [= E _]; done).
  rewrite Hrd2, (pte_address _ p) by done.
  exists s2. split_and!; [done|done|by eapply evolves_trans|done].
Qed.

Lemma physical_addresses_loop_spec ps s va o store0 l :
  ps = [] \/ o = Some va -> vm_inv s l -> length store0 = length ps ->
  (forall k p, ps !! k = Some p ->
     page_ok (va + Z.of_nat k * PAGE_SIZE) /\ mappable (va + Z.of_nat k * PAGE_SIZE) /\
     mapped4k (phys s) (root_of s) (va + Z.of_nat k * PAGE_SIZE) p) ->
  exists s', physical_addresses_loop o store0 s = Done ((Ok tt, (fun p => p * PAGE_SIZE) <$> ps), s') /\
    vm_inv s' l /\ evolves s s'.
Proof.
  revert s va o store0.
  induction ps as [|p ps IH]; intros s va o store0 Hst Hs Hlen Hps; destruct store0 as [|x store0];
    cbn [length] in Hlen; try lia; cbn [physical_addresses_loop].
  { exists s. split_and!; [done|done|apply evolves_refl]. }
  destruct Hst as [[=]| ->]. cbn [unwrap].
  destruct (Hps 0%nat p eq_refl) as (Hok & Hm & Hp). rewrite Z.mul_0_l, Z.add_0_r in *.
  destruct (physical_address_step_spec s va p l Hs Hm Hp) as (s1 & E & Hs1 & Ev & Hrd).
  unfold bind at 1 2, ret at 1. rewrite E.
  edestruct (IH s1 (va + PAGE_SIZE) (Page_next va) store0) as (s2 & E2 & Hs2 & Ev2); [|done|lia|..].
  - destruct ps as [|p1 ps]; [by left|]. right.
    destruct (Hps 1%nat p1 eq_refl) as (Hok1 & _). unfold Page_next.
    rewrite Page_skip_in; [by rewrite Z.mul_1_l|done|lia|].
    destruct Hok1 as [[_ ?] _]. lia.
  - intros k p' Hk. destruct (Hps (S k) p' Hk) as (Ok1 & Om1 & Op1).
    replace (va + PAGE_SIZE + Z.of_nat k * PAGE_SIZE) with (va + Z.of_nat (S k) * PAGE_SIZE) by lia.
    split_and!; [done..|]. eapply mapped4k_evolves; eauto. apply Hs.
  - unfold bind. rewrite E2. exists s2. split_and!; [done|done|by eapply evolves_trans].
Qed.

(** Inside a gigapage the address is never advanced. *)
Lemma physical_addresses_giga s va store0 l p :
  vm_inv s l -> hw_kind (rd (phys s) (root_of s) (ppn_2 va)) = HwLeaf p ->
  exists v, physical_addresses va store0 s = Done ((Ok tt, replicate (length store0) v), s).
Proof.
  intros Hs Hk. destruct (hw_leaf_kernel _ _ Hk) as [V T]. pose proof (ppn_n_range va) as (R2 & _ & _).
  eexists. unfold physical_addresses.
  induction store0 as [|x store0 IH]; cbn [physical_addresses_loop length replicate]; [done|].
  unfold bind at 1 2, unwrap, ret at 1. unfold physical_address_step at 1, bind at 1.
  rewrite (load_at _ _ _ _ (reaches_root s _ (proj1 Hs) R2)), V, T. cbn [negb ret].
  unfold bind. by rewrite IH.
Qed.

(** ** The windows and page numbers with bit 22 *)

Lemma ldiff_pow2_set x n : 0 <= n -> Z.testbit x n = true -> Z.ldiff x (2 ^ n) = x - 2 ^ n.
Proof.
  intros Hn Hb. rewrite <-Z.sub_nocarry_ldiff; [done|].
  apply Z.bits_inj'. intros i Hi. rewrite Z.ldiff_spec, Z.pow2_bits_eqb, Z.bits_0 by done.
  destruct (Z.eqb_spec n i) as [<-|]; [by rewrite Hb|done].
Qed.

Lemma testbit_ge p n : 0 <= n -> 0 <= p -> Z.testbit p n = true -> 2 ^ n <= p.
Proof.
  intros Hn Hp Hb. destruct (decide (2 ^ n <= p)); [done|].
  rewrite (testbit_high_0 n p n) in Hb; [done|unfold fits; lia|lia].
Qed.

Lemma window_shift22 p start :
  window_base (p - 2 ^ 22) = window_base p - 2 ^ 22 /\
  window_at start (p - 2 ^ 22) = window_at start p.
Proof.
  unfold window_base, window_at.
  replace (p - 2 ^ 22) with (p + (-16) * 2 ^ 18) by lia.
  rewrite Z.div_add, Z_mod_plus_full by lia. lia.
Qed.

Lemma window_entry_any p :
  fits 32 p ->
  let q := if Z.testbit p 22 then p - 2 ^ 22 else p in
  fits 32 q /\ pte (Z.ldiff (window_base p) (2 ^ 22)) 0xc7 = window_entry q /\
  forall start, window_at start p = window_at start q.
Proof.
  intros Hp. destruct (Z.testbit p 22) eqn:Hb; cbn zeta.
  - unfold fits in *. pose proof (testbit_ge p 22 ltac:(lia) ltac:(lia) Hb).
    split_and!; [lia|lia| |intros; symmetry; apply window_shift22].
    unfold window_entry. rewrite (proj1 (window_shift22 p 0)), ldiff_pow2_set; [done|lia|].
    by rewrite window_base_bit by lia.
  - split_and!; [apply Hp..| |done]. by apply window_entry_ok.
Qed.

Lemma highmem_a_shows s p l :
  vm_inv s l -> fits 32 p ->
  exists s', map_highmem_a (Some p) s = Done (tt, s') /\ vm_inv s' l /\ evolves s s' /\
    forall i, 0 <= i < 512 ->
      reaches s' (entry_at (window_at HIGHMEM_A_start p) i) (if Z.testbit p 22 then p - 2 ^ 22 else p) i.
Proof.
  intros Hs Hp. destruct (window_entry_any p Hp) as (Hq & E & Ew). eexists. unfold map_highmem_a.
  rewrite window_entry_a, E, (window_slot 365), Ew by (done || apply highmem_a_window).
  apply map_window; [apply highmem_a_window|lia|done|done].
Qed.

(** Each word of the page a window pointer reaches is read and written there. *)
Lemma reaches_load_store s ptr p i v :
  reaches s ptr p i ->
  load ptr s = Done (rd (phys s) p i, s) /\ store ptr v s = Done (tt, upd s p i v).
Proof. eauto using load_at, store_at. Qed.
End machine.

(** ** A small machine

    Root table in page 1, its own window through pages 2 and 3. *)

Definition self_map_mem (root t1 t0 : Z) : gmap (Z * Z) Z :=
  wr (wr (wr ∅ t0 511 (pte root 0xc7)) t1 511 (pte t0 1)) root 363 (pte t1 1).

Section self_map.
Context (root t1 t0 : Z).
Context (Hr : ppn_ok root) (H1 : ppn_ok t1) (H0 : ppn_ok t0).
Context (Hne : root <> t1 /\ root <> t0 /\ t1 <> t0).

Lemma rd_self_map p i :
  rd (self_map_mem root t1 t0) p i =
    if decide ((p, i) = (root, 363)) then pte t1 1
    else if decide ((p, i) = (t1, 511)) then pte t0 1
    else if decide ((p, i) = (t0, 511)) then pte root 0xc7 else 0.
Proof.
  unfold self_map_mem.
  repeat (let E := fresh in case_decide as E;
          [injection E as -> ->; by rewrite rd_wr_eq|rewrite rd_wr_ne by congruence]).
  apply rd_empty.
Qed.

Lemma self_map_kind p i :
  hw_kind (rd (self_map_mem root t1 t0) p i) =
    if decide ((p, i) = (root, 363)) then HwTable t1
    else if decide ((p, i) = (t1, 511)) then HwTable t0
    else if decide ((p, i) = (t0, 511)) then HwLeaf root else HwFault.
Proof using Hr H1 H0.
  rewrite rd_self_map. repeat case_decide; [by apply hw_kind_table, H1|by apply hw_kind_table, H0| |done].
  rewrite testbit_pte_kind by (by vm_compute). cbn. by rewrite ppn_mod_44 by apply Hr.
Qed.

Lemma self_map_node n p :
  node_page (self_map_mem root t1 t0) root n = Some p <->
  (n, p) = (NRoot, root) \/ (n, p) = (N1 363, t1) \/ (n, p) = (N0 363 511, t0).
Proof using Hr H1 H0 Hne.
  destruct Hne as (? & ? & ?). destruct n as [|a|a b]; cbn; unfold child_page; rewrite ?self_map_kind.
  - naive_solver.
  - repeat case_decide; naive_solver.
  - destruct (decide ((root, a) = (root, 363))) as [[= ->]|Ha]; cbn.
    + rewrite self_map_kind. repeat case_decide; naive_solver.
    + repeat case_decide; naive_solver.
Qed.

Lemma self_map_wf : wf_tables (self_map_mem root t1 t0) root.
Proof using Hr H1 H0 Hne.
  pose proof self_map_node as Hn. pose proof self_map_kind as Hk. destruct Hne as (N1' & N2' & N3').
  constructor.
  - intros n1 n2 p E1%Hn E2%Hn. naive_solver.
  - intros n p E%Hn. naive_solver.
  - intros n p i _. rewrite Hk, rd_self_map. repeat case_decide; done.
  - intros i p. rewrite Hk. repeat case_decide; naive_solver.
  - intros i p j q E%Hn. rewrite Hk. repeat case_decide; naive_solver.
  - intros i j p k q E%Hn. rewrite Hk. repeat case_decide; naive_solver.
  - exists (pte root 0xc7). rewrite !pte_testbit by (lia || by vm_compute). split_and!; [done..|].
    intros i Hi. destruct (entry_at_root i Hi) as (E2 & E1 & E0 & _).
    rewrite (hw_walk_node _ _ _ t0) by (apply Hn; rewrite E2, E1; naive_solver).
    rewrite E0, Hk, rd_self_map. repeat case_decide; naive_solver.
Qed.

Lemma self_map_fresh f : f <> root -> f <> t1 -> f <> t0 -> fresh (self_map_mem root t1 t0) root f.
Proof using Hr H1 H0 Hne.
  intros. split; [intros n E%self_map_node; naive_solver|].
  intros j. rewrite rd_self_map. repeat case_decide; naive_solver.
Qed.
End self_map.

(** Those tables, with the given free pages. *)
Definition machine_with (l : list PPN) : Machine Pmm :=
  mkMachine (self_map_mem 1 2 3) (Z.lor 1 (Z.shiftl 1 63)) (Some (alloc_of (reverse l))).

Lemma self_map_free l :
  NoDup l -> Forall (fun f => ppn_ok f /\ f <> 1 /\ f <> 2 /\ f <> 3) l ->
  free_ok (self_map_mem 1 2 3) 1 l.
Proof.
  intros Hnd Hl. split; [done|]. eapply Forall_impl; [done|]. intros f (? & ? & ? & ?).
  split; [done|]. apply self_map_fresh; first [done|lia|by vm_compute].
Qed.

Lemma machine_with_inv l :
  NoDup l -> Forall (fun f => ppn_ok f /\ f <> 1 /\ f <> 2 /\ f <> 3) l ->
  (length l <= 2048)%nat -> vm_inv (machine_with l) l.
Proof.
  intros Hnd Hl Hlen. change 1 with (root_of (machine_with l)).
  split; [apply self_map_wf; first [lia|by vm_compute]|]. split; [by apply self_map_free|].
  exists (alloc_of (reverse l)). split; [done|]. apply alloc_of_repr. by rewrite length_reverse.
Qed.

Definition tiny_machine : Machine Pmm := machine_with [6; 5].

Lemma tiny_machine_inv : vm_inv tiny_machine [6; 5].
Proof.
  apply machine_with_inv; [by apply (bool_decide_unpack _)| |cbn; lia].
  apply (bool_decide_unpack _). by vm_compute.
Qed.

(** The same machine with one page of user memory mapped at 0x5000, through
    tables in pages 7 and 8. *)
Definition leaf_word : Z := pte 0x80200 (leaf_flags (Private 0x80200) RWX_RW UserLocal).

Definition mapped_mem : gmap (Z * Z) Z :=
  wr (wr (wr (self_map_mem 1 2 3) 1 0 (pte 7 1)) 7 0 (pte 8 1)) 8 5 leaf_word.

Definition mapped_machine : Machine Pmm :=
  mkMachine mapped_mem (Z.lor 1 (Z.shiftl 1 63)) (Some two_page_allocator).

Lemma mapped_mem_ok :
  wf_tables mapped_mem 1 /\ free_ok mapped_mem 1 [9; 6; 5] /\
  node_page mapped_mem 1 (N0 (ppn_2 0x5000) (ppn_1 0x5000)) = Some 8.
Proof.
  assert (wf_tables (self_map_mem 1 2 3) 1) as W0 by (apply self_map_wf; first [lia|by vm_compute]).
  assert (free_ok (self_map_mem 1 2 3) 1 [7; 8; 9; 6; 5]) as F0.
  { apply self_map_free; [by apply (bool_decide_unpack _)|].
    apply (bool_decide_unpack _). by vm_compute. }
  unfold mapped_mem. set (m0 := self_map_mem 1 2 3) in *.
  assert (forall f l m, free_ok m 1 (f :: l) -> ppn_ok f /\ fresh m 1 f) as Hhd
    by (by intros f l m [_ [? _]%Forall_cons]).
  assert (wf_tables (wr m0 1 0 (pte 7 1)) 1) as W1.
  { destruct (Hhd _ _ _ F0). by apply (wf_tables_wr_table m0 1 W0 NRoot). }
  assert (free_ok (wr m0 1 0 (pte 7 1)) 1 [8; 9; 6; 5]) as F1 by (by apply (free_ok_wr_table m0 1 W0 NRoot)).
  destruct (child_node_page m0 1 NRoot 1 0 7 (wt_inj _ _ W0) eq_refl I ltac:(by vm_compute))
    as (c1 & [= <-] & N1p).
  set (m1 := wr m0 1 0 (pte 7 1)) in *.
  assert (wf_tables (wr m1 7 0 (pte 8 1)) 1) as W2.
  { destruct (Hhd _ _ _ F1). by apply (wf_tables_wr_table m1 1 W1 (N1 0)). }
  assert (free_ok (wr m1 7 0 (pte 8 1)) 1 [9; 6; 5]) as F2 by (by apply (free_ok_wr_table m1 1 W1 (N1 0))).
  destruct (child_node_page m1 1 (N1 0) 7 0 8 (wt_inj _ _ W1) N1p I ltac:(by vm_compute))
    as (c2 & [= <-] & N0p).
  set (m2 := wr m1 7 0 (pte 8 1)) in *.
  assert (leaf_for (N0 0 0) leaf_word) as Hl by (by vm_compute).
  split_and!; [by apply (wf_tables_wr_leaf m2 1 W2 (N0 0 0))|by apply (free_ok_wr_leaf m2 1 W2 (N0 0 0))|].
  change (ppn_2 0x5000) with 0. change (ppn_1 0x5000) with 0.
  rewrite (node_page_wr m2 1 (wt_inj _ _ W2) (N0 0 0)); [done..|]. by intros [|].
Qed.

Lemma free_ok_tail m root f l : free_ok m root (f :: l) -> free_ok m root l.
Proof. intros [[_ Hn]%NoDup_cons [_ Hf]%Forall_cons]. by split. Qed.

Lemma mapped_machine_inv : vm_inv mapped_machine [6; 5].
Proof.
  destruct mapped_mem_ok as (W & F%free_ok_tail & _). change 1 with (root_of mapped_machine) in W, F.
  split_and!; [done..|]. exists two_page_allocator. split; [done|]. apply two_page_allocator_repr.
Qed.

(** The same memory with one more free page. *)
Definition mapped_machine3 : Machine Pmm :=
  mkMachine mapped_mem (satp mapped_machine) (Some (alloc_of [5; 6; 9])).

Lemma mapped_machine3_inv : vm_inv mapped_machine3 [9; 6; 5].
Proof.
  destruct mapped_mem_ok as (W & F & _). change 1 with (root_of mapped_machine3) in W, F.
  split; [done|]. split; [done|]. exists (alloc_of [5; 6; 9]). split; [done|].
  apply (alloc_of_repr [5; 6; 9]). cbn. lia.
Qed.

(** ** Properties *)

Section properties.
Context {A : Type} `{FrameAllocator A}.
Implicit Types s : Machine A.

(** C1: [add] is an insertion into the address space.  On a machine with
    well-formed tables and two free zeroed pages, [add] returns; if the address
    is already translated, even by a huge page, it returns [Overlaps] and no
    translation outside the HIGHMEM windows changes; otherwise it returns [Ok],
    the page now translates to the given page number with the flags [Leaf::set]
    chose, and every other address outside the windows translates as before.
    The invariant holds again afterwards. *)
Theorem vms_add_inserts s (va : Page) (map : Map) (rwx : RWX) (acc : Accessibility)
    (f1 f2 : PPN) (l : list PPN) :
  vm_inv s (f1 :: f2 :: l) -> mappable va -> fits 32 (map_ppn map) ->
  exists r s' l', add va map rwx acc s = Done (r, s') /\ vm_inv s' l' /\
    at_most_two f1 f2 l l' /\ satp s' = satp s /\
    r = match hw_walk (phys s) (root_of s) va with Some _ => Err Add_Overlaps | None => Ok tt end /\
    forall va', not_window va' ->
      hw_walk (phys s') (root_of s) va' =
        match hw_walk (phys s) (root_of s) va with
        | Some _ => hw_walk (phys s) (root_of s) va'
        | None => if decide (same_page va va')
                  then Some (map_ppn map, pte (map_ppn map) (leaf_flags map rwx acc))
                  else hw_walk (phys s) (root_of s) va'
        end.
Proof. apply add_spec. Qed.

(** C2: [remove] is a deletion.  When the tables of an address exist, [remove]
    returns the page number the address translated to, or [Err] when it was not
    mapped; afterwards the page does not translate, and every other address
    outside the windows translates as before. *)
Theorem vms_remove_deletes s (va : Page) (q : Z) (l : list PPN) :
  vm_inv s l -> mappable va ->
  node_page (phys s) (root_of s) (N0 (ppn_2 va) (ppn_1 va)) = Some q ->
  exists r s', remove va s = Done (r, s') /\ vm_inv s' l /\ satp s' = satp s /\
    r = match hw_walk (phys s) (root_of s) va with
        | Some (_, e) => Ok (PoS_Private (entry_ppn e)) | None => Err tt end /\
    forall va', not_window va' ->
      hw_walk (phys s') (root_of s) va' =
        if decide (same_page va va') then None else hw_walk (phys s) (root_of s) va'.
Proof. apply remove_spec. Qed.

(** [physical_addresses] over pages mapped at the bottom level fills the
    slice with exactly the physical addresses of the consecutive pages and
    changes no translation; but when the first address lies in a gigapage, the
    loop never advances and every slot gets one and the same address. *)
Theorem vms_physical_addresses s (va : Page) (ps store0 : list Z) (l : list PPN) :
  vm_inv s l ->
  (length store0 = length ps ->
   (forall k p, ps !! k = Some p ->
     page_ok (va + Z.of_nat k * PAGE_SIZE) /\ mappable (va + Z.of_nat k * PAGE_SIZE) /\
     mapped4k (phys s) (root_of s) (va + Z.of_nat k * PAGE_SIZE) p) ->
   exists s', physical_addresses va store0 s =
                Done ((Ok tt, (fun p => p * PAGE_SIZE) <$> ps), s') /\ vm_inv s' l /\ evolves s s') /\
  (forall p, hw_kind (rd (phys s) (root_of s) (ppn_2 va)) = HwLeaf p ->
   exists v, physical_addresses va store0 s = Done ((Ok tt, replicate (length store0) v), s)).
Proof.
  intros Hs. split.
  - intros Hlen Hps. unfold physical_addresses.
    eapply physical_addresses_loop_spec; eauto.
  - intros p Hk. eauto using physical_addresses_giga.
Qed.

(** The HIGHMEM_A window shows the page it is pointed at only when bit 22 of
    the page number is clear; otherwise it shows the page 2^22 below, because
    [Entry::set_global] shifts by a mask and so clears bit 32 of the entry. *)
Theorem highmem_window_page s (p : PPN) (l : list PPN) (i v : Z) :
  vm_inv s l -> fits 32 p -> 0 <= i < 512 ->
  let shown := if Z.testbit p 22 then p - 2 ^ 22 else p in
  exists s', map_highmem_a (Some p) s = Done (tt, s') /\
    translate_highmem_a p s' = Done (window_at HIGHMEM_A_start p, s') /\
    load (entry_at (window_at HIGHMEM_A_start p) i) s' = Done (rd (phys s') shown i, s') /\
    store (entry_at (window_at HIGHMEM_A_start p) i) v s' = Done (tt, upd s' shown i v).
Proof.
  intros Hs Hp Hi shown. destruct (highmem_a_shows s p l Hs Hp) as (s' & E & _ & _ & Hr).
  exists s'. split; [done|]. split; [apply translate_highmem_a_spec|].
  by apply reaches_load_store, Hr.
Qed.

(** Looking up an address that was never mapped does not fail.  When the
    root entry is zero, [get_pte] takes it for a table and follows it to
    physical page 0: it returns a pointer into whatever page the word there
    names, so [remove] of an unmapped address zeroes a word of that page when
    it happens to look valid. *)
Theorem get_pte_unmapped_reads_page_zero s (va : Page) (q : Z) (l : list PPN) :
  vm_inv s l -> mappable va -> root_of s <> 0 ->
  rd (phys s) (root_of s) (ppn_2 va) = 0 ->
  Entry_is_table (rd (phys s) 0 (ppn_1 va)) = true ->
  entry_ppn (rd (phys s) 0 (ppn_1 va)) = q -> ppn_ok q ->
  exists ptr s', get_pte va s = Done (Ok ptr, s') /\ reaches s' ptr q (ppn_0 va).
Proof.
  intros Hs Hva Hr E2 T1 E1 O0.
  destruct (get_pte_chain s va 0 q l Hs Hva) as (ptr & s' & E & _ & _ & Hp & _);
    rewrite ?E2; eauto; done.
Qed.
End properties.


Lemma vms_add_inserts_witness :
  exists s', add 0x5000 (Private 0x80200) RWX_RW UserLocal tiny_machine = Done (Ok tt, s') /\
    hw_walk (phys s') (root_of tiny_machine) 0x5008 = Some (0x80200, leaf_word) /\
    hw_walk (phys s') (root_of tiny_machine) 0x6000 = None.
Proof.
  destruct (vms_add_inserts tiny_machine 0x5000 (Private 0x80200) RWX_RW UserLocal 6 5 [])
    as (r & s' & l' & E & _ & _ & _ & Er & Hw).
  - apply tiny_machine_inv.
  - by vm_compute.
  - by vm_compute.
  - assert (hw_walk (phys tiny_machine) (root_of tiny_machine) 0x5000 = None) as E0
      by (vm_compute; reflexivity).
    rewrite E0 in Er, Hw. exists s'. rewrite E, Er. split; [reflexivity|split].
    + rewrite (Hw 0x5008); [vm_compute; reflexivity|vm_compute; split; discriminate].
    + rewrite (Hw 0x6000); [vm_compute; reflexivity|vm_compute; split; discriminate].
Defined.

Lemma vms_remove_deletes_witness :
  exists s', remove 0x5000 mapped_machine = Done (Ok (PoS_Private 0x80200), s') /\
    hw_walk (phys s') (root_of mapped_machine) 0x5000 = None.
Proof.
  destruct (vms_remove_deletes mapped_machine 0x5000 8 [6; 5]) as (r & s' & E & _ & _ & Er & Hw).
  - apply mapped_machine_inv.
  - by vm_compute.
  - apply mapped_mem_ok.
  - exists s'. rewrite E, Er. split.
    + vm_compute. reflexivity.
    + rewrite (Hw 0x5000); [vm_compute; reflexivity|vm_compute; split; discriminate].
Defined.

Lemma vms_physical_addresses_witness :
  exists s', physical_addresses 0x5000 [0] mapped_machine = Done ((Ok tt, [0x80200000]), s').
Proof.
  destruct (vms_physical_addresses mapped_machine 0x5000 [0x80200] [0] [6; 5]) as [Hp _].
  - apply mapped_machine_inv.
  - destruct Hp as (s' & E & _); [reflexivity| |exists s'; exact E].
    intros [|k] p Hk; [|discriminate Hk]. injection Hk as <-. split_and!; [by vm_compute..|].
    exists 8. split; [apply mapped_mem_ok|]. by vm_compute.
Defined.

Lemma highmem_window_page_witness :
  exists s', map_highmem_a (Some (2 ^ 22 + 8)) mapped_machine = Done (tt, s') /\
    load (entry_at (window_at HIGHMEM_A_start (2 ^ 22 + 8)) 5) s' = Done (rd (phys s') 8 5, s').
Proof.
  destruct (highmem_window_page mapped_machine (2 ^ 22 + 8) [6; 5] 5 0) as (s' & E & _ & El & _).
  - apply mapped_machine_inv.
  - by vm_compute.
  - lia.
  - exists s'. split; [exact E|exact El].
Defined.

Lemma get_pte_unmapped_witness :
  exists ptr s', get_pte 0x40000000 tiny_machine = Done (Ok ptr, s') /\ reaches s' ptr 0 0.
Proof.
  apply (get_pte_unmapped_reads_page_zero tiny_machine 0x40000000 0 [6; 5]).
  - apply tiny_machine_inv.
  - by vm_compute.
  - by vm_compute.
  - by vm_compute.
  - by vm_compute.
  - by vm_compute.
  - by vm_compute.
Defined.
