(* ===== verification/RangeSpec.v ===== *)
(** * Ranges of pages

    [allocate] and [deallocate] of the virtual memory system
    (src/kernel/src/arch/riscv/vms/sv39.rs), one page at a time through [add] and
    [remove]: their effect on a whole range, from the specifications of the
    single operations. *)

From S2P Require Import Prelude Page Ppn Allocator Reserved Sv39Entry Sv39 Sv39Walk Sv39Spec.

(** The [i]-th page after [va]. *)
Definition page_at (va i : Z) : Z := va + i * PAGE_SIZE.

(** The number of an address's page in the Sv39 space. *)
Definition vpn (va : Z) : Z := (va / PAGE_SIZE) mod 2 ^ 27.

Lemma vpn_indices va : vpn va = ppn_2 va * 2 ^ 18 + ppn_1 va * 2 ^ 9 + ppn_0 va.
Proof.
  rewrite ppn_2_spec, ppn_1_spec, ppn_0_spec. unfold vpn, PAGE_SIZE.
  change (2 ^ 30) with (4096 * 2 ^ 18). change (2 ^ 21) with (4096 * 2 ^ 9). change (2 ^ 12) with 4096.
  rewrite <-!Z.div_div by lia. set (x := va / 4096).
  change (2 ^ 18) with (512 * 512). change (2 ^ 9) with 512. change (2 ^ 27) with (512 * (512 * 512)).
  rewrite <-Z.div_div by lia.
  rewrite !Z.rem_mul_r by lia. lia.
Qed.

Lemma same_page_vpn va va' : same_page va va' -> vpn va' = vpn va.
Proof. intros (E2 & E1 & E0). by rewrite !vpn_indices, E2, E1, E0. Qed.

(** Different pages of a range that fits the space. *)
Lemma page_at_apart va i j :
  0 <= i -> 0 <= j -> Z.abs (i - j) < 2 ^ 27 -> same_page (page_at va i) (page_at va j) -> i = j.
Proof.
  intros Hi Hj Hd E%same_page_vpn. unfold vpn, page_at in E. unfold PAGE_SIZE in E.
  rewrite !Z.div_add in E by lia. apply (wrap_eq_near 27) in E; lia.
Qed.

Lemma page_at_S va i : page_at (va + PAGE_SIZE) i = page_at va (i + 1).
Proof. unfold page_at. lia. Qed.

Lemma page_at_0 va : page_at va 0 = va.
Proof. unfold page_at. lia. Qed.

(** A range of pages that can be mapped. *)
Record span_ok (va n : Z) : Prop := mk_span_ok {
  ro_first : page_ok va;
  ro_len : 0 <= n <= 2 ^ 27;
  ro_end : va + n * PAGE_SIZE < 2 ^ 64;
  ro_map : forall i, 0 <= i < n -> mappable (page_at va i)
}.

Lemma span_ok_tail va n : span_ok va n -> 0 < n -> span_ok (va + PAGE_SIZE) (n - 1).
Proof.
  intros [(Hf & Hz & Ha) Hl He Hm] Hn. unfold PAGE_SIZE in *. unfold fits in *. constructor.
  - unfold page_ok, fits, PAGE_SIZE. split; [lia|]. split; [lia|].
    rewrite <-(Z.mul_1_l 4096) at 1. by rewrite Z_mod_plus_full.
  - lia.
  - unfold PAGE_SIZE. lia.
  - intros i Hi. change 4096 with PAGE_SIZE. rewrite page_at_S. apply Hm. lia.
Qed.

Lemma span_ok_next va n : span_ok va n -> 0 < n -> Page_next va = Some (va + PAGE_SIZE).
Proof.
  intros [Hp Hl He _] Hn. unfold Page_next. rewrite Page_skip_in; [f_equal; lia|done|lia|].
  unfold PAGE_SIZE in *. lia.
Qed.

(** The first page is none of the others. *)
Lemma first_apart va n j :
  span_ok va n -> 0 < j < n -> ~ same_page va (page_at va j) /\ ~ same_page (page_at va j) va.
Proof.
  intros [_ Hl _ _] Hj. pose proof (page_at_apart va 0 j) as H1. pose proof (page_at_apart va j 0) as H2.
  rewrite page_at_0 in H1, H2. split; intros Hsp; [apply H1 in Hsp|apply H2 in Hsp]; lia.
Qed.

Section ranges.
Context {A : Type} `{FrameAllocator A}.
Implicit Types s : Machine A.

(** The body of [allocate]'s closure: the page is mapped and the address moves on. *)
Definition allocate_body (rwx : RWX) (acc : Accessibility) (ppn : PPN) : M (Machine A * Page) unit :=
  let* '(_, va) := get in
  let* r := on_fst (add va (Private ppn) rwx acc) in
  unwrap_ok "called `Result::unwrap()` on an `Err` value" r ;;
  let* va := unwrap "called `Option::unwrap()` on a `None` value" (Page_next va) in
  modify (fun st => (st.1, va)).

Definition translates s (va : Z) : option (Z * Z) := hw_walk (phys s) (root_of s) va.

(** What a leaf for a private page looks like. *)
Definition private_leaf (p : PPN) (rwx : RWX) (acc : Accessibility) : Z * Z :=
  (p, pte p (leaf_flags (Private p) rwx acc)).

Lemma vm_inv_ppn s f l : vm_inv s (f :: l) -> fits 32 f.
Proof. by intros (_ & [_ [[[? _] _] _]%Forall_cons] & _). Qed.

Lemma vm_inv_fa_alloc (s : Machine A) f l :
  vm_inv s (f :: l) ->
  exists m, fa_alloc s = Done (Ok f, m) /\ vm_inv m l /\ phys m = phys s /\ satp m = satp s.
Proof.
  intros (Hwf & [Hnd Hfree] & Hfr). destruct (fa_alloc_spec (pmm s) f l Hfr) as (a & E & Ha).
  apply NoDup_cons in Hnd as [_ Hnd]. apply Forall_cons in Hfree as [_ Hfree].
  exists (mkMachine (phys s) (satp s) a). cbn. unfold machine_alloc. rewrite E. by split_and!.
Qed.

(** One page of the range. *)
Lemma allocate_page s (va : Page) rwx acc f0 f1 f2 l n :
  vm_inv s (f0 :: f1 :: f2 :: l) -> span_ok va n -> 0 < n -> translates s va = None ->
  exists m s' l', on_fst fa_alloc (s, va) = Done (Ok f0, (m, va)) /\
    allocate_body rwx acc f0 (m, va) = Done (tt, (s', va + PAGE_SIZE)) /\
    vm_inv s' l' /\ at_most_two f1 f2 l l' /\ satp s' = satp s /\
    forall va', not_window va' -> translates s' va' =
      if decide (same_page va va') then Some (private_leaf f0 rwx acc) else translates s va'.
Proof.
  intros Hs Hr Hn Hva. pose proof (vm_inv_ppn _ _ _ Hs) as Hf0.
  destruct (vm_inv_fa_alloc s f0 (f1 :: f2 :: l) Hs) as (m & Em & Hm & Ep & Es).
  assert (mappable va) as Hmap by (rewrite <-(page_at_0 va); apply Hr; lia).
  destruct (add_spec m va (Private f0) rwx acc f1 f2 l Hm Hmap Hf0)
    as (r & s' & l' & E & Hs' & Hl' & Es' & Er & Hw).
  assert (root_of m = root_of s) as Erm by (unfold root_of; by rewrite Es).
  rewrite Erm, Ep in *. unfold translates in Hva. rewrite Hva in Er, Hw. subst r.
  exists m, s', l'. unfold on_fst. cbn [fst snd]. rewrite Em. split; [done|].
  split; [|split; [done|split; [done|split; [congruence|]]]].
  - unfold allocate_body, bind, get, on_fst. cbn [fst snd]. rewrite E. unfold unwrap_ok, ret. cbn.
    by rewrite (span_ok_next va n).
  - intros va' Hva'. unfold translates. unfold root_of at 1. rewrite Es', Es. by apply Hw.
Qed.

Lemma translates_apart s s1 va n j f rwx acc :
  span_ok va n ->
  (forall va', not_window va' -> translates s1 va' =
     if decide (same_page va va') then Some (private_leaf f rwx acc) else translates s va') ->
  0 < j < n -> translates s1 (page_at va j) = translates s (page_at va j).
Proof.
  intros Hr Hw Hj. rewrite Hw by by (apply mappable_not_window, Hr; lia).
  rewrite decide_False; [done|]. by apply (first_apart va n).
Qed.

(** ** Mapping given pages, one after the other *)

Fixpoint add_frames (ps : list PPN) (va : Page) (rwx : RWX) (acc : Accessibility) : M (Machine A) unit :=
  match ps with
  | [] => ret tt
  | p :: ps =>
    let* r := add va (Private p) rwx acc in
    unwrap_ok "called `Result::unwrap()` on an `Err` value" r ;;
    let* va := unwrap "called `Option::unwrap()` on a `None` value" (Page_next va) in
    add_frames ps va rwx acc
  end.

Lemma add_frame s (va : Page) (p : PPN) rwx acc f1 f2 l n :
  vm_inv s (f1 :: f2 :: l) -> span_ok va n -> 0 < n -> fits 32 p -> translates s va = None ->
  exists s' l', add va (Private p) rwx acc s = Done (Ok tt, s') /\ vm_inv s' l' /\ at_most_two f1 f2 l l' /\
    satp s' = satp s /\ grows [f1; f2] s s' /\
    forall va', not_window va' -> translates s' va' =
      if decide (same_page va va') then Some (private_leaf p rwx acc) else translates s va'.
Proof.
  intros Hs Hr Hn Hp Hva. assert (mappable va) as Hmap by (rewrite <-(page_at_0 va); apply Hr; lia).
  destruct (add_spec s va (Private p) rwx acc f1 f2 l Hs Hmap Hp) as (r & s' & l' & E & Hs' & Hl' & Es' & Er & Hw).
  pose proof (add_grows s va (Private p) rwx acc f1 f2 l _ _ Hs Hmap Hp E) as Hg.
  unfold translates in *. rewrite Hva in Er, Hw. subst r. exists s', l'. split_and!; try done.
  intros va' Hva'. unfold root_of at 1. rewrite Es'. by apply Hw.
Qed.

Lemma add_frames_spec ps s (va : Page) l rwx acc :
  vm_inv s l -> (2 * length ps <= length l)%nat -> span_ok va (zlen ps) -> Forall (fits 32) ps ->
  (forall i, 0 <= i < zlen ps -> translates s (page_at va i) = None) ->
  exists s' l', add_frames ps va rwx acc s = Done (tt, s') /\ vm_inv s' l' /\ l' `suffix_of` l /\
    (length l <= 2 * length ps + length l')%nat /\ satp s' = satp s /\ grows l s s' /\
    (forall i p, nth_z ps i = Some p -> translates s' (page_at va i) = Some (private_leaf p rwx acc)) /\
    (forall va', not_window va' -> (forall i, 0 <= i < zlen ps -> ~ same_page (page_at va i) va') ->
       translates s' va' = translates s va').
Proof.
  revert s va l. induction ps as [|p ps IH]; intros s va l Hs Hl Hr Hps Hnone.
  { exists s, l. split_and!; try done; [apply grows_refl|]. intros i p Hp%nth_z_Some. unfold zlen in Hp. cbn in Hp. lia. }
  destruct l as [|f1 [|f2 l]]; [cbn in Hl; lia..|]. apply Forall_cons in Hps as [Hp Hps]. pose proof (zlen_nonneg ps). rewrite zlen_cons in *.
  destruct (add_frame s va p rwx acc f1 f2 l (1 + zlen ps) Hs Hr ltac:(lia) Hp) as (s1 & l1 & Ea & Hs1 & [Hl1 Hl1'] & Es1 & Hg & Hw).
  { rewrite <-(page_at_0 va). apply Hnone. lia. }
  pose proof (span_ok_tail va _ Hr ltac:(lia)) as Hr1. replace (1 + zlen ps - 1) with (zlen ps) in Hr1 by lia.
  assert (root_of s1 = root_of s) as Er1 by (unfold root_of; by rewrite Es1).
  destruct (IH s1 (va + PAGE_SIZE) l1 Hs1) as (s' & l' & E & Hs' & Hl' & Hn' & Es' & Hg' & Hmap & Hrest); [|done|done| |].
  { apply suffix_length in Hl1'. cbn in Hl. lia. }
  { intros i Hi. rewrite page_at_S, (translates_apart s s1 va _ _ p rwx acc Hr Hw) by lia. apply Hnone. lia. }
  assert (not_window va) as Hnw by (apply mappable_not_window; rewrite <-(page_at_0 va); apply Hr; lia).
  exists s', l'. split_and!.
  - cbn [add_frames]. erewrite bind_done by exact Ea. cbv beta iota. unfold unwrap_ok. erewrite bind_done by done.
    rewrite (span_ok_next va _ Hr) by lia. unfold unwrap. by erewrite bind_done by done.
  - done.
  - by etrans.
  - apply suffix_length in Hl1'. cbn. lia.
  - congruence.
  - apply (grows_trans _ [f1; f2] l1 _ s1); [clear; set_solver| |done|done|done].
    destruct Hl1 as [k ->]. clear. set_solver.
  - intros i q Hq. pose proof (nth_z_Some _ _ _ Hq) as Hi. rewrite zlen_cons in Hi. destruct (decide (i = 0)) as [->|Hne].
    + injection Hq as <-. rewrite page_at_0, Hrest, Hw, decide_True; [done..|]. intros j Hj. rewrite page_at_S. apply (first_apart va (1 + zlen ps)); [done|lia].
    + replace i with (1 + (i - 1)) in Hq by lia. rewrite nth_z_cons in Hq by lia. apply Hmap in Hq. rewrite page_at_S in Hq.
      by replace (i - 1 + 1) with i in Hq by lia.
  - intros va' Hva' Hno. rewrite Hrest, Hw, decide_False; [done| |done..|].
    + rewrite <-(page_at_0 va). apply Hno. lia.
    + intros i Hi. rewrite page_at_S. apply Hno. lia.
Qed.

Lemma mem_allocate_range_spec n s (va : Page) l rwx acc :
  vm_inv s l -> (3 * n <= length l)%nat -> span_ok va (Z.of_nat n) ->
  (forall i, 0 <= i < Z.of_nat n -> translates s (page_at va i) = None) ->
  exists s' l' fs, mem_allocate_range n (allocate_body rwx acc) (s, va) =
      Done (Ok tt, (s', page_at va (Z.of_nat n))) /\
    vm_inv s' l' /\ satp s' = satp s /\ length fs = n /\ fs ++ l' ⊆+ l /\
    (forall i f, fs !! i = Some f ->
       translates s' (page_at va (Z.of_nat i)) = Some (private_leaf f rwx acc)) /\
    (forall va', not_window va' -> (forall i, 0 <= i < Z.of_nat n -> ~ same_page (page_at va i) va') ->
       translates s' va' = translates s va').
Proof.
  revert s va l. induction n as [|n IH]; intros s va l Hs Hl Hr Hnone.
  { exists s, l, []. rewrite page_at_0. split_and!; [done..| |]; [by intros|done]. }
  destruct l as [|f0 [|f1 [|f2 l]]]; [cbn in Hl; lia..|].
  destruct (allocate_page s va rwx acc f0 f1 f2 l (Z.of_nat (S n)) Hs Hr ltac:(lia))
    as (m & s1 & l1 & Ea & Eb & Hs1 & [Hl1 Hl1'] & Es1 & Hw).
  { rewrite <-(page_at_0 va). apply Hnone. lia. }
  pose proof (span_ok_tail va _ Hr ltac:(lia)) as Hr1. replace (Z.of_nat (S n) - 1) with (Z.of_nat n) in Hr1 by lia.
  destruct (IH s1 (va + PAGE_SIZE) l1 Hs1) as (s' & l' & fs & E & Hs' & Es' & Hfs & Hsub & Hmap & Hrest).
  { apply suffix_length in Hl1'. cbn in Hl. lia. }
  { done. }
  { intros i Hi. rewrite page_at_S, (translates_apart s s1 va _ _ f0 rwx acc Hr Hw) by lia. apply Hnone. lia. }
  assert (translates s' va = Some (private_leaf f0 rwx acc)) as Hva.
  { rewrite Hrest, Hw, decide_True; [done|done|..].
    - apply mappable_not_window. rewrite <-(page_at_0 va). apply Hr. lia.
    - apply mappable_not_window. rewrite <-(page_at_0 va). apply Hr. lia.
    - intros i Hi. rewrite page_at_S. apply (first_apart va (Z.of_nat (S n))); [done|lia]. }
  exists s', l', (f0 :: fs). split_and!.
  - cbn [mem_allocate_range]. unfold bind_ok, bind at 1.
    change (fa_alloc (s, va)) with (on_fst fa_alloc (s, va)). rewrite Ea.
    unfold bind. rewrite Eb. change Page with Z in *. rewrite E, page_at_S. do 3 f_equal. f_equal. lia.
  - done.
  - congruence.
  - cbn. by rewrite Hfs.
  - cbn. constructor. etrans; [exact Hsub|]. destruct Hl1 as [k ->]. by apply submseteq_inserts_l.
  - intros [|i] f; cbn; [intros [= <-]; by rewrite page_at_0|]. intros Hf%Hmap.
    rewrite page_at_S in Hf. replace (Z.of_nat (S i)) with (Z.of_nat i + 1) by lia. done.
  - intros va' Hva' Hno. rewrite Hrest, Hw, decide_False; [done| |done..|].
    + rewrite <-(page_at_0 va). apply Hno. lia.
    + intros i Hi. rewrite page_at_S. apply Hno. lia.
Qed.

Lemma allocate_eq (va : Page) count rwx acc s :
  allocate va count rwx acc s =
    match mem_allocate_range (Z.to_nat count) (allocate_body rwx acc) (s, va) with
    | Done (Ok _, st) => Done (Ok tt, st.1)
    | Done (Err _, _) => Panicked "called `Result::unwrap()` on an `Err` value"
    | Panicked why => Panicked why
    | OutOfFuel => OutOfFuel
    end.
Proof. reflexivity. Qed.

Lemma allocate_spec n s (va : Page) l rwx acc :
  vm_inv s l -> (3 * n <= length l)%nat -> span_ok va (Z.of_nat n) ->
  (forall i, 0 <= i < Z.of_nat n -> translates s (page_at va i) = None) ->
  exists s' l' fs, allocate va (Z.of_nat n) rwx acc s = Done (Ok tt, s') /\
    vm_inv s' l' /\ satp s' = satp s /\ length fs = n /\ fs ++ l' ⊆+ l /\
    (forall i f, fs !! i = Some f ->
       translates s' (page_at va (Z.of_nat i)) = Some (private_leaf f rwx acc)) /\
    (forall va', not_window va' -> (forall i, 0 <= i < Z.of_nat n -> ~ same_page (page_at va i) va') ->
       translates s' va' = translates s va').
Proof.
  intros Hs Hl Hr Hn. destruct (mem_allocate_range_spec n s va l rwx acc Hs Hl Hr Hn)
    as (s' & l' & fs & E & Hrest). exists s', l', fs. split; [|done].
  rewrite allocate_eq, Nat2Z.id. by rewrite E.
Qed.

(** Allocating over a mapped page panics at that page. *)
Lemma allocate_overlap n s (va : Page) l rwx acc f0 f1 f2 :
  vm_inv s (f0 :: f1 :: f2 :: l) -> mappable va -> is_Some (translates s va) ->
  allocate va (Z.of_nat (S n)) rwx acc s = Panicked "called `Result::unwrap()` on an `Err` value".
Proof.
  intros Hs Hmap [x Hx]. pose proof (vm_inv_ppn _ _ _ Hs) as Hf0.
  destruct (vm_inv_fa_alloc s f0 (f1 :: f2 :: l) Hs) as (m & Em & Hm & Ep & Es).
  destruct (add_spec m va (Private f0) rwx acc f1 f2 l Hm Hmap Hf0)
    as (r & s' & l' & E & _ & _ & _ & Er & _).
  assert (root_of m = root_of s) as Erm by (unfold root_of; by rewrite Es).
  rewrite Erm, Ep in Er. unfold translates in Hx. rewrite Hx in Er. subst r.
  unfold allocate. rewrite Nat2Z.id. cbn [mem_allocate_range]. unfold bind_ok, bind at 1.
  change (fa_alloc (s, va)) with (on_fst fa_alloc (s, va)). unfold on_fst at 1. cbn [fst snd]. rewrite Em.
  unfold bind, get, on_fst. cbn [fst snd]. by rewrite E.
Qed.

(** A page that is translated at the bottom level. *)
Definition small_page s (va : Z) : Prop :=
  is_Some (translates s va) /\ is_Some (node_page (phys s) (root_of s) (N0 (ppn_2 va) (ppn_1 va))).

(** [remove] keeps the tables. *)
Lemma remove_nodes s va q l r s' :
  vm_inv s l -> mappable va -> node_page (phys s) (root_of s) (N0 (ppn_2 va) (ppn_1 va)) = Some q ->
  remove va s = Done (r, s') ->
  forall n p, node_outside n -> node_page (phys s) (root_of s) n = Some p ->
    node_page (phys s') (root_of s) n = Some p.
Proof.
  intros Hs Hva Hq E n p Hn Hp.
  destruct (get_pte_spec s va q l Hs Hva Hq) as (ptr & s1 & Eg & Hs1 & Ev & Hr & Erd).
  pose proof (evolves_root _ _ Ev) as Er. pose proof (ev_node _ _ Ev n p Hn Hp) as Hp1.
  pose proof (ev_node _ _ Ev _ q (node_outside_mappable va Hva) Hq) as Hq1.
  unfold remove, bind in E. rewrite Eg in E. unfold leaf_clear_at, bind in E.
  rewrite (load_at _ _ _ _ Hr) in E.
  destruct (Leaf_is_valid (rd (phys s1) q (ppn_0 va))) eqn:Hv.
  - rewrite Leaf_clear_valid, (store_at _ _ _ _ _ Hr) in E by done. injection E as _ <-. cbn.
    rewrite (node_page_wr (phys s1) (root_of s)) with (n := N0 (ppn_2 va) (ppn_1 va)); try done.
    + rewrite <-Er. apply Hs1.
    + destruct n as [|?|? ?]; cbn; naive_solver.
  - rewrite Leaf_clear_invalid in E by done. by injection E as _ <-.
Qed.

Lemma small_page_mappable_nodes s s' va :
  mappable va -> root_of s' = root_of s -> translates s' va = translates s va ->
  (forall n p, node_outside n -> node_page (phys s) (root_of s) n = Some p ->
     node_page (phys s') (root_of s) n = Some p) ->
  small_page s va -> small_page s' va.
Proof.
  intros Hm Er Et Hn [Hw [q Hq]]. split; [by rewrite Et|]. exists q. rewrite Er.
  by apply Hn; [apply node_outside_mappable|].
Qed.

(** Deallocating unmaps the range and gives nothing back to the allocator. *)
Lemma deallocate_spec n s va l :
  vm_inv s l -> span_ok va (Z.of_nat n) ->
  (forall i, 0 <= i < Z.of_nat n -> small_page s (page_at va i)) ->
  exists s', deallocate va n s = Done (Ok tt, s') /\ vm_inv s' l /\ satp s' = satp s /\
    (forall i, 0 <= i < Z.of_nat n -> translates s' (page_at va i) = None) /\
    (forall va', not_window va' -> (forall i, 0 <= i < Z.of_nat n -> ~ same_page (page_at va i) va') ->
       translates s' va' = translates s va').
Proof.
  revert s va. induction n as [|n IH]; intros s va Hs Hr Hsm.
  { exists s. split_and!; [done..|intros; lia|done]. }
  assert (mappable va) as Hmap by (rewrite <-(page_at_0 va); apply Hr; lia).
  destruct (Hsm 0 ltac:(lia)) as [[x Hx] [q Hq]]. rewrite page_at_0 in *.
  destruct (remove_spec s va q l Hs Hmap Hq) as (r & s1 & E & Hs1 & Es1 & Er & Hw).
  pose proof (remove_nodes s va q l r s1 Hs Hmap Hq E) as Hnodes.
  assert (root_of s1 = root_of s) as Eroot by (unfold root_of; by rewrite Es1).
  unfold translates in Hx. rewrite Hx in Er. destruct x as [p e]. subst r.
  pose proof (span_ok_tail va _ Hr ltac:(lia)) as Hr1. replace (Z.of_nat (S n) - 1) with (Z.of_nat n) in Hr1 by lia.
  assert (forall j, 0 < j < Z.of_nat (S n) -> translates s1 (page_at va j) = translates s (page_at va j)) as Hj.
  { intros j Hj. unfold translates. rewrite Eroot, Hw by (apply mappable_not_window, Hr; lia).
    rewrite decide_False; [done|]. by apply (first_apart va (Z.of_nat (S n))). }
  destruct (IH s1 (va + PAGE_SIZE) Hs1 Hr1) as (s' & E' & Hs' & Es' & Hnone & Hrest).
  { intros i Hi. rewrite page_at_S. apply (small_page_mappable_nodes s); try done.
    - apply Hr. lia. - apply Hj. lia. - apply Hsm. lia. }
  exists s'. split_and!; [|done|congruence|..].
  - cbn [deallocate]. unfold bind at 1. rewrite E. unfold unwrap_ok, bind at 1, ret at 1.
    rewrite (span_ok_next va (Z.of_nat (S n))) by (done || lia). exact E'.
  - intros i Hi. destruct (decide (i = 0)) as [->|].
    + rewrite page_at_0. rewrite Hrest.
      * unfold translates. rewrite Eroot, Hw by by apply mappable_not_window. by rewrite decide_True.
      * by apply mappable_not_window.
      * intros j Hlj. rewrite page_at_S. apply (first_apart va (Z.of_nat (S n))); [done|lia].
    + specialize (Hnone (i - 1) ltac:(lia)). rewrite page_at_S in Hnone.
      by replace (i - 1 + 1) with i in Hnone by lia.
  - intros va' Hva' Hno. rewrite Hrest; [|done|].
    + unfold translates. rewrite Eroot, Hw by done. rewrite decide_False; [done|].
      rewrite <-(page_at_0 va). apply Hno. lia.
    + intros i Hi. rewrite page_at_S. apply Hno. lia.
Qed.
End ranges.
