(* ===== verification/UserMem.v ===== *)
(** * Accesses to user memory

    The kernel reads and writes structures in user memory through the page
    tables of the active address space (src/kernel/src/task/ipc.rs,
    src/kernel/src/syscall.rs).  An access of 1, 2, 4 or 8 bytes is a field of a
    64-bit word of physical memory; an access that is not aligned for its size is
    undefined behaviour in the source and stops the model.  The second half of
    the file views an area of memory as an array: reads and writes of its cells
    are then [nth_z] and [set_z] on a list. *)

From S2P Require Import Prelude Page Ppn Allocator Reserved Sv39Entry Sv39 Sv39Walk Sv39Spec.

(** ** Fields of a word *)

Definition get_field (k b w : Z) : Z := Z.shiftr w k mod 2 ^ b.

Definition set_field (k b w v : Z) : Z :=
  Z.lor (Z.ldiff w (Z.shiftl (Z.ones b) k)) (Z.shiftl (v mod 2 ^ b) k).

Lemma get_field_testbit k b w i :
  0 <= k -> 0 <= b -> 0 <= i ->
  Z.testbit (get_field k b w) i = if decide (i < b) then Z.testbit w (i + k) else false.
Proof.
  intros. unfold get_field. case_decide.
  - by rewrite Z.mod_pow2_bits_low, Z.shiftr_spec by lia.
  - by rewrite Z.mod_pow2_bits_high by lia.
Qed.

Lemma set_field_testbit k b w v i :
  0 <= k -> 0 <= b -> 0 <= i ->
  Z.testbit (set_field k b w v) i =
    if decide (k <= i < k + b) then Z.testbit v (i - k) else Z.testbit w i.
Proof.
  intros. unfold set_field. rewrite Z.lor_spec, Z.ldiff_spec, !Z.shiftl_spec by lia. case_decide.
  - rewrite Z.ones_spec_low, Z.mod_pow2_bits_low by lia. by rewrite andb_false_r.
  - destruct (decide (i < k)).
    + rewrite !(Z.testbit_neg_r _ (i - k)) by lia. by rewrite andb_true_r, orb_false_r.
    + rewrite Z.ones_spec_high, Z.mod_pow2_bits_high by lia. by rewrite andb_true_r, orb_false_r.
Qed.

Lemma get_set_field k b w v : 0 <= k -> 0 <= b -> get_field k b (set_field k b w v) = v mod 2 ^ b.
Proof.
  intros. apply Z.bits_inj'. intros i Hi. rewrite get_field_testbit by done. case_decide.
  - rewrite set_field_testbit, decide_True by lia. rewrite Z.mod_pow2_bits_low by lia. f_equal. lia.
  - by rewrite Z.mod_pow2_bits_high by lia.
Qed.

Lemma get_set_field_ne k k' b w v :
  0 <= k -> 0 <= k' -> 0 <= b -> k' + b <= k \/ k + b <= k' ->
  get_field k' b (set_field k b w v) = get_field k' b w.
Proof.
  intros. apply Z.bits_inj'. intros i Hi. rewrite !get_field_testbit by done. case_decide; [|done].
  by rewrite set_field_testbit, decide_False by lia.
Qed.

(** ** Sized accesses *)

Section access.
Context {A : Type} `{FrameAllocator A}.

Definition aligned (sz va : Z) : bool := bool_decide (va mod sz = 0).

Definition load_n (sz va : Z) : M (Machine A) Z :=
  if aligned sz va then
    let* w := load va in ret (get_field (8 * (va mod 8)) (8 * sz) w)
  else panic "undefined: unaligned access".

Definition store_n (sz va v : Z) : M (Machine A) unit :=
  if aligned sz va then
    let* w := load va in store va (set_field (8 * (va mod 8)) (8 * sz) w v)
  else panic "undefined: unaligned access".

(** ** Areas of memory *)

Implicit Types s : Machine A.

(** The physical page behind an address, when it can be read and written. *)
Definition rw_page s (va p : Z) : Prop :=
  exists e, Z.testbit e 1 = true /\ Z.testbit e 2 = true /\ hw_walk (phys s) (root_of s) va = Some (p, e).

(** No table of the active address space lies in page [p]. *)
Definition not_table s (p : Z) : Prop := forall n, node_page (phys s) (root_of s) n <> Some p.

(** [n] cells of [sz] bytes from [base]: each is mapped, none is in a table, and
    two different virtual pages are different physical pages. *)
Record area s (sz base n : Z) : Prop := mk_area {
  ar_base : base mod sz = 0;
  ar_map : forall i, 0 <= i < n -> exists p, rw_page s (base + sz * i) p /\ not_table s p;
  ar_inj : forall i j p, 0 <= i < n -> 0 <= j < n ->
    rw_page s (base + sz * i) p -> rw_page s (base + sz * j) p ->
    (base + sz * i) / 4096 = (base + sz * j) / 4096
}.

(** The value of a cell, and all of them. *)
Definition cell s (sz va : Z) : Z :=
  match hw_walk (phys s) (root_of s) va with
  | Some (p, _) => get_field (8 * (va mod 8)) (8 * sz) (rd (phys s) p (va mod 4096 / 8))
  | None => 0
  end.

Definition cells s (sz base n : Z) : list Z := (fun i => cell s sz (base + sz * i)) <$> seqZ 0 n.
End access.

(** ** Writes outside the tables *)

Lemma node_page_wr_data m root p i v :
  (forall n, node_page m root n <> Some p) ->
  forall n, node_page (wr m p i v) root n = node_page m root n.
Proof.
  intros Hp [|a|a b]; cbn; [done|..].
  - apply child_page_wr_ne. intros [= -> _]. by apply (Hp NRoot).
  - rewrite child_page_wr_ne by (intros [= -> _]; by apply (Hp NRoot)).
    destruct (child_page m root a) as [q|] eqn:E; [|done]. cbn.
    apply child_page_wr_ne. intros [= -> _]. by apply (Hp (N1 a)).
Qed.

Lemma hw_walk_wr_data m root p i v va :
  (forall n, node_page m root n <> Some p) -> hw_walk (wr m p i v) root va = hw_walk m root va.
Proof.
  intros Hp. unfold hw_walk. rewrite rd_wr_ne by (intros [= -> _]; by apply (Hp NRoot)).
  destruct (hw_kind (rd m root (ppn_2 va))) as [| |q1] eqn:E2; [done..|].
  assert (node_page m root (N1 (ppn_2 va)) = Some q1) as H1 by (cbn; unfold child_page; by rewrite E2).
  rewrite rd_wr_ne by (intros [= -> _]; by apply (Hp (N1 (ppn_2 va)))).
  destruct (hw_kind (rd m q1 (ppn_1 va))) as [| |q0] eqn:E1; [done..|].
  rewrite rd_wr_ne; [done|]. intros [= -> _]. apply (Hp (N0 (ppn_2 va) (ppn_1 va))).
  cbn in *. rewrite H1. cbn. unfold child_page. by rewrite E1.
Qed.

Definition size_ok (sz : Z) : Prop := sz = 1 \/ sz = 2 \/ sz = 4 \/ sz = 8.

Lemma size_aligned sz base i : base mod sz = 0 -> (base + sz * i) mod sz = 0.
Proof. intros Hb. by rewrite Z.mul_comm, Z_mod_plus_full. Qed.

(** Two cells are the same or do not overlap. *)
Lemma cells_apart sz x y :
  size_ok sz -> x mod sz = 0 -> y mod sz = 0 -> x <> y -> x / 4096 = y / 4096 ->
  x mod 4096 / 8 <> y mod 4096 / 8 \/
  8 * (x mod 8) + 8 * sz <= 8 * (y mod 8) \/ 8 * (y mod 8) + 8 * sz <= 8 * (x mod 8).
Proof.
  intros Hsz Hx Hy Hne Hp. destruct (decide (x mod 4096 / 8 = y mod 4096 / 8)) as [E|]; [right|by left].
  assert (forall z, z = 4096 * (z / 4096) + 8 * (z mod 4096 / 8) + z mod 8) as Hz.
  { intros z. pose proof (Z.div_mod z 4096 ltac:(lia)). pose proof (Z.div_mod (z mod 4096) 8 ltac:(lia)).
    assert (z mod 4096 mod 8 = z mod 8) by (apply Z.mod_mod_divide; by exists 512). lia. }
  pose proof (Hz x). pose proof (Hz y).
  assert (forall z, z mod sz = 0 -> exists q, z mod 8 = q * sz) as Hq.
  { intros z Hm. apply Z.mod_divide; [destruct Hsz as [->|[->|[->| ->]]]; lia|].
    rewrite Z.mod_mod_divide; [done|].
    destruct Hsz as [->|[->|[->| ->]]]; [by exists 8|by exists 4|by exists 2|by exists 1]. }
  destruct (Hq x Hx) as [qx Ex], (Hq y Hy) as [qy Ey].
  destruct Hsz as [->|[->|[->| ->]]]; lia.
Qed.

Section area.
Context {A : Type} `{FrameAllocator A} (sz : Z) (Hsz : size_ok sz).
Implicit Types s : Machine A.

Lemma rw_page_fun s va p q : rw_page s va p -> rw_page s va q -> p = q.
Proof. intros (e & _ & _ & E) (f & _ & _ & F). congruence. Qed.

Lemma cell_rd s va p :
  rw_page s va p -> cell s sz va = get_field (8 * (va mod 8)) (8 * sz) (rd (phys s) p (va mod 4096 / 8)).
Proof. intros (e & _ & _ & E). unfold cell. by rewrite E. Qed.

Lemma aligned_cell base i : base mod sz = 0 -> aligned sz (base + sz * i) = true.
Proof. intros. unfold aligned. apply bool_decide_eq_true_2. by apply size_aligned. Qed.

Lemma load_cell s base n i :
  area s sz base n -> 0 <= i < n -> load_n sz (base + sz * i) s = Done (cell s sz (base + sz * i), s).
Proof.
  intros Ha Hi. destruct (ar_map _ _ _ _ Ha i Hi) as (p & Hp & _).
  unfold load_n. rewrite aligned_cell by apply Ha. rewrite (cell_rd _ _ p) by done.
  destruct Hp as (e & He & _ & E). unfold bind, load, ret. fold (root_of s). by rewrite E, He.
Qed.

(** What a write to user data leaves unchanged. *)
Record data_only s s' : Prop := mk_data_only {
  do_satp : satp s' = satp s;
  do_pmm : pmm s' = pmm s;
  do_walk : forall va, hw_walk (phys s') (root_of s) va = hw_walk (phys s) (root_of s) va;
  do_node : forall nd, node_page (phys s') (root_of s) nd = node_page (phys s) (root_of s) nd
}.

Lemma data_only_root s s' : data_only s s' -> root_of s' = root_of s.
Proof. intros [E _ _ _]. unfold root_of. by rewrite E. Qed.

Lemma data_only_trans s1 s2 s3 : data_only s1 s2 -> data_only s2 s3 -> data_only s1 s3.
Proof.
  intros H12 H23. pose proof (data_only_root _ _ H12) as E.
  destruct H12 as [E1 P1 W1 N1], H23 as [E2 P2 W2 N2]. rewrite E in *.
  constructor; intros; by rewrite ?E2, ?P2, ?W2, ?N2, ?E1, ?P1, ?W1, ?N1.
Qed.

Lemma rw_page_data s s' va p : data_only s s' -> rw_page s' va p <-> rw_page s va p.
Proof. intros Hd. unfold rw_page. by rewrite (data_only_root _ _ Hd), (do_walk _ _ Hd). Qed.

Lemma not_table_data s s' p : data_only s s' -> not_table s' p <-> not_table s p.
Proof.
  intros Hd. unfold not_table. rewrite (data_only_root _ _ Hd).
  split; intros Hn nd; specialize (Hn nd); by rewrite (do_node _ _ Hd) in *.
Qed.

Lemma area_data s s' sz' base n : data_only s s' -> area s sz' base n -> area s' sz' base n.
Proof.
  intros Hd [Hb Hm Hi]. constructor; [done|..].
  - intros i (p & Hp & Ht)%Hm. exists p. by rewrite (rw_page_data s), (not_table_data s).
  - intros i j p Hli Hlj Hp Hq. apply (Hi i j p); try done; by apply (rw_page_data s s').
Qed.

Lemma nth_z_cells s base n i :
  0 <= i < n -> nth_z (cells s sz base n) i = Some (cell s sz (base + sz * i)).
Proof.
  intros Hi. unfold cells, nth_z. rewrite decide_True by lia.
  rewrite list_lookup_fmap, lookup_seqZ_lt by lia. cbn.
  by rewrite Z2Nat.id by lia.
Qed.

Lemma zlen_cells s base n : 0 <= n -> zlen (cells s sz base n) = n.
Proof. intros. unfold cells, zlen. rewrite length_fmap, length_seqZ. lia. Qed.

(** Two lists with the same elements at every index. *)
Lemma cells_ext s base n (l : list Z) :
  0 <= n -> zlen l = n -> (forall i, 0 <= i < n -> nth_z l i = Some (cell s sz (base + sz * i))) ->
  cells s sz base n = l.
Proof.
  intros Hn Hl Hi. apply list_eq. intros i. unfold zlen in Hl.
  destruct (decide (Z.of_nat i < n)).
  - specialize (Hi (Z.of_nat i) ltac:(lia)). rewrite <-(nth_z_cells s base n) in Hi by lia. unfold nth_z in Hi.
    rewrite !decide_True, !Nat2Z.id in Hi by lia. done.
  - rewrite !lookup_ge_None_2; [done|lia|].
    unfold cells. rewrite length_fmap, length_seqZ. lia.
Qed.

(** A store is an update of the list of cells. *)
Lemma store_cell s base n i v :
  area s sz base n -> 0 <= i < n ->
  exists s', store_n sz (base + sz * i) v s = Done (tt, s') /\ data_only s s' /\
    cells s' sz base n = set_z (cells s sz base n) i (v mod 2 ^ (8 * sz)).
Proof using Hsz.
  intros Ha Hi. destruct (ar_map _ _ _ _ Ha i Hi) as (p & Hp & Ht).
  set (va := base + sz * i). set (k := va mod 4096 / 8).
  set (w := set_field (8 * (va mod 8)) (8 * sz) (rd (phys s) p k) v).
  assert (data_only s (upd s p k w)) as Hd.
  { constructor; [done..| |]; intros; cbn; [by apply hw_walk_wr_data|by apply node_page_wr_data]. }
  assert (0 <= 8 * sz) by (destruct Hsz as [->|[->|[->| ->]]]; lia).
  pose proof (Z.mod_pos_bound va 8 ltac:(lia)) as Hb8.
  exists (upd s p k w). split; [|split; [done|]].
  - unfold store_n, va. rewrite aligned_cell by apply Ha. destruct Hp as (e & He1 & He2 & E).
    unfold bind, load, store. fold va in E |- *. fold (root_of s). rewrite E, He1. cbv beta iota. fold (root_of s).
    by rewrite E, He2.
  - apply cells_ext; [lia|by rewrite zlen_set_z, zlen_cells by lia|]. intros j Hj.
    destruct (ar_map _ _ _ _ Ha j Hj) as (q & Hq & _).
    rewrite (cell_rd (upd s p k w) _ q) by by apply (rw_page_data s).
    destruct (decide (j = i)) as [->|Hne].
    + rewrite nth_z_set_eq by (rewrite zlen_cells; lia). rewrite (rw_page_fun _ _ _ _ Hq Hp).
      fold va k. cbn. rewrite rd_wr_eq. f_equal. symmetry. apply get_set_field; lia.
    + rewrite nth_z_set_ne, nth_z_cells, (cell_rd s _ q) by done. f_equal.
      set (vb := base + sz * j). cbn. destruct (decide ((p, k) = (q, vb mod 4096 / 8))) as [E|E].
      2:{ by rewrite rd_wr_ne. }
      injection E as <- Ek. rewrite <-Ek, rd_wr_eq. symmetry. unfold w.
      assert (va <> vb) by (unfold va, vb; destruct Hsz as [->|[->|[->| ->]]]; lia).
      destruct (cells_apart sz va vb) as [|Hap]; try done.
      1,2: by apply size_aligned, Ha.
      { by apply (ar_inj _ _ _ _ Ha i j p). }
      pose proof (Z.mod_pos_bound vb 8 ltac:(lia)).
      apply get_set_field_ne; lia.
Qed.

Lemma load_nth s base n i v :
  area s sz base n -> nth_z (cells s sz base n) i = Some v -> load_n sz (base + sz * i) s = Done (v, s).
Proof.
  intros Ha Hv. assert (0 <= i < n) as Hi.
  { pose proof (nth_z_Some _ _ _ Hv) as [? Hl]. unfold cells, zlen in Hl.
    rewrite length_fmap, length_seqZ in Hl. lia. }
  rewrite nth_z_cells in Hv by done. injection Hv as <-. by apply (load_cell s base n).
Qed.
End area.

(** ** Checking an area by evaluation *)

(** Every table page but the root is named by a word of the memory. *)
Definition no_table_word (m : gmap (Z * Z) Z) (p : Z) : Prop :=
  map_Forall (fun _ v => hw_kind v <> HwTable p) m.

#[export] Instance HwKind_eq_dec : EqDecision HwKind.
Proof. solve_decision. Defined.

#[export] Instance no_table_word_dec m p : Decision (no_table_word m p).
Proof. unfold no_table_word. apply _. Defined.

Lemma no_table_word_child m p q i : no_table_word m p -> child_page m q i <> Some p.
Proof.
  intros Hm. unfold child_page, rd. destruct (m !! (q, i)) as [v|] eqn:E; [|done]. cbn.
  specialize (Hm _ _ E). cbn in Hm. destruct (hw_kind v); [done..|]. intros [= ->]. by apply Hm.
Qed.

Lemma no_table_word_node m root p :
  root <> p -> no_table_word m p -> forall n, node_page m root n <> Some p.
Proof.
  intros Hr Hm [|i|i j]; cbn; [congruence|by apply no_table_word_child|].
  destruct (child_page m root i); cbn; [by apply no_table_word_child|done].
Qed.

(** All cells lie in one virtual page, which is page [p]. *)
Definition one_page (m : gmap (Z * Z) Z) (root sz base n p : Z) : bool :=
  forallb (fun i => match hw_walk m root (base + sz * i) with
                    | Some (q, e) => bool_decide (q = p) && Z.testbit e 1 && Z.testbit e 2 &&
                                     bool_decide ((base + sz * i) / 4096 = base / 4096)
                    | None => false
                    end) (seqZ 0 n).

Lemma one_page_area {A} (s : Machine A) sz base n p :
  base mod sz = 0 -> one_page (phys s) (root_of s) sz base n p = true ->
  root_of s <> p -> no_table_word (phys s) p -> area s sz base n.
Proof.
  intros Hb Ho Hr Hw. unfold one_page in Ho. rewrite forallb_forall in Ho.
  assert (forall i, 0 <= i < n -> rw_page s (base + sz * i) p /\ (base + sz * i) / 4096 = base / 4096) as Hi.
  { intros i Hi. specialize (Ho i). rewrite <-list_elem_of_In, elem_of_seqZ in Ho. specialize (Ho ltac:(lia)).
    destruct (hw_walk (phys s) (root_of s) (base + sz * i)) as [[q e]|] eqn:E; [|done].
    rewrite !andb_true_iff, !bool_decide_eq_true in Ho. destruct Ho as [[[-> He1] He2] Hp].
    split; [by exists e|done]. }
  constructor; [done| |].
  - intros i [Hp _]%Hi. exists p. split; [done|]. intros nd. by apply no_table_word_node.
  - intros i j q [_ Ei]%Hi [_ Ej]%Hi _ _. congruence.
Qed.
