(* ===== verification/AddrSpace.v ===== *)
(** * New address spaces

    [Sv39::new] (src/kernel/src/arch/riscv/vms/sv39.rs) builds the tables of a
    new address space in three fresh pages, through the HIGHMEM_A window of the
    current one.  The new space translates the kernel's global half as the
    current one does, has its own window on its root table, and maps nothing
    else. *)

From S2P Require Import Prelude Page Ppn Allocator Reserved Sv39Entry Sv39 Sv39Walk Sv39Spec.
From S2P Require Import RangeSpec UserMem.

Section writes.
Context (m : gmap (Z * Z) Z) (root p : Z) (Hp : forall n, node_page m root n <> Some p).

(** Writing to a page that is no table keeps the tables well formed. *)
Lemma wf_tables_wr_data i v : wf_tables m root -> wf_tables (wr m p i v) root.
Proof using Hp.
  intros [Hinj Hppn Hleg Hg Hm Hd Hr].
  assert (forall n q, node_page m root n = Some q -> forall j, rd (wr m p i v) q j = rd m q j) as Hrd.
  { intros n q Hq j. apply rd_wr_ne. intros [= <- _]. by apply (Hp n). }
  pose proof (node_page_wr_data m root p i v Hp) as Hn. constructor.
  - intros n1 n2 q. rewrite !Hn. apply Hinj.
  - intros n q. rewrite Hn. apply Hppn.
  - intros n q j. rewrite Hn. intros Hq. rewrite (Hrd n q Hq). by apply (Hleg n).
  - intros j q. rewrite (Hrd NRoot root eq_refl). apply Hg.
  - intros j q k q'. rewrite Hn. intros Hq. rewrite (Hrd _ _ Hq). by apply (Hm j).
  - intros j j' q k q'. rewrite Hn. intros Hq. rewrite (Hrd _ _ Hq). by apply (Hd j j').
  - destruct Hr as (e & H1 & H2 & He). exists e. split; [done|]. split; [done|].
    intros j Hj. rewrite hw_walk_wr_data by done. by apply He.
Qed.

Lemma free_ok_wr_data i v l : p ∉ l -> free_ok m root l -> free_ok (wr m p i v) root l.
Proof using Hp.
  intros Hl [Hnd Hf]. split; [done|]. rewrite Forall_forall in Hf |- *. intros f Hfl.
  destruct (Hf f Hfl) as (Hok & Hn & Hz). split; [done|]. split.
  - intros n. rewrite node_page_wr_data by done. apply Hn.
  - intros j. rewrite rd_wr_ne; [apply Hz|]. intros [= <- _]. done.
Qed.
End writes.

Lemma GLOBAL_index : GLOBAL_KERNEL_TABLE_START_INDEX = 366.
Proof. by vm_compute. Qed.

Lemma ROOT_indices : ppn_2 ROOT = 363 /\ ppn_1 ROOT = 511 /\ ppn_0 ROOT = 511.
Proof. by vm_compute. Qed.

Lemma same_page_ROOT va : same_page ROOT va <-> ppn_2 va = 363 /\ ppn_1 va = 511 /\ ppn_0 va = 511.
Proof. unfold same_page. by destruct ROOT_indices as (-> & -> & ->). Qed.

#[local] Opaque GLOBAL_KERNEL_TABLE_START_INDEX.

(** ** The shape of a new space

    The memory [m'] holds, in pages [f2], [f1] and [f0], the tables of a space
    that shares the global half of the one at [root]. *)

Record new_shape (m m' : gmap (Z * Z) Z) (root f2 f1 f0 e : Z) : Prop := mk_new_shape {
  ns_2 : forall j, rd m' f2 j =
    if decide (j = 363) then pte f1 1
    else if decide (GLOBAL_KERNEL_TABLE_START_INDEX <= j < 512) then rd m root j else 0;
  ns_1 : forall j, rd m' f1 j = if decide (j = 511) then pte f0 1 else 0;
  ns_0 : forall j, rd m' f0 j = if decide (j = 511) then e else 0;
  ns_rest : forall n q j, node_page m root n = Some q -> (n, j) <> (NRoot, 365) -> rd m' q j = rd m q j
}.

Definition global_node (n : node) : Prop :=
  match n with NRoot => False | N1 i | N0 i _ => GLOBAL_KERNEL_TABLE_START_INDEX <= i < 512 end.

Section shape.
Context (m m' : gmap (Z * Z) Z) (root f2 f1 f0 e : Z).
Context (Hwf : wf_tables m root) (Hns : new_shape m m' root f2 f1 f0 e).
Context (Hok : Forall (fun f => ppn_ok f /\ forall n, node_page m root n <> Some f) [f2; f1; f0]).
Context (He : hw_kind e = HwLeaf f2).

Lemma shape_pages : ppn_ok f2 /\ ppn_ok f1 /\ ppn_ok f0.
Proof using Hok. repeat (apply Forall_cons in Hok as [[? _] Hok]). done. Qed.

Lemma shape_kind_2 j :
  hw_kind (rd m' f2 j) =
    if decide (j = 363) then HwTable f1
    else if decide (GLOBAL_KERNEL_TABLE_START_INDEX <= j < 512) then hw_kind (rd m root j) else HwFault.
Proof using Hns Hok.
  rewrite (ns_2 _ _ _ _ _ _ _ Hns). repeat case_decide; [|done..]. apply hw_kind_table, shape_pages.
Qed.

Lemma shape_kind_1 j : hw_kind (rd m' f1 j) = if decide (j = 511) then HwTable f0 else HwFault.
Proof using Hns Hok.
  rewrite (ns_1 _ _ _ _ _ _ _ Hns). case_decide; [|done]. apply hw_kind_table, shape_pages.
Qed.

Lemma shape_kind_0 j : hw_kind (rd m' f0 j) = if decide (j = 511) then HwLeaf f2 else HwFault.
Proof using Hns He. rewrite (ns_0 _ _ _ _ _ _ _ Hns). by case_decide. Qed.

(** The tables of the new space: its own three, and the shared global ones. *)
Lemma shape_node n q :
  node_page m' f2 n = Some q ->
  n = NRoot /\ q = f2 \/ n = N1 363 /\ q = f1 \/ n = N0 363 511 /\ q = f0 \/
  global_node n /\ node_page m root n = Some q.
Proof using Hns Hok.
  destruct n as [|a|a b]; cbn [node_page]; [intros [= <-]; auto|..].
  - unfold child_page. rewrite shape_kind_2. destruct (decide (a = 363)) as [->|]; [naive_solver|].
    destruct (decide _) as [Ha|]; [|done]. intros E. right. right. right. split; [exact Ha|exact E].
  - unfold child_page at 2. rewrite shape_kind_2. destruct (decide (a = 363)) as [->|].
    { cbn. unfold child_page. rewrite shape_kind_1. case_decide; naive_solver. }
    destruct (decide _) as [Ha|]; [|done]. destruct (hw_kind (rd m root a)) as [| |q1] eqn:E1; [done..|].
    cbn. intros E. right. right. right. split; [exact Ha|].
    assert (child_page m root a = Some q1) as Ec by (unfold child_page; by rewrite E1).
    rewrite Ec. cbn. unfold child_page in E |- *. by rewrite (ns_rest _ _ _ _ _ _ _ Hns (N1 a)) in E.
Qed.

Lemma shape_rd n q j : global_node n -> node_page m root n = Some q -> rd m' q j = rd m q j.
Proof using Hns. intros Hg Hq. apply (ns_rest _ _ _ _ _ _ _ Hns n); [done|]. by intros [= -> _]. Qed.

(** ** Its translations *)

Lemma shape_walk_global va :
  GLOBAL_KERNEL_TABLE_START_INDEX <= ppn_2 va < 512 -> hw_walk m' f2 va = hw_walk m root va.
Proof using Hns Hok.
  intros Hva. assert (ppn_2 va <> 363) by (rewrite GLOBAL_index in Hva; lia).
  unfold hw_walk. rewrite (ns_2 _ _ _ _ _ _ _ Hns), decide_False, decide_True by done.
  destruct (hw_kind (rd m root (ppn_2 va))) as [| |q1] eqn:E2; [done..|].
  assert (node_page m root (N1 (ppn_2 va)) = Some q1) as H1 by (cbn; unfold child_page; by rewrite E2).
  rewrite (shape_rd (N1 (ppn_2 va))) by done.
  destruct (hw_kind (rd m q1 (ppn_1 va))) as [| |q0] eqn:E1; [done..|].
  assert (node_page m root (N0 (ppn_2 va) (ppn_1 va)) = Some q0) as H0
    by (cbn in *; unfold child_page in *; rewrite E2; cbn; by rewrite E1).
  by rewrite (shape_rd (N0 (ppn_2 va) (ppn_1 va))).
Qed.

Lemma shape_walk_local va :
  ~ GLOBAL_KERNEL_TABLE_START_INDEX <= ppn_2 va < 512 ->
  hw_walk m' f2 va =
    if decide (same_page ROOT va) then Some (f2, e) else None.
Proof using Hns Hok He.
  intros Hva. pose proof (same_page_ROOT va) as Hr. unfold hw_walk. rewrite shape_kind_2.
  destruct (decide (ppn_2 va = 363)) as [E2|].
  2:{ rewrite decide_False by done. rewrite decide_False by tauto. done. }
  rewrite shape_kind_1. destruct (decide (ppn_1 va = 511)) as [E1|]; [|by rewrite decide_False by tauto].
  rewrite shape_kind_0. destruct (decide (ppn_0 va = 511)) as [E0|]; [|by rewrite decide_False by tauto].
  rewrite (ns_0 _ _ _ _ _ _ _ Hns), (decide_True (P := same_page ROOT va)) by tauto. by rewrite decide_True.
Qed.

(** ** The new space is well formed *)

Context (Hnd : NoDup [f2; f1; f0]).

Lemma shape_inj : node_inj m' f2.
Proof using Hwf Hns Hok Hnd.
  assert (f2 <> f1 /\ f2 <> f0 /\ f1 <> f0) as (H21 & H20 & H10)
    by (rewrite !NoDup_cons, !not_elem_of_cons in Hnd; tauto).
  assert (forall n, node_page m root n <> Some f2 /\ node_page m root n <> Some f1 /\
    node_page m root n <> Some f0) as Hnew.
  { intros n. repeat (apply Forall_cons in Hok as [[_ ?] Hok]). auto. }
  intros n n' q [[-> ->]|[[-> ->]|[[-> ->]|[_ E]]]]%shape_node
    [[-> E']|[[-> E']|[[-> E']|[_ E']]]]%shape_node; try done; try congruence;
    try (by apply (wt_inj _ _ Hwf n n' q));
    first [destruct (Hnew n') as (?&?&?); congruence|destruct (Hnew n) as (?&?&?); congruence].
Qed.

Context (Hrw : Z.testbit e 1 = true /\ Z.testbit e 2 = true).

Lemma shape_wf : wf_tables m' f2.
Proof using Hwf Hns Hok He Hnd Hrw.
  constructor; [apply shape_inj|..].
  - intros n q [[_ ->]|[[_ ->]|[[_ ->]|[_ E]]]]%shape_node; [apply shape_pages..|].
    by apply (wt_ppn _ _ Hwf n).
  - intros n q j [[_ ->]|[[_ ->]|[[_ ->]|[Hg E]]]]%shape_node.
    + rewrite (ns_2 _ _ _ _ _ _ _ Hns). destruct (decide (j = 363)).
      { rewrite hw_kind_table by apply shape_pages. done. }
      case_decide; [by apply (wt_legal _ _ Hwf NRoot)|done].
    + rewrite shape_kind_1, (ns_1 _ _ _ _ _ _ _ Hns). by case_decide.
    + rewrite shape_kind_0, (ns_0 _ _ _ _ _ _ _ Hns). by case_decide.
    + rewrite (shape_rd n) by done. by apply (wt_legal _ _ Hwf n).
  - intros j q. rewrite shape_kind_2. destruct (decide (j = 363)); [done|].
    case_decide; [apply (wt_giga _ _ Hwf)|done].
  - intros j q k q' [[E _]|[[_ ->]|[[E _]|[Hg E]]]]%shape_node; [done| |done|].
    + rewrite shape_kind_1. by case_decide.
    + rewrite (shape_rd (N1 j)) by done. by apply (wt_mega _ _ Hwf j).
  - intros i j q k q' [[E _]|[[E _]|[[_ ->]|[Hg E]]]]%shape_node; [done..| |].
    + rewrite shape_kind_0. by case_decide.
    + rewrite (shape_rd (N0 i j)) by done. by apply (wt_deep _ _ Hwf i j).
  - exists e. split; [apply Hrw|]. split; [apply Hrw|]. intros i Hi.
    destruct (entry_at_root i Hi) as (E2 & E1 & E0 & _). rewrite shape_walk_local.
    + apply decide_True, same_page_ROOT. done.
    + rewrite E2, GLOBAL_index. lia.
Qed.
End shape.

Section new.
Context {A : Type} `{FrameAllocator A}.
Implicit Types s : Machine A.

Lemma vm_inv_upd_data s p i v l :
  vm_inv s l -> (forall n, node_page (phys s) (root_of s) n <> Some p) -> p ∉ l -> vm_inv (upd s p i v) l.
Proof.
  intros (Hw & Hf & Hfr) Hp Hl. split; [by apply wf_tables_wr_data|].
  split; [by apply free_ok_wr_data|done].
Qed.

(** The window with the page it shows. *)
Lemma map_highmem_a_eq s p l :
  vm_inv s l -> ppn_ok p ->
  let s' := upd s (root_of s) 365 (window_entry p) in
  map_highmem_a (Some p) s = Done (tt, s') /\ vm_inv s' l /\
  forall i, 0 <= i < 512 -> reaches s' (entry_at (window_at HIGHMEM_A_start p) i) p i.
Proof.
  intros Hs Hp s'. unfold map_highmem_a.
  rewrite window_entry_a, window_entry_ok, (window_slot 365) by (done || apply Hp || apply highmem_a_window).
  destruct (map_window 365 HIGHMEM_A_start s p l highmem_a_window (or_intror eq_refl) Hs (proj1 Hp))
    as (E & Hs' & _ & Hr). done.
Qed.

(** ** Building tables in pages the current space does not use

    [g] is the content of the pages in [news]. *)
Record build (s0 s : Machine A) (l : list PPN) (news : list Z) (g : Z -> Z -> Z) : Prop := mk_build {
  b_satp : satp s = satp s0;
  b_inv : vm_inv s l;
  b_free : forall q, q ∈ news -> (q ∉ l) /\ ppn_ok q;
  b_data : forall q, q ∈ news -> forall n, node_page (phys s) (root_of s) n <> Some q;
  b_new : forall q j, q ∈ news -> rd (phys s) q j = g q j;
  b_rest : forall q j, q ∉ news -> (q, j) <> (root_of s, 365) -> rd (phys s) q j = rd (phys s0) q j
}.

Lemma build_window s0 s l news g f :
  build s0 s l news g -> f ∈ news ->
  exists s', map_highmem_a (Some f) s = Done (tt, s') /\ build s0 s' l news g /\
    forall i, 0 <= i < 512 -> reaches s' (entry_at (window_at HIGHMEM_A_start f) i) f i.
Proof.
  intros [E Hs Hfr Hd Hn Hr] Hf. destruct (Hfr f Hf) as [_ Hok].
  destruct (map_highmem_a_eq s f l Hs Hok) as (Em & Hs' & Hreach).
  eexists. split; [exact Em|]. split; [|exact Hreach]. constructor; [done|done|done|..].
  - intros q Hq n Hn'. change (root_of (upd s (root_of s) 365 (window_entry f))) with (root_of s) in Hn'.
    cbn in Hn'. apply (node_page_wr_leaf _ _ (wt_inj _ _ (proj1 Hs)) NRoot) in Hn'; [by apply (Hd q Hq n)|done|].
    apply (child_page_leaf _ NRoot). apply window_entry_leaf, Hok.
  - intros q j Hq. cbn. rewrite rd_wr_ne; [by apply Hn|]. intros [= <- _]. by apply (Hd _ Hq NRoot).
  - intros q j Hq Hne. change (root_of (upd s (root_of s) 365 (window_entry f))) with (root_of s) in Hne.
    cbn. rewrite rd_wr_ne by congruence. by apply Hr.
Qed.

Lemma build_store s0 s l news g ptr q i v :
  build s0 s l news g -> q ∈ news -> reaches s ptr q i ->
  exists s', store ptr v s = Done (tt, s') /\
    build s0 s' l news (fun q' j => if decide ((q', j) = (q, i)) then v else g q' j) /\
    forall ptr' q' i', reaches s ptr' q' i' -> reaches s' ptr' q' i'.
Proof.
  intros [E Hs Hfr Hd Hn Hr] Hq Hreach. exists (upd s q i v). split; [by apply store_at|].
  pose proof (Hd q Hq) as Hdata. split.
  - constructor; [done|by apply vm_inv_upd_data; [..|apply Hfr]|done|..].
    + intros q' Hq' n. change (root_of (upd s q i v)) with (root_of s). cbn.
      rewrite node_page_wr_data by done. by apply Hd.
    + intros q' j Hq'. cbn. case_decide as E'; [injection E' as -> ->; by rewrite rd_wr_eq|].
      rewrite rd_wr_ne by congruence. by apply Hn.
    + intros q' j Hq' Hne. cbn. rewrite rd_wr_ne by (intros [= <- _]; done). by apply Hr.
  - intros ptr' q' i' (e & H1 & H2 & Ew & Ei). exists e.
    change (root_of (upd s q i v)) with (root_of s). cbn. by rewrite hw_walk_wr_data.
Qed.

Lemma build_ext s0 s l news g g' :
  (forall q j, q ∈ news -> g q j = g' q j) -> build s0 s l news g -> build s0 s l news g'.
Proof. intros Hg [E Hs Hfr Hd Hn Hr]. constructor; try done. intros q j Hq. rewrite <-Hg by done. by apply Hn. Qed.

Lemma build_root s0 s l news g : build s0 s l news g -> root_of s = root_of s0.
Proof. intros [E _ _ _ _ _]. unfold root_of. by rewrite E. Qed.

(** The copy loop copies the entries it passes. *)
Lemma copy_entries_spec s0 l news f n i s g :
  build s0 s l news g -> f ∈ news -> 365 < i -> i + Z.of_nat n <= 512 ->
  (forall k, 0 <= k < 512 -> reaches s (entry_at (window_at HIGHMEM_A_start f) k) f k) ->
  exists s', copy_entries n i ROOT (window_at HIGHMEM_A_start f) s = Done (tt, s') /\
    build s0 s' l news (fun q j =>
      if decide (q = f) then if decide (i <= j < i + Z.of_nat n) then rd (phys s0) (root_of s0) j else g q j
      else g q j).
Proof.
  intros Hb Hf. revert i s g Hb. induction n as [|n IH]; intros i s g Hb Hi Hn Hw.
  { exists s. split; [done|]. eapply build_ext; [|exact Hb]. intros q j _. cbn beta.
    destruct (decide (q = f)); [|done]. rewrite decide_False by lia. done. }
  pose proof (build_root _ _ _ _ _ Hb) as Er.
  assert (rd (phys s) (root_of s) i = rd (phys s0) (root_of s0) i) as Erd.
  { rewrite Er. apply (b_rest _ _ _ _ _ Hb); [|rewrite Er; intros [=]; lia].
    intros Hin. rewrite <-Er in Hin. by apply (b_data _ _ _ _ _ Hb _ Hin NRoot). }
  destruct (build_store _ _ _ _ _ _ f i (rd (phys s) (root_of s) i) Hb Hf (Hw i ltac:(lia))) as (s1 & E1 & Hb1 & Hk).
  destruct (IH (i + 1) s1 _ Hb1) as (s2 & E2 & Hb2); [lia|lia|auto|].
  exists s2. split.
  - cbn [copy_entries]. unfold bind.
    rewrite (load_at _ _ (root_of s) i) by (apply reaches_root; [apply (b_inv _ _ _ _ _ Hb)|lia]).
    by rewrite E1.
  - eapply build_ext; [|exact Hb2]. intros q j _. cbn beta. rewrite Erd.
    destruct (decide (q = f)) as [->|Hq]; [|by rewrite decide_False by congruence].
    destruct (decide (i + 1 <= j < _)); [by rewrite decide_True by lia|].
    destruct (decide (j = i)) as [->|]; [rewrite !decide_True by (done || lia); done|].
    rewrite !decide_False by (congruence || lia). done.
Qed.

(** One entry of a new page, through the window. *)
Lemma build_put s0 s l news g f i v :
  build s0 s l news g -> f ∈ news -> 0 <= i < 512 ->
  exists s', (map_highmem_a (Some f) ;; flush_highmem_a ;;
              let* tbl := translate_highmem_a f in store (entry_at tbl i) v) s = Done (tt, s') /\
    build s0 s' l news (fun q j => if decide ((q, j) = (f, i)) then v else g q j).
Proof.
  intros Hb Hf Hi. destruct (build_window _ _ _ _ _ f Hb Hf) as (s1 & E1 & Hb1 & Hw).
  destruct (build_store _ _ _ _ _ _ f i v Hb1 Hf (Hw i Hi)) as (s2 & E2 & Hb2 & _).
  exists s2. split; [|done]. unfold bind. rewrite E1. cbn -[translate_highmem_a].
  by rewrite translate_highmem_a_spec, E2.
Qed.

Lemma build_put_leaf s0 s l news g f i map rwx acc :
  build s0 s l news g -> f ∈ news -> 0 <= i < 512 -> g f i = 0 -> fits 32 (map_ppn map) ->
  exists s', (map_highmem_a (Some f) ;; flush_highmem_a ;;
              let* tbl := translate_highmem_a f in leaf_set_at (entry_at tbl i) map rwx acc) s = Done (Ok tt, s') /\
    build s0 s' l news (fun q j => if decide ((q, j) = (f, i)) then pte (map_ppn map) (leaf_flags map rwx acc)
                                   else g q j).
Proof.
  intros Hb Hf Hi Hg Hm. destruct (build_window _ _ _ _ _ f Hb Hf) as (s1 & E1 & Hb1 & Hw).
  destruct (build_store _ _ _ _ _ _ f i (pte (map_ppn map) (leaf_flags map rwx acc)) Hb1 Hf (Hw i Hi))
    as (s2 & E2 & Hb2 & _).
  exists s2. split; [|done]. unfold bind. rewrite E1. cbn -[translate_highmem_a leaf_set_at].
  rewrite translate_highmem_a_spec. unfold leaf_set_at, bind.
  rewrite (load_at _ _ _ _ (Hw i Hi)), (b_new _ _ _ _ _ Hb1), Hg by done.
  by rewrite Leaf_set_invalid, E2 by done.
Qed.

(** Unmapping the window. *)
Lemma build_unmap s0 s l news g :
  build s0 s l news g -> exists s', map_highmem_a None s = Done (tt, s') /\ build s0 s' l news g.
Proof.
  intros [E Hs Hfr Hd Hn Hr]. exists (upd s (root_of s) 365 0). split.
  - unfold map_highmem_a. rewrite (window_slot 365) by apply highmem_a_window.
    apply store_at, reaches_root; [apply Hs|lia].
  - assert (node_page (phys s) (root_of s) NRoot = Some (root_of s)) as Hroot by done.
    assert (not_root_window NRoot 365) by (unfold not_root_window; split_and!; intros [=]; lia).
    destruct Hs as (Hwf & Hfree & Hf).
    constructor; [done|split; [by eapply wf_tables_wr_leaf|split; [by eapply free_ok_wr_leaf|done]]|done|..].
    + intros q Hq n Hn'. change (root_of (upd s (root_of s) 365 0)) with (root_of s) in Hn'. cbn in Hn'.
      apply (node_page_wr_leaf _ _ (wt_inj _ _ Hwf) NRoot) in Hn'; [by apply (Hd q Hq n)|done|].
      by apply (child_page_leaf _ NRoot).
    + intros q j Hq. cbn. rewrite rd_wr_ne; [by apply Hn|]. intros [= <- _]. by apply (Hd _ Hq NRoot).
    + intros q j Hq Hne. change (root_of (upd s (root_of s) 365 0)) with (root_of s) in Hne.
      cbn. rewrite rd_wr_ne by congruence. by apply Hr.
Qed.

Lemma bind_tail {St X Y V T U} (a : M St X) (b : M St Y) (c : M St V) (d : V -> M St T) (k : T -> M St U)
    (st st' : St) r :
  (a ;; b ;; let* t := c in d t) st = Done (r, st') ->
  (a ;; b ;; let* t := c in let* x := d t in k x) st = k r st'.
Proof.
  unfold bind. destruct (a st) as [[]| |]; [|done..]. destruct (b _) as [[]| |]; [|done..].
  destruct (c _) as [[v st2]| |]; [|done..]. by intros ->.
Qed.

(** The three fresh pages before anything is written. *)
Lemma build_init s0 s l f2 f1 f0 :
  vm_inv s0 (f2 :: f1 :: f0 :: l) -> phys s = phys s0 -> satp s = satp s0 -> frames (pmm s) l ->
  build s0 s l [f2; f1; f0] (fun _ _ => 0).
Proof.
  intros (Hwf & [Hnd Hall] & _) Ep Es Hf. unfold vm_inv. apply (NoDup_app [f2; f1; f0]) in Hnd as (Hnd & Hdis & Hl).
  apply (Forall_app _ [f2; f1; f0]) in Hall as [Hnew Hl']. rewrite Forall_forall in Hnew.
  assert (root_of s = root_of s0) as Er by (unfold root_of; by rewrite Es).
  constructor; rewrite ?Er, ?Ep; try done.
  - unfold vm_inv, free_ok. by rewrite Er, Ep.
  - intros q Hq. split; [by apply Hdis|]. by apply Hnew.
  - intros q Hq n. by apply Hnew.
  - intros q j Hq. by apply Hnew.
Qed.

Lemma build_shape s0 s l f2 f1 f0 g :
  wf_tables (phys s0) (root_of s0) ->
  (forall n q, node_page (phys s0) (root_of s0) n = Some q -> q ∉ [f2; f1; f0]) ->
  build s0 s l [f2; f1; f0] g ->
  forall n q j, node_page (phys s0) (root_of s0) n = Some q -> (n, j) <> (NRoot, 365) ->
    rd (phys s) q j = rd (phys s0) q j.
Proof.
  intros Hwf Hnew Hb n q j Hq Hj. apply (b_rest _ _ _ _ _ Hb); [by eapply Hnew|].
  rewrite (build_root _ _ _ _ _ Hb). intros [= -> ->]. apply Hj. f_equal.
  by apply (wt_inj _ _ Hwf n NRoot (root_of s0)).
Qed.

(** The content of the three pages at the end, as the code writes it. *)
Definition new_content s0 (f2 f1 f0 : Z) (q j : Z) : Z :=
  if decide ((q, j) = (f2, 363)) then pte f1 1
  else if decide ((q, j) = (f1, 511)) then pte f0 1
  else if decide ((q, j) = (f0, 511)) then pte f2 (leaf_flags (Private f2) RWX_RW KernelLocal)
  else if decide (q = f2) then
    if decide (366 <= j < 366 + Z.of_nat 146) then rd (phys s0) (root_of s0) j else 0
  else 0.

Lemma Sv39_new_build s f2 f1 f0 l :
  vm_inv s (f2 :: f1 :: f0 :: l) ->
  exists s', Sv39_new s = Done (Ok (Z.lor f2 (Z.shiftl 1 63)), s') /\
    build s s' l [f2; f1; f0] (new_content s f2 f1 f0).
Proof.
  assert (f2 ∈ [f2; f1; f0] /\ f1 ∈ [f2; f1; f0] /\ f0 ∈ [f2; f1; f0]) as (I2 & I1 & I0) by set_solver.
  intros Hs. assert (f0 <> f2) as Hne
    by (intros ->; destruct Hs as (_ & [[Hn _]%NoDup_cons _] & _); set_solver).
  destruct (machine_allocate s f2 (f1 :: f0 :: l)) as (a2 & E2 & F2); [apply Hs|].
  destruct (machine_allocate (mkMachine (phys s) (satp s) a2) f1 (f0 :: l)) as (a1 & E1 & F1); [done|].
  destruct (machine_allocate (mkMachine (phys s) (satp s) a1) f0 l) as (a0 & E0 & F0); [done|].
  pose proof (build_init s (mkMachine (phys s) (satp s) a0) l f2 f1 f0 Hs eq_refl eq_refl F0) as Hb.
  destruct (build_window _ _ _ _ _ f2 Hb I2) as (s1 & W2 & Hb1 & Hw).
  destruct (copy_entries_spec s l [f2; f1; f0] f2 146 366 s1 _ Hb1 I2) as (s2 & C2 & Hb2); [lia|lia|done|].
  assert (forall f, f ∈ [f2; f1; f0] -> fits 32 f) as Hfit by (intros f Hf; by apply (b_free _ _ _ _ _ Hb)).
  destruct (build_put_leaf _ _ _ _ _ f0 511 (Private f2) RWX_RW KernelLocal Hb2 I0) as (s3 & P0 & Hb3);
    [lia| |by apply Hfit|].
  { cbn beta. by rewrite decide_False. }
  destruct (build_put _ _ _ _ _ f1 511 (pte f0 1) Hb3 I1) as (s4 & P1 & Hb4); [lia|].
  destruct (build_put _ _ _ _ _ f2 363 (pte f1 1) Hb4 I2) as (s5 & P2 & Hb5); [lia|].
  destruct (build_unmap _ _ _ _ _ Hb5) as (s6 & U & Hb6).
  exists s6. split; [|exact Hb6]. unfold Sv39_new.
  rewrite (bind_ok_done _ _ _ _ _ E2), (bind_ok_done _ _ _ _ _ E1), (bind_ok_done _ _ _ _ _ E0). cbv zeta.
  rewrite GLOBAL_index, (bind_done _ _ _ _ _ W2), (bind_done _ _ _ _ _ (translate_highmem_a_spec f2 s1)).
  replace (Z.to_nat (512 - 366)) with 146%nat by done. rewrite (bind_done _ _ _ _ _ C2).
  destruct ROOT_indices as (-> & -> & ->). rewrite !Entry_new_table_pte by (by apply Hfit).
  rewrite (bind_tail _ _ _ _ _ _ _ _ P0), (bind_done _ _ _ _ _ (eq_refl (Done (tt, s3)))).
  rewrite (bind_tail _ _ _ _ _ _ _ _ P1), (bind_tail _ _ _ _ _ _ _ _ P2).
  by rewrite (bind_done _ _ _ _ _ U).
Qed.

(** The facts about the three pages, taken apart. *)
Lemma vm_inv_new s f2 f1 f0 l :
  vm_inv s (f2 :: f1 :: f0 :: l) ->
  wf_tables (phys s) (root_of s) /\ NoDup [f2; f1; f0] /\
  Forall (fun f => ppn_ok f /\ forall n, node_page (phys s) (root_of s) n <> Some f) [f2; f1; f0] /\
  (forall f, f ∈ [f2; f1; f0] -> f ∉ l) /\
  (forall f, f ∈ l -> forall n, node_page (phys s) (root_of s) n <> Some f).
Proof.
  intros (Hwf & [Hnd Hall] & _). apply (NoDup_app [f2; f1; f0]) in Hnd as (Hnd & Hdis & _).
  apply (Forall_app _ [f2; f1; f0]) in Hall as [Hnew Hl]. split; [done|]. split; [done|]. split.
  - eapply Forall_impl; [exact Hnew|]. intros f [? [? _]]. done.
  - split; [done|]. rewrite Forall_forall in Hl. intros f Hf. by apply Hl.
Qed.

Lemma new_content_shape s s' f2 f1 f0 l :
  vm_inv s (f2 :: f1 :: f0 :: l) -> build s s' l [f2; f1; f0] (new_content s f2 f1 f0) ->
  new_shape (phys s) (phys s') (root_of s) f2 f1 f0 (pte f2 (leaf_flags (Private f2) RWX_RW KernelLocal)).
Proof.
  intros (Hwf & [Hnd Hall] & _) Hb.
  assert (f2 <> f1 /\ f2 <> f0 /\ f1 <> f0) as (H21 & H20 & H10)
    by (rewrite !NoDup_cons, !not_elem_of_cons in Hnd; tauto).
  constructor; intros *; [rewrite (b_new _ _ _ _ _ Hb) by set_solver; unfold new_content..|].
  - rewrite GLOBAL_index. destruct (decide (j = 363)) as [->|]; [by rewrite decide_True|].
    rewrite !(decide_False (P := (f2, _) = _)) by congruence. by rewrite decide_True.
  - rewrite (decide_False (P := (f1, _) = (f2, _))) by congruence.
    destruct (decide (j = 511)) as [->|]; [by rewrite decide_True|].
    by rewrite !decide_False by congruence.
  - rewrite !(decide_False (P := (f0, _) = (f2, _))), (decide_False (P := (f0, _) = (f1, _))) by congruence.
    destruct (decide (j = 511)) as [->|]; [by rewrite decide_True|].
    by rewrite !decide_False by congruence.
  - apply (build_shape s s' l f2 f1 f0 (new_content s f2 f1 f0)); [done| |done].
    intros n' q' Hq' Hin. apply (Forall_app _ [f2; f1; f0]) in Hall as [Hall _].
    rewrite Forall_forall in Hall. by apply (Hall q' Hin) in Hq'.
Qed.

(** The old space keeps its translations outside the window. *)
Lemma shape_old m m' root :
  (forall n q j, node_page m root n = Some q -> (n, j) <> (NRoot, 365) -> rd m' q j = rd m q j) ->
  forall va, ppn_2 va <> 365 -> hw_walk m' root va = hw_walk m root va.
Proof.
  intros Hr va Hva. unfold hw_walk. rewrite (Hr NRoot root) by (done || congruence).
  destruct (hw_kind (rd m root (ppn_2 va))) as [| |q1] eqn:E2; [done..|].
  assert (node_page m root (N1 (ppn_2 va)) = Some q1) as H1 by (cbn; unfold child_page; by rewrite E2).
  rewrite (Hr (N1 (ppn_2 va))) by done.
  destruct (hw_kind (rd m q1 (ppn_1 va))) as [| |q0] eqn:E1; [done..|].
  rewrite (Hr (N0 (ppn_2 va) (ppn_1 va))); [done| |done].
  cbn in *. unfold child_page in *. rewrite E2. cbn. by rewrite E1.
Qed.

Lemma new_satp f : fits 32 f -> satp_root (Z.lor f (Z.shiftl 1 63)) = f /\ Z.lor f (Z.shiftl 1 63) / 2 ^ 60 = 8.
Proof.
  intros [H0 Hf]. rewrite Z.shiftl_1_l.
  assert (Z.lor f (2 ^ 63) = f + 2 ^ 63) as ->.
  { rewrite <-Z.add_lor_land. replace (Z.land f (2 ^ 63)) with 0; [lia|].
    symmetry. rewrite Z.land_comm. apply Z.bits_inj'. intros i Hi. rewrite Z.land_spec, Z.bits_0, Z.pow2_bits_eqb by lia.
    destruct (Z.eqb_spec 63 i) as [<-|]; [|done]. cbn [andb].
    apply Z.testbit_false; [lia|]. rewrite Z.div_small by lia. done. }
  unfold satp_root. split.
  - replace (f + 2 ^ 63) with (f + 2 ^ 19 * 2 ^ 44) by lia. rewrite Z.mod_add by lia. apply Z.mod_small. lia.
  - replace (f + 2 ^ 63) with (f + 8 * 2 ^ 60) by lia. rewrite Z.div_add by lia. by rewrite Z.div_small by lia.
Qed.

Lemma new_space_inv s s' f2 f1 f0 l :
  vm_inv s (f2 :: f1 :: f0 :: l) -> build s s' l [f2; f1; f0] (new_content s f2 f1 f0) ->
  vm_inv (mkMachine (phys s') (Z.lor f2 (Z.shiftl 1 63)) (pmm s')) l.
Proof.
  intros Hs Hb. pose proof (new_content_shape _ _ _ _ _ _ Hs Hb) as Hsh.
  destruct (vm_inv_new _ _ _ _ _ Hs) as (Hwf & Hnd & Hok & Hdis & Hfree).
  pose proof (b_inv _ _ _ _ _ Hb) as (_ & [Hndl Hfr] & Hfa).
  assert (fits 32 f2) as Hf2 by (by apply Forall_cons in Hok as [[[] _] _]).
  destruct (new_satp f2 Hf2) as [Esr _].
  unfold vm_inv, root_of. cbn [phys satp pmm]. rewrite Esr. split.
  { eapply shape_wf; eauto; [by apply (hw_kind_leaf_set (Private f2))|].
    by rewrite !pte_testbit by (lia || apply leaf_flags_fits). }
  split; [|done]. split; [done|]. rewrite Forall_forall in Hfr |- *. intros f Hf.
  destruct (Hfr f Hf) as (Hp & _ & Hz). split; [done|]. split; [|done]. intros n Hn.
  destruct (shape_node _ _ _ _ _ _ _ Hsh Hok _ _ Hn) as [[_ ->]|[[_ ->]|[[_ ->]|[_ E]]]];
    [apply (Hdis f2)|apply (Hdis f1)|apply (Hdis f0)|by apply (Hfree f Hf n)]; try done; clear; set_solver.
Qed.

(** C3: [Sv39::new] takes three free pages and builds a new address space in
    them.  The current space still translates every address outside the
    HIGHMEM_A window as before.  The new space, once activated, satisfies the
    invariant every page-table operation relies on, and its translations are
    exactly: those of the current space in the global kernel half, a kernel
    read-write window on its own root table at [ROOT], and nothing else. *)
Theorem sv39_new_space s f2 f1 f0 l :
  vm_inv s (f2 :: f1 :: f0 :: l) ->
  exists self s' t,
    Sv39_new s = Done (Ok self, s') /\ vm_inv s' l /\ satp s' = satp s /\
    (forall va, ppn_2 va <> ppn_2 HIGHMEM_A_start ->
       hw_walk (phys s') (root_of s') va = hw_walk (phys s) (root_of s) va) /\
    activate self s' = Done (tt, t) /\ vm_inv t l /\ satp t / 2 ^ 60 = 8 /\ root_of t = f2 /\
    forall va, hw_walk (phys t) (root_of t) va =
      if decide (GLOBAL_KERNEL_TABLE_START_INDEX <= ppn_2 va) then hw_walk (phys s) (root_of s) va
      else if decide (same_page ROOT va) then Some (f2, pte f2 (leaf_flags (Private f2) RWX_RW KernelLocal))
      else None.
Proof.
  intros Hs. destruct (Sv39_new_build s f2 f1 f0 l Hs) as (s' & E & Hb).
  pose proof (new_content_shape _ _ _ _ _ _ Hs Hb) as Hsh.
  pose proof (new_space_inv _ _ _ _ _ _ Hs Hb) as Hinv.
  destruct (vm_inv_new _ _ _ _ _ Hs) as (Hwf & _ & Hok & _). pose proof (build_root _ _ _ _ _ Hb) as Er.
  assert (fits 32 f2) as Hf2 by (by apply Forall_cons in Hok as [[[] _] _]).
  destruct (new_satp f2 Hf2) as [Esr Em].
  assert (root_of (mkMachine (phys s') (Z.lor f2 (Z.shiftl 1 63)) (pmm s')) = f2) as Ert by exact Esr.
  eexists _, s', _. split; [exact E|]. split; [apply Hb|]. split; [apply Hb|]. split.
  { intros va Hva. rewrite (window_slot 365 HIGHMEM_A_start) in Hva by apply highmem_a_window. rewrite Er.
    apply shape_old; [|done]. apply Hsh. }
  split; [reflexivity|]. split; [done|]. split; [exact Em|]. split; [exact Ert|]. intros va. rewrite Ert. cbn [phys].
  destruct (ppn_n_range va) as [? _]. destruct (decide (_ <= _)).
  - apply (shape_walk_global _ _ _ _ _ _ _ Hsh Hok). lia.
  - eapply shape_walk_local; [done|done|by apply (hw_kind_leaf_set (Private f2))|lia].
Qed.
End new.

Lemma sv39_new_space_witness :
  exists self s', Sv39_new (machine_with [9; 6; 5]) = Done (Ok self, s') /\ satp_root self = 9.
Proof.
  destruct (sv39_new_space (machine_with [9; 6; 5]) 9 6 5 []) as (self & s' & t & E & _ & _ & _ & A & _ & _ & R & _).
  - apply machine_with_inv; [by apply (bool_decide_unpack _)| |cbn; lia].
    repeat (apply Forall_cons_2; [by vm_compute|]). apply Forall_nil_2.
  - exists self, s'. split; [exact E|]. injection A as <-. exact R.
Defined.
