(* ===== verification/Arena.v ===== *)
(** * The arena allocator (src/kernel/src/allocator/arena.rs)

    Slots with a reference counter, addressed by index.  The counters are
    atomics; each operation here is one uninterrupted run of the code, in which
    a compare-exchange succeeds exactly when the value is the expected one.
    Growing the arena allocates a page and maps it through the virtual memory
    system. *)

From S2P Require Import Prelude Page Ppn Allocator Reserved Sv39Entry Sv39 Sv39Walk Sv39Spec.

Definition usize_MAX : Z := 2 ^ 64 - 1.

Inductive SlotValue (T : Type) : Type := VItem (item : T) | VNext (next : Z).
Arguments VItem {T} item.
Arguments VNext {T} next.

Record Slot (T : Type) : Type := mkSlot { ref_counter : Z; slot_value : SlotValue T }.
Arguments mkSlot {T} ref_counter slot_value.
Arguments ref_counter {T} s.
Arguments slot_value {T} s.

(** [slots] is the memory from [slots_ptr] on; a slot that was never written is absent. *)
Record Arena (T : Type) : Type := mkArena {
  slots_ptr : Page;
  slots : gmap Z (Slot T);
  arena_next : Z;
  capacity : Z;
  arena_max : Z
}.
Arguments mkArena {T} slots_ptr slots arena_next capacity arena_max.
Arguments slots_ptr {T} a.
Arguments slots {T} a.
Arguments arena_next {T} a.
Arguments capacity {T} a.
Arguments arena_max {T} a.

Inductive InsertError : Type := NoFreeSlots | NoMemory.
Inductive RemoveError : Type := NoItem | Referenced.

Definition Arena_new {T} (size_of_slot : Z) (address : Page) (bytes : Z) : outcome (Arena T) :=
  if decide (size_of_slot <= PAGE_SIZE)
  then Done (mkArena address ∅ usize_MAX 0 (bytes / size_of_slot))
  else Panicked "assertion failed: crate::arch::Page::SIZE >= mem::size_of::<Slot<T>>()".

Section arena.
Context {A : Type} `{FrameAllocator A} {T : Type}.
Implicit Types (a : Arena T).

Definition set_slot a (i : Z) (s : Slot T) : Arena T :=
  mkArena (slots_ptr a) (<[i := s]> (slots a)) (arena_next a) (capacity a) (arena_max a).

(** One pass of the loop of [insert]: [None] means the loop goes round again. *)
Definition Arena_insert_step (item : T) : M (Machine A * Arena T) (option (result Z InsertError)) :=
  let* '(_, a) := get in
  let index := arena_next a in
  if decide (index <> usize_MAX) then
    let* slot := unwrap "page fault" (slots a !! index) in
    if decide (ref_counter slot = usize_MAX) then
      match slot_value slot with
      | VItem _ => panic "undefined: reading next of an item"
      | VNext n =>
        on_snd (modify (fun a =>
          mkArena (slots_ptr a) (<[index := mkSlot 0 (VItem item)]> (slots a)) n (capacity a) (arena_max a))) ;;
        ret (Some (Ok index))
      end
    else ret None
  else
    let cap := capacity a in
    if decide (cap = usize_MAX) then ret None
    else if decide (cap = arena_max a) then ret (Some (Err NoFreeSlots))
    else
      on_snd (modify (fun a => mkArena (slots_ptr a) (slots a) (arena_next a) usize_MAX (arena_max a))) ;;
      let* r := on_fst mem_allocate in
      match r with
      | Err _ => ret (Some (Err NoMemory))
      | Ok page =>
        let* p := unwrap_ok "called `Result::unwrap()` on an `Err` value" (Page_new (slots_ptr a)) in
        let* r := on_fst (add p (Private page) RWX_RW KernelGlobal) in
        unwrap_ok "Page was already mapped" r ;;
        on_snd (modify (fun a => mkArena (slots_ptr a) (<[0 := mkSlot 0 (VItem item)]> (slots a))
                                         (arena_next a) (wrap 64 (cap + 1)) (arena_max a))) ;;
        ret (Some (Ok 0))
      end.

Fixpoint Arena_insert (fuel : nat) (item : T) : M (Machine A * Arena T) (result Z InsertError) :=
  match fuel with
  | O => fun _ => OutOfFuel
  | S fuel =>
    let* r := Arena_insert_step item in
    match r with
    | Some r => ret r
    | None => Arena_insert fuel item
    end
  end.

(** The tests are in the source's order: any counter above 0 is [Referenced]. *)
Definition Arena_remove (index : Z) : M (Arena T) (result T RemoveError) :=
  let* a := get in
  if decide (index < capacity a) then
    let* slot := unwrap "page fault" (slots a !! index) in
    let val := ref_counter slot in
    if decide (val > 0) then ret (Err Referenced)
    else if decide (val = usize_MAX) then ret (Err NoItem)
    else
      modify (fun a => set_slot a index (mkSlot usize_MAX (slot_value slot))) ;;
      match slot_value slot with
      | VItem item => ret (Ok item)
      | VNext _ => panic "undefined: reading item of a free slot"
      end
  else ret (Err NoItem).

(** A [Guard] is the item and the index whose counter it holds. *)
Definition Arena_get (index : Z) : M (Arena T) (option T) :=
  let* a := get in
  if decide (index < capacity a) then
    let* slot := unwrap "page fault" (slots a !! index) in
    let val := ref_counter slot in
    if decide (val <> usize_MAX) then
      modify (fun a => set_slot a index (mkSlot (wrap 64 (val + 1)) (slot_value slot))) ;;
      match slot_value slot with
      | VItem item => ret (Some item)
      | VNext _ => panic "undefined: reading item of a free slot"
      end
    else ret None
  else ret None.

(** [Drop for Guard]: [fetch_sub] wraps. *)
Definition Guard_drop (index : Z) : M (Arena T) unit :=
  let* a := get in
  let* slot := unwrap "page fault" (slots a !! index) in
  modify (fun a => set_slot a index (mkSlot (wrap 64 (ref_counter slot - 1)) (slot_value slot))).

(** ** Reference counting *)

(** Operations on one slot, with the number of live guards. *)
Inductive guard_step (i : Z) : Arena T * nat -> Arena T * nat -> Prop :=
| gs_get a a' item n : Arena_get i a = Done (Some item, a') -> guard_step i (a, n) (a', S n)
| gs_get_none a a' n : Arena_get i a = Done (None, a') -> guard_step i (a, n) (a', n)
| gs_drop a a' n : Guard_drop i a = Done (tt, a') -> guard_step i (a, S n) (a', n)
| gs_remove a a' item n : Arena_remove i a = Done (Ok item, a') -> guard_step i (a, n) (a', n)
| gs_remove_err a a' e n : Arena_remove i a = Done (Err e, a') -> guard_step i (a, n) (a', n).

(** The counter is the number of guards, or all ones when the slot was removed. *)
Definition guard_inv (i : Z) (item : T) (st : Arena T * nat) : Prop :=
  exists c, slots st.1 !! i = Some (mkSlot c (VItem item)) /\ i < capacity st.1 /\
    ((c = Z.of_nat st.2 /\ c < usize_MAX) \/ (c = usize_MAX /\ st.2 = 0%nat)).

Lemma Arena_get_spec i item a c :
  slots a !! i = Some (mkSlot c (VItem item)) -> i < capacity a -> 0 <= c <= usize_MAX ->
  Arena_get i a =
    if decide (c = usize_MAX) then Done (None, a)
    else Done (Some item, set_slot a i (mkSlot (c + 1) (VItem item))).
Proof.
  intros Hs Hi Hc. unfold Arena_get, bind, get. rewrite decide_True by done.
  rewrite Hs. cbn. unfold usize_MAX in *. repeat case_decide; try lia; cbn; [|done].
  by rewrite wrap_small by (unfold fits; lia).
Qed.

Lemma Arena_remove_spec i item a c :
  slots a !! i = Some (mkSlot c (VItem item)) -> i < capacity a -> 0 <= c <= usize_MAX ->
  Arena_remove i a =
    if decide (c = 0) then Done (Ok item, set_slot a i (mkSlot usize_MAX (VItem item)))
    else Done (Err Referenced, a).
Proof.
  intros Hs Hi Hc. unfold Arena_remove, bind, get. rewrite decide_True by done.
  rewrite Hs. cbn. unfold usize_MAX in *. repeat case_decide; try lia; done.
Qed.

Lemma Guard_drop_spec i item a c :
  slots a !! i = Some (mkSlot c (VItem item)) -> 0 < c <= usize_MAX ->
  Guard_drop i a = Done (tt, set_slot a i (mkSlot (c - 1) (VItem item))).
Proof.
  intros Hs Hc. unfold Guard_drop, bind, get. rewrite Hs. cbn. unfold usize_MAX in *.
  by rewrite wrap_small by (unfold fits; lia).
Qed.

Lemma guard_inv_set i item a c n :
  i < capacity a ->
  (c = Z.of_nat n /\ c < usize_MAX) \/ (c = usize_MAX /\ n = 0%nat) ->
  guard_inv i item (set_slot a i (mkSlot c (VItem item)), n).
Proof. intros. exists c. cbn. by rewrite lookup_insert_eq. Qed.

Lemma guard_step_inv i item st st' :
  Z.of_nat st'.2 < usize_MAX -> guard_inv i item st -> guard_step i st st' -> guard_inv i item st'.
Proof.
  intros Hn (c & Hs & Hi & Hc) Hst. unfold usize_MAX in *.
  assert (0 <= c <= usize_MAX) as Hr by (unfold usize_MAX; lia).
  destruct Hst as [a a' x n E|a a' n E|a a' n E|a a' x n E|a a' e n E]; cbn [fst snd] in *.
  - rewrite (Arena_get_spec _ _ _ _ Hs Hi Hr) in E. case_decide; [done|]. injection E as <- <-.
    apply guard_inv_set; [done|]. unfold usize_MAX in *. lia.
  - rewrite (Arena_get_spec _ _ _ _ Hs Hi Hr) in E. case_decide; [|done]. injection E as <-.
    by exists c.
  - rewrite (Guard_drop_spec _ _ _ _ Hs) in E by lia. injection E as <-.
    apply guard_inv_set; [done|]. unfold usize_MAX in *. lia.
  - rewrite (Arena_remove_spec _ _ _ _ Hs Hi Hr) in E. case_decide; [|done]. injection E as <- <-.
    apply guard_inv_set; [done|]. unfold usize_MAX in *. lia.
  - rewrite (Arena_remove_spec _ _ _ _ Hs Hi Hr) in E. case_decide; [done|]. injection E as <- <-.
    by exists c.
Qed.

Definition bounded_guard_step (i : Z) (st st' : Arena T * nat) : Prop :=
  guard_step i st st' /\ Z.of_nat st'.2 < usize_MAX.

Lemma guard_reachable_inv i item st st' :
  guard_inv i item st -> rtc (bounded_guard_step i) st st' -> guard_inv i item st'.
Proof. induction 2 as [|st1 st2 st3 [Hst Hn] _ IH]; eauto using guard_step_inv. Qed.

(** ** Growing *)

Lemma vm_inv_alloc (s : Machine A) f l :
  vm_inv s (f :: l) ->
  exists m, mem_allocate s = Done (Ok f, m) /\ vm_inv m l /\ phys m = phys s /\ satp m = satp s.
Proof.
  intros (Hwf & [Hnd Hfree] & Hfr). destruct (machine_allocate s f l Hfr) as (a & E & Ha).
  apply NoDup_cons in Hnd as [_ Hnd]. apply Forall_cons in Hfree as [_ Hfree].
  eexists. split; [exact E|]. by split_and!.
Qed.

Lemma Page_new_ok p : page_ok p -> Page_new p = Ok p.
Proof.
  intros (_ & _ & Hp). unfold Page_new. rewrite land_align. by rewrite decide_True.
Qed.

(** With no free slot listed, an insertion maps the arena's first page. *)
Lemma Arena_insert_grow_eq fuel item (s m s' : Machine A) a f0 r :
  page_ok (slots_ptr a) -> arena_next a = usize_MAX ->
  0 <= capacity a < arena_max a -> arena_max a < usize_MAX ->
  mem_allocate s = Done (Ok f0, m) ->
  add (slots_ptr a) (Private f0) RWX_RW KernelGlobal m = Done (r, s') ->
  Arena_insert (S fuel) item (s, a) =
    match r with
    | Ok _ => Done (Ok 0, (s', mkArena (slots_ptr a) (<[0 := mkSlot 0 (VItem item)]> (slots a))
                                       usize_MAX (capacity a + 1) (arena_max a)))
    | Err _ => Panicked "Page was already mapped"
    end.
Proof.
  intros Hp Hn Hc Hmax Em Ea. cbn [Arena_insert]. unfold Arena_insert_step, bind at 1 2, get.
  rewrite Hn, decide_False by congruence. unfold usize_MAX in *.
  rewrite decide_False by lia. rewrite decide_False by lia.
  unfold bind at 1. cbn [on_snd modify fst snd]. unfold bind at 1, on_fst at 1. cbn [fst].
  rewrite Em. cbn [fst snd].
  rewrite (Page_new_ok _ Hp). unfold bind at 1, unwrap_ok at 1, ret at 1.
  unfold bind at 1, on_fst at 1. cbn [fst snd]. rewrite Ea.
  destruct r; [|done]. unfold bind, unwrap_ok, ret, on_snd, modify. cbn. rewrite Hn.
  by rewrite wrap_small by (unfold fits; lia).
Qed.

Lemma Arena_insert_grow fuel item (s : Machine A) a f0 f1 f2 l :
  vm_inv s (f0 :: f1 :: f2 :: l) -> page_ok (slots_ptr a) -> mappable (slots_ptr a) ->
  arena_next a = usize_MAX -> 0 <= capacity a < arena_max a -> arena_max a < usize_MAX ->
  match hw_walk (phys s) (root_of s) (slots_ptr a) with
  | Some _ => Arena_insert (S fuel) item (s, a) = Panicked "Page was already mapped"
  | None => exists s' l', vm_inv s' l' /\ at_most_two f1 f2 l l' /\
      Arena_insert (S fuel) item (s, a) =
        Done (Ok 0, (s', mkArena (slots_ptr a) (<[0 := mkSlot 0 (VItem item)]> (slots a))
                                 usize_MAX (capacity a + 1) (arena_max a))) /\
      is_Some (hw_walk (phys s') (root_of s') (slots_ptr a))
  end.
Proof.
  intros Hs Hp Hm Hn Hc Hmax.
  destruct (vm_inv_alloc s f0 _ Hs) as (m & Em & Hm1 & Eph & Esp).
  assert (ppn_ok f0) as [Hf0 _] by (destruct Hs as (_ & [_ [[? _] _]%Forall_cons] & _); done).
  destruct (add_spec m (slots_ptr a) (Private f0) RWX_RW KernelGlobal f1 f2 l Hm1 Hm Hf0)
    as (r & s' & l' & E & Hs' & Hl' & Esp' & Er & Hw).
  pose proof (Arena_insert_grow_eq fuel item s m s' a f0 r Hp Hn Hc Hmax Em E) as EI.
  assert (root_of m = root_of s) as Erm by (unfold root_of; by rewrite Esp).
  rewrite Erm, Eph in *. destruct (hw_walk (phys s) (root_of s) (slots_ptr a)) as [x|] eqn:Ex; subst r.
  - done.
  - exists s', l'. split; [done|]. split; [done|]. split; [done|].
    unfold root_of at 1. rewrite Esp', Esp. fold (root_of s).
    rewrite Hw by by apply mappable_not_window. rewrite decide_True; [by eexists|]. done.
Qed.
End arena.

(** C24: reference counting protects a slot.  From a slot with an item and no
    guards, after any sequence of [get], guard drops and [remove]s with fewer
    than 2^64-1 live guards: [remove] succeeds exactly when there is no guard and
    the item has not been removed yet, and then returns the item; [get] returns
    the item exactly as long as it has not been removed; and a removed slot
    answers [remove] with [Referenced], never with [NoItem]. *)
Theorem arena_guards_protect {T : Type} (i : Z) (item : T) (a0 a : Arena T) (n : nat) :
  slots a0 !! i = Some (mkSlot 0 (VItem item)) -> i < capacity a0 ->
  rtc (bounded_guard_step i) (a0, 0%nat) (a, n) ->
  let removed := bool_decide ((ref_counter <$> slots a !! i) = Some usize_MAX) in
  (exists a', Arena_remove i a = Done (if removed then Err Referenced
                                       else match n with O => Ok item | _ => Err Referenced end, a')) /\
  (exists a', Arena_get i a = Done (if removed then None else Some item, a')) /\
  (removed = true -> n = 0%nat).
Proof.
  intros Hs Hi Hst removed.
  destruct (guard_reachable_inv i item (a0, 0%nat) (a, n)) as (c & Hc & Hcap & Hn); [|done|].
  { exists 0. split_and!; [done..|left]. by split. }
  cbn [fst snd] in *. subst removed. rewrite Hc.
  change (ref_counter <$> Some (mkSlot c (VItem item))) with (Some c).
  assert (0 <= c <= usize_MAX) as Hr by (unfold usize_MAX in *; lia).
  rewrite (Arena_remove_spec _ _ _ _ Hc Hcap Hr), (Arena_get_spec _ _ _ _ Hc Hcap Hr).
  destruct Hn as [[-> Hlt]|[-> ->]].
  - rewrite !(bool_decide_eq_false_2 (Some _ = _)) by (intros [= E]; lia).
    split_and!; [|rewrite decide_False by lia; eauto|done].
    destruct n; [rewrite decide_True by done; eauto|rewrite decide_False by lia; eauto].
  - rewrite !(bool_decide_eq_true_2 (Some _ = _)) by done.
    split_and!; [rewrite decide_False by done; eauto|rewrite decide_True by done; eauto|done].
Qed.

Lemma arena_guards_protect_witness :
  let a0 := mkArena 4096 {[ 0 := mkSlot 0 (VItem true) ]} usize_MAX 1 256 in
  exists a', Arena_remove 0 a0 = Done (Ok true, a').
Proof.
  intros a0. destruct (arena_guards_protect 0 true a0 a0 0) as (H & _ & _).
  - reflexivity.
  - by vm_compute.
  - apply rtc_refl.
  - exact H.
Defined.

(** An arena holds one item.  On a machine with well-formed tables and six
    free pages, the first insertion into an empty arena maps the arena's first
    page and returns index 0, and the second insertion, which maps the same page
    again, always panics. *)
Theorem arena_second_insert_panics {A : Type} `{FrameAllocator A} {T : Type}
    (s : Machine A) (a : Arena T) (x y : T) (f0 f1 f2 f3 f4 f5 : PPN) (l : list PPN) (fuel : nat) :
  vm_inv s (f0 :: f1 :: f2 :: f3 :: f4 :: f5 :: l) -> page_ok (slots_ptr a) -> mappable (slots_ptr a) ->
  hw_walk (phys s) (root_of s) (slots_ptr a) = None ->
  arena_next a = usize_MAX -> capacity a = 0 -> 1 < arena_max a < usize_MAX ->
  exists s' a', Arena_insert (S fuel) x (s, a) = Done (Ok 0, (s', a')) /\
    Arena_insert (S fuel) y (s', a') = Panicked "Page was already mapped".
Proof.
  intros Hs Hp Hm Hw Hn Hc Hmax.
  pose proof (Arena_insert_grow fuel x s a f0 f1 f2 _ Hs Hp Hm Hn ltac:(lia) ltac:(lia)) as Hi.
  rewrite Hw in Hi. destruct Hi as (s' & l' & Hs' & [_ [k ->]] & E & [z Hz]).
  eexists _, _. split; [exact E|].
  assert (exists g0 g1 g2 l2, k ++ f3 :: f4 :: f5 :: l = g0 :: g1 :: g2 :: l2) as (g0 & g1 & g2 & l2 & El).
  { destruct k as [|k1 [|k2 [|k3 k]]]; cbn; eauto 10. }
  rewrite El in Hs'. set (a' := mkArena _ _ _ _ _) in *.
  pose proof (Arena_insert_grow fuel y s' a' g0 g1 g2 l2 Hs' Hp Hm eq_refl) as Hi.
  cbn [slots_ptr capacity arena_max a'] in Hi. rewrite Hz in Hi. apply Hi; lia.
Qed.

Lemma arena_second_insert_panics_witness :
  let s := machine_with [10; 11; 12; 13; 14; 15] in
  let a := mkArena (T := bool) (rstart TASK_GROUPS) ∅ usize_MAX 0 256 in
  exists s' a', Arena_insert 1 true (s, a) = Done (Ok 0, (s', a')) /\
    Arena_insert 1 false (s', a') = Panicked "Page was already mapped".
Proof.
  intros s a.
  apply (arena_second_insert_panics s a true false 10 11 12 13 14 15 []).
  - apply machine_with_inv; [by apply (bool_decide_unpack _)| |cbn; lia].
    apply (bool_decide_unpack _). by vm_compute.
  - by vm_compute.
  - by vm_compute.
  - by vm_compute.
  - reflexivity.
  - reflexivity.
  - by vm_compute.
Defined.
