(* ===== verification/Registry.v ===== *)
(** * The task registry (src/kernel/src/task/registry.rs)

    Sixteen named entries behind a counter that doubles as a lock: while it is
    all ones the registry is locked.  Names are byte strings of at most 31
    bytes.  The registry is refined to an association list searched from the
    front. *)

From S2P Require Import Prelude Arena.

Record Entry : Type := mkEntry { name_len : Z; name : list Z; address : Z }.

(** [REGISTRY_ENTRY_COUNT] and [REGISTRY]. *)
Record Registry : Type := mkRegistry { entry_count : Z; entries : list (option Entry) }.

Inductive RegistryAddError : Type := Occupied | NameTooLong | RegistryFull.

Definition registry_init : Registry := mkRegistry 0 (replicate 16 None).

(** [compare_exchange_weak] takes the lock when the counter is still what was
    loaded, whatever that was. *)
Fixpoint lock_loop (fuel : nat) (len : Z) : M Registry Z :=
  match fuel with
  | O => fun _ => OutOfFuel
  | S fuel =>
    let* r := get in
    if decide (entry_count r = len) then
      modify (fun r => mkRegistry usize_MAX (entries r)) ;; ret len
    else lock_loop fuel (entry_count r)
  end.

(** Without another hart in between, the first exchange succeeds. *)
Definition registry_lock : M Registry Z :=
  let* len := gets entry_count in
  lock_loop 1 len.

Definition registry_unlock (len : Z) : M Registry unit :=
  modify (fun r => mkRegistry len (entries r)).

Definition registry_add (nm : list Z) (addr : Z) : M Registry (result unit RegistryAddError) :=
  if decide (zlen nm > 31) then ret (Err NameTooLong) else
  let* len := registry_lock in
  let* r := get in
  if decide (len < zlen (entries r)) then
    let n := nm ++ replicate (31 - length nm) 0 in
    modify (fun r => mkRegistry (entry_count r)
              (set_z (entries r) len (Some (mkEntry (wrap 8 (zlen nm)) n addr)))) ;;
    registry_unlock (wrap 64 (len + 1)) ;;
    ret (Ok tt)
  else
    registry_unlock len ;;
    ret (Err RegistryFull).

(** [REGISTRY.0[..len]] panics past the end. *)
Definition registry_get (nm : list Z) : M Registry (option Z) :=
  let* len := registry_lock in
  let* r := get in
  if decide (len <= zlen (entries r)) then
    let es := omap id (take (Z.to_nat len) (entries r)) in
    let e := address <$> (list_find (fun e => take (Z.to_nat (name_len e)) (name e) = nm) es ≫= fun x => Some x.2) in
    registry_unlock len ;;
    ret e
  else panic "range end index out of range".

(** ** The registry as an association list *)

Definition entry_of (x : list Z * Z) : Entry :=
  mkEntry (zlen x.1) (x.1 ++ replicate (31 - length x.1) 0) x.2.

Record registry_repr (r : Registry) (l : list (list Z * Z)) : Prop := mk_registry_repr {
  rg_count : entry_count r = zlen l;
  rg_len : length (entries r) = 16%nat;
  rg_max : (length l <= 16)%nat;
  rg_names : Forall (fun x => (length x.1 <= 31)%nat) l;
  rg_entries : take (length l) (entries r) = (fun x => Some (entry_of x)) <$> l
}.

(** What the registry promises. *)
Definition assoc_add (l : list (list Z * Z)) (nm : list Z) (addr : Z)
  : result unit RegistryAddError * list (list Z * Z) :=
  if decide (zlen nm > 31) then (Err NameTooLong, l)
  else if decide (zlen l = 16) then (Err RegistryFull, l)
  else (Ok tt, l ++ [(nm, addr)]).

Fixpoint assoc_get (l : list (list Z * Z)) (nm : list Z) : option Z :=
  match l with
  | [] => None
  | (n, a) :: l => if decide (n = nm) then Some a else assoc_get l nm
  end.

Lemma registry_lock_eq r :
  registry_lock r = Done (entry_count r, mkRegistry usize_MAX (entries r)).
Proof. unfold registry_lock, bind, gets. cbn. unfold bind, get. by rewrite decide_True. Qed.

Lemma entry_of_name x : (length x.1 <= 31)%nat -> take (Z.to_nat (name_len (entry_of x))) (name (entry_of x)) = x.1.
Proof. intros. cbn. unfold zlen. rewrite Nat2Z.id. apply take_app_length. Qed.

Lemma omap_id_Some {X} (l : list X) : omap id (Some <$> l) = l.
Proof. induction l; cbn; [done|]. by f_equal. Qed.

Lemma find_entry l nm :
  Forall (fun x => (length x.1 <= 31)%nat) l ->
  address <$> (list_find (fun e => take (Z.to_nat (name_len e)) (name e) = nm) (entry_of <$> l)
               ≫= fun x => Some x.2) = assoc_get l nm.
Proof.
  induction 1 as [|[n a] l Hx Hl IH]; cbn -[entry_of]; [done|].
  rewrite entry_of_name by done. cbn [fst snd]. case_decide; [done|]. rewrite <-IH.
  by destruct (list_find _ (entry_of <$> l)) as [[]|].
Qed.

Lemma registry_get_spec r l nm :
  registry_repr r l -> registry_get nm r = Done (assoc_get l nm, r).
Proof.
  intros [Hc Hlen Hmax Hn He]. unfold registry_get, bind at 1. rewrite registry_lock_eq.
  unfold bind, get. cbn [entries]. rewrite Hc. unfold zlen. rewrite decide_True by lia.
  rewrite Nat2Z.id, He. unfold registry_unlock, modify, ret. cbn [entries].
  replace ((fun x => Some (entry_of x)) <$> l) with (Some <$> (entry_of <$> l))
    by (by rewrite <-list_fmap_compose).
  rewrite omap_id_Some, find_entry by done. destruct r. cbn in *. by rewrite Hc.
Qed.

Lemma registry_add_spec r l nm addr :
  registry_repr r l ->
  exists r', registry_add nm addr r = Done ((assoc_add l nm addr).1, r') /\
             registry_repr r' (assoc_add l nm addr).2.
Proof.
  intros Hr. unfold registry_add, assoc_add. destruct (decide (zlen nm > 31)) as [|Hnm]; [by exists r|].
  destruct Hr as [Hc Hlen Hmax Hn He]. unfold bind at 1. rewrite registry_lock_eq.
  unfold bind at 1, get. cbn [entries]. rewrite Hc. unfold zlen in *. rewrite Hlen.
  destruct (decide (Z.of_nat (length l) = 16)) as [E|E].
  - rewrite decide_False by lia. eexists. split; [done|]. by constructor.
  - rewrite decide_True by lia. unfold bind, registry_unlock, modify, ret. cbn [entries entry_count fst snd].
    eexists. split; [done|].
    assert (wrap 64 (Z.of_nat (length l) + 1) = Z.of_nat (length l) + 1) as ->
      by (apply wrap_small; unfold fits; lia).
    assert (wrap 8 (Z.of_nat (length nm)) = zlen nm) as -> by (apply wrap_small; unfold fits, zlen; lia).
    constructor; cbn [entries entry_count].
    + unfold zlen. rewrite length_app. cbn. lia.
    + unfold set_z. case_decide; by rewrite ?length_insert.
    + rewrite length_app. cbn. lia.
    + apply Forall_app. split; [done|]. constructor; [cbn; lia|done].
    + unfold set_z. rewrite decide_True, Nat2Z.id by lia.
      rewrite length_app, Nat.add_comm. cbn [length Nat.add].
      rewrite fmap_app, <-He. cbn [fmap list_fmap].
      rewrite (take_S_r _ _ (Some (entry_of (nm, addr)))).
      * by rewrite take_insert_ge by lia.
      * apply list_lookup_insert_eq. lia.
Qed.

(** Requests and what they answer. *)
Inductive registry_op : Type := RegAdd (nm : list Z) (addr : Z) | RegGet (nm : list Z).

Inductive registry_ret : Type :=
| Added (r : result unit RegistryAddError)
| Got (o : option Z).

Definition registry_step (op : registry_op) : M Registry registry_ret :=
  match op with
  | RegAdd nm addr => let* r := registry_add nm addr in ret (Added r)
  | RegGet nm => let* o := registry_get nm in ret (Got o)
  end.

Fixpoint registry_run (ops : list registry_op) : M Registry (list registry_ret) :=
  match ops with
  | [] => ret []
  | op :: ops =>
    let* x := registry_step op in
    let* xs := registry_run ops in
    ret (x :: xs)
  end.

Definition assoc_step (l : list (list Z * Z)) (op : registry_op) : registry_ret * list (list Z * Z) :=
  match op with
  | RegAdd nm addr => let '(r, l') := assoc_add l nm addr in (Added r, l')
  | RegGet nm => (Got (assoc_get l nm), l)
  end.

Fixpoint assoc_run (l : list (list Z * Z)) (ops : list registry_op) : list registry_ret * list (list Z * Z) :=
  match ops with
  | [] => ([], l)
  | op :: ops =>
    let '(x, l1) := assoc_step l op in
    let '(xs, l2) := assoc_run l1 ops in (x :: xs, l2)
  end.

Lemma registry_step_refines op r l :
  registry_repr r l ->
  exists r', registry_step op r = Done ((assoc_step l op).1, r') /\ registry_repr r' (assoc_step l op).2.
Proof.
  intros Hr. destruct op as [nm addr|nm]; cbn [registry_step assoc_step].
  - destruct (registry_add_spec r l nm addr Hr) as (r' & E & Hr'). exists r'.
    unfold bind. rewrite E. by destruct (assoc_add l nm addr).
  - exists r. unfold bind. by rewrite (registry_get_spec r l nm Hr).
Qed.

Lemma registry_run_refines ops r l :
  registry_repr r l ->
  exists r', registry_run ops r = Done ((assoc_run l ops).1, r') /\ registry_repr r' (assoc_run l ops).2.
Proof.
  revert r l. induction ops as [|op ops IH]; intros r l Hr; [by exists r|].
  cbn [registry_run assoc_run]. destruct (registry_step_refines op r l Hr) as (r1 & E1 & Hr1).
  destruct (assoc_step l op) as [x l1]. cbn [fst snd] in *.
  destruct (IH r1 l1 Hr1) as (r2 & E2 & Hr2). destruct (assoc_run l1 ops) as [xs l2].
  exists r2. unfold bind. by rewrite E1, E2.
Qed.

Lemma registry_init_repr : registry_repr registry_init [].
Proof. constructor; [done|done|cbn; lia|done|done]. Qed.

(** C23: from the empty registry every sequence of [add] and [get] requests is
    answered as by an association list of at most 16 entries searched from the
    front: names over 31 bytes are refused, the 17th entry is refused, and a
    lookup returns the address of the first entry added under that name, so a
    second [add] of a name succeeds but is never seen. *)
Theorem registry_refines_assoc (ops : list registry_op) :
  exists r, registry_run ops registry_init = Done ((assoc_run [] ops).1, r) /\
            registry_repr r (assoc_run [] ops).2.
Proof. apply registry_run_refines, registry_init_repr. Qed.

(** The lock does not exclude.  When another hart holds the lock the counter
    is all ones, the exchange of all ones for all ones succeeds at once, and the
    all-ones value is used as the length: [get] panics on the slice, and [add]
    claims the registry is full. *)
Theorem registry_lock_not_exclusive (r : Registry) (nm : list Z) (addr : Z) :
  length (entries r) = 16%nat -> zlen nm <= 31 ->
  let locked := mkRegistry usize_MAX (entries r) in
  registry_lock locked = Done (usize_MAX, locked) /\
  registry_get nm locked = Panicked "range end index out of range" /\
  registry_add nm addr locked = Done (Err RegistryFull, locked).
Proof.
  intros Hlen Hnm locked. assert (registry_lock locked = Done (usize_MAX, locked)) as El.
  { by rewrite registry_lock_eq. }
  split; [done|]. unfold registry_get, registry_add. rewrite decide_False by lia.
  unfold bind. rewrite El. unfold get. cbn [entries locked]. unfold zlen. rewrite Hlen.
  unfold usize_MAX. rewrite !decide_False by lia. done.
Qed.

Lemma registry_lock_not_exclusive_witness :
  registry_get [117; 97; 114; 116] (mkRegistry usize_MAX (replicate 16 None)) =
    Panicked "range end index out of range".
Proof.
  apply (registry_lock_not_exclusive registry_init [117; 97; 114; 116] 0).
  - reflexivity.
  - by vm_compute.
Defined.
