(* ===== verification/Task.v ===== *)
(** * Tasks, addresses and groups
    (src/kernel/src/task/mod.rs, address.rs, group.rs, notification.rs,
     src/kernel/src/arch/riscv/mod.rs)

    The kernel state shared by the scheduler, the IPC code and the system
    calls: the machine, the task structures by their address, the arena of task
    groups, and the few globals.  Memory of user programs is the machine's memory,
    reached through the active address space. *)

From S2P Require Import Prelude Page Ppn Allocator Reserved Sv39Entry Sv39 Arena.

(** ** Addresses (address.rs)

    On riscv64 [TaskID] and [GroupID] are [u32] and [size_of::<usize>() * 4] is 32. *)

(** The shift of a [u32] by 32 wraps its amount to 0 in the release build. *)
Definition shl32 (x amount : Z) : Z := wrap 32 (Z.shiftl x (amount mod 32)).

Definition Address_new (task group : Z) : Z := Z.lor task (shl32 group (8 * 4)).

Definition try_u32 (x : Z) : outcome Z :=
  match try_into 32 x with
  | Some x => Done x
  | None => Panicked "called `Result::unwrap()` on an `Err` value"
  end.

(** [size_of::<TaskID>()] is 4. *)
Definition Address_task (a : Z) : outcome Z := try_u32 (Z.land a (Z.shiftl 0x100 4 - 1)).

Definition Address_group (a : Z) : outcome Z := try_u32 (Z.shiftr a (8 * 4)).

(** ** Task structures *)

(** [RegisterState]: the program counter and x1..x31. *)
Record RegisterState : Type := mkRegisterState { pc : Z; regs : list Z }.

Definition RegisterState_default : RegisterState := mkRegisterState 0 (replicate 31 0).

Definition RegisterState_set_pc (r : RegisterState) (a : Z) : RegisterState := mkRegisterState a (regs r).

Definition RegisterState_set_stack_pointer (r : RegisterState) (a : Z) : RegisterState :=
  mkRegisterState (pc r) (set_z (regs r) (2 - 1) a).

(** The IPC structure of a task (ipc.rs): pointers into user memory. *)
Record IPC : Type := mkIPC {
  packets : Z;
  last_transmit_index : Z;
  ring_mask : Z;
  free_pages : Z;
  max_free_pages : Z
}.

Definition NOTIFYING : Z := 0x1.
Definition NOTIFIED : Z := 0x2.
Definition u16_MAX : Z := 2 ^ 16 - 1.
Definition u64_MAX : Z := 2 ^ 64 - 1.

Record TaskData : Type := mkTaskData {
  register_state : RegisterState;
  stack : Page;
  virtual_memory : Z;
  notification_handler : option Z;
  current_irq : Z;
  flags : Z;
  executor_id : Z;
  priority : Z;
  priority_factor : Z;
  wait_time : Z;
  ipc : option IPC
}.

Definition with_registers (t : TaskData) (r : RegisterState) : TaskData :=
  mkTaskData r (stack t) (virtual_memory t) (notification_handler t) (current_irq t) (flags t)
    (executor_id t) (priority t) (priority_factor t) (wait_time t) (ipc t).
Definition with_handler (t : TaskData) (h : option Z) : TaskData :=
  mkTaskData (register_state t) (stack t) (virtual_memory t) h (current_irq t) (flags t)
    (executor_id t) (priority t) (priority_factor t) (wait_time t) (ipc t).
Definition with_flags (t : TaskData) (f : Z) : TaskData :=
  mkTaskData (register_state t) (stack t) (virtual_memory t) (notification_handler t) (current_irq t) f
    (executor_id t) (priority t) (priority_factor t) (wait_time t) (ipc t).
Definition with_executor (t : TaskData) (e : Z) : TaskData :=
  mkTaskData (register_state t) (stack t) (virtual_memory t) (notification_handler t) (current_irq t)
    (flags t) e (priority t) (priority_factor t) (wait_time t) (ipc t).
Definition with_wait_time (t : TaskData) (w : Z) : TaskData :=
  mkTaskData (register_state t) (stack t) (virtual_memory t) (notification_handler t) (current_irq t)
    (flags t) (executor_id t) (priority t) (priority_factor t) w (ipc t).
Definition with_ipc (t : TaskData) (i : option IPC) : TaskData :=
  mkTaskData (register_state t) (stack t) (virtual_memory t) (notification_handler t) (current_irq t)
    (flags t) (executor_id t) (priority t) (priority_factor t) (wait_time t) i.

(** The structure [Task::new] writes. *)
Definition new_task_data (vms : Z) (stack : Page) : TaskData :=
  mkTaskData RegisterState_default stack vms None 0 0 u16_MAX 0 0 0 None.

(** [GroupData]: sixteen task pointers, 0 for null. *)
Definition GroupData : Type := list Z.

Record Kernel (A U : Type) : Type := mkKernel {
  machine : Machine A;
  tasks : gmap Z TaskData;
  groups : Arena GroupData;
  task_data_address : Page;
  next_id : Z;
  sscratch : Z;
  time : Z;
  timer : Z;
  (* the state of the parts that use this one *)
  ext : U
}.
Arguments mkKernel {A U} machine tasks groups task_data_address next_id sscratch time timer ext.
Arguments machine {A U} k.
Arguments tasks {A U} k.
Arguments groups {A U} k.
Arguments task_data_address {A U} k.
Arguments next_id {A U} k.
Arguments sscratch {A U} k.
Arguments time {A U} k.
Arguments timer {A U} k.
Arguments ext {A U} k.

Section kernel.
Context {A U : Type} `{FrameAllocator A}.
Implicit Types k : Kernel A U.

Definition set_machine k (m : Machine A) : Kernel A U :=
  mkKernel m (tasks k) (groups k) (task_data_address k) (next_id k) (sscratch k) (time k) (timer k) (ext k).
Definition set_tasks k (t : gmap Z TaskData) : Kernel A U :=
  mkKernel (machine k) t (groups k) (task_data_address k) (next_id k) (sscratch k) (time k) (timer k) (ext k).
Definition set_groups k (g : Arena GroupData) : Kernel A U :=
  mkKernel (machine k) (tasks k) g (task_data_address k) (next_id k) (sscratch k) (time k) (timer k) (ext k).
Definition set_task_data_address k (p : Page) : Kernel A U :=
  mkKernel (machine k) (tasks k) (groups k) p (next_id k) (sscratch k) (time k) (timer k) (ext k).
Definition set_next_id k (i : Z) : Kernel A U :=
  mkKernel (machine k) (tasks k) (groups k) (task_data_address k) i (sscratch k) (time k) (timer k) (ext k).
Definition set_sscratch k (p : Z) : Kernel A U :=
  mkKernel (machine k) (tasks k) (groups k) (task_data_address k) (next_id k) p (time k) (timer k) (ext k).
Definition set_timer k (t : Z) : Kernel A U :=
  mkKernel (machine k) (tasks k) (groups k) (task_data_address k) (next_id k) (sscratch k) (time k) t (ext k).
Definition set_ext k (u : U) : Kernel A U :=
  mkKernel (machine k) (tasks k) (groups k) (task_data_address k) (next_id k) (sscratch k) (time k) (timer k) u.

(** Code on one part of the kernel state. *)
Definition zoom {S X} (g : Kernel A U -> S) (p : Kernel A U -> S -> Kernel A U) (m : M S X)
  : M (Kernel A U) X :=
  fun k => match m (g k) with
           | Done (v, s) => Done (v, p k s)
           | Panicked why => Panicked why
           | OutOfFuel => OutOfFuel
           end.

Definition on_machine {X} (m : M (Machine A) X) : M (Kernel A U) X := zoom machine set_machine m.
Definition on_groups {X} (m : M (Arena GroupData) X) : M (Kernel A U) X := zoom groups set_groups m.

Definition pureO {X} (o : outcome X) : M (Kernel A U) X :=
  fun k => match o with
           | Done v => Done (v, k)
           | Panicked why => Panicked why
           | OutOfFuel => OutOfFuel
           end.

(** [self.inner()] *)
Definition task_read (p : Z) : M (Kernel A U) TaskData :=
  fun k => match tasks k !! p with
           | Some t => Done (t, k)
           | None => Panicked "page fault"
           end.

Definition task_write (p : Z) (t : TaskData) : M (Kernel A U) unit :=
  modify (fun k => set_tasks k (<[p := t]> (tasks k))).

Definition task_modify (p : Z) (f : TaskData -> TaskData) : M (Kernel A U) unit :=
  let* t := task_read p in task_write p (f t).

(** ** Task (mod.rs) *)

Definition Task_new (vms : Z) : M (Kernel A U) (result Z AllocateError) :=
  let? ppn := on_machine mem_allocate in
  let* addr := gets task_data_address in
  let* r := on_machine (add_to vms addr (Private ppn) RWX_RW KernelGlobal) in
  unwrap_ok "called `Result::unwrap()` on an `Err` value" r ;;
  let* stack := unwrap "called `Option::unwrap()` on a `None` value" (Page_next (rstart HART_STACKS)) in
  task_write addr (new_task_data vms stack) ;;
  let* nxt := unwrap "called `Option::unwrap()` on a `None` value" (Page_next addr) in
  modify (fun k => set_task_data_address k nxt) ;;
  ret (Ok addr).

Definition Task_set_pc (p : Z) (a : Z) : M (Kernel A U) unit :=
  task_modify p (fun t => with_registers t (RegisterState_set_pc (register_state t) a)).

Definition Task_set_stack_pointer (p : Z) (a : Z) : M (Kernel A U) unit :=
  task_modify p (fun t => with_registers t (RegisterState_set_stack_pointer (register_state t) a)).

(** [execute]: [Ok] stands for [trap_start_task], which does not return; it
    leaves the task's pointer in [sscratch]. *)
Definition Task_execute (p : Z) (id : Z) : M (Kernel A U) (result unit Z) :=
  let* t := task_read p in
  on_machine (activate (virtual_memory t)) ;;
  if decide (executor_id t = u16_MAX) then
    task_write p (with_executor t id) ;;
    modify (fun k => set_sscratch k p) ;;
    ret (Ok tt)
  else ret (Err (executor_id t)).

Definition Task_allocate_memory (address : Page) (count : Z) (rwx : RWX)
  : M (Kernel A U) (result unit AddError) :=
  on_machine (allocate address count rwx UserLocal).

Definition Task_deallocate_memory (address : Page) (count : Z) : M (Kernel A U) (result unit unit) :=
  on_machine (deallocate address (Z.to_nat count)).

Definition Task_set_queues (p : Z) (buffers : option IPC) : M (Kernel A U) unit :=
  task_modify p (fun t => with_ipc t buffers).

Definition Task_was_notified (p : Z) : M (Kernel A U) bool :=
  let* t := task_read p in ret (bool_decide (Z.land (flags t) NOTIFIED > 0)).

Definition Task_clear_notified (p : Z) : M (Kernel A U) unit :=
  task_modify p (fun t => with_flags t (Z.ldiff (flags t) NOTIFIED)).

(** [wait_duration] (executor.rs): the addition is clamped. *)
Definition Task_wait_duration (p : Z) (delay : Z) : M (Kernel A U) unit :=
  let* now := gets time in
  task_modify p (fun t => with_wait_time t (default u64_MAX (checked_add 64 now delay))).

(** ** Notifications (notification.rs) *)

Inductive SendError : Type := NoHandler | Busy.

(** [Handler::call] is [todo!()]. *)
Definition Task_send_notification (p : Z) : M (Kernel A U) (result unit SendError) :=
  let* t := task_read p in
  match notification_handler t with
  | Some _ => panic not_yet_implemented
  | None => ret (Err NoHandler)
  end.

(** [mem::replace]: the previous handler is returned. *)
Definition Task_set_notification_handler (p : Z) (handler : option Z) : M (Kernel A U) (option Z) :=
  let* t := task_read p in
  task_write p (with_handler t handler) ;;
  ret (notification_handler t).

(** ** Groups (group.rs) *)

Inductive NoTask : Type := NoTask_.
Inductive Full : Type := Full_.

Definition Group_new (task : Z) : M (Kernel A U) (result Z InsertError) :=
  zoom (fun k => (machine k, groups k)) (fun k s => set_groups (set_machine k s.1) s.2)
    (Arena_insert 1 (task :: replicate 15 0)).

(** [Group::get]: taking the guard counts a reference. *)
Definition Group_get (id : Z) : M (Kernel A U) (option GroupData) := on_groups (Arena_get id).

Definition Group_drop (id : Z) : M (Kernel A U) unit := on_groups (Guard_drop id).

Definition Group_task (data : GroupData) (id : Z) : result Z NoTask :=
  match nth_z data id with
  | Some ptr => if decide (ptr = 0) then Err NoTask_ else Ok ptr
  | None => Err NoTask_
  end.

(** The first null slot is filled. *)
Fixpoint first_null (data : GroupData) (i : Z) : option Z :=
  match data with
  | [] => None
  | p :: data => if decide (p = 0) then Some i else first_null data (i + 1)
  end.

(** The tasks of a group are atomics inside the arena slot. *)
Definition group_store (id : Z) (data : GroupData) : M (Kernel A U) unit :=
  on_groups (modify (fun a =>
    match slots a !! id with
    | Some s => set_slot a id (mkSlot (ref_counter s) (VItem data))
    | None => a
    end)).

Definition Group_insert (id : Z) (data : GroupData) (task : Z) : M (Kernel A U) (result Z Full) :=
  match first_null data 0 with
  | Some i => group_store id (set_z data i task) ;; ret (Ok i)
  | None => ret (Err Full_)
  end.

(** [remove_task]: an id out of range removes nothing; an empty group is dropped
    and then removed from the arena. *)
Definition Group_remove_task (gid : Z) (data : GroupData) (id : Z)
  : M (Kernel A U) (result (option GroupData) NoTask) :=
  let data' := set_z data id 0 in
  group_store gid data' ;;
  if bool_decide (Forall (fun p => p = 0) data') then
    Group_drop gid ;;
    let* _ := on_groups (Arena_remove gid) in
    ret (Ok None)
  else ret (Ok (Some data')).
End kernel.

(** ** Lemmas on groups and addresses *)

Lemma first_null_spec data i :
  match first_null data i with
  | Some j => i <= j < i + zlen data /\ nth_z data (j - i) = Some 0
  | None => 0 ∉ data
  end.
Proof.
  revert i. induction data as [|p data IH]; intros i; cbn [first_null]; [apply not_elem_of_nil|].
  pose proof (zlen_nonneg data). assert (zlen (p :: data) = 1 + zlen data) as Hl by (unfold zlen; cbn; lia).
  case_decide as E.
  - subst. split; [lia|]. by rewrite Z.sub_diag.
  - specialize (IH (i + 1)). destruct (first_null data (i + 1)) as [j|].
    + destruct IH as [Hj Hn]. split; [lia|]. rewrite <-Hn.
      rewrite <-(app_nil_l (p :: data)), cons_middle, app_assoc, nth_z_app_r by (cbn; unfold zlen; cbn; lia).
      f_equal. unfold zlen. cbn. lia.
    + rewrite not_elem_of_cons. done.
Qed.

Lemma Group_task_Err data id :
  Group_task data id = Err NoTask_ <-> (nth_z data id = None \/ nth_z data id = Some 0).
Proof.
  unfold Group_task. destruct (nth_z data id) as [p|]; [|naive_solver].
  case_decide; naive_solver.
Qed.

(** Inserting a task into a group uses a slot that was free: afterwards the
    slot answers with the task and every other slot answers as before.  The group
    is full only if all of its slots hold a task. *)
Theorem group_insert_fills {A U : Type} `{FrameAllocator A} (k : Kernel A U) (gid c : Z)
    (data : GroupData) (task : Z) :
  slots (groups k) !! gid = Some (mkSlot c (VItem data)) -> task <> 0 ->
  match Group_insert gid data task k with
  | Done (Ok i, k') => exists data',
      slots (groups k') !! gid = Some (mkSlot c (VItem data')) /\ zlen data' = zlen data /\
      Group_task data i = Err NoTask_ /\ Group_task data' i = Ok task /\
      forall j, j <> i -> Group_task data' j = Group_task data j
  | Done (Err _, k') => k' = k /\ forall j, 0 <= j < zlen data -> exists p, Group_task data j = Ok p
  | _ => False
  end.
Proof.
  intros Hs Ht. unfold Group_insert. pose proof (first_null_spec data 0) as Hf.
  destruct (first_null data 0) as [i|].
  - destruct Hf as [Hi Hn]. rewrite Z.sub_0_r in Hn.
    unfold group_store, on_groups, zoom, modify, bind, ret. cbn.
    rewrite Hs. exists (set_z data i task). cbn. rewrite lookup_insert_eq.
    split; [done|]. split; [by rewrite zlen_set_z|]. split; [apply Group_task_Err; by right|].
    unfold Group_task. rewrite nth_z_set_eq by lia. split; [by rewrite decide_False|].
    intros j Hj. by rewrite nth_z_set_ne.
  - split; [done|]. intros j Hj. destruct (nth_z_lt data j Hj) as [p Hp]. exists p.
    unfold Group_task. rewrite Hp, decide_False; [done|]. intros ->. by apply nth_z_elem in Hp.
Qed.

Lemma group_insert_fills_witness :
  let k := mkKernel (A := Pmm) (mkMachine ∅ 0 None) ∅
             (mkArena 4096 {[ 0 := mkSlot 0 (VItem [7; 0; 0]) ]} usize_MAX 1 256) 4096 0 0 0 0 tt in
  exists k' data', Group_insert 0 [7; 0; 0] 9 k = Done (Ok 1, k') /\
    slots (groups k') !! 0 = Some (mkSlot 0 (VItem data')) /\ Group_task data' 1 = Ok 9.
Proof.
  intros k. destruct (group_insert_fills k 0 0 [7; 0; 0] 9 eq_refl ltac:(lia)) as (data' & Hs & _ & _ & Ht & _).
  exists (set_groups k (set_slot (groups k) 0 (mkSlot 0 (VItem [7; 9; 0])))), data'.
  split; [reflexivity|]. split; [exact Hs|exact Ht].
Defined.

(** An address loses its group.  For every task and group number,
    [Address::new] gives an address whose group is 0, because the group is
    shifted by 32 bits in a 32-bit type, and whose task number is the low twelve
    bits of both numbers together.  With group 0 and a task number below 4096 it
    round-trips. *)
Theorem address_loses_group (t g : Z) :
  fits 32 t -> fits 32 g ->
  Address_group (Address_new t g) = Done 0 /\
  Address_task (Address_new t g) = Done (Z.lor t g mod 2 ^ 12) /\
  (g = 0 -> t < 2 ^ 12 -> Address_task (Address_new t g) = Done t).
Proof.
  intros Ht Hg. unfold Address_group, Address_task, Address_new, shl32, try_u32, try_into.
  change (8 * 4 mod 32) with 0. rewrite Z.shiftl_0_r, (wrap_small 32 g) by done.
  assert (fits 32 (Z.lor t g)) as Hf by by apply fits_lor.
  change (Z.shiftl 0x100 4 - 1) with (Z.ones 12). rewrite Z.land_ones by lia.
  pose proof (Z.mod_pos_bound (Z.lor t g) (2 ^ 12) ltac:(lia)).
  rewrite (Z.shiftr_div_pow2 _ (8 * 4)), Z.div_small by (done || lia).
  rewrite !decide_True by (unfold fits; lia). split; [done|]. split; [done|].
  intros -> Hlt. rewrite Z.lor_0_r, Z.mod_small; [done|]. unfold fits in Ht. lia.
Qed.

Lemma address_loses_group_witness : Address_group (Address_new 3 1) = Done 0.
Proof. apply (address_loses_group 3 1); unfold fits; lia. Defined.
