(* ===== verification/Executor.v ===== *)
(** * The executor (src/kernel/src/task/executor.rs, src/kernel/src/arch/mod.rs)

    [Executor::next] picks the next task of group 0: it starts seven slots after
    the previous one and goes round in steps of seven.  It either starts a task
    or idles until the earliest wake-up time.  The search is shown to visit all
    sixteen slots and to run the first runnable task in that order; without one the
    hart idles when the previous id is a slot number, and the search never ends when not. *)

From S2P Require Import Prelude Page Ppn Allocator Reserved Sv39Entry Sv39 Sv39Spec Arena Task.

(** How [next] ends; it never returns to its caller. *)
Inductive NextResult : Type :=
| Run (task : Z)
| Idle (until : Z).

Section executor.
Context {A U : Type} `{FrameAllocator A}.

(** The address of the static [IDLE_TASK_STUB]. *)
Context (idle_task_stub : Z).
Implicit Types k : Kernel A U.

(** [current_task]: the pointer in [sscratch]. *)
Definition current_task : M (Kernel A U) Z := gets sscratch.

Definition Executor_id : M (Kernel A U) Z :=
  let* p := current_task in
  let* t := task_read p in
  ret (executor_id t).

(** [arch::schedule_timer] *)
Definition schedule_timer (delay : Z) : M (Kernel A U) unit :=
  modify (fun k => set_timer k (default u64_MAX (checked_add 64 (time k) delay))).

(** [idle]: the hart waits on the stub task. *)
Definition Executor_idle (time : Z) : M (Kernel A U) NextResult :=
  modify (fun k => set_sscratch k idle_task_stub) ;;
  modify (fun k => set_timer k time) ;;
  ret (Idle time).

(** The loop of [next].  The model's clock does not advance inside an operation. *)
Fixpoint next_loop (fuel : nat) (group : GroupData) (prev id min_time curr_time : Z) (stop_next : bool)
  : M (Kernel A U) NextResult :=
  match fuel with
  | O => fun _ => OutOfFuel
  | S fuel =>
    let continue_ (min_time : Z) : M (Kernel A U) NextResult :=
      let id := Z.land (wrap 64 (id + 7)) 0xf in
      if decide (id = prev) then next_loop fuel group prev id min_time curr_time true
      else if stop_next then
        Executor_idle min_time
      else next_loop fuel group prev id min_time curr_time false in
    match Group_task group id with
    | Ok task =>
      let* t := task_read task in
      let wait_time := wait_time t in
      if decide (wait_time < curr_time) then
        modify (fun k => set_next_id k id) ;;
        schedule_timer (10000000 / 10) ;;
        let* hart := Executor_id in
        let* r := Task_execute task hart in
        match r with
        | Ok _ => ret (Run task)
        | Err _ => continue_ (Z.min min_time wait_time)
        end
      else continue_ (Z.min min_time wait_time)
    | Err _ => continue_ min_time
    end
  end.

Definition Executor_next (fuel : nat) : M (Kernel A U) NextResult :=
  let* cur := current_task in
  task_modify cur (fun t => with_executor t u16_MAX) ;;
  let* g := Group_get 0 in
  let* group := unwrap "No root group" g in
  let* prev := gets next_id in
  let id := Z.land (wrap 64 (prev + 7)) 0xf in
  let* curr_time := gets time in
  next_loop fuel group prev id u64_MAX curr_time false.

Definition current_address : M (Kernel A U) Z := gets next_id.

(** [executor_get_task], called from the trap code. *)
Definition get_task (address : Z) : M (Kernel A U) (option Z) :=
  modify (fun k => set_next_id k address) ;;
  let* gid := pureO (Address_group address) in
  let* g := Group_get gid in
  match g with
  | None => ret None
  | Some group =>
    let* tid := pureO (Address_task address) in
    let r := Group_task group tid in
    Group_drop gid ;;
    ret (match r with Ok t => Some t | Err _ => None end)
  end.

Definition Executor_init (id : Z) : M (Kernel A U) unit :=
  let* stk := unwrap "called `Option::unwrap()` on a `None` value" (Page_skip (rstart HART_STACKS) 1) in
  task_modify idle_task_stub (fun t =>
    mkTaskData (register_state t) stk (virtual_memory t) (notification_handler t) (current_irq t)
      (flags t) id (priority t) (priority_factor t) (wait_time t) (ipc t)) ;;
  modify (fun k => set_sscratch k idle_task_stub) ;;
  let* r := on_machine mem_allocate in
  let* ppn := unwrap_ok "called `Result::unwrap()` on an `Err` value" r in
  let* r := on_machine (add (rstart HART_STACKS) (Private ppn) RWX_RW KernelGlobal) in
  unwrap_ok "called `Result::unwrap()` on an `Err` value" r.

(** ** The order of the search *)

(** The slots after [prev], in the order they are looked at. *)
Definition visit_order (prev : Z) : list Z := (fun j => (prev + 7 * j) mod 16) <$> seqZ 1 16.

(** The task in a slot, if it can be run at [now]. *)
Definition slot_task (group : GroupData) (ts : gmap Z TaskData) (id : Z) : option (Z * TaskData) :=
  match Group_task group id with
  | Ok p => t ← ts !! p; Some (p, t)
  | Err _ => None
  end.

Definition runnable (now : Z) (t : TaskData) : bool :=
  bool_decide (wait_time t < now) && bool_decide (executor_id t = u16_MAX).

(** The reference scheduler: the first runnable task, or the earliest wake-up. *)
Fixpoint schedule (group : GroupData) (ts : gmap Z TaskData) (now : Z) (min_time : Z) (ids : list Z) : NextResult :=
  match ids with
  | [] => Idle min_time
  | id :: ids =>
    match slot_task group ts id with
    | Some (p, t) =>
      if runnable now t then Run p else schedule group ts now (Z.min min_time (wait_time t)) ids
    | None => schedule group ts now min_time ids
    end
  end.

(** Every pointer of the group is a task. *)
Definition group_ok (group : GroupData) (ts : gmap Z TaskData) : Prop :=
  forall id p, Group_task group id = Ok p -> is_Some (ts !! p).

Lemma group_ok_insert group ts q t : group_ok group ts -> group_ok group (<[q := t]> ts).
Proof.
  intros Hok id p [u Hu]%Hok. destruct (decide (p = q)) as [->|];
    [rewrite lookup_insert_eq|rewrite lookup_insert_ne by done]; by eexists.
Qed.

Lemma land_15 v : Z.land v 0xf = v mod 16.
Proof. exact (land_mask v 4 ltac:(lia)). Qed.

Lemma next_slot id : 0 <= id < 16 -> Z.land (wrap 64 (id + 7)) 0xf = (id + 7) mod 16.
Proof. intros. rewrite land_15. by rewrite wrap_small by (unfold fits; lia). Qed.

Definition order_from (prev j : Z) : list Z := (fun i => (prev + 7 * i) mod 16) <$> seqZ j (17 - j).

Lemma order_from_cons prev j :
  1 <= j <= 16 -> order_from prev j = (prev + 7 * j) mod 16 :: order_from prev (j + 1).
Proof.
  intros. unfold order_from. rewrite seqZ_cons by lia. cbn [fmap list_fmap]. f_equal.
  f_equal. f_equal; lia.
Qed.

Lemma order_from_end prev : order_from prev 17 = [].
Proof. done. Qed.

(** Only the sixteenth step comes back to the previous slot. *)
Lemma step_back prev j :
  0 <= prev < 16 -> 1 <= j <= 16 -> ((prev + 7 * j) mod 16 + 7) mod 16 = prev <-> j = 15.
Proof.
  intros. rewrite Zplus_mod_idemp_l.
  pose proof (Z.div_mod (prev + 7 * j + 7) 16 ltac:(lia)). split; [intros; lia|].
  intros ->. replace (prev + 7 * 15 + 7) with (prev + 7 * 16) by lia.
  rewrite Z_mod_plus_full. by apply Z.mod_small.
Qed.

(** What is left of the kernel state when the search ends. *)
Definition next_post k (group : GroupData) (hart : Z) (r : NextResult) k' : Prop :=
  match r with
  | Run p => exists t, tasks k !! p = Some t /\ tasks k' = <[p := with_executor t hart]> (tasks k) /\
                       sscratch k' = p /\ Group_task group (next_id k') = Ok p
  | Idle until => tasks k' = tasks k /\ sscratch k' = idle_task_stub /\ timer k' = until
  end.

(** What the loop does after a slot whose task is not started. *)
Definition next_continue (fuel : nat) (group : GroupData) (prev id now : Z) (stop_next : bool) (m : Z)
  : M (Kernel A U) NextResult :=
  if decide ((id + 7) mod 16 = prev) then next_loop fuel group prev ((id + 7) mod 16) m now true
  else if stop_next then Executor_idle m
  else next_loop fuel group prev ((id + 7) mod 16) m now false.

Lemma task_read_bind {B} p t (f : TaskData -> M (Kernel A U) B) k :
  tasks k !! p = Some t -> bind (task_read p) f k = f t k.
Proof. intros Ht. unfold bind, task_read. by rewrite Ht. Qed.

(** The attempt to start [p]: the timer is armed and the address space is switched
    whether or not the task can be claimed. *)
Lemma start_task {B} p t tc id (f : result unit Z -> M (Kernel A U) B) k :
  tasks k !! p = Some t -> tasks k !! sscratch k = Some tc ->
  (modify (fun k => set_next_id k id) ;; schedule_timer (10000000 / 10) ;;
   let* hart := Executor_id in let* r := Task_execute p hart in f r) k =
  let k1 := set_machine (set_timer (set_next_id k id)
              (default u64_MAX (checked_add 64 (time k) (10000000 / 10))))
              (mkMachine (phys (machine k)) (virtual_memory t) (pmm (machine k))) in
  if decide (executor_id t = u16_MAX)
  then f (Ok tt) (set_sscratch (set_tasks k1 (<[p := with_executor t (executor_id tc)]> (tasks k))) p)
  else f (Err (executor_id t)) k1.
Proof.
  intros Ht Htc. unfold schedule_timer, Executor_id, current_task, Task_execute, on_machine, zoom,
    activate, task_write, modify, gets, ret, bind, task_read. cbn.
  rewrite Htc. cbn. rewrite Ht. cbn. by case_decide.
Qed.

(** One round: the slot's task is started, or the search goes on in a state with
    the same tasks. *)
Lemma next_loop_step fuel group prev id min now stop k tc :
  0 <= id < 16 -> group_ok group (tasks k) -> tasks k !! sscratch k = Some tc ->
  match slot_task group (tasks k) id with
  | Some (p, t) =>
    if runnable now t
    then exists k', next_loop (S fuel) group prev id min now stop k = Done (Run p, k') /\
                    next_post k group (executor_id tc) (Run p) k'
    else exists k1, tasks k1 = tasks k /\ sscratch k1 = sscratch k /\
           next_loop (S fuel) group prev id min now stop k =
             next_continue fuel group prev id now stop (Z.min min (wait_time t)) k1
  | None => next_loop (S fuel) group prev id min now stop k =
              next_continue fuel group prev id now stop min k
  end.
Proof.
  intros Hid Hg Htc. cbn [next_loop]. rewrite next_slot by done. unfold slot_task, next_continue.
  destruct (Group_task group id) as [p|] eqn:Ep; [|done].
  destruct (Hg id p Ep) as [t Ht]. rewrite Ht. cbn [mbind option_bind]. unfold runnable.
  destruct (decide (wait_time t < now)) as [Hw|Hw].
  2:{ rewrite bool_decide_eq_false_2 by done. cbn [andb]. exists k. do 2 (split; [done|]).
      rewrite (task_read_bind p t) by done. by rewrite decide_False. }
  rewrite bool_decide_eq_true_2 by done. cbn [andb].
  set (k1 := set_machine (set_timer (set_next_id k id)
               (default u64_MAX (checked_add 64 (time k) (10000000 / 10))))
               (mkMachine (phys (machine k)) (virtual_memory t) (pmm (machine k)))).
  destruct (decide (executor_id t = u16_MAX)) as [He|He].
  - rewrite bool_decide_eq_true_2 by done. eexists.
    rewrite (task_read_bind p t), decide_True, (start_task p t tc id) by done.
    cbv zeta. rewrite decide_True by done. split; [done|]. exists t. by split_and!.
  - rewrite bool_decide_eq_false_2 by done. eexists. split; [|split].
    3:{ rewrite (task_read_bind p t), decide_True, (start_task p t tc id) by done.
        cbv zeta. by rewrite decide_False by done. }
    all: done.
Qed.

Lemma next_post_tasks k k1 group hart r k' :
  tasks k1 = tasks k -> next_post k1 group hart r k' -> next_post k group hart r k'.
Proof. unfold next_post. by intros ->. Qed.

Lemma next_loop_spec (r : nat) fuel group prev k min now tc :
  0 <= prev < 16 -> (r <= 15)%nat -> (r < fuel)%nat -> group_ok group (tasks k) ->
  tasks k !! sscratch k = Some tc ->
  let j := 16 - Z.of_nat r in
  exists k', next_loop fuel group prev ((prev + 7 * j) mod 16) min now (bool_decide (j = 16)) k =
               Done (schedule group (tasks k) now min (order_from prev j), k') /\
             next_post k group (executor_id tc) (schedule group (tasks k) now min (order_from prev j)) k'.
Proof.
  revert fuel k min. induction r as [|r IH]; intros fuel k min Hprev Hr Hf Hg Htc j;
    (destruct fuel as [|fuel]; [lia|]); rewrite order_from_cons by lia; cbn [schedule];
    set (id := (prev + 7 * j) mod 16);
    pose proof (next_loop_step fuel group prev id min now (bool_decide (j = 16)) k tc
                  ltac:(by apply Z.mod_pos_bound) Hg Htc) as Hstep;
    pose proof (step_back prev j Hprev ltac:(lia)) as Hb; fold id in Hb.
  - assert (forall m k1, tasks k1 = tasks k -> exists k',
      next_continue fuel group prev id now (bool_decide (j = 16)) m k1 = Done (Idle m, k') /\
      next_post k group (executor_id tc) (Idle m) k') as Hc.
    { intros m k1 Ek. unfold next_continue. rewrite decide_False, bool_decide_eq_true_2 by lia.
      eexists. split; [done|]. cbn. done. }
    replace (j + 1) with 17 by lia. rewrite order_from_end. cbn [schedule].
    destruct (slot_task group (tasks k) id) as [[p t]|]; [destruct (runnable now t)|].
    + done.
    + destruct Hstep as (k1 & E1 & _ & ->). by apply Hc.
    + rewrite Hstep. by apply Hc.
  - assert (forall m k1, tasks k1 = tasks k -> sscratch k1 = sscratch k -> exists k',
      next_continue fuel group prev id now (bool_decide (j = 16)) m k1 =
        Done (schedule group (tasks k) now m (order_from prev (j + 1)), k') /\
      next_post k group (executor_id tc) (schedule group (tasks k) now m (order_from prev (j + 1))) k') as Hc.
    { intros m k1 Ek Es.
      destruct (IH fuel k1 m Hprev ltac:(lia) ltac:(lia) ltac:(by rewrite Ek) ltac:(by rewrite Ek, Es))
        as (k' & E & Hpost). rewrite Ek in E, Hpost.
      replace (16 - Z.of_nat r) with (j + 1) in E, Hpost by lia.
      exists k'. split; [|by eapply next_post_tasks]. rewrite <-E. unfold next_continue.
      assert ((id + 7) mod 16 = (prev + 7 * (j + 1)) mod 16) as Eid
        by (unfold id; rewrite Zplus_mod_idemp_l; f_equal; lia).
      rewrite Eid in *. rewrite (bool_decide_eq_false_2 (j = 16)) by lia.
      destruct (decide ((prev + 7 * (j + 1)) mod 16 = prev)) as [Ed|Ed]; rewrite Hb in Ed;
        [rewrite bool_decide_eq_true_2 by lia|rewrite bool_decide_eq_false_2 by lia]; done. }
    destruct (slot_task group (tasks k) id) as [[p t]|]; [destruct (runnable now t)|].
    + done.
    + destruct Hstep as (k1 & E1 & E2 & ->). by apply Hc.
    + rewrite Hstep. by apply Hc.
Qed.

(** [next] up to its loop: the current task is unclaimed and the root group's
    counter goes up. *)
Lemma Executor_next_eq fuel k cur group c :
  tasks k !! sscratch k = Some cur -> slots (groups k) !! 0 = Some (mkSlot c (VItem group)) ->
  0 < capacity (groups k) -> 0 <= c < usize_MAX ->
  exists k1, tasks k1 = <[sscratch k := with_executor cur u16_MAX]> (tasks k) /\
    sscratch k1 = sscratch k /\ next_id k1 = next_id k /\
    slots (groups k1) !! 0 = Some (mkSlot (c + 1) (VItem group)) /\
    Executor_next fuel k =
      next_loop fuel group (next_id k) (Z.land (wrap 64 (next_id k + 7)) 0xf) u64_MAX (time k) false k1.
Proof.
  intros Hcur Hg Hcap Hc.
  set (k0 := set_tasks k (<[sscratch k := with_executor cur u16_MAX]> (tasks k))).
  exists (set_groups k0 (set_slot (groups k) 0 (mkSlot (c + 1) (VItem group)))).
  split_and!; [done..|cbn; by rewrite lookup_insert_eq|].
  unfold Executor_next, current_task, task_modify, task_write, modify, gets, unwrap, ret, bind, task_read.
  rewrite Hcur. unfold Group_get, on_groups, zoom. cbn [set_tasks groups].
  rewrite (Arena_get_spec 0 group (groups k) c Hg Hcap) by lia. by rewrite decide_False by lia.
Qed.

Lemma Executor_next_spec fuel k cur group c :
  (16 <= fuel)%nat -> 0 <= next_id k < 16 ->
  tasks k !! sscratch k = Some cur -> slots (groups k) !! 0 = Some (mkSlot c (VItem group)) ->
  0 < capacity (groups k) -> 0 <= c < usize_MAX -> group_ok group (tasks k) ->
  let ts := <[sscratch k := with_executor cur u16_MAX]> (tasks k) in
  let r := schedule group ts (time k) u64_MAX (visit_order (next_id k)) in
  exists k1 k', tasks k1 = ts /\ Executor_next fuel k = Done (r, k') /\ next_post k1 group u16_MAX r k'.
Proof.
  intros Hf Hid Hcur Hg Hcap Hc Hok ts r.
  destruct (Executor_next_eq fuel k cur group c Hcur Hg Hcap Hc) as (k1 & E1 & E2 & E3 & _ & E).
  destruct (next_loop_spec 15 fuel group (next_id k) k1 u64_MAX (time k) (with_executor cur u16_MAX))
    as (k' & E' & Hpost); [lia..| | |].
  { rewrite E1. by apply group_ok_insert. }
  { by rewrite E1, E2, lookup_insert_eq. }
  change (16 - Z.of_nat 15) with 1 in *. change (bool_decide (1 = 16)) with false in *.
  rewrite E1 in E', Hpost. exists k1, k'. split_and!; [done| |done].
  rewrite E, next_slot by done. rewrite Z.mul_1_r in E'. exact E'.
Qed.

(** ** What the reference scheduler picks *)

(** Steps of seven visit every slot. *)
Lemma visit_order_all prev id : 0 <= id < 16 -> id ∈ visit_order prev.
Proof.
  intros Hid. unfold visit_order. apply list_elem_of_fmap.
  set (x := 7 * (id - prev) - 1). exists (x mod 16 + 1). rewrite elem_of_seqZ.
  pose proof (Z.mod_pos_bound x 16). split; [|lia].
  replace (prev + 7 * (x mod 16 + 1)) with (id + (3 * (id - prev) - 7 * (x / 16)) * 16)
    by (rewrite Z.mod_eq by lia; lia).
  rewrite Z_mod_plus_full. by rewrite Z.mod_small.
Qed.

Lemma schedule_run group ts now m ids p :
  schedule group ts now m ids = Run p ->
  exists id t, id ∈ ids /\ slot_task group ts id = Some (p, t) /\ runnable now t = true.
Proof.
  revert m. induction ids as [|id ids IH]; intros m; cbn [schedule]; [done|].
  destruct (slot_task group ts id) as [[q t]|] eqn:E; [destruct (runnable now t) eqn:R|].
  - intros [= ->]. exists id, t. split_and!; [left|done..].
  - intros (i & u & ? & ?)%IH. exists i, u. split; [by right|done].
  - intros (i & u & ? & ?)%IH. exists i, u. split; [by right|done].
Qed.

Lemma schedule_idle group ts now m ids until :
  schedule group ts now m ids = Idle until ->
  until <= m /\
  forall id p t, id ∈ ids -> slot_task group ts id = Some (p, t) -> runnable now t = false /\ until <= wait_time t.
Proof.
  revert m. induction ids as [|id ids IH]; intros m; cbn [schedule].
  { intros [= ->]. split; [lia|]. by intros ??? ?%not_elem_of_nil. }
  destruct (slot_task group ts id) as [[q t]|] eqn:E; [destruct (runnable now t) eqn:R; [done|]|];
    intros [Hm Ha]%IH; split; try lia; intros i p u [->|Hi]%elem_of_cons Es; eauto.
  - rewrite E in Es. injection Es as <- <-. split; [done|lia].
  - congruence.
Qed.

(** A previous id that is no slot number is never met again. *)
Lemma next_loop_spins fuel group prev id min now k tc :
  16 <= prev -> 0 <= id < 16 -> group_ok group (tasks k) -> tasks k !! sscratch k = Some tc ->
  (forall i p t, 0 <= i < 16 -> slot_task group (tasks k) i = Some (p, t) -> runnable now t = false) ->
  next_loop fuel group prev id min now false k = OutOfFuel.
Proof.
  revert id min k. induction fuel as [|fuel IH]; intros id min k Hprev Hid Hok Htc Hr; [done|].
  pose proof (next_loop_step fuel group prev id min now false k tc Hid Hok Htc) as Hstep.
  assert (forall m k1, tasks k1 = tasks k -> sscratch k1 = sscratch k ->
    next_continue fuel group prev id now false m k1 = OutOfFuel) as Hc.
  { intros m k1 E1 E2. unfold next_continue. pose proof (Z.mod_pos_bound (id + 7) 16).
    rewrite decide_False by lia. apply IH; rewrite ?E1, ?E2; try done; lia. }
  destruct (slot_task group (tasks k) id) as [[p t]|] eqn:E.
  - rewrite (Hr _ _ _ Hid E) in Hstep. destruct Hstep as (k1 & ? & ? & ->). by apply Hc.
  - rewrite Hstep. by apply Hc.
Qed.

(** It does not keep a runnable task from being found. *)
Lemma next_loop_finds (r : nat) fuel group prev k min now tc p :
  16 <= prev -> (r <= 15)%nat -> (r < fuel)%nat -> group_ok group (tasks k) ->
  tasks k !! sscratch k = Some tc ->
  let j := 16 - Z.of_nat r in
  schedule group (tasks k) now min (order_from prev j) = Run p ->
  exists k', next_loop fuel group prev ((prev + 7 * j) mod 16) min now false k = Done (Run p, k') /\
             next_post k group (executor_id tc) (Run p) k'.
Proof.
  revert fuel k min. induction r as [|r IH]; intros fuel k min Hprev Hr Hf Hg Htc j;
    (destruct fuel as [|fuel]; [lia|]); rewrite order_from_cons by lia; cbn [schedule];
    set (id := (prev + 7 * j) mod 16);
    pose proof (next_loop_step fuel group prev id min now false k tc
                  ltac:(by apply Z.mod_pos_bound) Hg Htc) as Hstep.
  - replace (j + 1) with 17 by lia. rewrite order_from_end. cbn [schedule].
    destruct (slot_task group (tasks k) id) as [[q t]|]; [destruct (runnable now t)|]; [by intros [= <-]|done..].
  - assert (forall m k1, tasks k1 = tasks k -> sscratch k1 = sscratch k ->
      schedule group (tasks k) now m (order_from prev (j + 1)) = Run p -> exists k',
      next_continue fuel group prev id now false m k1 = Done (Run p, k') /\ next_post k group (executor_id tc) (Run p) k') as Hc.
    { intros m k1 Ek Es Hm. pose proof (Z.mod_pos_bound (id + 7) 16).
      destruct (IH fuel k1 m Hprev ltac:(lia) ltac:(lia) ltac:(by rewrite Ek) ltac:(by rewrite Ek, Es)) as (k' & E & Hpost).
      { rewrite Ek. by replace (16 - Z.of_nat r) with (j + 1) by lia. }
      exists k'. split; [|by eapply next_post_tasks]. rewrite <-E. unfold next_continue. rewrite decide_False by lia.
      f_equal. unfold id. rewrite Zplus_mod_idemp_l. f_equal. lia. }
    destruct (slot_task group (tasks k) id) as [[q t]|]; [destruct (runnable now t)|].
    + by intros [= <-].
    + destruct Hstep as (k1 & E1 & E2 & ->). by apply Hc.
    + rewrite Hstep. by apply Hc.
Qed.

Lemma first_slot prev : fits 64 prev -> Z.land (wrap 64 (prev + 7)) 0xf = (prev + 7 * 1) mod 16.
Proof. intros _. rewrite land_15. unfold wrap. rewrite Z.mul_1_r. apply Z.mod_mod_divide. by exists (2 ^ 60). Qed.

(** A runnable task is found from every previous id; without one the hart idles when that is a slot number. *)
Lemma Executor_next_run fuel k cur group c :
  (16 <= fuel)%nat -> fits 64 (next_id k) ->
  tasks k !! sscratch k = Some cur -> slots (groups k) !! 0 = Some (mkSlot c (VItem group)) ->
  0 < capacity (groups k) -> 0 <= c < usize_MAX -> group_ok group (tasks k) ->
  let ts := <[sscratch k := with_executor cur u16_MAX]> (tasks k) in
  let r := schedule group ts (time k) u64_MAX (visit_order (next_id k)) in
  (forall p, r = Run p -> exists k1 k', tasks k1 = ts /\ Executor_next fuel k = Done (Run p, k') /\ next_post k1 group u16_MAX (Run p) k') /\
  (forall until, r = Idle until -> next_id k < 16 -> exists k', Executor_next fuel k = Done (Idle until, k') /\
     sscratch k' = idle_task_stub /\ timer k' = until /\ tasks k' = ts).
Proof.
  intros Hf Hid Hcur Hg Hcap Hc Hok ts r. split.
  - intros p Hr. destruct (decide (next_id k < 16)) as [Hlt|Hge].
    + destruct (Executor_next_spec fuel k cur group c Hf ltac:(unfold fits in *; lia) Hcur Hg Hcap Hc Hok) as (k1 & k' & E1 & E & Hpost).
      fold ts in E1, E, Hpost. fold r in E, Hpost. rewrite Hr in E, Hpost. by exists k1, k'.
    + destruct (Executor_next_eq fuel k cur group c Hcur Hg Hcap Hc) as (k1 & E1 & E2 & E3 & _ & E).
      destruct (next_loop_finds 15 fuel group (next_id k) k1 u64_MAX (time k) (with_executor cur u16_MAX) p) as (k' & E' & Hpost); [lia..| | | |].
      { rewrite E1. by apply group_ok_insert. }
      { by rewrite E1, E2, lookup_insert_eq. }
      { rewrite E1. exact Hr. }
      exists k1, k'. split_and!; [done| |done]. rewrite E, first_slot by done. exact E'.
  - intros w Hr Hlt. destruct (Executor_next_spec fuel k cur group c Hf ltac:(unfold fits in *; lia) Hcur Hg Hcap Hc Hok) as (k1 & k' & E1 & E & Hpost).
    fold ts in E1, E, Hpost. fold r in E, Hpost. rewrite Hr in E, Hpost. destruct Hpost as (Ek & Es & Et). exists k'. split_and!; [done..|]. by rewrite Ek.
Qed.

(** With a larger previous id and no runnable task every number of rounds is too small. *)
Lemma Executor_next_never fuel k cur group c :
  16 <= next_id k -> fits 64 (next_id k) ->
  tasks k !! sscratch k = Some cur -> slots (groups k) !! 0 = Some (mkSlot c (VItem group)) ->
  0 < capacity (groups k) -> 0 <= c < usize_MAX -> group_ok group (tasks k) ->
  (forall i p t, 0 <= i < 16 -> slot_task group (<[sscratch k := with_executor cur u16_MAX]> (tasks k)) i = Some (p, t) ->
     runnable (time k) t = false) ->
  Executor_next fuel k = OutOfFuel.
Proof.
  intros Hid Hfit Hcur Hg Hcap Hc Hok Hr.
  destruct (Executor_next_eq fuel k cur group c Hcur Hg Hcap Hc) as (k1 & E1 & E2 & _ & _ & ->).
  eapply next_loop_spins; [done| | | |]; rewrite ?E1, ?E2.
  - rewrite first_slot by done. apply Z.mod_pos_bound. lia.
  - by apply group_ok_insert.
  - by rewrite lookup_insert_eq.
  - done.
Qed.
End executor.

(** A kernel with two tasks, of which the second sleeps. *)
Definition two_tasks (prev : Z) (w0 w1 : Z) : Kernel Pmm unit :=
  mkKernel (machine_with [10])
    (<[100 := with_wait_time (new_task_data 5 4096) w0]> {[ 200 := with_wait_time (new_task_data 6 4096) w1 ]})
    (mkArena 4096 {[ 0 := mkSlot 0 (VItem (100 :: 200 :: replicate 14 0)) ]} usize_MAX 1 256)
    4096 prev 100 1000 0 tt.

Lemma two_tasks_slots id p : Group_task (100 :: 200 :: replicate 14 0) id = Ok p -> p = 100 \/ p = 200.
Proof.
  unfold Group_task. destruct (nth_z _ id) as [q|] eqn:E; [|done]. case_decide; [done|].
  intros [= <-]. apply nth_z_elem in E. cbn [replicate] in E.
  repeat (apply elem_of_cons in E as [->|E]; [tauto|]). by apply elem_of_nil in E.
Qed.

Lemma two_tasks_ok prev w0 w1 : group_ok (100 :: 200 :: replicate 14 0) (tasks (two_tasks prev w0 w1)).
Proof. intros id p [-> | ->]%two_tasks_slots; by eexists. Qed.

(** C6: what the scheduler does, for every previous id.  With a root group whose pointers are tasks, a task that
    can be run is found within sixteen rounds, and it is the first one in the order of steps of seven: it
    is in a slot of the group, its wake-up time has passed and nobody had claimed it, and the hart's
    current task and NEXT_ID name it; but it is not marked as claimed, its executor id is still the free
    value.  When no slot holds such a task, a previous id below sixteen makes the hart idle, with
    the timer at or before every task's wake-up time; a larger one, which [executor_get_task] stores for
    an address outside group 0, makes the search go on for ever. *)
Theorem executor_next_picks {A U : Type} `{FrameAllocator A} (stub : Z) (fuel : nat)
    (k : Kernel A U) (cur : TaskData) (group : GroupData) (c : Z) :
  (16 <= fuel)%nat -> fits 64 (next_id k) ->
  tasks k !! sscratch k = Some cur -> slots (groups k) !! 0 = Some (mkSlot c (VItem group)) ->
  0 < capacity (groups k) -> 0 <= c < usize_MAX -> group_ok group (tasks k) ->
  let ts := <[sscratch k := with_executor cur u16_MAX]> (tasks k) in
  match schedule group ts (time k) u64_MAX (visit_order (next_id k)) with
  | Run p => exists k', Executor_next stub fuel k = Done (Run p, k') /\ sscratch k' = p /\ Group_task group (next_id k') = Ok p /\
      exists t, ts !! p = Some t /\ runnable (time k) t = true /\ executor_id <$> tasks k' !! p = Some u16_MAX
  | Idle until => (forall id p t, 0 <= id < 16 -> slot_task group ts id = Some (p, t) -> runnable (time k) t = false /\ until <= wait_time t) /\
      if decide (next_id k < 16)
      then exists k', Executor_next stub fuel k = Done (Idle until, k') /\ sscratch k' = stub /\ timer k' = until /\ tasks k' = ts
      else forall rounds, Executor_next stub rounds k = OutOfFuel
  end.
Proof.
  intros Hf Hid Hcur Hg Hcap Hc Hok ts. destruct (Executor_next_run stub fuel k cur group c Hf Hid Hcur Hg Hcap Hc Hok) as [Hrun Hidle]. fold ts in Hrun, Hidle.
  destruct (schedule group ts (time k) u64_MAX (visit_order (next_id k))) as [p|until] eqn:Er.
  - destruct (Hrun p eq_refl) as (k1 & k' & E1 & E & Hpost). exists k'. split; [done|]. unfold next_post in Hpost. rewrite E1 in Hpost.
    destruct Hpost as (t & Ht & Ek & Es & Eg). destruct (schedule_run _ _ _ _ _ _ Er) as (id & u & _ & Hu & Hr).
    unfold slot_task in Hu. destruct (Group_task group id) as [q|]; [|done].
    destruct (ts !! q) as [v|] eqn:Ev; [|done]. cbn in Hu. injection Hu as -> ->.
    split_and!; [done..|]. exists u. split_and!; [done..|]. by rewrite Ek, lookup_insert_eq.
  - assert (forall id p t, 0 <= id < 16 -> slot_task group ts id = Some (p, t) -> runnable (time k) t = false /\ until <= wait_time t) as Hno.
    { intros id p t Hi. apply (schedule_idle _ _ _ _ _ _ Er). by apply visit_order_all. }
    split; [exact Hno|]. case_decide as Hlt; [by apply Hidle|]. intros rounds. apply (Executor_next_never stub rounds k cur group c); try done; [lia|].
    intros i p t Hi Hs. by destruct (Hno i p t Hi Hs).
Qed.

Lemma executor_next_picks_witness :
  (exists k', Executor_next (A := Pmm) 300 16 (two_tasks (2 ^ 16) 2000 500) = Done (Run 200, k') /\ executor_id <$> tasks k' !! 200 = Some u16_MAX) /\
  forall rounds, Executor_next (A := Pmm) 300 rounds (two_tasks (2 ^ 16) 2000 3000) = OutOfFuel.
Proof.
  split.
  - destruct (executor_next_picks 300 16 (two_tasks (2 ^ 16) 2000 500) (with_wait_time (new_task_data 5 4096) 2000)
                (100 :: 200 :: replicate 14 0) 0) as (k' & E & _ & _ & t & _ & _ & Ht).
    + lia.
    + split; cbn; lia.
    + reflexivity.
    + reflexivity.
    + cbn. lia.
    + unfold usize_MAX. lia.
    + apply two_tasks_ok.
    + exists k'. split; [exact E|exact Ht].
  - destruct (executor_next_picks 300 16 (two_tasks (2 ^ 16) 2000 3000) (with_wait_time (new_task_data 5 4096) 2000)
                (100 :: 200 :: replicate 14 0) 0) as [_ Hno].
    + lia.
    + split; cbn; lia.
    + reflexivity.
    + reflexivity.
    + cbn. lia.
    + unfold usize_MAX. lia.
    + apply two_tasks_ok.
    + exact Hno.
Defined.
