(* ===== verification/Ipc.v ===== *)
(** * Inter-task communication (src/kernel/src/task/ipc.rs)

    A task's packet table lies in its own memory: [count] packets of 64 bytes,
    then three arrays of 16-bit numbers, each after a 16-bit header: the transmit
    ring, the receive ring and the stack of free slots, whose header is both the
    top of the stack and its lock.  [process_packets] copies each transmitted
    packet to the receiver's table, which it reaches by switching address spaces,
    and shares the pages of the packet's data and name.

    Permission to touch user pages ([set_supervisor_userpage_access]) has no
    effect in the model.  The locks are taken by one hart at a time: a
    compare-exchange succeeds when the value is the expected one. *)

From S2P Require Import Prelude Page Ppn Allocator Reserved Sv39Entry Sv39 Sv39Walk Sv39Spec.
From S2P Require Import UserMem Arena Task.

(** [Option<NonNull<_>>] and [Option<NonZeroU8>] are 0 for [None]. *)
Record Packet : Type := mkPacket {
  pk_uuid : Z * Z;
  pk_data : Z;
  pk_name : Z;
  pk_data_offset : Z;
  pk_data_length : Z;
  pk_address : Z;
  pk_flags : Z;
  pk_name_length : Z;
  pk_id : Z;
  pk_opcode : Z
}.

Definition READABLE : Z := 0x1.
Definition WRITEABLE : Z := 0x2.
Definition EXECUTABLE : Z := 0x4.
Definition LOCK : Z := 0x8.

Definition Flags_readable (f : Z) : bool := bool_decide (Z.land f READABLE > 0).
Definition Flags_writeable (f : Z) : bool := bool_decide (Z.land f WRITEABLE > 0).
Definition Flags_executable (f : Z) : bool := bool_decide (Z.land f EXECUTABLE > 0).
Definition Flags_lock (f : Z) : bool := bool_decide (Z.land f LOCK > 0).

Inductive TooLarge : Type := TooLarge_.
Inductive PopFreeSlotError : Type := Pop_LockTimeout | Pop_NoFreeSlots.
Inductive PushFreeSlotError : Type := Push_LockTimeout | Push_Full.

Definition IPC_new (packets mask_bits free_pages max_free_pages : Z) : result IPC TooLarge :=
  if decide (mask_bits <= 15)
  then Ok (mkIPC packets 0 (wrap 16 (Z.shiftl 1 mask_bits - 1)) free_pages max_free_pages)
  else Err TooLarge_.

Definition IPC_len (ipc : IPC) : Z := wrap 16 (ring_mask ipc + 1).

(** The layout of the table. *)
Definition transmit_base (ipc : IPC) : Z := packets ipc + 64 * IPC_len ipc.
Definition received_base (ipc : IPC) : Z := transmit_base ipc + 2 * (1 + IPC_len ipc).
Definition free_base (ipc : IPC) : Z := transmit_base ipc + 2 * ((1 + IPC_len ipc) * 2).

Section memory.
Context {A : Type} `{FrameAllocator A}.

(** Indexing a slice of [count] 16-bit numbers. *)
Definition slice_get (base count i : Z) : M (Machine A) Z :=
  if decide (0 <= i < count) then load_n 2 (base + 2 * i) else panic "index out of bounds".

Definition slice_set (base count i v : Z) : M (Machine A) unit :=
  if decide (0 <= i < count) then store_n 2 (base + 2 * i) v else panic "index out of bounds".

(** [packet]: the address of a packet. *)
Definition IPC_packet (ipc : IPC) (index : Z) : option Z :=
  if decide (index <= ring_mask ipc) then Some (packets ipc + 64 * index) else None.

Definition read_packet (a : Z) : M (Machine A) Packet :=
  let* u0 := load_n 8 a in
  let* u1 := load_n 8 (a + 8) in
  let* data := load_n 8 (a + 16) in
  let* name := load_n 8 (a + 24) in
  let* data_offset := load_n 8 (a + 32) in
  let* data_length := load_n 8 (a + 40) in
  let* address := load_n 8 (a + 48) in
  let* flags := load_n 2 (a + 56) in
  let* name_length := load_n 2 (a + 58) in
  let* id := load_n 1 (a + 60) in
  let* opcode := load_n 1 (a + 61) in
  ret (mkPacket (u0, u1) data name data_offset data_length address flags name_length id opcode).

Definition write_packet (a : Z) (p : Packet) : M (Machine A) unit :=
  store_n 8 a (pk_uuid p).1 ;;
  store_n 8 (a + 8) (pk_uuid p).2 ;;
  store_n 8 (a + 16) (pk_data p) ;;
  store_n 8 (a + 24) (pk_name p) ;;
  store_n 8 (a + 32) (pk_data_offset p) ;;
  store_n 8 (a + 40) (pk_data_length p) ;;
  store_n 8 (a + 48) (pk_address p) ;;
  store_n 2 (a + 56) (pk_flags p) ;;
  store_n 2 (a + 58) (pk_name_length p) ;;
  store_n 1 (a + 60) (pk_id p) ;;
  store_n 1 (a + 61) (pk_opcode p).

(** ** The stack of free slots *)

(** Waiting for the lock: thirty more looks. *)
Fixpoint lock_wait (counter : nat) (addr val : Z) : M (Machine A) (option Z) :=
  if decide (val = u16_MAX) then
    match counter with
    | O => ret None
    | S counter => let* val := load_n 2 addr in lock_wait counter addr val
    end
  else ret (Some val).

(** The closure gets the top and returns its result and the new top. *)
Definition lock_free_stack {R} (ipc : IPC) (f : Z -> M (Machine A) (R * Z)) : M (Machine A) (option R) :=
  let addr := free_base ipc in
  let* val := load_n 2 addr in
  let* o := lock_wait 30 addr val in
  match o with
  | None => ret None
  | Some v =>
    store_n 2 addr u16_MAX ;;
    let* '(r, v) := f v in
    store_n 2 addr v ;;
    ret (Some r)
  end.

Definition pop_free_slot (ipc : IPC) : M (Machine A) (result Z PopFreeSlotError) :=
  let* o := lock_free_stack ipc (fun top =>
    match checked_sub top 1 with
    | Some tv =>
      let* x := slice_get (free_base ipc + 2) (IPC_len ipc) tv in
      ret (Ok x, tv)
    | None => ret (Err Pop_NoFreeSlots, top)
    end) in
  ret (default (Err Pop_LockTimeout) o).

Definition push_free_slot (ipc : IPC) (slot : Z) : M (Machine A) (result unit PushFreeSlotError) :=
  let* o := lock_free_stack ipc (fun top =>
    if decide (top <= ring_mask ipc) then
      slice_set (free_base ipc + 2) (IPC_len ipc) top slot ;;
      ret (Ok tt, wrap 16 (top + 1))
    else ret (Err Push_Full, top)) in
  ret (default (Err Push_LockTimeout) o).

(** ** Free address ranges *)

(** The loop over the [FreePage] entries: an address and a count, 16 bytes. *)
Fixpoint pop_free_range_loop (n : nat) (fp size : Z) : M (Machine A) (option Page) :=
  match n with
  | O => ret None
  | S n =>
    let* addr := load_n 8 fp in
    if decide (addr = 0) then pop_free_range_loop n (fp + 16) size else
    let* count := load_n 8 (fp + 8) in
    match checked_sub count size with
    | None => pop_free_range_loop n (fp + 16) size
    | Some remaining =>
      store_n 8 (fp + 8) remaining ;;
      ret (match Page_new addr with Ok p => Page_skip p remaining | Err _ => None end)
    end
  end.

Definition pop_free_range (ipc : IPC) (size : Z) : M (Machine A) (option Page) :=
  pop_free_range_loop (Z.to_nat (max_free_pages ipc)) (free_pages ipc) size.

(** [for i in 0..count { vm.share(rx.skip(i), tx.skip(i), ...) }] *)
Fixpoint share_pages (n : nat) (i vm : Z) (rx tx : Page) (rwx : RWX) : M (Machine A) unit :=
  match n with
  | O => ret tt
  | S n =>
    let* to := unwrap "called `Option::unwrap()` on a `None` value" (Page_skip rx i) in
    let* from := unwrap "called `Option::unwrap()` on a `None` value" (Page_skip tx i) in
    let* r := share vm to from rwx UserLocal in
    unwrap_ok "called `Result::unwrap()` on an `Err` value" r ;;
    share_pages n (i + 1) vm rx tx rwx
  end.
End memory.

(** ** Transmitting *)

Section kernel.
Context {A U : Type} `{FrameAllocator A}.

(** The pages to share for a pointer of the packet: the sender's first page, the
    receiver's, and their number. *)
Definition map_pointer (ipc : IPC) (ptr bytes : Z) : M (Kernel A U) (option (Page * Page * Z)) :=
  if decide (ptr = 0) then ret None else
  let* page := unwrap_ok "called `Result::unwrap()` on an `Err` value" (Page_new ptr) in
  let count := min_pages_for_byte_count bytes in
  let* o := on_machine (pop_free_range ipc count) in
  let* rx := unwrap "called `Option::unwrap()` on a `None` value" o in
  ret (Some (page, rx, count)).

Definition share_mapping (vm : Z) (m : option (Page * Page * Z)) (rwx : RWX) : M (Kernel A U) unit :=
  match m with
  | Some (tx, rx, count) => on_machine (share_pages (Z.to_nat count) 0 vm rx tx rwx)
  | None => ret tt
  end.

Definition rx_pointer (m : option (Page * Page * Z)) : Z :=
  match m with Some (_, rx, _) => rx | None => 0 end.

(** One turn of the loop of [process_packets]; [false] is [break]. *)
Definition process_packet (slf : Z) (ipc : IPC) (slf_address last_transmit_index : Z)
  : M (Kernel A U) bool :=
  let tx_pkt_slot := Z.land last_transmit_index (ring_mask ipc) in
  let* index := on_machine (slice_get (transmit_base ipc + 2) (IPC_len ipc) tx_pkt_slot) in
  let* tx_addr := unwrap "called `Option::unwrap()` on a `None` value" (IPC_packet ipc index) in
  let* tx_pkt := on_machine (read_packet tx_addr) in
  if decide (pk_address tx_pkt = slf_address) then panic "can't transmit to self" else
  let* group := pureO (Address_group (pk_address tx_pkt)) in
  let* tid := pureO (Address_task (pk_address tx_pkt)) in
  let* g := Group_get group in
  let* data := unwrap "called `Option::unwrap()` on a `None` value" g in
  let* task := unwrap_ok "called `Result::unwrap()` on an `Err` value" (Group_task data tid) in
  Group_drop group ;;
  let* t := task_read task in
  on_machine (activate (virtual_memory t)) ;;
  match Task.ipc t with
  | None =>
    task_modify slf (fun t => with_wait_time t 0) ;;
    ret false
  | Some task_ipc =>
    let* r := on_machine (pop_free_slot task_ipc) in
    let* rx_pkt_slot := unwrap_ok "called `Result::unwrap()` on an `Err` value" r in
    let* tx_rx_data := map_pointer task_ipc (pk_data tx_pkt) (pk_data_length tx_pkt) in
    let* tx_rx_name := map_pointer task_ipc (pk_name tx_pkt) (pk_name_length tx_pkt) in
    let* rx_index := on_machine (load_n 2 (received_base task_ipc)) in
    on_machine (slice_set (received_base task_ipc + 2) (IPC_len task_ipc)
                  (Z.land rx_index (ring_mask task_ipc)) rx_pkt_slot) ;;
    let* rx_addr := unwrap "called `Option::unwrap()` on a `None` value" (IPC_packet task_ipc rx_pkt_slot) in
    on_machine (write_packet rx_addr
      (mkPacket (pk_uuid tx_pkt) (rx_pointer tx_rx_data) (rx_pointer tx_rx_name) (pk_data_offset tx_pkt)
         (pk_data_length tx_pkt) slf_address (pk_flags tx_pkt) (pk_name_length tx_pkt) (pk_id tx_pkt)
         (pk_opcode tx_pkt))) ;;
    let* rx_index := on_machine (load_n 2 (received_base task_ipc)) in
    on_machine (store_n 2 (received_base task_ipc) (wrap 16 (rx_index + 1))) ;;
    task_modify task (fun t => with_wait_time t 0) ;;
    let* s := task_read slf in
    on_machine (activate (virtual_memory s)) ;;
    let* t := task_read task in
    share_mapping (virtual_memory t) tx_rx_data RWX_RW ;;
    share_mapping (virtual_memory t) tx_rx_name RWX_R ;;
    let* r := on_machine (push_free_slot ipc tx_pkt_slot) in
    unwrap_ok "called `Result::unwrap()` on an `Err` value" r ;;
    ret true
  end.

(** [while last_transmit_index != tx_index]; the last index is returned. *)
Fixpoint process_loop (fuel : nat) (slf : Z) (ipc : IPC) (slf_address tx_index last : Z) : M (Kernel A U) Z :=
  if decide (last = tx_index) then ret last else
  match fuel with
  | O => fun _ => OutOfFuel
  | S fuel =>
    let* continue_ := process_packet slf ipc slf_address last in
    if continue_ : bool then process_loop fuel slf ipc slf_address tx_index (wrap 16 (last + 1))
    else ret last
  end.

(** The indices are 16-bit numbers, so the distance between them is enough fuel. *)
Definition process_packets (slf : Z) (ipc : IPC) (slf_address : Z) : M (Kernel A U) unit :=
  let* s := task_read slf in
  on_machine (activate (virtual_memory s)) ;;
  let* tx_index := on_machine (load_n 2 (transmit_base ipc)) in
  let start := last_transmit_index ipc in
  let* last := process_loop (Z.to_nat (wrap 16 (tx_index - start))) slf ipc slf_address tx_index start in
  task_modify slf (fun t => with_ipc t
    (Some (mkIPC (packets ipc) last (ring_mask ipc) (free_pages ipc) (max_free_pages ipc)))).

Definition process_io (slf slf_address : Z) : M (Kernel A U) unit :=
  let* t := task_read slf in
  match Task.ipc t with
  | Some ipc => process_packets slf ipc slf_address
  | None => ret tt
  end.
End kernel.

(** ** The free slots are a bounded stack *)

(** What [IPC::new] makes. *)
Definition ipc_ok (ipc : IPC) : Prop := exists b, 0 <= b <= 15 /\ ring_mask ipc = 2 ^ b - 1.

Lemma ipc_ok_len ipc : ipc_ok ipc -> IPC_len ipc = ring_mask ipc + 1 /\ 1 <= IPC_len ipc <= 2 ^ 15.
Proof.
  intros (b & Hb & E). unfold IPC_len. rewrite E.
  assert (2 ^ b <= 2 ^ 15) by (apply Z.pow_le_mono_r; lia).
  assert (0 < 2 ^ b) by lia. rewrite wrap_small by (unfold fits; lia). lia.
Qed.

Lemma IPC_new_ok p b fp n ipc : 0 <= b -> IPC_new p b fp n = Ok ipc -> ipc_ok ipc.
Proof.
  intros Hb. unfold IPC_new. case_decide; [|done]. intros [= <-]. exists b. split; [lia|]. cbn.
  assert (2 ^ b <= 2 ^ 15) by (apply Z.pow_le_mono_r; lia).
  rewrite Z.shiftl_1_l, wrap_small by (unfold fits; lia). done.
Qed.

Section free_stack.
Context {A : Type} `{FrameAllocator A} (ipc : IPC) (Hipc : ipc_ok ipc).
Implicit Types s : Machine A.

Abbreviation base := (free_base ipc).
Abbreviation len := (IPC_len ipc).

(** The slots in the stack, bottom first. *)
Definition free_repr s (l : list Z) : Prop :=
  area s 2 base (1 + len) /\ exists junk, cells s 2 base (1 + len) = zlen l :: l ++ junk.

Lemma free_repr_len s l : free_repr s l -> zlen l <= len.
Proof using Hipc.
  destruct (ipc_ok_len ipc Hipc) as [_ Hl]. intros [_ [junk E]]. apply (f_equal zlen) in E.
  rewrite zlen_cells in E by lia. autorewrite with zlen in E. pose proof (zlen_nonneg junk). lia.
Qed.

Lemma lock_wait_free n addr val s : val <> u16_MAX -> lock_wait n addr val s = Done (Some val, s).
Proof. intros. destruct n; cbn; by rewrite decide_False. Qed.

(** With the lock free, the closure runs with the header set to the lock value. *)
Lemma lock_free_stack_eq {R} (f : Z -> M (Machine A) (R * Z)) s top rest :
  area s 2 base (1 + len) -> cells s 2 base (1 + len) = top :: rest -> top <> u16_MAX ->
  exists s1, data_only s s1 /\ cells s1 2 base (1 + len) = u16_MAX :: rest /\
    lock_free_stack ipc f s = (let* '(r, v) := f top in store_n 2 base v ;; ret (Some r)) s1.
Proof using Hipc.
  intros Ha Hc Ht. destruct (ipc_ok_len ipc Hipc) as [_ Hl].
  destruct (store_cell 2 ltac:(by right; left) s base (1 + len) 0 u16_MAX Ha ltac:(lia)) as (s1 & E & Hd & Hc1).
  rewrite Hc, set_z_0 in Hc1. replace (base + 2 * 0) with base in E by lia.
  exists s1. split; [done|]. split; [done|].
  assert (load_n 2 base s = Done (top, s)) as El.
  { replace base with (base + 2 * 0) by lia. apply (load_nth 2 s base (1 + len)); [done|]. by rewrite Hc. }
  unfold lock_free_stack. unfold bind at 1. rewrite El. unfold bind at 1. rewrite lock_wait_free by done.
  unfold bind at 1. by rewrite E.
Qed.

(** A closure that keeps to the stack's cells. *)
Lemma lock_free_stack_spec {R} (f : Z -> M (Machine A) (R * Z)) s l l' (r : R) :
  free_repr s l -> zlen l' <= len ->
  (forall s1 junk, area s1 2 base (1 + len) -> cells s1 2 base (1 + len) = u16_MAX :: l ++ junk ->
     exists s2 junk', f (zlen l) s1 = Done ((r, zlen l'), s2) /\ data_only s1 s2 /\
                      cells s2 2 base (1 + len) = u16_MAX :: l' ++ junk') ->
  exists s', lock_free_stack ipc f s = Done (Some r, s') /\ free_repr s' l' /\ data_only s s'.
Proof using Hipc.
  intros Hr Hl' Hf. pose proof (free_repr_len s l Hr) as Hle. destruct (ipc_ok_len ipc Hipc) as [_ Hl].
  pose proof (zlen_nonneg l). pose proof (zlen_nonneg l'). destruct Hr as [Ha [junk Hc]].
  destruct (lock_free_stack_eq f s (zlen l) (l ++ junk) Ha Hc ltac:(unfold u16_MAX; lia))
    as (s1 & Hd1 & Hc1 & ->).
  pose proof (area_data s s1 2 base (1 + len) Hd1 Ha) as Ha1.
  destruct (Hf s1 junk Ha1 Hc1) as (s2 & junk' & E & Hd2 & Hc2).
  pose proof (area_data s1 s2 2 base (1 + len) Hd2 Ha1) as Ha2.
  destruct (store_cell 2 ltac:(by right; left) s2 base (1 + len) 0 (zlen l') Ha2 ltac:(lia))
    as (s3 & E3 & Hd3 & Hc3).
  replace (base + 2 * 0) with base in E3 by lia. rewrite Z.mod_small in Hc3 by lia.
  exists s3. unfold bind. rewrite E. cbv beta iota. rewrite E3. split; [done|].
  split; [split|eauto using data_only_trans].
  - by apply (area_data s2).
  - exists junk'. by rewrite Hc3, Hc2.
Qed.

(** Reading and writing a slot of the stack. *)
Lemma free_slot_get s l x junk h :
  area s 2 base (1 + len) -> cells s 2 base (1 + len) = h :: l ++ x :: junk ->
  slice_get (base + 2) len (zlen l) s = Done (x, s).
Proof using Hipc.
  intros Ha Hc. destruct (ipc_ok_len ipc Hipc) as [_ Hl]. pose proof (zlen_nonneg l).
  pose proof (f_equal zlen Hc) as Hz. rewrite zlen_cells in Hz by lia. autorewrite with zlen in Hz.
  pose proof (zlen_nonneg junk). unfold slice_get. rewrite decide_True by lia.
  replace (base + 2 + 2 * zlen l) with (base + 2 * (1 + zlen l)) by lia.
  apply (load_nth 2 s base (1 + len)); [done|]. by rewrite Hc, nth_z_cons, nth_z_middle by lia.
Qed.

Lemma free_slot_set s l x junk h v :
  area s 2 base (1 + len) -> cells s 2 base (1 + len) = h :: l ++ x :: junk -> fits 16 v ->
  exists s', slice_set (base + 2) len (zlen l) v s = Done (tt, s') /\ data_only s s' /\
    cells s' 2 base (1 + len) = h :: l ++ v :: junk.
Proof using Hipc.
  intros Ha Hc Hv. destruct (ipc_ok_len ipc Hipc) as [_ Hl]. pose proof (zlen_nonneg l).
  pose proof (f_equal zlen Hc) as Hz. rewrite zlen_cells in Hz by lia. autorewrite with zlen in Hz.
  pose proof (zlen_nonneg junk). unfold slice_set. rewrite decide_True by lia.
  destruct (store_cell 2 ltac:(by right; left) s base (1 + len) (1 + zlen l) v Ha ltac:(lia))
    as (s' & E & Hd & Hc').
  replace (base + 2 + 2 * zlen l) with (base + 2 * (1 + zlen l)) by lia.
  exists s'. split; [done|]. split; [done|].
  rewrite Hc', Hc, set_z_cons, set_z_app, Z.mod_small by (done || lia). done.
Qed.

Lemma push_free_slot_spec s l slot :
  free_repr s l -> fits 16 slot ->
  exists s', push_free_slot ipc slot s =
      Done (if decide (zlen l < len) then Ok tt else Err Push_Full, s') /\
    free_repr s' (if decide (zlen l < len) then l ++ [slot] else l) /\ data_only s s'.
Proof using Hipc.
  intros Hr Hf. pose proof (free_repr_len s l Hr) as Hle. destruct (ipc_ok_len ipc Hipc) as [Hm Hl].
  pose proof (zlen_nonneg l) as Hn. unfold push_free_slot.
  match goal with |- context [lock_free_stack ipc ?g] => set (f := g) end.
  destruct (lock_free_stack_spec f s l (if decide (zlen l < len) then l ++ [slot] else l)
              (if decide (zlen l < len) then Ok tt else Err Push_Full) Hr) as (s' & E & Hs').
  - case_decide; autorewrite with zlen; lia.
  - intros s1 junk Ha Hc. unfold f. destruct (decide (zlen l < len)) as [Hlt|Hge].
    + rewrite decide_True by lia. destruct junk as [|x junk].
      { apply (f_equal zlen) in Hc. rewrite zlen_cells in Hc by lia. autorewrite with zlen in Hc. lia. }
      destruct (free_slot_set s1 l x junk _ slot Ha Hc Hf) as (s2 & E & Hd & Hc2).
      exists s2, junk. unfold bind. rewrite E. autorewrite with zlen.
      rewrite wrap_small by (unfold fits; lia). rewrite <-app_assoc.
      split; [unfold ret; do 3 f_equal; lia|done].
    + rewrite decide_False by lia. exists s1, junk. split; [done|]. by split.
  - exists s'. unfold bind. by rewrite E.
Qed.

Lemma pop_free_slot_spec s l :
  free_repr s l ->
  exists s', pop_free_slot ipc s =
      Done (match last l with Some x => Ok x | None => Err Pop_NoFreeSlots end, s') /\
    free_repr s' (removelast l) /\ data_only s s'.
Proof using Hipc.
  intros Hr. pose proof (free_repr_len s l Hr) as Hle. destruct (ipc_ok_len ipc Hipc) as [Hm Hl].
  unfold pop_free_slot.
  match goal with |- context [lock_free_stack ipc ?g] => set (f := g) end.
  destruct (lock_free_stack_spec f s l (removelast l)
              (match last l with Some x => Ok x | None => Err Pop_NoFreeSlots end) Hr) as (s' & E & Hs').
  - destruct (last_snoc_inv l) as [->|(l' & p & ->)]; [done|].
    rewrite removelast_last. autorewrite with zlen in Hle. pose proof (zlen_nonneg [p]). lia.
  - intros s1 junk Ha Hc. unfold f, checked_sub.
    destruct (last_snoc_inv l) as [->|(l' & p & ->)].
    + exists s1, junk. by split.
    + rewrite removelast_last, last_snoc. autorewrite with zlen.
      pose proof (zlen_nonneg l'). rewrite decide_True by lia.
      replace (zlen l' + (1 + 0) - 1) with (zlen l') by lia. rewrite <-app_assoc in Hc.
      exists s1, (p :: junk). unfold bind. rewrite (free_slot_get s1 l' p junk _ Ha Hc). done.
  - exists s'. unfold bind. by rewrite E.
Qed.
End free_stack.

(** A request and its answer. *)
Inductive slot_op : Type := PushSlot (slot : Z) | PopSlot.
Inductive slot_ret : Type := Pushed (r : result unit PushFreeSlotError) | Popped (r : result Z PopFreeSlotError).

Definition slot_step {A} (ipc : IPC) (op : slot_op) : M (Machine A) slot_ret :=
  match op with
  | PushSlot x => let* r := push_free_slot ipc x in ret (Pushed r)
  | PopSlot => let* r := pop_free_slot ipc in ret (Popped r)
  end.

Fixpoint slot_run {A} (ipc : IPC) (ops : list slot_op) : M (Machine A) (list slot_ret) :=
  match ops with
  | [] => ret []
  | op :: ops => let* r := slot_step ipc op in let* rs := slot_run ipc ops in ret (r :: rs)
  end.

(** A stack of at most [n] numbers. *)
Definition bounded_step (n : Z) (l : list Z) (op : slot_op) : slot_ret * list Z :=
  match op with
  | PushSlot x => if decide (zlen l < n) then (Pushed (Ok tt), l ++ [x]) else (Pushed (Err Push_Full), l)
  | PopSlot => (Popped (match last l with Some x => Ok x | None => Err Pop_NoFreeSlots end), removelast l)
  end.

Fixpoint bounded_run (n : Z) (l : list Z) (ops : list slot_op) : list slot_ret * list Z :=
  match ops with
  | [] => ([], l)
  | op :: ops =>
    let '(r, l) := bounded_step n l op in
    let '(rs, l) := bounded_run n l ops in (r :: rs, l)
  end.

Definition op_fits (op : slot_op) : Prop := match op with PushSlot x => fits 16 x | PopSlot => True end.

Lemma slot_step_refines {A} ipc (s : Machine A) l op :
  ipc_ok ipc -> free_repr ipc s l -> op_fits op ->
  exists s', slot_step ipc op s = Done ((bounded_step (IPC_len ipc) l op).1, s') /\
    free_repr ipc s' (bounded_step (IPC_len ipc) l op).2 /\ data_only s s'.
Proof.
  intros Hi Hr Ho. destruct op as [x|]; cbn [slot_step bounded_step].
  - destruct (push_free_slot_spec ipc Hi s l x Hr Ho) as (s' & E & Hs').
    exists s'. unfold bind. rewrite E. by case_decide.
  - destruct (pop_free_slot_spec ipc Hi s l Hr) as (s' & E & Hs'). exists s'. unfold bind. by rewrite E.
Qed.

Lemma data_only_refl {A} (s : Machine A) : data_only s s.
Proof. by constructor. Qed.

(** ** Free ranges *)

(** The entries as they lie in memory. *)
Fixpoint flat (l : list (Z * Z)) : list Z :=
  match l with [] => [] | (a, c) :: l => a :: c :: flat l end.

(** The search on a list of entries. *)
Fixpoint ranges_pop (l : list (Z * Z)) (size : Z) : option Page * list (Z * Z) :=
  match l with
  | [] => (None, [])
  | (a, c) :: l =>
    if decide (a = 0 \/ c < size) then
      let '(r, l') := ranges_pop l size in (r, (a, c) :: l')
    else (match Page_new a with Ok p => Page_skip p (c - size) | Err _ => None end, (a, c - size) :: l)
  end.

(** The pages of an entry, and of a range handed out. *)
Definition range_pages (p n : Z) : list Z := (fun k => p + PAGE_SIZE * k) <$> seqZ 0 n.
Definition entry_pages (e : Z * Z) : list Z := if decide (e.1 = 0) then [] else range_pages e.1 e.2.
Definition all_pages (l : list (Z * Z)) : list Z := concat (entry_pages <$> l).
Definition got (r : option Page) (n : Z) : list Z := match r with Some p => range_pages p n | None => [] end.

(** An entry a task may set up: a page and a count that does not reach the end
    of the address space. *)
Definition entry_ok (e : Z * Z) : Prop :=
  0 <= e.2 < 2 ^ 64 /\ (e.1 = 0 \/ (page_ok e.1 /\ e.1 + PAGE_SIZE * e.2 < 2 ^ 64)).

Lemma flat_app l1 l2 : flat (l1 ++ l2) = flat l1 ++ flat l2.
Proof. induction l1 as [|[a c] l1 IH]; cbn; [done|]. by rewrite IH. Qed.

Lemma zlen_flat l : zlen (flat l) = 2 * zlen l.
Proof. induction l as [|[a c] l IH]; cbn [flat]; autorewrite with zlen; lia. Qed.

Lemma range_pages_app p m n :
  0 <= m -> 0 <= n -> range_pages p (m + n) = range_pages p m ++ range_pages (p + PAGE_SIZE * m) n.
Proof.
  intros. unfold range_pages. rewrite seqZ_app by lia. rewrite fmap_app. f_equal.
  rewrite (Z.add_comm 0 m), <-(fmap_add_seqZ m 0 n), <-list_fmap_compose.
  apply list_fmap_ext. intros. cbn. lia.
Qed.

Lemma entry_pages_pop a c size :
  entry_ok (a, c) -> a <> 0 -> 0 <= size <= c ->
  exists p, match Page_new a with Ok p => Page_skip p (c - size) | Err _ => None end = Some p /\
    entry_pages (a, c) ≡ₚ range_pages p size ++ entry_pages (a, c - size) /\ entry_ok (a, c - size).
Proof.
  intros [Hc [?|[Hp He]]] Ha Hs; [done|]. cbn in *. exists (a + PAGE_SIZE * (c - size)).
  unfold PAGE_SIZE in *. rewrite Page_new_ok by done. split; [|split].
  - rewrite Page_skip_in by (done || unfold PAGE_SIZE; lia). f_equal. unfold PAGE_SIZE. lia.
  - unfold entry_pages. cbn. rewrite !decide_False by done.
    replace c with (c - size + size) at 1 by lia. rewrite range_pages_app by lia. by rewrite Permutation_app_comm.
  - split; [cbn; lia|]. right. cbn. unfold PAGE_SIZE. split; [done|lia].
Qed.

(** A request is met from the first entry that is large enough; nothing is lost. *)
Lemma ranges_pop_spec l size :
  Forall entry_ok l -> 0 <= size ->
  let '(r, l') := ranges_pop l size in
  all_pages l ≡ₚ got r size ++ all_pages l' /\ Forall entry_ok l' /\ zlen l' = zlen l /\
  (r = None <-> Forall (fun e => e.1 = 0 \/ e.2 < size) l).
Proof.
  intros Hl Hs. induction Hl as [|[a c] l He Hl IH]; cbn [ranges_pop].
  { split; [done|]. split; [done|]. split; [done|]. by split. }
  destruct (decide (a = 0 \/ c < size)) as [Hd|Hd].
  - destruct (ranges_pop l size) as [r l'] eqn:E. destruct IH as (IH1 & IH2 & IH3 & IH4).
    split; [|split; [by constructor|split; [autorewrite with zlen; lia|]]].
    + unfold all_pages in *. cbn. rewrite IH1. rewrite !app_assoc. f_equiv. apply Permutation_app_comm.
    + rewrite IH4, Forall_cons. cbn. tauto.
  - destruct (entry_pages_pop a c size He) as (p & Ep & HP & Hok); [tauto|lia|]. rewrite Ep.
    split; [|split; [by constructor|split; [by autorewrite with zlen|]]].
    + unfold all_pages. cbn. rewrite HP. by rewrite app_assoc.
    + split; [done|]. intros [? _]%Forall_cons. cbn in *. tauto.
Qed.

Section free_ranges.
Context {A : Type} `{FrameAllocator A}.
Implicit Types s : Machine A.

Lemma pop_free_range_loop_spec l pre s fp n size :
  0 <= n -> area s 8 fp n -> cells s 8 fp n = flat (pre ++ l) -> Forall entry_ok (pre ++ l) -> 0 <= size ->
  exists s', pop_free_range_loop (length l) (fp + 16 * zlen pre) size s =
      Done ((ranges_pop l size).1, s') /\
    data_only s s' /\ cells s' 8 fp n = flat (pre ++ (ranges_pop l size).2).
Proof.
  revert pre. induction l as [|[a c] l IH]; intros pre Hn0 Ha Hc Hok Hs;
    cbn [pop_free_range_loop length ranges_pop].
  { exists s. split; [done|]. split; [apply data_only_refl|done]. }
  assert (size_ok 8) as Hsz by (by right; right; right).
  assert (load_n 8 (fp + 16 * zlen pre) s = Done (a, s)) as Ea.
  { replace (fp + 16 * zlen pre) with (fp + 8 * zlen (flat pre)) by (rewrite zlen_flat; lia).
    apply (load_nth 8 s fp n); [done|]. rewrite Hc, flat_app. apply nth_z_middle. }
  assert (load_n 8 (fp + 16 * zlen pre + 8) s = Done (c, s)) as Ec.
  { replace (fp + 16 * zlen pre + 8) with (fp + 8 * zlen (flat pre ++ [a]))
      by (rewrite zlen_app, zlen_flat, zlen_cons, zlen_nil; lia).
    apply (load_nth 8 s fp n); [done|]. rewrite Hc, flat_app. cbn [flat].
    rewrite cons_middle, app_assoc. apply nth_z_middle. }
  destruct (IH (pre ++ [(a, c)]) Hn0 Ha) as (s' & E & Hd & Hc'); [by rewrite <-app_assoc..|done|].
  rewrite <-app_assoc in Hc'. cbn [app] in Hc'.
  replace (fp + 16 * zlen (pre ++ [(a, c)])) with (fp + 16 * zlen pre + 16) in E
    by (rewrite zlen_app, zlen_cons, zlen_nil; lia).
  unfold bind at 1. rewrite Ea. destruct (ranges_pop l size) as [r l'] eqn:Er. cbn [fst snd] in *.
  destruct (decide (a = 0)) as [Ha0|Ha0].
  { rewrite decide_True by by left. by exists s'. }
  unfold bind at 1. rewrite Ec. unfold checked_sub.
  destruct (decide (size <= c)) as [Hle|Hgt].
  2:{ rewrite decide_True by (right; lia). by exists s'. }
  rewrite decide_False by lia. cbn [fst snd].
  assert (0 <= c < 2 ^ 64) as Hcb by (apply Forall_app in Hok as [_ [[? _] _]%Forall_cons]; done).
  assert (0 <= zlen (flat pre ++ [a]) < n) as Hn.
  { rewrite flat_app in Hc. cbn [flat] in Hc. apply (f_equal zlen) in Hc.
    autorewrite with zlen in *. pose proof (zlen_nonneg (flat pre)). pose proof (zlen_nonneg (flat l)).
    rewrite zlen_cells in Hc by done. lia. }
  destruct (store_cell 8 Hsz s fp n (zlen (flat pre ++ [a])) (c - size) Ha Hn) as (s2 & E2 & Hd2 & Hc2).
  replace (fp + 8 * zlen (flat pre ++ [a])) with (fp + 16 * zlen pre + 8) in E2
    by (rewrite zlen_app, zlen_flat, zlen_cons, zlen_nil; lia).
  exists s2. unfold bind. rewrite E2. split; [done|]. split; [done|].
  rewrite Hc2, Hc, !flat_app. cbn [flat].
  rewrite (cons_middle a), app_assoc, set_z_app, <-app_assoc, Z.mod_small by lia. done.
Qed.
End free_ranges.

(** Requests one after the other. *)
Fixpoint pop_ranges {A} (ipc : IPC) (sizes : list Z) : M (Machine A) (list (option Page)) :=
  match sizes with
  | [] => ret []
  | size :: sizes =>
    let* r := pop_free_range ipc size in
    let* rs := pop_ranges ipc sizes in
    ret (r :: rs)
  end.

Lemma pop_ranges_spec {A} (sizes : list Z) (ipc : IPC) (s : Machine A) l :
  area s 8 (free_pages ipc) (2 * zlen l) -> max_free_pages ipc = zlen l ->
  cells s 8 (free_pages ipc) (2 * zlen l) = flat l -> Forall entry_ok l -> Forall (fun n => 0 <= n) sizes ->
  exists rs s' l', pop_ranges ipc sizes s = Done (rs, s') /\ data_only s s' /\
    cells s' 8 (free_pages ipc) (2 * zlen l) = flat l' /\
    all_pages l ≡ₚ concat (zip_with got rs sizes) ++ all_pages l'.
Proof.
  intros Ha Hm Hc Hok Hs. revert s l Ha Hm Hc Hok. induction Hs as [|size sizes Hs _ IH]; intros s l Ha Hm Hc Hok.
  { exists [], s, l. split; [done|]. split; [apply data_only_refl|done]. }
  pose proof (zlen_nonneg l) as Hz.
  destruct (pop_free_range_loop_spec l [] s (free_pages ipc) (2 * zlen l) size) as (s1 & E & Hd & Hc1); [lia|done..|].
  rewrite (zlen_nil (A := Z * Z)), Z.mul_0_r, Z.add_0_r in E.
  pose proof (ranges_pop_spec l size Hok Hs) as Hp. destruct (ranges_pop l size) as [r l1] eqn:Er.
  cbn [fst snd app] in *. destruct Hp as (HP & Hok1 & Hlen & _).
  destruct (IH s1 l1) as (rs & s' & l' & E' & Hd' & Hc' & HP'); rewrite ?Hlen; [by apply (area_data s)|done..|].
  exists (r :: rs), s', l'. split_and!; [|by eapply data_only_trans|by rewrite <-Hlen|].
  - cbn [pop_ranges]. unfold bind at 1, pop_free_range. rewrite Hm. unfold zlen at 1. rewrite Nat2Z.id, E.
    unfold bind. by rewrite E'.
  - cbn. by rewrite HP, HP', app_assoc.
Qed.

(** ** Termination *)

Section memory_halts.
Context {A : Type} `{FrameAllocator A}.

Lemma load_n_halts sz va : halts (load_n (A := A) sz va).
Proof. unfold load_n. halts_split. Qed.

Lemma store_n_halts sz va v : halts (store_n (A := A) sz va v).
Proof. unfold store_n. halts_split. Qed.
#[local] Hint Resolve load_n_halts store_n_halts : halts.

Lemma slice_get_halts b n i : halts (slice_get (A := A) b n i).
Proof. unfold slice_get. halts_split. Qed.

Lemma slice_set_halts b n i v : halts (slice_set (A := A) b n i v).
Proof. unfold slice_set. halts_split. Qed.
#[local] Hint Resolve slice_get_halts slice_set_halts : halts.

Lemma lock_wait_halts n addr val : halts (lock_wait (A := A) n addr val).
Proof. revert val. induction n as [|n IH]; intros val; cbn [lock_wait]; halts_split. Qed.
#[local] Hint Resolve lock_wait_halts : halts.

Lemma lock_free_stack_halts {R} ipc (f : Z -> M (Machine A) (R * Z)) :
  (forall v, halts (f v)) -> halts (lock_free_stack ipc f).
Proof. intros. unfold lock_free_stack. halts_split. Qed.

Lemma pop_free_slot_halts ipc : halts (pop_free_slot (A := A) ipc).
Proof.
  unfold pop_free_slot. apply halts_bind; [|eauto with halts].
  apply lock_free_stack_halts. intros. halts_split.
Qed.

Lemma push_free_slot_halts ipc x : halts (push_free_slot (A := A) ipc x).
Proof.
  unfold push_free_slot. apply halts_bind; [|eauto with halts].
  apply lock_free_stack_halts. intros. halts_split.
Qed.

Lemma pop_free_range_halts ipc n : halts (pop_free_range (A := A) ipc n).
Proof.
  unfold pop_free_range. generalize (free_pages ipc).
  induction (Z.to_nat (max_free_pages ipc)) as [|k IH]; intros fp; cbn [pop_free_range_loop]; halts_split.
Qed.

Lemma read_packet_halts a : halts (read_packet (A := A) a).
Proof. unfold read_packet. halts_split. Qed.

Lemma write_packet_halts a p : halts (write_packet (A := A) a p).
Proof. unfold write_packet. halts_split. Qed.

Lemma share_pages_halts n i vm rx tx rwx : halts (share_pages (A := A) n i vm rx tx rwx).
Proof. revert i. induction n as [|n IH]; intros i; cbn [share_pages]; halts_split. Qed.
End memory_halts.

#[export] Hint Resolve load_n_halts store_n_halts slice_get_halts slice_set_halts pop_free_slot_halts
  push_free_slot_halts pop_free_range_halts read_packet_halts write_packet_halts share_pages_halts : halts.

Section kernel_halts.
Context {A U : Type} `{FrameAllocator A}.

Lemma zoom_halts {S X} (g : Kernel A U -> S) p (m : M S X) : halts m -> halts (zoom g p m).
Proof. intros Hm k. unfold zoom. specialize (Hm (g k)). by destruct (m (g k)) as [[]| |]. Qed.

Lemma on_machine_halts {X} (m : M (Machine A) X) : halts m -> halts (on_machine (U := U) m).
Proof. apply zoom_halts. Qed.

Lemma pureO_halts {X} (o : outcome X) : o <> OutOfFuel -> halts (pureO (A := A) (U := U) o).
Proof. intros Ho k. by destruct o. Qed.

Lemma task_read_halts p : halts (task_read (A := A) (U := U) p).
Proof. intros k. unfold task_read. by case_match. Qed.
#[local] Hint Resolve on_machine_halts task_read_halts : halts.

Lemma task_modify_halts p f : halts (task_modify (A := A) (U := U) p f).
Proof. unfold task_modify, task_write. halts_split. Qed.

Lemma Group_get_halts i : halts (Group_get (A := A) (U := U) i).
Proof. apply zoom_halts. unfold Arena_get. halts_split. Qed.

Lemma Group_drop_halts i : halts (Group_drop (A := A) (U := U) i).
Proof. apply zoom_halts. unfold Guard_drop. halts_split. Qed.

Lemma Address_halts a : Address_group a <> OutOfFuel /\ Address_task a <> OutOfFuel.
Proof. unfold Address_group, Address_task, try_u32. split; by case_match. Qed.
#[local] Hint Resolve task_modify_halts Group_get_halts Group_drop_halts : halts.

Lemma map_pointer_halts ipc ptr n : halts (map_pointer (A := A) (U := U) ipc ptr n).
Proof. unfold map_pointer. halts_split. Qed.

Lemma share_mapping_halts vm m rwx : halts (share_mapping (A := A) (U := U) vm m rwx).
Proof. unfold share_mapping. halts_split. Qed.
#[local] Hint Resolve map_pointer_halts share_mapping_halts : halts.

Lemma process_packet_halts slf ipc addr last : halts (process_packet (A := A) (U := U) slf ipc addr last).
Proof.
  unfold process_packet. halts_split.
  all: apply pureO_halts, Address_halts.
Qed.

(** The distance between the indices goes down by one in each turn. *)
Lemma index_distance tx last :
  fits 16 tx -> fits 16 last -> last <> tx ->
  wrap 16 (tx - wrap 16 (last + 1)) = wrap 16 (tx - last) - 1 /\ 0 < wrap 16 (tx - last).
Proof.
  intros Ht Hl Hne. assert (wrap 16 (tx - last) <> 0) as Hnz.
  { intros E. apply Hne. symmetry. apply (wrap_eq_near 16); [|unfold fits in *; lia].
    rewrite !wrap_small by done. unfold wrap in E. apply Z.mod_divide in E as [q E]; [|lia].
    unfold fits in *. lia. }
  pose proof (wrap_fits 16 (tx - last) ltac:(lia)) as Hf. unfold fits in *. split; [|lia].
  unfold wrap in *. rewrite Zminus_mod_idemp_r. replace (tx - (last + 1)) with (tx - last - 1) by lia.
  rewrite <-(Zminus_mod_idemp_l (tx - last)). apply Z.mod_small. lia.
Qed.

Lemma process_loop_halts fuel slf ipc addr tx last :
  fits 16 tx -> fits 16 last -> wrap 16 (tx - last) <= Z.of_nat fuel ->
  halts (process_loop (A := A) (U := U) fuel slf ipc addr tx last).
Proof.
  intros Ht. revert last. induction fuel as [|fuel IH]; intros last Hl Hf; cbn [process_loop]; case_decide as E;
    eauto with halts; destruct (index_distance tx last Ht Hl E) as [Ed Hpos]; [lia|].
  apply halts_bind; [apply process_packet_halts|]. intros [|]; [|eauto with halts].
  apply IH; [by apply wrap_fits|]. rewrite Ed. lia.
Qed.

Lemma load_n_fits sz va (s : Machine A) v s' :
  0 <= sz -> load_n sz va s = Done (v, s') -> fits (8 * sz) v.
Proof.
  intros Hs. unfold load_n, bind. case_match; [|done]. destruct (load va s) as [[w s1]| |]; [|done..].
  intros [= <- _]. apply wrap_fits. lia.
Qed.

Lemma process_packets_halts slf ipc addr :
  fits 16 (last_transmit_index ipc) -> halts (process_packets (A := A) (U := U) slf ipc addr).
Proof.
  intros Hl. unfold process_packets. apply halts_bind; [eauto with halts|]. intros t.
  apply halts_bind; [eauto with halts|]. intros _ k. unfold bind at 1, on_machine at 1, zoom at 1.
  pose proof (load_n_halts (A := A) 2 (transmit_base ipc) (machine k)) as Hh.
  destruct (load_n 2 (transmit_base ipc) (machine k)) as [[tx m]| |] eqn:E; [|done..].
  apply load_n_fits in E; [|lia]. apply halts_bind; [|eauto with halts].
  apply process_loop_halts; [done..|]. pose proof (wrap_fits 16 (tx - last_transmit_index ipc)).
  unfold fits in *. lia.
Qed.
End kernel_halts.

#[export] Hint Resolve on_machine_halts task_read_halts task_modify_halts Group_get_halts Group_drop_halts : halts.

(** ** A machine with two communicating tasks

    Both use the one user page of [mapped_machine]: the sender's table is at
    0x5000 and the receiver's at 0x5800, two packets each.  The sender has queued
    packet 1 for task 1. *)

Definition sender_ipc : IPC := mkIPC 0x5000 0 1 0x5400 0.
Definition receiver_ipc : IPC := mkIPC 0x5800 0 1 0x5c00 1.

Definition ipc_mem : gmap (Z * Z) Z :=
  let p := 0x80200 in
  (* packet 1 of the sender: address 1, flags 3, id 9, opcode 2 *)
  wr (wr (wr (wr (wr (wr mapped_mem p 14 1) p 15 (3 + 9 * 2 ^ 32 + 2 * 2 ^ 40))
    (* transmit ring: index 1, slots 1 0 *)
    p 16 (1 + 1 * 2 ^ 16))
    (* the receiver's free slots: slot 0 *)
    p 273 (1 * 2 ^ 32))
    (* the receiver's free range: four pages from 0x10000 *)
    p 384 0x10000) p 385 4.

Definition ipc_machine : Machine Pmm := mkMachine ipc_mem (satp mapped_machine) (pmm mapped_machine).

Definition ipc_kernel : Kernel Pmm unit :=
  let vm := satp mapped_machine in
  mkKernel ipc_machine
    (<[100 := with_ipc (new_task_data vm 4096) (Some sender_ipc)]>
       {[ 200 := with_ipc (new_task_data vm 4096) (Some receiver_ipc) ]})
    (mkArena 4096 {[ 0 := mkSlot 0 (VItem (100 :: 200 :: replicate 14 0)) ]} usize_MAX 1 256)
    4096 0 100 1000 0 tt.

Lemma ipc_machine_area sz base n :
  base mod sz = 0 -> one_page ipc_mem 1 sz base n 0x80200 = true -> area ipc_machine sz base n.
Proof.
  intros Hb Ho. apply (one_page_area ipc_machine sz base n 0x80200); [done|exact Ho|by vm_compute|].
  apply (bool_decide_unpack _). vm_compute. exact I.
Qed.

(** C11: the free slots of a packet table are a bounded stack.  For every sequence
    of pushes and pops on a table whose header and stack are mapped, the code
    returns without panicking, answers as a stack of at most as many entries as
    the table has packets, leaves the memory in the state of that stack with the
    lock released, and changes no translation. *)
Theorem free_slots_refine_stack {A : Type} (ipc : IPC) (s : Machine A) (l : list Z) (ops : list slot_op) :
  ipc_ok ipc -> free_repr ipc s l -> Forall op_fits ops ->
  exists s', slot_run ipc ops s = Done ((bounded_run (IPC_len ipc) l ops).1, s') /\
    free_repr ipc s' (bounded_run (IPC_len ipc) l ops).2 /\ data_only s s'.
Proof.
  intros Hi Hr Ho. revert s l Hr. induction Ho as [|op ops Ho _ IH]; intros s l Hr.
  { exists s. split; [done|]. split; [done|apply data_only_refl]. }
  destruct (slot_step_refines ipc s l op Hi Hr Ho) as (s1 & E1 & Hr1 & Hd1).
  cbn [slot_run bounded_run]. destruct (bounded_step (IPC_len ipc) l op) as [r l1]. cbn [fst snd] in *.
  destruct (IH s1 l1 Hr1) as (s2 & E2 & Hr2 & Hd2).
  destruct (bounded_run (IPC_len ipc) l1 ops) as [rs l2]. cbn [fst snd] in *.
  exists s2. unfold bind. rewrite E1, E2. split; [done|]. split; [done|by eapply data_only_trans].
Qed.

Lemma free_slots_refine_stack_witness :
  exists s', slot_run receiver_ipc [PopSlot; PushSlot 7; PushSlot 8; PushSlot 9; PopSlot] ipc_machine =
    Done ([Popped (Ok 0); Pushed (Ok tt); Pushed (Ok tt); Pushed (Err Push_Full); Popped (Ok 8)], s').
Proof.
  destruct (free_slots_refine_stack receiver_ipc ipc_machine [0]
    [PopSlot; PushSlot 7; PushSlot 8; PushSlot 9; PopSlot]) as (s' & E & _).
  - exists 1. split; [lia|reflexivity].
  - split; [apply ipc_machine_area; reflexivity|]. exists [0]. reflexivity.
  - repeat (apply Forall_cons_2; [by vm_compute|]). apply Forall_nil_2.
  - exists s'. exact E.
Defined.

(** C12: address ranges are never handed out twice.  For every sequence of
    requests on a free-range list whose entries are mapped and well formed, the
    pages of all the ranges handed out together with the pages left in the list
    are exactly the pages the list had before. *)
Theorem free_ranges_conserved {A : Type} (ipc : IPC) (s : Machine A) (l : list (Z * Z)) (sizes : list Z) :
  area s 8 (free_pages ipc) (2 * zlen l) -> max_free_pages ipc = zlen l ->
  cells s 8 (free_pages ipc) (2 * zlen l) = flat l -> Forall entry_ok l -> Forall (fun n => 0 <= n) sizes ->
  exists rs s' l', pop_ranges ipc sizes s = Done (rs, s') /\
    cells s' 8 (free_pages ipc) (2 * zlen l) = flat l' /\
    all_pages l ≡ₚ concat (zip_with got rs sizes) ++ all_pages l'.
Proof.
  intros Ha Hm Hc Hok Hs. destruct (pop_ranges_spec sizes ipc s l Ha Hm Hc Hok Hs)
    as (rs & s' & l' & E & _ & Hc' & HP). eauto 10.
Qed.

Lemma free_ranges_conserved_witness :
  exists rs s', pop_ranges receiver_ipc [1; 2; 5] ipc_machine = Done (rs, s') /\
    rs = [Some 0x13000; Some 0x11000; None].
Proof.
  destruct (free_ranges_conserved receiver_ipc ipc_machine [(0x10000, 4)] [1; 2; 5])
    as (rs & s' & l' & E & _).
  - apply ipc_machine_area; reflexivity.
  - reflexivity.
  - reflexivity.
  - constructor; [|constructor]. split; [cbn; lia|right]. split; [by vm_compute|by vm_compute].
  - repeat constructor; lia.
  - exists rs, s'. split; [exact E|]. vm_compute in E. congruence.
Defined.

(** Transmitting ends.  Whatever is in the tables of the sender and the
    receivers, [process_packets] returns or panics within as many turns as the
    16-bit ring indices are apart. *)
Theorem process_packets_ends {A U : Type} `{FrameAllocator A} (slf addr : Z) (ipc : IPC) (k : Kernel A U) :
  fits 16 (last_transmit_index ipc) -> process_packets slf ipc addr k <> OutOfFuel.
Proof. intros Hl. by apply process_packets_halts. Qed.

Lemma process_packets_ends_witness : process_packets 100 sender_ipc 0 ipc_kernel <> OutOfFuel.
Proof. apply (process_packets_ends 100 0 sender_ipc ipc_kernel). by vm_compute. Defined.

(** A transmitted packet arrives, but the wrong slot is freed.  In the example
    the sender has queued packet 1 at ring position 0.  Afterwards the receive
    ring names slot 0, whose packet is the sent one with the sender's address, and the
    sender's stack of free slots holds 0, the ring position, instead of 1. *)
Theorem process_packets_frees_ring_position :
  exists k', process_io 100 0 ipc_kernel = Done (tt, k') /\
    cells (machine ipc_kernel) 2 (transmit_base sender_ipc) 3 = [1; 1; 0] /\
    cells (machine k') 2 (received_base receiver_ipc) 3 = [1; 0; 0] /\
    (exists m, read_packet 0x5800 (machine k') = Done (mkPacket (0, 0) 0 0 0 0 0 3 0 9 2, m)) /\
    cells (machine k') 2 (free_base sender_ipc) 3 = [1; 0; 0].
Proof.
  eexists. split; [vm_compute; reflexivity|]. split; [vm_compute; reflexivity|].
  split; [vm_compute; reflexivity|]. split; [eexists; vm_compute; reflexivity|]. vm_compute. reflexivity.
Qed.
