(* ===== verification/Plic.v ===== *)
(** * The interrupt controller (src/kernel/src/arch/riscv/plic.rs)

    The registers of the PLIC are 32-bit words, reached through the mapping at
    the reserved range PLIC that [set_controller] makes.  A reservation is the
    address of the task that is notified; all ones is a free source. *)

From S2P Require Import Prelude Page Ppn Allocator Reserved Sv39Entry Sv39 Sv39Walk Sv39Spec UserMem Arena.

Inductive ReserveError : Type := Reserve_Occupied | NonExistent.
Inductive InvalidSource : Type := InvalidSource_.
Inductive InvalidContext : Type := InvalidContext_.
Inductive InvalidContextOrSource : Type := CS_InvalidSource | CS_InvalidContext.

Definition cs_from_source (_ : InvalidSource) : InvalidContextOrSource := CS_InvalidSource.
Definition cs_from_context (_ : InvalidContext) : InvalidContextOrSource := CS_InvalidContext.

(** [TOTAL_SOURCES] and [RESERVATIONS]. *)
Record Plic : Type := mkPlic { total_sources : Z; reservations : list Z }.

Definition plic_init : Plic := mkPlic 0 (replicate 1023 0).

(** Offsets and strides count 32-bit words. *)
Definition OFFSET_PRIORITY : Z := 0x0000 / 4.
Definition OFFSET_PENDING_BITS : Z := 0x1000 / 4.
Definition OFFSET_ENABLE_BITS : Z := 0x2000 / 4.
Definition OFFSET_PRIORITY_THRESHOLDS : Z := 0x200000 / 4.
Definition OFFSET_CLAIM_COMPLETE : Z := 0x200004 / 4.
Definition STRIDE_ENABLE_BITS : Z := 0x80 / 4.
Definition STRIDE_PRIORITY_THRESHOLDS : Z := 0x1000 / 4.
Definition STRIDE_CLAIM_COMPLETE : Z := 0x1000 / 4.

Definition source_in_range (source : Z) : result unit InvalidSource :=
  if decide (source < 1024) then Ok tt else Err InvalidSource_.

Definition context_in_range (context : Z) : result unit InvalidContext :=
  if decide (context < 0x3e00) then Ok tt else Err InvalidContext_.

Definition split_source (source : Z) : result (Z * Z) InvalidSource :=
  result_map (fun _ => (source / 32, Z.land source 31)) (source_in_range source).

Section plic.
Context {A : Type} `{FrameAllocator A}.
Context (base_address : Z).

Definition reg (i : Z) : Z := base_address + 4 * i.

Definition set_priority (source priority : Z) : M (Machine A) (result unit InvalidSource) :=
  let? _ := ret (source_in_range source) in
  store_n 4 (reg (OFFSET_PRIORITY + source)) priority ;;
  ret (Ok tt).

Definition check_pending (source : Z) : M (Machine A) (result bool InvalidSource) :=
  let? '(offt, bit) := ret (split_source source) in
  let* v := load_n 4 (reg (OFFSET_PENDING_BITS + offt)) in
  ret (Ok (bool_decide (Z.land v (Z.shiftl 1 bit) > 0))).

Definition enable (context source : Z) (en : bool) : M (Machine A) (result unit InvalidContextOrSource) :=
  let? _ := ret (map_err cs_from_context (context_in_range context)) in
  let? '(offt, bit) := ret (map_err cs_from_source (split_source source)) in
  let addr := reg (OFFSET_ENABLE_BITS + context * STRIDE_ENABLE_BITS + offt) in
  let* val := load_n 4 addr in
  store_n 4 addr (Z.lor (Z.ldiff val (Z.shiftl 1 bit)) (Z.shiftl (bool_to_Z en) bit)) ;;
  ret (Ok tt).

Definition set_priority_threshold (context threshold : Z) : M (Machine A) (result unit InvalidContext) :=
  let? _ := ret (context_in_range context) in
  store_n 4 (reg (OFFSET_PRIORITY_THRESHOLDS + context * STRIDE_PRIORITY_THRESHOLDS)) threshold ;;
  ret (Ok tt).

(** [None] is interrupt 0: nothing to claim. *)
Definition claim (context : Z) : M (Machine A) (result (option Z) InvalidContext) :=
  let? _ := ret (context_in_range context) in
  let* source := load_n 4 (reg (OFFSET_CLAIM_COMPLETE + context * STRIDE_CLAIM_COMPLETE)) in
  if decide (source < 1024) then ret (Ok (if decide (source = 0) then None else Some source))
  else panic "source is out of range".

Definition complete (context source : Z) : M (Machine A) (result unit InvalidContextOrSource) :=
  let? _ := ret (map_err cs_from_context (context_in_range context)) in
  let? _ := ret (map_err cs_from_source (source_in_range source)) in
  store_n 4 (reg (OFFSET_CLAIM_COMPLETE + context * STRIDE_CLAIM_COMPLETE)) source ;;
  ret (Ok tt).
End plic.

Section reservations.
Context {A : Type} `{FrameAllocator A}.

Definition set_controller (range : MapRange) (max_devices : Z) : M (Machine A * Plic) unit :=
  on_snd (modify (fun p => mkPlic max_devices (reservations p))) ;;
  let* r := on_fst (add_range (rstart Reserved.PLIC) range RWX_RW KernelGlobal) in
  unwrap_ok "called `Result::unwrap()` on an `Err` value" r ;;
  on_snd (modify (fun p => mkPlic (total_sources p) (replicate 1023 usize_MAX))).

Definition reserve (source address : Z) : M (Machine A * Plic) (result unit ReserveError) :=
  let base := rstart Reserved.PLIC in
  match checked_sub source 1 with
  | None => ret (Err NonExistent)
  | Some source =>
    let* '(_, p) := get in
    if decide (source < total_sources p) then
      let* entry := unwrap "index out of bounds" (nth_z (reservations p) source) in
      if decide (entry = usize_MAX) then
        on_snd (modify (fun p => mkPlic (total_sources p) (set_z (reservations p) source address))) ;;
        let context := 1 in
        let source := source + 1 in
        let* r := on_fst (enable base context source true) in
        unwrap_ok "called `Result::unwrap()` on an `Err` value" r ;;
        let* r := on_fst (set_priority base source 1) in
        unwrap_ok "called `Result::unwrap()` on an `Err` value" r ;;
        let* r := on_fst (set_priority_threshold base context 0) in
        unwrap_ok "called `Result::unwrap()` on an `Err` value" r ;;
        ret (Ok tt)
      else ret (Err Reserve_Occupied)
    else ret (Err NonExistent)
  end.
End reservations.

(** ** Properties of the registers *)

Lemma land_31 v : Z.land v 31 = v mod 32.
Proof. exact (land_mask v 5 ltac:(lia)). Qed.

(** Bit [b] of a word after the read-modify-write of bit [bit]. *)
Lemma set_bit_testbit v bit en b :
  0 <= bit < 32 -> 0 <= b < 32 ->
  Z.testbit (Z.lor (Z.ldiff v (Z.shiftl 1 bit)) (Z.shiftl (bool_to_Z en) bit) mod 2 ^ 32) b =
    if decide (b = bit) then en else Z.testbit v b.
Proof.
  intros Hbit Hb. rewrite Z.mod_pow2_bits_low by lia.
  rewrite Z.lor_spec, Z.ldiff_spec, Z.shiftl_1_l, Z.pow2_bits_eqb, Z.shiftl_spec by lia.
  case_decide as E.
  - subst. rewrite Z.eqb_refl, andb_false_r, Z.sub_diag. by destruct en.
  - rewrite (proj2 (Z.eqb_neq bit b)), andb_true_r by lia.
    destruct (decide (b < bit)); [by rewrite (Z.testbit_neg_r _ (b - bit)), orb_false_r by lia|].
    destruct en; cbn [bool_to_Z]; [|by rewrite Z.testbit_0_l, orb_false_r].
    change 1 with (2 ^ 0). by rewrite (Z.pow2_bits_eqb 0 (b - bit)), (proj2 (Z.eqb_neq 0 (b - bit))), orb_false_r by lia.
Qed.

Section properties.
Context {A : Type}.
Implicit Types s : Machine A.

(** The enable words of a context, and the bit of a source in them. *)
Definition enable_base (base context : Z) : Z := base + 4 * (OFFSET_ENABLE_BITS + context * STRIDE_ENABLE_BITS).

Definition enabled s (base context source : Z) : bool :=
  Z.testbit (default 0 (nth_z (cells s 4 (enable_base base context) 32) (source / 32))) (source mod 32).

Lemma enable_spec s base context source en :
  area s 4 (enable_base base context) 32 -> context < 0x3e00 -> 0 <= source < 1024 ->
  exists s', enable base context source en s = Done (Ok tt, s') /\ data_only s s' /\
    cells s' 4 (enable_base base context) 32 =
      set_z (cells s 4 (enable_base base context) 32) (source / 32)
        (Z.lor (Z.ldiff (cell s 4 (enable_base base context + 4 * (source / 32))) (Z.shiftl 1 (source mod 32)))
               (Z.shiftl (bool_to_Z en) (source mod 32)) mod 2 ^ 32).
Proof.
  intros Ha Hc Hs. pose proof (Z.div_pos source 32 ltac:(lia) ltac:(lia)).
  pose proof (Z.div_lt_upper_bound source 32 32 ltac:(lia) ltac:(lia)) as Hd.
  pose proof (load_cell 4 s _ 32 (source / 32) Ha ltac:(lia)) as El.
  set (va := enable_base base context + 4 * (source / 32)) in *.
  destruct (store_cell 4 ltac:(by right; right; left) s (enable_base base context) 32 (source / 32)
    (Z.lor (Z.ldiff (cell s 4 va) (Z.shiftl 1 (source mod 32))) (Z.shiftl (bool_to_Z en) (source mod 32)))
    Ha ltac:(lia)) as (s' & E & Hdo & Hcs). fold va in E.
  exists s'. split; [|by split]. unfold enable, context_in_range, split_source, source_in_range.
  rewrite !decide_True by lia. unfold bind_ok, map_err, result_map, bind, ret, reg. cbn [cs_from_context].
  replace (base + 4 * (OFFSET_ENABLE_BITS + context * STRIDE_ENABLE_BITS + source / 32))
    with va by (unfold va, enable_base; lia).
  rewrite El, land_31. by rewrite E.
Qed.

(** A register that can be written. *)
Definition writable s (a : Z) : Prop := area s 4 a 1.

Lemma store_writable s a v :
  writable s a -> exists s', store_n 4 a v s = Done (tt, s') /\ data_only s s'.
Proof.
  intros Ha. destruct (store_cell 4 ltac:(by right; right; left) s a 1 0 v Ha ltac:(lia)) as (s' & E & Hd & _).
  rewrite Z.mul_0_r, Z.add_0_r in E. by exists s'.
Qed.

(** The registers [reserve] touches for a source. *)
Definition plic_mapped s (source : Z) : Prop :=
  let base := rstart Reserved.PLIC in
  area s 4 (enable_base base 1) 32 /\ writable s (reg base (OFFSET_PRIORITY + source)) /\
  writable s (reg base (OFFSET_PRIORITY_THRESHOLDS + 1 * STRIDE_PRIORITY_THRESHOLDS)).

Lemma reserve_spec s p source address :
  0 < source -> source <= total_sources p <= 1023 -> zlen (reservations p) = 1023 ->
  plic_mapped s source -> nth_z (reservations p) (source - 1) = Some usize_MAX ->
  exists s', reserve source address (s, p) =
      Done (Ok tt, (s', mkPlic (total_sources p) (set_z (reservations p) (source - 1) address))) /\
    data_only s s'.
Proof.
  intros H0 Ht Hl (He & Hp & Hth) Hn. unfold reserve, checked_sub. rewrite decide_True by lia.
  unfold bind at 1, get. rewrite decide_True by lia. rewrite Hn. unfold unwrap at 1.
  unfold bind at 1, ret at 1. rewrite decide_True by done. unfold bind at 1, on_snd, modify. cbn [fst snd].
  destruct (enable_spec s (rstart Reserved.PLIC) 1 (source - 1 + 1) true He) as (s1 & E1 & D1 & _); [lia..|].
  unfold bind at 1, on_fst at 1. cbn [fst snd]. rewrite E1. unfold bind at 1, unwrap_ok at 1, ret at 1. cbn [fst snd].
  destruct (store_writable s1 (reg (rstart Reserved.PLIC) (OFFSET_PRIORITY + source)) 1) as (s2 & E2 & D2).
  { by apply (area_data s). }
  unfold bind at 1, on_fst at 1. cbn [fst snd]. unfold set_priority, source_in_range.
  rewrite decide_True by lia. unfold bind_ok, bind at 1, ret at 1. unfold bind at 1.
  replace (source - 1 + 1) with source by lia. rewrite E2. unfold ret at 1, unwrap_ok at 1, bind at 1, ret at 1.
  destruct (store_writable s2 (reg (rstart Reserved.PLIC)
              (OFFSET_PRIORITY_THRESHOLDS + 1 * STRIDE_PRIORITY_THRESHOLDS)) 0) as (s3 & E3 & D3).
  { apply (area_data s1); [done|]. by apply (area_data s). }
  unfold bind at 1, on_fst at 1. cbn [fst snd]. unfold set_priority_threshold, context_in_range.
  rewrite decide_True by lia. unfold bind_ok, bind, ret. rewrite E3. cbn.
  exists s3. split; [done|]. eauto using data_only_trans.
Qed.
End properties.

(** A machine with the PLIC's range mapped as a gigapage. *)
Definition plic_machine : Machine Pmm :=
  mkMachine (wr (self_map_mem 1 2 3) 1 (ppn_2 (rstart Reserved.PLIC)) (pte 0x40000 0xc7))
    (satp tiny_machine) None.

Definition plic_frame (va : Z) : Z :=
  match hw_walk (phys plic_machine) 1 va with Some (p, _) => p | None => 0 end.

Lemma plic_machine_area base n :
  base mod 4 = 0 -> one_page (phys plic_machine) 1 4 base n (plic_frame base) = true ->
  bool_decide (1 <> plic_frame base) = true ->
  bool_decide (no_table_word (phys plic_machine) (plic_frame base)) = true -> area plic_machine 4 base n.
Proof.
  intros Hb Ho Hr Hw. apply (one_page_area plic_machine 4 base n (plic_frame base)); [done|exact Ho|..].
  - by apply bool_decide_eq_true in Hr.
  - by apply bool_decide_eq_true in Hw.
Qed.

(** Enabling or disabling an interrupt in a context changes the bit of that
    source and of no other source. *)
Theorem plic_enable_one_bit {A : Type} (s : Machine A) (base context source : Z) (en : bool) :
  area s 4 (enable_base base context) 32 -> context < 0x3e00 -> 0 < source < 1024 ->
  exists s', enable base context source en s = Done (Ok tt, s') /\
    forall source', 0 <= source' < 1024 ->
      enabled s' base context source' = if decide (source' = source) then en else enabled s base context source'.
Proof.
  intros Ha Hc Hs. destruct (enable_spec s base context source en Ha Hc ltac:(lia)) as (s' & E & _ & Hcs).
  exists s'. split; [done|]. intros src Hsrc. unfold enabled. rewrite Hcs.
  pose proof (Z.div_mod source 32 ltac:(lia)). pose proof (Z.div_mod src 32 ltac:(lia)).
  pose proof (Z.mod_pos_bound source 32 ltac:(lia)). pose proof (Z.mod_pos_bound src 32 ltac:(lia)).
  assert (0 <= source / 32 < 32) by lia. assert (0 <= src / 32 < 32) by lia.
  destruct (decide (src / 32 = source / 32)) as [Eq|Ne].
  - rewrite Eq, nth_z_set_eq, nth_z_cells by (rewrite ?zlen_cells; lia).
    cbn [from_option id]. unfold id. rewrite set_bit_testbit by lia.
    destruct (decide (src mod 32 = source mod 32)), (decide (src = source)); try lia; done.
  - rewrite nth_z_set_ne by congruence. rewrite (decide_False (P := src = source)) by congruence. done.
Qed.

Lemma plic_enable_one_bit_witness :
  exists s', enable (rstart Reserved.PLIC) 1 10 true plic_machine = Done (Ok tt, s') /\
    enabled s' (rstart Reserved.PLIC) 1 10 = true /\ enabled s' (rstart Reserved.PLIC) 1 11 = false.
Proof.
  destruct (plic_enable_one_bit plic_machine (rstart Reserved.PLIC) 1 10 true) as (s' & E & Hs).
  - apply plic_machine_area; vm_compute; reflexivity.
  - lia.
  - lia.
  - exists s'. split; [exact E|]. rewrite !Hs by lia. split; [reflexivity|]. vm_compute. reflexivity.
Defined.

(** A source is reserved once.  With at most 1023 sources and the registers
    mapped, reserving a source in range whose entry is free succeeds, and from then
    on every reservation of that source is refused as occupied, while the other entries are
    unchanged.  Source 0 and sources beyond the total do not exist.  With a total
    above 1023, reserving source 1024 panics. *)
Theorem plic_reserve_exclusive {A : Type} (s : Machine A) (p : Plic) (source address : Z) :
  0 < source -> source <= total_sources p <= 1023 -> zlen (reservations p) = 1023 ->
  plic_mapped s source -> nth_z (reservations p) (source - 1) = Some usize_MAX -> address <> usize_MAX ->
  (exists s' p', reserve source address (s, p) = Done (Ok tt, (s', p')) /\
    (forall i, i <> source - 1 -> nth_z (reservations p') i = nth_z (reservations p) i) /\
    forall address', reserve source address' (s', p') = Done (Err Reserve_Occupied, (s', p'))) /\
  (forall src, src = 0 \/ total_sources p < src -> reserve src address (s, p) = Done (Err NonExistent, (s, p))) /\
  (forall n, 1023 < n -> reserve 1024 address (s, mkPlic n (reservations p)) = Panicked "index out of bounds").
Proof.
  intros H0 Ht Hl Hm Hn Ha. split; [|split].
  - destruct (reserve_spec s p source address H0 Ht Hl Hm Hn) as (s' & E & _).
    eexists s', _. split; [exact E|]. split; [intros; cbn; by rewrite nth_z_set_ne by done|].
    intros a'. unfold reserve, checked_sub. rewrite decide_True by lia. unfold bind at 1, get. cbn [fst snd].
    rewrite decide_True by (cbn; lia). cbn [reservations].
    rewrite nth_z_set_eq by lia. unfold unwrap, bind at 1, ret at 1. by rewrite decide_False.
  - intros src Hsrc. unfold reserve, checked_sub. case_decide; [|done].
    unfold bind at 1, get. by rewrite decide_False by lia.
  - intros n Hn'. unfold reserve, checked_sub. rewrite decide_True by lia. unfold bind at 1, get.
    cbn [fst snd]. rewrite decide_True by (cbn; lia). cbn [reservations].
    destruct (nth_z (reservations p) (1024 - 1)) eqn:E; [|done]. apply nth_z_Some in E. lia.
Qed.

Lemma plic_reserve_exclusive_witness :
  let p := mkPlic 53 (replicate 1023 usize_MAX) in
  exists s' p', reserve 10 3 (plic_machine, p) = Done (Ok tt, (s', p')) /\
    reserve 10 4 (s', p') = Done (Err Reserve_Occupied, (s', p')).
Proof.
  intros p. destruct (plic_reserve_exclusive plic_machine p 10 3) as ((s' & p' & E & _ & H2) & _ & _).
  - lia.
  - cbn. lia.
  - reflexivity.
  - split; [apply plic_machine_area; vm_compute; reflexivity|].
    split; apply plic_machine_area; vm_compute; reflexivity.
  - reflexivity.
  - unfold usize_MAX. lia.
  - exists s', p'. split; [exact E|apply H2].
Defined.
