(* ===== verification/Utf8.v ===== *)
(** * UTF-8 (core::str, as used by src/kernel/src/syscall.rs)

    [str::from_utf8] as the language documents it: the longest valid prefix and,
    on an error, the length of the invalid sequence, or nothing when the input
    ends inside a character.  [BrokenStr] is the wrapper of [sys_log] that
    replaces invalid sequences. *)

From S2P Require Import Prelude.

(** What the next character is. *)
Inductive Char : Type :=
| CEnd
| CValid (n : nat)
| CInvalid (n : nat)
| CIncomplete.

Definition in_range (lo hi b : Z) : bool := bool_decide (lo <= b <= hi).
Definition continuation (b : Z) : bool := in_range 0x80 0xbf b.

Definition second_of_three (b0 b1 : Z) : bool :=
  (in_range 0xe0 0xe0 b0 && in_range 0xa0 0xbf b1) ||
  (in_range 0xe1 0xec b0 && continuation b1) ||
  (in_range 0xed 0xed b0 && in_range 0x80 0x9f b1) ||
  (in_range 0xee 0xef b0 && continuation b1).

Definition second_of_four (b0 b1 : Z) : bool :=
  (in_range 0xf0 0xf0 b0 && in_range 0x90 0xbf b1) ||
  (in_range 0xf1 0xf3 b0 && continuation b1) ||
  (in_range 0xf4 0xf4 b0 && in_range 0x80 0x8f b1).

Definition next_char (l : list Z) : Char :=
  match l with
  | [] => CEnd
  | b0 :: l =>
    if in_range 0 0x7f b0 then CValid 1
    else if in_range 0xc2 0xdf b0 then
      match l with
      | [] => CIncomplete
      | b1 :: _ => if continuation b1 then CValid 2 else CInvalid 1
      end
    else if in_range 0xe0 0xef b0 then
      match l with
      | [] => CIncomplete
      | b1 :: l =>
        if negb (second_of_three b0 b1) then CInvalid 1 else
        match l with
        | [] => CIncomplete
        | b2 :: _ => if continuation b2 then CValid 3 else CInvalid 2
        end
      end
    else if in_range 0xf0 0xf4 b0 then
      match l with
      | [] => CIncomplete
      | b1 :: l =>
        if negb (second_of_four b0 b1) then CInvalid 1 else
        match l with
        | [] => CIncomplete
        | b2 :: l =>
          if negb (continuation b2) then CInvalid 2 else
          match l with
          | [] => CIncomplete
          | b3 :: _ => if continuation b3 then CValid 4 else CInvalid 3
          end
        end
      end
    else CInvalid 1
  end.

(** [Utf8Error]: [valid_up_to] and [error_len]. *)
Record Utf8Error : Type := mkUtf8Error { valid_up_to : nat; error_len : option nat }.

(** Every character has at least one byte, so the length is enough fuel. *)
Fixpoint scan (fuel : nat) (l : list Z) (pos : nat) : result unit Utf8Error :=
  match fuel with
  | O => Ok tt
  | S fuel =>
    match next_char l with
    | CEnd => Ok tt
    | CValid n => scan fuel (drop n l) (pos + n)
    | CInvalid n => Err (mkUtf8Error pos (Some n))
    | CIncomplete => Err (mkUtf8Error pos None)
    end
  end.

Definition from_utf8 (l : list Z) : result unit Utf8Error := scan (S (length l)) l 0.

Definition REPLACEMENT : list Z := [0xef; 0xbf; 0xbd].

(** The loop of [BrokenStr::fmt]: what is written.  [i] only grows, so the
    length plus one is enough fuel. *)
Fixpoint broken_str_loop (fuel : nat) (l : list Z) : outcome (list Z) :=
  match fuel with
  | O => OutOfFuel
  | S fuel =>
    match l with
    | [] => Done []
    | _ =>
      match from_utf8 l with
      | Ok _ => Done l
      | Err (mkUtf8Error v (Some n)) =>
        match from_utf8 (take v l) with
        | Err _ => Panicked "called `Result::unwrap()` on an `Err` value"
        | Ok _ =>
          let! rest := broken_str_loop fuel (drop (v + n) l) in
          Done (take v l ++ REPLACEMENT ++ rest)
        end
      | Err (mkUtf8Error _ None) => Done []
      end
    end
  end.

Definition broken_str (l : list Z) : outcome (list Z) := broken_str_loop (S (length l)) l.

(** ** Valid strings *)

(** A string of valid characters. *)
Inductive utf8 : list Z -> Prop :=
| utf8_nil : utf8 []
| utf8_char n l : next_char l = CValid n -> utf8 (drop n l) -> utf8 l.

Lemma next_char_valid l n :
  next_char l = CValid n ->
  exists c, length c = n /\ (0 < n)%nat /\ l = c ++ drop n l /\ forall r, next_char (c ++ r) = CValid n.
Proof.
  destruct l as [|b0 l]; [done|]. cbn [next_char]. intros E.
  repeat match type of E with
  | (if ?b then _ else _) = _ => destruct b eqn:?
  | match ?l with [] => _ | _ => _ end = _ => destruct l
  end; try done; injection E as <-.
  all: match goal with
       | |- context [length _ = 1%nat] => exists [b0]
       | |- context [length _ = 2%nat] => exists [b0; z]
       | |- context [length _ = 3%nat] => exists [b0; z; z0]
       | |- context [length _ = 4%nat] => exists [b0; z; z0; z1]
       end.
  all: split; [done|]; split; [lia|]; split; [done|]; intros r; cbn;
    repeat match goal with Hb : ?b = _ |- context [?b] => rewrite Hb end; done.
Qed.

Lemma next_char_invalid l n : next_char l = CInvalid n -> (0 < n <= length l)%nat.
Proof.
  destruct l as [|b0 l]; [done|]. cbn [next_char]. intros E.
  repeat match type of E with
  | (if ?b then _ else _) = _ => destruct b
  | match ?l with [] => _ | _ => _ end = _ => destruct l
  end; try done; injection E as <-; cbn; lia.
Qed.

Lemma utf8_app l1 l2 : utf8 l1 -> utf8 l2 -> utf8 (l1 ++ l2).
Proof.
  intros H1 H2. induction H1 as [|n l E _ IH]; [done|].
  destruct (next_char_valid l n E) as (c & Hc & Hn & El & Hr).
  apply (utf8_char n).
  - rewrite El, <-app_assoc. apply Hr.
  - rewrite drop_app_le; [done|]. rewrite El, length_app. lia.
Qed.

Lemma utf8_cons_char c n r : length c = n -> next_char (c ++ r) = CValid n -> utf8 r -> utf8 (c ++ r).
Proof. intros Hc E Hr. apply (utf8_char n); [done|]. by rewrite drop_app_length'. Qed.

(** The scan accepts exactly the valid strings, and stops after a valid prefix. *)
Lemma scan_spec fuel l pos :
  (length l < fuel)%nat ->
  match scan fuel l pos with
  | Ok _ => utf8 l
  | Err e => exists v, valid_up_to e = (pos + v)%nat /\ (v <= length l)%nat /\ utf8 (take v l) /\
      match error_len e with
      | Some n => next_char (drop v l) = CInvalid n
      | None => next_char (drop v l) = CIncomplete
      end
  end.
Proof.
  revert l pos. induction fuel as [|fuel IH]; intros l pos Hl; [lia|]. cbn [scan].
  destruct (next_char l) as [|n|n|] eqn:E.
  - destruct l; [constructor|]. cbn in E. by repeat case_match.
  - destruct (next_char_valid l n E) as (c & Hc & Hn & El & Hr).
    assert (length l = n + length (drop n l))%nat as Hlen by (rewrite El at 1; rewrite length_app; lia).
    specialize (IH (drop n l) (pos + n)%nat ltac:(lia)).
    destruct (scan fuel (drop n l) (pos + n)) as [|e]; [by apply (utf8_char n)|].
    destruct IH as (v & Ev & Hv & Hu & He). exists (n + v)%nat.
    split; [lia|]. split; [lia|]. rewrite <-drop_drop. split; [|done].
    rewrite El, take_app_ge, Hc by lia. replace (n + v - n)%nat with v by lia.
    apply (utf8_cons_char c n); [done|apply Hr|done].
  - exists 0%nat. rewrite drop_0. cbn. split; [lia|]. split; [lia|]. split; [constructor|done].
  - exists 0%nat. rewrite drop_0. cbn. split; [lia|]. split; [lia|]. split; [constructor|done].
Qed.

Lemma utf8_scan fuel l pos : utf8 l -> scan fuel l pos = Ok tt.
Proof.
  intros Hu. revert fuel pos. induction Hu as [|n l E _ IH]; intros [|fuel] pos; cbn [scan]; try done.
  by rewrite E.
Qed.

Lemma from_utf8_ok l : from_utf8 l = Ok tt <-> utf8 l.
Proof.
  split; [|apply utf8_scan]. intros E. pose proof (scan_spec (S (length l)) l 0 ltac:(lia)) as Hs.
  unfold from_utf8 in E. by rewrite E in Hs.
Qed.

Lemma replacement_utf8 : utf8 REPLACEMENT.
Proof. apply from_utf8_ok. by vm_compute. Qed.

Lemma broken_str_loop_spec fuel l :
  (length l < fuel)%nat -> exists out, broken_str_loop fuel l = Done out /\ utf8 out.
Proof.
  revert l. induction fuel as [|fuel IH]; intros l Hl; [lia|]. cbn [broken_str_loop].
  destruct l as [|b l']; [exists []; split; [done|constructor]|]. set (l := b :: l') in *.
  pose proof (scan_spec (S (length l)) l 0 ltac:(lia)) as Hs. fold (from_utf8 l) in Hs.
  destruct (from_utf8 l) as [[]|[v n]]; [by exists l|].
  destruct Hs as (v' & Ev & Hv & Hu & He). cbn in Ev, He. subst v'.
  destruct n as [n|]; [|exists []; split; [done|constructor]].
  rewrite (proj2 (from_utf8_ok (take v l)) Hu). apply next_char_invalid in He.
  rewrite length_drop in He.
  destruct (IH (drop (v + n) l)) as (out & -> & Ho); [rewrite length_drop; lia|].
  eexists. split; [done|]. auto using utf8_app, replacement_utf8.
Qed.

Lemma scan_incomplete l t fuel pos :
  utf8 l -> next_char t = CIncomplete -> (length (l ++ t) < fuel)%nat ->
  scan fuel (l ++ t) pos = Err (mkUtf8Error (pos + length l) None).
Proof.
  intros Hu Ht. revert fuel pos. induction Hu as [|n l E _ IH]; intros [|fuel] pos Hf; try lia; cbn [scan app].
  - rewrite Ht. cbn. by rewrite Nat.add_0_r.
  - destruct (next_char_valid l n E) as (c & Hc & Hn & El & Hr).
    assert (length l = n + length (drop n l))%nat as Hlen by (rewrite El at 1; rewrite length_app; lia).
    rewrite El at 1. rewrite <-app_assoc, Hr. rewrite drop_app_le by lia.
    rewrite length_app in Hf. rewrite IH by (rewrite length_app; lia). do 2 f_equal. lia.
Qed.

(** The log output of a task is always valid text.  Whatever bytes a task
    passes, the replacement of invalid sequences ends, the [unwrap] inside it never
    panics, and what is written is valid UTF-8; valid input is written as it is.
    But when the input stops inside a character, the text since the last invalid
    sequence is lost, although it is valid. *)
Theorem broken_str_is_text (l : list Z) :
  (exists out, broken_str l = Done out /\ utf8 out) /\
  (utf8 l -> broken_str l = Done l) /\
  (forall t, utf8 l -> next_char t = CIncomplete -> broken_str (l ++ t) = Done []).
Proof.
  split; [apply broken_str_loop_spec; lia|]. split.
  - intros Hu. unfold broken_str. cbn [broken_str_loop]. destruct l; [done|].
    by rewrite (proj2 (from_utf8_ok _) Hu).
  - intros t Hu Ht. unfold broken_str. cbn [broken_str_loop].
    destruct (l ++ t) as [|b r] eqn:E; [done|]. rewrite <-E. unfold from_utf8.
    by rewrite (scan_incomplete l t) by (done || lia).
Qed.
