(* ===== verification/Syscall.v ===== *)
(** * System calls (src/kernel/src/syscall.rs)

    Each system call is an operation on the whole kernel state.  The registry,
    the interrupt controller and the two platform constants are the part of the
    state that only system calls use.  A system call returns a status and a
    value, or leaves the kernel for good: back to the task with its registers as
    they were, into the assembly code of notifications, or into the scheduler.
    Arguments are 64-bit numbers. *)

From S2P Require Import Prelude Page Ppn Allocator Reserved Sv39Entry Sv39 Sv39Walk Sv39Spec.
From S2P Require Import RangeSpec UserMem Arena Registry Task Executor Ipc Plic Utf8.

Inductive Status : Type :=
| SOk | InvalidCall | NullArgument | MemoryOverlap | MemoryUnavailable | MemoryLocked
| MemoryNotAllocated | MemoryInvalidProtectionFlags | SBadAlignment | NotFound | TooLong
| SOccupied | Unavailable.

Definition status_code (s : Status) : Z :=
  match s with
  | SOk => 0 | InvalidCall => 1 | NullArgument => 2 | MemoryOverlap => 3 | MemoryUnavailable => 4
  | MemoryLocked => 5 | MemoryNotAllocated => 6 | MemoryInvalidProtectionFlags => 7
  | SBadAlignment => 8 | NotFound => 9 | TooLong => 10 | SOccupied => 11 | Unavailable => 12
  end.

(** How the function of a system call ends: with a status, without touching the registers, or by
    leaving to the assembly of syscall.s ([Notify]) or to the scheduler. *)
Inductive SysEnd : Type :=
| Return (status : Status) (value : Z)
| ReturnTransparent
| NotifyReturn (task : Z)
| NotifyDefer (from from_address to_address : Z)
| Scheduled (r : NextResult).

Record Services : Type := mkServices {
  registry : Registry;
  plic : Plic;
  platform_info_phys_ptr : Z;
  platform_info_size : Z;
  console : list Z
}.

Definition PROTECT_R : Z := 0x1.
Definition PROTECT_W : Z := 0x2.
Definition PROTECT_X : Z := 0x4.

Inductive InvalidPageFlags : Type := InvalidPageFlags_.

Definition decode_rwx_flags (flags : Z) : result RWX InvalidPageFlags :=
  let f := Z.land flags 7 in
  if decide (f = PROTECT_R) then Ok RWX_R
  else if decide (f = PROTECT_X) then Ok RWX_X
  else if decide (f = Z.lor PROTECT_R PROTECT_W) then Ok RWX_RW
  else if decide (f = Z.lor PROTECT_R PROTECT_X) then Ok RWX_RX
  else if decide (f = Z.lor (Z.lor PROTECT_R PROTECT_W) PROTECT_X) then Ok RWX_RWX
  else Err InvalidPageFlags_.

Definition unwrap_err : string := "called `Result::unwrap()` on an `Err` value".
Definition unwrap_none : string := "called `Option::unwrap()` on a `None` value".

Section syscalls.
Context {A : Type} `{FrameAllocator A}.
Context (idle_task_stub : Z).

Abbreviation K := (Kernel A Services).

Definition on_registry {X} (m : M Registry X) : M K X :=
  zoom (fun k => registry (ext k))
       (fun k r => set_ext k (mkServices r (plic (ext k)) (platform_info_phys_ptr (ext k))
                                (platform_info_size (ext k)) (console (ext k)))) m.

Definition on_plic {X} (m : M (Machine A * Plic) X) : M K X :=
  zoom (fun k => (machine k, plic (ext k)))
       (fun k s => set_ext (set_machine k s.1)
                     (mkServices (registry (ext k)) s.2 (platform_info_phys_ptr (ext k))
                        (platform_info_size (ext k)) (console (ext k)))) m.

(** ** I/O *)

(** On riscv64 [timeh] is not used. *)
Definition io_wait (fuel : nat) (task time : Z) : M K SysEnd :=
  let* notified := Task_was_notified task in
  if notified : bool then
    Task_clear_notified task ;;
    ret ReturnTransparent
  else
    Task_wait_duration task time ;;
    let* addr := current_address in
    process_io task addr ;;
    let* r := Executor_next idle_task_stub fuel in
    ret (Scheduled r).

Definition io_set_queues (task packet_table mask_bits free_pages free_pages_size : Z) : M K SysEnd :=
  if decide (packet_table = 0) then
    Task_set_queues task None ;;
    ret (Return SOk 0)
  else if decide (free_pages = 0) then ret (Return NullArgument 0)
  else
    let* ipc := unwrap_ok unwrap_err (IPC_new packet_table (wrap 8 mask_bits) free_pages free_pages_size) in
    Task_set_queues task (Some ipc) ;;
    ret (Return SOk 0).

Definition io_set_notify_handler (task function : Z) : M K SysEnd :=
  let handler := if decide (function = 0) then None else Some function in
  let* prev := Task_set_notification_handler task handler in
  ret (Return SOk (default 0 prev)).

(** The function does not return: it leaves to [syscall_io_notify_return] or [syscall_io_notify_defer] of
    syscall.s, which [Notify.io_notify_return] has with the instructions before it. *)
Definition io_notify_return (task defer_to : Z) : M K SysEnd :=
  if decide (defer_to = usize_MAX) then ret (NotifyReturn task)
  else
    let* from_addr := current_address in
    ret (NotifyDefer task from_addr defer_to).

(** ** Memory *)

Definition mem_alloc (address count flags : Z) : M K SysEnd :=
  match Page_try_from address with
  | Ok address =>
    match decode_rwx_flags flags with
    | Ok rwx =>
      let* r := Task_allocate_memory address count rwx in
      unwrap_ok unwrap_err r ;;
      ret (Return SOk address)
    | Err _ => ret (Return MemoryInvalidProtectionFlags 0)
    end
  | Err FromPointer_Null => ret (Return NullArgument 0)
  | Err FromPointer_BadAlignment => ret (Return SBadAlignment 0)
  end.

Definition mem_dealloc (address count : Z) : M K SysEnd :=
  match Page_from_usize address with
  | Err FromPointer_Null => ret (Return NullArgument 0)
  | Err FromPointer_BadAlignment => ret (Return SBadAlignment 0)
  | Ok address =>
    let* r := Task_deallocate_memory address count in
    unwrap_ok unwrap_err r ;;
    ret (Return SOk 0)
  end.

Definition mem_get_flags : M K SysEnd := panic not_yet_implemented.
Definition mem_set_flags : M K SysEnd := panic not_yet_implemented.

(** [VMS::physical_addresses] with the caller's slice of [n] words at [store]. *)
Fixpoint physical_addresses_to (address : option Page) (store : Z) (n : nat) : M (Machine A) (result unit unit) :=
  match n with
  | O => ret (Ok tt)
  | S n =>
    let* addr := unwrap unwrap_none address in
    let* r := physical_address_step addr in
    match r with
    | Err _ => ret (Err tt)
    | Ok (v, address) =>
      store_n 8 store v ;;
      physical_addresses_to address (store + 8) n
    end
  end.

Definition mem_physical_addresses (address store count : Z) : M K SysEnd :=
  if decide (Z.land address OFFSET_MASK <> 0) then ret (Return SBadAlignment 0) else
  let* address := unwrap_ok unwrap_err (Page_try_from address) in
  let* r := on_machine (physical_addresses_to (Some address) store (Z.to_nat count)) in
  ret (Return (match r with Ok _ => SOk | Err _ => MemoryNotAllocated end) 0).

(** [ppns[i] = Some(allocate())] for the pages after the first; the array has
    eight places and the value is computed before the index is checked. *)
Fixpoint dma_pages (n : nat) (i : Z) : M K (list PPN) :=
  match n with
  | O => ret []
  | S n =>
    let* r := on_machine mem_allocate in
    let* p := unwrap_ok unwrap_err r in
    if decide (i < 8) then
      let* ps := dma_pages n (i + 1) in
      ret (p :: ps)
    else panic "index out of bounds"
  end.

Fixpoint dma_map (addr : option Page) (ps : list PPN) : M K unit :=
  match ps with
  | [] => ret tt
  | p :: ps =>
    match addr with
    | Some a =>
      let* r := on_machine (add a (Private p) RWX_RW UserLocal) in
      unwrap_ok unwrap_err r ;;
      dma_map (Page_next a) ps
    | None => panic not_yet_implemented
    end
  end.

Definition dev_dma_alloc (address size : Z) : M K SysEnd :=
  if decide (size = 0) then panic "TODO just return an error doof" else
  let count := wrap 64 (size + PAGE_SIZE - 1) / PAGE_SIZE in
  let* r := on_machine mem_allocate in
  let* p := unwrap_ok unwrap_err r in
  let* ps := dma_pages (Z.to_nat (count - 1)) 1 in
  if decide (address = 0) then panic not_yet_implemented else
  let addr := match Page_new address with Ok a => Some a | Err _ => None end in
  dma_map addr (take (Z.to_nat count) (p :: ps)) ;;
  ret (Return SOk address).

Definition sys_platform_info (address : Z) : M K SysEnd :=
  if decide (address = 0) then ret (Return NullArgument 0) else
  match Page_new address with
  | Err _ => ret (Return SBadAlignment 0)
  | Ok a =>
    let* ptr := gets (fun k => platform_info_phys_ptr (ext k)) in
    let* size := gets (fun k => platform_info_size (ext k)) in
    let* p := unwrap_ok unwrap_err (PPNDirect_from_usize ptr) in
    match PPNDirectRange_new p size with
    | Ok p =>
      let* r := on_machine (add_range a (RDirect p) RWX_R UserLocal) in
      unwrap_ok unwrap_err r ;;
      ret (Return SOk size)
    | Err _ => panic not_yet_implemented
    end
  end.

Definition sys_direct_alloc (address ppn count : Z) : M K SysEnd :=
  if decide (address = 0) then ret (Return NullArgument 0) else
  match Page_new address with
  | Err _ => ret (Return NullArgument 0)
  | Ok addr =>
    match try_into 32 ppn with
    | None => ret (Return MemoryUnavailable 0)
    | Some ppn =>
      match PPNDirectRange_new ppn count with
      | Err _ => panic not_yet_implemented
      | Ok range =>
        let* r := on_machine (add_range addr (RDirect range) RWX_RW UserLocal) in
        ret (match r with Ok _ => Return SOk 0 | Err _ => Return MemoryOverlap 0 end)
      end
    end
  end.

(** ** Tasks *)

(** An element of the slice of mappings: 24 bytes. *)
Record Mapping : Type := mkMapping { task_address : Z; typ : Z; map_flags : Z; self_address : Z }.

Definition read_mapping (a : Z) : M (Machine A) Mapping :=
  let* task_address := load_n 8 a in
  let* typ := load_n 1 (a + 8) in
  let* flags := load_n 1 (a + 9) in
  let* self_address := load_n 8 (a + 16) in
  ret (mkMapping task_address typ flags self_address).

Fixpoint spawn_mappings (vms mappings : Z) (n : nat) : M (Machine A) unit :=
  match n with
  | O => ret tt
  | S n =>
    let* map := read_mapping mappings in
    if decide (typ map = 0) then
      let* rwx := unwrap_ok unwrap_err (decode_rwx_flags (map_flags map)) in
      let* to := unwrap_ok unwrap_err (Page_try_from (task_address map)) in
      let* from := unwrap_ok unwrap_err (Page_try_from (self_address map)) in
      let* r := share vms to from rwx UserLocal in
      unwrap_ok unwrap_err r ;;
      spawn_mappings vms (mappings + 24) n
    else panic not_yet_implemented
  end.

Definition task_spawn (mappings mappings_count program_counter stack_pointer : Z) : M K SysEnd :=
  let* r := on_machine Sv39_new in
  let* vms := unwrap_ok unwrap_err r in
  on_machine (spawn_mappings vms mappings (Z.to_nat mappings_count)) ;;
  let* r := Task_new vms in
  let* task := unwrap_ok unwrap_err r in
  Task_set_pc task program_counter ;;
  Task_set_stack_pointer task stack_pointer ;;
  let* g := Group_get 0 in
  let* group := unwrap unwrap_none g in
  let* r := Group_insert 0 group task in
  let* id := unwrap_ok unwrap_err r in
  Group_drop 0 ;;
  ret (Return SOk id).

(** ** Interrupts *)

Definition sys_reserve_interrupt (interrupt : Z) : M K SysEnd :=
  let* address := current_address in
  let* r := on_plic (reserve (wrap 16 interrupt) address) in
  ret (match r with
       | Ok _ => Return SOk 0
       | Err Reserve_Occupied => Return SOccupied 0
       | Err NonExistent => Return Unavailable 0
       end).

Definition sys_set_interrupt_controller (ppn pages max_devices : Z) : M K SysEnd :=
  if decide (pages <= page_count Reserved.PLIC) then
    let* ppn := unwrap unwrap_err (try_into 32 ppn) in
    let* range := unwrap_ok unwrap_err (PPNDirectRange_new ppn pages) in
    on_plic (set_controller (RDirect range) (wrap 16 max_devices)) ;;
    ret (Return SOk 0)
  else panic "assertion failed: page_count <= PLIC.page_count()".

(** ** Log and registry *)

Fixpoint read_bytes (a : Z) (n : nat) : M (Machine A) (list Z) :=
  match n with
  | O => ret []
  | S n =>
    let* b := load_n 1 a in
    let* l := read_bytes (a + 1) n in
    ret (b :: l)
  end.

Definition sys_log (address length : Z) : M K SysEnd :=
  let* bytes := on_machine (read_bytes address (Z.to_nat length)) in
  let* out := pureO (broken_str bytes) in
  modify (fun k => set_ext k (mkServices (registry (ext k)) (plic (ext k)) (platform_info_phys_ptr (ext k))
                                (platform_info_size (ext k)) (console (ext k) ++ out))) ;;
  ret (Return SOk 0).

(** [add] looks at the length before it reads the name. *)
Definition sys_registry_add (name name_len address : Z) : M K SysEnd :=
  let* cur := current_address in
  let address := if decide (address = usize_MAX) then cur else address in
  let* r :=
    if decide (name_len > 31) then ret (Err NameTooLong)
    else
      let* nm := on_machine (read_bytes name (Z.to_nat name_len)) in
      on_registry (registry_add nm address) in
  ret (match r with
       | Ok _ => Return SOk 0
       | Err Occupied => Return SOccupied 0
       | Err NameTooLong => Return TooLong 0
       | Err RegistryFull => Return MemoryUnavailable 0
       end).

(** Names are compared by length first: without an entry of that length the
    name is not read, and the search is for a name no entry can have. *)
Definition sys_registry_get (name name_len : Z) : M K SysEnd :=
  let* es := gets (fun k => entries (registry (ext k))) in
  let* nm :=
    if existsb (fun e => match e with Some e => bool_decide (Registry.name_len e = name_len) | None => false end) es
    then on_machine (read_bytes name (Z.to_nat name_len))
    else ret (replicate 32 0) in
  let* r := on_registry (registry_get nm) in
  ret (match r with Some addr => Return SOk addr | None => Return NotFound 0 end).

Definition placeholder : M K SysEnd := ret (Return InvalidCall 0).

(** ** The table *)

Definition TABLE_LEN : Z := 20.

(** [TABLE[n]] applied to the argument registers and the calling task; a number
    outside the table is answered by the trap code. *)
Definition syscall (fuel : nat) (n a0 a1 a2 a3 : Z) (task : Z) : M K SysEnd :=
  if decide (TABLE_LEN <= n) then ret (Return InvalidCall a1) else
  match n with
  | 0 => io_wait fuel task a0
  | 1 => io_set_queues task a0 a1 a2 a3
  | 2 => io_set_notify_handler task a0
  | 3 => mem_alloc a0 a1 a2
  | 4 => mem_dealloc a0 a1
  | 5 => mem_get_flags
  | 6 => mem_set_flags
  | 7 => mem_physical_addresses a0 a1 a2
  | 8 => sys_set_interrupt_controller a0 a1 a2
  | 9 => io_notify_return task a0
  | 10 => sys_reserve_interrupt a0
  | 11 => task_spawn a0 a1 a2 a3
  | 12 => dev_dma_alloc a0 a1
  | 13 => sys_platform_info a0
  | 14 => sys_direct_alloc a0 a1 a2
  | 15 => sys_log a0 a1
  | 16 => sys_registry_add a0 a1 a2
  | 17 => sys_registry_get a0 a1
  | _ => placeholder
  end.
End syscalls.

(** ** Termination *)

Lemma on_snd_halts {S T X} (m : M T X) : halts m -> halts (on_snd (S := S) m).
Proof. intros Hm st. unfold on_snd. specialize (Hm st.2). by destruct (m st.2) as [[]| |]. Qed.
#[export] Hint Resolve on_snd_halts : halts.

Lemma mem_allocate_range_halts {T} `{FrameAllocator T} n (f : PPN -> M T unit) :
  (forall p, halts (f p)) -> halts (mem_allocate_range n f).
Proof.
  intros Hf. induction n as [|n IH]; cbn [mem_allocate_range]; [apply halts_ret|].
  halts_split. apply fa_alloc_halts.
Qed.

Section machine_halts.
Context {A : Type} `{FrameAllocator A}.

Lemma allocate_halts va n rwx acc : halts (allocate (A := A) va n rwx acc).
Proof.
  intros s. rewrite allocate_eq.
  pose proof (mem_allocate_range_halts (Z.to_nat n) (allocate_body (A := A) rwx acc)) as Hr.
  assert (halts (mem_allocate_range (Z.to_nat n) (allocate_body (A := A) rwx acc))) as Hh.
  { apply Hr. intros p. unfold allocate_body. halts_split. }
  specialize (Hh (s, va)). by repeat case_match.
Qed.

Lemma deallocate_halts va n : halts (deallocate (A := A) va n).
Proof. revert va. induction n as [|n IH]; intros va; cbn [deallocate]; halts_split. Qed.

Lemma physical_address_step_halts va : halts (physical_address_step (A := A) va).
Proof.
  unfold physical_address_step. halts_split; first [apply map_highmem_a_halts|apply translate_highmem_a_halts].
Qed.

Lemma physical_addresses_to_halts va st n : halts (physical_addresses_to (A := A) va st n).
Proof.
  revert va st. induction n as [|n IH]; intros va st; cbn [physical_addresses_to]; halts_split.
  apply physical_address_step_halts.
Qed.

Lemma copy_entries_halts n i c w : halts (copy_entries (A := A) n i c w).
Proof. revert i. induction n as [|n IH]; intros i; cbn [copy_entries]; halts_split. Qed.

Lemma Sv39_new_halts : halts (Sv39_new (A := A)).
Proof.
  unfold Sv39_new. halts_split;
    first [apply map_highmem_a_halts|apply translate_highmem_a_halts|apply copy_entries_halts|
           apply leaf_set_at_halts].
Qed.

Lemma read_bytes_halts a n : halts (read_bytes (A := A) a n).
Proof. revert a. induction n as [|n IH]; intros a; cbn [read_bytes]; halts_split. Qed.

Lemma spawn_mappings_halts vms a n : halts (spawn_mappings (A := A) vms a n).
Proof. revert a. induction n as [|n IH]; intros a; cbn [spawn_mappings read_mapping]; unfold read_mapping; halts_split. Qed.

Lemma direct_range_left p n r : PPNDirectRange_new p n = Ok r -> 0 <= range_left (RDirect r).
Proof.
  unfold PPNDirectRange_new, try_into, fits. case_decide; [|done]. intros [= <-]. cbn. lia.
Qed.

Lemma reserve_halts src addr : halts (reserve (A := A) src addr).
Proof.
  unfold reserve, enable, set_priority, set_priority_threshold. halts_split;
    apply on_fst_halts; halts_split.
Qed.
End machine_halts.

#[export] Hint Resolve allocate_halts deallocate_halts physical_addresses_to_halts Sv39_new_halts
  read_bytes_halts spawn_mappings_halts reserve_halts : halts.

Section syscalls_halt.
Context {A : Type} `{FrameAllocator A} (stub : Z).

Abbreviation K := (Kernel A Services).

Lemma on_plic_halts {X} (m : M (Machine A * Plic) X) : halts m -> halts (on_plic m).
Proof. apply zoom_halts. Qed.

Lemma on_registry_halts {X} (m : M Registry X) : halts m -> halts (on_registry (A := A) m).
Proof. apply zoom_halts. Qed.

Lemma registry_lock_halts : halts registry_lock.
Proof.
  intros r. unfold registry_lock, gets, bind. cbn [lock_loop]. unfold bind, get.
  by rewrite decide_True.
Qed.

Lemma registry_add_halts nm addr : halts (registry_add nm addr).
Proof. unfold registry_add, registry_unlock. halts_split. apply registry_lock_halts. Qed.

Lemma registry_get_halts nm : halts (registry_get nm).
Proof. unfold registry_get, registry_unlock. halts_split. apply registry_lock_halts. Qed.
#[local] Hint Resolve on_registry_halts registry_add_halts registry_get_halts : halts.

Lemma Task_new_halts vms : halts (Task_new (A := A) (U := Services) vms).
Proof. unfold Task_new, task_write. halts_split. Qed.

Lemma Group_insert_halts i d t : halts (Group_insert (A := A) (U := Services) i d t).
Proof. unfold Group_insert, group_store, on_groups. halts_split. apply zoom_halts. eauto with halts. Qed.

Lemma dma_pages_halts n i : halts (dma_pages (A := A) n i).
Proof. revert i. induction n as [|n IH]; intros i; cbn [dma_pages]; halts_split. Qed.

Lemma dma_map_halts a ps : halts (dma_map (A := A) a ps).
Proof. revert a. induction ps as [|p ps IH]; intros a; cbn [dma_map]; halts_split. Qed.

Lemma add_range_direct_halts a p n r rwx acc :
  PPNDirectRange_new p n = Ok r -> halts (on_machine (A := A) (U := Services) (add_range a (RDirect r) rwx acc)).
Proof. intros E. apply on_machine_halts, add_range_halts. by eapply direct_range_left. Qed.
#[local] Hint Resolve Task_new_halts Group_insert_halts dma_pages_halts dma_map_halts : halts.
#[local] Hint Unfold current_address Task_set_queues Task_set_pc Task_set_stack_pointer : halts.

Lemma sys_platform_info_halts a : halts (sys_platform_info (A := A) a).
Proof.
  unfold sys_platform_info. halts_split. by eapply add_range_direct_halts.
Qed.

Lemma sys_direct_alloc_halts a p n : halts (sys_direct_alloc (A := A) a p n).
Proof. unfold sys_direct_alloc. halts_split. by eapply add_range_direct_halts. Qed.

Lemma sys_set_interrupt_controller_halts p n m : halts (sys_set_interrupt_controller (A := A) p n m).
Proof.
  unfold sys_set_interrupt_controller. case_decide; [|eauto with halts].
  apply halts_bind; [eauto with halts|]. intros q k. unfold bind at 1.
  destruct (PPNDirectRange_new q n) as [r|] eqn:E; [|done]. cbn [unwrap_ok ret].
  apply halts_bind; [|eauto with halts]. apply on_plic_halts. unfold set_controller. halts_split.
  apply on_fst_halts, add_range_halts. by eapply direct_range_left.
Qed.

Lemma broken_str_halts l : broken_str l <> OutOfFuel.
Proof. destruct (broken_str_loop_spec (S (length l)) l ltac:(lia)) as (out & E & _). unfold broken_str. by rewrite E. Qed.

(** Every system call but [io_wait] ends. *)
Lemma syscall_halts fuel n a0 a1 a2 a3 task :
  n <> 0 -> halts (syscall (A := A) stub fuel n a0 a1 a2 a3 task).
Proof.
  intros Hn. unfold syscall. case_decide; [apply halts_ret|].
  repeat match goal with |- halts (match ?n with _ => _ end) => destruct n; try done end;
  unfold io_set_queues, io_set_notify_handler, mem_alloc, mem_dealloc, mem_get_flags, mem_set_flags,
    mem_physical_addresses, io_notify_return, sys_reserve_interrupt, task_spawn, dev_dma_alloc, sys_log,
    sys_registry_add, sys_registry_get, placeholder, Task_set_queues, Task_set_notification_handler,
    Task_allocate_memory, Task_deallocate_memory, Task_set_pc, Task_set_stack_pointer, task_write, current_address;
  first [apply sys_platform_info_halts|apply sys_direct_alloc_halts|apply sys_set_interrupt_controller_halts|halts_split].
  all: first [by apply on_plic_halts, reserve_halts|by apply pureO_halts, broken_str_halts|idtac].
Qed.
End syscalls_halt.

(** ** A kernel for examples *)

Definition sys_kernel (s : Machine Pmm) : Kernel Pmm Services :=
  mkKernel s {[ 100 := new_task_data (satp s) 4096 ]}
    (mkArena 4096 {[ 0 := mkSlot 0 (VItem (100 :: replicate 15 0)) ]} usize_MAX 1 256)
    4096 0 100 1000 0 (mkServices registry_init plic_init 0x81000000 1 []).

Lemma decode_rwx_flags_ok flags rwx :
  decode_rwx_flags flags = Ok rwx -> from_rwx rwx = 2 * Z.land flags 7.
Proof.
  unfold decode_rwx_flags. repeat case_decide; intros [= <-];
    match goal with E : Z.land _ _ = _ |- _ => rewrite E; reflexivity end.
Qed.

(** C21: [mem_alloc] maps a range.  On well-formed tables with enough free pages,
    for a page address, valid flags and an unmapped range, the call answers [Ok] with the address;
    each page of the range is then mapped to its own page of the allocator, with
    the rights the flags ask for, every other translation outside the windows is
    as before, and the pages used are no longer free. *)
Theorem mem_alloc_maps {A : Type} `{FrameAllocator A} (k : Kernel A Services) (l : list PPN) (n : nat)
    (address : Page) (flags : Z) (rwx : RWX) :
  vm_inv (machine k) l -> (3 * n <= length l)%nat -> span_ok address (Z.of_nat n) ->
  decode_rwx_flags flags = Ok rwx ->
  (forall i, 0 <= i < Z.of_nat n -> translates (machine k) (page_at address i) = None) ->
  exists s' l' fs, mem_alloc address (Z.of_nat n) flags k = Done (Return SOk address, set_machine k s') /\
    vm_inv s' l' /\ length fs = n /\ fs ++ l' ⊆+ l /\ from_rwx rwx = 2 * Z.land flags 7 /\
    (forall i f, fs !! i = Some f ->
       translates s' (page_at address (Z.of_nat i)) = Some (private_leaf f rwx UserLocal)) /\
    (forall va, not_window va -> (forall i, 0 <= i < Z.of_nat n -> ~ same_page (page_at address i) va) ->
       translates s' va = translates (machine k) va).
Proof.
  intros Hs Hl Hr Hf Hn.
  destruct (allocate_spec n (machine k) address l rwx UserLocal Hs Hl Hr Hn)
    as (s' & l' & fs & E & Hs' & _ & Hrest & Hsub & Hmap & Hother).
  exists s', l', fs. split; [|by eauto 10 using decode_rwx_flags_ok].
  unfold mem_alloc, Page_try_from, Page_from_pointer. destruct (ro_first _ _ Hr) as (_ & Hnz & _).
  rewrite decide_True by done. rewrite Page_new_ok by by apply Hr. rewrite Hf.
  unfold Task_allocate_memory, on_machine, zoom, bind. by rewrite E.
Qed.

Lemma mem_alloc_maps_witness :
  exists s', mem_alloc 0x5000 2 3 (sys_kernel (machine_with [10; 11; 12; 13; 14; 15])) =
      Done (Return SOk 0x5000, set_machine (sys_kernel (machine_with [10; 11; 12; 13; 14; 15])) s') /\
    exists f, translates s' 0x6000 = Some (private_leaf f RWX_RW UserLocal).
Proof.
  destruct (mem_alloc_maps (sys_kernel (machine_with [10; 11; 12; 13; 14; 15])) [10; 11; 12; 13; 14; 15] 2
    0x5000 3 RWX_RW) as (s' & l' & fs & E & _ & Hlen & _ & _ & Hm & _).
  - apply machine_with_inv; [by apply (bool_decide_unpack _)| |cbn; lia].
    apply (bool_decide_unpack _). by vm_compute.
  - cbn. lia.
  - constructor; [by vm_compute|lia|by vm_compute|].
    intros i Hi. assert (i = 0 \/ i = 1) as [-> | ->] by lia; by vm_compute.
  - reflexivity.
  - intros i Hi. assert (i = 0 \/ i = 1) as [-> | ->] by lia; by vm_compute.
  - exists s'. split; [exact E|]. destruct fs as [|f0 [|f1 [|]]]; try discriminate Hlen.
    exists f1. exact (Hm 1%nat f1 eq_refl).
Defined.

(** C22: [mem_dealloc] unmaps a range of mapped pages and leaks them.  Afterwards
    no page of the range is translated, every other translation outside the
    windows is as before, and the free pages of the allocator are exactly those
    from before: the pages are never given back. *)
Theorem mem_dealloc_unmaps_and_leaks {A : Type} `{FrameAllocator A} (k : Kernel A Services) (l : list PPN)
    (n : nat) (address : Page) :
  vm_inv (machine k) l -> span_ok address (Z.of_nat n) ->
  (forall i, 0 <= i < Z.of_nat n -> small_page (machine k) (page_at address i)) ->
  exists s', mem_dealloc address (Z.of_nat n) k = Done (Return SOk 0, set_machine k s') /\
    vm_inv s' l /\
    (forall i, 0 <= i < Z.of_nat n -> translates s' (page_at address i) = None) /\
    (forall va, not_window va -> (forall i, 0 <= i < Z.of_nat n -> ~ same_page (page_at address i) va) ->
       translates s' va = translates (machine k) va).
Proof.
  intros Hs Hr Hn. destruct (deallocate_spec n (machine k) address l Hs Hr Hn)
    as (s' & E & Hs' & _ & Hnone & Hother).
  exists s'. split; [|done]. unfold mem_dealloc, Page_from_usize.
  destruct (ro_first _ _ Hr) as (_ & Hnz & Hal). rewrite decide_True by done.
  rewrite land_align, decide_True by done.
  unfold Task_deallocate_memory, on_machine, zoom, bind. rewrite Nat2Z.id. by rewrite E.
Qed.

Lemma mem_dealloc_unmaps_and_leaks_witness :
  exists s', mem_dealloc 0x5000 1 (sys_kernel mapped_machine) =
      Done (Return SOk 0, set_machine (sys_kernel mapped_machine) s') /\
    translates s' 0x5000 = None /\ vm_inv s' [6; 5].
Proof.
  destruct (mem_dealloc_unmaps_and_leaks (sys_kernel mapped_machine) [6; 5] 1 0x5000) as (s' & E & Hs & Hn & _).
  - exact mapped_machine_inv.
  - constructor; [by vm_compute|lia|by vm_compute|]. intros i Hi. assert (i = 0) as -> by lia. by vm_compute.
  - intros i Hi. assert (i = 0) as -> by lia. split; eexists; vm_compute; reflexivity.
  - exists s'. split; [exact E|]. split; [exact (Hn 0 ltac:(lia))|exact Hs].
Defined.

(** C28: any task can stop the kernel.  Asking [mem_alloc] for a page that is
    already mapped panics, although there is a status for it; a ring size of 16 to 255
    bits panics [io_set_queues], while 256 is taken as 0; and asking for the physical
    address of page 0 panics. *)
Theorem tasks_can_panic_the_kernel {A : Type} `{FrameAllocator A} (k : Kernel A Services) (l : list PPN)
    (f0 f1 f2 : PPN) (address : Page) (flags : Z) (rwx : RWX) (task table bits free size store : Z) :
  vm_inv (machine k) (f0 :: f1 :: f2 :: l) -> page_ok address -> mappable address ->
  is_Some (translates (machine k) address) -> decode_rwx_flags flags = Ok rwx ->
  table <> 0 -> free <> 0 ->
  mem_alloc address 1 flags k = Panicked unwrap_err /\
  (16 <= bits < 256 -> io_set_queues task table bits free size k = Panicked unwrap_err) /\
  (bits = 256 -> io_set_queues task table bits free size k = io_set_queues task table 0 free size k) /\
  mem_physical_addresses 0 store 1 k = Panicked unwrap_err.
Proof.
  intros Hs Hp Hm Ht Hf Htab Hfree. split; [|split; [|split]].
  - unfold mem_alloc, Page_try_from, Page_from_pointer. rewrite decide_True by apply Hp.
    rewrite Page_new_ok by done. rewrite Hf. unfold Task_allocate_memory, on_machine, zoom, bind.
    change 1 with (Z.of_nat 1). by rewrite (allocate_overlap 0 _ _ l rwx UserLocal f0 f1 f2).
  - intros Hb. unfold io_set_queues, IPC_new. rewrite !decide_False by done.
    rewrite wrap_small by (unfold fits; lia). by rewrite decide_False by lia.
  - intros ->. done.
  - done.
Qed.

Lemma tasks_can_panic_the_kernel_witness :
  mem_alloc 0x5000 1 3 (sys_kernel mapped_machine3) = Panicked unwrap_err.
Proof.
  apply (tasks_can_panic_the_kernel (sys_kernel mapped_machine3) [] 9 6 5 0x5000 3 RWX_RW 100 1 16 1 0 0).
  - exact mapped_machine3_inv.
  - by vm_compute.
  - by vm_compute.
  - eexists. vm_compute. reflexivity.
  - reflexivity.
  - lia.
  - lia.
Defined.

(** The functions of all system calls but [io_wait], which hands the hart to the scheduler, end for
    all arguments and in every state of the kernel.  [io_notify_return] ends by leaving to the assembly
    of syscall.s, which [Notify] has: there a deferral waits for the interrupt of the other task. *)
Theorem syscall_functions_end {A : Type} `{FrameAllocator A} (stub : Z) (fuel : nat) (n a0 a1 a2 a3 task : Z)
    (k : Kernel A Services) :
  n <> 0 -> syscall stub fuel n a0 a1 a2 a3 task k <> OutOfFuel.
Proof. intros Hn. by apply syscall_halts. Qed.
