(* ===== verification/Bytes.v ===== *)
(** * Byte memory

    Bytes as numbers below 256, slices of byte arrays, and fixed-width integers
    in little- and big-endian order: what the structures shared between tasks
    ([repr(C)]), the device tree and ELF files are made of. *)

From S2P Require Import Prelude.

Definition byte_ok (x : Z) : Prop := 0 <= x < 256.

(** A byte string literal. *)
Definition str (s : string) : list Z := (fun c => Z.of_N (Ascii.N_of_ascii c)) <$> String.list_ascii_of_string s.

(** ** Slices *)

(** [&data[off..off + n]], [None] out of range. *)
Definition slice {A} (l : list A) (off n : Z) : option (list A) :=
  if decide (0 <= off /\ 0 <= n /\ off + n <= zlen l)
  then Some (take (Z.to_nat n) (drop (Z.to_nat off) l)) else None.

(** [data[off..off + bs.len()].copy_from_slice(bs)]; no effect out of range. *)
Definition write {A} (l : list A) (off : Z) (bs : list A) : list A :=
  if decide (0 <= off /\ off + zlen bs <= zlen l)
  then take (Z.to_nat off) l ++ bs ++ drop (Z.to_nat (off + zlen bs)) l else l.

Section slices.
Context {A : Type}.
Implicit Types (l bs : list A) (off n : Z).

Lemma zlen_take n l : 0 <= n <= zlen l -> zlen (take (Z.to_nat n) l) = n.
Proof. unfold zlen. rewrite length_take. lia. Qed.

Lemma zlen_drop n l : 0 <= n <= zlen l -> zlen (drop (Z.to_nat n) l) = zlen l - n.
Proof. unfold zlen. rewrite length_drop. lia. Qed.

Lemma slice_some l off n : 0 <= off -> 0 <= n -> off + n <= zlen l -> exists bs, slice l off n = Some bs /\ zlen bs = n.
Proof.
  intros. unfold slice. rewrite decide_True by lia. eexists. split; [done|].
  apply zlen_take. rewrite zlen_drop by lia. lia.
Qed.

Lemma slice_len l off n bs : slice l off n = Some bs -> zlen bs = n /\ 0 <= off /\ off + n <= zlen l.
Proof.
  unfold slice. case_decide as Hd; [|done]. intros [= <-]. split; [|lia].
  apply zlen_take. rewrite zlen_drop by lia. lia.
Qed.

Lemma zlen_write l off bs : zlen (write l off bs) = zlen l.
Proof.
  unfold write. case_decide as Hd; [|done]. pose proof (zlen_nonneg bs).
  rewrite !zlen_app, zlen_take, zlen_drop by lia. lia.
Qed.

Lemma slice_lookup l off n i :
  0 <= off -> off + n <= zlen l -> 0 <= i < n -> forall bs, slice l off n = Some bs -> nth_z bs i = nth_z l (off + i).
Proof.
  intros Ho Hn Hi bs. unfold slice. case_decide; [|done]. intros [= <-]. unfold nth_z.
  rewrite !decide_True by lia. rewrite lookup_take_lt by lia. rewrite lookup_drop. f_equal. lia.
Qed.

Lemma nth_z_ext l1 l2 : zlen l1 = zlen l2 -> (forall i, 0 <= i < zlen l1 -> nth_z l1 i = nth_z l2 i) -> l1 = l2.
Proof.
  unfold zlen at 1 2. intros El Hi. apply list_eq_same_length with (n := length l1); [lia..|].
  intros i x y Hlt Hx Hy. specialize (Hi (Z.of_nat i)). unfold nth_z, zlen in Hi.
  rewrite !decide_True, Nat2Z.id in Hi by lia. rewrite Hi in Hx by lia. congruence.
Qed.

Lemma nth_z_write l off bs i :
  0 <= off -> off + zlen bs <= zlen l -> 0 <= i ->
  nth_z (write l off bs) i = if decide (off <= i < off + zlen bs) then nth_z bs (i - off) else nth_z l i.
Proof.
  intros Ho Hb Hi. unfold write. rewrite decide_True by lia. pose proof (zlen_nonneg bs).
  destruct (decide (i < off)).
  { rewrite decide_False, nth_z_app_l by (rewrite ?zlen_take; lia). unfold nth_z.
    rewrite !decide_True by lia. rewrite lookup_take_lt by lia. done. }
  rewrite nth_z_app_r, zlen_take by (rewrite ?zlen_take; lia).
  destruct (decide (i < off + zlen bs)).
  { rewrite decide_True, nth_z_app_l by lia. done. }
  rewrite decide_False, nth_z_app_r by lia. unfold nth_z. rewrite !decide_True, lookup_drop by lia. f_equal. lia.
Qed.

Lemma slice_write_eq l off bs :
  0 <= off -> off + zlen bs <= zlen l -> slice (write l off bs) off (zlen bs) = Some bs.
Proof.
  intros Ho Hb. pose proof (zlen_nonneg bs). destruct (slice_some (write l off bs) off (zlen bs)) as (bs' & E & El);
    [done|done|by rewrite zlen_write|].
  rewrite E. f_equal. apply nth_z_ext; [done|]. intros i Hi. rewrite El in Hi.
  rewrite (slice_lookup (write l off bs) off (zlen bs) i) by (rewrite ?zlen_write; done || lia).
  rewrite nth_z_write, decide_True by lia. f_equal. lia.
Qed.

Lemma slice_write_ne l off bs off' n :
  off' + n <= off \/ off + zlen bs <= off' -> slice (write l off bs) off' n = slice l off' n.
Proof.
  intros Hd. destruct (decide (0 <= off /\ off + zlen bs <= zlen l)) as [Hw|Hw]; [|unfold write; by rewrite decide_False].
  destruct (decide (0 <= off' /\ 0 <= n /\ off' + n <= zlen l)) as [Hs|Hs];
    [|unfold slice; by rewrite zlen_write, !decide_False].
  destruct (slice_some l off' n) as (b1 & E1 & L1); [lia..|].
  destruct (slice_some (write l off bs) off' n) as (b2 & E2 & L2); [rewrite ?zlen_write; lia..|].
  rewrite E1, E2. f_equal. apply nth_z_ext; [lia|]. intros i Hi. rewrite L2 in Hi.
  rewrite (slice_lookup (write l off bs) off' n i ltac:(lia) ltac:(rewrite zlen_write; lia) Hi _ E2).
  rewrite (slice_lookup l off' n i ltac:(lia) ltac:(lia) Hi _ E1).
  rewrite nth_z_write by lia. by rewrite decide_False by lia.
Qed.
End slices.

(** ** Integers in memory *)

Fixpoint le_combine (bs : list Z) : Z :=
  match bs with [] => 0 | x :: bs => x + 256 * le_combine bs end.

Fixpoint le_split (n : nat) (v : Z) : list Z :=
  match n with O => [] | S n => v mod 256 :: le_split n (v / 256) end.

Definition be_combine (bs : list Z) : Z := le_combine (reverse bs).

Definition be_split (n : nat) (v : Z) : list Z := reverse (le_split n v).

Lemma length_le_split n v : length (le_split n v) = n.
Proof. revert v. induction n; cbn; auto. Qed.

Lemma zlen_le_split n v : zlen (le_split n v) = Z.of_nat n.
Proof. unfold zlen. by rewrite length_le_split. Qed.

Lemma le_combine_split n v : fits (8 * Z.of_nat n) v -> le_combine (le_split n v) = v.
Proof.
  revert v. induction n as [|n IH]; intros v Hv; cbn; [unfold fits in Hv; lia|].
  rewrite IH; [pose proof (Z.div_mod v 256 ltac:(lia)); lia|].
  unfold fits in *. replace (8 * Z.of_nat (S n)) with (8 * Z.of_nat n + 8) in Hv by lia.
  rewrite Z.pow_add_r in Hv by lia. split; [apply Z.div_pos; lia|apply Z.div_lt_upper_bound; lia].
Qed.

Lemma le_combine_bound bs : Forall byte_ok bs -> fits (8 * zlen bs) (le_combine bs).
Proof.
  induction 1 as [|x bs Hx _ IH]; [by vm_compute|]. unfold fits, byte_ok, zlen in *. cbn [le_combine length].
  replace (8 * Z.of_nat (S (length bs))) with (8 * Z.of_nat (length bs) + 8) by lia. rewrite Z.pow_add_r by lia. lia.
Qed.

Lemma be_combine_split n v : fits (8 * Z.of_nat n) v -> be_combine (be_split n v) = v.
Proof. intros. unfold be_combine, be_split. rewrite reverse_involutive. by apply le_combine_split. Qed.

Lemma be_combine_bound bs : Forall byte_ok bs -> fits (8 * zlen bs) (be_combine bs).
Proof.
  intros Hb. unfold be_combine. replace (zlen bs) with (zlen (reverse bs)) by (unfold zlen; by rewrite length_reverse).
  apply le_combine_bound. by apply Forall_reverse.
Qed.

(** An integer of [n] bytes at an offset. *)
Definition read_le (l : list Z) (n : nat) (off : Z) : option Z := le_combine <$> slice l off (Z.of_nat n).
Definition write_le (l : list Z) (n : nat) (off v : Z) : list Z := write l off (le_split n v).
Definition read_be (l : list Z) (n : nat) (off : Z) : option Z := be_combine <$> slice l off (Z.of_nat n).

Lemma zlen_write_le l n off v : zlen (write_le l n off v) = zlen l.
Proof. apply zlen_write. Qed.

Lemma read_write_le l n off v :
  0 <= off -> off + Z.of_nat n <= zlen l -> fits (8 * Z.of_nat n) v -> read_le (write_le l n off v) n off = Some v.
Proof.
  intros Ho Hl Hv. unfold read_le, write_le. rewrite <-(zlen_le_split n v), slice_write_eq by (rewrite ?zlen_le_split; lia).
  cbn. by rewrite le_combine_split.
Qed.

Lemma read_le_write l n off off' bs :
  off + Z.of_nat n <= off' \/ off' + zlen bs <= off -> read_le (write l off' bs) n off = read_le l n off.
Proof. intros Hd. unfold read_le. by rewrite slice_write_ne. Qed.

Lemma read_le_write_le l n off off' m v :
  off + Z.of_nat n <= off' \/ off' + Z.of_nat m <= off -> read_le (write_le l m off' v) n off = read_le l n off.
Proof. intros Hd. apply read_le_write. by rewrite zlen_le_split. Qed.

(** ** Bytes at a position *)

Definition has (d : list Z) (p : Z) (l : list Z) : Prop := exists pre post, d = pre ++ l ++ post /\ zlen pre = p.

Lemma has_app d p l1 l2 : has d p (l1 ++ l2) -> has d p l1 /\ has d (p + zlen l1) l2.
Proof.
  intros (pre & post & -> & <-). split.
  - exists pre, (l2 ++ post). by rewrite <-app_assoc.
  - exists (pre ++ l1), post. rewrite <-!app_assoc. split; [done|]. apply zlen_app.
Qed.

Lemma has_bound d p l : has d p l -> 0 <= p /\ p + zlen l <= zlen d.
Proof.
  intros (pre & post & -> & <-). rewrite !zlen_app. pose proof (zlen_nonneg pre). pose proof (zlen_nonneg post). lia.
Qed.

Lemma has_slice d p l : has d p l -> slice d p (zlen l) = Some l.
Proof.
  intros Hh. pose proof (has_bound _ _ _ Hh) as Hb. destruct Hh as (pre & post & -> & <-). pose proof (zlen_nonneg l).
  unfold slice. rewrite decide_True by lia. f_equal. unfold zlen. rewrite !Nat2Z.id, drop_app_length, take_app_length. done.
Qed.

Lemma has_drop d p l : has d p l -> exists post, drop (Z.to_nat p) d = l ++ post.
Proof. intros (pre & post & -> & <-). exists post. unfold zlen. by rewrite Nat2Z.id, drop_app_length. Qed.

(** A little-endian number written somewhere is read back. *)
Lemma has_read_le d p n v : has d p (le_split n v) -> fits (8 * Z.of_nat n) v -> read_le d n p = Some v.
Proof.
  intros Hh Hv. unfold read_le. apply has_slice in Hh. rewrite zlen_le_split in Hh. rewrite Hh. cbn. f_equal. by apply le_combine_split.
Qed.
