(* ===== verification/DuxMem.v ===== *)
(** * The dux library: address range reservations

    The user-space library keeps one [Global] structure at a fixed address
    (src/lib/rust/dux/src/mem.rs): a sorted table of reserved address ranges and
    the queues of the task.  This file has the structure, the spin lock
    (src/lib/rust/dux/src/util.rs), page constants (src/lib/rust/dux/src/page.rs)
    and the reservation functions.  Reservations refine a set of disjoint ranges
    where [reserve_range] takes the lowest free address.

    One thread runs at a time: a lock that is taken when the code waits for it is
    never released, and the model is out of fuel. *)

From S2P Require Import Prelude.

(** ** Pages (dux/src/page.rs) *)

Definition SIZE : Z := 4096.
Definition NULL_PAGE_END : Z := SIZE - 1.
Definition DUX_OFFSET_MASK : Z := SIZE - 1.

Definition Page_new (ptr : Z) : result Z unit :=
  if decide (Z.land ptr (SIZE - 1) = 0) then Ok ptr else Err tt.

Definition Page_end (page : Z) : Z := page + (SIZE - 1).

Definition min_pages_for_range (size : Z) : Z := wrap 64 (size + SIZE - 1) / SIZE.

(** ** The global structure *)

Record MemoryMap := mkMemoryMap { mm_start : option Z; mm_end : Z }.

Definition null_map : MemoryMap := mkMemoryMap None 0.

Record FreePage := mkFreePage { fp_address : option Z; fp_count : Z }.

(** The memory behind [ipc_packets]: the ring and stack tables that follow the
    packets, shared with the kernel. *)
Record Tables := mkTables {
  tx_index : Z; tx_entries : list Z;
  rx_index : Z; rx_entries : list Z;
  free_top : Z; free_entries : list Z
}.

(** [GlobalPart] and the entries of [Global]; [free_ranges] and [tables] are what
    the pointers of the structure point at. *)
Record Global := mkGlobal {
  ipc_packets : Z;
  tables : Tables;
  free_ranges : list FreePage;
  reserved_count : Z;
  reserved_capacity : Z;
  free_ranges_capacity : Z;
  ring_mask : Z;
  last_received_index : Z;
  transmit_lock : bool;
  received_lock : bool;
  reserved_entries : list MemoryMap
}.

(** [(Page::SIZE - size_of::<GlobalPart>()) / size_of::<MemoryMap>()]: the part has
    six words, two [u16] and two [bool]. *)
Definition RESERVED_ENTRIES : Z := (SIZE - 56) / 16.

Definition GLOBAL_PTR : Z := Z.ldiff 0x0fffffff (SIZE - 1).

Definition set_reserved_entries (l : list MemoryMap) (g : Global) : Global :=
  mkGlobal (ipc_packets g) (tables g) (free_ranges g) (reserved_count g) (reserved_capacity g)
    (free_ranges_capacity g) (ring_mask g) (last_received_index g) (transmit_lock g) (received_lock g) l.

Definition set_reserved_count (n : Z) (g : Global) : Global :=
  mkGlobal (ipc_packets g) (tables g) (free_ranges g) n (reserved_capacity g)
    (free_ranges_capacity g) (ring_mask g) (last_received_index g) (transmit_lock g) (received_lock g)
    (reserved_entries g).

Definition set_reserved_capacity (n : Z) (g : Global) : Global :=
  mkGlobal (ipc_packets g) (tables g) (free_ranges g) (reserved_count g) n
    (free_ranges_capacity g) (ring_mask g) (last_received_index g) (transmit_lock g) (received_lock g)
    (reserved_entries g).

(** ** The spin lock (dux/src/util.rs) *)

(** [SpinLockGuard::new]: the value before it was locked. *)
Definition SpinLockGuard_new {S V} `{EqDecision V} (ld : S -> V) (st : V -> S -> S) (value : V) : M S V :=
  fun s => if decide (ld s = value) then OutOfFuel else Done (ld s, st value s).

(** [drop] stores the value of the guard. *)
Definition SpinLockGuard_drop {S V} (st : V -> S -> S) (value : V) : M S unit := modify (st value).

(** The closure gets the value and returns its result and the new value. *)
Definition spin_lock {S V R} `{EqDecision V} (ld : S -> V) (st : V -> S -> S) (value : V)
    (f : V -> M S (R * V)) : M S R :=
  let* v := SpinLockGuard_new ld st value in
  let* rv := f v in
  SpinLockGuard_drop st rv.2 ;;
  ret rv.1.

(** ** Reserving *)

Inductive ReserveError := NoMemory | NoSpace.
Inductive UnreserveError := InvalidAddress | SizeTooLarge.

Definition get_entry (i : Z) : M Global MemoryMap :=
  let* l := gets reserved_entries in unwrap "index out of bounds" (nth_z l i).

Definition set_entry (i : Z) (e : MemoryMap) : M Global unit :=
  get_entry i ;; modify (fun g => set_reserved_entries (set_z (reserved_entries g) i e) g).

(** [for i in (index + 1..=count).rev()]: entry [i] gets entry [i - 1]. *)
Fixpoint shift_up (n : nat) (i : Z) : M Global unit :=
  match n with
  | O => ret tt
  | S n =>
    let* e := get_entry (i - 1) in
    set_entry i e ;;
    shift_up n (i - 1)
  end.

Definition mem_insert_entry (index start end_ capacity : Z) : M Global (result unit unit) :=
  let* count := gets reserved_count in
  if decide (capacity <= count) then ret (Err tt) else
  modify (set_reserved_count (wrap 64 (count + 1))) ;;
  shift_up (Z.to_nat (count - index)) count ;;
  set_entry index (mkMemoryMap (Some start) end_) ;;
  ret (Ok tt).

Definition start_or_null (e : MemoryMap) : Z := default 0 (mm_start e).

(** [for i in 0..reserved_count] *)
Fixpoint reserve_loop (n : nat) (i prev_end count capacity : Z) : M Global (result Z ReserveError) :=
  match n with
  | O => ret (Err NoSpace)
  | S n =>
    let* mm := get_entry i in
    let start := wrap 64 (prev_end + 1) in
    let end_ := wrap 64 (start + wrap 64 (count * SIZE - 1)) in
    if decide (prev_end < start /\ end_ < start_or_null mm) then
      (if decide (end_ = 0) then panic "called `Option::unwrap()` on a `None` value" else
      let* r := mem_insert_entry i start end_ capacity in
      match r with
      | Err _ => ret (Err NoMemory)
      | Ok _ => ret (Ok start)
      end)
    else reserve_loop n (i + 1) (mm_end mm) count capacity
  end.

Definition reserve_range (address : option Z) (count : Z) : M Global (result Z ReserveError) :=
  spin_lock reserved_capacity set_reserved_capacity 0 (fun capacity =>
    match address with
    | Some _ => panic "not yet implemented"
    | None =>
      let* n := gets reserved_count in
      let* r := reserve_loop (Z.to_nat n) 0 NULL_PAGE_END count capacity in
      ret (r, capacity)
    end).

(** ** Unreserving *)

(** [<[T]>::binary_search_by] of the standard library; the fuel is the length. *)
Fixpoint binary_search_by {T} (fuel : nat) (f : T -> comparison) (l : list T) (left right : Z)
  : option (result Z Z) :=
  if decide (left < right) then
    match fuel with
    | O => None
    | S fuel =>
      let mid := left + (right - left) / 2 in
      match nth_z l mid with
      | None => None
      | Some x =>
        match f x with
        | Lt => binary_search_by fuel f l (mid + 1) right
        | Gt => binary_search_by fuel f l left mid
        | Eq => Some (Ok mid)
        end
      end
    end
  else Some (Err left).

(** [for i in i..count]: entry [i] gets entry [i + 1]. *)
Fixpoint shift_down (n : nat) (i : Z) : M Global unit :=
  match n with
  | O => ret tt
  | S n =>
    let* e := get_entry (i + 1) in
    set_entry i e ;;
    shift_down n (i + 1)
  end.

Definition unreserve_range (address : Z) (_count : Z) : M Global (result unit UnreserveError) :=
  spin_lock reserved_capacity set_reserved_capacity 0 (fun capacity =>
    let* count := gets reserved_count in
    let* l := gets reserved_entries in
    if decide (zlen l < count) then panic "range end index out of range for slice" else
    match binary_search_by (Z.to_nat count) (fun e => Z.compare (start_or_null e) address)
            (take (Z.to_nat count) l) 0 count with
    | None => fun _ => OutOfFuel
    | Some (Err _) => ret (Err InvalidAddress, capacity)
    | Some (Ok i) =>
      let count := count - 1 in
      shift_down (Z.to_nat (count - i)) i ;;
      modify (set_reserved_count count) ;;
      ret (Ok tt, capacity)
    end).

(** ** Allocating ranges

    [mem_alloc] and [mem_dealloc] are the statuses of the system calls. *)

Section ranges.
Context (mem_alloc : Z -> Z -> Z -> Z) (mem_dealloc : Z -> Z -> Z).

Definition allocate_range (address : option Z) (count flags : Z) : M Global (result Z ReserveError) :=
  let? address := reserve_range address count in
  if decide (mem_alloc address count flags = 0) then ret (Ok address)
  else panic "internal error: entered unreachable code".

Definition deallocate_range (address count : Z) : M Global unit :=
  let* r := unreserve_range address count in
  unwrap_ok "failed to deallocate range" r ;;
  let status := mem_dealloc address count in
  if decide (status = 0) then ret tt
  else if decide (status = 6) then panic "pages were not allocated"
  else panic "internal error: entered unreachable code".
End ranges.

(** ** The reservations [init] starts with *)

Definition init_reserved : M Global unit :=
  modify (set_reserved_capacity RESERVED_ENTRIES) ;;
  set_entry 1 (mkMemoryMap (Some GLOBAL_PTR) (GLOBAL_PTR + (SIZE - 1))) ;;
  set_entry 2 (mkMemoryMap (Some 0xfff00000) 0xfffeffff) ;;
  set_entry 0 (mkMemoryMap (Some 0x10000) 0x1ffffff) ;;
  modify (set_reserved_count 3).

(** The zeroed page [Global] starts as. *)
Definition zero_global : Global :=
  mkGlobal 0 (mkTables 0 [] 0 [] 0 []) [] 0 0 0 0 0 false false
    (replicate (Z.to_nat RESERVED_ENTRIES) null_map).

Lemma RESERVED_ENTRIES_eq : RESERVED_ENTRIES = 252.
Proof. done. Qed.

(** ** The table as a sorted list of ranges *)

Abbreviation range := (Z * Z)%type.

Definition entry_of (r : range) : MemoryMap := mkMemoryMap (Some r.1) r.2.

(** Page-aligned ranges above [lo], in order, in the lower half of the address space. *)
Fixpoint ranges_ok (lo : Z) (l : list range) : Prop :=
  match l with
  | [] => True
  | (s, e) :: l => (lo < s <= e /\ e < 2 ^ 63) /\ (s mod SIZE = 0 /\ (e + 1) mod SIZE = 0) /\ ranges_ok e l
  end.

(** The table [g] holds the ranges [l], and its lock is free. *)
Definition resv (g : Global) (l : list range) : Prop :=
  reserved_count g = zlen l /\ reserved_capacity g = RESERVED_ENTRIES /\
  zlen (reserved_entries g) = RESERVED_ENTRIES /\
  (exists rest, reserved_entries g = (entry_of <$> l) ++ rest) /\ ranges_ok NULL_PAGE_END l.

Lemma get_entry_at g pre x post :
  reserved_entries g = pre ++ x :: post -> get_entry (zlen pre) g = Done (x, g).
Proof. intros E. unfold get_entry, bind, gets. rewrite E, nth_z_middle. done. Qed.

Lemma set_entry_at g pre x post y :
  reserved_entries g = pre ++ x :: post ->
  set_entry (zlen pre) y g = Done (tt, set_reserved_entries (pre ++ y :: post) g).
Proof.
  intros E. unfold set_entry, bind. rewrite (get_entry_at _ _ _ _ E). unfold modify. by rewrite E, set_z_app.
Qed.

Lemma shift_up_spec mids : forall g pre x rest,
  reserved_entries g = pre ++ mids ++ x :: rest ->
  exists y, shift_up (length mids) (zlen pre + zlen mids) g =
    Done (tt, set_reserved_entries (pre ++ y :: mids ++ rest) g).
Proof.
  induction mids as [|m mids IH] using rev_ind; intros g pre x rest E.
  { exists x. cbn in *. unfold ret. rewrite <-E. by destruct g. }
  rewrite <-app_assoc in E. cbn in E.
  assert (zlen pre + zlen (mids ++ [m]) - 1 = zlen (pre ++ mids)) as Ei by (rewrite !zlen_app, zlen_cons, zlen_nil; lia).
  assert (zlen pre + zlen (mids ++ [m]) = zlen ((pre ++ mids) ++ [m])) as Ei' by (rewrite !zlen_app; lia).
  destruct (IH (set_reserved_entries (((pre ++ mids) ++ [m]) ++ m :: rest) g) pre m (m :: rest)) as [y Ey].
  { cbn. by rewrite <-!app_assoc. }
  exists y. rewrite length_app, Nat.add_comm. cbn [length Nat.add shift_up]. rewrite Ei, Ei'.
  rewrite (bind_done _ _ g m g) by (apply (get_entry_at _ _ _ (x :: rest)); by rewrite E, <-app_assoc).
  rewrite (bind_done _ _ _ _ _ (set_entry_at g ((pre ++ mids) ++ [m]) x rest m ltac:(by rewrite E, <-!app_assoc))).
  rewrite zlen_app, Ey, <-(app_assoc mids). done.
Qed.

Lemma shift_down_spec mids : forall g pre x rest,
  reserved_entries g = pre ++ x :: mids ++ rest ->
  exists y, shift_down (length mids) (zlen pre) g =
    Done (tt, set_reserved_entries (pre ++ mids ++ y :: rest) g).
Proof.
  induction mids as [|m mids IH]; intros g pre x rest E.
  { exists x. cbn in *. unfold ret. rewrite <-E. by destruct g. }
  assert (zlen pre + 1 = zlen (pre ++ [x])) as Ei by (rewrite zlen_app, zlen_cons, zlen_nil; lia).
  destruct (IH (set_reserved_entries (pre ++ m :: m :: mids ++ rest) g) (pre ++ [m]) m rest) as [y Ey].
  { cbn. by rewrite <-app_assoc. }
  exists y. cbn [length shift_down]. rewrite Ei.
  rewrite (bind_done _ _ g m g) by (apply (get_entry_at _ _ _ (mids ++ rest)); by rewrite E, <-app_assoc).
  rewrite (bind_done _ _ _ _ _ (set_entry_at g pre x _ m E)).
  replace (zlen (pre ++ [x])) with (zlen (pre ++ [m])) by (by rewrite !zlen_app).
  cbn [app]. rewrite Ey, <-(app_assoc pre). done.
Qed.

(** The number of pages a count stands for: their size in bytes wraps at 2^64. *)
Definition pages (count : Z) : Z := count mod 2 ^ 52.

Lemma pages_size n : 1 <= pages n -> wrap 64 (n * SIZE - 1) = pages n * SIZE - 1.
Proof.
  unfold pages, wrap, SIZE. intros Hn. pose proof (Z.mod_pos_bound n (2 ^ 52) ltac:(done)). symmetry.
  apply (Z.mod_unique_pos _ _ (n / 2 ^ 52)); [lia|]. pose proof (Z.div_mod n (2 ^ 52) ltac:(done)). lia.
Qed.

(** ** First fit *)

(** The address and the new list, for [sz] bytes above [lo]. *)
Fixpoint first_fit (lo sz : Z) (l : list range) : option (Z * list range) :=
  match l with
  | [] => None
  | (s, e) :: l =>
    if decide (lo + sz < s) then Some (lo + 1, (lo + 1, lo + sz) :: (s, e) :: l)
    else match first_fit e sz l with
         | Some (a, l') => Some (a, (s, e) :: l')
         | None => None
         end
  end.

Lemma ranges_ok_end lo l : ranges_ok lo l -> 0 <= lo -> forall s e, (s, e) ∈ l -> 0 <= s <= e /\ e < 2 ^ 63.
Proof.
  revert lo. induction l as [|[s' e'] l IH]; cbn; intros lo; [set_solver|].
  intros (Hb & _ & Hl) Hlo s e [[= -> ->]|Hin]%elem_of_cons; [lia|]. apply (IH e'); auto with lia.
Qed.

Lemma mem_insert_entry_spec g l1 l2 rest a e :
  reserved_entries g = (entry_of <$> l1 ++ l2) ++ rest -> reserved_count g = zlen (l1 ++ l2) ->
  zlen (reserved_entries g) = RESERVED_ENTRIES ->
  mem_insert_entry (zlen l1) a e RESERVED_ENTRIES g =
    if decide (RESERVED_ENTRIES <= zlen (l1 ++ l2)) then Done (Err tt, g)
    else Done (Ok tt, set_reserved_entries ((entry_of <$> l1 ++ (a, e) :: l2) ++ tail rest)
                        (set_reserved_count (zlen (l1 ++ l2) + 1) g)).
Proof.
  intros E Ec El. unfold mem_insert_entry, bind at 1, gets. rewrite Ec. case_decide as Hc; [done|].
  rewrite E, zlen_app, zlen_fmap in El. destruct rest as [|x rest]; [rewrite zlen_nil in El; lia|].
  pose proof (zlen_nonneg l1). pose proof (zlen_nonneg l2). pose proof (zlen_nonneg (l1 ++ l2)).
  rewrite wrap_small by (rewrite RESERVED_ENTRIES_eq in *; unfold fits; lia).
  set (g1 := set_reserved_count _ g).
  destruct (shift_up_spec (entry_of <$> l2) g1 (entry_of <$> l1) x rest) as [y Ey].
  { cbn. by rewrite E, fmap_app, <-app_assoc. }
  rewrite (bind_done _ _ g tt g1) by done.
  replace (Z.to_nat (zlen (l1 ++ l2) - zlen l1)) with (length (entry_of <$> l2))
    by (rewrite length_fmap, zlen_app; unfold zlen; lia).
  replace (zlen (l1 ++ l2)) with (zlen (entry_of <$> l1) + zlen (entry_of <$> l2)) at 1
    by (rewrite !zlen_fmap, zlen_app; lia).
  rewrite (bind_done _ _ _ _ _ Ey). rewrite <-(zlen_fmap entry_of l1).
  erewrite bind_done by (by apply (set_entry_at _ _ y ((entry_of <$> l2) ++ rest))).
  unfold ret. rewrite fmap_app, <-app_assoc. done.
Qed.

Lemma reserve_loop_spec l2 : forall g l1 lo rest n,
  reserved_entries g = (entry_of <$> l1 ++ l2) ++ rest -> reserved_count g = zlen (l1 ++ l2) ->
  zlen (reserved_entries g) = RESERVED_ENTRIES -> 0 <= lo < 2 ^ 63 -> ranges_ok lo l2 -> 1 <= pages n <= 2 ^ 51 ->
  reserve_loop (length l2) (zlen l1) lo n RESERVED_ENTRIES g =
    match first_fit lo (pages n * SIZE) l2 with
    | None => Done (Err NoSpace, g)
    | Some (a, l2') =>
      if decide (RESERVED_ENTRIES <= zlen (l1 ++ l2)) then Done (Err NoMemory, g)
      else Done (Ok a, set_reserved_entries ((entry_of <$> l1 ++ l2') ++ tail rest)
                         (set_reserved_count (zlen (l1 ++ l2) + 1) g))
    end.
Proof.
  induction l2 as [|[s e] l2 IH]; intros g l1 lo rest n E Ec El Hlo Hok Hn; [done|].
  destruct Hok as (Hb & _ & Hok). cbn [length reserve_loop first_fit].
  assert (zlen l1 = zlen (entry_of <$> l1)) as Ez by (by rewrite zlen_fmap). rewrite Ez at 1.
  rewrite (bind_done _ _ g (entry_of (s, e)) g).
  2:{ apply (get_entry_at _ _ _ ((entry_of <$> l2) ++ rest)). by rewrite E, fmap_app, <-app_assoc. }
  rewrite (wrap_small 64 (lo + 1)), pages_size by (unfold fits; lia). set (k := pages n) in *. unfold SIZE in *.
  rewrite wrap_small by (unfold fits; lia). change (start_or_null (entry_of (s, e))) with s. change (mm_end (entry_of (s, e))) with e.
  replace (lo + 1 + (k * 4096 - 1)) with (lo + k * 4096) by lia.
  destruct (decide (lo + k * 4096 < s)) as [Hfit|Hfit].
  - rewrite decide_True by lia. rewrite decide_False by lia. unfold bind.
    rewrite (mem_insert_entry_spec g l1 ((s, e) :: l2) rest) by done. by case_decide.
  - rewrite decide_False by lia.
    replace (zlen l1 + 1) with (zlen (l1 ++ [(s, e)])) by (rewrite zlen_app, zlen_cons, zlen_nil; lia).
    rewrite (IH g (l1 ++ [(s, e)]) e rest n); rewrite <-?app_assoc; [|done..|lia|done|done].
    destruct (first_fit e _ l2) as [[a l2']|]; [|done]. by rewrite <-app_assoc.
Qed.

(** ** Reservations as a set *)

Definition free_at (R : gset range) (a n : Z) : Prop :=
  forall s e, (s, e) ∈ R -> a + n * SIZE <= s \/ e < a.

Definition below_one (R : gset range) (a n : Z) : Prop :=
  exists s e, (s, e) ∈ R /\ a + n * SIZE <= s.

Definition disjoint_ranges (R : gset range) : Prop :=
  forall s e s' e', (s, e) ∈ R -> (s', e') ∈ R -> (s, e) <> (s', e') -> e < s' \/ e' < s.

Inductive call := Reserve (count : Z) | Unreserve (address count : Z).

Inductive answer := AReserve (r : result Z ReserveError) | AUnreserve (r : result unit UnreserveError).

(** What one call does to the set of reserved ranges. *)
Inductive resv_step (R : gset range) : call -> answer -> gset range -> Prop :=
| step_reserve n a :
    free_at R a (pages n) -> below_one R a (pages n) -> a mod SIZE = 0 -> SIZE <= a ->
    (forall a', SIZE <= a' -> free_at R a' (pages n) -> a <= a') -> Z.of_nat (size R) < RESERVED_ENTRIES ->
    resv_step R (Reserve n) (AReserve (Ok a)) ({[(a, a + pages n * SIZE - 1)]} ∪ R)
| step_no_space n :
    (forall a, SIZE <= a -> free_at R a (pages n) -> ~ below_one R a (pages n)) ->
    resv_step R (Reserve n) (AReserve (Err NoSpace)) R
| step_no_memory n :
    Z.of_nat (size R) = RESERVED_ENTRIES -> resv_step R (Reserve n) (AReserve (Err NoMemory)) R
| step_unreserve a e n :
    (a, e) ∈ R -> resv_step R (Unreserve a n) (AUnreserve (Ok tt)) (R ∖ {[(a, e)]})
| step_invalid a n :
    (forall e, (a, e) ∉ R) -> resv_step R (Unreserve a n) (AUnreserve (Err InvalidAddress)) R.

Inductive resv_steps : gset range -> list call -> list answer -> gset range -> Prop :=
| steps_nil R : resv_steps R [] [] R
| steps_cons R c a R' cs as_ R'' :
    resv_step R c a R' -> resv_steps R' cs as_ R'' -> resv_steps R (c :: cs) (a :: as_) R''.

Definition run_call (c : call) : M Global answer :=
  match c with
  | Reserve n => let* r := reserve_range None n in ret (AReserve r)
  | Unreserve a n => let* r := unreserve_range a n in ret (AUnreserve r)
  end.

Fixpoint run_calls (cs : list call) : M Global (list answer) :=
  match cs with
  | [] => ret []
  | c :: cs => let* a := run_call c in let* l := run_calls cs in ret (a :: l)
  end.

(** The counts [reserve_range] works for: neither zero pages nor more than half of the address
    space ([reserve_zero_gives_page_twice] and [reserve_huge_wraps] have the others). *)
Definition call_ok (c : call) : Prop :=
  match c with Reserve n => 1 <= pages n <= 2 ^ 51 | Unreserve _ _ => True end.

(** Facts about first fit. *)
Lemma first_fit_ok lo sz l a l' :
  ranges_ok lo l -> first_fit lo sz l = Some (a, l') -> 1 <= sz -> (lo + 1) mod SIZE = 0 -> sz mod SIZE = 0 ->
  ranges_ok lo l' /\ a mod SIZE = 0 /\ lo < a /\
  exists l1 r l2, l = l1 ++ r :: l2 /\ l' = l1 ++ (a, a + sz - 1) :: r :: l2.
Proof.
  revert lo l'. induction l as [|[s e] l IH]; cbn; [done|]. intros lo l' (Hb & Hm & Hl) E Hsz Hlo Hsm.
  case_decide as Hd.
  - injection E as <- <-. split; [|split; [done|split; [lia|exists [], (s, e), l; split; [done|]]]].
    + cbn. split; [lia|]. split; [split; [done|]|split; [lia|done]].
      replace (lo + sz + 1) with (lo + 1 + sz) by lia. by rewrite Zplus_mod, Hlo, Hsm.
    + cbn. do 2 f_equal. lia.
  - destruct (first_fit e sz l) as [[a' l'']|] eqn:E'; [|done]. injection E as -> <-.
    destruct (IH e l'' Hl E' Hsz (proj2 Hm) Hsm) as (Hok & Ha & Hlt & l1 & r & l2 & -> & ->).
    split; [done|]. split; [done|]. split; [lia|]. by exists ((s, e) :: l1), r, l2.
Qed.

Lemma first_fit_lowest lo n l :
  ranges_ok lo l -> 1 <= n ->
  forall a', lo < a' -> (forall s e, (s, e) ∈ l -> a' + n * SIZE <= s \/ e < a') ->
  match first_fit lo (n * SIZE) l with
  | Some (a, _) => a <= a'
  | None => forall s e, (s, e) ∈ l -> e < a'
  end.
Proof.
  revert lo. induction l as [|[s e] l IH]; cbn; intros lo; [set_solver|].
  intros (Hb & Hm & Hl) Hn a' Ha' Hfree. case_decide as Hd; [lia|].
  assert (e < a') as He by (destruct (Hfree s e); [by left|lia|done]).
  specialize (IH e Hl Hn a' He ltac:(intros; apply Hfree; by right)).
  destruct (first_fit e _ l) as [[a l']|]; [done|]. intros s' e' [[= -> ->]|Hin]%elem_of_cons; eauto.
Qed.

Lemma ranges_ok_app lo l1 l2 :
  ranges_ok lo (l1 ++ l2) -> ranges_ok lo l2 /\
  forall s e s' e', (s, e) ∈ l1 -> (s', e') ∈ l2 -> e < s'.
Proof.
  revert lo. induction l1 as [|[s0 e0] l1 IH]; cbn; intros lo; [intros; split; [done|set_solver]|].
  intros (Hb & Hm & Hl). destruct (IH e0 Hl) as [H2 H12].
  assert (forall lo', lo' <= e0 -> ranges_ok lo' l2) as Hlo.
  { intros lo' ?. destruct l2 as [|[s2 e2] l2]; [done|]. cbn in *. destruct H2 as (? & ? & ?). split; [lia|done]. }
  split; [apply Hlo; lia|].
  intros s e s' e' [[= -> ->]|Hin]%elem_of_cons Hin'; [|eauto].
  clear -H2 Hin'. revert e0 H2. induction l2 as [|[s2 e2] l2 IH]; intros e0 H2; [set_solver|].
  destruct H2 as (? & _ & H2). apply elem_of_cons in Hin' as [[= -> ->]|Hin']; [lia|]. specialize (IH Hin' e2 H2). lia.
Qed.

Lemma ranges_ok_apart lo l l1 s e l2 :
  ranges_ok lo l -> l = l1 ++ (s, e) :: l2 ->
  (forall s' e', (s', e') ∈ l1 -> e' < s) /\ (forall s' e', (s', e') ∈ l2 -> e < s').
Proof.
  intros Hok ->. destruct (ranges_ok_app _ _ _ Hok) as [_ H1]. split; [intros; eapply H1; [done|by left]|].
  rewrite cons_middle, app_assoc in Hok. destruct (ranges_ok_app _ _ _ Hok) as [_ H2].
  intros s' e' Hin. eapply (H2 s); [|done]. set_solver.
Qed.

Lemma ranges_ok_NoDup lo l : 0 <= lo -> ranges_ok lo l -> NoDup l.
Proof.
  revert lo. induction l as [|[s e] l IH]; intros lo Hlo Hok; [constructor|].
  destruct (ranges_ok_apart lo _ [] s e l Hok eq_refl) as [_ Ha]. destruct Hok as (Hb & _ & Hok).
  constructor; [|apply (IH e); [lia|done]]. intros Hin%Ha. lia.
Qed.

Lemma ranges_ok_disjoint lo l : 0 <= lo -> ranges_ok lo l -> disjoint_ranges (list_to_set l).
Proof.
  intros Hlo Hok s e s' e' Hin Hin' Hne. apply elem_of_list_to_set in Hin, Hin'.
  apply list_elem_of_split in Hin as (l1 & l2 & ->).
  destruct (ranges_ok_apart _ _ _ _ _ _ Hok eq_refl) as [H1 H2].
  apply elem_of_app in Hin' as [Hin'|[E|Hin']%elem_of_cons]; [right|congruence|left]; eauto.
Qed.

(** ** Binary search *)

Section search.
Context {T : Type} (key : T -> Z) (l : list T) (addr : Z).
Context (Hs : forall i j x y, nth_z l i = Some x -> nth_z l j = Some y -> i < j -> key x < key y).

Lemma binary_search_by_spec : forall fuel left right,
  0 <= left <= right -> right <= zlen l -> (Z.to_nat (right - left) <= fuel)%nat ->
  (forall i x, nth_z l i = Some x -> i < left -> key x < addr) ->
  (forall i x, nth_z l i = Some x -> right <= i -> addr < key x) ->
  exists r, binary_search_by fuel (fun x => Z.compare (key x) addr) l left right = Some r /\
    match r with
    | Ok i => exists x, nth_z l i = Some x /\ key x = addr
    | Err _ => forall i x, nth_z l i = Some x -> key x <> addr
    end.
Proof using Hs.
  induction fuel as [|fuel IH]; intros left right Hlr Hr Hf Hlow Hhigh; cbn [binary_search_by];
    (destruct (decide (left < right)) as [Hlt|Hge]; [try lia|]).
  1,3: exists (Err left); split; [done|]; intros i x Hx Ek;
    destruct (decide (i < left)); [specialize (Hlow _ _ Hx)|specialize (Hhigh _ _ Hx)]; lia.
  assert (left <= left + (right - left) / 2 < right) as Hmid.
  { pose proof (Z.div_pos (right - left) 2). pose proof (Z.div_lt (right - left) 2). lia. }
  set (mid := left + (right - left) / 2) in *. clearbody mid.
  destruct (nth_z_lt l mid ltac:(lia)) as [x Ex]. rewrite Ex.
  destruct (Z.compare_spec (key x) addr) as [E|E|E]; [exists (Ok mid); eauto|..]; apply IH; try lia; try done.
  - intros i y Hy Hi. destruct (decide (i = mid)) as [->|]; [congruence|]. specialize (Hs i mid y x Hy Ex). lia.
  - intros i y Hy Hi. destruct (decide (i = mid)) as [->|]; [congruence|]. specialize (Hs mid i x y Ex Hy). lia.
Qed.
End search.

Lemma ranges_ok_sorted lo l i j x y :
  ranges_ok lo l -> nth_z l i = Some x -> nth_z l j = Some y -> i < j -> x.1 < y.1.
Proof.
  intros Hok Hi Hj Hij. pose proof (nth_z_Some _ _ _ Hi). pose proof (nth_z_Some _ _ _ Hj).
  destruct x as [s e], y as [s' e']. unfold nth_z in *. rewrite decide_True in Hi by lia.
  rewrite decide_True in Hj by lia.
  rewrite <-(take_drop_middle _ _ _ Hi) in Hok.
  destruct (ranges_ok_apart _ _ _ _ _ _ Hok eq_refl) as [_ Ha]. cbn.
  assert ((s', e') ∈ drop (S (Z.to_nat i)) l) as Hin.
  { apply list_elem_of_lookup. exists (Z.to_nat j - S (Z.to_nat i))%nat. rewrite lookup_drop, <-Hj. f_equal. lia. }
  specialize (Ha _ _ Hin). apply ranges_ok_app in Hok as [(Hb & _) _]. lia.
Qed.

(** ** The calls refine the set *)

Lemma spin_lock_done {S V R} `{EqDecision V} (ld : S -> V) (st : V -> S -> S) value (f : V -> M S (R * V)) s r v s' :
  ld s <> value -> f (ld s) (st value s) = Done ((r, v), s') -> spin_lock ld st value f s = Done (r, st v s').
Proof.
  intros Hne E. unfold spin_lock, SpinLockGuard_new. unfold bind at 1. rewrite decide_False by done.
  by rewrite (bind_done _ _ _ _ _ E).
Qed.

Lemma resv_capacity g l : resv g l -> reserved_capacity g <> 0.
Proof. intros (_ & -> & _). done. Qed.

Lemma reserve_range_spec g l n :
  resv g l -> 1 <= pages n <= 2 ^ 51 ->
  exists g' l' r, reserve_range None n g = Done (r, g') /\ resv g' l' /\
    match first_fit NULL_PAGE_END (pages n * SIZE) l with
    | None => r = Err NoSpace /\ l' = l
    | Some (a, l2) => if decide (RESERVED_ENTRIES <= zlen l) then r = Err NoMemory /\ l' = l
                      else r = Ok a /\ l' = l2
    end.
Proof.
  intros Hg Hn. pose proof Hg as (Ec & Ecap & El & [rest E] & Hok).
  assert (forall r g', reserve_loop (length l) 0 NULL_PAGE_END n RESERVED_ENTRIES (set_reserved_capacity 0 g)
                       = Done (r, g') ->
            reserve_range None n g = Done (r, set_reserved_capacity RESERVED_ENTRIES g')) as Hrun.
  { intros r g' Er. apply spin_lock_done; [by eapply resv_capacity|]. rewrite Ecap.
    erewrite bind_done by reflexivity. cbn [reserved_count set_reserved_capacity]. rewrite Ec.
    unfold zlen. rewrite Nat2Z.id. by rewrite (bind_done _ _ _ _ _ Er). }
  rewrite (reserve_loop_spec l (set_reserved_capacity 0 g) [] _ rest n) in Hrun by done.
  cbn [app] in Hrun. destruct (first_fit NULL_PAGE_END (pages n * SIZE) l) as [[a l2]|] eqn:Ef.
  - destruct (decide (RESERVED_ENTRIES <= zlen l)) as [Hfull|Hroom].
    { eexists _, l, _. split; [by apply Hrun|]. split; [|done]. by split_and!; [..|exists rest|]. }
    eexists _, l2, _. split; [by apply Hrun|]. split; [|done].
    destruct (first_fit_ok _ _ _ _ _ Hok Ef) as (Hok' & _ & _ & l1' & x' & l2' & -> & ->); [unfold SIZE; lia|done|by apply Z.mod_mul|].
    unfold resv. cbn [reserved_count reserved_capacity reserved_entries set_reserved_capacity set_reserved_entries set_reserved_count].
    split; [rewrite !zlen_app, !zlen_cons; lia|]. split; [done|]. split; [|eauto].
    rewrite E in El. rewrite zlen_app, zlen_fmap in El. destruct rest as [|x rest]; [rewrite zlen_nil in El; lia|].
    cbn [tail]. rewrite zlen_cons in El. rewrite zlen_app, zlen_fmap, !zlen_app, !zlen_cons in *. lia.
  - eexists _, l, _. split; [by apply Hrun|]. split; [|done]. by split_and!; [..|exists rest|].
Qed.

Lemma nth_z_fmap {A B} (f : A -> B) l i : nth_z (f <$> l) i = f <$> nth_z l i.
Proof. unfold nth_z. case_decide; [|done]. apply list_lookup_fmap. Qed.

Lemma nth_z_split {A} (l : list A) i x :
  nth_z l i = Some x -> exists l1 l2, l = l1 ++ x :: l2 /\ i = zlen l1.
Proof.
  intros Hi. pose proof (nth_z_Some _ _ _ Hi). unfold nth_z in Hi. rewrite decide_True in Hi by lia.
  exists (take (Z.to_nat i) l), (drop (S (Z.to_nat i)) l). split; [by rewrite take_drop_middle|].
  unfold zlen in *. rewrite length_take. lia.
Qed.

Lemma search_spec lo l addr :
  ranges_ok lo l ->
  exists r, binary_search_by (length l) (fun e => Z.compare (start_or_null e) addr) (entry_of <$> l) 0 (zlen l) = Some r /\
    match r with
    | Ok i => exists l1 e l2, l = l1 ++ (addr, e) :: l2 /\ i = zlen l1
    | Err _ => forall e, (addr, e) ∉ l
    end.
Proof.
  intros Hok. destruct (binary_search_by_spec start_or_null (entry_of <$> l) addr) with
    (fuel := length l) (left := 0) (right := zlen l) as (r & E & Hr).
  - intros i j x y. rewrite !nth_z_fmap. intros ([s e] & Hi & ->)%fmap_Some ([s' e'] & Hj & ->)%fmap_Some Hij.
    by apply (ranges_ok_sorted lo l i j (s, e) (s', e')).
  - pose proof (zlen_nonneg l). lia.
  - by rewrite zlen_fmap.
  - unfold zlen. lia.
  - intros i x Hx%nth_z_Some Hi. lia.
  - intros i x Hx%nth_z_Some Hi. rewrite zlen_fmap in Hx. lia.
  - exists r. split; [done|]. destruct r as [i|i].
    + destruct Hr as (x & Hx & Hk). rewrite nth_z_fmap in Hx. apply fmap_Some in Hx as ([s e] & Hx & ->).
      cbn in Hk. subst s. apply nth_z_split in Hx as (l1 & l2 & -> & ->). eauto.
    + intros e (j & Hj)%list_elem_of_lookup. apply (Hr (Z.of_nat j) (entry_of (addr, e))); [|done].
      rewrite nth_z_fmap. unfold nth_z. by rewrite decide_True, Nat2Z.id, Hj by lia.
Qed.

Lemma ranges_ok_delete lo l1 r l2 : ranges_ok lo (l1 ++ r :: l2) -> ranges_ok lo (l1 ++ l2).
Proof.
  revert lo. induction l1 as [|[s e] l1 IH]; intros lo; cbn.
  - destruct r as [s e]. intros (Hb & _ & H2). destruct l2 as [|[s2 e2] l2]; [done|].
    cbn in *. destruct H2 as (? & ? & ?). split; [lia|done].
  - intros (Hb & Hm & Hl). split; [done|]. split; [done|]. by apply IH.
Qed.

Lemma unreserve_range_spec g l addr n :
  resv g l ->
  exists g' l' r, unreserve_range addr n g = Done (r, g') /\ resv g' l' /\
    ((exists l1 e l2, l = l1 ++ (addr, e) :: l2 /\ l' = l1 ++ l2 /\ r = Ok tt) \/
     ((forall e, (addr, e) ∉ l) /\ l' = l /\ r = Err InvalidAddress)).
Proof.
  intros Hg. pose proof Hg as (Ec & Ecap & El & [rest E] & Hok).
  destruct (search_spec _ l addr Hok) as (r & Es & Hr).
  assert (zlen l <= RESERVED_ENTRIES) as Hle by (rewrite E, zlen_app, zlen_fmap in El; pose proof (zlen_nonneg rest); lia).
  assert (take (length l) (reserved_entries g) = entry_of <$> l) as Et
    by (rewrite E; apply take_app_length'; by rewrite length_fmap).
  destruct r as [i|i].
  - destruct Hr as (l1 & e & l2 & -> & ->).
    destruct (shift_down_spec (entry_of <$> l2) (set_reserved_capacity 0 g) (entry_of <$> l1) (entry_of (addr, e)) rest)
      as [y Ey]; [cbn; by rewrite E, fmap_app, <-app_assoc|].
    eexists _, (l1 ++ l2), (Ok tt). split; [|split; [|left; eauto 10]].
    + apply spin_lock_done; [by eapply resv_capacity|]. do 2 erewrite bind_done by reflexivity.
      cbn [reserved_count reserved_entries set_reserved_capacity]. rewrite Ec, decide_False by lia.
      unfold zlen at 1 2. rewrite Nat2Z.id, Et, Es.
      replace (Z.to_nat (zlen (l1 ++ (addr, e) :: l2) - 1 - zlen l1)) with (length (entry_of <$> l2))
        by (rewrite length_fmap, zlen_app, zlen_cons; unfold zlen; lia).
      rewrite <-(zlen_fmap entry_of l1), (bind_done _ _ _ _ _ Ey), Ecap. reflexivity.
    + unfold resv. cbn [reserved_count reserved_capacity reserved_entries set_reserved_capacity set_reserved_entries set_reserved_count].
      split; [rewrite !zlen_app, zlen_cons; lia|]. split; [done|]. split.
      * rewrite <-El, E. repeat (rewrite zlen_app || rewrite zlen_fmap || rewrite zlen_cons). lia.
      * split; [exists (y :: rest); by rewrite fmap_app, <-app_assoc|by eapply ranges_ok_delete].
  - eexists _, l, (Err InvalidAddress). split; [|split; [|by right]].
    + apply spin_lock_done; [by eapply resv_capacity|]. do 2 erewrite bind_done by reflexivity.
      cbn [reserved_count reserved_entries set_reserved_capacity]. rewrite Ec, decide_False by lia.
      unfold zlen at 1 2. rewrite Nat2Z.id, Et, Es, Ecap. reflexivity.
    + by split_and!; [..|exists rest|].
Qed.

Lemma resv_size g l : resv g l -> Z.of_nat (size (list_to_set l : gset range)) = zlen l.
Proof.
  intros (_ & _ & _ & _ & Hok). rewrite size_list_to_set; [done|].
  by eapply ranges_ok_NoDup; [|exact Hok].
Qed.

Lemma resv_len g l : resv g l -> zlen l <= RESERVED_ENTRIES.
Proof.
  intros (_ & _ & El & [rest E] & _). rewrite E, zlen_app, zlen_fmap in El. pose proof (zlen_nonneg rest). lia.
Qed.

Lemma free_at_list l a n :
  free_at (list_to_set l) a n <-> forall s e, (s, e) ∈ l -> a + n * SIZE <= s \/ e < a.
Proof. unfold free_at. by setoid_rewrite elem_of_list_to_set. Qed.

Lemma reserve_step g l n :
  resv g l -> 1 <= pages n <= 2 ^ 51 ->
  exists g' l' r, reserve_range None n g = Done (r, g') /\ resv g' l' /\
    resv_step (list_to_set l) (Reserve n) (AReserve r) (list_to_set l').
Proof.
  intros Hg Hn. destruct (reserve_range_spec g l n Hg Hn) as (g' & l' & r & E & Hg' & Hr).
  pose proof Hg as (_ & _ & _ & _ & Hok). exists g', l', r. split; [done|]. split; [done|].
  pose proof (first_fit_lowest NULL_PAGE_END (pages n) l Hok ltac:(lia)) as Hlow.
  destruct (first_fit NULL_PAGE_END (pages n * SIZE) l) as [[a l2]|] eqn:Ef.
  - destruct (decide (RESERVED_ENTRIES <= zlen l)) as [Hfull|Hroom]; destruct Hr as [-> ->].
    { apply step_no_memory. rewrite (resv_size g) by done. pose proof (resv_len _ _ Hg). lia. }
    destruct (first_fit_ok _ _ _ _ _ Hok Ef) as (Hok' & Ha & Hlt & l1 & [s e] & l3 & -> & ->);
      [unfold SIZE; lia|done|by apply Z.mod_mul|].
    destruct (ranges_ok_apart _ _ _ _ _ _ Hok' eq_refl) as [H1 H2].
    assert (a + pages n * SIZE <= s) as Hs by (specialize (H2 s e ltac:(by left)); lia).
    replace (list_to_set (l1 ++ (a, a + pages n * SIZE - 1) :: (s, e) :: l3))
      with ({[(a, a + pages n * SIZE - 1)]} ∪ list_to_set (l1 ++ (s, e) :: l3) : gset range) by set_solver.
    apply step_reserve; [|exists s, e; set_solver|done|unfold NULL_PAGE_END in Hlt; lia| |].
    + apply free_at_list. intros s' e' [Hin|Hin]%elem_of_app; [right; eauto|left].
      specialize (H2 _ _ Hin). lia.
    + intros a' Ha' Hf. rewrite free_at_list in Hf. apply Hlow; [unfold NULL_PAGE_END; lia|done].
    + rewrite (resv_size g) by done. lia.
  - destruct Hr as [-> ->]. apply step_no_space. intros a Ha Hf (s & e & Hin & Hle). rewrite free_at_list in Hf.
    apply elem_of_list_to_set in Hin. assert (e < a) by (eapply Hlow; [unfold NULL_PAGE_END; lia|done|done]).
    pose proof (ranges_ok_end _ _ Hok ltac:(done) s e Hin). unfold SIZE in *. lia.
Qed.

Lemma unreserve_step g l a n :
  resv g l ->
  exists g' l' r, unreserve_range a n g = Done (r, g') /\ resv g' l' /\
    resv_step (list_to_set l) (Unreserve a n) (AUnreserve r) (list_to_set l').
Proof.
  intros Hg. destruct (unreserve_range_spec g l a n Hg) as (g' & l' & r & E & Hg' & Hr).
  pose proof Hg as (_ & _ & _ & _ & Hok). exists g', l', r. split; [done|]. split; [done|].
  destruct Hr as [(l1 & e & l2 & -> & -> & ->)|(Hno & -> & ->)].
  - pose proof (ranges_ok_NoDup NULL_PAGE_END _ ltac:(done) Hok) as Hnd.
    apply NoDup_app in Hnd as (_ & H1 & [H2 _]%NoDup_cons).
    replace (list_to_set (l1 ++ l2)) with (list_to_set (l1 ++ (a, e) :: l2) ∖ {[(a, e)]} : gset range) by set_solver.
    apply step_unreserve. set_solver.
  - apply step_invalid. set_solver.
Qed.

(** C19: Reserving and unreserving address ranges refines a set of disjoint
    ranges.  From any table that holds the ranges [l], every sequence of calls
    that reserve between 1 and 2^51 pages (the count is taken modulo 2^52, as its
    size in bytes wraps) or unreserve any address returns, and each answer is one
    the set allows: [reserve_range] takes the lowest address above the first page
    where the pages fit without touching a reserved range, refuses with [NoSpace]
    only if no free gap below a reservation is large enough, and with [NoMemory]
    only if the table is full; [unreserve_range] removes exactly the range that
    starts at the address.  The ranges stay disjoint.  A call that asks for an
    address is not implemented and panics. *)
Theorem reservations_refine_set cs g l :
  resv g l -> Forall call_ok cs ->
  (exists g' l' answers, run_calls cs g = Done (answers, g') /\ resv g' l' /\
    resv_steps (list_to_set l) cs answers (list_to_set l') /\ disjoint_ranges (list_to_set l')) /\
  forall a n, reserve_range (Some a) n g = Panicked "not yet implemented".
Proof.
  intros Hg Hcs. split; [|intros; unfold reserve_range, spin_lock, SpinLockGuard_new, bind; by rewrite decide_False by by eapply resv_capacity].
  revert g l Hg. induction Hcs as [|c cs Hc Hcs IH]; intros g l Hg.
  { exists g, l, []. split; [done|]. split; [done|]. split; [constructor|].
    destruct Hg as (_ & _ & _ & _ & Hok). by eapply ranges_ok_disjoint; [|exact Hok]. }
  assert (exists g1 l1 a, run_call c g = Done (a, g1) /\ resv g1 l1 /\
            resv_step (list_to_set l) c a (list_to_set l1)) as (g1 & l1 & a & E & Hg1 & Hstep).
  { destruct c as [n|a n]; cbn [run_call].
    - destruct (reserve_step g l n Hg Hc) as (g1 & l1 & r & E & Hg1 & Hs). exists g1, l1, (AReserve r).
      by rewrite (bind_done _ _ _ _ _ E).
    - destruct (unreserve_step g l a n Hg) as (g1 & l1 & r & E & Hg1 & Hs). exists g1, l1, (AUnreserve r).
      by rewrite (bind_done _ _ _ _ _ E). }
  destruct (IH g1 l1 Hg1) as (g2 & l2 & as_ & E2 & Hg2 & Hsteps & Hd).
  exists g2, l2, (a :: as_). split; [|split; [done|split; [by econstructor|done]]].
  cbn [run_calls]. rewrite (bind_done _ _ _ _ _ E). by rewrite (bind_done _ _ _ _ _ E2).
Qed.

(** The table [init] sets up. *)
Definition init_global : Global :=
  match init_reserved zero_global with Done (_, g) => g | _ => zero_global end.

Lemma init_resv : resv init_global [(0x10000, 0x1ffffff); (0xffff000, 0xfffffff); (0xfff00000, 0xfffeffff)].
Proof.
  split; [done|]. split; [done|]. split; [by vm_compute|]. split.
  - exists (replicate 249 null_map). by vm_compute.
  - cbn. unfold NULL_PAGE_END, SIZE. by vm_compute.
Qed.

Lemma reservations_refine_set_witness :
  exists g' answers, run_calls [Reserve 8; Reserve 20; Unreserve 0x2000000 8; Reserve 2; Unreserve 5 1] init_global
    = Done (answers, g').
Proof.
  destruct (reservations_refine_set [Reserve 8; Reserve 20; Unreserve 0x2000000 8; Reserve 2; Unreserve 5 1]
    init_global _ init_resv) as ((g' & l' & answers & E & _) & _).
  - repeat (apply Forall_cons_2; [by vm_compute|]). apply Forall_nil_2.
  - by exists g', answers.
Defined.

(** Two reservations of no pages get the same address. *)
Theorem reserve_zero_gives_page_twice :
  (fst <$> match run_calls [Reserve 0; Reserve 0] init_global with Done r => Some r | _ => None end) =
    Some [AReserve (Ok SIZE); AReserve (Ok SIZE)].
Proof. by vm_compute. Qed.

(** A reservation of nearly all pages is granted behind the first range, with an end that has
    wrapped to below its start: the table is no longer sorted. *)
Theorem reserve_huge_wraps :
  (fun r => (r.1, take 2 (reserved_entries r.2))) <$> match run_calls [Reserve (2 ^ 52 - 1)] init_global with Done r => Some r | _ => None end =
    Some ([AReserve (Ok 0x2000000)], [mkMemoryMap (Some 0x10000) 0x1ffffff; mkMemoryMap (Some 0x2000000) 0x1ffefff]).
Proof. by vm_compute. Qed.
