(* ===== verification/DuxIpc.v ===== *)
(** * The dux library: packet rings of a task

    The task's side of inter-task communication, module [ipc] of
    src/lib/rust/dux/src/mem.rs: a stack of free packet slots, a ring of slots to
    transmit and a ring of received slots, in memory shared with the kernel.  The
    file also has [init], which sets the tables up.

    The tables are a stack and two queues for the library and the kernel, and hold
    a constant number of slots.  The kernel returns the position in the ring for a
    packet it has transmitted, and not its slot, so the slots do not stay distinct. *)

From S2P Require Import Prelude DuxMem.

Definition set_tables (t : Tables) (g : Global) : Global :=
  mkGlobal (ipc_packets g) t (free_ranges g) (reserved_count g) (reserved_capacity g)
    (free_ranges_capacity g) (ring_mask g) (last_received_index g) (transmit_lock g) (received_lock g)
    (reserved_entries g).

Definition set_last_received_index (i : Z) (g : Global) : Global :=
  mkGlobal (ipc_packets g) (tables g) (free_ranges g) (reserved_count g) (reserved_capacity g)
    (free_ranges_capacity g) (ring_mask g) i (transmit_lock g) (received_lock g) (reserved_entries g).

Definition set_transmit_lock (b : bool) (g : Global) : Global :=
  mkGlobal (ipc_packets g) (tables g) (free_ranges g) (reserved_count g) (reserved_capacity g)
    (free_ranges_capacity g) (ring_mask g) (last_received_index g) b (received_lock g) (reserved_entries g).

Definition set_received_lock (b : bool) (g : Global) : Global :=
  mkGlobal (ipc_packets g) (tables g) (free_ranges g) (reserved_count g) (reserved_capacity g)
    (free_ranges_capacity g) (ring_mask g) (last_received_index g) (transmit_lock g) b (reserved_entries g).

Definition set_free_top (v : Z) (g : Global) : Global :=
  let t := tables g in
  set_tables (mkTables (tx_index t) (tx_entries t) (rx_index t) (rx_entries t) v (free_entries t)) g.

Definition set_free_entries (l : list Z) (g : Global) : Global :=
  let t := tables g in
  set_tables (mkTables (tx_index t) (tx_entries t) (rx_index t) (rx_entries t) (free_top t) l) g.

Definition set_tx (i : Z) (l : list Z) (g : Global) : Global :=
  let t := tables g in
  set_tables (mkTables i l (rx_index t) (rx_entries t) (free_top t) (free_entries t)) g.

Definition set_rx (i : Z) (l : list Z) (g : Global) : Global :=
  let t := tables g in
  set_tables (mkTables (tx_index t) (tx_entries t) i l (free_top t) (free_entries t)) g.

Definition get_free_top (g : Global) : Z := free_top (tables g).

(** ** The free stack *)

Definition ring_len (g : Global) : Z := wrap 16 (ring_mask g + 1).

Inductive NoFreeSlots := NoFreeSlots_.

Definition U16_MAX : Z := 0xffff.

(** [entries[i]] for a slice of the shared memory. *)
Definition index {S} (l : list Z) (i : Z) : M S Z := unwrap "index out of bounds" (nth_z l i).

Definition pop_free_slot : M Global (result Z NoFreeSlots) :=
  spin_lock get_free_top set_free_top U16_MAX (fun top =>
    match checked_sub top 1 with
    | Some t =>
      let* tbl := gets tables in
      let* slot := index (free_entries tbl) t in
      ret (Ok slot, t)
    | None => ret (Err NoFreeSlots_, top)
    end).

Definition push_free_slot (slot : Z) : M Global unit :=
  spin_lock get_free_top set_free_top U16_MAX (fun top =>
    let* len := gets ring_len in
    if decide (top < len) then
      let* tbl := gets tables in
      index (free_entries tbl) top ;;
      modify (set_free_entries (set_z (free_entries tbl) top slot)) ;;
      ret (tt, wrap 16 (top + 1))
    else panic "free stack overflow").

(** ** Transmitting *)

(** The slot of the [TransmitLock]. *)
Definition try_transmit : M Global (result Z NoFreeSlots) :=
  let* v := SpinLockGuard_new transmit_lock set_transmit_lock true in
  let* r := pop_free_slot in
  match r with
  | Ok slot => ret (Ok slot)
  | Err e => SpinLockGuard_drop set_transmit_lock v ;; ret (Err e)
  end.

Definition TransmitLock_drop (slot : Z) : M Global unit :=
  let* t := gets tables in
  let* mask := gets ring_mask in
  let i := Z.land (tx_index t) mask in
  index (tx_entries t) i ;;
  modify (set_tx (wrap 16 (tx_index t + 1)) (set_z (tx_entries t) i slot)) ;;
  SpinLockGuard_drop set_transmit_lock false.

(** ** Receiving *)

(** The slot of the [ReceivedLock]. *)
Definition try_receive : M Global (option Z) :=
  let* v := SpinLockGuard_new received_lock set_received_lock true in
  let* t := gets tables in
  let* mask := gets ring_mask in
  let* i := gets last_received_index in
  if decide (i = rx_index t) then SpinLockGuard_drop set_received_lock v ;; ret None
  else let* slot := index (rx_entries t) (Z.land i mask) in ret (Some slot).

Definition ReceivedLock_drop (slot : Z) : M Global unit :=
  let* i := gets last_received_index in
  modify (set_last_received_index (wrap 16 (i + 1))) ;;
  SpinLockGuard_drop set_received_lock false ;;
  push_free_slot slot.

Definition ReceivedLock_defer (slot : Z) : M Global unit :=
  let* t := gets tables in
  let* last_index := gets last_received_index in
  let* mask := gets ring_mask in
  let prev_index := wrap 16 (rx_index t - 1) in
  let* a := index (rx_entries t) (Z.land last_index mask) in
  let* b := index (rx_entries t) (Z.land prev_index mask) in
  if decide (a = slot) then
    modify (set_rx (rx_index t)
      (set_z (set_z (rx_entries t) (Z.land prev_index mask) a) (Z.land last_index mask) b)) ;;
    SpinLockGuard_drop set_received_lock false
  else panic "current received entry mutated while locked".

(** [packet]: slots up to the mask have a packet. *)
Definition packet (idx : Z) : M Global (option Z) :=
  let* g := get in
  ret (if decide (idx <= ring_mask g) then Some (ipc_packets g + idx * 64) else None).

(** ** Free ranges *)

Definition set_free_ranges (l : list FreePage) (g : Global) : Global :=
  mkGlobal (ipc_packets g) (tables g) l (reserved_count g) (reserved_capacity g)
    (free_ranges_capacity g) (ring_mask g) (last_received_index g) (transmit_lock g) (received_lock g)
    (reserved_entries g).

Definition set_free_ranges_capacity (n : Z) (g : Global) : Global :=
  mkGlobal (ipc_packets g) (tables g) (free_ranges g) (reserved_count g) (reserved_capacity g)
    n (ring_mask g) (last_received_index g) (transmit_lock g) (received_lock g) (reserved_entries g).

(** The first range with a count of zero takes the pages. *)
Fixpoint fill_range (page count : Z) (l : list FreePage) : option (list FreePage) :=
  match l with
  | [] => None
  | r :: l =>
    if decide (fp_count r = 0) then Some (mkFreePage (Some page) count :: l)
    else (r ::.) <$> fill_range page count l
  end.

Definition add_free_range (page count : Z) : M Global (result unit unit) :=
  spin_lock free_ranges_capacity set_free_ranges_capacity 0 (fun capacity =>
    let* ranges := gets free_ranges in
    if decide (Exists (fun r => 0 < fp_count r /\ fp_address r = Some page) ranges)
    then panic "assertion failed: `(left != right)`" else
    match fill_range page count ranges with
    | Some l => modify (set_free_ranges l) ;; ret (Ok tt, capacity)
    | None => ret (Err tt, capacity)
    end).

(** ** Waiting

    [io_wait] is the system call that runs other tasks; what it does to the
    shared memory is up to the kernel.  The fuel bounds the number of waits. *)

Section waiting.
Context (io_wait : M Global unit).

Fixpoint transmit_loop (fuel : nat) : M Global Z :=
  match fuel with
  | O => fun _ => OutOfFuel
  | S fuel =>
    let* r := pop_free_slot in
    match r with
    | Ok slot => ret slot
    | Err _ => io_wait ;; transmit_loop fuel
    end
  end.

Definition transmit (fuel : nat) : M Global Z :=
  SpinLockGuard_new transmit_lock set_transmit_lock true ;;
  transmit_loop fuel.

Fixpoint receive_loop (fuel : nat) : M Global Z :=
  match fuel with
  | O => fun _ => OutOfFuel
  | S fuel =>
    let* t := gets tables in
    let* mask := gets ring_mask in
    let* i := gets last_received_index in
    if decide (i = rx_index t) then io_wait ;; receive_loop fuel
    else index (rx_entries t) (Z.land i mask)
  end.

Definition receive (fuel : nat) : M Global Z :=
  SpinLockGuard_new received_lock set_received_lock true ;;
  receive_loop fuel.
End waiting.

(** ** Initialisation

    [mem_alloc] and [io_set_queues] are the statuses of the system calls.  New
    pages are zeroed: the tables of [packets_count] entries start as zeroes. *)

Definition zero_tables (n : nat) : Tables := mkTables 0 (replicate n 0) 0 (replicate n 0) 0 (replicate n 0).

Definition set_queues (packets : Z) (mask : Z) (g : Global) : Global :=
  mkGlobal packets (zero_tables (Z.to_nat (mask + 1))) (free_ranges g) (reserved_count g) (reserved_capacity g)
    (free_ranges_capacity g) mask 0 (transmit_lock g) (received_lock g) (reserved_entries g).

Fixpoint push_slots (n : nat) (slot : Z) : M Global unit :=
  match n with
  | O => ret tt
  | S n => push_free_slot slot ;; push_slots n (slot + 1)
  end.

Definition PROT_READ_WRITE : Z := Z.lor 1 2.

Definition expect_status (status : Z) : M Global unit :=
  if decide (status = 0) then ret tt else panic "not yet implemented".

(** [(packets_count - 1).count_ones()] *)
Definition count_ones (w : nat) (x : Z) : Z :=
  foldr (fun i n => bool_to_Z (Z.testbit x (Z.of_nat i)) + n) 0 (seq 0 w).

Section init.
Context (mem_alloc : Z -> Z -> Z -> Z) (io_set_queues : Z -> Z -> Z -> Z -> Z).

Definition init : M Global unit :=
  expect_status (mem_alloc GLOBAL_PTR 1 PROT_READ_WRITE) ;;
  init_reserved ;;
  let packets_count := 4 in
  let* r := reserve_range None 8 in
  let* addr := unwrap_ok "called `Result::unwrap()` on an `Err` value" r in
  expect_status (mem_alloc addr 1 PROT_READ_WRITE) ;;
  modify (set_queues addr (packets_count - 1)) ;;
  push_slots (Z.to_nat packets_count) 0 ;;
  let* r := reserve_range None 8 in
  let* addr := unwrap_ok "called `Result::unwrap()` on an `Err` value" r in
  expect_status (mem_alloc addr 1 PROT_READ_WRITE) ;;
  let free_ranges_ptr := addr in
  let free_ranges_len := 12 in
  modify (set_free_ranges (replicate (Z.to_nat free_ranges_len) (mkFreePage None 0))) ;;
  modify (set_free_ranges_capacity free_ranges_len) ;;
  let* r := reserve_range None free_ranges_len in
  let* addr := unwrap_ok "called `Result::unwrap()` on an `Err` value" r in
  let* r := add_free_range addr free_ranges_len in
  unwrap_ok "called `Result::unwrap()` on an `Err` value" r ;;
  let* packets := gets ipc_packets in
  expect_status (io_set_queues packets (count_ones 16 (packets_count - 1)) free_ranges_ptr free_ranges_len).
End init.

(** ** The system: the task, the kernel's position and the locks held *)

Record Sys := mkSys { sg : Global; k_tx : Z; held : option Z; reading : option Z }.

Definition on_global {X} (m : M Global X) : M Sys X :=
  fun s => match m (sg s) with
           | Done (x, g) => Done (x, mkSys g (k_tx s) (held s) (reading s))
           | Panicked why => Panicked why
           | OutOfFuel => OutOfFuel
           end.

Inductive action := Transmit | Send | Receive | Release | Defer | KernelSent | KernelDeliver.

Definition set_held (h : option Z) (s : Sys) : Sys := mkSys (sg s) (k_tx s) h (reading s).
Definition set_reading (r : option Z) (s : Sys) : Sys := mkSys (sg s) (k_tx s) (held s) r.
Definition set_k_tx (k : Z) (s : Sys) : Sys := mkSys (sg s) k (held s) (reading s).

(** [packet(slot).unwrap()] of the kernel. *)
Definition expect_packet (slot : Z) : M Sys unit :=
  let* s := get in
  if decide (slot <= ring_mask (sg s)) then ret tt else panic "called `Option::unwrap()` on a `None` value".

(** A program takes a lock it does not have and drops one it has.  The kernel
    ([process_packets] in src/kernel/src/task/ipc.rs) reads the packet of the oldest
    slot to transmit and puts the position of the ring it was at on the stack of the
    sender, and takes a slot from the stack of the receiver for a packet it delivers:
    it panics if there is none. *)
Definition act (c : action) : M Sys unit :=
  let* s := get in
  match c with
  | Transmit =>
    if held s is Some _ then ret tt else
    let* r := on_global try_transmit in
    match r with Ok slot => modify (set_held (Some slot)) | Err _ => ret tt end
  | Send =>
    if held s is Some slot then on_global (TransmitLock_drop slot) ;; modify (set_held None) else ret tt
  | Receive =>
    if reading s is Some _ then ret tt else
    let* r := on_global try_receive in modify (set_reading r)
  | Release =>
    if reading s is Some slot then on_global (ReceivedLock_drop slot) ;; modify (set_reading None) else ret tt
  | Defer =>
    if reading s is Some slot then on_global (ReceivedLock_defer slot) ;; modify (set_reading None) else ret tt
  | KernelSent =>
    let t := tables (sg s) in
    if decide (k_tx s = tx_index t) then ret tt else
    let tx_pkt_slot := Z.land (k_tx s) (ring_mask (sg s)) in
    let* slot := index (tx_entries t) tx_pkt_slot in
    expect_packet slot ;;
    on_global (push_free_slot tx_pkt_slot) ;; modify (set_k_tx (wrap 16 (k_tx s + 1)))
  | KernelDeliver =>
    let* r := on_global pop_free_slot in
    match r with
    | Err _ => panic "called `Result::unwrap()` on an `Err` value"
    | Ok slot =>
      let* g := gets sg in
      let t := tables g in
      let i := Z.land (rx_index t) (ring_mask g) in
      index (rx_entries t) i ;;
      on_global (modify (set_rx (rx_index t) (set_z (rx_entries t) i slot))) ;;
      expect_packet slot ;;
      on_global (modify (fun g => set_rx (wrap 16 (rx_index (tables g) + 1)) (rx_entries (tables g)) g))
    end
  end.

Fixpoint run_acts (l : list action) : M Sys unit :=
  match l with [] => ret tt | c :: l => act c ;; run_acts l end.

(** ** The abstract queues *)

(** [a_pos] is the position in the ring of the oldest slot to transmit. *)
Record Slots := mkSlots {
  a_free : list Z; a_tx : list Z; a_rx : list Z; a_held : option Z; a_reading : bool; a_pos : Z
}.

(** The first and the last packet change places. *)
Definition swap_ends {A} (l : list A) : list A :=
  match l with
  | [] => []
  | x :: l => match reverse l with [] => [x] | y :: m => y :: reverse m ++ [x] end
  end.

(** One action with tables of [n] slots; [None] if the kernel panics. *)
Definition a_step (n : Z) (c : action) (a : Slots) : option Slots :=
  match c, a with
  | Transmit, mkSlots (x :: free) tx rx None r p => Some (mkSlots free tx rx (Some x) r p)
  | Send, mkSlots free tx rx (Some x) r p => Some (mkSlots free (tx ++ [x]) rx None r p)
  | Receive, mkSlots free tx (x :: rx) h false p => Some (mkSlots free tx (x :: rx) h true p)
  | Release, mkSlots free tx (x :: rx) h true p => Some (mkSlots (x :: free) tx rx h false p)
  | Defer, mkSlots free tx rx h true p => Some (mkSlots free tx (swap_ends rx) h false p)
  | KernelSent, mkSlots free (_ :: tx) rx h r p => Some (mkSlots (p :: free) tx rx h r ((p + 1) mod n))
  | KernelDeliver, mkSlots (x :: free) tx rx h r p => Some (mkSlots free tx (rx ++ [x]) h r p)
  | KernelDeliver, mkSlots [] _ _ _ _ _ => None
  | _, a => Some a
  end.

Fixpoint a_run (n : Z) (cs : list action) (a : Slots) : option Slots :=
  match cs with
  | [] => Some a
  | c :: cs => match a_step n c a with Some a' => a_run n cs a' | None => None end
  end.

Definition slots_of (a : Slots) : list Z := a_free a ++ a_tx a ++ a_rx a ++ option_list (a_held a).

(** ** Representation *)

(** The slots [l] in a ring of [n] entries, from position [first]. *)
Definition ring_at (entries : list Z) (n first : Z) (l : list Z) : Prop :=
  zlen entries = n /\ forall j, 0 <= j < zlen l -> nth_z entries ((first + j) mod n) = nth_z l j.

Record repr (b : Z) (s : Sys) (a : Slots) : Prop := mk_repr {
  r_bits : 0 <= b <= 15;
  r_mask : ring_mask (sg s) = 2 ^ b - 1;
  r_count : zlen (slots_of a) = 2 ^ b;
  r_slots : Forall (fun x => 0 <= x < 2 ^ b) (slots_of a);
  r_pos : a_pos a = k_tx s mod 2 ^ b;
  r_top : free_top (tables (sg s)) = zlen (a_free a);
  r_free_len : zlen (free_entries (tables (sg s))) = 2 ^ b;
  r_free : exists rest, free_entries (tables (sg s)) = reverse (a_free a) ++ rest;
  r_tx : ring_at (tx_entries (tables (sg s))) (2 ^ b) (k_tx s) (a_tx a);
  r_tx_index : tx_index (tables (sg s)) = wrap 16 (k_tx s + zlen (a_tx a));
  r_rx : ring_at (rx_entries (tables (sg s))) (2 ^ b) (last_received_index (sg s)) (a_rx a);
  r_rx_index : rx_index (tables (sg s)) = wrap 16 (last_received_index (sg s) + zlen (a_rx a));
  r_fits : fits 16 (k_tx s) /\ fits 16 (last_received_index (sg s));
  r_held : held s = a_held a;
  r_tx_lock : transmit_lock (sg s) = bool_decide (is_Some (a_held a));
  r_rx_lock : received_lock (sg s) = a_reading a;
  r_reading : reading s = if a_reading a then head (a_rx a) else None;
  r_read_some : a_reading a = true -> a_rx a <> []
}.

(** ** Rings *)

Lemma mod_inj_near n x y : 0 < n -> x mod n = y mod n -> Z.abs (x - y) < n -> x = y.
Proof.
  intros Hn E Hd. pose proof (Z.div_mod x n ltac:(lia)). pose proof (Z.div_mod y n ltac:(lia)).
  assert (x - y = n * (x / n - y / n)) as E' by lia. assert (x / n - y / n = 0) by nia. lia.
Qed.

Section rings.
Context (n : Z) (Hn : 0 < n).
Implicit Types e l : list Z.

Lemma ring_at_set e f l j x :
  ring_at e n f l -> zlen l <= n -> 0 <= j < zlen l ->
  ring_at (set_z e ((f + j) mod n) x) n f (set_z l j x).
Proof using Hn.
  intros [El Hl] Hlen Hj. split; [by rewrite zlen_set_z|]. intros i Hi. rewrite zlen_set_z in Hi.
  destruct (decide (i = j)) as [->|Hne].
  - rewrite !nth_z_set_eq; [done|done|]. rewrite El. by apply Z.mod_pos_bound.
  - rewrite !nth_z_set_ne; [by apply Hl|done|]. intros E%mod_inj_near; lia.
Qed.

Lemma ring_at_push e f l x :
  ring_at e n f l -> zlen l < n -> ring_at (set_z e ((f + zlen l) mod n) x) n f (l ++ [x]).
Proof using Hn.
  intros [El Hl] Hlen. split; [by rewrite zlen_set_z|]. intros j Hj. rewrite zlen_app in Hj. change (zlen [x]) with 1 in Hj.
  destruct (decide (j = zlen l)) as [->|Hne].
  - rewrite nth_z_set_eq, nth_z_middle; [done|]. rewrite El. by apply Z.mod_pos_bound.
  - rewrite nth_z_set_ne, nth_z_app_l by (lia || (intros E%mod_inj_near; lia)). apply Hl. lia.
Qed.

Lemma ring_at_head e f x l : ring_at e n f (x :: l) -> nth_z e (f mod n) = Some x.
Proof using Hn. intros [_ Hl]. rewrite <-(Z.add_0_r f), Hl; [done|]. rewrite zlen_cons. pose proof (zlen_nonneg l). lia. Qed.

Lemma ring_at_pop e f x l : ring_at e n f (x :: l) -> ring_at e n (f + 1) l.
Proof using Hn.
  intros [El Hl]. split; [done|]. intros j Hj. rewrite <-Z.add_assoc, Hl by (rewrite zlen_cons; lia).
  apply nth_z_cons. lia.
Qed.
End rings.

Lemma ring_at_wrap b e f l : 0 <= b <= 16 -> ring_at e (2 ^ b) (wrap 16 f) l <-> ring_at e (2 ^ b) f l.
Proof.
  intros Hb. unfold ring_at. split; intros [El Hl]; split; auto; intros j Hj; rewrite <-Hl by done; f_equal;
    by rewrite wrap_add_mod_pow2.
Qed.

Lemma mask_wrap b x : 0 <= b <= 16 -> Z.land (wrap 16 x) (2 ^ b - 1) = x mod 2 ^ b.
Proof. intros Hb. rewrite land_mask by lia. by apply wrap_mod_pow2. Qed.

Lemma mask_fits b x : 0 <= b -> Z.land x (2 ^ b - 1) = x mod 2 ^ b.
Proof. intros Hb. by apply land_mask. Qed.

Lemma swap_ends_set {A} (l : list A) x :
  head l = Some x -> exists y, nth_z l (zlen l - 1) = Some y /\ swap_ends l = set_z (set_z l (zlen l - 1) x) 0 y.
Proof.
  destruct l as [|x' l]; [done|]. intros [= ->]. rewrite zlen_cons. replace (1 + zlen l - 1) with (zlen l) by lia.
  destruct l as [|y m _] using rev_ind; [exists x; done|]. exists y.
  assert (zlen (m ++ [y]) = zlen (x :: m)) as El by (rewrite zlen_app; change (zlen [y]) with 1; rewrite zlen_cons; lia).
  assert (swap_ends (x :: m ++ [y]) = y :: m ++ [x]) as Es by (unfold swap_ends; by rewrite reverse_snoc, reverse_involutive).
  by rewrite Es, app_comm_cons, El, nth_z_middle, set_z_app.
Qed.

Lemma swap_ends_perm {A} (l : list A) : swap_ends l ≡ₚ l.
Proof.
  destruct l as [|x l]; [done|]. cbn. destruct (reverse l) as [|y m] eqn:E.
  - by rewrite <-(reverse_involutive l), E.
  - rewrite <-(reverse_involutive l), E, reverse_cons. rewrite (Permutation_app_comm (reverse m)). cbn.
    rewrite perm_swap. constructor. by rewrite Permutation_app_comm.
Qed.

(** ** The stack *)

Section stack.
Context (g : Global) (free rest : list Z).
Context (Htop : free_top (tables g) = zlen free) (Hent : free_entries (tables g) = reverse free ++ rest).
Context (Hlen : zlen free <= 2 ^ 15).

Lemma stack_unlocked : get_free_top g <> U16_MAX.
Proof using Htop Hlen. unfold get_free_top, U16_MAX. rewrite Htop. lia. Qed.

Lemma set_free_top_id : set_free_top (zlen free) (set_free_top U16_MAX g) = g.
Proof using Htop. rewrite <-Htop. clear. by destruct g as [? []]. Qed.

Lemma stack_pop_spec :
  pop_free_slot g = match free with
                    | [] => Done (Err NoFreeSlots_, g)
                    | x :: f => Done (Ok x, set_free_top (zlen f) g)
                    end.
Proof using Htop Hent Hlen.
  pose proof stack_unlocked as Hu. pose proof set_free_top_id as Hid. unfold pop_free_slot.
  destruct free as [|x f].
  - rewrite <-Hid at 2. apply spin_lock_done; [done|]. unfold get_free_top. by rewrite Htop.
  - apply (spin_lock_done get_free_top set_free_top U16_MAX _ g (Ok x) (zlen f) (set_free_top U16_MAX g)); [done|].
    unfold get_free_top. rewrite Htop, zlen_cons.
    pose proof (zlen_nonneg f). unfold checked_sub. rewrite decide_True by lia.
    replace (1 + zlen f - 1) with (zlen f) by lia. erewrite bind_done by reflexivity.
    erewrite bind_done; [reflexivity|]. unfold index. cbn [tables set_free_top set_tables free_entries].
    rewrite Hent, reverse_cons, <-app_assoc. cbn [app].
    replace (zlen f) with (zlen (reverse f)) by (unfold zlen; by rewrite length_reverse).
    by rewrite nth_z_middle.
Qed.

Lemma stack_push_spec slot :
  zlen free < ring_len g -> zlen free < zlen (free_entries (tables g)) ->
  push_free_slot slot g =
    Done (tt, set_free_top (zlen (slot :: free)) (set_free_entries (reverse (slot :: free) ++ tail rest) g)).
Proof using Htop Hent Hlen.
  intros Hr Hcap. pose proof stack_unlocked as Hu. pose proof (zlen_nonneg free).
  assert (zlen free = zlen (reverse free)) as Er by (unfold zlen; by rewrite length_reverse).
  destruct rest as [|r rest']; [rewrite Hent, app_nil_r in Hcap; lia|].
  unfold push_free_slot. rewrite zlen_cons, reverse_cons, <-app_assoc. cbn [tail app].
  apply (spin_lock_done get_free_top set_free_top U16_MAX _ g tt (1 + zlen free)
    (set_free_entries (reverse free ++ slot :: rest') (set_free_top U16_MAX g))); [done|].
  unfold get_free_top. rewrite Htop. erewrite bind_done by reflexivity. cbv beta.
  change (ring_len (set_free_top U16_MAX g)) with (ring_len g). rewrite decide_True by done.
  erewrite bind_done by reflexivity. cbn [tables set_free_top set_tables free_entries].
  rewrite Hent, Er. erewrite (bind_done (index _ _)) by (unfold index; by rewrite nth_z_middle).
  rewrite set_z_app, <-Er, Z.add_comm, wrap_small by (unfold fits; lia). done.
Qed.
End stack.

(** ** Every action *)

Lemma on_global_done {X} (m : M Global X) s x g :
  m (sg s) = Done (x, g) -> on_global m s = Done (x, mkSys g (k_tx s) (held s) (reading s)).
Proof. unfold on_global. by intros ->. Qed.

Section actions.
Context (b : Z).
Implicit Types (s : Sys) (a : Slots).

Lemma repr_len s a :
  repr b s a -> zlen (a_free a) + zlen (a_tx a) + zlen (a_rx a) + zlen (option_list (a_held a)) = 2 ^ b /\ 1 <= 2 ^ b <= 2 ^ 15.
Proof.
  intros Hr. pose proof (r_bits _ _ _ Hr). split.
  - rewrite <-(r_count _ _ _ Hr). unfold slots_of. rewrite !zlen_app. lia.
  - split; [pose proof (Z.pow_pos_nonneg 2 b); lia|apply Z.pow_le_mono_r; lia].
Qed.

Lemma repr_ring_len s a : repr b s a -> ring_len (sg s) = 2 ^ b.
Proof.
  intros Hr. pose proof (repr_len _ _ Hr). unfold ring_len. rewrite (r_mask _ _ _ Hr).
  rewrite wrap_small; unfold fits; lia.
Qed.

Lemma repr_pop s a g :
  repr b s a -> tables g = tables (sg s) ->
  pop_free_slot g = match a_free a with
                    | [] => Done (Err NoFreeSlots_, g)
                    | x :: f => Done (Ok x, set_free_top (zlen f) g)
                    end.
Proof.
  intros Hr Eg. pose proof (repr_len _ _ Hr) as [Hl Hb]. destruct (r_free _ _ _ Hr) as [rest E].
  pose proof (zlen_nonneg (a_tx a)). pose proof (zlen_nonneg (a_rx a)). pose proof (zlen_nonneg (option_list (a_held a))).
  apply (stack_pop_spec _ _ rest); rewrite ?Eg; [apply Hr|done|lia].
Qed.

(** Room for one more slot on the stack. *)
Lemma repr_push s a g slot :
  repr b s a -> zlen (a_free a) < 2 ^ b -> tables g = tables (sg s) -> ring_mask g = ring_mask (sg s) ->
  exists rest, free_entries (tables (sg s)) = reverse (a_free a) ++ rest /\
    zlen (reverse (slot :: a_free a) ++ tail rest) = 2 ^ b /\
    push_free_slot slot g =
      Done (tt, set_free_top (zlen (slot :: a_free a)) (set_free_entries (reverse (slot :: a_free a) ++ tail rest) g)).
Proof.
  intros Hr Hlt Et Em. pose proof (repr_len _ _ Hr) as [Hl Hb]. destruct (r_free _ _ _ Hr) as [rest E].
  pose proof (zlen_nonneg (a_free a)). exists rest. split; [done|]. pose proof (r_free_len _ _ _ Hr) as Hfl. split.
  - rewrite E, zlen_app in Hfl. rewrite zlen_app. unfold zlen in *. rewrite length_reverse in *. cbn [length].
    destruct rest; cbn in *; lia.
  - assert (ring_len g = ring_len (sg s)) as El by (unfold ring_len; by rewrite Em).
    apply stack_push_spec; rewrite ?Et; [apply Hr|done|lia| |lia].
    rewrite El, (repr_ring_len _ _ Hr). done.
Qed.

(** The action [c] does to the tables what it does to the queues, or panics. *)
Definition simulates c s a : Prop :=
  match a_step (2 ^ b) c a with
  | Some a' => exists s', act c s = Done (tt, s') /\ repr b s' a'
  | None => act c s = Panicked "called `Result::unwrap()` on an `Err` value"
  end.

(** The slots of the tables keep their number and range when they are moved. *)
Lemma slots_perm a a' :
  slots_of a' ≡ₚ slots_of a -> zlen (slots_of a) = 2 ^ b -> Forall (fun x => 0 <= x < 2 ^ b) (slots_of a) ->
  zlen (slots_of a') = 2 ^ b /\ Forall (fun x => 0 <= x < 2 ^ b) (slots_of a').
Proof. intros Hp Hl Hf. split; [|by rewrite Hp]. unfold zlen in *. by rewrite Hp. Qed.

Ltac open_repr Hr :=
  let H := fresh in
  pose proof Hr as H;
  destruct H as [Hb Hm Hct Hp Hpos Ht Hfl Hf Htx Hti Hrx Hri Hfit Hh Htl Hrl Hre Hrs];
  cbn [a_free a_tx a_rx a_held a_reading a_pos] in *.

(** The number and the range of the slots after a move. *)
Ltac moved := eapply slots_perm; [|eassumption..]; unfold slots_of; cbn [a_free a_tx a_rx a_held option_list]; solve_Permutation.

Lemma repr_transmit s a : repr b s a -> simulates Transmit s a.
Proof.
  intros Hr. destruct a as [free tx rx h r p]. open_repr Hr. unfold simulates, act. erewrite bind_done by reflexivity. rewrite Hh.
  destruct h as [x|]; [destruct free; by exists s|].
  assert (try_transmit (sg s) = match free with
      | [] => Done (Err NoFreeSlots_, sg s)
      | x :: f => Done (Ok x, set_free_top (zlen f) (set_transmit_lock true (sg s))) end) as Et.
  { unfold try_transmit. erewrite bind_done by (unfold SpinLockGuard_new; by rewrite Htl, decide_False by done).
    unfold bind at 1. rewrite (repr_pop s _ (set_transmit_lock true (sg s)) Hr eq_refl). cbn [a_free]. destruct free; [|done].
    unfold SpinLockGuard_drop, bind, modify, ret. rewrite <-Htl. by destruct (sg s). }
  unfold bind, on_global. rewrite Et. destruct free as [|x f]; cbn [a_step].
  - eexists. split; [done|]. destruct s. exact Hr.
  - eexists. split; [done|]. constructor; cbn -[Z.pow slots_of]; try done.
    + moved.
    + moved.
    + destruct Hf as [rest E]. rewrite reverse_cons, <-app_assoc in E. eauto.
Qed.

(** Reading a ring entry whose position is in range. *)
Lemma index_ring {S} e (x y : Z) (l : list Z) (st : S) : ring_at e (2 ^ b) y l -> 0 <= b ->
  exists v, index e (x mod 2 ^ b) st = Done (v, st).
Proof.
  intros [El _] Hb. destruct (nth_z_lt e (x mod 2 ^ b)) as [v Ev].
  { rewrite El. apply Z.mod_pos_bound. pose proof (Z.pow_pos_nonneg 2 b). lia. }
  exists v. unfold index. by rewrite Ev.
Qed.

Lemma repr_send s a : repr b s a -> simulates Send s a.
Proof.
  intros Hr. pose proof (repr_len _ _ Hr) as [Hlen Hpow]. destruct a as [free tx rx h r p]. open_repr Hr.
  unfold simulates, act. erewrite bind_done by reflexivity. rewrite Hh.
  destruct h as [x|]; [|destruct free; by exists s]. change (zlen (option_list (Some x))) with 1 in Hlen.
  pose proof (zlen_nonneg free). pose proof (zlen_nonneg rx).
  assert (TransmitLock_drop x (sg s) = Done (tt, set_transmit_lock false
      (set_tx (wrap 16 (k_tx s + zlen (tx ++ [x]))) (set_z (tx_entries (tables (sg s))) ((k_tx s + zlen tx) mod 2 ^ b) x) (sg s)))) as Es.
  { unfold TransmitLock_drop. do 2 erewrite bind_done by reflexivity. rewrite Hm, Hti, mask_wrap by lia.
    destruct (index_ring (tx_entries (tables (sg s))) (k_tx s + zlen tx) _ _ (sg s) Htx) as [v Ev]; [lia|].
    rewrite (bind_done _ _ _ _ _ Ev), wrap_add_l, zlen_app, Z.add_assoc. done. }
  unfold bind, on_global. rewrite Es. cbn [a_step]. eexists. split; [done|].
  constructor; cbn -[Z.pow wrap slots_of]; try done.
  - moved.
  - moved.
  - apply ring_at_push; [lia|done|lia].
Qed.

Lemma repr_receive s a : repr b s a -> simulates Receive s a.
Proof.
  intros Hr. pose proof (repr_len _ _ Hr) as [Hlen Hpow]. destruct a as [free tx rx h r p]. open_repr Hr.
  unfold simulates, act. erewrite bind_done by reflexivity. rewrite Hre. pose proof (zlen_nonneg free). pose proof (zlen_nonneg tx).
  pose proof (zlen_nonneg (option_list h)).
  destruct r. { destruct rx as [|x rx]; [by specialize (Hrs eq_refl)|]. by exists s. }
  assert (try_receive (sg s) = match rx with [] => Done (None, sg s) | x :: _ => Done (Some x, set_received_lock true (sg s)) end) as Es.
  { unfold try_receive. erewrite bind_done by (unfold SpinLockGuard_new; by rewrite Hrl, decide_False by done).
    do 3 erewrite bind_done by reflexivity. cbn [tables last_received_index ring_mask rx_entries set_received_lock].
    rewrite Hri. destruct rx as [|x rx].
    - rewrite decide_True by (cbn; rewrite Z.add_0_r, wrap_small by apply Hfit; done).
      unfold SpinLockGuard_drop, bind, modify, ret. rewrite <-Hrl. by destruct (sg s).
    - rewrite zlen_cons in *. pose proof (zlen_nonneg rx). rewrite decide_False.
      + rewrite Hm, mask_fits by lia. unfold index. by erewrite bind_done by (by erewrite ring_at_head by (done || lia)).
      + intros E. rewrite <-(wrap_small 16 (last_received_index (sg s))) in E at 1 by apply Hfit.
        apply wrap_eq_near in E; lia. }
  unfold bind, on_global. rewrite Es. destruct rx as [|x rx]; cbn [a_step]; eexists; (split; [done|]); by constructor.
Qed.

Lemma repr_release s a : repr b s a -> simulates Release s a.
Proof.
  intros Hr. pose proof (repr_len _ _ Hr) as [Hlen Hpow]. destruct a as [free tx rx h r p]. open_repr Hr.
  unfold simulates, act. erewrite bind_done by reflexivity. rewrite Hre.
  destruct r; [|destruct rx; by exists s]. destruct rx as [|x rx]; [by specialize (Hrs eq_refl)|].
  cbn [head]. rewrite zlen_cons in *. pose proof (zlen_nonneg rx). pose proof (zlen_nonneg tx).
  pose proof (zlen_nonneg (option_list h)).
  set (g1 := set_received_lock false (set_last_received_index (wrap 16 (last_received_index (sg s) + 1)) (sg s))).
  destruct (repr_push s _ g1 x Hr) as (rest & E & El & Ep); [cbn; lia|done..|]. cbn [a_free] in *.
  assert (ReceivedLock_drop x (sg s) = push_free_slot x g1) as Er by reflexivity.
  unfold bind, on_global. rewrite Er, Ep.
  eexists. split; [done|]. subst g1. constructor; cbn -[Z.pow wrap slots_of]; try done.
  - moved.
  - moved.
  - by eexists.
  - apply ring_at_wrap; [lia|]. apply (ring_at_pop (2 ^ b) ltac:(lia) _ _ x). done.
  - rewrite Hri, wrap_add_l. f_equal. lia.
  - split; [apply Hfit|]. by apply wrap_fits.
Qed.

Lemma repr_defer s a : repr b s a -> simulates Defer s a.
Proof.
  intros Hr. pose proof (repr_len _ _ Hr) as [Hlen Hpow]. destruct a as [free tx rx h r p]. open_repr Hr.
  unfold simulates, act. erewrite bind_done by reflexivity. rewrite Hre.
  destruct r; [|by exists s]. destruct rx as [|x rx]; [by specialize (Hrs eq_refl)|].
  pose proof (zlen_nonneg free). pose proof (zlen_nonneg tx). pose proof (zlen_nonneg (option_list h)).
  destruct (swap_ends_set (x :: rx) x eq_refl) as (y & Ey & Esw). cbn [a_step].
  set (l := x :: rx) in *. assert (1 <= zlen l) by (subst l; rewrite zlen_cons; pose proof (zlen_nonneg rx); lia).
  pose proof (nth_z_Some _ _ _ Ey) as Hy. set (f := last_received_index (sg s)) in *.
  assert (nth_z (rx_entries (tables (sg s))) ((f + (zlen l - 1)) mod 2 ^ b) = Some y) as Hly by (rewrite <-Ey; apply Hrx; lia).
  assert (nth_z (rx_entries (tables (sg s))) (f mod 2 ^ b) = Some x) as Hlx by (eapply ring_at_head; [lia|exact Hrx]).
  assert (ReceivedLock_defer x (sg s) = Done (tt, set_received_lock false (set_rx (rx_index (tables (sg s)))
    (set_z (set_z (rx_entries (tables (sg s))) ((f + (zlen l - 1)) mod 2 ^ b) x) (f mod 2 ^ b) y) (sg s)))) as Es.
  { unfold ReceivedLock_defer. do 3 erewrite bind_done by reflexivity. fold f. rewrite Hri, Hm, wrap_sub_l.
    rewrite mask_wrap, mask_fits by lia. replace (f + zlen l - 1) with (f + (zlen l - 1)) by lia.
    unfold index. rewrite Hlx, Hly. do 2 erewrite bind_done by reflexivity. by rewrite decide_True. }
  cbn [head l]. unfold bind, on_global. rewrite Es. eexists. split; [done|].
  assert (zlen (swap_ends l) = zlen l) as Ezl by (rewrite Esw; by rewrite !zlen_set_z).
  clearbody l. constructor; cbn -[Z.pow wrap swap_ends slots_of]; try done.
  - eapply slots_perm; [|eassumption..]. unfold slots_of. cbn [a_free a_tx a_rx a_held]. by rewrite swap_ends_perm.
  - eapply slots_perm; [|eassumption..]. unfold slots_of. cbn [a_free a_tx a_rx a_held]. by rewrite swap_ends_perm.
  - rewrite Esw. fold f. rewrite <-(Z.add_0_r f) at 2. apply ring_at_set; rewrite ?zlen_set_z; try lia.
    apply ring_at_set; lia || done.
  - by rewrite Ezl.
Qed.

Lemma expect_packet_done s a x (st : Sys) :
  repr b s a -> ring_mask (sg st) = ring_mask (sg s) -> x ∈ slots_of a -> expect_packet x st = Done (tt, st).
Proof.
  intros Hr Em Hx. unfold expect_packet. erewrite bind_done by reflexivity. pose proof (r_slots _ _ _ Hr) as Hp.
  rewrite Forall_forall in Hp. apply Hp in Hx. by rewrite Em, (r_mask _ _ _ Hr), decide_True by lia.
Qed.

Lemma repr_kernel_sent s a : repr b s a -> simulates KernelSent s a.
Proof.
  intros Hr. pose proof (repr_len _ _ Hr) as [Hlen Hpow]. destruct a as [free tx rx h r p]. open_repr Hr.
  unfold simulates, act. erewrite bind_done by reflexivity. cbv zeta. rewrite Hti.
  pose proof (zlen_nonneg rx). pose proof (zlen_nonneg free). pose proof (zlen_nonneg (option_list h)).
  destruct tx as [|x tx].
  { rewrite decide_True; [destruct free; by exists s|]. by rewrite Z.add_0_r, wrap_small by apply Hfit. }
  rewrite zlen_cons in *. pose proof (zlen_nonneg tx). rewrite decide_False.
  2:{ intros E. rewrite <-(wrap_small 16 (k_tx s)) in E at 1 by apply Hfit. apply wrap_eq_near in E; lia. }
  rewrite Hm, mask_fits, <-Hpos by lia. unfold index.
  assert (nth_z (tx_entries (tables (sg s))) p = Some x) as Ex by (rewrite Hpos; apply (ring_at_head (2 ^ b) ltac:(lia) _ _ _ _ Htx)). rewrite Ex.
  erewrite bind_done by reflexivity. rewrite (bind_done _ _ _ _ _ (expect_packet_done s _ x s Hr eq_refl ltac:(unfold slots_of; set_solver))).
  destruct (repr_push s _ (sg s) p Hr) as (rest & E & El & Ep); [cbn; lia|done..|].
  cbn [a_free a_step] in *. erewrite bind_done by (by apply on_global_done). eexists. split; [done|].
  constructor; cbn -[Z.pow wrap slots_of]; try done.
  - rewrite <-Hct. unfold slots_of. cbn [a_free a_tx a_rx a_held]. rewrite !zlen_app, !zlen_cons. lia.
  - unfold slots_of in *. cbn [a_free a_tx a_rx a_held] in *. rewrite !Forall_app, !Forall_cons in *.
    split_and!; try apply Hp; rewrite Hpos; apply Z.mod_pos_bound; lia.
  - rewrite Hpos, wrap_mod_pow2 by lia. by rewrite Zplus_mod_idemp_l.
  - by eexists.
  - apply ring_at_wrap; [lia|]. apply (ring_at_pop (2 ^ b) ltac:(lia) _ _ x). done.
  - rewrite Hti, wrap_add_l. f_equal. lia.
  - split; [by apply wrap_fits|apply Hfit].
Qed.

Lemma repr_kernel_deliver s a : repr b s a -> simulates KernelDeliver s a.
Proof.
  intros Hr. pose proof (repr_len _ _ Hr) as [Hlen Hpow]. destruct a as [free tx rx h r p]. open_repr Hr.
  pose proof (repr_pop s _ (sg s) Hr eq_refl) as Epop. cbn [a_free] in Epop. unfold simulates.
  destruct free as [|x free]; cbn [a_step]; unfold act; (erewrite bind_done by reflexivity); unfold bind at 1, on_global at 1; rewrite Epop; [done|].
  rewrite zlen_cons in *. pose proof (zlen_nonneg tx). pose proof (zlen_nonneg free). pose proof (zlen_nonneg (option_list h)).
  erewrite bind_done by reflexivity. cbv zeta. cbn [sg tables set_free_top set_tables rx_index rx_entries ring_mask]. rewrite Hri, Hm, mask_wrap by lia.
  destruct (index_ring (rx_entries (tables (sg s))) (last_received_index (sg s) + zlen rx) _ _
    (mkSys (set_free_top (zlen free) (sg s)) (k_tx s) (held s) (reading s)) Hrx) as [v Ev]; [lia|].
  rewrite (bind_done _ _ _ _ _ Ev). erewrite bind_done by reflexivity.
  erewrite bind_done by (eapply expect_packet_done; [exact Hr|done|unfold slots_of; set_solver]).
  eexists. split; [reflexivity|].
  constructor; cbn -[Z.pow wrap Z.land slots_of]; try done.
  - moved.
  - moved.
  - destruct Hf as [rest E]. rewrite reverse_cons, <-app_assoc in E. eauto.
  - apply ring_at_push; [lia|done|lia].
  - rewrite wrap_add_l, zlen_app, Z.add_assoc. done.
  - rewrite Hre. by destruct r, rx; try by specialize (Hrs eq_refl).
  - intros E. destruct rx; [by apply Hrs in E|done].
Qed.

Lemma repr_act c s a : repr b s a -> simulates c s a.
Proof.
  destruct c; auto using repr_transmit, repr_send, repr_receive, repr_release, repr_defer,
    repr_kernel_sent, repr_kernel_deliver.
Qed.
End actions.

(** C20: The packet rings refine queues.  In any sequence of the library's operations
    and of the kernel's transfers, the stack of free slots, the ring to transmit
    and the ring of received packets behave as a stack and two first-in first-out
    queues ([defer] swaps the first and the last received packet); for a packet it
    has transmitted, the kernel puts the position in the ring on the stack.  No
    operation of the library panics or waits, and the kernel panics exactly when
    it delivers a packet while no slot is free.  The slots in the three tables and
    the one the program holds are always as many as the table has, and are slots
    of the table; they need not be distinct. *)
Theorem rings_refine_queues b cs s a :
  repr b s a ->
  match a_run (2 ^ b) cs a with
  | Some a' =>
    exists s', run_acts cs s = Done (tt, s') /\ repr b s' a' /\
      zlen (slots_of a') = 2 ^ b /\ Forall (fun x => 0 <= x < 2 ^ b) (slots_of a')
  | None => run_acts cs s = Panicked "called `Result::unwrap()` on an `Err` value"
  end.
Proof.
  revert s a. induction cs as [|c cs IH]; intros s a Hr; cbn [a_run run_acts].
  - exists s. split; [done|]. split; [done|]. split; apply Hr.
  - pose proof (repr_act b c s a Hr) as Hs. unfold simulates in Hs. destruct (a_step (2 ^ b) c a) as [a1|].
    + destruct Hs as (s1 & E & Hr1). rewrite (bind_done _ _ _ _ _ E). by apply IH.
    + unfold bind. by rewrite Hs.
Qed.

(** ** What [init] sets up *)


(** The global structure after [init], when every system call succeeds. *)
Definition init_done : Global :=
  match init (fun _ _ _ => 0) (fun _ _ _ _ => 0) zero_global with Done (_, g) => g | _ => zero_global end.


Lemma init_done_repr : repr 2 (mkSys init_done 0 None None) (mkSlots [3; 2; 1; 0] [] [] None false 0).
Proof.
  constructor; try by vm_compute.
  - repeat (apply Forall_cons_2; [by vm_compute|]). apply Forall_nil_2.
  - exists []. by vm_compute.
  - split; [by vm_compute|]. intros j Hj. unfold zlen in Hj. cbn in Hj. lia.
  - split; [by vm_compute|]. intros j Hj. unfold zlen in Hj. cbn in Hj. lia.
Qed.

Lemma rings_refine_queues_witness :
  (exists s', run_acts [Transmit; Send; KernelSent; KernelDeliver; KernelDeliver; Receive; Defer; Receive; Release]
      (mkSys init_done 0 None None) = Done (tt, s') /\ free_top (tables (sg s')) = 3) /\
  exists why, run_acts [KernelDeliver; KernelDeliver; KernelDeliver; KernelDeliver; KernelDeliver] (mkSys init_done 0 None None) = Panicked why.
Proof.
  split.
  - destruct (rings_refine_queues 2
      [Transmit; Send; KernelSent; KernelDeliver; KernelDeliver; Receive; Defer; Receive; Release] _ _ init_done_repr)
      as (s' & E & Hr & _).
    exists s'. split; [exact E|]. exact (r_top _ _ _ Hr).
  - eexists. exact (rings_refine_queues 2 [KernelDeliver; KernelDeliver; KernelDeliver; KernelDeliver; KernelDeliver] _ _ init_done_repr).
Defined.

(** After the first packet of a program, slot 0 is on the stack twice and slot 3 is lost. *)
Theorem sent_slot_is_lost :
  exists s', run_acts [Transmit; Send; KernelSent] (mkSys init_done 0 None None) = Done (tt, s') /\
    repr 2 s' (mkSlots [0; 2; 1; 0] [] [] None false 1).
Proof.
  pose proof (repr_transmit 2 _ _ init_done_repr) as (s1 & E1 & H1). pose proof (repr_send 2 _ _ H1) as (s2 & E2 & H2).
  pose proof (repr_kernel_sent 2 _ _ H2) as (s3 & E3 & H3). exists s3. split; [|exact H3].
  cbn [run_acts]. rewrite (bind_done _ _ _ _ _ E1), (bind_done _ _ _ _ _ E2). by rewrite (bind_done _ _ _ _ _ E3).
Qed.


