(* ===== verification/DuxList.v ===== *)
(** * The dux library: object lists

    A list of named objects in a few pages of memory, as tasks send it to each
    other (src/lib/rust/dux/src/ipc/list.rs): the number of entries, an array of
    [RawEntry] of 32 bytes each, and the names.  [Builder] writes it, [List] reads
    it.  Every list a builder accepts is read back entry by entry. *)

From S2P Require Import Prelude Bytes DuxMem.

(** ** Entries *)

Record UUID := mkUUID { uuid_x : Z; uuid_y : Z }.

(** [UUID::new] and [From<UUID> for u128]. *)
Definition UUID_new (uuid : Z) : UUID := mkUUID (wrap 64 uuid) (wrap 64 (Z.shiftr uuid 64)).

Definition UUID_to_u128 (u : UUID) : Z := Z.lor (uuid_x u) (Z.shiftl (uuid_y u) 64).

Record Entry := mkEntry { e_uuid : UUID; e_name : option (list Z); e_size : Z }.

(** [size_of::<usize>()] and [size_of::<RawEntry>()]: two words and a word, a [u32], a
    [u16] and two bytes of padding. *)
Definition USIZE_BYTES : Z := 8.
Definition RAW_ENTRY_BYTES : Z := 32.

Definition entry_offset (index : Z) : Z := USIZE_BYTES + RAW_ENTRY_BYTES * index.

(** ** Reading a list

    [data] is the memory of the pages.  Reading an entry outside of it is undefined
    in the source and stops the model. *)

Definition List_len (data : list Z) : outcome Z :=
  match data with
  | [] => Done 0
  | _ => match read_le data 8 0 with Some n => Done n | None => Panicked "read outside of the list" end
  end.

Definition read_field (data : list Z) (n : nat) (off : Z) : outcome Z :=
  match read_le data n off with Some v => Done v | None => Panicked "read outside of the list" end.

Definition List_get (data : list Z) (index : Z) : outcome (option Entry) :=
  let! len := List_len data in
  if decide (index < len) then
    let off := entry_offset index in
    let! x := read_field data 8 off in
    let! y := read_field data 8 (off + 8) in
    let! size := read_field data 8 (off + 16) in
    let! start := read_field data 4 (off + 24) in
    let! name_length := read_field data 2 (off + 28) in
    Done (Some (mkEntry (mkUUID x y)
      (match checked_add 64 start name_length with
       | Some end_ => slice data start (end_ - start)
       | None => None
       end) size))
  else Done None.

(** [Iter::next] until it answers [None]. *)
Fixpoint List_iter (fuel : nat) (data : list Z) (index : Z) : outcome (list Entry) :=
  match fuel with
  | O => OutOfFuel
  | S fuel =>
    let! e := List_get data index in
    match e with
    | None => Done []
    | Some e => let! l := List_iter fuel data (index + 1) in Done (e :: l)
    end
  end.

(** ** Building a list *)

(** [data] is the memory of the reserved pages once they are allocated. *)
Record Builder := mkBuilder {
  address : Z;
  page_count : Z;
  max_pages : Z;
  strings_offset : Z;
  b_index : Z;
  max_entries : Z;
  data : list Z
}.

Inductive BuilderAddError := MemoryAllocationError | MaxPagesExceeded | NameTooLong | MaxEntriesExceeded.

Definition list_pages (max_entries max_string_len : Z) : Z :=
  min_pages_for_range (wrap 64 (wrap 64 (USIZE_BYTES + max_entries * RAW_ENTRY_BYTES) + max_string_len)).

Definition Builder_new (max_entries max_string_len : Z) : M Global (result Builder ReserveError) :=
  let strings_offset := wrap 64 (USIZE_BYTES + max_entries * RAW_ENTRY_BYTES) in
  let max_pages := list_pages max_entries max_string_len in
  let? address := reserve_range None max_pages in
  ret (Ok (mkBuilder address 0 max_pages strings_offset 0 max_entries [])).

Definition max_data (b : Builder) : Z := wrap 64 (SIZE * max_pages b).

Definition bytes_len (b : Builder) : Z := wrap 64 (page_count b * SIZE).

Definition set_max_entries (n : Z) (b : Builder) : Builder :=
  mkBuilder (address b) (page_count b) (max_pages b) (strings_offset b) (b_index b) n (data b).

Definition set_data (n : Z) (l : list Z) (b : Builder) : Builder :=
  mkBuilder (address b) n (max_pages b) (strings_offset b) (b_index b) (max_entries b) l.

Definition write_raw_entry (l : list Z) (off : Z) (uuid : UUID) (size name_offset name_length : Z) : list Z :=
  write_le (write_le (write_le (write_le (write_le l 8 off (uuid_x uuid)) 8 (off + 8) (uuid_y uuid))
    8 (off + 16) size) 4 (off + 24) name_offset) 2 (off + 28) name_length.

Section builder.
Context (mem_alloc : Z -> Z -> Z -> Z) (mem_dealloc : Z -> Z -> Z).

Definition Builder_alloc : M Builder unit :=
  let* b := get in
  if decide (page_count b = 0) then
    if decide (mem_alloc (address b) (max_pages b) (Z.lor 1 2) = 0)
    then modify (set_data (max_pages b) (replicate (Z.to_nat (max_pages b * SIZE)) 0))
    else panic "assertion failed: `(left == right)`"
  else ret tt.

Definition Builder_add (uuid : UUID) (name : list Z) (size : Z) : M Builder (result unit BuilderAddError) :=
  let* b := get in
  match try_into 16 (zlen name) with
  | None => ret (Err NameTooLong)
  | Some name_length =>
    let str_end := wrap 64 (strings_offset b + zlen name) in
    if decide (str_end < max_data b) then
      match checked_sub (max_entries b) 1 with
      | None => ret (Err MaxEntriesExceeded)
      | Some e =>
        modify (set_max_entries e) ;;
        Builder_alloc ;;
        let* b := get in
        let offt := strings_offset b in
        if decide (zlen (data b) < offt) then panic "range start index out of range for slice" else
        let l := write (data b) offt (take (Z.to_nat (zlen (data b) - offt)) name) in
        let* name_offset := unwrap "called `Result::unwrap()` on an `Err` value" (try_into 32 offt) in
        let off := entry_offset (b_index b) in
        if decide (zlen l < off + RAW_ENTRY_BYTES) then panic "write outside of the list" else
        let l := write_raw_entry l off uuid size name_offset name_length in
        let* count := unwrap "read outside of the list" (read_le l 8 0) in
        let l := write_le l 8 0 (wrap 64 (count + 1)) in
        modify (fun b => mkBuilder (address b) (page_count b) (max_pages b) str_end (b_index b + 1) (max_entries b) l) ;;
        ret (Ok tt)
      end
    else ret (Err NameTooLong)
  end.

Fixpoint Builder_add_all (es : list (UUID * list Z * Z)) : M Builder (result unit BuilderAddError) :=
  match es with
  | [] => ret (Ok tt)
  | (uuid, name, size) :: es => let? _ := Builder_add uuid name size in Builder_add_all es
  end.

Definition Builder_drop (b : Builder) : M Global unit :=
  (if decide (0 < page_count b) then
     if decide (mem_dealloc (address b) (page_count b) = 0) then ret tt else panic "failed to free memory"
   else ret tt) ;;
  let* r := unreserve_range (address b) (max_pages b) in
  unwrap_ok "failed to unreserve range" r.
End builder.

(** ** What the memory of a list holds *)

Abbreviation item := (UUID * list Z * Z)%type.

Definition item_ok (it : item) : Prop :=
  let '(u, name, size) := it in fits 64 (uuid_x u) /\ fits 64 (uuid_y u) /\ fits 64 size /\ zlen name < 2 ^ 16.

Definition item_name (it : item) : list Z := it.1.2.

Fixpoint names_len (es : list item) : Z :=
  match es with [] => 0 | it :: es => zlen (item_name it) + names_len es end.

Definition item_entry (it : item) : Entry := let '(u, name, size) := it in mkEntry u (Some name) size.

(** Entry [i] with its name at [off]. *)
Definition entry_at (l : list Z) (i off : Z) (it : item) : Prop :=
  let '(u, name, size) := it in
  let o := entry_offset i in
  read_le l 8 o = Some (uuid_x u) /\ read_le l 8 (o + 8) = Some (uuid_y u) /\ read_le l 8 (o + 16) = Some size /\
  read_le l 4 (o + 24) = Some off /\ read_le l 2 (o + 28) = Some (zlen name) /\ slice l off (zlen name) = Some name.

Fixpoint entries_at (l : list Z) (i off : Z) (es : list item) : Prop :=
  match es with
  | [] => True
  | it :: es => entry_at l i off it /\ entries_at l (i + 1) (off + zlen (item_name it)) es
  end.

Lemma names_len_nonneg es : 0 <= names_len es.
Proof. induction es as [|it es IH]; cbn; [lia|]. pose proof (zlen_nonneg (item_name it)). lia. Qed.

Lemma names_len_app es1 es2 : names_len (es1 ++ es2) = names_len es1 + names_len es2.
Proof. induction es1 as [|it es1 IH]; cbn; lia. Qed.

Lemma entries_at_snoc l i off es it :
  entries_at l i off (es ++ [it]) <-> entries_at l i off es /\ entry_at l (i + zlen es) (off + names_len es) it.
Proof.
  revert i off. induction es as [|it' es IH]; intros i off; cbn.
  - rewrite !Z.add_0_r. tauto.
  - rewrite IH, zlen_cons, !Z.add_assoc. tauto.
Qed.

(** A write outside of entry and name. *)
Lemma entry_at_write l i off it o bs :
  o + zlen bs <= entry_offset i \/ entry_offset (i + 1) <= o ->
  o + zlen bs <= off \/ off + zlen (item_name it) <= o ->
  entry_at l i off it -> entry_at (write l o bs) i off it.
Proof.
  destruct it as [[u name] size]. unfold entry_at, entry_offset, RAW_ENTRY_BYTES. cbn [item_name fst snd].
  intros H1 H2 (Hx & Hy & Hs & Ho & Hn & Hsl).
  rewrite !read_le_write, slice_write_ne by lia. done.
Qed.

Lemma entries_at_write l i off es o bs :
  o + zlen bs <= entry_offset i \/ entry_offset (i + zlen es) <= o ->
  o + zlen bs <= off \/ off + names_len es <= o ->
  entries_at l i off es -> entries_at (write l o bs) i off es.
Proof.
  revert i off. induction es as [|it es IH]; intros i off; cbn; [done|].
  pose proof (names_len_nonneg es). pose proof (zlen_nonneg (item_name it)). pose proof (zlen_nonneg es).
  rewrite zlen_cons. unfold entry_offset, RAW_ENTRY_BYTES in *. intros Hd1 Hd2 [He Hes]. split.
  - apply entry_at_write; unfold entry_offset, RAW_ENTRY_BYTES; [lia|lia|done].
  - apply IH; [unfold entry_offset, RAW_ENTRY_BYTES; lia|lia|done].
Qed.

(** The five fields of a raw entry are five writes. *)
Lemma write_raw_entry_keeps (P : list Z -> Prop) l off u size no nl :
  (forall l o bs, off <= o -> o + zlen bs <= off + 30 -> P l -> P (write l o bs)) ->
  P l -> P (write_raw_entry l off u size no nl).
Proof.
  intros Hw Hl. unfold write_raw_entry, write_le.
  repeat (apply Hw; [lia|rewrite zlen_le_split; lia|]). done.
Qed.

Lemma entry_at_raw l i off u name size :
  0 <= i -> entry_offset (i + 1) <= zlen l -> item_ok (u, name, size) -> fits 32 off ->
  entry_offset (i + 1) <= off -> slice l off (zlen name) = Some name ->
  entry_at (write_raw_entry l (entry_offset i) u size off (zlen name)) i off (u, name, size).
Proof.
  intros Hi Hl (Hx & Hy & Hs & Hn) Hoff Hbelow Hsl. unfold entry_at, write_raw_entry.
  assert (entry_offset (i + 1) = entry_offset i + 32 /\ 0 <= entry_offset i) as [Eo Ho]
    by (unfold entry_offset, USIZE_BYTES, RAW_ENTRY_BYTES; lia).
  rewrite Eo in *. set (o := entry_offset i) in *. pose proof (zlen_nonneg name).
  split; [|split; [|split; [|split; [|split]]]].
  1-5: rewrite ?read_le_write_le by lia; apply read_write_le; rewrite ?zlen_write_le; unfold fits in *; lia.
  unfold write_le. rewrite !slice_write_ne by (rewrite zlen_le_split; lia). done.
Qed.

Lemma write_raw_entry_len l off u size no nl : zlen (write_raw_entry l off u size no nl) = zlen l.
Proof. unfold write_raw_entry. by rewrite !zlen_write_le. Qed.

(** ** The builder's invariant *)

(** The memory of a builder with its entries, before or after its allocation. *)
Definition mem_ok (cap pages : Z) (b : Builder) (es : list item) : Prop :=
  page_count b = 0 /\ es = [] /\ data b = [] \/
  page_count b = pages /\ zlen (data b) = pages * SIZE /\ read_le (data b) 8 0 = Some (zlen es) /\
  entries_at (data b) 0 (entry_offset cap) es.

Record built (cap pages : Z) (b : Builder) (es : list item) : Prop := mk_built {
  bl_pages : max_pages b = pages /\ 0 < pages /\ pages * SIZE <= 2 ^ 32;
  bl_offset : strings_offset b = entry_offset cap + names_len es /\ strings_offset b <= pages * SIZE;
  bl_index : b_index b = zlen es;
  bl_max : max_entries b = cap - zlen es /\ zlen es <= cap;
  bl_data : mem_ok cap pages b es
}.

Lemma read_le_zeroes n k : (8 <= n)%nat -> k = 8%nat -> read_le (replicate n 0) k 0 = Some 0.
Proof.
  intros Hn ->. unfold read_le, slice. rewrite zlen_replicate, decide_True by lia. cbn -[replicate take].
  change (Z.to_nat 8) with 8%nat. rewrite drop_0, take_replicate, Nat.min_l by lia. done.
Qed.

Section proofs.
Context (mem_alloc : Z -> Z -> Z -> Z) (Halloc : forall a n, mem_alloc a n (Z.lor 1 2) = 0).
Context (cap pages : Z).

Lemma Builder_alloc_spec b es :
  max_pages b = pages -> 0 < pages -> mem_ok cap pages b es ->
  exists l, Builder_alloc mem_alloc b = Done (tt, set_data pages l b) /\ zlen l = pages * SIZE /\
    read_le l 8 0 = Some (zlen es) /\ entries_at l 0 (entry_offset cap) es.
Proof using Halloc.
  intros Ep Hp Hd. unfold Builder_alloc. erewrite bind_done by reflexivity. case_decide as Hc.
  - destruct Hd as [(_ & -> & _)|(E & _)]; [|lia]. rewrite decide_True by done.
    exists (replicate (Z.to_nat (max_pages b * SIZE)) 0). unfold modify. rewrite Ep at 1.
    split; [done|]. split; [rewrite zlen_replicate, Ep; unfold SIZE; lia|]. split; [|done].
    apply read_le_zeroes; [rewrite Ep; unfold SIZE; lia|done].
  - exists (data b). destruct Hd as [(E & _)|(E & Hl & Hr & He)]; [done|]. split; [|done].
    unfold ret. rewrite <-E. by destruct b.
Qed.

(** The memory after one more entry. *)
Lemma add_entry_at l es u name size :
  zlen l = pages * SIZE -> pages * SIZE <= 2 ^ 32 -> zlen es < cap -> item_ok (u, name, size) ->
  entry_offset cap + names_len es + zlen name < pages * SIZE ->
  read_le l 8 0 = Some (zlen es) -> entries_at l 0 (entry_offset cap) es ->
  let off := entry_offset cap + names_len es in
  let l1 := write_raw_entry (write l off name) (entry_offset (zlen es)) u size off (zlen name) in
  read_le l1 8 0 = Some (zlen es) /\
  entries_at (write_le l1 8 0 (zlen es + 1)) 0 (entry_offset cap) (es ++ [(u, name, size)]).
Proof.
  intros El Hp Hcap Hit Hfit Hlen Hes off l1. pose proof (names_len_nonneg es). pose proof (zlen_nonneg name).
  pose proof (zlen_nonneg es). assert (entry_offset (zlen es + 1) <= entry_offset cap /\ 8 <= entry_offset (zlen es)) as [Hec He8]
    by (unfold entry_offset, USIZE_BYTES, RAW_ENTRY_BYTES; lia).
  assert (entry_offset (zlen es + 1) = entry_offset (zlen es) + 32) as Es
    by (unfold entry_offset, USIZE_BYTES, RAW_ENTRY_BYTES; lia). split.
  - apply (write_raw_entry_keeps (fun l => read_le l 8 0 = Some (zlen es))).
    + intros l' o bs Ho Hb E. rewrite read_le_write; [done|lia].
    + rewrite read_le_write; [done|lia].
  - apply entries_at_snoc. rewrite Z.add_0_l. split.
    + apply entries_at_write; [rewrite zlen_le_split; left; unfold entry_offset, USIZE_BYTES; lia
        |rewrite zlen_le_split; left; lia|].
      apply (write_raw_entry_keeps (fun l => entries_at l 0 (entry_offset cap) es)).
      * intros l' o bs Ho Hb E. apply entries_at_write; [right; rewrite Z.add_0_l; lia|left; lia|done].
      * apply entries_at_write; [right; rewrite Z.add_0_l; lia|right; lia|done].
    + unfold write_le. apply entry_at_write; [rewrite zlen_le_split; left; lia|rewrite zlen_le_split; left; lia|].
      apply entry_at_raw; rewrite ?zlen_write; try done; [lia|unfold fits; lia|lia|].
      apply slice_write_eq; lia.
Qed.

Lemma Builder_add_spec b es u name size :
  built cap pages b es -> item_ok (u, name, size) ->
  if decide (strings_offset b + zlen name < pages * SIZE) then
    if decide (zlen es < cap) then
      exists b', Builder_add mem_alloc u name size b = Done (Ok tt, b') /\ built cap pages b' (es ++ [(u, name, size)])
    else Builder_add mem_alloc u name size b = Done (Err MaxEntriesExceeded, b)
  else Builder_add mem_alloc u name size b = Done (Err NameTooLong, b).
Proof using Halloc.
  intros Hb Hit. pose proof Hb as [(Ep & Hp & Hp32) [Ho Hole] Hi [Hm Hmle] Hd].
  pose proof (zlen_nonneg name) as Hn0. pose proof (names_len_nonneg es) as Hns. pose proof (zlen_nonneg es) as Hes0.
  pose proof Hit as (_ & _ & _ & Hn16). unfold Builder_add. erewrite bind_done by reflexivity.
  unfold try_into. rewrite (decide_True (P := fits 16 _)) by (unfold fits; lia).
  assert (0 <= entry_offset cap) by (unfold entry_offset, USIZE_BYTES, RAW_ENTRY_BYTES; lia).
  unfold max_data. rewrite Ep, (wrap_small 64 (SIZE * _)), (wrap_small 64 (_ + _)) by (unfold fits, SIZE in *; lia).
  rewrite (Z.mul_comm SIZE). case_decide as Hfit; [|done].
  unfold checked_sub. rewrite Hm. destruct (decide (zlen es < cap)) as [Hc|Hc]; [|by rewrite decide_False by lia].
  rewrite decide_True by lia. erewrite bind_done by reflexivity.
  destruct (Builder_alloc_spec (set_max_entries (cap - zlen es - 1) b) es Ep Hp Hd) as (l & Ea & El & Er & Ee).
  rewrite (bind_done _ _ _ _ _ Ea). erewrite bind_done by reflexivity.
  cbn [strings_offset data b_index set_data set_max_entries]. rewrite El, decide_False by lia.
  replace (take (Z.to_nat (pages * SIZE - strings_offset b)) name) with name
    by (symmetry; apply take_ge; unfold zlen in *; lia).
  rewrite (decide_True (P := fits 32 _)) by (unfold fits; lia). erewrite bind_done by reflexivity.
  rewrite zlen_write, El, Hi, decide_False by (unfold entry_offset, USIZE_BYTES, RAW_ENTRY_BYTES in *; lia).
  destruct (add_entry_at l es u name size) as [Er1 Ee1]; try done; [lia|]. rewrite Ho, Er1.
  erewrite bind_done by reflexivity. rewrite wrap_small by (unfold fits, entry_offset, USIZE_BYTES, RAW_ENTRY_BYTES, SIZE in *; lia).
  eexists. split; [done|]. constructor; cbn [max_pages strings_offset b_index max_entries page_count data set_data set_max_entries].
  - done.
  - rewrite names_len_app. cbn. lia.
  - rewrite zlen_app, Hi. reflexivity.
  - rewrite zlen_app. change (zlen [(u, name, size)]) with 1. lia.
  - right. cbn [page_count data]. rewrite zlen_write_le, write_raw_entry_len, zlen_write, zlen_app.
    change (zlen [(u, name, size)]) with 1. split; [done|]. split; [done|]. split; [|done].
    apply read_write_le; [done|rewrite write_raw_entry_len, zlen_write; unfold SIZE in *; lia|].
    unfold fits, entry_offset, USIZE_BYTES, RAW_ENTRY_BYTES, SIZE in *. lia.
Qed.

Lemma Builder_add_all_spec es : forall b es0,
  built cap pages b es0 -> Forall item_ok es -> zlen (es0 ++ es) <= cap ->
  entry_offset cap + names_len (es0 ++ es) < pages * SIZE ->
  exists b', Builder_add_all mem_alloc es b = Done (Ok tt, b') /\ built cap pages b' (es0 ++ es).
Proof using Halloc.
  induction es as [|[[u name] size] es IH]; intros b es0 Hb Hok Hcap Hfit.
  { exists b. by rewrite app_nil_r. }
  apply Forall_cons in Hok as [Hit Hok]. pose proof (Builder_add_spec b es0 u name size Hb Hit) as Hadd.
  pose proof (names_len_nonneg es). pose proof (zlen_nonneg es).
  rewrite names_len_app in Hfit. cbn in Hfit. unfold item_name in Hfit. cbn in Hfit. rewrite zlen_app, zlen_cons in Hcap.
  pose proof (bl_offset _ _ _ _ Hb) as [Eo _].
  rewrite decide_True in Hadd by lia. rewrite decide_True in Hadd by lia. destruct Hadd as (b1 & E1 & Hb1).
  destruct (IH b1 _ Hb1 Hok) as (b2 & E2 & Hb2).
  - rewrite !zlen_app. change (zlen [(u, name, size)]) with 1. lia.
  - rewrite !names_len_app. cbn. unfold item_name. cbn. lia.
  - exists b2. rewrite <-app_assoc in Hb2. split; [|done]. cbn [Builder_add_all]. by rewrite (bind_ok_done _ _ _ _ _ E1).
Qed.
End proofs.

(** ** Reading it back *)

Lemma List_get_entry l i off n it :
  List_len l = Done n -> 0 <= i < n -> item_ok it -> fits 32 off -> entry_at l i off it ->
  List_get l i = Done (Some (item_entry it)).
Proof.
  destruct it as [[u name] size]. intros El Hi (_ & _ & _ & Hn) Hoff (Hx & Hy & Hs & Ho & Hl & Hsl).
  unfold List_get. rewrite El. cbn [obind]. rewrite decide_True by lia.
  unfold read_field. rewrite Hx, Hy, Hs, Ho, Hl. cbn [obind]. unfold checked_add, fits in *. pose proof (zlen_nonneg name).
  rewrite decide_True by lia. replace (off + zlen name - off) with (zlen name) by lia. rewrite Hsl. by destruct u.
Qed.

Lemma List_iter_S fuel l i e :
  List_get l i = Done (Some e) -> List_iter (S fuel) l i = let! es := List_iter fuel l (i + 1) in Done (e :: es).
Proof. cbn [List_iter]. by intros ->. Qed.

Lemma List_iter_entries l n es : forall i off,
  List_len l = Done n -> 0 <= i -> i + zlen es = n -> Forall item_ok es -> 0 <= off -> off + names_len es < 2 ^ 32 ->
  entries_at l i off es -> List_iter (S (length es)) l i = Done (item_entry <$> es).
Proof.
  induction es as [|it es IH]; intros i off El Hi Hn Hok Ho Ho32 He.
  - cbn. unfold List_get. rewrite El. cbn [obind]. rewrite decide_False by (unfold zlen in Hn; cbn in Hn; lia). done.
  - apply Forall_cons in Hok as [Hit Hok]. destruct He as [He Hes]. rewrite zlen_cons in Hn. cbn [names_len] in Ho32.
    pose proof (zlen_nonneg es). pose proof (names_len_nonneg es). pose proof (zlen_nonneg (item_name it)).
    rewrite (List_iter_S _ _ _ (item_entry it)) by (apply (List_get_entry l i off n); done || unfold fits; lia).
    cbn [length]. by rewrite (IH (i + 1) (off + zlen (item_name it)) El) by (done || lia).
Qed.

Lemma list_pages_bound cap slen :
  0 <= cap -> 0 <= slen -> entry_offset cap + slen <= 2 ^ 31 ->
  wrap 64 (USIZE_BYTES + cap * RAW_ENTRY_BYTES) = entry_offset cap /\
  0 < list_pages cap slen /\ entry_offset cap + slen <= list_pages cap slen * SIZE <= 2 ^ 32.
Proof.
  intros Hc Hs Hb. unfold list_pages, entry_offset, USIZE_BYTES, RAW_ENTRY_BYTES in *.
  rewrite !(wrap_small 64 (8 + _)) by (unfold fits; lia). split; [lia|].
  rewrite (wrap_small 64 (8 + cap * 32 + slen)) by (unfold fits; lia).
  unfold min_pages_for_range, SIZE. rewrite wrap_small by (unfold fits; lia).
  set (x := 8 + cap * 32 + slen + 4096 - 1). pose proof (Z.div_mod x 4096 ltac:(lia)).
  pose proof (Z.mod_pos_bound x 4096 ltac:(lia)). lia.
Qed.

Lemma Builder_new_built cap slen g g' b :
  0 <= cap -> 0 <= slen -> entry_offset cap + slen <= 2 ^ 31 ->
  Builder_new cap slen g = Done (Ok b, g') -> built cap (list_pages cap slen) b [].
Proof.
  intros Hc Hs Hb E. destruct (list_pages_bound cap slen Hc Hs Hb) as (Eo & Hp & Hl & Hp32).
  unfold Builder_new, bind_ok, bind in E. rewrite Eo in E.
  destruct (reserve_range None _ g) as [[[a|e] g1]| |]; [|done..]. injection E as <- _.
  constructor; cbn [max_pages strings_offset b_index max_entries names_len]; [done|lia|done| |by left].
  rewrite zlen_nil. lia.
Qed.

(** Iterating over the pages of a builder gives its entries. *)
Lemma built_iter cap pages b es :
  0 <= cap -> built cap pages b es -> entry_offset cap + names_len es < 2 ^ 32 -> Forall item_ok es ->
  List_iter (S (length es)) (data b) 0 = Done (item_entry <$> es).
Proof.
  intros Hc Hb Hfit Hok. assert (0 <= entry_offset cap) by (unfold entry_offset, USIZE_BYTES, RAW_ENTRY_BYTES; lia).
  destruct (bl_data _ _ _ _ Hb) as [(_ & -> & ->)|(_ & El & Er & He)]; [done|].
  apply (List_iter_entries _ (zlen es) es 0 (entry_offset cap)); try done.
  unfold List_len. rewrite Er. by destruct (data b).
Qed.

(** What a builder accepts is read back.  A list made with
    [Builder::new(cap, slen)] takes any [es] of at most [cap] entries whose names
    leave at least one byte of its pages free, and iterating over the resulting
    pages gives exactly those entries, in order, with their names.  After that the
    next entry is refused with [MaxEntriesExceeded] when the list is full, and with
    [NameTooLong] when its name would reach the last byte of the pages, and nothing
    changes. *)
Theorem list_roundtrip mem_alloc cap slen g g' b es :
  (forall a n, mem_alloc a n (Z.lor 1 2) = 0) -> 0 <= cap -> 0 <= slen -> entry_offset cap + slen <= 2 ^ 31 ->
  Builder_new cap slen g = Done (Ok b, g') -> Forall item_ok es -> zlen es <= cap ->
  entry_offset cap + names_len es < list_pages cap slen * SIZE ->
  exists b', Builder_add_all mem_alloc es b = Done (Ok tt, b') /\
    List_iter (S (length es)) (data b') 0 = Done (item_entry <$> es) /\
    forall u name size, item_ok (u, name, size) ->
      (list_pages cap slen * SIZE <= entry_offset cap + names_len es + zlen name ->
         Builder_add mem_alloc u name size b' = Done (Err NameTooLong, b')) /\
      (entry_offset cap + names_len es + zlen name < list_pages cap slen * SIZE -> zlen es = cap ->
         Builder_add mem_alloc u name size b' = Done (Err MaxEntriesExceeded, b')).
Proof.
  intros Ha Hc Hs Hb Enew Hok Hcap Hfit. pose proof (Builder_new_built _ _ _ _ _ Hc Hs Hb Enew) as Hb0.
  destruct (list_pages_bound cap slen Hc Hs Hb) as (_ & _ & _ & Hp32).
  destruct (Builder_add_all_spec mem_alloc Ha cap (list_pages cap slen) es b [] Hb0 Hok Hcap Hfit) as (b' & E & Hb').
  exists b'. split; [done|]. split.
  - by apply (built_iter cap (list_pages cap slen)); [| |lia|].
  - intros u name size Hit. pose proof (Builder_add_spec mem_alloc Ha cap (list_pages cap slen) b' _ u name size Hb' Hit) as Hadd.
    rewrite (proj1 (bl_offset _ _ _ _ Hb')) in Hadd. cbn [app] in Hadd. split.
    + intros Hlong. by rewrite decide_False in Hadd by lia.
    + intros Hfit' Hfull. rewrite decide_True in Hadd by lia. by rewrite decide_False in Hadd by lia.
Qed.

Lemma list_roundtrip_witness :
  exists b', Builder_add_all (fun _ _ _ => 0) [(UUID_new 5, [104; 105], 7); (UUID_new (2 ^ 64 + 1), [], 0)]
      (mkBuilder 0x1000 0 1 104 0 3 []) = Done (Ok tt, b') /\
    List_iter 3 (data b') 0 = Done [mkEntry (mkUUID 5 0) (Some [104; 105]) 7; mkEntry (mkUUID 1 1) (Some []) 0].
Proof.
  destruct (list_roundtrip (fun _ _ _ => 0) 3 16 init_global
    (match Builder_new 3 16 init_global with Done (_, g) => g | _ => init_global end) (mkBuilder 0x1000 0 1 104 0 3 [])
    [(UUID_new 5, [104; 105], 7); (UUID_new (2 ^ 64 + 1), [], 0)]) as (b' & E & R & _);
    [done|done|done|by vm_compute|by vm_compute| |by vm_compute|by vm_compute|].
  - repeat (apply Forall_cons_2; [by vm_compute|]). apply Forall_nil_2.
  - exists b'. split; [exact E|exact R].
Defined.
