(* ===== verification/DeviceTree.v ===== *)
(** * The device tree library

    src/lib/rust/device_tree/src/lib.rs reads a flattened device tree: a header, a
    block of strings and a block of 32-bit big-endian tokens.  A tree written in
    this format is read back, and reading ends on any data.

    The data is kept as bytes; its length is a multiple of four ([&[u32]]).  The
    block of strings is a slice made without a check, so a header that puts it
    outside of the data stops the model. *)

From S2P Require Import Prelude Bytes.

(** ** Header *)

Inductive ParseError := Parse_TooShort | BadMagic (magic : Z).

Inductive ParseNodeError := UnexpectedToken | UnterminatedName | OutOfBounds | TooShort | BadCellsValue.

(** Byte offsets of the fields of [Header]. *)
Definition magic_at : Z := 0.
Definition total_size_at : Z := 4.
Definition offset_structure_block_at : Z := 8.
Definition offset_strings_block_at : Z := 12.
Definition offset_memory_reservation_block_at : Z := 16.
Definition size_strings_block_at : Z := 32.
Definition HEADER_BYTES : Z := 40.

Definition MAGIC : Z := 0xd00dfeed.

(** A field of the header; [DeviceTree] values have one. *)
Definition field (d : list Z) (off : Z) : Z := default 0 (read_be d 4 off).

Definition DeviceTree_parse (d : list Z) : result (list Z) ParseError :=
  if decide (HEADER_BYTES <= zlen d) then
    if decide (field d total_size_at <= zlen d) then
      if decide (field d magic_at = MAGIC) then Ok d else Err (BadMagic (field d magic_at))
    else Err Parse_TooShort
  else Err Parse_TooShort.

Definition total_size (d : list Z) : Z := field d total_size_at.

(** ** Tokens and strings *)

(** [get]: the word at a position. *)
Definition dt_get (d : list Z) (position : Z) : option Z := read_be d 4 (4 * position).

(** [cstr_to_str]: the bytes before the first zero. *)
Fixpoint cstr_to_str (s : list Z) : option (list Z) :=
  match s with
  | [] => None
  | c :: s => if decide (c = 0) then Some [] else (c ::.) <$> cstr_to_str s
  end.

(** [strings]: the block of strings; outside of the data it is undefined. *)
Definition strings (d : list Z) : outcome (list Z) :=
  match slice d (field d offset_strings_block_at) (field d size_strings_block_at) with
  | Some s => Done s
  | None => Panicked "strings block outside of the data"
  end.

(** [StringsBlock::get] *)
Definition strings_get (s : list Z) (offset : Z) : option (list Z) :=
  if decide (offset <= zlen s) then cstr_to_str (drop (Z.to_nat offset) s) else None.

Definition TOKEN_BEGIN_NODE : Z := 1.
Definition TOKEN_END_NODE : Z := 2.
Definition TOKEN_PROP : Z := 3.
Definition TOKEN_NOP : Z := 4.
Definition TOKEN_END : Z := 9.

Definition is_token_valid (d : list Z) (offset : Z) : result Z (option Z) :=
  match dt_get d offset with
  | Some v =>
    if decide (v = TOKEN_BEGIN_NODE \/ v = TOKEN_END_NODE \/ v = TOKEN_PROP \/ v = TOKEN_NOP \/ v = TOKEN_END)
    then Ok v else Err (Some v)
  | None => Err None
  end.

(** ** Nodes *)

Record Node := mkNode {
  n_name : list Z;
  address_cells : Z; size_cells : Z; interrupt_cells : Z;
  properties : Z; children : Z
}.

Record Property := mkProperty { p_name : list Z; p_value : list Z }.

(** [?] on a result inside an outcome. *)
Definition try {X Y E} (r : outcome (result X E)) (k : X -> outcome (result Y E)) : outcome (result Y E) :=
  let! r := r in match r with Ok x => k x | Err e => Done (Err e) end.

Definition or_err {X E} (o : option X) (e : E) : outcome (result X E) :=
  Done (match o with Some x => Ok x | None => Err e end).

(** Words a byte string takes. *)
Definition words_for (len : Z) : Z := wrap 32 (len + 4 - 1) / 4.

(** [while dtb.get(offset) == Some(Self::TOKEN_PROP)]; the test of the cells properties compares the
    alignment of a word with four, so it always passes. *)
Fixpoint skip_properties (fuel : nat) (d : list Z) (offset : Z) : outcome (result Z ParseNodeError) :=
  match fuel with
  | O => OutOfFuel
  | S fuel =>
    if decide (dt_get d offset = Some TOKEN_PROP) then
      let offset := wrap 32 (offset + 1) in
      try (or_err (dt_get d offset) TooShort) (fun len =>
      let offset := wrap 32 (offset + 1) in
      try (or_err (dt_get d offset) TooShort) (fun name =>
      let! s := strings d in
      try (or_err (strings_get s name) OutOfBounds) (fun _ =>
      let offset := wrap 32 (offset + 1) in
      skip_properties fuel d (wrap 32 (offset + words_for len)))))
    else Done (Ok offset)
  end.

(** [while Self::TOKEN_END_NODE != dtb.get(offset)]: skip nodes, read by [node]. *)
Fixpoint skip_children (node : Z -> outcome (result (Node * Z) ParseNodeError)) (fuel : nat) (d : list Z) (offset : Z)
  : outcome (result Z ParseNodeError) :=
  match fuel with
  | O => OutOfFuel
  | S fuel =>
    try (or_err (dt_get d offset) TooShort) (fun tk =>
    if decide (tk = TOKEN_END_NODE) then Done (Ok offset) else
    try (node offset) (fun r => skip_children node fuel d r.2))
  end.

(** [Node::new]; the answer has the offset after the node.  The fuel bounds the
    depth, the properties and the children. *)
Fixpoint Node_new (fuel : nat) (d : list Z) (offset ac sc ic : Z) : outcome (result (Node * Z) ParseNodeError) :=
  match fuel with
  | O => OutOfFuel
  | S fuel =>
    if decide (dt_get d offset = Some TOKEN_BEGIN_NODE) then
      let offset := wrap 32 (offset + 1) in
      if decide (zlen d < 4 * offset) then Panicked "range start index out of range for slice" else
      try (or_err (cstr_to_str (drop (Z.to_nat (4 * offset)) d)) UnterminatedName) (fun name =>
      let align := zlen name + 1 in
      match try_into 32 ((align + 3) / 4) with
      | None => Panicked "called `Result::unwrap()` on an `Err` value"
      | Some words =>
        let offset := wrap 32 (offset + words) in
        let props := offset in
        match is_token_valid d offset with
        | Err _ => Panicked "called `Result::unwrap()` on an `Err` value"
        | Ok _ =>
          try (skip_properties fuel d offset) (fun offset =>
          let kids := offset in
          try (skip_children (fun o => Node_new fuel d o 0 0 0) fuel d offset) (fun offset =>
          Done (Ok (mkNode name ac sc ic props kids, wrap 32 (offset + 1)))))
        end
      end)
    else Done (Err UnexpectedToken)
  end.

(** [root] *)
Definition DeviceTree_root (fuel : nat) (d : list Z) : outcome (result Node ParseNodeError) :=
  try (Node_new fuel d (field d offset_structure_block_at / 4) 2 1 0) (fun r => Done (Ok r.1)).

(** ** Iterators *)

Definition expect {X} (o : option X) : outcome X :=
  match o with Some x => Done x | None => Panicked "called `Option::unwrap()` on a `None` value" end.

(** [next] of the iterator over properties: the property and the next offset. *)
Definition Properties_next (d : list Z) (offset : Z) : outcome (option (Property * Z)) :=
  if decide (dt_get d offset = Some TOKEN_PROP) then
    let offset := wrap 32 (offset + 1) in
    let! len := expect (dt_get d offset) in
    let offset := wrap 32 (offset + 1) in
    let! name := expect (dt_get d offset) in
    let! s := strings d in
    let! name := expect (strings_get s name) in
    let offset := wrap 32 (offset + 1) in
    match slice d (4 * offset) len with
    | None => Panicked "range end index out of range for slice"
    | Some value => Done (Some (mkProperty name value, wrap 32 (offset + words_for len)))
    end
  else Done None.

Fixpoint properties_list (fuel : nat) (d : list Z) (offset : Z) : outcome (list Property) :=
  match fuel with
  | O => OutOfFuel
  | S fuel =>
    let! p := Properties_next d offset in
    match p with
    | None => Done []
    | Some (p, offset) => let! l := properties_list fuel d offset in Done (p :: l)
    end
  end.

(** [for p in self.properties() { p.name; p.value }] of a node *)
Definition Node_properties (fuel : nat) (d : list Z) (n : Node) : outcome (list Property) :=
  properties_list fuel d (properties n).

(** [u32::from_be_bytes(p.value.try_into().unwrap())] *)
Definition cell_value (value : list Z) : outcome Z :=
  if decide (zlen value = 4) then Done (be_combine value)
  else Panicked "called `Result::unwrap()` on an `Err` value".

(** The cells the children inherit. *)
Fixpoint inherited_cells (ps : list Property) (cells : Z * Z * Z) : outcome (Z * Z * Z) :=
  match ps with
  | [] => Done cells
  | p :: ps =>
    let '(ac, sc, ic) := cells in
    if decide (p_name p = str "#address-cells") then
      let! v := cell_value (p_value p) in inherited_cells ps (v, sc, ic)
    else if decide (p_name p = str "#size-cells") then
      let! v := cell_value (p_value p) in inherited_cells ps (ac, v, ic)
    else if decide (p_name p = str "#interrupt-cells") then
      let! v := cell_value (p_value p) in inherited_cells ps (ac, sc, v)
    else inherited_cells ps cells
  end.

(** [next] of the iterator over children. *)
Definition Children_next (fuel : nat) (d : list Z) (offset : Z) (cells : Z * Z * Z) : outcome (option (Node * Z)) :=
  if decide (dt_get d offset = Some TOKEN_BEGIN_NODE) then
    let '(ac, sc, ic) := cells in
    let! r := Node_new fuel d offset ac sc ic in
    match r with
    | Ok r => Done (Some r)
    | Err _ => Panicked "called `Result::unwrap()` on an `Err` value"
    end
  else Done None.

Fixpoint children_list (fuel k : nat) (d : list Z) (offset : Z) (cells : Z * Z * Z) : outcome (list Node) :=
  match k with
  | O => OutOfFuel
  | S k =>
    let! c := Children_next fuel d offset cells in
    match c with
    | None => Done []
    | Some (n, offset) => let! l := children_list fuel k d offset cells in Done (n :: l)
    end
  end.

Definition Node_children (fuel : nat) (d : list Z) (n : Node) : outcome (list Node) :=
  let! ps := Node_properties fuel d n in
  let! cells := inherited_cells ps (2, 1, 0) in
  children_list fuel fuel d (children n) cells.

(** [reserved_memory_regions]: entries of two 64-bit words up to a pair of zeroes. *)
Fixpoint reserved_memory_regions (fuel : nat) (d : list Z) (off : Z) : outcome (list (Z * Z)) :=
  match fuel with
  | O => OutOfFuel
  | S fuel =>
    match read_be d 8 off, read_be d 8 (off + 8) with
    | Some address, Some size =>
      if decide (address = 0 /\ size = 0) then Done []
      else let! l := reserved_memory_regions fuel d (off + 16) in Done ((address, size) :: l)
    | _, _ => Panicked "memory reservation block outside of the data"
    end
  end.

(** ** Trees and their encoding *)

Unset Elimination Schemes.
Inductive tree := Tree (name : list Z) (props : list Property) (kids : list tree).
Set Elimination Schemes.

Section tree_ind.
Context (P : tree -> Prop) (HP : forall name props kids, Forall P kids -> P (Tree name props kids)).

Fixpoint tree_ind_nested (t : tree) : P t :=
  match t with
  | Tree name props kids =>
    HP name props kids ((fix go (l : list tree) : Forall P l :=
      match l with [] => Forall_nil_2 P | t :: l => Forall_cons_2 P t l (tree_ind_nested t) (go l) end) kids)
  end.
End tree_ind.

Definition be4 (v : Z) : list Z := be_split 4 v.

Definition pad4 (l : list Z) : list Z := l ++ replicate (Z.to_nat ((- zlen l) mod 4)) 0.

Section encode.
Context (off_of : list Z -> Z).

Definition enc_prop (p : Property) : list Z :=
  be4 TOKEN_PROP ++ be4 (zlen (p_value p)) ++ be4 (off_of (p_name p)) ++ pad4 (p_value p).

Fixpoint enc (t : tree) : list Z :=
  match t with
  | Tree name props kids =>
    be4 TOKEN_BEGIN_NODE ++ pad4 (name ++ [0]) ++ concat (enc_prop <$> props) ++
    concat (enc <$> kids) ++ be4 TOKEN_END_NODE
  end.
End encode.

(** A tree whose nodes have the cells they inherit. *)
Unset Elimination Schemes.
Inductive ctree := CTree (name : list Z) (cells : Z * Z * Z) (props : list Property) (kids : list ctree).
Set Elimination Schemes.

Definition last_cell (name : list Z) (dflt : Z) (ps : list Property) : Z :=
  foldl (fun v p => if decide (p_name p = name) then be_combine (p_value p) else v) dflt ps.

Fixpoint with_cells (cells : Z * Z * Z) (t : tree) : ctree :=
  match t with
  | Tree name props kids =>
    CTree name cells props (with_cells (last_cell (str "#address-cells") 2 props,
      last_cell (str "#size-cells") 1 props, last_cell (str "#interrupt-cells") 0 props) <$> kids)
  end.

Fixpoint collect {X Y} (f : X -> outcome Y) (l : list X) : outcome (list Y) :=
  match l with
  | [] => Done []
  | x :: l => let! y := f x in let! ys := collect f l in Done (y :: ys)
  end.

(** Everything the iterators give below a node. *)
Fixpoint reify (depth fuel : nat) (d : list Z) (n : Node) : outcome ctree :=
  match depth with
  | O => OutOfFuel
  | S depth =>
    let! ps := Node_properties fuel d n in
    let! ns := Node_children fuel d n in
    let! ts := collect (reify depth fuel d) ns in
    Done (CTree (n_name n) (address_cells n, size_cells n, interrupt_cells n) ps ts)
  end.

(** Names without zero bytes that the block of strings has, and values of 32-bit length. *)
Definition name_ok (name : list Z) : Prop := Forall (fun c => c <> 0) name.

Definition cells_names : list (list Z) := [str "#address-cells"; str "#size-cells"; str "#interrupt-cells"].

Definition prop_ok (s : list Z) (off_of : list Z -> Z) (p : Property) : Prop :=
  0 <= off_of (p_name p) < 2 ^ 32 /\ strings_get s (off_of (p_name p)) = Some (p_name p) /\
  (p_name p ∈ cells_names -> zlen (p_value p) = 4).

Fixpoint tree_ok (s : list Z) (off_of : list Z -> Z) (t : tree) : Prop :=
  match t with
  | Tree name props kids =>
    name_ok name /\ Forall (prop_ok s off_of) props /\ foldr (fun t P => tree_ok s off_of t /\ P) True kids
  end.

(** Fuel that is enough for a tree. *)
Fixpoint need (t : tree) : nat :=
  match t with Tree _ props kids => (2 + length props + length kids + sum_list (need <$> kids))%nat end.

Lemma need_eq name props kids :
  need (Tree name props kids) = (2 + length props + length kids + sum_list (need <$> kids))%nat.
Proof. done. Qed.

Lemma zlen_be4 v : zlen (be4 v) = 4.
Proof. unfold be4, be_split, zlen. by rewrite length_reverse, length_le_split. Qed.

Lemma has_get d o v : has d (4 * o) (be4 v) -> 0 <= v < 2 ^ 32 -> dt_get d o = Some v.
Proof.
  intros Hh Hv. unfold dt_get, read_be. pose proof (has_slice _ _ _ Hh) as E. rewrite zlen_be4 in E.
  change (Z.of_nat 4) with 4. rewrite E. cbn [fmap option_fmap option_map]. f_equal. by apply (be_combine_split 4).
Qed.

Lemma pad4_len l : exists k, zlen (pad4 l) = 4 * k /\ k = (zlen l + 3) / 4.
Proof.
  unfold pad4. rewrite zlen_app, zlen_replicate. pose proof (Z.mod_pos_bound (- zlen l) 4 ltac:(lia)).
  rewrite Z2Nat.id by lia. exists ((zlen l + 3) / 4). split; [|done].
  pose proof (Z.div_mod (- zlen l) 4 ltac:(lia)). pose proof (Z.div_mod (zlen l + 3) 4 ltac:(lia)).
  pose proof (Z.mod_pos_bound (zlen l + 3) 4 ltac:(lia)). lia.
Qed.

Lemma cstr_to_str_name name rest : name_ok name -> cstr_to_str (name ++ 0 :: rest) = Some name.
Proof. induction 1 as [|c name Hc _ IH]; [done|]. cbn. rewrite decide_False by done. by rewrite IH. Qed.

Lemma has_cstr d p name : name_ok name -> has d p (name ++ [0]) -> cstr_to_str (drop (Z.to_nat p) d) = Some name.
Proof.
  intros Hn (post & ->)%has_drop. rewrite <-app_assoc. by apply cstr_to_str_name.
Qed.

Lemma has_pad4 d p l : has d p (pad4 l) -> has d p l.
Proof. intros H. by apply has_app in H as [H _]. Qed.

(** ** Reading properties *)

Section read.
Context (d s : list Z) (off_of : list Z -> Z).
Context (Hd : zlen d <= 2 ^ 32) (Hs : strings d = Done s).

Lemma words_for_pad v : zlen v <= 2 ^ 32 - 4 -> zlen (pad4 v) = 4 * words_for (zlen v).
Proof.
  intros Hv. pose proof (zlen_nonneg v). destruct (pad4_len v) as (k & -> & ->). unfold words_for.
  rewrite wrap_small by (unfold fits; lia). do 2 f_equal. lia.
Qed.

(** The layout of one property at word [o]. *)
Lemma has_prop o p :
  has d (4 * o) (enc_prop off_of p) -> prop_ok s off_of p ->
  dt_get d o = Some TOKEN_PROP /\ dt_get d (o + 1) = Some (zlen (p_value p)) /\
  dt_get d (o + 2) = Some (off_of (p_name p)) /\ slice d (4 * (o + 3)) (zlen (p_value p)) = Some (p_value p) /\
  zlen (enc_prop off_of p) = 4 * (3 + words_for (zlen (p_value p))) /\
  0 <= o /\ 4 * (o + 3 + words_for (zlen (p_value p))) <= zlen d.
Proof using Hd.
  intros Hh (Hoff & _ & _). unfold enc_prop in *. pose proof (has_bound _ _ _ Hh) as Hb.
  rewrite !zlen_app, !zlen_be4 in *. destruct (pad4_len (p_value p)) as (k & Ek & Ek').
  pose proof (zlen_nonneg (p_value p)) as Hv0.
  assert (zlen (p_value p) <= 4 * k) as Hvk by (unfold pad4 in Ek; rewrite zlen_app in Ek; rewrite <-Ek;
    pose proof (zlen_nonneg (replicate (Z.to_nat (- zlen (p_value p) mod 4)) 0)); lia).
  rewrite Ek in *. assert (words_for (zlen (p_value p)) = k) as Ew by (pose proof (words_for_pad (p_value p)); lia). rewrite Ew.
  apply has_app in Hh as [H1 Hh]. rewrite zlen_be4 in Hh. apply has_app in Hh as [H2 Hh]. rewrite zlen_be4 in Hh.
  apply has_app in Hh as [H3 H4]. rewrite zlen_be4 in H4. apply has_pad4, has_slice in H4.
  split; [by apply has_get|]. split; [apply has_get; [by replace (4 * (o + 1)) with (4 * o + 4) by lia|lia]|].
  split; [apply has_get; [by replace (4 * (o + 2)) with (4 * o + 4 + 4) by lia|done]|].
  split; [by replace (4 * (o + 3)) with (4 * o + 4 + 4 + 4) by lia|].
  lia.
Qed.

Definition props_words (ps : list Property) : Z := zlen (concat (enc_prop off_of <$> ps)) / 4.

Lemma has_props_cons o p ps :
  has d (4 * o) (concat (enc_prop off_of <$> p :: ps)) -> prop_ok s off_of p ->
  has d (4 * (o + 3 + words_for (zlen (p_value p)))) (concat (enc_prop off_of <$> ps)) /\
  props_words (p :: ps) = 3 + words_for (zlen (p_value p)) + props_words ps.
Proof using Hd.
  cbn [fmap list_fmap concat]. intros Hh Hp. apply has_app in Hh as [H1 H2].
  destruct (has_prop o p H1 Hp) as (_ & _ & _ & _ & El & _). rewrite El in H2. split.
  - by replace (4 * (o + 3 + words_for (zlen (p_value p)))) with (4 * o + 4 * (3 + words_for (zlen (p_value p)))) by lia.
  - unfold props_words. cbn [fmap list_fmap concat]. rewrite zlen_app, El.
    rewrite Z.mul_comm, Z.div_add_l by lia. lia.
Qed.

Lemma skip_properties_spec ps : forall fuel o,
  has d (4 * o) (concat (enc_prop off_of <$> ps)) -> Forall (prop_ok s off_of) ps ->
  dt_get d (o + props_words ps) <> Some TOKEN_PROP -> (length ps < fuel)%nat -> 0 <= o < 2 ^ 31 ->
  skip_properties fuel d o = Done (Ok (o + props_words ps)).
Proof using Hd Hs.
  induction ps as [|p ps IH]; intros fuel o Hh Hok Hend Hf Ho; (destruct fuel as [|fuel]; [cbn in Hf; lia|]); cbn [skip_properties].
  { change (props_words []) with 0 in *. rewrite Z.add_0_r in *. by rewrite decide_False. }
  apply Forall_cons in Hok as [Hp Hok]. destruct (has_props_cons o p ps Hh Hp) as [Hh' Ew].
  cbn [fmap list_fmap concat] in Hh. apply has_app in Hh as [H1 _].
  destruct (has_prop o p H1 Hp) as (G0 & G1 & G2 & _ & _ & _ & Hb). pose proof Hp as (_ & Hstr & _).
  assert (0 <= words_for (zlen (p_value p))) by (apply Z.div_pos; [apply wrap_fits; lia|lia]).
  rewrite decide_True by done. rewrite (wrap_small 32 (o + 1)) by (unfold fits; lia). rewrite G1. cbn [try or_err obind].
  rewrite (wrap_small 32 (o + 1 + 1)) by (unfold fits; lia). replace (o + 1 + 1) with (o + 2) by lia. rewrite G2, Hs.
  cbn [try or_err obind]. rewrite Hstr. cbn [try or_err obind].
  rewrite (wrap_small 32 (o + 2 + 1)), wrap_small by (unfold fits; lia).
  replace (o + 2 + 1 + words_for (zlen (p_value p))) with (o + 3 + words_for (zlen (p_value p))) by lia.
  rewrite Ew, !Z.add_assoc in Hend |- *. apply IH; [done|done|done|cbn in Hf; lia|lia].
Qed.

Lemma properties_list_spec ps : forall fuel o,
  has d (4 * o) (concat (enc_prop off_of <$> ps)) -> Forall (prop_ok s off_of) ps ->
  dt_get d (o + props_words ps) <> Some TOKEN_PROP -> (length ps < fuel)%nat -> 0 <= o < 2 ^ 31 ->
  properties_list fuel d o = Done ps.
Proof using Hd Hs.
  induction ps as [|p ps IH]; intros fuel o Hh Hok Hend Hf Ho; (destruct fuel as [|fuel]; [cbn in Hf; lia|]);
    cbn [properties_list]; unfold Properties_next.
  { change (props_words []) with 0 in *. rewrite Z.add_0_r in *. by rewrite decide_False. }
  apply Forall_cons in Hok as [Hp Hok]. destruct (has_props_cons o p ps Hh Hp) as [Hh' Ew].
  cbn [fmap list_fmap concat] in Hh. apply has_app in Hh as [H1 _].
  destruct (has_prop o p H1 Hp) as (G0 & G1 & G2 & G3 & _ & _ & Hb). pose proof Hp as (_ & Hstr & _).
  assert (0 <= words_for (zlen (p_value p))) by (apply Z.div_pos; [apply wrap_fits; lia|lia]).
  rewrite decide_True by done. rewrite (wrap_small 32 (o + 1)) by (unfold fits; lia). rewrite G1. cbn [expect obind].
  rewrite (wrap_small 32 (o + 1 + 1)) by (unfold fits; lia). replace (o + 1 + 1) with (o + 2) by lia. rewrite G2, Hs.
  cbn [expect obind]. rewrite Hstr. cbn [expect obind].
  rewrite (wrap_small 32 (o + 2 + 1)), wrap_small by (unfold fits; lia). replace (o + 2 + 1) with (o + 3) by lia. rewrite G3.
  cbn [obind]. rewrite Ew, !Z.add_assoc in Hend. rewrite (IH fuel _ Hh' Hok Hend) by (cbn in Hf; lia). cbn. by destruct p.
Qed.

(** ** Reading nodes *)

Definition enc_words (t : tree) : Z := zlen (enc off_of t) / 4.
Definition kids_words (ts : list tree) : Z := zlen (concat (enc off_of <$> ts)) / 4.
Definition name_words (name : list Z) : Z := (zlen name + 1 + 3) / 4.

Lemma zlen_props ps : exists k, zlen (concat (enc_prop off_of <$> ps)) = 4 * k.
Proof.
  induction ps as [|p ps [k IH]]; [by exists 0|]. cbn [fmap list_fmap concat]. rewrite zlen_app, IH.
  unfold enc_prop. rewrite !zlen_app, !zlen_be4. destruct (pad4_len (p_value p)) as (k' & -> & _). exists (3 + k' + k). lia.
Qed.

Lemma div_4 x : (exists k, x = 4 * k) -> x = 4 * (x / 4).
Proof. intros [k ->]. rewrite (Z.mul_comm 4 k), Z.div_mul by lia. lia. Qed.

Lemma zlen_props_words ps : zlen (concat (enc_prop off_of <$> ps)) = 4 * props_words ps.
Proof. apply div_4, zlen_props. Qed.

Lemma zlen_name_words name : zlen (pad4 (name ++ [0])) = 4 * name_words name.
Proof. destruct (pad4_len (name ++ [0])) as (k & -> & ->). unfold name_words. rewrite zlen_app. reflexivity. Qed.

Lemma zlen_enc_words t : zlen (enc off_of t) = 4 * enc_words t.
Proof.
  apply div_4. induction t as [name props kids IH] using tree_ind_nested. cbn [enc].
  rewrite !zlen_app, !zlen_be4, zlen_name_words, zlen_props_words.
  assert (exists k, zlen (concat (enc off_of <$> kids)) = 4 * k) as [k ->].
  { induction IH as [|t ts [k Hk] _ [k' IH]]; [by exists 0|]. cbn [fmap list_fmap concat].
    rewrite zlen_app, Hk, IH. exists (k + k'). lia. }
  exists (1 + name_words name + props_words props + k + 1). lia.
Qed.

Lemma zlen_kids_words ts : zlen (concat (enc off_of <$> ts)) = 4 * kids_words ts.
Proof.
  apply div_4. induction ts as [|t ts [k IH]]; [by exists 0|]. cbn [fmap list_fmap concat].
  rewrite zlen_app, zlen_enc_words, IH. exists (enc_words t + k). lia.
Qed.

Lemma enc_words_eq name props kids :
  enc_words (Tree name props kids) = 2 + name_words name + props_words props + kids_words kids.
Proof.
  pose proof (zlen_enc_words (Tree name props kids)) as E. cbn [enc] in E.
  rewrite !zlen_app, !zlen_be4, zlen_name_words, zlen_props_words, zlen_kids_words in E. lia.
Qed.

Lemma kids_words_cons t ts : kids_words (t :: ts) = enc_words t + kids_words ts.
Proof.
  pose proof (zlen_kids_words (t :: ts)) as E. cbn [fmap list_fmap concat] in E.
  rewrite zlen_app, zlen_enc_words, zlen_kids_words in E. lia.
Qed.

Lemma words_nonneg name ps ts t : 0 <= name_words name /\ 0 <= props_words ps /\ 0 <= kids_words ts /\ 0 <= enc_words t.
Proof.
  pose proof (zlen_nonneg name).
  split; [unfold name_words; apply Z.div_pos; lia|]. split; [|split]; apply Z.div_pos; (apply zlen_nonneg || lia).
Qed.

(** The parts of a node at word [o]. *)
Lemma has_node o name props kids :
  has d (4 * o) (enc off_of (Tree name props kids)) ->
  has d (4 * o) (be4 TOKEN_BEGIN_NODE) /\ has d (4 * (o + 1)) (name ++ [0]) /\
  has d (4 * (o + 1 + name_words name)) (concat (enc_prop off_of <$> props)) /\
  has d (4 * (o + 1 + name_words name + props_words props)) (concat (enc off_of <$> kids)) /\
  has d (4 * (o + 1 + name_words name + props_words props + kids_words kids)) (be4 TOKEN_END_NODE).
Proof.
  cbn [enc]. intros Hh. apply has_app in Hh as [H1 Hh]. rewrite zlen_be4 in Hh.
  apply has_app in Hh as [H2 Hh]. rewrite zlen_name_words in Hh. apply has_app in Hh as [H3 Hh].
  rewrite zlen_props_words in Hh. apply has_app in Hh as [H4 H5]. rewrite zlen_kids_words in H5. split; [done|].
  split; [apply has_pad4; by replace (4 * (o + 1)) with (4 * o + 4) by lia|].
  split; [by replace (4 * (o + 1 + name_words name)) with (4 * o + 4 + 4 * name_words name) by lia|].
  split; [by replace (4 * (o + 1 + name_words name + props_words props))
    with (4 * o + 4 + 4 * name_words name + 4 * props_words props) by lia|].
  by replace (4 * (o + 1 + name_words name + props_words props + kids_words kids))
    with (4 * o + 4 + 4 * name_words name + 4 * props_words props + 4 * kids_words kids) by lia.
Qed.

Lemma kids_token o kids :
  has d (4 * o) (concat (enc off_of <$> kids)) -> has d (4 * (o + kids_words kids)) (be4 TOKEN_END_NODE) ->
  dt_get d o = Some (if kids is [] then TOKEN_END_NODE else TOKEN_BEGIN_NODE).
Proof.
  destruct kids as [|[name props kids] ts]; intros Hh He.
  - change (kids_words []) with 0 in He. rewrite Z.add_0_r in He. by apply has_get.
  - cbn [fmap list_fmap concat] in Hh. apply has_app in Hh as [Hh _]. apply has_node in Hh as [Hh _]. by apply has_get.
Qed.

Lemma props_token o ps :
  has d (4 * o) (concat (enc_prop off_of <$> ps)) ->
  dt_get d o = Some TOKEN_PROP \/ ps = [] /\ props_words ps = 0.
Proof.
  destruct ps as [|p ps]; [by right|]. intros Hh. left. cbn [fmap list_fmap concat] in Hh.
  apply has_app in Hh as [Hh _]. apply has_app in Hh as [Hh _]. by apply has_get.
Qed.

Definition node_at (o ac sc ic : Z) (t : tree) : Node :=
  match t with
  | Tree name props kids =>
    mkNode name ac sc ic (o + 1 + name_words name) (o + 1 + name_words name + props_words props)
  end.

(** [Node_new] reads [t] from any position. *)
Definition reads (t : tree) : Prop :=
  forall fuel o ac sc ic, has d (4 * o) (enc off_of t) -> tree_ok s off_of t -> (need t <= fuel)%nat ->
  Node_new fuel d o ac sc ic = Done (Ok (node_at o ac sc ic t, o + enc_words t)).

Lemma skip_children_spec ts : forall k fuel o,
  Forall reads ts -> has d (4 * o) (concat (enc off_of <$> ts)) -> has d (4 * (o + kids_words ts)) (be4 TOKEN_END_NODE) ->
  foldr (fun t P => tree_ok s off_of t /\ P) True ts -> (sum_list (need <$> ts) <= fuel)%nat -> (length ts < k)%nat ->
  skip_children (fun o => Node_new fuel d o 0 0 0) k d o = Done (Ok (o + kids_words ts)).
Proof.
  induction ts as [|t ts IH]; intros k fuel o Hr Hh He Hok Hf Hk; (destruct k as [|k]; [cbn in Hk; lia|]); cbn [skip_children];
    rewrite (kids_token o _ Hh He); cbn [try or_err obind].
  { rewrite decide_True by done. change (kids_words []) with 0. by rewrite Z.add_0_r. }
  rewrite decide_False by done. apply Forall_cons in Hr as [Ht Hr]. destruct Hok as [Hok1 Hok].
  cbn [fmap list_fmap concat] in Hh. apply has_app in Hh as [H1 Hh]. rewrite zlen_enc_words in Hh.
  cbn in Hf. rewrite (Ht fuel o 0 0 0 H1 Hok1) by lia. cbn [try obind snd].
  rewrite kids_words_cons, Z.add_assoc in He |- *. apply IH; [done| |done|done|lia|cbn in Hk; lia].
  by replace (4 * (o + enc_words t)) with (4 * o + 4 * enc_words t) by lia.
Qed.

Lemma Node_new_reads t : reads t.
Proof using Hd Hs.
  induction t as [name props kids IH] using tree_ind_nested. intros fuel o ac sc ic Hh Hok Hf.
  rewrite need_eq in Hf. destruct fuel as [|fuel]; [lia|]. destruct Hok as (Hname & Hprops & Hkids).
  pose proof (has_bound _ _ _ Hh) as Hb. rewrite zlen_enc_words, enc_words_eq in Hb.
  destruct (has_node o name props kids Hh) as (H1 & H2 & H3 & H4 & H5).
  destruct (words_nonneg name props kids (Tree name props kids)) as (Wn & Wp & Wk & _).
  set (wn := name_words name) in *. set (wp := props_words props) in *. set (wk := kids_words kids) in *.
  cbn [Node_new]. rewrite decide_True by (by apply has_get).
  rewrite (wrap_small 32 (o + 1)), decide_False by (unfold fits; lia). rewrite (has_cstr _ _ _ Hname H2). cbn [try or_err obind].
  change ((zlen name + 1 + 3) / 4) with wn. unfold try_into. rewrite decide_True by (unfold fits; lia).
  rewrite (wrap_small 32 (o + 1 + wn)) by (unfold fits; lia).
  pose proof (kids_token _ _ H4 H5) as Gk.
  assert (exists v, is_token_valid d (o + 1 + wn) = Ok v) as [v ->].
  { unfold is_token_valid. destruct (props_token _ _ H3) as [->|[Ep Ew]].
    - rewrite decide_True by auto. eauto.
    - fold wp in Ew. rewrite Ew, Z.add_0_r in Gk. rewrite Gk. destruct kids; (rewrite decide_True by auto); eauto. }
  rewrite (skip_properties_spec props fuel (o + 1 + wn)); [|done|done| |lia|lia].
  2:{ fold wp. rewrite Gk. by destruct kids. }
  fold wp. cbn [try obind]. rewrite (skip_children_spec kids fuel fuel); [|done..|lia|lia].
  fold wk. cbn [try obind]. unfold node_at. fold wn wp. rewrite enc_words_eq. fold wn wp wk.
  rewrite wrap_small by (unfold fits; lia).
  by replace (o + 1 + wn + wp + wk + 1) with (o + (2 + wn + wp + wk)) by lia.
Qed.

(** ** Iterating *)

Lemma last_cell_cons nm v p ps :
  last_cell nm v (p :: ps) = last_cell nm (if decide (p_name p = nm) then be_combine (p_value p) else v) ps.
Proof. done. Qed.

Lemma cells_names_distinct :
  str "#address-cells" <> str "#size-cells" /\ str "#address-cells" <> str "#interrupt-cells" /\
  str "#size-cells" <> str "#interrupt-cells".
Proof. split; [|split]; vm_compute; discriminate. Qed.

Lemma inherited_cells_spec ps : forall ac sc ic,
  Forall (prop_ok s off_of) ps ->
  inherited_cells ps (ac, sc, ic) =
    Done (last_cell (str "#address-cells") ac ps, last_cell (str "#size-cells") sc ps,
          last_cell (str "#interrupt-cells") ic ps).
Proof.
  induction ps as [|p ps IH]; intros ac sc ic Hok; [done|]. apply Forall_cons in Hok as [(_ & _ & Hc) Hok].
  destruct cells_names_distinct as (N1 & N2 & N3). rewrite !last_cell_cons. cbn [inherited_cells].
  assert (p_name p ∈ cells_names -> cell_value (p_value p) = Done (be_combine (p_value p))) as Hv
    by (intros Hin; unfold cell_value; by rewrite decide_True by (by apply Hc)).
  destruct (decide (p_name p = str "#address-cells")) as [E|E].
  { rewrite Hv by (rewrite E; by left). cbn [obind]. rewrite IH, !decide_False by congruence. done. }
  destruct (decide (p_name p = str "#size-cells")) as [E'|E'].
  { rewrite Hv by (rewrite E'; right; by left). cbn [obind]. rewrite IH, !decide_False by congruence. done. }
  destruct (decide (p_name p = str "#interrupt-cells")) as [E''|E''].
  { rewrite Hv by (rewrite E''; right; right; by left). cbn [obind]. by rewrite IH. }
  by rewrite IH.
Qed.

Fixpoint kid_nodes (o : Z) (cells : Z * Z * Z) (ts : list tree) : list Node :=
  match ts with
  | [] => []
  | t :: ts => node_at o cells.1.1 cells.1.2 cells.2 t :: kid_nodes (o + enc_words t) cells ts
  end.

Lemma children_list_spec ts : forall k fuel o cells,
  has d (4 * o) (concat (enc off_of <$> ts)) -> has d (4 * (o + kids_words ts)) (be4 TOKEN_END_NODE) ->
  foldr (fun t P => tree_ok s off_of t /\ P) True ts -> (sum_list (need <$> ts) <= fuel)%nat -> (length ts < k)%nat ->
  children_list fuel k d o cells = Done (kid_nodes o cells ts).
Proof using Hd Hs.
  induction ts as [|t ts IH]; intros k fuel o [[ac sc] ic] Hh He Hok Hf Hk; (destruct k as [|k]; [cbn in Hk; lia|]);
    cbn [children_list]; unfold Children_next; rewrite (kids_token o _ Hh He); [by rewrite decide_False|].
  rewrite decide_True by done. destruct Hok as [Hok1 Hok].
  cbn [fmap list_fmap concat] in Hh. apply has_app in Hh as [H1 Hh]. rewrite zlen_enc_words in Hh.
  cbn in Hf. rewrite (Node_new_reads t fuel o ac sc ic H1 Hok1) by lia. cbn [obind].
  rewrite kids_words_cons, Z.add_assoc in He.
  rewrite (IH k fuel (o + enc_words t) (ac, sc, ic)); [done| |done|done|lia|cbn in Hk; lia].
  by replace (4 * (o + enc_words t)) with (4 * o + 4 * enc_words t) by lia.
Qed.

(** The iterators give back the tree below a node. *)
Lemma reify_spec t : forall depth fuel o cells,
  has d (4 * o) (enc off_of t) -> tree_ok s off_of t -> (need t <= fuel)%nat -> (need t <= depth)%nat ->
  reify depth fuel d (node_at o cells.1.1 cells.1.2 cells.2 t) = Done (with_cells cells t).
Proof using Hd Hs.
  induction t as [name props kids IH] using tree_ind_nested. intros depth fuel o [[ac sc] ic] Hh Hok Hf Hdep.
  rewrite need_eq in Hf, Hdep. destruct depth as [|depth]; [lia|]. destruct Hok as (Hname & Hprops & Hkids).
  pose proof (has_bound _ _ _ Hh) as Hb. rewrite zlen_enc_words, enc_words_eq in Hb.
  destruct (has_node o name props kids Hh) as (_ & _ & H3 & H4 & H5).
  destruct (words_nonneg name props kids (Tree name props kids)) as (Wn & Wp & Wk & _).
  pose proof (kids_token _ _ H4 H5) as Gk. cbn [reify node_at fst snd].
  assert (Node_properties fuel d (node_at o ac sc ic (Tree name props kids)) = Done props) as Ep.
  { apply properties_list_spec; [done|done| |lia|cbn; lia]. cbn [node_at properties]. rewrite Gk. by destruct kids. }
  unfold Node_children. cbn [node_at] in Ep. rewrite Ep. cbn [obind].
  rewrite inherited_cells_spec by done. cbn [obind with_cells children].
  set (cs := (last_cell (str "#address-cells") 2 props, _, _)).
  rewrite (children_list_spec kids) by (done || lia). cbn [obind n_name address_cells size_cells interrupt_cells].
  enough (collect (reify depth fuel d) (kid_nodes (o + 1 + name_words name + props_words props) cs kids)
          = Done (with_cells cs <$> kids)) as -> by done.
  clearbody cs. clear Gk H5 H3 Ep Hh Hb Wn Wp Wk Hprops. revert H4. generalize (o + 1 + name_words name + props_words props).
  assert (sum_list (need <$> kids) <= fuel /\ sum_list (need <$> kids) <= depth)%nat as [Hf' Hd'] by lia. clear Hf Hdep.
  induction IH as [|t ts Ht Hts IHk]; intros o' H4; [done|]. cbn in Hf', Hd'. destruct Hkids as [Hk1 Hk2].
  cbn [fmap list_fmap concat] in H4. apply has_app in H4 as [H4 H4']. rewrite zlen_enc_words in H4'.
  cbn [kid_nodes collect]. rewrite (Ht depth fuel o' cs) by (done || lia). cbn [obind].
  rewrite IHk; [done|done|lia|lia|]. by replace (4 * (o' + enc_words t)) with (4 * o' + 4 * enc_words t) by lia.
Qed.
End read.

(** ** Whole trees *)

(** A device tree with the structure block after an empty reservation block, and the
    strings at the end. *)
Definition make_dtb (off_of : list Z -> Z) (s : list Z) (t : tree) : list Z :=
  let e := enc off_of t in
  be4 MAGIC ++ be4 (60 + zlen e + zlen s) ++ be4 56 ++ be4 (60 + zlen e) ++ be4 40 ++ be4 17 ++ be4 16 ++ be4 0 ++
  be4 (zlen s) ++ be4 (zlen e + 4) ++ replicate 16 0 ++ e ++ be4 TOKEN_END ++ s.

Section whole.
Context (off_of : list Z -> Z) (s : list Z) (t : tree).
Context (Hsize : 60 + zlen (enc off_of t) + zlen s < 2 ^ 32).
Abbreviation d := (make_dtb off_of s t).

Lemma zlen_make_dtb : zlen d = 60 + zlen (enc off_of t) + zlen s.
Proof. unfold make_dtb. rewrite !zlen_app, !zlen_be4, zlen_replicate. lia. Qed.

(** The fields and blocks, from the front. *)
Lemma make_dtb_parts :
  field d magic_at = MAGIC /\ field d total_size_at = zlen d /\ field d offset_structure_block_at = 56 /\
  field d offset_strings_block_at = 60 + zlen (enc off_of t) /\ field d offset_memory_reservation_block_at = 40 /\
  field d size_strings_block_at = zlen s /\ has d 40 (replicate 16 0) /\ has d 56 (enc off_of t ++ be4 TOKEN_END) /\
  has d (60 + zlen (enc off_of t)) s.
Proof using Hsize.
  pose proof (zlen_nonneg (enc off_of t)). pose proof (zlen_nonneg s).
  assert (forall o v, has d (4 * o) (be4 v) -> 0 <= v < 2 ^ 32 -> field d (4 * o) = v) as Hget.
  { intros o v Hh Hv. pose proof (has_get d o v Hh Hv) as E. unfold dt_get in E. unfold field. by rewrite E. }
  assert (has d 0 d) as Hh by (exists [], []; by rewrite app_nil_r). unfold make_dtb at 2 in Hh.
  rewrite (app_assoc (enc off_of t)) in Hh.
  repeat (let H := fresh "P" in apply has_app in Hh as [H Hh]; rewrite ?zlen_be4 in Hh).
  rewrite zlen_replicate in *. rewrite zlen_make_dtb.
  split; [by apply (Hget 0)|]. split; [apply (Hget 1); [done|lia]|]. split; [by apply (Hget 2)|].
  split; [apply (Hget 3); [done|lia]|]. split; [by apply (Hget 4)|]. split; [apply (Hget 8); [done|lia]|].
  split; [done|]. split; [done|]. rewrite zlen_app, zlen_be4 in Hh.
  by replace (60 + zlen (enc off_of t)) with (56 + (zlen (enc off_of t) + 4)) by lia.
Qed.
End whole.

Lemma make_dtb_parse off_of s t :
  60 + zlen (enc off_of t) + zlen s < 2 ^ 32 -> DeviceTree_parse (make_dtb off_of s t) = Ok (make_dtb off_of s t).
Proof.
  intros Hsize. destruct (make_dtb_parts off_of s t Hsize) as (Fm & Ft & _). pose proof (zlen_make_dtb off_of s t) as El.
  pose proof (zlen_nonneg (enc off_of t)). pose proof (zlen_nonneg s).
  unfold DeviceTree_parse. rewrite Fm, Ft, El, !decide_True by (done || unfold HEADER_BYTES; lia). done.
Qed.

Lemma make_dtb_regions off_of s t fuel :
  60 + zlen (enc off_of t) + zlen s < 2 ^ 32 -> (0 < fuel)%nat ->
  reserved_memory_regions fuel (make_dtb off_of s t) (field (make_dtb off_of s t) offset_memory_reservation_block_at) = Done [].
Proof.
  intros Hsize Hf. destruct fuel as [|fuel]; [lia|]. destruct (make_dtb_parts off_of s t Hsize) as (_ & _ & _ & _ & Fr & _ & Hr & _).
  rewrite Fr. cbn [reserved_memory_regions]. change (replicate 16 0) with (replicate 8 0 ++ replicate 8 0) in Hr.
  apply has_app in Hr as [H1 H2]. change (40 + zlen (replicate 8 0)) with (40 + 8) in H2. unfold read_be. change (Z.of_nat 8) with 8.
  rewrite (has_slice _ _ _ H1 : slice _ _ 8 = _), (has_slice _ _ _ H2 : slice _ _ 8 = _). done.
Qed.

(** The root of an encoded tree, read with the iterators. *)
Lemma make_dtb_root off_of s t fuel :
  tree_ok s off_of t -> 60 + zlen (enc off_of t) + zlen s < 2 ^ 32 -> (need t <= fuel)%nat ->
  exists n, DeviceTree_root fuel (make_dtb off_of s t) = Done (Ok n) /\
    reify fuel fuel (make_dtb off_of s t) n = Done (with_cells (2, 1, 0) t).
Proof.
  intros Hok Hsize Hf. destruct (make_dtb_parts off_of s t Hsize) as (_ & _ & Fs & Fo & _ & Fz & _ & Ht & Hs).
  apply has_app in Ht as [Ht _]. pose proof (zlen_make_dtb off_of s t) as El. set (d := make_dtb off_of s t) in *.
  assert (strings d = Done s) as Es by (unfold strings; by rewrite Fo, Fz, (has_slice _ _ _ Hs)).
  assert (has d (4 * 14) (enc off_of t)) as Ht' by done. assert (zlen d <= 2 ^ 32) as Hd by (rewrite El; lia).
  exists (node_at off_of 14 2 1 0 t). split.
  - unfold DeviceTree_root. rewrite Fs. change (56 / 4) with 14.
    by rewrite (Node_new_reads d s off_of Hd Es t fuel 14 2 1 0 Ht' Hok Hf).
  - exact (reify_spec d s off_of Hd Es t fuel fuel 14 (2, 1, 0) Ht' Hok Hf Hf).
Qed.

(** C26: A flattened device tree is read back.  For every tree whose names have no
    zero bytes, whose property names are in the block of strings, whose cell
    properties have four bytes, and which takes less than 4 GiB, the data
    [make_dtb] lays out is accepted by [parse] with no reserved region, [root]
    reads its root node with enough fuel, and iterating over properties and
    children from there gives the same tree, each node with the address, size and
    interrupt cells its parent sets (by default 2, 1 and 0). *)
Theorem dtb_roundtrip off_of s t fuel :
  tree_ok s off_of t -> 60 + zlen (enc off_of t) + zlen s < 2 ^ 32 -> (need t <= fuel)%nat ->
  let d := make_dtb off_of s t in
  DeviceTree_parse d = Ok d /\
  reserved_memory_regions 1 d (field d offset_memory_reservation_block_at) = Done [] /\
  exists n, DeviceTree_root fuel d = Done (Ok n) /\ reify fuel fuel d n = Done (with_cells (2, 1, 0) t).
Proof.
  intros Hok Hsize Hf. cbv zeta. split; [by apply make_dtb_parse|]. split; [apply make_dtb_regions; [done|lia]|by apply make_dtb_root].
Qed.

(** The example tree: a root with cells and one child with a register. *)
Definition example_strings : list Z := str "reg" ++ [0] ++ str "#address-cells" ++ [0].

Definition example_offset (name : list Z) : Z := if decide (name = str "reg") then 0 else 4.

Definition example_tree : tree :=
  Tree [] [mkProperty (str "#address-cells") [0; 0; 0; 1]]
    [Tree (str "uart") [mkProperty (str "reg") [1; 2; 3; 4; 5]] []; Tree (str "cpu") [] []].

Lemma example_tree_ok : tree_ok example_strings example_offset example_tree.
Proof.
  assert (forall p, 0 <= example_offset (p_name p) < 2 ^ 32) as Ho by (intros p; unfold example_offset; case_decide; lia).
  assert (prop_ok example_strings example_offset (mkProperty (str "#address-cells") [0; 0; 0; 1])) as H1
    by (split; [apply Ho|split; [by vm_compute|done]]).
  assert (prop_ok example_strings example_offset (mkProperty (str "reg") [1; 2; 3; 4; 5])) as H2.
  { split; [apply Ho|split; [by vm_compute|]]. cbn [p_name]. intros Hin. exfalso. revert Hin.
    unfold cells_names. rewrite !elem_of_cons, elem_of_nil. intros [E|[E|[E|[]]]]; vm_compute in E; discriminate. }
  cbn [tree_ok example_tree foldr]. unfold name_ok.
  repeat split; try (apply Forall_cons_2; [done|apply Forall_nil_2]); try apply Forall_nil_2; by repeat constructor.
Qed.

Lemma dtb_roundtrip_witness :
  exists n, DeviceTree_root 20 (make_dtb example_offset example_strings example_tree) = Done (Ok n) /\
    reify 20 20 (make_dtb example_offset example_strings example_tree) n = Done (with_cells (2, 1, 0) example_tree).
Proof.
  destruct (dtb_roundtrip example_offset example_strings example_tree 20) as (_ & _ & Hn).
  - exact example_tree_ok.
  - by vm_compute.
  - cbn. lia.
  - exact Hn.
Defined.

(** ** Any data *)

Section ends.
Context (d : list Z) (Hd : zlen d <= 2 ^ 32).

Definition words : Z := zlen d / 4.

(** The words left at an offset. *)
Definition left_at (o : Z) : Z := Z.max 0 (words - o).

(** Never out of fuel, and an offset that is answered is from [lo] up to [hi]. *)
Definition ends {X} (off : X -> Z) (lo hi : Z) (r : outcome (result X ParseNodeError)) : Prop :=
  match r with OutOfFuel => False | Done (Ok x) => lo <= off x < hi | _ => True end.

Lemma dt_get_bound o v : dt_get d o = Some v -> 0 <= o < words /\ words <= 2 ^ 30.
Proof using Hd.
  unfold dt_get, read_be. intros (bs & Hs & _)%fmap_Some. apply slice_len in Hs. unfold words.
  pose proof (Z.div_mod (zlen d) 4 ltac:(lia)). pose proof (Z.mod_pos_bound (zlen d) 4 ltac:(lia)). lia.
Qed.

Lemma words_for_bound len : 0 <= words_for len <= 2 ^ 30.
Proof.
  unfold words_for. pose proof (wrap_fits 32 (len + 4 - 1) ltac:(lia)) as [? ?].
  split; [apply Z.div_pos; lia|apply Z.div_le_upper_bound; lia].
Qed.

Lemma skip_properties_ends : forall fuel o, 0 <= o < 2 ^ 32 -> left_at o < Z.of_nat fuel -> ends id o (2 ^ 32) (skip_properties fuel d o).
Proof using Hd.
  induction fuel as [|fuel IH]; intros o Ho Hf; [unfold left_at in Hf; lia|]. cbn [skip_properties].
  case_decide as Hp; [|cbn; lia]. apply dt_get_bound in Hp as [Hp Hw].
  rewrite (wrap_small 32 (o + 1)) by (unfold fits; lia). destruct (dt_get d (o + 1)) as [len|]; [|done]. cbn [try or_err obind].
  rewrite (wrap_small 32 (o + 1 + 1)) by (unfold fits; lia). destruct (dt_get d (o + 1 + 1)) as [nm|]; [|done]. cbn [try or_err obind].
  unfold strings. destruct (slice d _ _) as [s|]; [|done]. cbn [obind]. destruct (strings_get s nm); [|done]. cbn [try or_err obind].
  pose proof (words_for_bound len). rewrite (wrap_small 32 (o + 1 + 1 + 1)), wrap_small by (unfold fits; lia).
  specialize (IH (o + 1 + 1 + 1 + words_for len) ltac:(lia) ltac:(unfold left_at in *; lia)).
  destruct (skip_properties fuel d _) as [[o'|]| |]; cbn in *; [lia|done..].
Qed.

Lemma skip_children_ends node : forall k o,
  (forall o, 0 <= o < 2 ^ 32 -> left_at o < Z.of_nat k -> ends snd (o + 1) (2 ^ 32) (node o)) ->
  0 <= o < 2 ^ 32 -> left_at o < Z.of_nat k -> ends id o words (skip_children node k d o).
Proof using Hd.
  induction k as [|k IH]; intros o Hn Ho Hf; [unfold left_at in Hf; lia|]. cbn [skip_children].
  destruct (dt_get d o) as [tk|] eqn:Eg; [|done]. cbn [try or_err obind]. apply dt_get_bound in Eg as [Hp Hw].
  case_decide; [cbn; lia|]. pose proof (Hn o Ho Hf) as He. destruct (node o) as [[[n o']|]| |]; [|done..]. cbn in He |- *.
  assert (ends id o' words (skip_children node k d o')) as Hr
    by (apply IH; [intros; apply Hn; lia|lia|unfold left_at in *; lia]).
  destruct (skip_children node k d o') as [[o2|]| |]; cbn in *; [lia|done..].
Qed.

Lemma cstr_to_str_len l name : cstr_to_str l = Some name -> zlen name < zlen l.
Proof.
  revert name. induction l as [|c l IH]; intros name; [done|]. cbn. rewrite zlen_cons. pose proof (zlen_nonneg l).
  case_decide; [intros [= <-]; rewrite zlen_nil; lia|]. intros (n & Hn & ->)%fmap_Some. rewrite zlen_cons.
  specialize (IH n Hn). lia.
Qed.

Lemma Node_new_ends : forall fuel o ac sc ic,
  0 <= o < 2 ^ 32 -> left_at o < Z.of_nat fuel -> ends snd (o + 1) (2 ^ 32) (Node_new fuel d o ac sc ic).
Proof using Hd.
  induction fuel as [|fuel IH]; intros o ac sc ic Ho Hf; [unfold left_at in Hf; lia|]. cbn [Node_new].
  case_decide as Hg; [|done]. apply dt_get_bound in Hg as [Hp Hw]. rewrite (wrap_small 32 (o + 1)) by (unfold fits; lia).
  case_decide; [done|]. destruct (cstr_to_str _) as [name|] eqn:En; [|done]. cbn [try or_err obind].
  apply cstr_to_str_len in En. rewrite zlen_drop in En by lia. pose proof (zlen_nonneg name).
  assert (0 <= (zlen name + 1 + 3) / 4 <= 2 ^ 30) as Hwn by (split; [apply Z.div_pos; lia|apply Z.div_le_upper_bound; lia]).
  unfold try_into. rewrite decide_True by (unfold fits; lia).
  assert (1 <= (zlen name + 1 + 3) / 4) as Hw1 by (apply Z.div_le_lower_bound; lia).
  set (wn := (zlen name + 1 + 3) / 4) in *. rewrite (wrap_small 32 (o + 1 + wn)) by (unfold fits; lia).
  destruct (is_token_valid d (o + 1 + wn)); [|done].
  assert (left_at (o + 1 + wn) < Z.of_nat fuel) as Hl by (unfold left_at in *; lia).
  pose proof (skip_properties_ends fuel (o + 1 + wn) ltac:(lia) Hl) as Hs.
  destruct (skip_properties fuel d (o + 1 + wn)) as [[o1|]| |]; [|done..]. cbn in Hs. cbn [try obind].
  assert (ends id o1 words (skip_children (fun o => Node_new fuel d o 0 0 0) fuel d o1)) as Hc
    by (apply skip_children_ends; [intros; by apply IH|lia|unfold left_at in *; lia]).
  destruct (skip_children _ fuel d o1) as [[o2|]| |]; [|done..]. cbn in Hc |- *.
  rewrite wrap_small by (unfold fits; lia). lia.
Qed.
End ends.

Lemma field_bound d o : Forall byte_ok d -> 0 <= field d o < 2 ^ 32.
Proof.
  intros Hb. unfold field, read_be. destruct (slice d o _) as [bs|] eqn:E; [|cbn; lia]. cbn [default fmap option_fmap option_map].
  assert (Forall byte_ok bs) as Hbs.
  { unfold slice in E. case_decide; [|done]. injection E as <-. by apply Forall_take, Forall_drop. }
  apply slice_len in E as [E _]. apply be_combine_bound in Hbs. rewrite E in Hbs. exact Hbs.
Qed.

(** [root] ends on every data of at most 4 GiB, malformed or not: every iteration and every level of
    the recursion moves forward by a word of the data at least. It gives a node or an error, or panics. *)
Theorem dtb_root_ends (d : list Z) (fuel : nat) :
  Forall byte_ok d -> zlen d <= 2 ^ 32 -> zlen d / 4 < Z.of_nat fuel -> DeviceTree_root fuel d <> OutOfFuel.
Proof.
  intros Hb Hd Hf. unfold DeviceTree_root. pose proof (field_bound d offset_structure_block_at Hb) as Hfb.
  set (o := field d offset_structure_block_at / 4).
  assert (0 <= o < 2 ^ 32) by (subst o; split; [apply Z.div_pos; lia|apply Z.div_lt_upper_bound; lia]).
  pose proof (zlen_nonneg d). assert (0 <= zlen d / 4) by (apply Z.div_pos; lia).
  pose proof (Node_new_ends d Hd fuel o 2 1 0 ltac:(lia) ltac:(unfold left_at, words; lia)) as He.
  destruct (Node_new fuel d o 2 1 0) as [[[n o']|]| |]; cbn in *; done.
Qed.

(** The example with the end of its last node cut off. *)
Definition example_cut : list Z := take 140 (make_dtb example_offset example_strings example_tree).

Lemma dtb_root_ends_witness : DeviceTree_root 40 example_cut <> OutOfFuel.
Proof.
  apply (dtb_root_ends example_cut 40); [|by vm_compute..].
  apply (bool_decide_unpack _). by vm_compute.
Defined.
