(* ===== verification/VirtQueue.v ===== *)
(** * Virtqueues

    The driver's side of a split virtqueue, src/lib/rust/virtio/src/queue.rs:
    [Queue::new], [send], [collect_used] and [wait_for_used] on a descriptor table
    and two rings in memory shared with a device.

    The device is not part of the source.  Its moves are those the virtio
    specification allows: it takes the next chain from the available ring, and puts
    a chain it has taken into the used ring, in any order.

    Callbacks are modelled by the list of their calls.  The used ring is read while
    the device stands still; between two operations it moves at will. *)

From S2P Require Import Prelude.

(** ** Data *)

Record Descriptor := mkDescriptor { address : Z; d_length : Z; flags : Z; next : Z }.

Definition NEXT : Z := 0x1.
Definition WRITE : Z := 0x2.

(** [Queue] and the three areas it points to.  The rings have [mask + 1] elements;
    an element of the used ring is an index and a length. *)
Record Queue := mkQueue {
  mask : Z;
  last_used : Z;
  free_descriptors : list Z;
  free_count : Z;
  descriptors : list Descriptor;
  avail_index : Z; avail_ring : list Z;
  used_index : Z; used_ring : list (Z * Z);
  notify_offset : Z
}.

Definition set_last_used (i : Z) (q : Queue) : Queue :=
  mkQueue (mask q) i (free_descriptors q) (free_count q) (descriptors q) (avail_index q) (avail_ring q)
    (used_index q) (used_ring q) (notify_offset q).

Definition set_free (l : list Z) (n : Z) (q : Queue) : Queue :=
  mkQueue (mask q) (last_used q) l n (descriptors q) (avail_index q) (avail_ring q)
    (used_index q) (used_ring q) (notify_offset q).

Definition set_descriptors (t : list Descriptor) (q : Queue) : Queue :=
  mkQueue (mask q) (last_used q) (free_descriptors q) (free_count q) t (avail_index q) (avail_ring q)
    (used_index q) (used_ring q) (notify_offset q).

Definition set_avail (i : Z) (l : list Z) (q : Queue) : Queue :=
  mkQueue (mask q) (last_used q) (free_descriptors q) (free_count q) (descriptors q) i l
    (used_index q) (used_ring q) (notify_offset q).

Definition set_used (i : Z) (l : list (Z * Z)) (q : Queue) : Queue :=
  mkQueue (mask q) (last_used q) (free_descriptors q) (free_count q) (descriptors q) (avail_index q) (avail_ring q)
    i l (notify_offset q).

Inductive NoBuffers := NoBuffers_.

(** An element of an array or slice; indexing panics out of range. *)
Definition at_index {S X} (l : list X) (i : Z) : M S X := unwrap "index out of bounds" (nth_z l i).

(** ** [collect_used] *)

(** The calls of the callback: descriptor, physical address and size. *)
Abbreviation collected := (list (Z * Z * Z)).

(** The inner [loop]: the descriptors of a chain go back to the free list. *)
Fixpoint collect_chain (fuel : nat) (descr_index : Z) : M Queue collected :=
  match fuel with
  | O => fun _ => OutOfFuel
  | S fuel =>
    if decide (descr_index = 0xffff) then panic "assertion failed: left != right" else
    let* q := get in
    let* descr := at_index (descriptors q) descr_index in
    at_index (free_descriptors q) (free_count q) ;;
    modify (set_free (set_z (free_descriptors q) (free_count q) descr_index) (wrap 16 (free_count q + 1))) ;;
    let* l := if decide (Z.land (flags descr) NEXT > 0) then collect_chain fuel (next descr) else ret [] in
    ret ((descr_index, address descr, d_length descr) :: l)
  end.

(** The outer [while]. *)
Fixpoint collect_loop (fuel : nat) (index head_index : Z) : M Queue collected :=
  match fuel with
  | O => fun _ => OutOfFuel
  | S fuel =>
    if decide (index = head_index) then modify (set_last_used index) ;; ret [] else
    let* q := get in
    let* e := at_index (used_ring q) (Z.land index (mask q)) in
    let* l := collect_chain 9 (wrap 16 e.1) in
    let* l' := collect_loop fuel (wrap 16 (index + 1)) head_index in
    ret (l ++ l')
  end.

(** Every chain adds to the eight free descriptors, so nine rounds are enough. *)
Definition collect_used : M Queue (collected * Z) :=
  let* q := get in
  let* l := collect_loop 10 (last_used q) (used_index q) in
  ret (l, wrap 16 (used_index q - last_used q)).

(** ** [send] *)

(** A buffer: address, length and whether the device writes to it. *)
Abbreviation buffer := (Z * Z * bool)%type.

Definition set_next (i : Z) (d : Descriptor) : Descriptor := mkDescriptor (address d) (d_length d) (flags d) i.

Definition buffer_flags (write more : bool) : Z := Z.lor (bool_to_Z write * WRITE) (bool_to_Z more * NEXT).

(** The loop over the buffers.  [prev] is what [prev_next] points to: [head] or the
    field of a descriptor.  The answer has the free count and the head, and the calls
    of [used]. *)
Fixpoint send_loop (bufs : list buffer) (free_count head : Z) (prev : option Z)
  : M Queue (result (Z * Z) NoBuffers * list Z) :=
  match bufs with
  | [] => ret (Ok (free_count, head), [])
  | (a, l, w) :: bufs =>
    match checked_sub free_count 1 with
    | None => ret (Err NoBuffers_, [])
    | Some free_count =>
      let* q := get in
      let* i := at_index (free_descriptors q) free_count in
      let* d := at_index (descriptors q) i in
      let t := set_z (descriptors q) i
                 (mkDescriptor a l (buffer_flags w (bool_decide (bufs <> []))) (next d)) in
      let* t := match prev with
                | None => ret t
                | Some p => let* d := at_index t p in ret (set_z t p (set_next i d))
                end in
      modify (set_descriptors t) ;;
      let* r := send_loop bufs free_count (match prev with Some _ => head | None => i end) (Some i) in
      ret (r.1, i :: r.2)
    end
  end.

(** From the loop on. *)
Definition send_chain (bufs : list buffer) : M Queue (result unit NoBuffers * list Z) :=
  let* q := get in
  let* r := send_loop bufs (free_count q) 0 None in
  match r with
  | (Err e, log) => ret (Err e, log)
  | (Ok (n, head), log) =>
    modify (fun q => set_free (free_descriptors q) n q) ;;
    let* q := get in
    let i := Z.land (avail_index q) (mask q) in
    at_index (avail_ring q) i ;;
    modify (set_avail (wrap 16 (avail_index q + 1)) (set_z (avail_ring q) i head)) ;;
    ret (Ok tt, log)
  end.

(** The answer, the calls of [used] and the calls of [callback]. *)
Definition send (bufs : list buffer) : M Queue (result unit NoBuffers * list Z * collected) :=
  let* count := unwrap "called `Result::unwrap()` on an `Err` value" (try_into 16 (zlen bufs)) in
  if decide (count = 0) then ret (Ok tt, [], []) else
  let* q := get in
  if decide (free_count q < count) then
    let* c := collect_used in
    let* q := get in
    if decide (free_count q < count) then let* r := send_chain bufs in ret (r, c.1)
    else ret (Err NoBuffers_, [], c.1)
  else let* r := send_chain bufs in ret (r, []).

(** ** [new] *)

(** The fields of a queue in [CommonConfig], seen through [queue_select]. *)
Record QueueRegs := mkQueueRegs {
  queue_size : Z; queue_msix_vector : Z; queue_enable : Z; queue_notify_off : Z;
  queue_descriptors : Z; queue_driver : Z; queue_device : Z
}.

Record CommonConfig := mkCommonConfig { queue_select : Z; queues : Z -> QueueRegs }.

Definition selected (c : CommonConfig) : QueueRegs := queues c (queue_select c).

(** Writes to fields of the selected queue. *)
Definition set_selected (f : QueueRegs -> QueueRegs) (c : CommonConfig) : CommonConfig :=
  mkCommonConfig (queue_select c) (fun i => if decide (i = queue_select c) then f (queues c i) else queues c i).

(** The device's registers and the static [DMA_ADDR]. *)
Record NewState := mkNewState { config : CommonConfig; DMA_ADDR : Z }.

(** What the memory holds where the areas are placed. *)
Record Dma := mkDma {
  m_descriptors : list Descriptor; m_avail_index : Z; m_avail_ring : list Z;
  m_used_index : Z; m_used_ring : list (Z * Z)
}.

Inductive OutOfMemory := OutOfMemory_.

Definition desc_size (size : Z) : Z := 16 * size.
Definition avail_size (size : Z) : Z := 4 + 2 * size + 2.
Definition used_size (size : Z) : Z := 4 + 8 * size + 2.
Definition align (s : Z) : Z := Z.ldiff (s + 0xfff) 0xfff.

(** [0xffff] in one half of a 32-bit word. *)
Definition fill_half (hi : bool) (v : Z) : Z :=
  if hi then 0xffff * 2 ^ 16 + v mod 2 ^ 16 else v / 2 ^ 16 * 2 ^ 16 + 0xffff.

(** The [i]th 16-bit word behind the head of the used ring. *)
Definition fill_word (ring : list (Z * Z)) (i : nat) : list (Z * Z) :=
  alter (fun '(ix, len) =>
    if decide (i mod 4 < 2)%nat then (fill_half (Nat.odd i) ix, len) else (ix, fill_half (Nat.odd i) len)) (i / 4)%nat ring.

Section new.
(** The system calls: status and value, and status and physical address. *)
Context (dev_dma_alloc : Z -> Z -> Z -> Z * Z) (mem_physical_address : Z -> Z * Z).

(** [Queue::new]; [mem] is the memory at the address the kernel answers. *)
Definition Queue_new (mem : Dma) (index max_size : Z) (msix : option Z) : M NewState (result Queue OutOfMemory) :=
  modify (fun s => if decide (DMA_ADDR s = 0) then mkNewState (config s) 0x3000000 else s) ;;
  let* s := get in
  let size := Z.min (queue_size (selected (config s))) max_size in
  let areas := align (desc_size size + avail_size size) in
  let '(status, value) := dev_dma_alloc (DMA_ADDR s) (areas + align (used_size size)) 0x2 in
  if decide (status <> 0) then panic "Failed DMA alloc" else
  let '(status, phys) := mem_physical_address value in
  if decide (status <> 0) then panic "Failed DMA get phys address" else
  modify (fun s => mkNewState (set_selected (fun r => mkQueueRegs size (queue_msix_vector r) 1 (queue_notify_off r)
            (wrap 64 phys) (wrap 64 (phys + desc_size size)) (wrap 64 (phys + areas)))
            (mkCommonConfig index (queues (config s)))) (DMA_ADDR s)) ;;
  let* s := get in
  let notify := queue_notify_off (selected (config s)) in
  modify (fun s => mkNewState (match msix with
            | Some v => set_selected (fun r => mkQueueRegs (queue_size r) v (queue_enable r) (queue_notify_off r)
                (queue_descriptors r) (queue_driver r) (queue_device r)) (config s)
            | None => config s
            end) (wrap 64 (DMA_ADDR s + 4096 * 0x2))) ;;
  let m := wrap 16 (size - 1) in
  let n := Z.to_nat (m + 1) in
  ret (Ok (mkQueue m 0 [5; 7; 6; 0; 1; 3; 2; 4] 8 (take n (m_descriptors mem)) (m_avail_index mem) (take n (m_avail_ring mem))
    (m_used_index mem) (take n (fold_left fill_word (seq 0 (Z.to_nat size)) (m_used_ring mem))) notify)).
End new.

(** ** The device, and [wait_for_used] *)

(** A queue, the device's position in the available ring and the heads of the chains
    it has taken. *)
Record Sys := mkSys { queue : Queue; seen : Z; in_flight : list Z }.

Inductive device_op := Fetch | Complete (n : nat) (len : Z).

(** The device takes the next chain, or puts one it has taken into the used ring. *)
Definition device_step (o : device_op) (s : Sys) : Sys :=
  let q := queue s in
  match o with
  | Fetch =>
    if decide (seen s = avail_index q) then s else
    match nth_z (avail_ring q) (Z.land (seen s) (mask q)) with
    | Some h => mkSys q (wrap 16 (seen s + 1)) (in_flight s ++ [h])
    | None => s
    end
  | Complete n len =>
    match in_flight s !! n with
    | Some h =>
      mkSys (set_used (wrap 16 (used_index q + 1)) (set_z (used_ring q) (Z.land (used_index q) (mask q)) (h, len)) q)
        (seen s) (delete n (in_flight s))
    | None => s
    end
  end.

(** An operation of the driver, in the presence of the device. *)
Definition driver {X} (m : M Queue X) : M Sys X := fun s =>
  match m (queue s) with
  | Done (x, q) => Done (x, mkSys q (seen s) (in_flight s))
  | Panicked why => Panicked why
  | OutOfFuel => OutOfFuel
  end.

(** [wait_for_used], on any state that has a queue; [waits] are what happens during each
    call of [wait_fn].  The loop has no bound of its own. *)
Fixpoint wait_for_used {S} (collect : M S (collected * Z)) (waits : list (S -> S)) : M S collected :=
  let* r := collect in
  if decide (r.2 = 0) then
    match waits with
    | [] => fun _ => OutOfFuel
    | wait :: waits =>
      modify wait ;;
      let* l := wait_for_used collect waits in ret (r.1 ++ l)
    end
  else ret r.1.

(** The moves of the device during a call of [wait_fn]. *)
Definition moves (ops : list device_op) (s : Sys) : Sys := fold_left (fun s o => device_step o s) ops s.

(** ** Runs *)

Inductive op := Send (bufs : list buffer) | Collect | Device (o : device_op).

Inductive answer :=
| Sent (r : result unit NoBuffers) (used : list Z) (c : collected)
| Collected (n : Z) (c : collected)
| Moved.

Definition step (o : op) : M Sys answer :=
  match o with
  | Send bufs => let* r := driver (send bufs) in ret (Sent r.1.1 r.1.2 r.2)
  | Collect => let* r := driver collect_used in ret (Collected r.2 r.1)
  | Device o => modify (device_step o) ;; ret Moved
  end.

Fixpoint run (ops : list op) : M Sys (list answer) :=
  match ops with
  | [] => ret []
  | o :: ops => let* a := step o in let* l := run ops in ret (a :: l)
  end.

(** ** Specification

    A stack of free descriptors, and chains: lists of descriptors, each with the
    buffer it stands for.  A chain is posted, then taken by the device, then done,
    and its descriptors are free again when it is collected. *)

Abbreviation chain := (list (Z * buffer)).

Record Spec := mkSpec { free : list Z; posted : list chain; taken : list chain; done_ : list chain }.

Definition chain_idxs (c : chain) : list Z := fst <$> c.

Definition all_idxs (cs : list chain) : list Z := concat (chain_idxs <$> cs).

Definition chain_log (c : chain) : collected := (fun '(i, (a, l, _)) => (i, a, l)) <$> c.

Definition spec_collect (a : Spec) : Z * collected * Spec :=
  (zlen (done_ a), concat (chain_log <$> done_ a),
   mkSpec (free a ++ all_idxs (done_ a)) (posted a) (taken a) []).

(** With enough descriptors the buffers are posted.  Otherwise the done chains are
    collected, and the buffers are refused whether that gave enough or not. *)
Definition spec_send (bufs : list buffer) (a : Spec) : answer * Spec :=
  if decide (bufs = []) then (Sent (Ok tt) [] [], a)
  else if decide (length bufs <= length (free a))%nat then
    let rest := take (length (free a) - length bufs) (free a) in
    let idxs := reverse (drop (length (free a) - length bufs) (free a)) in
    (Sent (Ok tt) idxs [], mkSpec rest (posted a ++ [zip idxs bufs]) (taken a) (done_ a))
  else
    let '(_, c, a) := spec_collect a in
    (Sent (Err NoBuffers_) (if decide (length bufs <= length (free a))%nat then [] else reverse (free a)) c, a).

Definition spec_device (o : device_op) (a : Spec) : Spec :=
  match o with
  | Fetch => match posted a with [] => a | c :: l => mkSpec (free a) l (taken a ++ [c]) (done_ a) end
  | Complete n _ =>
    match taken a !! n with
    | Some c => mkSpec (free a) (posted a) (delete n (taken a)) (done_ a ++ [c])
    | None => a
    end
  end.

Definition spec_step (o : op) (a : Spec) : answer * Spec :=
  match o with
  | Send bufs => spec_send bufs a
  | Collect => let '(n, c, a) := spec_collect a in (Collected n c, a)
  | Device o => (Moved, spec_device o a)
  end.

Fixpoint spec_run (ops : list op) (a : Spec) : list answer * Spec :=
  match ops with
  | [] => ([], a)
  | o :: ops => let '(x, a) := spec_step o a in let '(l, a) := spec_run ops a in (x :: l, a)
  end.

(** ** Representation *)

(** The table links the descriptors of a chain, with the buffers. *)
Fixpoint chain_at (t : list Descriptor) (c : chain) : Prop :=
  match c with
  | [] => True
  | (i, (a, l, w)) :: c =>
    (exists nx, nth_z t i = Some (mkDescriptor a l (buffer_flags w (bool_decide (c <> []))) nx) /\
      (forall j b c', c = (j, b) :: c' -> nx = j)) /\ chain_at t c
  end.

Definition head_of (c : chain) : Z := match c with (i, _) :: _ => i | [] => 0 end.

(** [l] is in a ring of size [2^k] from position [u] on. *)
Definition ring_has {X} (ring : list X) (k u : Z) (l : list X) : Prop :=
  forall j x, nth_z l j = Some x -> nth_z ring ((u + j) mod 2 ^ k) = Some x.

Definition chains (a : Spec) : list chain := posted a ++ taken a ++ done_ a.

(** The descriptors in use are those below eight, each in one place. *)
Definition owned (a : Spec) : Prop :=
  free a ++ all_idxs (chains a) ≡ₚ seqZ 0 8.

Record repr (s : Sys) (a : Spec) : Prop := {
  r_owned : owned a;
  r_chains : Forall (fun c => c <> [] /\ chain_at (descriptors (queue s)) c) (chains a);
  r_free : exists rest, free_descriptors (queue s) = free a ++ rest /\ zlen (free a ++ rest) = 8;
  r_count : free_count (queue s) = zlen (free a);
  r_taken : in_flight s = head_of <$> taken a;
  r_rings : exists k u v lens, 3 <= k <= 15 /\ mask (queue s) = 2 ^ k - 1 /\
    zlen (descriptors (queue s)) = 2 ^ k /\ zlen (avail_ring (queue s)) = 2 ^ k /\ zlen (used_ring (queue s)) = 2 ^ k /\
    last_used (queue s) = wrap 16 u /\ used_index (queue s) = wrap 16 (u + zlen (done_ a)) /\
    seen s = wrap 16 v /\ avail_index (queue s) = wrap 16 (v + zlen (posted a)) /\
    zlen lens = zlen (done_ a) /\
    ring_has (used_ring (queue s)) k u (zip (head_of <$> done_ a) lens) /\
    ring_has (avail_ring (queue s)) k v (head_of <$> posted a)
}.

(** ** Rings and chains *)

Section rings.
Context {X : Type} (k : Z) (Hk : 0 <= k).
Implicit Types (ring l : list X) (x : X) (u : Z).

Lemma ring_has_nil ring u : ring_has ring k u [].
Proof. intros j x Hj%nth_z_Some. unfold zlen in Hj. cbn in Hj. lia. Qed.

Lemma ring_has_cons ring u x l :
  ring_has ring k u (x :: l) -> nth_z ring (u mod 2 ^ k) = Some x /\ ring_has ring k (u + 1) l.
Proof.
  intros H. split; [rewrite <-(Z.add_0_r u); by apply H|]. intros j y Hj.
  replace (u + 1 + j) with (u + (1 + j)) by lia. apply H. rewrite nth_z_cons; [done|]. apply nth_z_Some in Hj. lia.
Qed.

Lemma ring_has_push ring u x l :
  zlen ring = 2 ^ k -> zlen l < 2 ^ k -> ring_has ring k u l ->
  ring_has (set_z ring ((u + zlen l) mod 2 ^ k) x) k u (l ++ [x]).
Proof using Hk.
  intros Hr Hl H j y Hj. pose proof (Z.mod_pos_bound (u + zlen l) (2 ^ k) ltac:(lia)) as Hm.
  pose proof (nth_z_Some _ _ _ Hj) as Hb. rewrite zlen_app in Hb. change (zlen [x]) with 1 in Hb.
  destruct (decide (j = zlen l)) as [->|Hn].
  - rewrite nth_z_middle in Hj. injection Hj as <-. apply nth_z_set_eq. lia.
  - rewrite nth_z_app_l in Hj by lia. rewrite nth_z_set_ne; [by apply H|].
    intros E. apply Hn. symmetry. apply (Z.add_reg_l u), (wrap_eq_near k); [done|lia].
Qed.
End rings.

Lemma ring_pos x k : 0 <= k <= 16 -> Z.land (wrap 16 x) (2 ^ k - 1) = x mod 2 ^ k.
Proof. intros. by rewrite land_mask, wrap_mod_pow2 by lia. Qed.

Lemma chain_at_frame t t' c :
  (forall i, i ∈ chain_idxs c -> nth_z t' i = nth_z t i) -> chain_at t c -> chain_at t' c.
Proof.
  induction c as [|[i [[a l] w]] c IH]; intros Hf; [done|]. cbn in *. intros [(nx & Hn & Hx) Hc]. split.
  - exists nx. rewrite Hf by left. done.
  - apply IH; [|done]. intros j Hj. apply Hf. by right.
Qed.

Lemma buffer_flags_next w more : Z.land (buffer_flags w more) NEXT > 0 <-> more = true.
Proof. by destruct w, more. Qed.

Lemma zlen_chain_idxs c : zlen (chain_idxs c) = zlen c.
Proof. apply zlen_fmap. Qed.

Lemma all_idxs_app l1 l2 : all_idxs (l1 ++ l2) = all_idxs l1 ++ all_idxs l2.
Proof. unfold all_idxs. by rewrite fmap_app, concat_app. Qed.

Lemma drop_zlen_app {X} (l1 l2 : list X) n : n = length l1 -> drop n (l1 ++ l2) = l2.
Proof. intros ->. apply drop_app_length. Qed.

(** ** Collecting *)

Lemma collect_chain_spec c : forall fuel q fr rest,
  c <> [] -> chain_at (descriptors q) c -> Forall (fun i => 0 <= i < 8) (chain_idxs c) ->
  free_descriptors q = fr ++ rest -> free_count q = zlen fr -> zlen (fr ++ rest) = 8 ->
  (length c <= length rest)%nat -> (length c <= fuel)%nat ->
  collect_chain fuel (head_of c) q =
    Done (chain_log c, set_free (fr ++ chain_idxs c ++ drop (length c) rest) (zlen fr + zlen c) q).
Proof.
  induction c as [|[i [[a l] w]] c IH]; intros fuel q fr rest Hne Hc Hi Hf Hn H8 Hr Hfu; [done|].
  destruct fuel as [|fuel]; [cbn in Hfu; lia|]. destruct rest as [|r rest]; [cbn in Hr; lia|].
  cbn in Hc, Hi, Hr, Hfu. destruct Hc as [(nx & Ht & Hx) Hc]. apply Forall_cons in Hi as [Hi His].
  cbn [collect_chain head_of]. rewrite decide_False by lia. erewrite bind_done by reflexivity.
  erewrite bind_done by (unfold at_index; rewrite Ht; reflexivity).
  erewrite bind_done by (unfold at_index; rewrite Hf, Hn, nth_z_middle; reflexivity).
  erewrite bind_done by reflexivity. rewrite Hf, Hn, set_z_app.
  rewrite zlen_app, zlen_cons in H8. pose proof (zlen_nonneg fr). pose proof (zlen_nonneg rest).
  rewrite (wrap_small 16) by (unfold fits; lia). cbn [flags address d_length next].
  destruct c as [|[j b] c].
  - rewrite decide_False by (rewrite buffer_flags_next, bool_decide_eq_true; intros H'; by apply H').
    cbn. done.
  - rewrite decide_True by (rewrite buffer_flags_next; by apply bool_decide_eq_true).
    rewrite (Hx j b c eq_refl). change j with (head_of ((j, b) :: c)).
    erewrite bind_done.
    2:{ apply (IH fuel _ (fr ++ [i]) rest); [done|done|done|..]; cbn [free_descriptors free_count set_free].
        - by rewrite <-app_assoc. - rewrite zlen_app. done. - rewrite !zlen_app. change (zlen [i]) with 1. lia.
        - lia. - lia. }
    unfold ret. do 2 f_equal. unfold set_free. cbn. f_equal; [by rewrite <-app_assoc|].
    rewrite zlen_app, !zlen_cons, zlen_nil. lia.
Qed.

Lemma collect_loop_spec k cs : forall fuel q fr rest u lens,
  0 <= k <= 16 -> mask q = 2 ^ k - 1 ->
  Forall (fun c => c <> [] /\ chain_at (descriptors q) c) cs -> Forall (fun i => 0 <= i < 8) (all_idxs cs) ->
  zlen lens = zlen cs -> ring_has (used_ring q) k u (zip (head_of <$> cs) lens) ->
  free_descriptors q = fr ++ rest -> free_count q = zlen fr -> zlen (fr ++ rest) = 8 ->
  (length (all_idxs cs) <= length rest)%nat -> (length cs < fuel)%nat -> zlen cs < 2 ^ 16 ->
  collect_loop fuel (wrap 16 u) (wrap 16 (u + zlen cs)) q =
    Done (concat (chain_log <$> cs), set_last_used (wrap 16 (u + zlen cs))
      (set_free (fr ++ all_idxs cs ++ drop (length (all_idxs cs)) rest) (zlen fr + zlen (all_idxs cs)) q)).
Proof.
  induction cs as [|c cs IH]; intros fuel q fr rest u lens Hk Hm Hc Hi Hl Hr Hf Hn H8 Hle Hfu H16.
  - destruct fuel as [|fuel]; [cbn in Hfu; lia|]. cbn [collect_loop]. rewrite zlen_nil, Z.add_0_r, decide_True by done.
    unfold bind, modify, ret. change (all_idxs []) with (@nil Z). rewrite zlen_nil, Z.add_0_r, <-Hn. cbn [app length]. rewrite drop_0. rewrite <-Hf. by destruct q.
  - destruct fuel as [|fuel]; [cbn in Hfu; lia|]. destruct lens as [|len lens]; [rewrite zlen_nil, zlen_cons in Hl; pose proof (zlen_nonneg cs); lia|].
    rewrite !zlen_cons in *. cbn in Hfu, Hr. apply ring_has_cons in Hr as [Hr1 Hr2].
    apply Forall_cons in Hc as [[Hc1 Hc2] Hcs]. change (all_idxs (c :: cs)) with (chain_idxs c ++ all_idxs cs) in *.
    apply Forall_app in Hi as [Hi1 Hi2]. rewrite length_app in Hle. pose proof (zlen_nonneg cs).
    cbn [collect_loop]. rewrite decide_False by (intros E; apply wrap_eq_near in E; lia).
    erewrite bind_done by reflexivity. rewrite Hm, ring_pos by lia.
    erewrite bind_done by (unfold at_index; rewrite Hr1; reflexivity). cbn [fst].
    assert (length (chain_idxs c) = length c) as Hlc by apply length_fmap.
    assert (length c <= 8)%nat as Hc8 by (unfold zlen in H8; rewrite length_app in H8; lia).
    assert (wrap 16 (head_of c) = head_of c) as Hh.
    { destruct c as [|[i b] c]; [done|]. apply wrap_small. apply Forall_cons in Hi1 as [Hi0 _]. unfold fits. cbn in *. lia. }
    rewrite Hh. erewrite bind_done by (apply (collect_chain_spec c 9 q fr rest); eauto; lia).
    assert (zlen (chain_idxs c ++ drop (length c) rest) = zlen rest) as Hrest
      by (unfold zlen; rewrite length_app, length_drop; lia).
    rewrite wrap_add_l. replace (u + (1 + zlen cs)) with (u + 1 + zlen cs) by lia.
    erewrite bind_done.
    2:{ apply (IH fuel _ (fr ++ chain_idxs c) (drop (length c) rest) (u + 1) lens); try done; cbn [free_descriptors free_count set_free].
        - lia. - by rewrite <-app_assoc. - by rewrite zlen_app, zlen_chain_idxs.
        - rewrite <-app_assoc, zlen_app, Hrest, <-zlen_app. done. - rewrite length_drop. lia. - lia. - lia. }
    unfold ret. do 2 f_equal. unfold set_last_used, set_free. cbn. f_equal.
    + rewrite <-!app_assoc, drop_drop, length_app, Hlc. done.
    + rewrite !zlen_app. lia.
Qed.

(** ** Sending *)

(** One round of the loop with a free descriptor [i] on top. *)
Definition link (t : list Descriptor) (i : Z) (d0 : Descriptor) (b : buffer) (more : bool) (prev : option Z) : list Descriptor :=
  let t := set_z t i (mkDescriptor b.1.1 b.1.2 (buffer_flags b.2 more) (next d0)) in
  match prev with
  | None => t
  | Some p => match nth_z t p with Some d => set_z t p (set_next i d) | None => t end
  end.

Definition prev_ok (t : list Descriptor) (idxs : list Z) (prev : option Z) : Prop :=
  forall p, prev = Some p -> (p ∉ idxs) /\ 0 <= p < zlen t.

Lemma zlen_link t i d b more prev : zlen (link t i d b more prev) = zlen t.
Proof. unfold link. destruct prev as [p|]; [destruct (nth_z _ p)|]; by rewrite ?zlen_set_z. Qed.

Lemma link_other t i d b more prev j :
  j <> i -> prev <> Some j -> nth_z (link t i d b more prev) j = nth_z t j.
Proof.
  intros Hi Hp. unfold link. destruct prev as [p|]; [destruct (nth_z _ p)|]; rewrite ?(nth_z_set_ne _ p), ?nth_z_set_ne; congruence.
Qed.

Lemma link_this t i d b more prev :
  0 <= i < zlen t -> prev <> Some i ->
  nth_z (link t i d b more prev) i = Some (mkDescriptor b.1.1 b.1.2 (buffer_flags b.2 more) (next d)).
Proof.
  intros Hi Hp. unfold link. destruct prev as [p|]; [destruct (nth_z _ p)|]; rewrite ?(nth_z_set_ne _ p), ?nth_z_set_eq; congruence.
Qed.

Lemma link_prev t i d b more p :
  p <> i -> 0 <= p < zlen t -> nth_z (link t i d b more (Some p)) p = set_next i <$> nth_z t p.
Proof.
  intros Hi Hp. unfold link. rewrite nth_z_set_ne by done. destruct (nth_z_lt t p Hp) as [dp E]. rewrite E.
  by rewrite nth_z_set_eq by (rewrite zlen_set_z; lia).
Qed.

Lemma send_loop_cons b bufs q fr i rest head prev :
  free_descriptors q = fr ++ i :: rest -> 0 <= i < zlen (descriptors q) -> prev_ok (descriptors q) [i] prev ->
  exists d, nth_z (descriptors q) i = Some d /\
  send_loop (b :: bufs) (zlen fr + 1) head prev q =
    bind (send_loop bufs (zlen fr) (match prev with Some _ => head | None => i end) (Some i))
      (fun r => ret (r.1, i :: r.2)) (set_descriptors (link (descriptors q) i d b (bool_decide (bufs <> [])) prev) q).
Proof.
  intros Hf Hi Hp. destruct b as [[a l] w]. destruct (nth_z_lt (descriptors q) i Hi) as [d Hd]. exists d. split; [done|].
  pose proof (zlen_nonneg fr). cbn [send_loop]. unfold checked_sub. rewrite decide_True by lia.
  replace (zlen fr + 1 - 1) with (zlen fr) by lia. erewrite bind_done by reflexivity.
  erewrite bind_done by (unfold at_index; rewrite Hf, nth_z_middle; reflexivity).
  erewrite bind_done by (unfold at_index; rewrite Hd; reflexivity). unfold link. cbn [fst snd].
  destruct prev as [p|]; [|by erewrite bind_done by reflexivity].
  destruct (Hp p eq_refl) as [Hpi Hpb]. destruct (nth_z_lt (set_z (descriptors q) i
    (mkDescriptor a l (buffer_flags w (bool_decide (bufs <> []))) (next d))) p) as [dp Ep]; [by rewrite zlen_set_z|].
  rewrite Ep. erewrite bind_done by (unfold at_index; rewrite Ep; reflexivity). by erewrite bind_done by reflexivity.
Qed.

Lemma send_loop_ok bufs : forall q fr idxs rest head prev,
  free_descriptors q = fr ++ reverse idxs ++ rest -> length idxs = length bufs -> NoDup idxs ->
  Forall (fun i => 0 <= i < zlen (descriptors q)) idxs -> prev_ok (descriptors q) idxs prev ->
  exists t, send_loop bufs (zlen fr + zlen idxs) head prev q =
      Done ((Ok (zlen fr, match prev with Some _ => head | None => default head (hd_error idxs) end), idxs), set_descriptors t q) /\
    zlen t = zlen (descriptors q) /\ chain_at t (zip idxs bufs) /\
    (forall j, j ∉ idxs -> prev <> Some j \/ idxs = [] -> nth_z t j = nth_z (descriptors q) j) /\
    (forall p i, prev = Some p -> hd_error idxs = Some i -> nth_z t p = set_next i <$> nth_z (descriptors q) p).
Proof.
  induction bufs as [|b bufs IH]; intros q fr idxs rest head prev Hf Hl Hnd Hb Hp; destruct idxs as [|i idxs]; try done.
  - exists (descriptors q). cbn [send_loop]. rewrite zlen_nil, Z.add_0_r. split; [|done].
    unfold ret. destruct q, prev; done.
  - rewrite reverse_cons, <-app_assoc in Hf. cbn [app] in Hf. rewrite app_assoc in Hf.
    apply NoDup_cons in Hnd as [Hi Hnd]. apply Forall_cons in Hb as [Hb Hbs].
    destruct (send_loop_cons b bufs q (fr ++ reverse idxs) i rest head prev Hf Hb) as (d & Hd & E).
    { intros p ->. destruct (Hp p eq_refl) as [Hn ?]. split; [|done]. intros ->%list_elem_of_singleton. apply Hn. left. }
    rewrite zlen_app in E. replace (zlen (reverse idxs)) with (zlen idxs) in E by (unfold zlen; by rewrite length_reverse).
    set (t1 := link (descriptors q) i d b (bool_decide (bufs <> [])) prev) in *.
    destruct (IH (set_descriptors t1 q) fr idxs (i :: rest) (match prev with Some _ => head | None => i end) (Some i))
      as (t & Et & Ht & Hc & Ho & Hpr); [by rewrite <-app_assoc in Hf|cbn in Hl; lia|done|..].
    { cbn [descriptors set_descriptors]. subst t1. by rewrite zlen_link. }
    { intros p [= <-]. cbn [descriptors set_descriptors]. subst t1. by rewrite zlen_link. }
    assert (prev <> Some i) as Hpi by (intros ->; destruct (Hp i eq_refl) as [Hn _]; apply Hn; left).
    cbn [descriptors set_descriptors] in *. assert (zlen t1 = zlen (descriptors q)) as Ht1 by (subst t1; apply zlen_link).
    exists t. rewrite zlen_cons. replace (zlen fr + (1 + zlen idxs)) with (zlen fr + zlen idxs + 1) by lia.
    rewrite E. erewrite bind_done by exact Et. split; [by destruct prev|]. split; [congruence|]. split; [|split].
    + destruct b as [[a l] w]. cbn [zip zip_with chain_at]. split; [|done]. exists (default (next d) (hd_error idxs)). split.
      * destruct idxs as [|j idxs], bufs as [|b' bufs]; try done; cbn [hd_error default].
        -- rewrite Ho by (apply not_elem_of_nil || by right). subst t1. rewrite link_this by done. done.
        -- rewrite (Hpr i j eq_refl eq_refl). subst t1. rewrite link_this by done. done.
      * destruct idxs as [|j idxs], bufs as [|b' bufs]; try done. intros j' b c' [= -> _ _]. done.
    + intros j Hj Hpj. apply not_elem_of_cons in Hj as [Hji Hj]. rewrite Ho by (done || left; congruence). subst t1. apply link_other; [done|]. by destruct Hpj.
    + intros p i' -> [= <-]. destruct (Hp p eq_refl) as [Hpn Hpb]. apply not_elem_of_cons in Hpn as [Hpn1 Hpn2].
      rewrite Ho by (done || left; congruence). subst t1. by apply link_prev.
Qed.

Lemma send_loop_fail bufs : forall q idxs rest head prev,
  free_descriptors q = reverse idxs ++ rest -> (length idxs < length bufs)%nat -> NoDup idxs ->
  Forall (fun i => 0 <= i < zlen (descriptors q)) idxs -> prev_ok (descriptors q) idxs prev ->
  exists t, send_loop bufs (zlen idxs) head prev q = Done ((Err NoBuffers_, idxs), set_descriptors t q) /\
    zlen t = zlen (descriptors q) /\
    (forall j, j ∉ idxs -> prev <> Some j -> nth_z t j = nth_z (descriptors q) j).
Proof.
  induction bufs as [|b bufs IH]; intros q idxs rest head prev Hf Hl Hnd Hb Hp; [cbn in Hl; lia|]. destruct idxs as [|i idxs].
  - exists (descriptors q). destruct b as [[a l] w]. split; [|done]. by destruct q.
  - rewrite reverse_cons, <-app_assoc in Hf. cbn [app] in Hf.
    apply NoDup_cons in Hnd as [Hi Hnd]. apply Forall_cons in Hb as [Hb Hbs].
    destruct (send_loop_cons b bufs q (reverse idxs) i rest head prev Hf Hb) as (d & Hd & E).
    { intros p ->. destruct (Hp p eq_refl) as [Hn ?]. split; [|done]. intros ->%list_elem_of_singleton. apply Hn. left. }
    replace (zlen (reverse idxs)) with (zlen idxs) in E by (unfold zlen; by rewrite length_reverse).
    set (t1 := link (descriptors q) i d b (bool_decide (bufs <> [])) prev) in *.
    assert (zlen t1 = zlen (descriptors q)) as Ht1 by (subst t1; apply zlen_link).
    destruct (IH (set_descriptors t1 q) idxs (i :: rest) (match prev with Some _ => head | None => i end) (Some i))
      as (t & Et & Ht & Ho); [done|cbn in Hl; lia|done|by cbn; rewrite Ht1|by intros p [= <-]; cbn; rewrite Ht1|].
    exists t. rewrite zlen_cons, Z.add_comm, E. erewrite bind_done by exact Et. split; [done|]. cbn in Ht, Ho. split; [congruence|].
    intros j Hj Hpj. apply not_elem_of_cons in Hj as [Hji Hj]. rewrite Ho by congruence. by apply link_other.
Qed.

(** ** What the specification keeps *)

Lemma owned_perm free1 cs1 a :
  owned a -> free1 ++ all_idxs cs1 ≡ₚ free a ++ all_idxs (chains a) -> free1 ++ all_idxs cs1 ≡ₚ seqZ 0 8.
Proof. intros Ho ->. done. Qed.

Lemma owned_NoDup a : owned a -> NoDup (free a ++ all_idxs (chains a)).
Proof. intros Ho. unfold owned in Ho. rewrite Ho. apply NoDup_seqZ. Qed.

Lemma owned_range a : owned a -> Forall (fun i => 0 <= i < 8) (free a ++ all_idxs (chains a)).
Proof. intros Ho. unfold owned in Ho. rewrite Ho. apply Forall_forall. intros i Hi%elem_of_seqZ. lia. Qed.

Lemma owned_length a : owned a -> length (free a ++ all_idxs (chains a)) = 8%nat.
Proof. intros Ho. unfold owned in Ho. rewrite Ho. done. Qed.

Lemma all_idxs_length cs : Forall (fun c => c <> []) cs -> (length cs <= length (all_idxs cs))%nat.
Proof.
  induction 1 as [|c cs Hc _ IH]; [done|]. change (all_idxs (c :: cs)) with (chain_idxs c ++ all_idxs cs).
  rewrite length_app. unfold chain_idxs. rewrite length_fmap. destruct c; [done|]. cbn. lia.
Qed.

Lemma all_idxs_elem cs c i : c ∈ cs -> i ∈ chain_idxs c -> i ∈ all_idxs cs.
Proof. intros Hc Hi. unfold all_idxs. apply list_elem_of_In, in_concat. exists (chain_idxs c). rewrite <-!list_elem_of_In. split; [by apply list_elem_of_fmap_2|done]. Qed.

(** Chains stay linked when only free descriptors change. *)
Lemma chains_frame t t' a :
  owned a -> (forall j, j ∉ free a -> nth_z t' j = nth_z t j) ->
  Forall (fun c => c <> [] /\ chain_at t c) (chains a) -> Forall (fun c => c <> [] /\ chain_at t' c) (chains a).
Proof.
  intros Ho Hf. rewrite !Forall_forall. intros H c Hc. destruct (H c Hc) as [Hne Hat]. split; [done|].
  apply (chain_at_frame t); [|done]. intros i Hi. apply Hf. apply owned_NoDup, NoDup_app in Ho as (_ & Hd & _).
  intros Hfr. by apply (Hd i Hfr), (all_idxs_elem _ c).
Qed.

(** ** Each operation *)

Lemma repr_done s a : repr s a -> (length (done_ a) <= length (all_idxs (done_ a)))%nat /\ (length (free a) + length (all_idxs (done_ a)) <= 8)%nat.
Proof.
  intros H. split.
  - apply all_idxs_length. pose proof (r_chains _ _ H) as Hc. unfold chains in Hc. rewrite !Forall_app in Hc.
    destruct Hc as (_ & _ & Hc). eapply Forall_impl; [exact Hc|]. by intros c [? _].
  - pose proof (owned_length _ (r_owned _ _ H)) as Hl. unfold chains in Hl. rewrite !all_idxs_app, !length_app in Hl. lia.
Qed.

Lemma repr_count s a : repr s a -> (length (free a) + length (posted a) + length (taken a) + length (done_ a) <= 8)%nat.
Proof.
  intros H. pose proof (owned_length _ (r_owned _ _ H)) as Hl. rewrite length_app in Hl.
  assert (length (chains a) <= length (all_idxs (chains a)))%nat as Hc.
  { apply all_idxs_length. eapply Forall_impl; [exact (r_chains _ _ H)|]. by intros c [? _]. }
  unfold chains in Hc at 1. rewrite !length_app in Hc. lia.
Qed.

Lemma collect_repr s a n c a' :
  repr s a -> spec_collect a = (n, c, a') ->
  exists q, collect_used (queue s) = Done ((c, n), q) /\ repr (mkSys q (seen s) (in_flight s)) a' /\
    descriptors q = descriptors (queue s) /\ free_count q = zlen (free a').
Proof.
  intros H [= <- <- <-]. destruct (repr_done s a H) as [Hd1 Hd2].
  destruct H as [Ho Hc (rest & Hf & H8) Hn Ht (k & u & v & lens & Hk & Hm & Hz1 & Hz2 & Hz3 & Hlu & Hui & Hse & Hai & Hlen & Hur & Har)].
  assert (length (free a) + length rest = 8)%nat as H8' by (unfold zlen in H8; rewrite length_app in H8; lia).
  set (d := length (all_idxs (done_ a))) in *. unfold collect_used. erewrite bind_done by reflexivity. rewrite Hlu, Hui.
  assert (Forall (fun c => c <> [] /\ chain_at (descriptors (queue s)) c) (done_ a)) as Hcd
    by (unfold chains in Hc; rewrite !Forall_app in Hc; apply Hc).
  assert (Forall (fun i => 0 <= i < 8) (all_idxs (done_ a))) as Hid.
  { pose proof (owned_range a Ho) as Hr. unfold chains in Hr. rewrite !all_idxs_app, !Forall_app in Hr. apply Hr. }
  erewrite bind_done by (apply (collect_loop_spec k _ _ _ (free a) rest u lens); try done; unfold zlen; lia).
  rewrite Z.add_comm. eexists. split.
  { unfold ret. do 3 f_equal. unfold wrap. rewrite <-Zminus_mod. replace (zlen (done_ a) + u - u) with (zlen (done_ a)) by lia.
    rewrite Z.mod_small; [done|unfold zlen; lia]. }
  cbn [descriptors free_count set_last_used set_free]. split; [|split; [done|]].
  2:{ cbn. by rewrite zlen_app. }
  split; cbn [queue seen in_flight free posted taken done_ chains set_last_used set_free descriptors free_descriptors
    free_count mask avail_ring used_ring last_used used_index avail_index].
  - unfold owned, chains in *. cbn [free posted taken done_]. rewrite <-Ho, !all_idxs_app. change (all_idxs []) with (@nil Z). solve_Permutation.
  - unfold chains in *. cbn [posted taken done_]. rewrite !Forall_app in *. naive_solver.
  - exists (drop d rest). split; [by rewrite app_assoc|]. unfold zlen. rewrite !length_app, length_drop. subst d. lia.
  - by rewrite zlen_app.
  - done.
  - exists k, (u + zlen (done_ a)), v, []. rewrite zlen_nil, Z.add_0_r. rewrite (Z.add_comm u). split_and!; try done; try lia.
    + by rewrite Hui, Z.add_comm.
    + apply ring_has_nil.
Qed.

Lemma send_chain_ok s a bufs :
  repr s a -> bufs <> [] -> (length bufs <= length (free a))%nat ->
  let rest := take (length (free a) - length bufs) (free a) in
  let idxs := reverse (drop (length (free a) - length bufs) (free a)) in
  exists q, send_chain bufs (queue s) = Done ((Ok tt, idxs), q) /\
    repr (mkSys q (seen s) (in_flight s)) (mkSpec rest (posted a ++ [zip idxs bufs]) (taken a) (done_ a)).
Proof.
  intros H Hne Hle fr idxs. pose proof (owned_NoDup _ (r_owned _ _ H)) as Hnd. pose proof (owned_range _ (r_owned _ _ H)) as Hrg.
  pose proof (repr_count s a H) as H8l.
  destruct H as [Ho Hc (rest & Hf & H8) Hn Ht (k & u & v & lens & Hk & Hm & Hz1 & Hz2 & Hz3 & Hlu & Hui & Hse & Hai & Hlen & Hur & Har)].
  assert (free a = fr ++ reverse idxs) as Hfr by (subst fr idxs; by rewrite reverse_involutive, take_drop).
  assert (length idxs = length bufs) as Hl by (subst idxs; rewrite length_reverse, length_drop; lia).
  clearbody fr idxs. pose proof (Z.pow_le_mono_r 2 3 k ltac:(lia) ltac:(lia)) as Hp8. change (2 ^ 3) with 8 in Hp8.
  rewrite Hfr in *. rewrite <-app_assoc in Hf. apply NoDup_app in Hnd as (Hnd1 & Hdis & Hnd2).
  apply NoDup_app in Hnd1 as (_ & _ & Hnd1). rewrite (reverse_Permutation idxs) in Hnd1.
  assert (Forall (fun i => 0 <= i < zlen (descriptors (queue s))) idxs) as Hb.
  { rewrite !Forall_app in Hrg. destruct Hrg as [[_ Hr] _]. rewrite Forall_reverse in Hr. eapply Forall_impl; [exact Hr|]. intros. cbn in *. lia. }
  destruct (send_loop_ok bufs (queue s) fr idxs rest 0 None Hf Hl Hnd1 Hb ltac:(done)) as (t & E & Hz & Hch & Hfm & _).
  assert (zlen (fr ++ reverse idxs) = zlen fr + zlen idxs) as Hz0 by (rewrite zlen_app; unfold zlen; by rewrite length_reverse).
  unfold send_chain. erewrite bind_done by reflexivity. rewrite Hn, Hz0. erewrite bind_done by exact E.
  cbv beta iota. do 2 erewrite bind_done by reflexivity. cbn [avail_index avail_ring mask set_free set_descriptors]. rewrite Hai, Hm, ring_pos by lia.
  pose proof (Z.mod_pos_bound (v + zlen (posted a)) (2 ^ k) ltac:(lia)) as Hmb.
  destruct (nth_z_lt (avail_ring (queue s)) ((v + zlen (posted a)) mod 2 ^ k) ltac:(lia)) as [x Hx].
  erewrite bind_done by (unfold at_index; rewrite Hx; reflexivity). erewrite bind_done by reflexivity. eexists. split; [done|].
  split; cbn [queue seen in_flight free posted taken done_ set_avail set_free set_descriptors descriptors free_descriptors
    free_count mask avail_ring used_ring last_used used_index avail_index].
  - unfold owned, chains in *. cbn [free posted taken done_]. rewrite <-Ho, Hfr, !all_idxs_app, reverse_Permutation.
    replace (all_idxs [zip idxs bufs]) with idxs; [solve_Permutation|].
    unfold all_idxs, chain_idxs. cbn. rewrite app_nil_r. symmetry. apply fst_zip. lia.
  - assert (Forall (fun c => c <> [] /\ chain_at t c) (chains a)) as Hc'.
    { apply (chains_frame (descriptors (queue s))); [done| |done]. intros j Hj. rewrite Hfr in Hj. apply Hfm; [set_solver|by left]. }
    unfold chains in *. cbn [posted taken done_]. rewrite !Forall_app in *. rewrite Forall_singleton.
    split_and!; [apply Hc'| |exact Hch|apply Hc'..]. by destruct idxs, bufs.
  - exists (reverse idxs ++ rest). rewrite app_assoc. split; [by rewrite <-app_assoc|done].
  - done.
  - done.
  - exists k, u, v, lens. rewrite fmap_app, zlen_app, !zlen_set_z. split_and!; try done; try lia.
    + by rewrite wrap_add_l, Z.add_assoc.
    + rewrite <-(zlen_fmap head_of (posted a)). cbn. replace (head_of (zip idxs bufs)) with (default 0 (hd_error idxs)) by (by destruct idxs, bufs).
      apply ring_has_push; [lia|done| |done]. rewrite zlen_fmap. unfold zlen. rewrite length_app, length_reverse, Hl in H8l.
      destruct bufs; [done|]. cbn in H8l. lia.
Qed.

Lemma send_chain_fail s a bufs :
  repr s a -> (length (free a) < length bufs)%nat ->
  exists q, send_chain bufs (queue s) = Done ((Err NoBuffers_, reverse (free a)), q) /\ repr (mkSys q (seen s) (in_flight s)) a.
Proof.
  intros H Hlt. pose proof (owned_NoDup _ (r_owned _ _ H)) as Hnd. pose proof (owned_range _ (r_owned _ _ H)) as Hrg.
  destruct H as [Ho Hc (rest & Hf & H8) Hn Ht (k & u & v & lens & Hk & Hm & Hz1 & Hrest)].
  apply NoDup_app in Hnd as (Hnd & _). apply Forall_app in Hrg as [Hrg _].
  pose proof (Z.pow_le_mono_r 2 3 k ltac:(lia) ltac:(lia)) as Hp8. change (2 ^ 3) with 8 in Hp8.
  destruct (send_loop_fail bufs (queue s) (reverse (free a)) rest 0 None) as (t & E & Hz & Hfm).
  - by rewrite reverse_involutive.
  - by rewrite length_reverse.
  - by rewrite reverse_Permutation.
  - apply Forall_reverse. eapply Forall_impl; [exact Hrg|]. intros. cbn in *. lia.
  - done.
  - exists (set_descriptors t (queue s)). split.
    + unfold send_chain. erewrite bind_done by reflexivity.
      replace (free_count (queue s)) with (zlen (reverse (free a))) by (rewrite Hn; unfold zlen; by rewrite length_reverse).
      by erewrite bind_done by exact E.
    + split; cbn [queue seen in_flight set_descriptors descriptors free_descriptors free_count mask avail_ring used_ring
        last_used used_index avail_index]; [done| |by exists rest|done|done|].
      * apply (chains_frame (descriptors (queue s))); [done| |done]. intros j Hj. apply Hfm; [|done]. by rewrite elem_of_reverse.
      * exists k, u, v, lens. rewrite Hz. done.
Qed.

Lemma send_repr s a bufs ans a' :
  repr s a -> zlen bufs < 2 ^ 16 -> spec_send bufs a = (ans, a') ->
  exists s', step (Send bufs) s = Done (ans, s') /\ repr s' a'.
Proof.
  intros H H16. unfold spec_send. cbn [step].
  assert (forall r q, send bufs (queue s) = Done (r, q) ->
    (let* r := driver (send bufs) in ret (Sent r.1.1 r.1.2 r.2)) s =
      Done (Sent r.1.1 r.1.2 r.2, mkSys q (seen s) (in_flight s))) as Hd.
  { intros r q E. unfold bind, driver. by rewrite E. }
  assert (zlen bufs = 0 <-> bufs = []) as H0 by (destruct bufs; rewrite ?zlen_nil, ?zlen_cons; split; try done; pose proof (zlen_nonneg bufs); lia).
  pose proof (zlen_nonneg bufs). assert (try_into 16 (zlen bufs) = Some (zlen bufs)) as Ht by (unfold try_into; by rewrite decide_True by (unfold fits; lia)).
  assert (forall k, (let* count := unwrap "called `Result::unwrap()` on an `Err` value" (try_into 16 (zlen bufs)) in k count) (queue s)
    = k (zlen bufs) (queue s) :> outcome ((result unit NoBuffers * list Z * collected) * Queue)) as Hk by (intros k; by rewrite Ht).
  case_decide as Hb; [|case_decide as Hle].
  - intros [= <- <-]. exists s. split; [|done]. rewrite (Hd (Ok tt, [], []) (queue s)); [by destruct s|].
    unfold send. by rewrite Hk, decide_True by tauto.
  - intros [= <- <-]. destruct (send_chain_ok s a bufs H Hb Hle) as (q & E & Hr). eexists. split; [|exact Hr].
    rewrite (Hd (Ok tt, reverse (drop (length (free a) - length bufs) (free a)), []) q); [done|].
    unfold send. rewrite Hk, decide_False by tauto. erewrite bind_done by reflexivity.
    rewrite decide_False by (rewrite (r_count _ _ H); unfold zlen; lia). by erewrite bind_done by exact E.
  - destruct (spec_collect a) as [[n c] a1] eqn:Ec. intros [= <- <-].
    destruct (collect_repr s a n c a1 H Ec) as (q & E & Hr & _ & Hn).
    assert (send bufs (queue s) = (if decide (free_count q < zlen bufs) then
        let* r := send_chain bufs in ret (r, c) else ret (Err NoBuffers_, [], c)) q) as Es.
    { unfold send. rewrite Hk, decide_False by tauto. erewrite bind_done by reflexivity.
      rewrite decide_True by (rewrite (r_count _ _ H); unfold zlen; lia). erewrite bind_done by exact E. done. }
    rewrite Hn in Es. case_decide as Hf; case_decide as Hf'; try (unfold zlen in *; lia).
    + destruct (send_chain_fail _ a1 bufs Hr) as (q' & E' & Hr'); [unfold zlen in *; lia|]. eexists. split; [|exact Hr'].
      cbn in E'. rewrite (Hd (Err NoBuffers_, reverse (free a1), c) q'); [done|]. rewrite Es. by erewrite bind_done by exact E'.
    + eexists. split; [|exact Hr]. by rewrite (Hd _ _ Es).
Qed.

Lemma fetch_repr s a : repr s a -> repr (device_step Fetch s) (spec_device Fetch a).
Proof.
  intros H. pose proof (repr_count s a H) as H8. pose proof H as [Ho Hc Hf Hn Ht (k & u & v & lens & Hk & Hm & Hz1 & Hz2 & Hz3 & Hlu & Hui & Hse & Hai & Hlen & Hur & Har)].
  cbn [device_step spec_device]. destruct (posted a) as [|c l] eqn:Ep.
  { rewrite zlen_nil, Z.add_0_r, <-Hse in Hai. by rewrite decide_True by done. }
  rewrite zlen_cons in Hai. pose proof (zlen_nonneg l). cbn in H8.
  rewrite decide_False by (rewrite Hse, Hai; intros E; apply wrap_eq_near in E; unfold zlen in *; lia).
  rewrite fmap_cons in Har. apply ring_has_cons in Har as [Hh Har]. rewrite Hse, Hm, ring_pos, Hh by lia.
  assert (chains (mkSpec (free a) l (taken a ++ [c]) (done_ a)) ≡ₚ chains a) as Hp
    by (unfold chains; rewrite Ep; cbn; solve_Permutation).
  split; cbn [queue seen in_flight free posted taken done_]; [| |done|done|by rewrite fmap_app, Ht|].
  - unfold owned in *. rewrite <-Ho. cbn [free]. apply Permutation_app_head. unfold all_idxs. by rewrite Hp.
  - by rewrite Hp.
  - exists k, u, (v + 1), lens. rewrite wrap_add_l. split_and!; try done; try lia.
    rewrite Hai. f_equal. lia.
Qed.

Lemma complete_repr n len s a : repr s a -> repr (device_step (Complete n len) s) (spec_device (Complete n len) a).
Proof.
  intros H. pose proof (repr_count s a H) as H8. pose proof H as [Ho Hc Hf Hn Ht (k & u & v & lens & Hk & Hm & Hz1 & Hz2 & Hz3 & Hlu & Hui & Hse & Hai & Hlen & Hur & Har)].
  cbn [device_step spec_device]. rewrite Ht, list_lookup_fmap. destruct (taken a !! n) as [c|] eqn:En; [|done]. cbn [fmap option_fmap option_map].
  pose proof (Z.pow_le_mono_r 2 3 k ltac:(lia) ltac:(lia)) as Hp8. change (2 ^ 3) with 8 in Hp8.
  assert (chains (mkSpec (free a) (posted a) (delete n (taken a)) (done_ a ++ [c])) ≡ₚ chains a) as Hp.
  { unfold chains. cbn [posted taken done_]. pose proof (delete_Permutation (taken a) n c En) as Hd.
    revert Hd. generalize (delete n (taken a)). intros l ->. solve_Permutation. }
  assert (length (taken a) <> 0)%nat as Hne by (intros E; apply length_zero_iff_nil in E; by rewrite E in En).
  split; cbn [queue seen in_flight free posted taken done_ set_used descriptors free_descriptors free_count mask avail_ring
    used_ring last_used used_index avail_index]; [| |done|done|by rewrite list_fmap_delete|].
  - unfold owned in *. rewrite <-Ho. cbn [free]. apply Permutation_app_head. unfold all_idxs. by rewrite Hp.
  - by rewrite Hp.
  - exists k, u, v, (lens ++ [len]). rewrite zlen_set_z, !zlen_app, Hm, Hui, ring_pos, wrap_add_l by lia.
    change (zlen [c]) with 1. change (zlen [len]) with 1. split_and!; try done; try lia; [f_equal; lia|].
    assert (length lens = length (done_ a)) as Hl by (unfold zlen in Hlen; lia).
    rewrite fmap_app, zip_with_app by (by rewrite length_fmap). cbn.
    replace (zlen (done_ a)) with (zlen (zip (head_of <$> done_ a) lens)) by (unfold zlen; rewrite length_zip_with, length_fmap; lia).
    apply ring_has_push; [lia|done| |done]. unfold zlen. rewrite length_zip_with, length_fmap. lia.
Qed.

Lemma device_repr s a o : repr s a -> repr (device_step o s) (spec_device o a).
Proof. destruct o; [apply fetch_repr|apply complete_repr]. Qed.

Definition op_ok (o : op) : Prop := match o with Send bufs => zlen bufs < 2 ^ 16 | _ => True end.

Lemma step_repr o s a ans a' :
  repr s a -> op_ok o -> spec_step o a = (ans, a') -> exists s', step o s = Done (ans, s') /\ repr s' a'.
Proof.
  intros H Hok E. destruct o as [bufs| |o]; cbn [spec_step] in E.
  - by apply (send_repr s a bufs).
  - destruct (spec_collect a) as [[n c] a1] eqn:Ec. injection E as <- <-.
    destruct (collect_repr s a n c a1 H Ec) as (q & Eq & Hr & _). eexists. split; [|exact Hr].
    cbn [step]. unfold bind, driver. by rewrite Eq.
  - injection E as <- <-. eexists. split; [done|]. by apply device_repr.
Qed.

(** C13: Refinement.  In any run of sends and collections with the device moving in between, the queue
    behaves as its specification: it never panics, the callbacks see the descriptors of the
    specification's stack and, for a collected chain, the addresses and lengths that were sent.  The
    eight descriptors are always in exactly one place: free, posted, taken or done. *)
Theorem virtqueue_refines (ops : list op) (s : Sys) (a : Spec) :
  repr s a -> Forall op_ok ops ->
  exists s', run ops s = Done ((spec_run ops a).1, s') /\ repr s' (spec_run ops a).2.
Proof.
  revert s a. induction ops as [|o ops IH]; intros s a H Hok; [by exists s|].
  apply Forall_cons in Hok as [Ho Hok]. cbn [run spec_run]. destruct (spec_step o a) as [ans a1] eqn:E.
  destruct (step_repr o s a ans a1 H Ho E) as (s1 & E1 & H1). destruct (IH s1 a1 H1 Hok) as (s2 & E2 & H2).
  destruct (spec_run ops a1) as [l a2]. exists s2. erewrite bind_done by exact E1. by erewrite bind_done by exact E2.
Qed.

(** ** A new queue *)

Definition new_spec : Spec := mkSpec [5; 7; 6; 0; 1; 3; 2; 4] [] [] [].

Lemma length_fill ring : forall l, length (fold_left fill_word l ring) = length ring.
Proof.
  intros l. revert ring. induction l as [|i l IH]; intros ring; [done|]. cbn. rewrite IH. unfold fill_word. apply length_alter.
Qed.

Lemma align_spec s : 0 <= s -> s <= align s < s + 4096 /\ align s mod 4096 = 0.
Proof.
  intros Hs. unfold align. change 0xfff with (Z.ones 12).
  rewrite Z.ldiff_ones_r, Z.shiftl_mul_pow2, Z.shiftr_div_pow2 by lia. change (2 ^ 12) with 4096. change (Z.ones 12) with 4095.
  pose proof (Z.div_mod (s + 4095) 4096 ltac:(lia)). pose proof (Z.mod_pos_bound (s + 4095) 4096 ltac:(lia)).
  split; [lia|]. apply Z.mod_mul. lia.
Qed.

Lemma new_spec_owned : owned new_spec.
Proof.
  apply NoDup_Permutation; [|apply NoDup_seqZ|].
  - apply (bool_decide_unpack _). by vm_compute.
  - intros x. rewrite elem_of_seqZ. cbn. rewrite !elem_of_cons, elem_of_nil. lia.
Qed.

Lemma zlen_take_z {X} (l : list X) n : 0 <= n <= zlen l -> zlen (take (Z.to_nat n) l) = n.
Proof. unfold zlen. rewrite length_take. lia. Qed.

Lemma new_queue_repr mem size k notify :
  size = 2 ^ k -> 3 <= k <= 15 -> m_avail_index mem = 0 -> m_used_index mem = 0 ->
  size <= zlen (m_descriptors mem) -> size <= zlen (m_avail_ring mem) -> size <= zlen (m_used_ring mem) ->
  let m := wrap 16 (size - 1) in
  let n := Z.to_nat (m + 1) in
  repr (mkSys (mkQueue m 0 [5; 7; 6; 0; 1; 3; 2; 4] 8 (take n (m_descriptors mem)) (m_avail_index mem) (take n (m_avail_ring mem))
    (m_used_index mem) (take n (fold_left fill_word (seq 0 (Z.to_nat size)) (m_used_ring mem))) notify) 0 []) new_spec.
Proof.
  intros Hsz Hk Ha Hu Hl1 Hl2 Hl3. pose proof (Z.pow_le_mono_r 2 k 15 ltac:(lia) ltac:(lia)) as Hp15. change (2 ^ 15) with 32768 in Hp15.
  pose proof (Z.pow_pos_nonneg 2 k ltac:(lia) ltac:(lia)). rewrite wrap_small by (unfold fits; lia).
  replace (size - 1 + 1) with size by lia.
  split; cbn [queue seen in_flight new_spec free posted taken done_ mask last_used free_descriptors free_count descriptors avail_index
    avail_ring used_index used_ring]; [apply new_spec_owned|apply Forall_nil_2|by exists []|done|done|].
  exists k, 0, 0, []. rewrite !zlen_take_z by (unfold zlen in *; rewrite ?length_fill; lia).
  split_and!; try done; try lia; apply ring_has_nil.
Qed.

(** The physical address of byte [o] of the memory of a queue, whose pages are at the physical
    addresses [frame 0], [frame 1] and so on. *)
Definition place (frame : Z -> Z) (o : Z) : Z := frame (o / 4096) + o mod 4096.

(** A device that counts from [phys] finds the [n] bytes at [o] where the driver has them. *)
Definition found_at (frame : Z -> Z) (phys o n : Z) : Prop := forall j, o <= j < o + n -> phys + j = place frame j.

Lemma found_at_iff frame phys o n :
  o mod 4096 = 0 -> 0 < n -> found_at frame phys o n <-> forall i, o / 4096 <= i <= (o + n - 1) / 4096 -> frame i = phys + 4096 * i.
Proof.
  intros Ho Hn. unfold found_at, place. split.
  - intros Hp i Hi. specialize (Hp (4096 * i)). rewrite Z.mul_comm, Z.div_mul, Z.mod_mul in Hp by done.
    assert (o <= i * 4096 < o + n) by (clear Hp; Z.div_mod_to_equations; lia). lia.
  - intros Hf j Hj. rewrite Hf by (Z.div_mod_to_equations; lia). pose proof (Z.div_mod j 4096 ltac:(done)). lia.
Qed.

(** C25: [new] on a device whose selected queue, or the given maximum, has a size that is a power of two
    from 8 to 2^15, with memory whose indices are zero, gives a queue with all eight descriptors free.
    It programs the device with three areas at the physical address of the first page of the memory and
    behind it, which are aligned, do not overlap and lie inside the memory by their offsets.  The pages
    of the memory may be anywhere: a device finds the descriptors and the available ring where the driver
    has them when they fit the first page (up to 128 descriptors), and the used ring exactly when its pages are at the
    distance from the first that they have in virtual memory. *)
Theorem queue_new_ready dma_alloc phys_addr (mem : Dma) (index max_size k value : Z) (frame : Z -> Z) (msix : option Z) (s : NewState) :
  let size := Z.min (queue_size (selected (config s))) max_size in
  let used := align (desc_size size + avail_size size) in
  let bytes := used + align (used_size size) in
  size = 2 ^ k -> 3 <= k <= 15 -> m_avail_index mem = 0 -> m_used_index mem = 0 ->
  size <= zlen (m_descriptors mem) -> size <= zlen (m_avail_ring mem) -> size <= zlen (m_used_ring mem) ->
  dma_alloc (if decide (DMA_ADDR s = 0) then 0x3000000 else DMA_ADDR s) bytes 0x2 = (0, value) ->
  phys_addr value = (0, frame 0) -> 0 <= frame 0 -> frame 0 mod 4096 = 0 -> frame 0 + bytes < 2 ^ 64 ->
  exists q s', Queue_new dma_alloc phys_addr mem index max_size msix s = Done (Ok q, s') /\
    repr (mkSys q 0 []) new_spec /\
    let r := queues (config s') index in
    (queue_size r = size /\ queue_enable r = 1 /\ notify_offset q = queue_notify_off (queues (config s) index)) /\
    (queue_descriptors r = frame 0 /\ queue_descriptors r mod 16 = 0) /\
    (queue_driver r = frame 0 + desc_size size /\ queue_driver r mod 2 = 0) /\
    (queue_device r = frame 0 + used /\ queue_device r mod 4 = 0) /\
    (desc_size size + avail_size size <= used /\ used + used_size size <= bytes) /\
    (size <= 128 -> found_at frame (frame 0) 0 (desc_size size + avail_size size)) /\
    (found_at frame (frame 0) used (used_size size) <->
       forall i, used / 4096 <= i <= (used + used_size size - 1) / 4096 -> frame i = frame 0 + 4096 * i).
Proof.
  intros size used bytes Hsz Hk Ha Hu Hl1 Hl2 Hl3 Hdma Hphys Hp0 Hpm Hpb.
  pose proof (Z.pow_le_mono_r 2 3 k ltac:(lia) ltac:(lia)) as Hp8. change (2 ^ 3) with 8 in Hp8.
  pose proof (Z.pow_le_mono_r 2 k 15 ltac:(lia) ltac:(lia)) as Hp15. change (2 ^ 15) with 32768 in Hp15.
  assert (0 <= desc_size size + avail_size size /\ 0 <= used_size size) as [Hd0 Hu0] by (unfold desc_size, avail_size, used_size; lia).
  destruct (align_spec _ Hd0) as [[Hal _] Ham]. fold used in Hal, Ham. destruct (align_spec _ Hu0) as [[Hul _] Hum].
  assert (forall v, 0 <= v <= bytes -> wrap 64 (frame 0 + v) = frame 0 + v) as Hw by (intros; apply wrap_small; unfold fits; lia).
  unfold Queue_new. do 2 erewrite bind_done by reflexivity. set (s0 := if decide (DMA_ADDR s = 0) then _ else s).
  assert (config s0 = config s) as Hc0 by (subst s0; by case_decide).
  assert (DMA_ADDR s0 = if decide (DMA_ADDR s = 0) then 0x3000000 else DMA_ADDR s) as Hd by (subst s0; by case_decide).
  clearbody s0. rewrite Hc0, Hd. change (Z.min (queue_size (selected (config s))) max_size) with size.
  fold used. fold bytes. rewrite Hdma. cbv beta iota.
  rewrite decide_False by (intros E; by apply E). rewrite Hphys. cbv beta iota. rewrite decide_False by (intros E; by apply E).
  do 3 erewrite bind_done by reflexivity. do 2 eexists. split; [done|]. split.
  - by apply (new_queue_repr mem size k).
  - assert (desc_size size = 16 * size) as Hds by done. assert (0 < avail_size size) by (unfold avail_size; lia).
    assert (wrap 64 (frame 0) = frame 0) as Hw0 by (rewrite <-(Z.add_0_r (frame 0)); apply Hw; lia).
    assert (size <= 128 -> found_at frame (frame 0) 0 (desc_size size + avail_size size)) as Hf1.
    { intros Hs. apply found_at_iff; [done|lia|]. intros i Hi. assert (i = 0) as ->; [|lia].
      assert (0 + (desc_size size + avail_size size) - 1 < 4096) by (unfold desc_size, avail_size; lia). Z.div_mod_to_equations; lia. }
    assert (0 < used_size size) as Hu1 by (unfold used_size; lia). pose proof (found_at_iff frame (frame 0) used (used_size size) Ham Hu1) as Hf2.
    subst bytes. clearbody used size. destruct msix; unfold set_selected, selected; cbn -[found_at]; rewrite !decide_True by done; cbn -[found_at];
      rewrite Hc0, Hw0, !Hw by lia; split_and!; try done; try lia; clear - Hpm Ham Hds; Z.div_mod_to_equations; lia.
Qed.

(** ** A small example *)

Definition example_mem : Dma := mkDma (replicate 8 (mkDescriptor 0 0 0 0)) 0 (replicate 8 0) 0 (replicate 8 (0, 0)).

Definition example_state : NewState := mkNewState (mkCommonConfig 0 (fun _ => mkQueueRegs 256 0 0 0 0 0 0)) 0.

(** The second page of the memory is somewhere else, and the used ring is not found. *)
Lemma queue_new_ready_witness :
  let frame i := if decide (i = 0) then 0x80000000 else 0x80007000 in
  exists q s', Queue_new (fun a _ _ => (0, a)) (fun _ => (0, 0x80000000)) example_mem 0 8 None example_state = Done (Ok q, s') /\
    repr (mkSys q 0 []) new_spec /\ queue_device (queues (config s') 0) = 0x80001000 /\
    found_at frame 0x80000000 0 (desc_size 8 + avail_size 8) /\ ~ found_at frame 0x80000000 0x1000 (used_size 8).
Proof.
  intros frame.
  destruct (queue_new_ready (fun a _ _ => (0, a)) (fun _ => (0, 0x80000000)) example_mem 0 8 3 0x3000000 frame None example_state)
    as (q & s' & E & H & _ & _ & _ & [Hu _] & _ & Hf & Hn); try done.
  exists q, s'. split; [done|]. split; [done|]. split; [done|]. split; [by apply Hf|].
  intros Hx. pose proof (proj1 Hn Hx 1 ltac:(by vm_compute)) as He. by vm_compute in He.
Defined.

Definition example_sys : Sys :=
  mkSys (mkQueue 7 0 [5; 7; 6; 0; 1; 3; 2; 4] 8 (replicate 8 (mkDescriptor 0 0 0 0)) 0 (replicate 8 0) 0 (replicate 8 (0, 0)) 0) 0 [].

Lemma example_repr : repr example_sys new_spec.
Proof.
  split; [apply new_spec_owned|apply Forall_nil_2|by exists []|done|done|].
  exists 3, 0, 0, []. split_and!; try done; apply ring_has_nil.
Qed.

(** Two chains are sent, completed in the other order and collected; with eight buffers
    the third [send] is refused although it collects enough descriptors. *)
Definition example_ops : list op :=
  [Send [(0x1000, 16, false); (0x2000, 32, true)]; Send [(0x3000, 8, true)]; Device Fetch; Device Fetch;
   Device (Complete 1 8); Collect; Device (Complete 0 32); Send (replicate 7 (0x4000, 1, false))].

Lemma virtqueue_refines_witness :
  exists s', run example_ops example_sys =
    Done ([Sent (Ok tt) [4; 2] []; Sent (Ok tt) [3] []; Moved; Moved; Moved; Collected 1 [(3, 0x3000, 8)]; Moved;
           Sent (Err NoBuffers_) [] [(4, 0x1000, 16); (2, 0x2000, 32)]], s') /\ repr s' (spec_run example_ops new_spec).2.
Proof.
  destruct (virtqueue_refines example_ops example_sys new_spec) as (s' & E & H).
  - apply example_repr.
  - unfold example_ops. repeat apply Forall_cons_2; try done.
  - exists s'. split; [|done]. rewrite E. vm_compute. done.
Defined.

(** ** Any device *)

(** Never out of fuel, and every chain adds a descriptor to the array of eight. *)
Definition grows {X} (q : Queue) (r : outcome (X * Queue)) : Prop :=
  match r with
  | OutOfFuel => False
  | Panicked _ => True
  | Done (_, q') => length (free_descriptors q') = 8%nat /\ free_count q < free_count q' <= 8
  end.

Lemma collect_chain_grows : forall fuel i q,
  length (free_descriptors q) = 8%nat -> 0 <= free_count q -> 9 <= Z.of_nat fuel + free_count q -> (0 < fuel)%nat ->
  grows q (collect_chain fuel i q).
Proof.
  induction fuel as [|fuel IH]; intros i q Hl H0 Hf Hp; [lia|]. cbn [collect_chain]. case_decide; [done|].
  erewrite bind_done by reflexivity. unfold at_index. destruct (nth_z (descriptors q) i) as [d|]; [|done].
  erewrite bind_done by reflexivity. destruct (nth_z (free_descriptors q) (free_count q)) as [x|] eqn:E; [|done].
  do 2 erewrite bind_done by reflexivity. apply nth_z_Some in E. unfold zlen in E. rewrite (wrap_small 16) by (unfold fits; lia).
  set (q1 := set_free _ _ q). assert (length (free_descriptors q1) = 8%nat) as Hl1 by (cbn; unfold set_z; case_decide; by rewrite ?length_insert).
  case_decide.
  - specialize (IH (next d) q1 Hl1 ltac:(cbn; lia) ltac:(cbn; lia) ltac:(lia)). unfold bind.
    destruct (collect_chain fuel (next d) q1) as [[l q']| |]; [|done..]. destruct IH as [? Hc]. split; [done|]. cbn in Hc. lia.
  - erewrite bind_done by reflexivity. split; [done|]. cbn. lia.
Qed.

Lemma collect_loop_ends : forall fuel i h q,
  length (free_descriptors q) = 8%nat -> 0 <= free_count q -> 10 <= Z.of_nat fuel + free_count q -> (0 < fuel)%nat ->
  collect_loop fuel i h q <> OutOfFuel.
Proof.
  induction fuel as [|fuel IH]; intros i h q Hl H0 Hf Hp; [lia|]. cbn [collect_loop]. case_decide; [done|].
  erewrite bind_done by reflexivity. unfold at_index. destruct (nth_z _ _) as [e|]; [|done].
  erewrite bind_done by reflexivity. pose proof (collect_chain_grows 9 (wrap 16 e.1) q Hl H0 ltac:(lia) ltac:(lia)) as Hg.
  unfold bind at 1. destruct (collect_chain 9 (wrap 16 e.1) q) as [[l q']| |]; [|done..]. destruct Hg as [Hl' Hc].
  specialize (IH (wrap 16 (i + 1)) h q' Hl' ltac:(lia) ltac:(lia) ltac:(lia)). unfold bind.
  by destruct (collect_loop fuel _ h q') as [[l' q'']| |].
Qed.

(** Termination of [collect_used] whatever the device writes to the rings and the table: loops of
    descriptors and indices far apart included, it returns or panics. *)
Theorem collect_used_ends (q : Queue) :
  length (free_descriptors q) = 8%nat -> 0 <= free_count q -> collect_used q <> OutOfFuel.
Proof.
  intros Hl H0. unfold collect_used. erewrite bind_done by reflexivity.
  pose proof (collect_loop_ends 10 (last_used q) (used_index q) q Hl H0 ltac:(lia) ltac:(lia)) as He.
  unfold bind. by destruct (collect_loop 10 _ _ q) as [[l q']| |].
Qed.

(** A descriptor that is its own successor. *)
Lemma collect_used_ends_witness :
  collect_used (mkQueue 7 0 (replicate 8 0) 0 (replicate 8 (mkDescriptor 0 0 NEXT 0)) 0 (replicate 8 0) 9000 (replicate 8 (0, 0)) 0)
    <> OutOfFuel.
Proof. apply (collect_used_ends (mkQueue 7 0 (replicate 8 0) 0 (replicate 8 (mkDescriptor 0 0 NEXT 0)) 0 (replicate 8 0) 9000 (replicate 8 (0, 0)) 0)); done. Defined.

(** ** Waiting *)

Definition device_run (ops : list device_op) (a : Spec) : Spec := fold_left (fun a o => spec_device o a) ops a.

Lemma device_run_repr ops : forall s a,
  repr s a -> repr (moves ops s) (device_run ops a).
Proof. unfold moves. induction ops as [|o ops IH]; intros s a H; [done|]. by apply IH, device_repr. Qed.

Lemma wait_step waits s a c a' n :
  repr s a -> spec_collect a = (n, c, a') ->
  exists s', repr s' a' /\ wait_for_used (driver collect_used) waits s =
    if decide (n = 0) then
      match waits with
      | [] => OutOfFuel
      | wait :: waits => (modify wait ;; let* l := wait_for_used (driver collect_used) waits in ret (c ++ l)) s'
      end
    else Done (c, s').
Proof.
  intros H E. destruct (collect_repr s a n c a' H E) as (q & Eq & Hr & _). eexists. split; [exact Hr|].
  destruct waits; cbn [wait_for_used]; (erewrite bind_done by (unfold driver; rewrite Eq; reflexivity)); cbn [fst snd];
    by case_decide.
Qed.

(** Liveness of [wait_for_used]: once the device has put a chain into the used ring during some call
    of [wait_fn], the loop ends, and the callback has seen the chains done by then. *)
Theorem wait_for_used_returns (waits : list (list device_op)) (s : Sys) (a : Spec) :
  repr s a -> done_ (device_run (concat waits) a) <> [] ->
  exists n s', let b := device_run (concat (take n waits)) a in
    wait_for_used (driver collect_used) (moves <$> waits) s = Done (concat (chain_log <$> done_ b), s') /\
    done_ b <> [] /\ (forall m, (m < n)%nat -> done_ (device_run (concat (take m waits)) a) = []) /\
    repr s' (spec_collect b).2.
Proof.
  revert s a. induction waits as [|ops waits IH]; intros s a H Hd.
  - destruct (wait_step [] s a _ _ _ H eq_refl) as (s1 & H1 & E). exists 0%nat, s1.
    rewrite decide_False in E; [split_and!; [done..|lia|done]|].
    cbn in Hd. destruct (done_ a) as [|c l]; [done|]. rewrite zlen_cons. pose proof (zlen_nonneg l). lia.
  - destruct (wait_step (moves <$> (ops :: waits)) s a _ _ _ H eq_refl) as (s1 & H1 & E). cbn [fmap list_fmap] in E |- *. destruct (done_ a) as [|c l] eqn:Ea.
    + rewrite decide_True in E by done. erewrite bind_done in E by reflexivity.
      assert (mkSpec (free a ++ all_idxs []) (posted a) (taken a) [] = a) as Hid
        by (change (all_idxs []) with (@nil Z); rewrite app_nil_r, <-Ea; by destruct a).
      rewrite Hid in H1. apply (device_run_repr ops) in H1. rewrite concat_cons in Hd. unfold device_run in Hd. rewrite fold_left_app in Hd.
      destruct (IH _ _ H1 Hd) as (n & s' & Ew & Hn & Hm & Hr). exists (S n), s'. cbn [take]. rewrite concat_cons.
      unfold device_run in *. rewrite fold_left_app. erewrite bind_done in E by exact Ew. split_and!; [exact E|done| |done].
      intros [|m] Hlt; [done|]. cbn [take]. rewrite concat_cons, fold_left_app. apply Hm. lia.
    + exists 0%nat, s1. rewrite decide_False in E by (rewrite zlen_cons; pose proof (zlen_nonneg l); lia).
      cbn [take]. change (device_run (concat []) a) with a. rewrite Ea. split_and!; [done..|lia|]. unfold spec_collect. by rewrite Ea.
Qed.

Lemma wait_for_used_returns_witness :
  exists s s', step (Send [(0x1000, 4, true)]) example_sys = Done (Sent (Ok tt) [4] [], s) /\
    wait_for_used (driver collect_used) (moves <$> [[]; [Fetch]; [Complete 0 4]; []]) s = Done ([(4, 0x1000, 4)], s').
Proof.
  destruct (step_repr (Send [(0x1000, 4, true)]) example_sys new_spec _ _ example_repr eq_refl eq_refl) as (s & E & H).
  destruct (wait_for_used_returns [[]; [Fetch]; [Complete 0 4]; []] s _ H) as (n & s' & Ew & Hn & _); [done|].
  exists s, s'. split; [exact E|]. rewrite Ew.
  do 5 (destruct n as [|n]; [first [by vm_compute|exfalso; apply Hn; by vm_compute]|]). by vm_compute.
Defined.
