(* ===== verification/DriverArgs.v ===== *)
(** * Driver arguments

    Drivers get their resources as text arguments.  src/lib/rust/driver/src/lib.rs
    writes them ([to_args]) and reads them ([parse_args]): a name and its values as
    hexadecimal numbers.  The functions [alloc] and [add_arg], which place the text,
    are those of the programs that start drivers
    (src/services/init/b0/src/main.rs, src/services/driver/pci/src/main.rs).

    What is written is read back, number by number and argument by argument. *)

From S2P Require Import Prelude Bytes Utf8.

Inductive OutOfMemory := OutOfMemory_.

(** ** Writing *)

(** [len_hex]: a 128-bit number has at most 32 digits. *)
Fixpoint len_hex_loop (fuel : nat) (i num : Z) : outcome Z :=
  match fuel with
  | O => OutOfFuel
  | S fuel =>
    let i := i + 1 in
    let num := Z.shiftr num 4 in
    if decide (num <> 0) then len_hex_loop fuel i num else Done i
  end.

Definition len_hex (num : Z) : outcome Z := len_hex_loop 32 0 num.

Definition hex_digit (d : Z) : Z := if decide (d < 10) then 48 + d else 97 - 10 + d.

Fixpoint fmt_hex_loop (fuel : nat) (buf : list Z) (i num : Z) : outcome (list Z) :=
  match fuel with
  | O => OutOfFuel
  | S fuel =>
    let d := num mod 16 in
    if decide (i < zlen buf) then
      let buf := set_z buf i (hex_digit d) in
      let num := num / 16 in
      if decide (num <> 0) then fmt_hex_loop fuel buf (wrap 64 (i - 1)) num else Done buf
    else Panicked "index out of bounds"
  end.

Definition fmt_hex (buf : list Z) (num : Z) : outcome (list Z) :=
  let! buf := fmt_hex_loop 32 buf (wrap 64 (zlen buf - 1)) num in
  match from_utf8 buf with
  | Ok _ => Done buf
  | Err _ => Panicked "called `Result::unwrap()` on an `Err` value"
  end.

(** [to] and what it uses of the caller: [alloc] splits the buffer, [add_argument]
    changes the caller's state. *)
Section to.
Context {A : Type} (alloc : list Z -> Z -> result (list Z * list Z) OutOfMemory)
  (add_argument : A -> list Z -> result A OutOfMemory).

Fixpoint to_values (buf : list Z) (st : A) (args : list Z) : outcome (result (list Z) OutOfMemory * A) :=
  match args with
  | [] => Done (Ok buf, st)
  | a :: args =>
    let! n := len_hex a in
    match alloc buf n with
    | Err e => Done (Err e, st)
    | Ok (b, r) =>
      let! t := fmt_hex b a in
      match add_argument st t with
      | Err e => Done (Err e, st)
      | Ok st => to_values r st args
      end
    end
  end.

Definition to (name buf : list Z) (st : A) (args : list Z) : outcome (result (list Z) OutOfMemory * A) :=
  match add_argument st name with
  | Err e => Done (Err e, st)
  | Ok st => to_values buf st args
  end.
End to.

(** ** Arguments *)

(** The structures [derive!] makes, and [Arg]. *)
Inductive Arg :=
| Reg (address size : Z)
| Range (child_address address size : Z)
| InterruptMap (child_address child_interrupt parent parent_address parent_interrupt : Z)
| InterruptMapMask (child_address child_interrupt : Z)
| Pci (child_address address size : Z)
| PciInterrupt (line pin : Z)
| BarIo (index address size : Z)
| BarMmio (index address size : Z)
| Other (arg : list Z).

(** [CMD_ARG] and [Arg::cmd_arg] *)
Definition cmd_arg (a : Arg) : result (list Z) (list Z) :=
  match a with
  | Reg _ _ => Ok (str "reg")
  | Range _ _ _ => Ok (str "range")
  | InterruptMap _ _ _ _ _ => Ok (str "interrupt-map")
  | InterruptMapMask _ _ => Ok (str "interrupt-map-mask")
  | Pci _ _ _ => Ok (str "pci")
  | PciInterrupt _ _ => Ok (str "pci-interrupt")
  | BarIo _ _ _ => Ok (str "bar-io")
  | BarMmio _ _ _ => Ok (str "bar-mmio")
  | Other o => match from_utf8 o with Ok _ => Ok o | Err _ => Err o end
  end.

(** The values [to_args] passes to [to], in order. *)
Definition arg_values (a : Arg) : list Z :=
  match a with
  | Reg a s => [a; s]
  | Range c a s => [c; a; s]
  | InterruptMap ca ci p pa pi => [ca; ci; p; pa; pi]
  | InterruptMapMask ca ci => [ca; ci]
  | Pci c a s => [c; a; s]
  | PciInterrupt l p => [l; p]
  | BarIo i a s => [i; a; s]
  | BarMmio i a s => [i; a; s]
  | Other _ => []
  end.

(** [to_args] of each structure: the name is [concat!("--", $arg)].  [Other] has none. *)
Definition to_args {A} alloc (add_argument : A -> list Z -> result A OutOfMemory) (a : Arg) (buf : list Z) (st : A)
  : outcome (result (list Z) OutOfMemory * A) :=
  match a, cmd_arg a with
  | Other _, _ | _, Err _ => Panicked "not a structure"
  | _, Ok name => to alloc add_argument (str "--" ++ name) buf st (arg_values a)
  end.

(** ** Reading *)

Inductive IntErrorKind := Empty | InvalidDigit | PosOverflow.

Inductive ParseArgError :=
| TooManyRegs | TooManyRanges | MissingArgument (name : string) | Utf8Error_ (e : Utf8Error)
| ParseIntError (e : IntErrorKind) | UnknownArgument (arg : list Z) | OutOfMemoryError.

(** [char::to_digit(16)] *)
Definition to_digit (c : Z) : option Z :=
  if decide (48 <= c <= 57) then Some (c - 48)
  else if decide (97 <= c <= 102) then Some (c - 87)
  else if decide (65 <= c <= 70) then Some (c - 55)
  else None.

Fixpoint digits_loop (w : Z) (l : list Z) (acc : Z) : result Z IntErrorKind :=
  match l with
  | [] => Ok acc
  | c :: l =>
    match to_digit c with
    | None => Err InvalidDigit
    | Some x => if decide (acc * 16 + x < 2 ^ w) then digits_loop w l (acc * 16 + x) else Err PosOverflow
    end
  end.

(** [from_str_radix(_, 16)] of the type of [w] bits, which is [u128] here: a plus sign may come first. *)
Definition from_str_radix (w : Z) (l : list Z) : result Z IntErrorKind :=
  match l with
  | [] => Err Empty
  | c :: l' =>
    if decide (c = 43) then (if decide (l' = []) then Err InvalidDigit else digits_loop w l' 0)
    else digits_loop w l 0
  end.

Fixpoint map_result {X Y E} (f : X -> result Y E) (l : list X) : result (list Y) E :=
  match l with
  | [] => Ok []
  | x :: l =>
    match f x with
    | Err e => Err e
    | Ok y => match map_result f l with Ok l => Ok (y :: l) | Err e => Err e end
    end
  end.

(** [from] with a buffer of [n] entries: the values and the arguments left. *)
Definition from (args : list (list Z)) (name : string) (n : nat) : result (list Z) ParseArgError * list (list Z) :=
  if decide (length args < n)%nat then (Err (MissingArgument name), [])
  else
    let l := take n args in
    (match map_result (fun b => map_err Utf8Error_ (from_utf8 b)) l with
     | Err e => Err e
     | Ok _ => map_result (fun b => map_err ParseIntError (from_str_radix 128 b)) l
     end, drop n args).

(** The features of the crate that the arms of [parse_args] depend on. *)
Record Features := mkFeatures {
  parse_reg : bool; parse_range : bool; parse_interrupt_map : bool; parse_interrupt_map_mask : bool;
  parse_pci : bool; parse_pci_interrupt : bool; parse_bar_mmio : bool; parse_bar_io : bool
}.

(** [from_args] of a structure with [n] fields. *)
Definition from_args (make : list Z -> option Arg) (name : string) (n : nat) (args : list (list Z))
  : result Arg ParseArgError * list (list Z) :=
  match from args name n with
  | (Ok vs, rest) => (match make vs with Some a => Ok a | None => Err (MissingArgument name) end, rest)
  | (Err e, rest) => (Err e, rest)
  end.

Definition make2 (f : Z -> Z -> Arg) (vs : list Z) : option Arg := match vs with [a; b] => Some (f a b) | _ => None end.
Definition make3 (f : Z -> Z -> Z -> Arg) (vs : list Z) : option Arg := match vs with [a; b; c] => Some (f a b c) | _ => None end.
Definition make5 (f : Z -> Z -> Z -> Z -> Z -> Arg) (vs : list Z) : option Arg :=
  match vs with [a; b; c; d; e] => Some (f a b c d e) | _ => None end.

(** The arms of the [match] on an argument; the features of the last two are swapped in
    the source. *)
Definition parse_arg (ft : Features) (ty : list Z) (args : list (list Z)) : result Arg ParseArgError * list (list Z) :=
  if parse_reg ft && bool_decide (ty = str "--reg") then from_args (make2 Reg) "Reg" 2 args
  else if parse_range ft && bool_decide (ty = str "--range") then from_args (make3 Range) "Range" 3 args
  else if parse_interrupt_map ft && bool_decide (ty = str "--interrupt-map") then from_args (make5 InterruptMap) "InterruptMap" 5 args
  else if parse_interrupt_map_mask ft && bool_decide (ty = str "--interrupt-map-mask")
    then from_args (make2 InterruptMapMask) "InterruptMapMask" 2 args
  else if parse_pci ft && bool_decide (ty = str "--pci") then from_args (make3 Pci) "Pci" 3 args
  else if parse_pci_interrupt ft && bool_decide (ty = str "--pci-interrupt") then from_args (make2 PciInterrupt) "PciInterrupt" 2 args
  else if parse_bar_mmio ft && bool_decide (ty = str "--bar-io") then from_args (make3 BarIo) "BarIo" 3 args
  else if parse_bar_io ft && bool_decide (ty = str "--bar-mmio") then from_args (make3 BarMmio) "BarMmio" 3 args
  else (Ok (Other ty), args).

(** [parse_args]: the calls of [f] and the result; [takes] is how many of the remaining
    arguments [f] consumes itself. *)
Fixpoint parse_args_loop (fuel : nat) (ft : Features) (takes : Arg -> nat) (args : list (list Z))
  : outcome (list Arg * result unit ParseArgError) :=
  match fuel with
  | O => OutOfFuel
  | S fuel =>
    match args with
    | [] => Done ([], Ok tt)
    | ty :: args =>
      match parse_arg ft ty args with
      | (Err e, _) => Done ([], Err e)
      | (Ok a, args) => let! r := parse_args_loop fuel ft takes (drop (takes a) args) in Done (a :: r.1, r.2)
      end
    end
  end.

Definition parse_args (ft : Features) (takes : Arg -> nat) (args : list (list Z)) : outcome (list Arg * result unit ParseArgError) :=
  parse_args_loop (S (length args)) ft takes args.

(** ** Starting a driver *)

(** [alloc] of the programs that start drivers. *)
Definition alloc (buf : list Z) (size : Z) : result (list Z * list Z) OutOfMemory :=
  if decide (size <= zlen buf) then Ok (take (Z.to_nat size) buf, drop (Z.to_nat size) buf) else Err OutOfMemory_.

(** [add_arg]: an array with room for [cap] arguments. *)
Definition add_arg (cap : nat) (args : list (list Z)) (arg : list Z) : result (list (list Z)) OutOfMemory :=
  if decide (length args < cap)%nat then Ok (args ++ [arg]) else Err OutOfMemory_.

(** Pushing arguments one after the other, each with [unwrap]. *)
Fixpoint push_args (cap : nat) (l : list Arg) (buf : list Z) (args : list (list Z)) : outcome (list Z * list (list Z)) :=
  match l with
  | [] => Done (buf, args)
  | a :: l =>
    let! r := to_args alloc (add_arg cap) a buf args in
    match r with
    | (Ok buf, args) => push_args cap l buf args
    | (Err _, _) => Panicked "called `Result::unwrap()` on an `Err` value"
    end
  end.

(** ** Numbers *)

(** The last [n] digits. *)
Fixpoint hex (n : nat) (a : Z) : list Z :=
  match n with O => [] | S n => hex n (a / 16) ++ [hex_digit (a mod 16)] end.

(** The number of digits. *)
Fixpoint hex_len (fuel : nat) (a : Z) : nat :=
  match fuel with O => O | S fuel => if decide (a / 16 = 0) then 1 else S (hex_len fuel (a / 16)) end.

Lemma length_hex n a : length (hex n a) = n.
Proof. revert a. induction n as [|n IH]; intros a; [done|]. cbn. rewrite length_app, IH. cbn. lia. Qed.

Lemma hex_len_pos fuel a : (0 < fuel)%nat -> (0 < hex_len fuel a)%nat.
Proof. destruct fuel; [lia|]. cbn. case_decide; lia. Qed.

Lemma div16_bound a n : 0 <= a < 16 ^ Z.of_nat (S n) -> 0 <= a / 16 < 16 ^ Z.of_nat n.
Proof.
  intros Ha. rewrite Nat2Z.inj_succ, Z.pow_succ_r in Ha by lia. split; [apply Z.div_pos; lia|apply Z.div_lt_upper_bound; lia].
Qed.

Lemma len_hex_spec : forall fuel i a, (0 < fuel)%nat -> 0 <= a < 16 ^ Z.of_nat fuel ->
  len_hex_loop fuel i a = Done (i + Z.of_nat (hex_len fuel a)).
Proof.
  induction fuel as [|fuel IH]; intros i a Hf Ha; [lia|]. cbn [len_hex_loop hex_len]. rewrite Z.shiftr_div_pow2 by lia.
  change (2 ^ 4) with 16. apply div16_bound in Ha. case_decide as H; case_decide as H'; try lia; [|f_equal; lia].
  destruct fuel as [|fuel]; [cbn in Ha; lia|]. rewrite IH by lia. f_equal. lia.
Qed.

Lemma fmt_hex_spec : forall fuel b post a, (0 < fuel)%nat -> 0 <= a < 16 ^ Z.of_nat fuel ->
  length b = hex_len fuel a -> zlen b < 2 ^ 63 ->
  fmt_hex_loop fuel (b ++ post) (wrap 64 (zlen b - 1)) a = Done (hex (length b) a ++ post).
Proof.
  induction fuel as [|fuel IH]; intros b post a Hf Ha Hl H63; [lia|]. pose proof (hex_len_pos (S fuel) a Hf) as Hp.
  destruct (last_snoc_inv b) as [->|(b' & x & ->)]; [cbn [length] in Hl; lia|]. cbn [fmt_hex_loop].
  rewrite zlen_app in *. change (zlen [x]) with 1 in *. pose proof (zlen_nonneg b').
  replace (zlen b' + 1 - 1) with (zlen b') by lia. rewrite wrap_small by (unfold fits; lia).
  rewrite decide_True by (rewrite !zlen_app; change (zlen [x]) with 1; pose proof (zlen_nonneg post); lia).
  rewrite <-app_assoc. cbn [app]. rewrite set_z_app. cbn [hex_len] in Hl. rewrite length_app in Hl. cbn [length] in Hl.
  apply div16_bound in Ha. rewrite length_app, Nat.add_comm. cbn [Nat.add length hex]. rewrite <-app_assoc. cbn [app].
  case_decide as H'; case_decide as H''; try lia.
  - assert (b' = []) as -> by (destruct b'; [done|cbn in Hl; lia]). done.
  - destruct fuel as [|fuel]; [cbn in Ha; lia|]. apply IH; [lia|done|lia|lia].
Qed.

Lemma to_digit_hex d : 0 <= d < 16 -> to_digit (hex_digit d) = Some d.
Proof. intros Hd. unfold to_digit, hex_digit. decide_all; f_equal; lia. Qed.

Lemma hex_digit_ascii d : 0 <= d < 16 -> 48 <= hex_digit d <= 102.
Proof. intros. unfold hex_digit. case_decide; lia. Qed.

Lemma digits_snoc w l : forall acc v c d,
  digits_loop w l acc = Ok v -> to_digit c = Some d -> v * 16 + d < 2 ^ w -> digits_loop w (l ++ [c]) acc = Ok (v * 16 + d).
Proof.
  induction l as [|x l IH]; intros acc v c d E Hd Hv; cbn in *.
  - injection E as ->. rewrite Hd. by rewrite decide_True by done.
  - destruct (to_digit x); [|done]. case_decide; [|done]. by apply IH.
Qed.

Lemma digits_hex w : forall n a, 0 <= a < 16 ^ Z.of_nat n -> a < 2 ^ w -> digits_loop w (hex n a) 0 = Ok a.
Proof.
  induction n as [|n IH]; intros a Ha H128; cbn [hex].
  - cbn in *. f_equal. lia.
  - apply div16_bound in Ha as Ha'. pose proof (Z.div_mod a 16 ltac:(lia)) as Hdm. pose proof (Z.mod_pos_bound a 16 ltac:(lia)) as Hm.
    replace (Ok a) with (Ok (E := IntErrorKind) (a / 16 * 16 + a mod 16)) by (f_equal; lia).
    apply digits_snoc; [|by apply to_digit_hex|lia]. apply IH; [done|]. apply Z.div_lt_upper_bound; lia.
Qed.

Lemma hex_ascii : forall n a, Forall (fun c => 48 <= c <= 102) (hex n a).
Proof.
  induction n as [|n IH]; intros a; [by apply Forall_nil_2|]. cbn. apply Forall_app. split; [done|].
  apply Forall_singleton, hex_digit_ascii, Z.mod_pos_bound. lia.
Qed.

Lemma hex_len_enough : forall fuel a, 0 <= a < 16 ^ Z.of_nat fuel -> a < 16 ^ Z.of_nat (hex_len fuel a).
Proof.
  induction fuel as [|fuel IH]; intros a Ha; [cbn in *; lia|]. apply div16_bound in Ha as Ha'. cbn [hex_len].
  pose proof (Z.div_mod a 16 ltac:(lia)). pose proof (Z.mod_pos_bound a 16 ltac:(lia)). case_decide; [cbn; lia|].
  specialize (IH _ Ha'). rewrite Nat2Z.inj_succ, Z.pow_succ_r by lia. lia.
Qed.

Lemma ascii_utf8 l : Forall (fun c => 0 <= c < 128) l -> from_utf8 l = Ok tt.
Proof.
  intros Hl. apply from_utf8_ok. induction Hl as [|c l Hc _ IH]; [constructor|]. apply (utf8_char 1); [|done].
  cbn. unfold in_range. by rewrite bool_decide_true by lia.
Qed.

(** The text of a number. *)
Definition hex_text (a : Z) : list Z := hex (hex_len 32 a) a.

Lemma hex_text_utf8 a : from_utf8 (hex_text a) = Ok tt.
Proof. apply ascii_utf8. eapply Forall_impl; [apply hex_ascii|]. cbn. lia. Qed.

Lemma hex_text_parse w a : fits 128 a -> fits w a -> from_str_radix w (hex_text a) = Ok a.
Proof.
  intros Ha Hw. unfold fits in Ha, Hw. assert (digits_loop w (hex_text a) 0 = Ok a) as E.
  { apply digits_hex; [|lia]. split; [lia|]. apply hex_len_enough. lia. }
  pose proof (hex_ascii (hex_len 32 a) a) as Hc. pose proof (length_hex (hex_len 32 a) a) as Hl.
  pose proof (hex_len_pos 32 a ltac:(lia)). unfold from_str_radix. fold (hex_text a) in *.
  destruct (hex_text a) as [|c l]; [cbn [length] in Hl; lia|]. apply Forall_cons in Hc as [Hc _]. by rewrite decide_False by lia.
Qed.

Lemma fmt_hex_text b a : fits 128 a -> length b = hex_len 32 a -> fmt_hex b a = Done (hex_text a).
Proof.
  intros Ha Hl. unfold fmt_hex. pose proof (fmt_hex_spec 32 b [] a ltac:(lia) Ha Hl) as E.
  assert (hex_len 32 a <= 32)%nat as Hle by (generalize a; generalize 32%nat; clear; induction n as [|n IH]; intros a; cbn; [done|case_decide; [lia|specialize (IH (a / 16)); lia]]).
  rewrite !app_nil_r in E. rewrite E by (unfold zlen; lia). cbn [obind]. rewrite Hl. fold (hex_text a). by rewrite hex_text_utf8.
Qed.

(** ** Arguments *)

(** The text of an argument. *)
Definition arg_text (a : Arg) : list (list Z) :=
  match cmd_arg a with Ok name => (str "--" ++ name) :: (hex_text <$> arg_values a) | Err _ => [] end.

Definition arg_bytes (a : Arg) : nat := sum_list (hex_len 32 <$> arg_values a).

Definition is_struct (a : Arg) : Prop := match a with Other _ => False | _ => Forall (fits 128) (arg_values a) end.

Lemma to_values_spec cap vs : forall buf args,
  Forall (fits 128) vs -> (sum_list (hex_len 32 <$> vs) <= length buf)%nat -> (length args + length vs <= cap)%nat ->
  to_values alloc (add_arg cap) buf args vs =
    Done (Ok (drop (sum_list (hex_len 32 <$> vs)) buf), args ++ (hex_text <$> vs)).
Proof.
  induction vs as [|v vs IH]; intros buf args Hv Hb Hc; cbn [to_values].
  - by rewrite app_nil_r, drop_0.
  - change (sum_list (hex_len 32 <$> v :: vs)) with (hex_len 32 v + sum_list (hex_len 32 <$> vs))%nat in *. rewrite fmap_cons.
    apply Forall_cons in Hv as [Hv Hvs]. unfold len_hex. rewrite len_hex_spec by (lia || exact Hv). cbn [obind].
    unfold alloc at 1. rewrite Z.add_0_l, decide_True, Nat2Z.id by (unfold zlen; lia). cbv beta iota.
    rewrite fmt_hex_text by (done || rewrite length_take; lia). cbn [obind]. cbn [length] in Hc.
    unfold add_arg at 1. rewrite decide_True by lia. rewrite IH by (done || rewrite ?length_drop, ?length_app; cbn [length]; lia).
    rewrite drop_drop, <-app_assoc. done.
Qed.

Lemma to_args_spec cap a buf args :
  is_struct a -> (arg_bytes a <= length buf)%nat -> (length args + length (arg_text a) <= cap)%nat ->
  to_args alloc (add_arg cap) a buf args = Done (Ok (drop (arg_bytes a) buf), args ++ arg_text a).
Proof.
  intros Ha Hb Hc. assert (Forall (fits 128) (arg_values a)) as Hv by (by destruct a).
  unfold arg_text in *.
  assert (exists name, cmd_arg a = Ok name /\ to_args alloc (add_arg cap) a buf args =
    to alloc (add_arg cap) (str "--" ++ name) buf args (arg_values a)) as (name & E & ->) by (destruct a; by eauto).
  rewrite E in *. cbn [length] in Hc. rewrite length_fmap in Hc. unfold to. unfold add_arg at 1. rewrite decide_True by lia.
  rewrite to_values_spec by (done || rewrite ?length_app; cbn [length]; lia). by rewrite <-app_assoc.
Qed.

Lemma map_result_fmap {X Y E} (f : X -> result Y E) (g : Y -> X) l :
  Forall (fun y => f (g y) = Ok y) l -> map_result f (g <$> l) = Ok l.
Proof. induction 1 as [|y l E' _ IH]; [done|]. cbn. rewrite E'. fold (fmap g l). by rewrite IH. Qed.

Lemma map_result_const {X Y E} (f : X -> result Y E) y l : Forall (fun x => f x = Ok y) l -> map_result f l = Ok (replicate (length l) y).
Proof. induction 1 as [|x l E' _ IH]; [done|]. cbn. by rewrite E', IH. Qed.

Lemma from_spec vs name rest : Forall (fits 128) vs -> from ((hex_text <$> vs) ++ rest) name (length vs) = (Ok vs, rest).
Proof.
  intros Hv. unfold from. assert (length (hex_text <$> vs) = length vs) as Hl by apply length_fmap.
  rewrite decide_False by (rewrite length_app; lia). rewrite <-Hl, take_app_length, drop_app_length.
  rewrite (map_result_const _ tt) by (apply Forall_fmap, Forall_forall; intros v _; unfold compose; by rewrite hex_text_utf8).
  rewrite map_result_fmap; [done|]. eapply Forall_impl; [exact Hv|]. intros v Hfv. cbv beta. by rewrite hex_text_parse.
Qed.

(** The feature that makes [parse_args] read a structure. *)
Definition enabled (ft : Features) (a : Arg) : bool :=
  match a with
  | Reg _ _ => parse_reg ft
  | Range _ _ _ => parse_range ft
  | InterruptMap _ _ _ _ _ => parse_interrupt_map ft
  | InterruptMapMask _ _ => parse_interrupt_map_mask ft
  | Pci _ _ _ => parse_pci ft
  | PciInterrupt _ _ => parse_pci_interrupt ft
  | BarIo _ _ _ => parse_bar_mmio ft
  | BarMmio _ _ _ => parse_bar_io ft
  | Other _ => false
  end.

Lemma from_args_spec make name vs a rest :
  Forall (fits 128) vs -> make vs = Some a -> from_args make name (length vs) ((hex_text <$> vs) ++ rest) = (Ok a, rest).
Proof. intros Hv E. unfold from_args. by rewrite from_spec, E. Qed.

(** Tests of a known name against a literal. *)
Ltac next_arm := match goal with |- context [bool_decide (?x = ?y)] =>
  first [rewrite (bool_decide_true (x = y)) by reflexivity|rewrite (bool_decide_false (x = y)) by (vm_compute; discriminate)] end;
  rewrite ?andb_false_r, ?andb_true_r.

Lemma parse_arg_spec ft a rest :
  is_struct a -> enabled ft a = true ->
  exists ty vals, arg_text a = ty :: vals /\ parse_arg ft ty (vals ++ rest) = (Ok a, rest).
Proof.
  intros Ha He. assert (Forall (fits 128) (arg_values a)) as Hv by (by destruct a).
  destruct a; cbn [enabled] in He; try done; do 2 eexists; (split; [reflexivity|]); unfold parse_arg; repeat next_arm;
    rewrite He; by apply from_args_spec.
Qed.

Lemma push_args_spec cap l : forall buf args,
  Forall is_struct l -> (sum_list (arg_bytes <$> l) <= length buf)%nat ->
  (length args + length (concat (arg_text <$> l)) <= cap)%nat ->
  push_args cap l buf args = Done (drop (sum_list (arg_bytes <$> l)) buf, args ++ concat (arg_text <$> l)).
Proof.
  induction l as [|a l IH]; intros buf args Hl Hb Hc; cbn [push_args].
  - cbn [fmap list_fmap concat]. by rewrite app_nil_r, drop_0.
  - change (sum_list (arg_bytes <$> a :: l)) with (arg_bytes a + sum_list (arg_bytes <$> l))%nat in *.
    rewrite fmap_cons, concat_cons in *. apply Forall_cons in Hl as [Ha Hl]. rewrite length_app in Hc.
    rewrite to_args_spec by (done || lia). cbn [obind]. rewrite IH by (done || rewrite ?length_drop, ?length_app; lia).
    by rewrite drop_drop, app_assoc.
Qed.

Lemma parse_args_loop_spec ft l : forall fuel,
  Forall is_struct l -> Forall (fun a => enabled ft a = true) l -> (length (concat (arg_text <$> l)) < fuel)%nat ->
  parse_args_loop fuel ft (fun _ => 0%nat) (concat (arg_text <$> l)) = Done (l, Ok tt).
Proof.
  induction l as [|a l IH]; intros fuel Hl He Hf; (destruct fuel as [|fuel]; [lia|]); [done|].
  rewrite fmap_cons, concat_cons in *. apply Forall_cons in Hl as [Ha Hl]. apply Forall_cons in He as [Hea He].
  destruct (parse_arg_spec ft a (concat (arg_text <$> l)) Ha Hea) as (ty & vals & E & Hp). rewrite E in *.
  cbn [app parse_args_loop]. rewrite Hp. cbn [app length] in Hf. rewrite length_app in Hf.
  rewrite drop_0, IH by (done || lia). done.
Qed.

(** Round trip.  Resources pushed as arguments by a program that starts a driver, as long as its
    buffer and its array have room, are read back by the driver's [parse_args] in order and with the same
    values. *)
Theorem args_roundtrip (ft : Features) (cap : nat) (l : list Arg) (buf : list Z) :
  Forall is_struct l -> Forall (fun a => enabled ft a = true) l ->
  (sum_list (arg_bytes <$> l) <= length buf)%nat -> (length (concat (arg_text <$> l)) <= cap)%nat ->
  exists buf' args, push_args cap l buf [] = Done (buf', args) /\
    parse_args ft (fun _ => 0%nat) args = Done (l, Ok tt).
Proof.
  intros Hl He Hb Hc. do 2 eexists. split; [by apply push_args_spec|]. cbn [app].
  apply parse_args_loop_spec; [done..|lia].
Qed.

Definition all_features : Features := mkFeatures true true true true true true true true.

Definition example_args : list Arg :=
  [Reg 0x10000000 0x100; Range 0 0x3000000 0x10000; InterruptMap 0x800 1 3 0 32; InterruptMapMask 0x1800 7;
   BarIo 1 0 64; BarMmio 4 (2 ^ 128 - 1) 0x4000].

Lemma args_roundtrip_witness :
  exists buf' args, push_args 128 example_args (replicate 4096 0) [] = Done (buf', args) /\
    parse_args all_features (fun _ => 0%nat) args = Done (example_args, Ok tt).
Proof.
  apply (args_roundtrip all_features 128 example_args (replicate 4096 0)).
  - repeat apply Forall_cons_2; try apply Forall_nil_2; cbn [is_struct arg_values];
      repeat apply Forall_cons_2; try apply Forall_nil_2; unfold fits; lia.
  - repeat apply Forall_cons_2; try done.
  - apply Nat.leb_le. by vm_compute.
  - apply Nat.leb_le. by vm_compute.
Defined.

Lemma from_args_rest make name n args r rest : from_args make name n args = (r, rest) -> (length rest <= length args)%nat.
Proof.
  unfold from_args, from. case_decide; [intros [= _ <-]; cbn; lia|].
  assert (length (drop n args) <= length args)%nat by (rewrite length_drop; lia).
  destruct (map_result _ _) as [?|]; [|intros [= _ <-]; done]. destruct (map_result _ _); by intros [= _ <-].
Qed.

Lemma parse_arg_rest ft ty args r rest : parse_arg ft ty args = (r, rest) -> (length rest <= length args)%nat.
Proof.
  unfold parse_arg. repeat (match goal with |- context [if ?b then _ else _] => destruct b end; [apply from_args_rest|]).
  by intros [= _ <-].
Qed.

(** [parse_args] returns for any arguments, however many the callback takes itself. *)
Theorem parse_args_returns ft takes args : exists r, parse_args ft takes args = Done r.
Proof.
  unfold parse_args. generalize (Nat.lt_succ_diag_r (length args)). generalize (S (length args)) as fuel. intros fuel. revert args.
  induction fuel as [|fuel IH]; intros args Hf; [lia|]. destruct args as [|ty args]; [by eexists|]. cbn [parse_args_loop].
  destruct (parse_arg ft ty args) as [[a|e] rest] eqn:E; [|by eexists]. apply parse_arg_rest in E. cbn in Hf.
  destruct (IH (drop (takes a) rest)) as [r Hr]; [rewrite length_drop; lia|]. rewrite Hr. by eexists.
Qed.
