(* ===== verification/InitDevices.v ===== *)
(** * Devices of the first program

    The first program, src/services/init/b0, finds the devices of the machine in the
    device tree (device_tree.rs) and starts a driver for each, passing its registers,
    address ranges and interrupt map as arguments (main.rs).

    The theorem of this file composes the device tree library, this program and the
    driver library: what the tree says of a device is what its driver reads from its
    arguments. *)

From S2P Require Import Prelude Bytes DeviceTree Utf8 DriverArgs.

(** ** [unpack_reg] *)

(** [num = (num << 8) | byte], at 128 bits. *)
Definition unpack_bytes (bs : list Z) : Z := fold_left (fun num b => Z.lor (wrap 128 (Z.shiftl num 8)) b) bs 0.

Definition unpack_reg (reg : list Z) (cells : Z) : outcome (Z * list Z) :=
  if decide (cells <= 4) then
    let cells := cells * 4 in
    if decide (cells <= zlen reg) then
      Done (unpack_bytes (take (Z.to_nat cells) reg), drop (Z.to_nat cells) reg)
    else Panicked "reg isn't large enough"
  else Panicked "unsupported cells size".

(** ** [iter_devices] *)

Record Device := mkDevice {
  dev_name : list Z;
  dev_compatible : list (list Z);
  dev_reg : list (Z * Z);
  dev_ranges : list (Z * Z * Z);
  dev_interrupt_map : list (Z * Z * Z * Z * Z);
  dev_interrupt_map_mask : Z * Z
}.

(** The variables that the loop over the properties sets. *)
Record Raw := mkRaw {
  raw_compatible : list Z; raw_interrupt_map : list Z; raw_ranges : list Z; raw_reg : list Z;
  child_address_cells : Z; child_interrupt_cells : Z
}.

(** The [match] on the name of a property. *)
Definition raw_step (p : Property) (r : Raw) : outcome Raw :=
  let v := p_value p in
  if decide (p_name p = str "compatible") then
    Done (mkRaw v (raw_interrupt_map r) (raw_ranges r) (raw_reg r) (child_address_cells r) (child_interrupt_cells r))
  else if decide (p_name p = str "interrupt-map") then
    Done (mkRaw (raw_compatible r) v (raw_ranges r) (raw_reg r) (child_address_cells r) (child_interrupt_cells r))
  else if decide (p_name p = str "ranges") then
    Done (mkRaw (raw_compatible r) (raw_interrupt_map r) v (raw_reg r) (child_address_cells r) (child_interrupt_cells r))
  else if decide (p_name p = str "reg") then
    Done (mkRaw (raw_compatible r) (raw_interrupt_map r) (raw_ranges r) v (child_address_cells r) (child_interrupt_cells r))
  else if decide (p_name p = str "#address-cells") then
    let! c := cell_value v in
    Done (mkRaw (raw_compatible r) (raw_interrupt_map r) (raw_ranges r) (raw_reg r) c (child_interrupt_cells r))
  else if decide (p_name p = str "#interrupt-cells") then
    let! c := cell_value v in
    Done (mkRaw (raw_compatible r) (raw_interrupt_map r) (raw_ranges r) (raw_reg r) (child_address_cells r) c)
  else Done r.

Fixpoint raw_loop (ps : list Property) (r : Raw) : outcome Raw :=
  match ps with
  | [] => Done r
  | p :: ps => let! r := raw_step p r in raw_loop ps r
  end.

(** [slice::split]: never empty. *)
Fixpoint split_at (sep : Z) (l : list Z) : list (list Z) :=
  match l with
  | [] => [[]]
  | c :: l =>
    if decide (c = sep) then [] :: split_at sep l
    else match split_at sep l with x :: r => (c :: x) :: r | [] => [[c]] end
  end.

(** A [while !raw.is_empty()] loop that fills an array of [cap] entries, one from the
    front of [raw] at a time.  The array is full after [cap] rounds. *)
Fixpoint fill_loop {X} (one : list Z -> outcome (X * list Z)) (cap : nat) (raw : list Z) (acc : list X) : outcome (list X) :=
  if decide (raw = []) then Done acc else
  let! x := one raw in
  match cap with
  | O => Panicked "index out of bounds"
  | S cap => fill_loop one cap x.2 (acc ++ [x.1])
  end.

Definition one_reg (ac sc : Z) (l : list Z) : outcome (Z * Z * list Z) :=
  let! a := unpack_reg l ac in
  let! s := unpack_reg a.2 sc in
  Done (a.1, s.1, s.2).

Definition one_range (cac ac sc : Z) (l : list Z) : outcome (Z * Z * Z * list Z) :=
  let! c := unpack_reg l cac in
  let! a := unpack_reg c.2 ac in
  let! s := unpack_reg a.2 sc in
  Done (c.1, a.1, s.1, s.2).

(** The parent has no address cells and one interrupt cell. *)
Definition one_interrupt (cac cic : Z) (l : list Z) : outcome (Z * Z * Z * Z * Z * list Z) :=
  let! ca := unpack_reg l cac in
  let! ci := unpack_reg ca.2 cic in
  let! ph := unpack_reg ci.2 1 in
  let! pa := unpack_reg ph.2 0 in
  let! pi := unpack_reg pa.2 1 in
  Done (ca.1, ci.1, ph.1, pa.1, pi.1, pi.2).

(** The loop over the parts of [compatible]: the last part is not counted. *)
Definition compatible_of (raw : list Z) : outcome (list (list Z)) :=
  let l := split_at 0 raw in
  if decide (length l <= 8)%nat then Done (take (length l - 1) l) else Panicked "index out of bounds".

Definition mask_of (ps : list Property) (cac cic : Z) (map : list (Z * Z * Z * Z * Z)) : outcome (Z * Z) :=
  if decide (map = []) then Done (0, 0) else
  let! p := expect (snd <$> list_find (fun p => p_name p = str "interrupt-map-mask") ps) in
  let! a := unpack_reg (p_value p) cac in
  let! i := unpack_reg a.2 cic in
  if decide (i.2 = []) then Done (a.1, i.1) else Panicked "assertion failed: r.is_empty()".

(** The body for a child of the node [soc]. *)
Definition device_of (fuel : nat) (d : list Z) (n : Node) : outcome Device :=
  let! ps := Node_properties fuel d n in
  let! r := raw_loop ps (mkRaw [] [] [] [] 0 0) in
  let! regs := fill_loop (one_reg (address_cells n) (size_cells n)) 8 (raw_reg r) [] in
  let! compatible := compatible_of (raw_compatible r) in
  let! ranges := fill_loop (one_range (child_address_cells r) (address_cells n) (size_cells n)) 8 (raw_ranges r) [] in
  let! map := fill_loop (one_interrupt (child_address_cells r) (child_interrupt_cells r)) 32 (raw_interrupt_map r) [] in
  let! mask := mask_of ps (child_address_cells r) (child_interrupt_cells r) map in
  Done (mkDevice (default [] (head (split_at 64 (n_name n)))) compatible regs ranges map mask).

(** The devices [f] is called with; [dtb] is what the system call wrote. *)
Definition iter_devices (fuel : nat) (dtb : list Z) : outcome (list Device) :=
  match DeviceTree_parse dtb with
  | Err _ => Panicked "called `Result::unwrap()` on an `Err` value"
  | Ok d =>
    let! root := DeviceTree_root fuel d in
    match root with
    | Err _ => Done []
    | Ok root =>
      let! nodes := Node_children fuel d root in
      let! l := collect (fun n =>
        if decide (n_name n = str "soc") then
          let! kids := Node_children fuel d n in collect (device_of fuel d) kids
        else Done []) nodes in
      Done (concat l)
    end
  end.

(** ** Starting drivers *)

(** An entry of [BINARIES], a list the build generates. *)
Record Binary := mkBinary { bin_name : list Z; bin_compatible : list Z }.

(** The arguments pushed for a device, in order. *)
Definition device_args (dev : Device) : list Arg :=
  ((fun '(a, s) => Reg a s) <$> dev_reg dev) ++
  ((fun '(c, a, s) => Range c a s) <$> dev_ranges dev) ++
  ((fun '(ca, ci, p, pa, pi) => InterruptMap ca ci p pa pi) <$> dev_interrupt_map dev) ++
  (if decide (dev_interrupt_map dev = []) then []
   else [InterruptMapMask (dev_interrupt_map_mask dev).1 (dev_interrupt_map_mask dev).2]).

(** The closure [main] gives to [iter_devices]: the driver to start, if there is one, and
    its arguments. *)
Definition driver_for (binaries : list Binary) (dev : Device) : outcome (option (Binary * list (list Z))) :=
  match snd <$> list_find (fun b => bin_compatible b ∈ dev_compatible dev) binaries with
  | None => Done None
  | Some b =>
    match from_utf8 (dev_name dev) with
    | Err _ => Panicked "called `Result::unwrap()` on an `Err` value"
    | Ok _ =>
      let! r := push_args 128 (device_args dev) (replicate 4096 0) [] in
      Done (Some (b, r.2))
    end
  end.

(** ** Descriptions of devices and their encoding *)

Record Desc := mkDesc {
  x_name : list Z;
  x_compatible : list (list Z);
  x_cac : Z; x_cic : Z;
  x_regs : list (Z * Z);
  x_ranges : list (Z * Z * Z);
  x_map : list (Z * Z * Z * Z);
  x_mask : Z * Z
}.

Definition cells (c v : Z) : list Z := be_split (Z.to_nat (4 * c)) v.

Definition enc_reg (ac sc : Z) (r : Z * Z) : list Z := cells ac r.1 ++ cells sc r.2.

Definition enc_range (cac ac sc : Z) (r : Z * Z * Z) : list Z := cells cac r.1.1 ++ cells ac r.1.2 ++ cells sc r.2.

(** Child address and interrupt, the parent's handle and its interrupt. *)
Definition enc_interrupt (cac cic : Z) (r : Z * Z * Z * Z) : list Z :=
  cells cac r.1.1.1 ++ cells cic r.1.1.2 ++ cells 1 r.1.2 ++ cells 1 r.2.

Definition map_entry (r : Z * Z * Z * Z) : Z * Z * Z * Z * Z := let '(ca, ci, ph, pi) := r in (ca, ci, ph, 0, pi).

Definition device_props (ac sc : Z) (x : Desc) : list Property :=
  [mkProperty (str "compatible") (concat ((.++ [0]) <$> x_compatible x));
   mkProperty (str "#address-cells") (cells 1 (x_cac x));
   mkProperty (str "#interrupt-cells") (cells 1 (x_cic x));
   mkProperty (str "reg") (concat (enc_reg ac sc <$> x_regs x));
   mkProperty (str "ranges") (concat (enc_range (x_cac x) ac sc <$> x_ranges x));
   mkProperty (str "interrupt-map") (concat (enc_interrupt (x_cac x) (x_cic x) <$> x_map x));
   mkProperty (str "interrupt-map-mask") (cells (x_cac x) (x_mask x).1 ++ cells (x_cic x) (x_mask x).2)].

Definition device_node (ac sc : Z) (x : Desc) : tree := Tree (x_name x) (device_props ac sc x) [].

(** What the program makes of it. *)
Definition device (x : Desc) : Device :=
  mkDevice (default [] (head (split_at 64 (x_name x)))) (x_compatible x) (x_regs x) (x_ranges x) (map_entry <$> x_map x)
    (if decide (x_map x = []) then (0, 0) else x_mask x).

(** The numbers fit their cells, and there are not more entries than the program has room for. *)
Record desc_ok (ac sc : Z) (x : Desc) : Prop := {
  ok_cells : 0 <= x_cac x <= 4 /\ 0 <= x_cic x <= 4;
  ok_regs : Forall (fun r => fits (32 * ac) r.1 /\ fits (32 * sc) r.2) (x_regs x) /\ (length (x_regs x) <= 8)%nat;
  ok_ranges : Forall (fun r => fits (32 * x_cac x) r.1.1 /\ fits (32 * ac) r.1.2 /\ fits (32 * sc) r.2) (x_ranges x) /\
    (length (x_ranges x) <= 8)%nat;
  ok_map : Forall (fun r => fits (32 * x_cac x) r.1.1.1 /\ fits (32 * x_cic x) r.1.1.2 /\ fits 32 r.1.2 /\ fits 32 r.2) (x_map x) /\
    (length (x_map x) <= 32)%nat;
  ok_mask : fits (32 * x_cac x) (x_mask x).1 /\ fits (32 * x_cic x) (x_mask x).2;
  ok_compatible : Forall (Forall (fun c => c <> 0)) (x_compatible x) /\ (length (x_compatible x) <= 7)%nat
}.

(** ** Reading numbers *)

Lemma be_combine_snoc l b : be_combine (l ++ [b]) = b + 2 ^ 8 * be_combine l.
Proof. unfold be_combine. by rewrite reverse_snoc. Qed.

Lemma unpack_be bs : Forall byte_ok bs -> zlen bs <= 16 -> unpack_bytes bs = be_combine bs.
Proof.
  induction bs as [|b bs IH] using rev_ind; intros Hb Hl; [done|]. apply Forall_app in Hb as [Hb Hb1].
  rewrite zlen_app in Hl. change (zlen [b]) with 1 in Hl. pose proof (zlen_nonneg bs).
  unfold unpack_bytes. rewrite fold_left_app. cbn [fold_left]. fold (unpack_bytes bs). rewrite IH, be_combine_snoc by (done || lia).
  apply be_combine_bound in Hb. unfold fits in Hb. rewrite Forall_singleton in Hb1. unfold byte_ok in Hb1.
  assert (2 ^ (8 * zlen bs) <= 2 ^ 120) by (apply Z.pow_le_mono_r; lia).
  rewrite Z.shiftl_mul_pow2, wrap_small by (unfold fits; lia). rewrite <-Z.shiftl_mul_pow2 by lia.
  rewrite field_lor_shiftl by (unfold fits; lia). lia.
Qed.

Lemma le_split_bytes n : forall v, Forall byte_ok (le_split n v).
Proof. induction n as [|n IH]; intros v; [by apply Forall_nil_2|]. apply Forall_cons_2; [apply Z.mod_pos_bound; lia|apply IH]. Qed.

Lemma zlen_be_cells c v : 0 <= c -> zlen (cells c v) = 4 * c.
Proof. intros. unfold zlen, cells, be_split. rewrite length_reverse, length_le_split. lia. Qed.

Lemma be_combine_cells c v : 0 <= c -> fits (32 * c) v -> be_combine (cells c v) = v.
Proof. intros Hc Hv. apply be_combine_split. by replace (8 * Z.of_nat (Z.to_nat (4 * c))) with (32 * c) by lia. Qed.

Lemma unpack_cells c v rest : 0 <= c <= 4 -> fits (32 * c) v -> unpack_reg (cells c v ++ rest) c = Done (v, rest).
Proof.
  intros Hc Hv. pose proof (zlen_be_cells c v ltac:(lia)) as Hz. unfold unpack_reg. rewrite decide_True by lia.
  pose proof (zlen_nonneg rest). rewrite zlen_app, decide_True by lia. rewrite (Z.mul_comm c).
  replace (Z.to_nat (4 * c)) with (length (cells c v)) by (unfold zlen in Hz; lia).
  rewrite take_app_length, drop_app_length. do 2 f_equal. rewrite unpack_be; [apply be_combine_cells; [lia|done]| |lia].
  unfold cells, be_split. apply Forall_reverse, le_split_bytes.
Qed.

Lemma cell_value_cells v : fits 32 v -> cell_value (cells 1 v) = Done v.
Proof. intros Hv. unfold cell_value. rewrite zlen_be_cells, decide_True by lia. f_equal. by apply be_combine_cells. Qed.

Lemma one_reg_spec ac sc r rest :
  0 <= ac <= 4 -> 0 <= sc <= 4 -> fits (32 * ac) r.1 /\ fits (32 * sc) r.2 ->
  one_reg ac sc (enc_reg ac sc r ++ rest) = Done (r, rest).
Proof.
  destruct r as [a s]. intros Ha Hs [H1 H2]. unfold one_reg, enc_reg. rewrite <-app_assoc.
  cbn in *. rewrite unpack_cells by done. cbn. by rewrite unpack_cells by done.
Qed.

Lemma one_range_spec cac ac sc r rest :
  0 <= cac <= 4 -> 0 <= ac <= 4 -> 0 <= sc <= 4 -> fits (32 * cac) r.1.1 /\ fits (32 * ac) r.1.2 /\ fits (32 * sc) r.2 ->
  one_range cac ac sc (enc_range cac ac sc r ++ rest) = Done (r, rest).
Proof.
  destruct r as [[c a] s]. intros Hc Ha Hs (H1 & H2 & H3). unfold one_range, enc_range. rewrite <-!app_assoc.
  cbn in *. rewrite unpack_cells by done. cbn. rewrite unpack_cells by done. cbn. by rewrite unpack_cells by done.
Qed.

Lemma one_interrupt_spec cac cic r rest :
  0 <= cac <= 4 -> 0 <= cic <= 4 -> fits (32 * cac) r.1.1.1 /\ fits (32 * cic) r.1.1.2 /\ fits 32 r.1.2 /\ fits 32 r.2 ->
  one_interrupt cac cic (enc_interrupt cac cic r ++ rest) = Done (map_entry r, rest).
Proof.
  destruct r as [[[ca ci] ph] pi]. intros Hc Hi (H1 & H2 & H3 & H4). unfold one_interrupt, enc_interrupt. rewrite <-!app_assoc.
  cbn [fst snd] in *. rewrite unpack_cells by done. cbn [obind fst snd]. rewrite unpack_cells by done. cbn [obind fst snd].
  rewrite (unpack_cells 1) by done. cbn [obind fst snd]. 
  change (unpack_reg (cells 1 pi ++ rest) 0) with (unpack_reg (cells 0 0 ++ cells 1 pi ++ rest) 0). rewrite (unpack_cells 0 0) by (unfold fits; lia).
  cbn [obind fst snd]. by rewrite (unpack_cells 1) by done.
Qed.

Lemma fill_loop_spec {X Y} (one : list Z -> outcome (X * list Z)) (e : Y -> list Z) (f : Y -> X) ys : forall cap acc,
  Forall (fun y => e y <> [] /\ forall rest, one (e y ++ rest) = Done (f y, rest)) ys -> (length ys <= cap)%nat ->
  fill_loop one cap (concat (e <$> ys)) acc = Done (acc ++ (f <$> ys)).
Proof.
  induction ys as [|y ys IH]; intros cap acc Hy Hc.
  - cbn [fmap list_fmap concat]. rewrite app_nil_r. by destruct cap.
  - apply Forall_cons in Hy as [[Hne Ho] Hy]. rewrite !fmap_cons, concat_cons. cbn [length] in Hc. destruct cap as [|cap]; [lia|].
    cbn [fill_loop]. rewrite decide_False by (by destruct (e y)). rewrite Ho. cbn [obind fst snd].
    rewrite IH by (done || lia). by rewrite <-app_assoc.
Qed.

Lemma split_at_app c rest : Forall (fun x => x <> 0) c -> split_at 0 (c ++ [0] ++ rest) = c :: split_at 0 rest.
Proof.
  induction 1 as [|x c Hx _ IH]; cbn [app split_at]; [by rewrite decide_True|]. rewrite decide_False by done.
  cbn [app] in IH. by rewrite IH.
Qed.

Lemma compatible_of_spec l :
  Forall (Forall (fun c => c <> 0)) l -> (length l <= 7)%nat -> compatible_of (concat ((.++ [0]) <$> l)) = Done l.
Proof.
  intros Hl H7. unfold compatible_of. assert (split_at 0 (concat ((.++ [0]) <$> l)) = l ++ [[]]) as ->.
  { clear H7. induction Hl as [|c l Hc _ IH]; [done|]. rewrite fmap_cons, concat_cons, <-app_assoc, split_at_app by done. by rewrite IH. }
  rewrite length_app, decide_True by (cbn; lia). cbn [length]. rewrite Nat.add_sub. by rewrite take_app_length.
Qed.

(** ** One device *)

(** Decides a comparison of two literals. *)
Ltac compare_names := match goal with |- context [decide (str ?a = str ?b)] =>
  first [rewrite (decide_True (P := str a = str b)) by reflexivity
        |rewrite (decide_False (P := str a = str b)) by (vm_compute; discriminate)] end.

Lemma raw_loop_cons p ps r : raw_loop (p :: ps) r = obind (raw_step p r) (raw_loop ps).
Proof. done. Qed.

Lemma device_props_raw ac sc x :
  fits 32 (x_cac x) -> fits 32 (x_cic x) ->
  raw_loop (device_props ac sc x) (mkRaw [] [] [] [] 0 0) =
    Done (mkRaw (concat ((.++ [0]) <$> x_compatible x)) (concat (enc_interrupt (x_cac x) (x_cic x) <$> x_map x))
      (concat (enc_range (x_cac x) ac sc <$> x_ranges x)) (concat (enc_reg ac sc <$> x_regs x)) (x_cac x) (x_cic x)).
Proof.
  intros Hc Hi. unfold device_props.
  do 7 (rewrite raw_loop_cons; unfold raw_step; cbn [p_name p_value]; repeat compare_names; rewrite ?cell_value_cells by done;
    cbn [obind raw_compatible raw_interrupt_map raw_ranges raw_reg child_address_cells child_interrupt_cells]).
  done.
Qed.

Lemma mask_of_spec ac sc x :
  0 <= x_cac x <= 4 -> 0 <= x_cic x <= 4 -> fits (32 * x_cac x) (x_mask x).1 -> fits (32 * x_cic x) (x_mask x).2 ->
  mask_of (device_props ac sc x) (x_cac x) (x_cic x) (map_entry <$> x_map x) =
    Done (if decide (x_map x = []) then (0, 0) else x_mask x).
Proof.
  intros Hc Hi H1 H2. unfold mask_of. destruct (x_map x) as [|r l] eqn:E; [by rewrite !decide_True|].
  rewrite !decide_False by done. set (m := mkProperty (str "interrupt-map-mask") (cells (x_cac x) (x_mask x).1 ++ cells (x_cic x) (x_mask x).2)).
  assert (snd <$> list_find (fun p => p_name p = str "interrupt-map-mask") (device_props ac sc x) = Some m) as ->.
  { unfold device_props. cbn [list_find p_name].
    repeat compare_names. done. }
  cbn [expect obind p_value m]. rewrite unpack_cells by done. cbn [obind fst snd].
  rewrite <-(app_nil_r (cells (x_cic x) _)), unpack_cells by done. cbn [obind fst snd]. rewrite decide_True by done. by destruct (x_mask x).
Qed.

Section soc.
Context (ac sc : Z) (Hac : 0 <= ac <= 4) (Hsc : 0 <= sc <= 4) (Hpos : 0 < ac + sc).

Lemma cells_nonempty c v l : 0 < c -> cells c v ++ l <> [].
Proof. intros Hc E. apply (f_equal zlen) in E. rewrite zlen_app, zlen_be_cells in E by lia. pose proof (zlen_nonneg l). rewrite zlen_nil in E. lia. Qed.

Lemma enc_reg_nonempty r : enc_reg ac sc r <> [].
Proof using Hac Hsc Hpos.
  intros E. apply (f_equal zlen) in E. unfold enc_reg in E. rewrite zlen_app, !zlen_be_cells, zlen_nil in E by lia. lia.
Qed.

Lemma enc_range_nonempty cac r : 0 <= cac -> enc_range cac ac sc r <> [].
Proof using Hac Hsc Hpos.
  intros Hc E. apply (f_equal zlen) in E. unfold enc_range in E. rewrite !zlen_app, !zlen_be_cells, zlen_nil in E by lia. lia.
Qed.

Lemma enc_interrupt_nonempty cac cic r : 0 <= cac -> 0 <= cic -> enc_interrupt cac cic r <> [].
Proof.
  intros Hc Hi E. apply (f_equal zlen) in E. unfold enc_interrupt in E. rewrite !zlen_app, !zlen_be_cells, zlen_nil in E by lia. lia.
Qed.

Lemma device_of_spec fuel d n x :
  desc_ok ac sc x -> Node_properties fuel d n = Done (device_props ac sc x) ->
  n_name n = x_name x -> address_cells n = ac -> size_cells n = sc ->
  device_of fuel d n = Done (device x).
Proof using Hac Hsc Hpos.
  intros [[Hc Hi] [Hr Hr8] [Hg Hg8] [Hm Hm32] [Hk1 Hk2] [Hp Hp7]] Ep En Ea Es. unfold device_of. rewrite Ep, En, Ea, Es. cbn [obind].
  rewrite device_props_raw by (unfold fits; lia). cbn [obind raw_reg raw_compatible raw_ranges raw_interrupt_map child_address_cells child_interrupt_cells].
  rewrite (fill_loop_spec _ _ id), list_fmap_id.
  2:{ eapply Forall_impl; [exact Hr|]. intros r Hf. split; [apply enc_reg_nonempty|]. intros rest. by apply one_reg_spec. }
  2: exact Hr8.
  cbn [obind app]. rewrite compatible_of_spec by done. cbn [obind]. rewrite (fill_loop_spec _ _ id), list_fmap_id.
  2:{ eapply Forall_impl; [exact Hg|]. intros r Hf. split; [apply enc_range_nonempty; lia|]. intros rest. by apply one_range_spec. }
  2: exact Hg8.
  cbn [obind app]. rewrite (fill_loop_spec _ _ map_entry).
  2:{ eapply Forall_impl; [exact Hm|]. intros r Hf. split; [apply enc_interrupt_nonempty; lia|]. intros rest. by apply one_interrupt_spec. }
  2: exact Hm32.
  cbn [obind app]. by rewrite mask_of_spec.
Qed.
End soc.

(** ** The whole tree *)

Lemma collect_Forall2 {X Y} (f : X -> outcome Y) xs ys : Forall2 (fun x y => f x = Done y) xs ys -> collect f xs = Done ys.
Proof. induction 1 as [|x y xs ys E _ IH]; [done|]. cbn. by rewrite E, IH. Qed.

Lemma collect_inv {X Y} (f : X -> outcome Y) xs : forall ys, collect f xs = Done ys -> Forall2 (fun x y => f x = Done y) xs ys.
Proof.
  induction xs as [|x xs IH]; intros ys; cbn; [intros [= <-]; by constructor|].
  destruct (f x) as [y| |] eqn:E; [|done..]. cbn. destruct (collect f xs) as [l| |]; [|done..]. cbn. intros [= <-]. by constructor; auto.
Qed.

Lemma reify_inv depth fuel d n name c ps kids :
  reify depth fuel d n = Done (CTree name c ps kids) ->
  n_name n = name /\ (address_cells n, size_cells n, interrupt_cells n) = c /\ Node_properties fuel d n = Done ps /\
  exists depth' ns, Node_children fuel d n = Done ns /\ Forall2 (fun n t => reify depth' fuel d n = Done t) ns kids.
Proof.
  destruct depth as [|depth]; [done|]. cbn [reify]. destruct (Node_properties fuel d n) as [ps'| |]; [|done..]. cbn [obind].
  destruct (Node_children fuel d n) as [ns| |]; [|done..]. cbn [obind].
  destruct (collect (reify depth fuel d) ns) as [ts| |] eqn:E; [|done..]. cbn [obind]. intros [= <- <- <- <-].
  split_and!; try done. exists depth, ns. split; [done|]. by apply collect_inv.
Qed.

(** The arguments have room in the arrays of [main]. *)
Definition args_fit (dev : Device) : Prop :=
  (sum_list (arg_bytes <$> device_args dev) <= 4096)%nat /\ (length (concat (arg_text <$> device_args dev)) <= 128)%nat.

Lemma fits_cells c v : 0 <= c <= 4 -> fits (32 * c) v -> fits 128 v.
Proof. intros Hc [H1 H2]. split; [done|]. assert (2 ^ (32 * c) <= 2 ^ 128) by (apply Z.pow_le_mono_r; lia). lia. Qed.

Lemma device_args_struct ac sc x : 0 <= ac <= 4 -> 0 <= sc <= 4 -> desc_ok ac sc x -> Forall is_struct (device_args (device x)).
Proof.
  intros Ha Hs [[Hc Hi] [Hr _] [Hg _] [Hm _] [Hk1 Hk2] _]. unfold device_args. cbn [device dev_reg dev_ranges dev_interrupt_map dev_interrupt_map_mask].
  rewrite !Forall_app, !Forall_fmap. split_and!.
  - eapply Forall_impl; [exact Hr|]. intros [a s] [H1 H2]. cbn in *. repeat apply Forall_cons_2; eauto using fits_cells.
  - eapply Forall_impl; [exact Hg|]. intros [[c a] s] (H1 & H2 & H3). cbn in *. repeat apply Forall_cons_2; eauto using fits_cells.
  - eapply Forall_impl; [exact Hm|]. intros [[[ca ci] ph] pi] (H1 & H2 & H3 & H4). cbn in *.
    repeat apply Forall_cons_2; eauto using fits_cells; try (apply (fits_cells 1); [lia|done]); unfold fits; lia.
  - case_decide as H; [by apply Forall_nil_2|]. rewrite decide_False by (intros E; apply H; by rewrite E).
    apply Forall_singleton. cbn. repeat apply Forall_cons_2; eauto using fits_cells.
Qed.

Lemma collect_app {X Y} (f : X -> outcome Y) l1 l2 r1 r2 :
  collect f l1 = Done r1 -> collect f l2 = Done r2 -> collect f (l1 ++ l2) = Done (r1 ++ r2).
Proof. intros E1%collect_inv E2%collect_inv. apply collect_Forall2. by apply Forall2_app. Qed.

Definition tree_name (t : tree) : list Z := match t with Tree name _ _ => name end.

Definition soc_nodes (fuel : nat) (d : list Z) (n : Node) : outcome (list Device) :=
  if decide (n_name n = str "soc") then let! kids := Node_children fuel d n in collect (device_of fuel d) kids else Done [].

Lemma other_nodes depth fuel d c ts ns :
  Forall2 (fun n t => reify depth fuel d n = Done t) ns (with_cells c <$> ts) -> Forall (fun t => tree_name t <> str "soc") ts ->
  exists l, collect (soc_nodes fuel d) ns = Done l /\ concat l = [].
Proof.
  revert ns. induction ts as [|[name props kids] ts IH]; intros ns HF Hn; inversion HF as [|n t ns' ts' Hr HF']; subst; [by exists []|].
  apply Forall_cons in Hn as [Hn1 Hn]. destruct (IH ns' HF' Hn) as (l & El & Ec). exists ([] :: l).
  cbn [with_cells] in Hr. apply reify_inv in Hr as (Ename & _). cbn [collect]. unfold soc_nodes at 1.
  rewrite decide_False by (by rewrite Ename). cbn [obind]. by rewrite El.
Qed.

Lemma soc_devices depth fuel d ac sc ic socprops descs n :
  0 <= ac <= 4 -> 0 <= sc <= 4 -> 0 < ac + sc -> Forall (desc_ok ac sc) descs ->
  last_cell (str "#address-cells") 2 socprops = ac -> last_cell (str "#size-cells") 1 socprops = sc ->
  reify depth fuel d n = Done (with_cells ic (Tree (str "soc") socprops (device_node ac sc <$> descs))) ->
  soc_nodes fuel d n = Done (device <$> descs).
Proof.
  intros Ha Hs Hp Hd Ea Es Hr. cbn [with_cells] in Hr. apply reify_inv in Hr as (Ename & _ & _ & depth' & ns & Ens & HF).
  unfold soc_nodes. rewrite decide_True, Ens by done. cbn [obind]. apply collect_Forall2. rewrite Ea, Es in HF.
  rewrite !Forall2_fmap_r in HF. rewrite Forall2_fmap_r. apply (Forall2_impl (fun n x => desc_ok ac sc x /\
    reify depth' fuel d n = Done (with_cells (ac, sc, last_cell (str "#interrupt-cells") 0 socprops) (device_node ac sc x)))).
  { clear Ens. revert ns HF. induction Hd as [|x l Hx _ IH]; intros ns HF; inversion HF; subst; constructor; auto. }
  intros n' x [Hx Hn]. apply reify_inv in Hn as (E1 & E2 & E3 & _). injection E2 as E2 E4 _. by apply (device_of_spec ac sc).
Qed.

(** C14: End to end.  Take a device tree whose node [soc] describes devices: registers, address ranges
    and interrupt maps in cells of the sizes the tree gives.  The first program finds exactly these devices.
    When it has a driver for one, and the arguments fit its arrays, the driver reads from its arguments the
    registers, ranges, interrupt map and mask the tree describes. *)
Theorem init_passes_resources off_of s rootprops pre socprops descs post ac sc fuel :
  let t := Tree [] rootprops (pre ++ Tree (str "soc") socprops (device_node ac sc <$> descs) :: post) in
  tree_ok s off_of t -> 60 + zlen (enc off_of t) + zlen s < 2 ^ 32 -> (need t <= fuel)%nat ->
  Forall (fun t => tree_name t <> str "soc") (pre ++ post) ->
  0 <= ac <= 4 -> 0 <= sc <= 4 -> 0 < ac + sc ->
  last_cell (str "#address-cells") 2 socprops = ac -> last_cell (str "#size-cells") 1 socprops = sc ->
  Forall (desc_ok ac sc) descs ->
  iter_devices fuel (make_dtb off_of s t) = Done (device <$> descs) /\
  forall x b bins1 bins2, x ∈ descs -> args_fit (device x) -> from_utf8 (dev_name (device x)) = Ok tt ->
    Forall (fun b => bin_compatible b ∉ x_compatible x) bins1 -> bin_compatible b ∈ x_compatible x ->
    exists args, driver_for (bins1 ++ b :: bins2) (device x) = Done (Some (b, args)) /\
      parse_args all_features (fun _ => 0%nat) args = Done (device_args (device x), Ok tt).
Proof.
  intros t Hok Hsz Hf Hn Ha Hs Hp Ea Es Hd. split.
  - destruct (make_dtb_root off_of s t fuel Hok Hsz Hf) as (n & Er & Hr). unfold iter_devices. rewrite make_dtb_parse, Er by done. cbn [obind].
    cbn [with_cells t] in Hr. apply reify_inv in Hr as (_ & _ & _ & depth & ns & Ens & HF). rewrite Ens. cbn [obind].
    rewrite fmap_app, fmap_cons in HF. apply Forall2_app_inv_r in HF as (n1 & n2 & F1 & F2 & ->).
    inversion F2 as [|n' k n3 ks Hr' F3]; subst. apply Forall_app in Hn as [Hn1 Hn2].
    destruct (other_nodes _ _ _ _ _ _ F1 Hn1) as (l1 & E1 & C1). destruct (other_nodes _ _ _ _ _ _ F3 Hn2) as (l3 & E3 & C3).
    apply (soc_devices _ _ _ _ _ _ _ _ _ Ha Hs Hp Hd eq_refl eq_refl) in Hr'.
    assert (collect (soc_nodes fuel (make_dtb off_of s t)) (n1 ++ n' :: n3) = Done (l1 ++ (device <$> descs) :: l3)) as E.
    { apply collect_app; [done|]. cbn [collect]. rewrite Hr'. cbn [obind]. by rewrite E3. }
    unfold soc_nodes in E. rewrite E. cbn [obind]. by rewrite concat_app, C1, concat_cons, C3, app_nil_r.
  - intros x b bins1 bins2 Hx [Hb Hl] Hu Hb1 Hb2. rewrite Forall_forall in Hd. pose proof (Hd x Hx) as Hdx.
    pose proof (device_args_struct ac sc x Ha Hs Hdx) as Hst. eexists. split.
    + unfold driver_for. rewrite (list_find_app_r _ bins1) by (apply list_find_None; exact Hb1). cbn [list_find].
      rewrite decide_True by done. cbn [fmap option_fmap option_map snd]. rewrite Hu.
      rewrite push_args_spec by (done || rewrite length_replicate; lia). done.
    + apply parse_args_loop_spec; [done| |cbn; lia]. eapply Forall_impl; [exact Hst|]. by intros [].
Qed.

(** ** A small example *)

Definition ex_names : list (list Z) :=
  str <$> ["compatible"; "#address-cells"; "#interrupt-cells"; "reg"; "ranges"; "interrupt-map"; "interrupt-map-mask"]%string.

Definition ex_strings : list Z := concat ((.++ [0]) <$> ex_names).

(** The position of a name in the block of strings. *)
Fixpoint ex_offset_in (l : list (list Z)) (name : list Z) : Z :=
  match l with [] => 0 | x :: l => if decide (x = name) then 0 else zlen x + 1 + ex_offset_in l name end.

Definition ex_offset (name : list Z) : Z := ex_offset_in ex_names name.

Definition ex_desc : Desc :=
  mkDesc (str "pci@30000000") [str "pci-host-ecam-generic"] 3 1 [(0x30000000, 0x10000000)]
    [(0x01000000 * 2 ^ 64, 0x3000000, 0x10000)] [(0, 1, 3, 32); (0x800 * 2 ^ 64, 1, 3, 33)] (0x1800 * 2 ^ 64, 7).

Definition ex_socprops : list Property := [mkProperty (str "#address-cells") (cells 1 2)].

Definition ex_tree : tree :=
  Tree [] [] [Tree (str "cpus") [] []; Tree (str "soc") ex_socprops (device_node 2 1 <$> [ex_desc])].

Lemma ex_prop_ok p : p_name p ∈ ex_names -> (p_name p ∈ cells_names -> zlen (p_value p) = 4) -> prop_ok ex_strings ex_offset p.
Proof.
  intros Hn Hc. split; [|split; [|done]].
  - revert Hn. generalize (p_name p). apply Forall_forall. repeat apply Forall_cons_2; try apply Forall_nil_2; by vm_compute.
  - revert Hn. generalize (p_name p). apply Forall_forall. repeat apply Forall_cons_2; try apply Forall_nil_2; by vm_compute.
Qed.

Lemma ex_tree_ok : tree_ok ex_strings ex_offset ex_tree.
Proof.
  assert (forall p, bool_decide (p_name p ∈ ex_names) = true ->
    bool_decide (p_name p ∈ cells_names -> zlen (p_value p) = 4) = true -> prop_ok ex_strings ex_offset p) as H.
  { intros p H1%bool_decide_eq_true H2%bool_decide_eq_true. by apply ex_prop_ok. }
  cbn [ex_tree tree_ok foldr fmap list_fmap device_node].
  split_and!; try done; try (apply (bool_decide_unpack _); by vm_compute);
    repeat apply Forall_cons_2; try apply Forall_nil_2; apply H; by vm_compute.
Qed.

Lemma ex_desc_ok : desc_ok 2 1 ex_desc.
Proof.
  split; cbn [ex_desc x_cac x_cic x_regs x_ranges x_map x_mask x_compatible];
    (split; [|first [done|cbn; lia|unfold fits; cbn; lia]]); try lia; try (unfold fits; cbn; lia).
  - repeat apply Forall_cons_2; try apply Forall_nil_2; unfold fits; cbn; lia.
  - repeat apply Forall_cons_2; try apply Forall_nil_2; unfold fits; cbn; lia.
  - repeat apply Forall_cons_2; try apply Forall_nil_2; unfold fits; cbn; lia.
  - apply (bool_decide_unpack _). by vm_compute.
Qed.

Lemma init_passes_resources_witness :
  iter_devices 60 (make_dtb ex_offset ex_strings ex_tree) = Done [device ex_desc] /\
  exists args, driver_for [mkBinary (str "uart") (str "ns16550a"); mkBinary (str "pci") (str "pci-host-ecam-generic")] (device ex_desc) =
      Done (Some (mkBinary (str "pci") (str "pci-host-ecam-generic"), args)) /\
    parse_args all_features (fun _ => 0%nat) args =
      Done ([Reg 0x30000000 0x10000000; Range (0x01000000 * 2 ^ 64) 0x3000000 0x10000; InterruptMap 0 1 3 0 32;
             InterruptMap (0x800 * 2 ^ 64) 1 3 0 33; InterruptMapMask (0x1800 * 2 ^ 64) 7], Ok tt).
Proof.
  destruct (init_passes_resources ex_offset ex_strings [] [Tree (str "cpus") [] []] ex_socprops [ex_desc] [] 2 1 60) as [H1 H2].
  - exact ex_tree_ok.
  - by vm_compute.
  - apply Nat.leb_le. by vm_compute.
  - apply Forall_singleton. by vm_compute.
  - lia.
  - lia.
  - lia.
  - done.
  - done.
  - apply Forall_singleton, ex_desc_ok.
  - split; [exact H1|].
    apply (H2 ex_desc (mkBinary (str "pci") (str "pci-host-ecam-generic")) [mkBinary (str "uart") (str "ns16550a")] []).
    + by apply list_elem_of_singleton.
    + split; apply Nat.leb_le; by vm_compute.
    + by vm_compute.
    + apply Forall_singleton. cbn [bin_compatible x_compatible ex_desc]. rewrite list_elem_of_singleton. vm_compute. discriminate.
    + by apply list_elem_of_singleton.
Defined.
