(* ===== verification/KernelTree.v ===== *)
(** * The kernel's device tree reader

    src/kernel/src/driver/device_tree.rs reads the device tree as a stream of tokens:
    a node has to be read, or dropped, before the one behind it is reached.
    [main] (src/kernel/src/main.rs) uses it to look for memory, reserved areas and boot
    options.

    The stream gives the same tree as the library of DeviceTree.v, which reads the
    tree by position; and dropping a node in any state leaves the stream behind that
    node, so that [main] sees what the tree says.

    The source reads from a pointer without a length.  The model stops at a read
    outside of the data. *)

From S2P Require Import Prelude Bytes Utf8 DeviceTree.

(** ** Interpreter *)

(** [pc] counts words from the header. *)
Record Interpreter := mkInterpreter { pc : Z; node_count : Z; finished : bool }.

Inductive NodeState := Properties | ChildNodes | Empty_.

Record KNode := mkKNode { k_name : list Z; state : NodeState }.

Inductive ParseDTBError := KBadMagic (magic : Z).

Section reader.
Context (d : list Z).

Definition outside {S X} : M S X := panic "read outside of the device tree".

Definition parse_dtb : result unit ParseDTBError :=
  if decide (field d magic_at <> MAGIC) then Err (KBadMagic (field d magic_at)) else Ok tt.

(** [interpreter]; a block that is not aligned for its words is undefined. *)
Definition interpreter : outcome Interpreter :=
  let o := field d offset_structure_block_at in
  if decide (o mod 4 = 0) then Done (mkInterpreter (o / 4) 0 false) else Panicked "structure block is not aligned".

(** [util::cstr_to_str] with [expect]. *)
Definition kcstr {S} (p : Z) (why : string) : M S (list Z) :=
  match cstr_to_str (drop (Z.to_nat p) d) with
  | None => outside
  | Some s => match from_utf8 s with Ok _ => ret s | Err _ => panic why end
  end.

(** [StringsBlock::get] *)
Definition kstrings_get {S} (offset : Z) : M S (list Z) :=
  kcstr (field d offset_strings_block_at + offset) "String isn't valid UTF-8".

Definition current : M Interpreter Z :=
  let* i := get in match dt_get d (pc i) with Some tk => ret tk | None => outside end.

Definition advance (steps : Z) : M Interpreter unit :=
  modify (fun i => mkInterpreter (pc i + steps) (node_count i) (finished i)).

Definition rewind (steps : Z) : M Interpreter unit :=
  modify (fun i => mkInterpreter (pc i - steps) (node_count i) (finished i)).

Definition step : M Interpreter Z := let* tk := current in advance 1 ;; ret tk.

Definition count_node : M Interpreter unit :=
  modify (fun i => mkInterpreter (pc i) (wrap 64 (node_count i + 1)) (finished i)).

Definition set_finished : M Interpreter unit :=
  modify (fun i => mkInterpreter (pc i) (node_count i) true).

(** The fuel bounds the tokens [NOP] skipped. *)
Fixpoint step_node (fuel : nat) : M Interpreter (option KNode) :=
  match fuel with
  | O => fun _ => OutOfFuel
  | S fuel =>
    let* tk := step in
    if decide (tk = TOKEN_BEGIN_NODE) then
      let* i := get in
      let* name := kcstr (4 * pc i) "Invalid UTF-8 node name" in
      let align := wrap 32 (wrap 32 (zlen name) + 1) in
      let align := Z.ldiff (wrap 32 (align + 3)) 3 in
      advance (align / 4) ;;
      ret (Some (mkKNode name Properties))
    else if decide (tk = TOKEN_END_NODE) then count_node ;; ret None
    else if decide (tk = TOKEN_PROP) then panic "Unexpected TOKEN_PROP"
    else if decide (tk = TOKEN_NOP) then step_node fuel
    else if decide (tk = TOKEN_END) then set_finished ;; ret None
    else panic "Invalid token in DTB"
  end.

Fixpoint step_property (fuel : nat) : M Interpreter (option Property) :=
  match fuel with
  | O => fun _ => OutOfFuel
  | S fuel =>
    let* tk := step in
    if decide (tk = TOKEN_BEGIN_NODE) then rewind 1 ;; ret None
    else if decide (tk = TOKEN_END_NODE) then rewind 1 ;; ret None
    else if decide (tk = TOKEN_PROP) then
      let* len := step in
      let* name := step in
      let* name := kstrings_get name in
      let* i := get in
      let* value := match slice d (4 * pc i) len with Some v => ret v | None => outside end in
      let align := Z.ldiff (wrap 32 (len + 3)) 3 in
      advance (align / 4) ;;
      ret (Some (mkProperty name value))
    else if decide (tk = TOKEN_NOP) then step_property fuel
    else if decide (tk = TOKEN_END) then set_finished ;; ret None
    else panic "Invalid token in DTB"
  end.

(** [finish]; the fuel bounds the words. *)
Fixpoint finish (fuel : nat) : M Interpreter unit :=
  let* i := get in
  if finished i then ret tt else
  match fuel with
  | O => fun _ => OutOfFuel
  | S fuel =>
    let* tk := step in
    (if decide (tk = TOKEN_END_NODE) then count_node else if decide (tk = TOKEN_END) then set_finished else ret tt) ;;
    finish fuel
  end.

(** ** Nodes *)

Definition next_property (fuel : nat) (n : KNode) : M Interpreter (option Property * KNode) :=
  match state n with
  | Properties =>
    let* p := step_property fuel in
    match p with
    | Some p => ret (Some p, n)
    | None => ret (None, mkKNode (k_name n) ChildNodes)
    end
  | _ => ret (None, n)
  end.

Definition next_child_node (fuel : nat) (n : KNode) : M Interpreter (option KNode * KNode) :=
  match state n with
  | ChildNodes =>
    let* c := step_node fuel in
    match c with
    | Some c => ret (Some c, n)
    | None => ret (None, mkKNode (k_name n) Empty_)
    end
  | _ => ret (None, n)
  end.

(** [while let Some(p) = node.next_property()] with a body on some other state. *)
Fixpoint each_property {X} (fuel : nat) (body : Property -> X -> outcome X) (n : KNode) (x : X) : M Interpreter (X * KNode) :=
  match fuel with
  | O => fun _ => OutOfFuel
  | S fuel =>
    let* r := next_property fuel n in
    match r with
    | (None, n) => ret (x, n)
    | (Some p, n) => let* x := (fun i => let! x := body p x in Done (x, i)) in each_property fuel body n x
    end
  end.

(** [while let Some(c) = node.next_child_node()]; [body] ends with the drop of the child. *)
Fixpoint each_child {X} (fuel : nat) (body : KNode -> X -> M Interpreter X) (n : KNode) (x : X) : M Interpreter (X * KNode) :=
  match fuel with
  | O => fun _ => OutOfFuel
  | S fuel =>
    let* r := next_child_node fuel n in
    match r with
    | (None, n) => ret (x, n)
    | (Some c, n) => let* x := body c x in each_child fuel body n x
    end
  end.

(** [Node::drop]; children are dropped in turn. *)
Fixpoint drop_node (fuel : nat) (n : KNode) : M Interpreter unit :=
  match fuel with
  | O => fun _ => OutOfFuel
  | S fuel =>
    let* r := each_property fuel (fun _ x => Done x) n tt in
    each_child fuel (fun c _ => drop_node fuel c) r.2 tt ;;
    ret tt
  end.
End reader.

(** [print_node] of [dump_dtb], with what it prints as a tree.  The node is dropped at the
    end. *)
Fixpoint print_node (d : list Z) (fuel : nat) (n : KNode) : M Interpreter tree :=
  match fuel with
  | O => fun _ => OutOfFuel
  | S fuel =>
    let* ps := each_property d fuel (fun p l => Done (l ++ [p])) n [] in
    let* ks := each_child d fuel (fun c l => let* t := print_node d fuel c in ret (l ++ [t])) ps.2 [] in
    drop_node d fuel ks.2 ;;
    ret (Tree (k_name n) ps.1 ks.1)
  end.

(** [while let Some(node) = interpreter.next_node()] *)
Fixpoint dump_nodes (d : list Z) (fuel : nat) : M Interpreter (list tree) :=
  match fuel with
  | O => fun _ => OutOfFuel
  | S fuel =>
    let* n := step_node d fuel in
    match n with
    | None => ret []
    | Some n => let* t := print_node d fuel n in let* l := dump_nodes d fuel in ret (t :: l)
    end
  end.

(** [dump_dtb]: the reserved regions and the trees. *)
Definition dump_dtb (d : list Z) (fuel : nat) : outcome (list (Z * Z) * list tree) :=
  let! rs := reserved_memory_regions fuel d (field d offset_memory_reservation_block_at) in
  let! i := interpreter d in
  let! r := dump_nodes d fuel i in
  Done (rs, r.1).

(** ** What [main] looks for *)

(** The variables of [main].  [reserved_memory] is an array of sixteen. *)
Record Boot := mkBoot {
  heap : option (Z * Z); reserved_memory : list (Z * Z); boot_args : list Z; stdout : list Z
}.

(** The properties of the root: address cells, size cells and model. *)
Definition root_property (p : Property) (x : option Z * option Z * list Z) : outcome (option Z * option Z * list Z) :=
  let '(ac, sc, model) := x in
  if decide (p_name p = str "#address-cells") then let! c := cell_value (p_value p) in Done (Some c, sc, model)
  else if decide (p_name p = str "#size-cells") then let! c := cell_value (p_value p) in Done (ac, Some c, model)
  else if decide (p_name p = str "model") then
    match from_utf8 (p_value p) with Ok _ => Done (ac, sc, p_value p) | Err _ => Done x end
  else Done x.

Definition not_exact {X} : outcome X := Panicked "called `Result::unwrap()` on an `Err` value".

(** The address at the front of a value, and the rest. *)
Definition reg_start (address_cells : Z) (val : list Z) : outcome (Z * list Z) :=
  if decide (address_cells = 0) then Done (0, val)
  else if decide (address_cells = 1) then
    match slice val 0 4 with Some b => Done (be_combine b, drop 4 val) | None => Panicked "range end index out of range for slice" end
  else if decide (address_cells = 2) then
    match slice val 0 8 with Some b => Done (be_combine b, drop 8 val) | None => Panicked "range end index out of range for slice" end
  else Panicked "Unsupported address size".

(** The size, which has to be all that is left. *)
Definition reg_size (size_cells : Z) (val : list Z) : outcome Z :=
  if decide (size_cells = 0) then Done 0
  else if decide (size_cells = 1) then (if decide (zlen val = 4) then Done (be_combine val) else not_exact)
  else if decide (size_cells = 2) then (if decide (zlen val = 8) then Done (be_combine val) else not_exact)
  else Panicked "Unsupported size size".

Definition reg_of (address_cells size_cells : Z) (val : list Z) : outcome (Z * Z) :=
  let! s := reg_start address_cells val in
  let! size := reg_size size_cells s.2 in
  Done (s.1, size).

Definition cells_property (p : Property) (x : Z * Z) : outcome (Z * Z) :=
  if decide (p_name p = str "#address-cells") then let! c := cell_value (p_value p) in Done (c, x.2)
  else if decide (p_name p = str "#size-cells") then let! c := cell_value (p_value p) in Done (x.1, c)
  else Done x.

(** An area below [reserved-memory]: first and last address, at index [rm_i]. *)
Definition reserved_property (cells : Z * Z) (p : Property) (x : Z * list (Z * Z)) : outcome (Z * list (Z * Z)) :=
  if decide (p_name p = str "reg") then
    let! r := reg_of cells.1 cells.2 (p_value p) in
    if decide (x.1 < zlen x.2) then
      Done (x.1 + 1, set_z x.2 x.1 (r.1, wrap 64 (r.1 + r.2 - 1)))
    else Panicked "index out of bounds"
  else Done x.

(** The memory behind the kernel. *)
Definition heap_of (kernel_start kernel_end start size : Z) : outcome (Z * Z) :=
  let start := wrap 64 (start + (if decide (start = 0) then 8 else 0)) in
  let page_mask := 4096 - 1 in
  let end_ := wrap 64 (start + size) in
  let! r :=
    if decide ((start < kernel_start /\ end_ < kernel_start) \/ (start >= kernel_end /\ end_ >= kernel_end)) then Done (start, end_)
    else if decide (start >= kernel_start /\ end_ >= kernel_end) then
      let delta := wrap 64 (kernel_end - start) in
      Done (Z.ldiff (wrap 64 (start + delta + page_mask)) page_mask, end_)
    else Panicked "not implemented" in
  if decide (r.1 = 0) then Panicked "called `Option::unwrap()` on a `None` value" else Done (r.1, wrap 64 (r.2 - r.1)).

Definition memory_property (kernel : Z * Z) (cells : Z * Z) (p : Property) (h : option (Z * Z)) : outcome (option (Z * Z)) :=
  if decide (p_name p = str "reg") then
    let! r := reg_of cells.1 cells.2 (p_value p) in
    let! h := heap_of kernel.1 kernel.2 r.1 r.2 in
    Done (Some h)
  else Done h.

Definition chosen_property (p : Property) (x : list Z * list Z) : outcome (list Z * list Z) :=
  match from_utf8 (p_value p) with
  | Err _ => Done x
  | Ok _ =>
    if decide (p_name p = str "bootargs") then Done (p_value p, x.2)
    else if decide (p_name p = str "stdout-path") then Done (x.1, p_value p)
    else Done x
  end.

Definition starts_with (prefix name : list Z) : bool := bool_decide (take (length prefix) name = prefix).

Section main.
Context (d : list Z) (kernel : Z * Z) (fuel : nat).

Definition lift {S X} (o : outcome X) : M S X := fun s => let! x := o in Done (x, s).

(** The body for a child of the root.  The child is dropped at the end. *)
Definition boot_child (cells : Z * Z) (n : KNode) (b : Boot) : M Interpreter Boot :=
  let* r :=
    if starts_with (str "reserved-memory") (k_name n) then
      let* c := each_property d fuel cells_property n cells in
      let* r := each_child d fuel (fun n x =>
        let* r := each_property d fuel (reserved_property c.1) n x in
        drop_node d fuel r.2 ;; ret r.1) c.2 (0, reserved_memory b) in
      ret (mkBoot (heap b) r.1.2 (boot_args b) (stdout b), r.2)
    else if bool_decide (heap b = None) && starts_with (str "memory@") (k_name n) then
      let* r := each_property d fuel (memory_property kernel cells) n (heap b) in
      ret (mkBoot r.1 (reserved_memory b) (boot_args b) (stdout b), r.2)
    else if starts_with (str "chosen") (k_name n) then
      let* r := each_property d fuel chosen_property n (boot_args b, stdout b) in
      ret (mkBoot (heap b) (reserved_memory b) r.1.1 r.1.2, r.2)
    else ret (b, n) in
  drop_node d fuel r.2 ;;
  ret r.1.

Definition expect_cells (c : option Z) : outcome Z :=
  match c with Some c => Done c | None => Panicked "Address cells isn't set" end.

Definition no_boot : Boot := mkBoot None (replicate 16 (0, 0)) [] [].

(** From [parse_dtb] to [interpreter.finish()]: the model and what was found. *)
Definition boot_scan : outcome (list Z * Boot) :=
  match parse_dtb d with
  | Err _ => Panicked "called `Result::unwrap()` on an `Err` value"
  | Ok _ =>
    let! i := interpreter d in
    let! r := (
      let* root := step_node d fuel in
      match root with
      | None => panic "No root node"
      | Some root =>
        let* r := each_property d fuel root_property root (None, None, []) in
        let '(ac, sc, model, root) := r in
        let* ac := lift (expect_cells ac) in
        let* sc := lift (expect_cells sc) in
        lift (reserved_memory_regions fuel d (field d offset_memory_reservation_block_at)) ;;
        let* b := each_child d fuel (boot_child (ac, sc)) root no_boot in
        drop_node d fuel b.2 ;;
        finish d fuel ;;
        ret (model, b.1)
      end) i in
    Done r.1
  end.
End main.

(** ** The same on a tree *)

Fixpoint fold_m {X Y} (body : Y -> X -> outcome X) (l : list Y) (x : X) : outcome X :=
  match l with [] => Done x | y :: l => let! x := body y x in fold_m body l x end.

Definition boot_child_tree (kernel cells : Z * Z) (t : tree) (b : Boot) : outcome Boot :=
  let '(Tree name props kids) := t in
  if starts_with (str "reserved-memory") name then
    let! c := fold_m cells_property props cells in
    let! r := fold_m (fun '(Tree _ ps _) x => fold_m (reserved_property c) ps x) kids (0, reserved_memory b) in
    Done (mkBoot (heap b) r.2 (boot_args b) (stdout b))
  else if bool_decide (heap b = None) && starts_with (str "memory@") name then
    let! h := fold_m (memory_property kernel cells) props (heap b) in
    Done (mkBoot h (reserved_memory b) (boot_args b) (stdout b))
  else if starts_with (str "chosen") name then
    let! r := fold_m chosen_property props (boot_args b, stdout b) in
    Done (mkBoot (heap b) (reserved_memory b) r.1 r.2)
  else Done b.

Definition boot_tree (kernel : Z * Z) (t : tree) : outcome (list Z * Boot) :=
  let '(Tree _ props kids) := t in
  let! r := fold_m root_property props (None, None, []) in
  let! ac := expect_cells r.1.1 in
  let! sc := expect_cells r.1.2 in
  let! b := fold_m (boot_child_tree kernel (ac, sc)) kids no_boot in
  Done (r.2, b).

(** Names that are text. *)
Fixpoint tree_text (t : tree) : Prop :=
  let '(Tree name props kids) := t in
  from_utf8 name = Ok tt /\ Forall (fun p => from_utf8 (p_name p) = Ok tt) props /\ foldr (fun t P => tree_text t /\ P) True kids.

(** ** Reading an encoded tree *)

Lemma ldiff_3 x : Z.ldiff x 3 / 4 = x / 4.
Proof.
  change 3 with (Z.ones 2). rewrite Z.ldiff_ones_r by lia. rewrite Z.shiftl_mul_pow2 by lia. change (2 ^ 2) with 4.
  rewrite Z.div_mul by lia. by rewrite Z.shiftr_div_pow2.
Qed.

Lemma cstr_to_str_app l r name : cstr_to_str l = Some name -> cstr_to_str (l ++ r) = Some name.
Proof.
  revert name. induction l as [|c l IH]; intros name; [done|]. cbn. case_decide; [done|].
  intros (n & Hn & ->)%fmap_Some. by rewrite (IH n Hn).
Qed.

(** [m] ends with the result [r], and the stream at [e]; panics are the same. *)
Definition runs {X} (r : outcome X) (e : Z) (m : outcome (X * Interpreter)) : Prop :=
  match r with
  | Done x => exists c, m = Done (x, mkInterpreter e c false)
  | Panicked why => m = Panicked why
  | OutOfFuel => m = OutOfFuel
  end.

Section stream.
Context (d s : list Z) (off_of : list Z -> Z) (base : Z).
Context (Hd : zlen d <= 2 ^ 32) (Hbase : field d offset_strings_block_at = base) (Hs : has d base s).

Lemma step_spec o c v : dt_get d o = Some v -> step d (mkInterpreter o c false) = Done (v, mkInterpreter (o + 1) c false).
Proof. intros E. unfold step, current, bind, get, modify. cbn [pc]. by rewrite E. Qed.

Lemma kstrings_spec {St} off name (i : St) :
  strings_get s off = Some name -> 0 <= off -> from_utf8 name = Ok tt -> kstrings_get d off i = Done (name, i).
Proof using Hbase Hs.
  intros Hg Ho Hu. unfold kstrings_get, kcstr. rewrite Hbase. unfold strings_get in Hg. case_decide as Hle; [|done].
  pose proof (has_bound _ _ _ Hs) as [Hb _]. destruct (has_drop _ _ _ Hs) as [post Ep].
  rewrite Z2Nat.inj_add, <-drop_drop, Ep, drop_app_le by (unfold zlen in Hle; lia).
  by rewrite (cstr_to_str_app _ _ _ Hg), Hu.
Qed.

Lemma step_node_begin fuel o c name props kids :
  has d (4 * o) (enc off_of (Tree name props kids)) -> name_ok name -> from_utf8 name = Ok tt -> (0 < fuel)%nat ->
  step_node d fuel (mkInterpreter o c false) =
    Done (Some (mkKNode name Properties), mkInterpreter (o + 1 + name_words name) c false).
Proof using Hd.
  intros Hh Hn Hu Hf. destruct fuel as [|fuel]; [lia|]. pose proof (has_bound _ _ _ Hh) as Hb. destruct (has_node d off_of o name props kids Hh) as (H1 & H2 & _).
  cbn [step_node]. erewrite bind_done by (apply step_spec; by apply has_get). rewrite decide_True by done.
  erewrite bind_done by reflexivity. cbn [pc]. unfold kcstr. rewrite (has_cstr _ _ _ Hn H2), Hu.
  erewrite bind_done by reflexivity. erewrite bind_done by reflexivity. unfold ret. do 3 f_equal. cbn [pc].
  apply has_bound in H2. rewrite zlen_app in H2. change (zlen [0]) with 1 in H2. pose proof (zlen_nonneg name).
  rewrite ldiff_3, (wrap_small 32 (zlen name)), (wrap_small 32 (zlen name + 1)), (wrap_small 32 (zlen name + 1 + 3)) by (unfold fits; lia). done.
Qed.

Lemma step_node_end fuel o c :
  has d (4 * o) (be4 TOKEN_END_NODE) -> (0 < fuel)%nat ->
  step_node d fuel (mkInterpreter o c false) = Done (None, mkInterpreter (o + 1) (wrap 64 (c + 1)) false).
Proof.
  intros Hh Hf. destruct fuel as [|fuel]; [lia|]. cbn [step_node]. erewrite bind_done by (apply step_spec; by apply has_get).
  by rewrite decide_False, decide_True by done.
Qed.

Lemma step_property_spec fuel o c p :
  has d (4 * o) (enc_prop off_of p) -> prop_ok s off_of p -> from_utf8 (p_name p) = Ok tt -> (0 < fuel)%nat ->
  step_property d fuel (mkInterpreter o c false) =
    Done (Some p, mkInterpreter (o + 3 + words_for (zlen (p_value p))) c false).
Proof using Hd Hbase Hs.
  intros Hh Hp Hu Hf. destruct fuel as [|fuel]; [lia|]. destruct (has_prop d s off_of Hd o p Hh Hp) as (E0 & E1 & E2 & Ev & _). destruct Hp as (Hoff & Hg & _).
  cbn [step_property]. erewrite bind_done by (by apply step_spec). rewrite !decide_False, decide_True by done.
  erewrite bind_done by (by apply step_spec). rewrite <-Z.add_assoc. change (1 + 1) with 2. erewrite bind_done by (by apply step_spec).
  erewrite bind_done by (apply kstrings_spec; [exact Hg|lia|done]). erewrite bind_done by reflexivity. cbn [pc].
  replace (o + 2 + 1) with (o + 3) by lia. rewrite Ev. do 2 erewrite bind_done by reflexivity. unfold ret. do 3 f_equal; [by destruct p|].
  cbn [pc]. rewrite ldiff_3. unfold words_for. do 3 f_equal. lia.
Qed.

Lemma step_property_end fuel o c tk :
  dt_get d o = Some tk -> tk = TOKEN_BEGIN_NODE \/ tk = TOKEN_END_NODE -> (0 < fuel)%nat ->
  step_property d fuel (mkInterpreter o c false) = Done (None, mkInterpreter o c false).
Proof.
  intros E Ht Hf. destruct fuel as [|fuel]; [lia|]. cbn [step_property]. erewrite bind_done by (by apply step_spec).
  destruct Ht as [->| ->]; [rewrite decide_True by done|rewrite decide_False, decide_True by done];
    unfold bind, modify, ret; cbn; do 3 f_equal; lia.
Qed.

Lemma runs_bind {X Y} (r : outcome X) (k : X -> outcome Y) (e1 e2 : Z) (m : M Interpreter X) (km : X -> M Interpreter Y) i :
  runs r e1 (m i) -> (forall x c, r = Done x -> runs (k x) e2 (km x (mkInterpreter e1 c false))) ->
  runs (obind r k) e2 (bind m km i).
Proof.
  intros Hm Hk. unfold bind. destruct r as [x|why|]; cbn in *; [|by rewrite Hm..].
  destruct Hm as [c ->]. by apply Hk.
Qed.

Lemma each_property_spec {X} (body : Property -> X -> outcome X) name tk ps : forall fuel o c x,
  has d (4 * o) (concat (enc_prop off_of <$> ps)) -> Forall (prop_ok s off_of) ps ->
  Forall (fun p => from_utf8 (p_name p) = Ok tt) ps -> dt_get d (o + props_words off_of ps) = Some tk ->
  tk = TOKEN_BEGIN_NODE \/ tk = TOKEN_END_NODE -> (length ps + 2 <= fuel)%nat ->
  runs (let! x := fold_m body ps x in Done (x, mkKNode name ChildNodes)) (o + props_words off_of ps)
    (each_property d fuel body (mkKNode name Properties) x (mkInterpreter o c false)).
Proof using Hd Hbase Hs.
  induction ps as [|p ps IH]; intros fuel o c x Hh Hok Hu Hend Htk Hf; (destruct fuel as [|fuel]; [cbn in Hf; lia|]); cbn [length] in Hf;
    cbn [each_property]; unfold next_property; cbn [state].
  - change (props_words off_of []) with 0 in *. rewrite Z.add_0_r in *. unfold bind. rewrite (step_property_end fuel o c tk Hend Htk) by lia.
    cbn. by exists c.
  - apply Forall_cons in Hok as [Hp Hok]. apply Forall_cons in Hu as [Hpu Hu].
    destruct (has_props_cons d s off_of Hd o p ps Hh Hp) as [Hh' Ew]. rewrite fmap_cons, concat_cons in Hh. apply has_app in Hh as [H1 _].
    erewrite bind_done by (erewrite bind_done by (apply step_property_spec; [done..|lia]); reflexivity). cbv beta iota.
    cbn [fold_m]. unfold bind at 1. destruct (body p x) as [x'| |]; [|done..]. cbn [obind].
    rewrite Ew. replace (o + (3 + words_for (zlen (p_value p)) + props_words off_of ps))
      with (o + 3 + words_for (zlen (p_value p)) + props_words off_of ps) in * by lia.
    apply IH; try done; [|lia]. by rewrite Ew, !Z.add_assoc in Hend.
Qed.

Definition name_of (t : tree) : list Z := match t with Tree name _ _ => name end.

Definition first_of (t : tree) (o : Z) : Z := o + 1 + name_words (name_of t).

Lemma each_child_spec {X} (body : KNode -> X -> M Interpreter X) (g : tree -> X -> outcome X) name kids : forall fuel o c x,
  has d (4 * o) (concat (enc off_of <$> kids)) -> has d (4 * (o + kids_words off_of kids)) (be4 TOKEN_END_NODE) ->
  Forall (fun t => name_ok (name_of t) /\ from_utf8 (name_of t) = Ok tt /\ forall o c x, has d (4 * o) (enc off_of t) ->
    runs (g t x) (o + enc_words off_of t) (body (mkKNode (name_of t) Properties) x (mkInterpreter (first_of t o) c false))) kids ->
  (length kids + 2 <= fuel)%nat ->
  runs (let! x := fold_m g kids x in Done (x, mkKNode name Empty_)) (o + kids_words off_of kids + 1)
    (each_child d fuel body (mkKNode name ChildNodes) x (mkInterpreter o c false)).
Proof using Hd.
  induction kids as [|t kids IH]; intros fuel o c x Hh He Hk Hf; (destruct fuel as [|fuel]; [cbn in Hf; lia|]); cbn [length] in Hf;
    cbn [each_child]; unfold next_child_node; cbn [state].
  - change (kids_words off_of []) with 0 in *. rewrite Z.add_0_r in *. unfold bind. rewrite (step_node_end fuel o c He) by lia. cbn. by eexists.
  - apply Forall_cons in Hk as [(Hn & Hu & Hb) Hk]. rewrite fmap_cons, concat_cons in Hh. apply has_app in Hh as [H1 Hh].
    rewrite zlen_enc_words, <-Z.mul_add_distr_l in Hh. rewrite kids_words_cons, Z.add_assoc in He |- *.
    specialize (Hb o c x H1). unfold first_of in Hb. destruct t as [nm props ks]. cbn [name_of] in *.
    erewrite bind_done by (erewrite bind_done by (apply step_node_begin with (1 := H1); [done..|lia]); reflexivity). cbv beta iota. cbn [fold_m].
    unfold bind at 1. destruct (g (Tree nm props ks) x) as [x'|why|]; cbn [runs obind] in *; [|by rewrite Hb..].
    destruct Hb as [c' ->]. apply IH; [done..|lia].
Qed.

(** The parts of a tree below its name. *)
Lemma node_parts o name props kids :
  has d (4 * o) (enc off_of (Tree name props kids)) ->
  let p := first_of (Tree name props kids) o in
  let k := p + props_words off_of props in
  has d (4 * p) (concat (enc_prop off_of <$> props)) /\ has d (4 * k) (concat (enc off_of <$> kids)) /\
  has d (4 * (k + kids_words off_of kids)) (be4 TOKEN_END_NODE) /\
  (exists tk, dt_get d k = Some tk /\ (tk = TOKEN_BEGIN_NODE \/ tk = TOKEN_END_NODE)) /\
  k + kids_words off_of kids + 1 = o + enc_words off_of (Tree name props kids).
Proof.
  intros Hh. destruct (has_node d off_of o name props kids Hh) as (_ & _ & H3 & H4 & H5). unfold first_of. cbn [name_of].
  split_and!; [done..| |].
  - eexists. split; [exact (kids_token d off_of _ kids H4 H5)|]. destruct kids; auto.
  - rewrite enc_words_eq. lia.
Qed.

Definition readable (t : tree) : Prop := tree_ok s off_of t /\ tree_text t.

Lemma step_node_tree t fuel o c :
  has d (4 * o) (enc off_of t) -> readable t -> (0 < fuel)%nat ->
  step_node d fuel (mkInterpreter o c false) = Done (Some (mkKNode (name_of t) Properties), mkInterpreter (first_of t o) c false).
Proof using Hd. destruct t as [name props kids]. intros Hh [Ho Ht] Hf. apply (step_node_begin _ _ _ name props kids Hh); [apply Ho|apply Ht|done]. Qed.

Lemma readable_kids name props kids : readable (Tree name props kids) ->
  Forall (prop_ok s off_of) props /\ Forall (fun p => from_utf8 (p_name p) = Ok tt) props /\
  Forall (fun t => name_ok (name_of t) /\ from_utf8 (name_of t) = Ok tt /\ readable t) kids.
Proof.
  intros [(_ & Hp & Hk) (_ & Hu & Ht)]. split_and!; [done..|].
  revert Hk Ht. clear. induction kids as [|[nm ps ks] l IH]; intros Hk Ht; [by apply Forall_nil_2|].
  destruct Hk as [Hk1 Hk], Ht as [Ht1 Ht]. apply Forall_cons_2; [|by apply IH].
  split_and!; [apply Hk1|apply Ht1|split; done].
Qed.

Lemma drop_empty fuel name c o : (1 < fuel)%nat ->
  drop_node d fuel (mkKNode name Empty_) (mkInterpreter o c false) = Done (tt, mkInterpreter o c false).
Proof. intros Hf. destruct fuel as [|[|fuel]]; [lia..|]. done. Qed.

Lemma need_kid t kids : t ∈ kids -> (need t <= sum_list (need <$> kids))%nat.
Proof. induction 1 as [|x y l _ IH]; cbn; lia. Qed.

Lemma fold_unit {Y} (l : list Y) x : fold_m (fun _ (_ : unit) => Done tt) l x = Done tt.
Proof. by revert x; induction l as [|y l IH]; intros []; cbn. Qed.

Lemma fold_id {X Y} (l : list Y) (x : X) : fold_m (fun _ x => Done x) l x = Done x.
Proof. by induction l. Qed.

(** Dropping a node that is not read at all leaves the stream behind it. *)
Definition droppable (t : tree) : Prop :=
  readable t -> forall fuel o c, has d (4 * o) (enc off_of t) -> (need t < fuel)%nat ->
  runs (Done tt) (o + enc_words off_of t) (drop_node d fuel (mkKNode (name_of t) Properties) (mkInterpreter (first_of t o) c false)).

Lemma drop_children_spec name kids fuel o c :
  Forall (fun t => name_ok (name_of t) /\ from_utf8 (name_of t) = Ok tt /\ readable t) kids -> Forall droppable kids ->
  has d (4 * o) (concat (enc off_of <$> kids)) -> has d (4 * (o + kids_words off_of kids)) (be4 TOKEN_END_NODE) ->
  (length kids + sum_list (need <$> kids) + 2 <= fuel)%nat ->
  runs (Done tt) (o + kids_words off_of kids + 1)
    ((each_child d fuel (fun c _ => drop_node d fuel c) (mkKNode name ChildNodes) tt ;; ret tt) (mkInterpreter o c false)).
Proof using Hd.
  intros Hr Hk Hh He Hf. 
  eapply (runs_bind (Done (tt, mkKNode name Empty_)) (fun _ => Done tt)); [|intros; by eexists].
  pose proof (each_child_spec (fun c _ => drop_node d fuel c) (fun _ _ => Done tt) name kids fuel o c tt Hh He) as E.
  rewrite fold_unit in E. apply E; [|lia]. rewrite Forall_forall in *. intros t Ht. destruct (Hr t Ht) as (Hn & Hu & Hrd).
  split_and!; [done..|]. intros o' c' _ Hh'. apply Hk; [done|done|done|]. pose proof (need_kid t kids Ht). lia.
Qed.

Lemma drop_node_spec t : droppable t.
Proof using Hd Hbase Hs.
  induction t as [name props kids IH] using tree_ind_nested. intros Hr fuel o c Hh Hf. rewrite need_eq in Hf.
  destruct (readable_kids _ _ _ Hr) as (Hp & Hu & Hk). destruct (node_parts o name props kids Hh) as (H3 & H4 & H5 & (tk & Etk & Htk) & Ee).
  destruct fuel as [|fuel]; [lia|]. cbn [drop_node name_of]. rewrite <-Ee.
  eapply (runs_bind (Done (tt, mkKNode name ChildNodes)) (fun _ => Done tt)).
  - pose proof (each_property_spec (fun _ (x : unit) => Done x) name tk props fuel (first_of (Tree name props kids) o) c tt H3 Hp Hu Etk Htk ltac:(lia)) as E.
    rewrite fold_id in E. exact E.
  - intros x c' [= <-]. apply drop_children_spec; [done..|lia].
Qed.

(** Dropping a node whose properties have been read. *)
Lemma drop_after_properties name props kids fuel o c :
  readable (Tree name props kids) -> has d (4 * o) (enc off_of (Tree name props kids)) -> (need (Tree name props kids) < fuel)%nat ->
  runs (Done tt) (o + enc_words off_of (Tree name props kids))
    (drop_node d fuel (mkKNode name ChildNodes) (mkInterpreter (first_of (Tree name props kids) o + props_words off_of props) c false)).
Proof using Hd Hbase Hs.
  intros Hr Hh Hf. rewrite need_eq in Hf. destruct (readable_kids _ _ _ Hr) as (Hp & Hu & Hk).
  destruct (node_parts o name props kids Hh) as (H3 & H4 & H5 & (tk & Etk & Htk) & Ee).
  destruct fuel as [|[|fuel]]; [lia..|]. cbn [drop_node]. rewrite <-Ee. erewrite bind_done by reflexivity. cbn [snd].
  apply drop_children_spec; [done| |done|done|lia]. apply Forall_forall. intros t _. apply drop_node_spec.
Qed.

Lemma fold_snoc {Y} (l acc : list Y) : fold_m (fun y l => Done (l ++ [y])) l acc = Done (acc ++ l).
Proof. revert acc. induction l as [|y l IH]; intros acc; cbn; [by rewrite app_nil_r|]. rewrite IH. by rewrite <-app_assoc. Qed.

Lemma print_node_spec t : readable t -> forall fuel o c, has d (4 * o) (enc off_of t) -> (need t < fuel)%nat ->
  runs (Done t) (o + enc_words off_of t) (print_node d fuel (mkKNode (name_of t) Properties) (mkInterpreter (first_of t o) c false)).
Proof using Hd Hbase Hs.
  induction t as [name props kids IH] using tree_ind_nested. intros Hr fuel o c Hh Hf. rewrite need_eq in Hf.
  destruct (readable_kids _ _ _ Hr) as (Hp & Hu & Hk). destruct (node_parts o name props kids Hh) as (H3 & H4 & H5 & (tk & Etk & Htk) & Ee).
  destruct fuel as [|fuel]; [lia|]. cbn [print_node name_of k_name]. rewrite <-Ee.
  eapply (runs_bind (Done (props, mkKNode name ChildNodes)) (fun _ => Done (Tree name props kids))).
  { pose proof (each_property_spec (fun p l => Done (l ++ [p])) name tk props fuel _ c [] H3 Hp Hu Etk Htk ltac:(lia)) as E.
    rewrite fold_snoc in E. exact E. }
  intros x c' [= <-]. cbn [fst snd]. eapply (runs_bind (Done (kids, mkKNode name Empty_)) (fun _ => Done (Tree name props kids))).
  - pose proof (each_child_spec (fun c l => let* t := print_node d fuel c in ret (l ++ [t])) (fun t l => Done (l ++ [t])) name kids fuel _ c' [] H4 H5) as E.
    rewrite fold_snoc in E. apply E; [|lia]. rewrite Forall_forall in *. intros t Ht. destruct (Hk t Ht) as (Hn & Hut & Hrt).
    split_and!; [done..|]. intros o' c2 l Hh'. eapply (runs_bind (Done t) (fun t => Done (l ++ [t]))); [|intros y c3 [= <-]; by eexists].
    apply IH; [done|done|done|]. pose proof (need_kid t kids Ht). lia.
  - intros x c2 [= <-]. cbn [fst snd]. erewrite bind_done by (apply drop_empty; lia). by eexists.
Qed.

Lemma bind_assoc {St X Y Z'} (m : M St X) (f : X -> M St Y) (g : Y -> M St Z') i : bind (bind m f) g i = bind m (fun x => bind (f x) g) i.
Proof. unfold bind. by destruct (m i) as [[]| |]. Qed.

Lemma runs_node {X} (r : outcome X) (n : KNode) x n' : (let! x := r in Done (x, n)) = Done (x, n') -> r = Done x /\ n' = n.
Proof. destruct r; cbn; [|done..]. by intros [= -> ->]. Qed.

(** A node whose properties are read and that is then dropped. *)
Lemma properties_then_drop {X} (body : Property -> X -> outcome X) name props kids fuel o c x :
  readable (Tree name props kids) -> has d (4 * o) (enc off_of (Tree name props kids)) -> (need (Tree name props kids) < fuel)%nat ->
  runs (fold_m body props x) (o + enc_words off_of (Tree name props kids))
    ((let* r := each_property d fuel body (mkKNode name Properties) x in drop_node d fuel r.2 ;; ret r.1)
      (mkInterpreter (first_of (Tree name props kids) o) c false)).
Proof using Hd Hbase Hs.
  intros Hr Hh Hf. pose proof Hf as Hf'. rewrite need_eq in Hf'. destruct (readable_kids _ _ _ Hr) as (Hp & Hu & Hk).
  destruct (node_parts o name props kids Hh) as (H3 & H4 & H5 & (tk & Etk & Htk) & Ee).
  pose proof (each_property_spec body name tk props fuel _ c x H3 Hp Hu Etk Htk ltac:(lia)) as E.
  destruct (fold_m body props x) as [x'|why|]; cbn in E.
  - destruct E as [c' E]. erewrite bind_done by exact E. cbn [fst snd].
    destruct (drop_after_properties name props kids fuel o c' Hr Hh Hf) as [c2 E2]. erewrite bind_done by exact E2. by exists c2.
  - cbn. unfold bind. by rewrite E.
  - cbn. unfold bind. by rewrite E.
Qed.

(** Dropping after a continuation that only rearranges the result. *)
Lemma runs_map {X Y} (r : outcome X) (f : X -> Y) e (m : outcome (X * Interpreter)) :
  runs r e m -> runs (let! x := r in Done (f x)) e (let! y := m in Done (f y.1, y.2)).
Proof. destruct r; cbn; [intros [c ->]; by exists c|by intros ->|by intros ->]. Qed.

(** The body for [reserved-memory]. *)
Lemma reserved_spec cells name props kids fuel o c b :
  readable (Tree name props kids) -> has d (4 * o) (enc off_of (Tree name props kids)) -> (need (Tree name props kids) < fuel)%nat ->
  runs (let! c := fold_m cells_property props cells in
        let! r := fold_m (fun '(Tree _ ps _) x => fold_m (reserved_property c) ps x) kids (0, reserved_memory b) in
        Done (mkBoot (heap b) r.2 (boot_args b) (stdout b)))
    (o + enc_words off_of (Tree name props kids))
    ((let* r := (let* c := each_property d fuel cells_property (mkKNode name Properties) cells in
      let* r := each_child d fuel (fun n x =>
        let* r := each_property d fuel (reserved_property c.1) n x in
        drop_node d fuel r.2 ;; ret r.1) c.2 (0, reserved_memory b) in
      ret (mkBoot (heap b) r.1.2 (boot_args b) (stdout b), r.2)) in drop_node d fuel r.2 ;; ret r.1)
        (mkInterpreter (first_of (Tree name props kids) o) c false)).
Proof using Hd Hbase Hs.
  intros Hr Hh Hf. rewrite need_eq in Hf. destruct (readable_kids _ _ _ Hr) as (Hp & Hu & Hk).
  destruct (node_parts o name props kids Hh) as (H3 & H4 & H5 & (tk & Etk & Htk) & Ee). rewrite <-Ee, bind_assoc.
  pose proof (each_property_spec cells_property name tk props fuel _ c cells H3 Hp Hu Etk Htk ltac:(lia)) as E1.
  set (F1 := fold_m cells_property props cells) in *.
  replace (let! c := F1 in _) with (let! y := (let! x := F1 in Done (x, mkKNode name ChildNodes)) in
    let! r := fold_m (fun '(Tree _ ps _) x => fold_m (reserved_property y.1) ps x) kids (0, reserved_memory b) in
    Done (mkBoot (heap b) r.2 (boot_args b) (stdout b))) by (by destruct F1).
  eapply runs_bind; [exact E1|]. intros [cc n'] c' [Ec En]%runs_node. subst n'. cbn [fst snd]. rewrite bind_assoc.
  set (g := fun '(Tree _ ps _) (x : Z * list (Z * Z)) => fold_m (reserved_property cc) ps x).
  set (F2 := fold_m _ kids (0, reserved_memory b)).
  replace (let! r := F2 in _) with (let! y := (let! x := F2 in Done (x, mkKNode name Empty_)) in
    Done (mkBoot (heap b) y.1.2 (boot_args b) (stdout b))) by (by destruct F2).
  eapply (runs_bind _ _ (first_of (Tree name props kids) o + props_words off_of props + kids_words off_of kids + 1)).
  - apply (each_child_spec _ g name kids fuel _ c' (0, reserved_memory b) H4 H5); [|lia].
    rewrite Forall_forall in *. intros [nm ps ks] Ht. destruct (Hk _ Ht) as (Hn & Hut & Hrt). split_and!; [done..|].
    intros o' c2 x Hh'. apply properties_then_drop; [done..|]. pose proof (need_kid _ kids Ht). lia.
  - intros [x n'] c2 [_ En]%runs_node. subst n'. cbn [fst snd]. erewrite bind_done by reflexivity. cbn [fst snd].
    erewrite bind_done by (apply drop_empty; lia). by eexists.
Qed.

Lemma boot_child_spec kernel cells t fuel o c b :
  readable t -> has d (4 * o) (enc off_of t) -> (need t < fuel)%nat ->
  runs (boot_child_tree kernel cells t b) (o + enc_words off_of t)
    (boot_child d kernel fuel cells (mkKNode (name_of t) Properties) b (mkInterpreter (first_of t o) c false)).
Proof using Hd Hbase Hs.
  destruct t as [name props kids]. intros Hr Hh Hf. unfold boot_child. cbn [name_of k_name boot_child_tree].
  assert (forall X (body : Property -> X -> outcome X) x (f : X -> Boot),
    runs (let! x := fold_m body props x in Done (f x)) (o + enc_words off_of (Tree name props kids))
      ((let* r := (let* r := each_property d fuel body (mkKNode name Properties) x in ret (f r.1, r.2)) in drop_node d fuel r.2 ;; ret r.1)
        (mkInterpreter (first_of (Tree name props kids) o) c false))) as Hmap.
  { intros X body x f. pose proof (properties_then_drop body name props kids fuel o c x Hr Hh Hf) as E.
    apply (runs_map _ f) in E. revert E. unfold bind, ret. destruct (each_property d fuel body _ x _) as [[[x' n'] i']| |]; [|done..].
    cbn [fst snd]. by destruct (drop_node d fuel n' i') as [[[] i2]| |]. }
  destruct (starts_with (str "reserved-memory") name); [|destruct (bool_decide (heap b = None) && starts_with (str "memory@") name);
    [|destruct (starts_with (str "chosen") name)]].
  - by apply reserved_spec.
  - apply (Hmap _ (memory_property kernel cells) (heap b) (fun h => mkBoot h (reserved_memory b) (boot_args b) (stdout b))).
  - apply (Hmap _ chosen_property (boot_args b, stdout b) (fun r => mkBoot (heap b) (reserved_memory b) r.1 r.2)).
  - erewrite bind_done by reflexivity. cbn [fst snd]. destruct (drop_node_spec (Tree name props kids) Hr fuel o c Hh Hf) as [c' E].
    cbn [name_of] in E. erewrite bind_done by exact E. by exists c'.
Qed.
(** [finish] at the end of the block. *)
Lemma finish_end fuel o c : dt_get d o = Some TOKEN_END -> (0 < fuel)%nat ->
  exists i, finish d fuel (mkInterpreter o c false) = Done (tt, i).
Proof.
  intros E Hf. destruct fuel as [|fuel]; [lia|]. cbn [finish]. erewrite bind_done by reflexivity. cbn [finished].
  erewrite bind_done by (by apply step_spec). rewrite decide_False, decide_True by done. erewrite bind_done by reflexivity.
  destruct fuel; by eexists.
Qed.

(** [main] from the root's properties on. *)
Lemma boot_root_spec kernel t fuel o c :
  readable t -> has d (4 * o) (enc off_of t) -> dt_get d (o + enc_words off_of t) = Some TOKEN_END ->
  reserved_memory_regions fuel d (field d offset_memory_reservation_block_at) = Done [] -> (need t < fuel)%nat ->
  (let! r := (
     let* r := each_property d fuel root_property (mkKNode (name_of t) Properties) (None, None, []) in
     let '(ac, sc, model, root) := r in
     let* ac := lift (expect_cells ac) in
     let* sc := lift (expect_cells sc) in
     lift (reserved_memory_regions fuel d (field d offset_memory_reservation_block_at)) ;;
     let* b := each_child d fuel (boot_child d kernel fuel (ac, sc)) root no_boot in
     drop_node d fuel b.2 ;;
     finish d fuel ;;
     ret (model, b.1)) (mkInterpreter (first_of t o) c false) in Done r.1) = boot_tree kernel t.
Proof using Hd Hbase Hs.
  destruct t as [name props kids]. intros Hr Hh Hend Hreg Hf. rewrite need_eq in Hf. destruct (readable_kids _ _ _ Hr) as (Hp & Hu & Hk).
  destruct (node_parts o name props kids Hh) as (H3 & H4 & H5 & (tk & Etk & Htk) & Ee). cbn [boot_tree name_of].
  pose proof (each_property_spec root_property name tk props fuel _ c (None, None, []) H3 Hp Hu Etk Htk ltac:(lia)) as E1.
  destruct (fold_m root_property props (None, None, [])) as [[[ac sc] model]|why|]; cbn [obind runs] in E1 |- *;
    [|unfold bind; by rewrite E1..]. destruct E1 as [c1 E1]. erewrite bind_done by exact E1. cbv beta iota. cbn [fst snd].
  destruct ac as [ac|]; [|done]. destruct sc as [sc|]; [|done]. do 2 erewrite bind_done by reflexivity. cbn [expect_cells obind].
  erewrite bind_done by (unfold lift; rewrite Hreg; reflexivity).
  pose proof (each_child_spec (boot_child d kernel fuel (ac, sc)) (boot_child_tree kernel (ac, sc)) name kids fuel _ c1 no_boot H4 H5) as E2.
  rewrite Ee in E2. assert (Forall (fun t => name_ok (name_of t) /\ from_utf8 (name_of t) = Ok tt /\ forall o c x, has d (4 * o) (enc off_of t) ->
    runs (boot_child_tree kernel (ac, sc) t x) (o + enc_words off_of t)
      (boot_child d kernel fuel (ac, sc) (mkKNode (name_of t) Properties) x (mkInterpreter (first_of t o) c false))) kids) as Hkids.
  { rewrite Forall_forall in *. intros t Ht. destruct (Hk t Ht) as (Hn & Hut & Hrt). split_and!; [done..|]. intros o' c' x Hh'.
    apply boot_child_spec; [done..|]. pose proof (need_kid _ kids Ht). lia. }
  specialize (E2 Hkids ltac:(lia)).
  destruct (fold_m (boot_child_tree kernel (ac, sc)) kids no_boot) as [b|why|]; cbn [obind runs] in E2 |- *; [|unfold bind; by rewrite E2..].
  destruct E2 as [c2 E2]. erewrite bind_done by exact E2. cbn [fst snd]. erewrite bind_done by (apply drop_empty; lia).
  destruct (finish_end fuel _ c2 Hend ltac:(lia)) as [i Ei]. by erewrite bind_done by exact Ei.
Qed.

End stream.

(** ** Whole trees *)

Section made.
Context (off_of : list Z -> Z) (s : list Z) (t : tree).
Context (Hok : tree_ok s off_of t) (Htext : tree_text t) (Hsize : 60 + zlen (enc off_of t) + zlen s < 2 ^ 32).
Abbreviation data := (make_dtb off_of s t).

Lemma made_stream :
  zlen data <= 2 ^ 32 /\ field data offset_strings_block_at = 60 + zlen (enc off_of t) /\ has data (60 + zlen (enc off_of t)) s /\
  interpreter data = Done (mkInterpreter 14 0 false) /\ has data (4 * 14) (enc off_of t) /\
  dt_get data (14 + enc_words off_of t) = Some TOKEN_END.
Proof using Hsize.
  destruct (make_dtb_parts off_of s t Hsize) as (_ & _ & Fs & Fo & _ & _ & _ & Ht & Hs). pose proof (zlen_make_dtb off_of s t) as El.
  apply has_app in Ht as [Ht He]. rewrite zlen_enc_words in He. replace (56 + 4 * enc_words off_of t) with (4 * (14 + enc_words off_of t)) in He by lia.
  split_and!; [lia|done|done| |done|by apply has_get]. unfold interpreter. by rewrite Fs.
Qed.

(** C27: Equivalence of the two readers.  On an encoded tree whose names are text, printing the tree with
    the kernel's stream of tokens and walking it with the positions of the device tree library give the same
    tree, the library's nodes having the inherited cells in addition. *)
Theorem kernel_reads_as_library (fuel : nat) :
  (need t + 2 < fuel)%nat ->
  dump_dtb data fuel = Done ([], [t]) /\
  exists n, DeviceTree_root fuel data = Done (Ok n) /\ reify fuel fuel data n = Done (with_cells (2, 1, 0) t).
Proof using Hok Htext Hsize.
  intros Hf. split; [|apply make_dtb_root; [done..|lia]]. destruct made_stream as (Hd & Hb & Hs & Ei & Ht & Hend).
  unfold dump_dtb. rewrite make_dtb_regions by (done || lia). cbn [obind]. rewrite Ei. cbn [obind].
  destruct fuel as [|[|fuel]]; [lia..|]. cbn [dump_nodes].
  erewrite bind_done by (apply (step_node_tree data s off_of Hd t); [done|by split|lia]). cbv beta iota.
  destruct (print_node_spec data s off_of _ Hd Hb Hs t (conj Hok Htext) (S fuel) 14 0 Ht ltac:(lia)) as [c E]. erewrite bind_done by exact E.
  cbn [dump_nodes]. destruct fuel as [|fuel]; [lia|]. cbn [step_node].
  erewrite bind_done by (erewrite bind_done by (erewrite bind_done by (by apply step_spec); rewrite !decide_False, decide_True by done; reflexivity); reflexivity).
  done.
Qed.

(** The scan of [main].  On an encoded tree whose names are text, reading the stream, skipping
    unread nodes by dropping them, has the same result as looking through the tree: the model, the first memory
    node, the reserved areas and the boot options, and the same panics. *)
Theorem boot_scan_reads_tree (kernel : Z * Z) (fuel : nat) :
  (need t + 2 < fuel)%nat -> boot_scan data kernel fuel = boot_tree kernel t.
Proof using Hok Htext Hsize.
  intros Hf. destruct made_stream as (Hd & Hb & Hs & Ei & Ht & Hend). pose proof (conj Hok Htext : readable s off_of t) as Hr.
  unfold boot_scan, parse_dtb. rewrite decide_False by (destruct (make_dtb_parts off_of s t Hsize) as (-> & _); by intros []).
  rewrite Ei. cbn [obind]. erewrite bind_done by (apply (step_node_tree data s off_of Hd t); [done|done|lia]). cbv beta iota.
  pose proof (make_dtb_regions off_of s t fuel Hsize ltac:(lia)) as Hreg.
  apply (boot_root_spec data s off_of (60 + zlen (enc off_of t))); [done..|lia].
Qed.

End made.

(** ** A small example *)

Definition boot_names : list (list Z) := str <$> ["#address-cells"; "#size-cells"; "model"; "reg"; "bootargs"]%string.

Definition boot_strings : list Z := concat ((.++ [0]) <$> boot_names).

Fixpoint position_in (l : list (list Z)) (name : list Z) : Z :=
  match l with [] => 0 | x :: l => if decide (x = name) then 0 else zlen x + 1 + position_in l name end.

Definition boot_offset (name : list Z) : Z := position_in boot_names name.

(** The node [soc] is not read, and neither is the child of [chosen]. *)
Definition boot_example : tree :=
  Tree [] [mkProperty (str "#address-cells") (be4 2); mkProperty (str "#size-cells") (be4 2); mkProperty (str "model") (str "virt")]
    [Tree (str "reserved-memory") [mkProperty (str "#size-cells") (be4 1)]
       [Tree (str "mmode@80000000") [mkProperty (str "reg") (be_split 8 0x80000000 ++ be4 0x40000)] []];
     Tree (str "soc") [] [Tree (str "uart") [mkProperty (str "reg") (be4 0)] []];
     Tree (str "chosen") [mkProperty (str "bootargs") (str "quiet")] [Tree (str "x") [] []];
     Tree (str "memory@80000000") [mkProperty (str "reg") (be_split 8 0x80000000 ++ be_split 8 0x8000000)] []].

Lemma boot_prop_ok p : p_name p ∈ boot_names -> (p_name p ∈ cells_names -> zlen (p_value p) = 4) -> prop_ok boot_strings boot_offset p.
Proof.
  intros Hn Hc. split; [|split; [|done]]; revert Hn; generalize (p_name p); apply Forall_forall;
    repeat apply Forall_cons_2; try apply Forall_nil_2; by vm_compute.
Qed.

Lemma boot_example_ok : tree_ok boot_strings boot_offset boot_example.
Proof.
  assert (forall p, bool_decide (p_name p ∈ boot_names) = true ->
    bool_decide (p_name p ∈ cells_names -> zlen (p_value p) = 4) = true -> prop_ok boot_strings boot_offset p) as H.
  { intros p H1%bool_decide_eq_true H2%bool_decide_eq_true. by apply boot_prop_ok. }
  cbn [boot_example tree_ok foldr].
  split_and!; try done; try (apply (bool_decide_unpack _); by vm_compute);
    repeat apply Forall_cons_2; try apply Forall_nil_2; apply H; by vm_compute.
Qed.

Lemma boot_example_text : tree_text boot_example.
Proof. cbn [boot_example tree_text foldr]. split_and!; try done; repeat apply Forall_cons_2; try apply Forall_nil_2; by vm_compute. Qed.

Lemma kernel_reads_as_library_witness :
  dump_dtb (make_dtb boot_offset boot_strings boot_example) 60 = Done ([], [boot_example]).
Proof.
  destruct (kernel_reads_as_library boot_offset boot_strings boot_example) with (fuel := 60%nat) as [H _].
  - exact boot_example_ok.
  - exact boot_example_text.
  - by vm_compute.
  - apply Nat.leb_le. by vm_compute.
  - exact H.
Defined.

Lemma boot_scan_reads_tree_witness :
  boot_scan (make_dtb boot_offset boot_strings boot_example) (0xffffffffc0000000, 0xffffffffc0100000) 60 =
    Done (str "virt", mkBoot (Some (0x80000000, 0x8000000)) ((0x80000000, 0x8003ffff) :: replicate 15 (0, 0)) (str "quiet") []).
Proof.
  rewrite (boot_scan_reads_tree boot_offset boot_strings boot_example boot_example_ok boot_example_text).
  - by vm_compute.
  - by vm_compute.
  - apply Nat.leb_le. by vm_compute.
Defined.
