(* ===== verification/Elf.v ===== *)
(** * The ELF loader of the kernel

    src/kernel/src/elf.rs reads the first program, an ELF file in memory, and [main]
    (src/kernel/src/main.rs) maps its segments.  The pages of the file themselves are
    mapped; the bytes behind the file's part of a segment are zeroed.

    A file that is written in the format is read back, and mapping a segment makes
    the hardware translate its pages to the pages of the file. *)

From S2P Require Import Prelude Bytes Page Ppn Allocator Sv39Entry Sv39 Sv39Walk Sv39Spec RangeSpec UserMem AddrSpace.

(** ** Data *)

(** The fields of [FileHeader] behind the identifier that are used, and their offsets. *)
Record FileHeader := mkFileHeader {
  typ : Z; machine : Z; entry : Z; program_header_offset : Z; fh_flags : Z;
  program_header_entry_size : Z; program_header_entry_count : Z
}.

Definition FILE_HEADER_BYTES : Z := 64.

Record ProgramHeader := mkProgramHeader {
  p_typ : Z; p_flags : Z; p_offset : Z; virtual_address : Z; physical_address : Z;
  file_size : Z; memory_size : Z; alignment : Z
}.

Definition PROGRAM_HEADER_BYTES : Z := 56.

Definition TYPE_EXEC : Z := 2.
Definition TYPE_LOAD : Z := 1.
Definition FLAG_EXEC : Z := 0x1.
Definition FLAG_WRITE : Z := 0x2.
Definition FLAG_READ : Z := 0x4.

(** [arch::ELF_MACHINE], and [arch::ELF_FLAGS]: compressed instructions and double floats. *)
Definition ELF_MACHINE : Z := 0xf3.
Definition ELF_FLAGS : Z := Z.lor 0x1 0x4.

Definition PAGE_MASK : Z := 0xfff.

Record Segment := mkSegment {
  address : Page; ppn : PPNRange; seg_flags : RWX; clear_from : Z; clear_to : Z
}.

(** ** [parse] *)

(** Reading a structure through a pointer: outside of the data it is undefined. *)
Definition rd_le (data : list Z) (n : nat) (off : Z) : outcome Z :=
  match read_le data n off with Some v => Done v | None => Panicked "read outside of the file" end.

Definition read_file_header (data : list Z) : outcome FileHeader :=
  let! t := rd_le data 2 16 in
  let! m := rd_le data 2 18 in
  let! e := rd_le data 8 24 in
  let! po := rd_le data 8 32 in
  let! f := rd_le data 4 48 in
  let! es := rd_le data 2 54 in
  let! ec := rd_le data 2 56 in
  Done (mkFileHeader t m e po f es ec).

Definition read_program_header (data : list Z) (off : Z) : outcome ProgramHeader :=
  let! t := rd_le data 4 off in
  let! f := rd_le data 4 (off + 4) in
  let! o := rd_le data 8 (off + 8) in
  let! va := rd_le data 8 (off + 16) in
  let! pa := rd_le data 8 (off + 24) in
  let! fs := rd_le data 8 (off + 32) in
  let! ms := rd_le data 8 (off + 40) in
  let! a := rd_le data 8 (off + 48) in
  Done (mkProgramHeader t f o va pa fs ms a).

Definition assert_ (P : Prop) `{Decision P} (why : string) : outcome unit := if decide P then Done tt else Panicked why.

(** The [match] on the flags of a segment. *)
Definition segment_flags (flags : Z) : outcome RWX :=
  let f := Z.land flags 7 in
  if decide (f = 7) then Done RWX_RWX
  else if decide (f = Z.lor FLAG_EXEC FLAG_READ) then Done RWX_RX
  else if decide (f = Z.lor FLAG_EXEC FLAG_WRITE) then Panicked "Write-execute pages are unsupported"
  else if decide (f = FLAG_EXEC) then Done RWX_X
  else if decide (f = Z.lor FLAG_WRITE FLAG_READ) then Done RWX_RW
  else if decide (f = FLAG_WRITE) then Panicked "Write-only pages are unsupported"
  else if decide (f = FLAG_READ) then Done RWX_R
  else Panicked "Flagless pages are unsupported".

(** A loadable program header; [base] is the address of the file. *)
Definition segment_of (data : list Z) (base : Z) (h : ProgramHeader) : outcome Segment :=
  let! fl := segment_flags (p_flags h) in
  let! _ := assert_ (Z.land (p_offset h) PAGE_MASK = Z.land (virtual_address h) PAGE_MASK) "Offset is not aligned" in
  let offset := Z.land (p_offset h) PAGE_MASK in
  match Page_try_from (Z.ldiff (virtual_address h) PAGE_MASK) with
  | Err _ => Panicked "Address is 0x0"
  | Ok address =>
    match try_into 32 (wrap 64 (memory_size h + offset + PAGE_MASK) / PAGE_SIZE) with
    | None => Panicked "Segment too large"
    | Some count =>
      let at_ := Z.ldiff (p_offset h) PAGE_MASK in
      if decide (at_ <= zlen data) then
        Done (mkSegment address (PPNRange_from_ptr (wrap 64 (base + at_)) count) fl
          (wrap 64 (file_size h + offset)) (wrap 64 (memory_size h + offset)))
      else Panicked "range start index out of range for slice"
    end
  end.

(** [for k in 0..count]; [cap] is the length of [segments], [acc] the ones that are set. *)
Fixpoint parse_loop (data : list Z) (base po : Z) (cap : nat) (ks : list Z) (acc : list Segment) : outcome (list Segment) :=
  match ks with
  | [] => Done acc
  | k :: ks =>
    let! _ := assert_ (length acc < cap)%nat "Too many segments" in
    let! h := read_program_header data (po + PROGRAM_HEADER_BYTES * k) in
    if decide (p_typ h = TYPE_LOAD) then
      let! s := segment_of data base h in
      parse_loop data base po cap ks (acc ++ [s])
    else parse_loop data base po cap ks acc
  end.

(** The segments and the entry.  Program headers that are not aligned are undefined. *)
Definition parse (data : list Z) (base : Z) (cap : nat) : outcome (list Segment * Z) :=
  let! _ := assert_ (16 <= zlen data) "Data too short to include magic" in
  let! _ := assert_ (take 4 data = [0x7f; 0x45; 0x4c; 0x46]) "Bad ELF magic" in
  let! _ := assert_ (base mod 8 = 0) "Bad alignment" in
  let! _ := assert_ (nth_z data 4 = Some 2) "Unsupported class" in
  let! _ := assert_ (nth_z data 5 = Some 1) "Unsupported endianness" in
  let! _ := assert_ (nth_z data 6 = Some 1) "Unsupported version" in
  let! _ := assert_ (FILE_HEADER_BYTES <= zlen data) "Header too small" in
  let! h := read_file_header data in
  let! _ := assert_ (typ h = TYPE_EXEC) "Unsupported type" in
  let! _ := assert_ (machine h = ELF_MACHINE) "Unsupported machine type" in
  let! _ := assert_ (Z.ldiff (fh_flags h) ELF_FLAGS = 0) "Unsupported flags" in
  let count := program_header_entry_count h in
  let size := program_header_entry_size h in
  let! _ := assert_ (size = PROGRAM_HEADER_BYTES) "Bad program header size" in
  let! _ := assert_ (wrap 64 (count * size + program_header_offset h) <= zlen data) "Program headers exceed the size of the file" in
  let! _ := assert_ (program_header_offset h mod 8 = 0) "undefined: program headers are not aligned" in
  let! segs := parse_loop data base (program_header_offset h) cap (seqZ 0 count) [] in
  Done (segs, entry h).

(** ** Mapping, in [main] *)

Section load.
Context {A : Type} `{FrameAllocator A}.

(** [while let Some(ppn) = s.ppn.pop_base()]; the fuel bounds the pages. *)
Fixpoint map_pages (fuel : nat) (r : PPNRange) (a : Page) : M (Machine A) unit :=
  match fuel with
  | O => fun _ => OutOfFuel
  | S fuel =>
    match PPNRange_pop_base r with
    | (None, _) => ret tt
    | (Some p, r) =>
      let* x := add a (Private p) RWX_RWX UserLocal in
      unwrap_ok "called `Result::unwrap()` on an `Err` value" x ;;
      let* a := unwrap "called `Option::unwrap()` on a `None` value" (Page_next a) in
      map_pages fuel r a
    end
  end.

(** [for i in s.clear_from..s.clear_to]: a byte at a time. *)
Fixpoint clear_bytes (l : list Z) (address : Page) : M (Machine A) unit :=
  match l with
  | [] => ret tt
  | i :: l => store_n 1 (wrap 64 (address + i)) 0 ;; clear_bytes l address
  end.

Definition load_segment (s : Segment) : M (Machine A) unit :=
  map_pages (S (Z.to_nat (PPNRange_len (ppn s)))) (ppn s) (address s) ;;
  clear_bytes (seqZ (clear_from s) (clear_to s - clear_from s)) (address s).

(** [for s in segments.iter_mut().filter_map(|s| s.as_mut())]. *)
Fixpoint load_segments (segs : list Segment) : M (Machine A) unit :=
  match segs with
  | [] => ret tt
  | s :: segs => load_segment s ;; load_segments segs
  end.
End load.

(** ** Files in the format *)

Definition enc_ph (h : ProgramHeader) : list Z :=
  le_split 4 (p_typ h) ++ le_split 4 (p_flags h) ++ le_split 8 (p_offset h) ++ le_split 8 (virtual_address h) ++
  le_split 8 (physical_address h) ++ le_split 8 (file_size h) ++ le_split 8 (memory_size h) ++ le_split 8 (alignment h).

Definition make_elf (ent flags : Z) (phs : list ProgramHeader) (content : list Z) : list Z :=
  ([0x7f; 0x45; 0x4c; 0x46; 2; 1; 1] ++ replicate 9 0) ++
  le_split 2 TYPE_EXEC ++ le_split 2 ELF_MACHINE ++ le_split 4 1 ++ le_split 8 ent ++ le_split 8 64 ++ le_split 8 0 ++
  le_split 4 flags ++ le_split 2 64 ++ le_split 2 56 ++ le_split 2 (zlen phs) ++ le_split 6 0 ++
  concat (enc_ph <$> phs) ++ content.

(** What a loadable header asks for. *)
Definition flags_of (f : Z) : option RWX :=
  match Z.land f 7 with 7 => Some RWX_RWX | 5 => Some RWX_RX | 1 => Some RWX_X | 6 => Some RWX_RW | 4 => Some RWX_R | _ => None end.

Definition page_offset (h : ProgramHeader) : Z := p_offset h mod PAGE_SIZE.

Definition segment (base : Z) (h : ProgramHeader) : Segment :=
  mkSegment (virtual_address h - page_offset h)
    (mkPPNRange ((base + p_offset h - page_offset h) / PAGE_SIZE) ((memory_size h + page_offset h + (PAGE_SIZE - 1)) / PAGE_SIZE))
    (default RWX_R (flags_of (p_flags h))) (file_size h + page_offset h) (memory_size h + page_offset h).

Definition fields_fit (h : ProgramHeader) : Prop :=
  fits 32 (p_typ h) /\ fits 32 (p_flags h) /\ fits 64 (p_offset h) /\ fits 64 (virtual_address h) /\
  fits 64 (physical_address h) /\ fits 64 (file_size h) /\ fits 64 (memory_size h) /\ fits 64 (alignment h).

(** A segment that can be loaded from a file of [len] bytes at [base]. *)
Definition loadable (len base : Z) (h : ProgramHeader) : Prop :=
  is_Some (flags_of (p_flags h)) /\ page_offset h = virtual_address h mod PAGE_SIZE /\ PAGE_SIZE <= virtual_address h /\
  p_offset h <= len /\ file_size h <= memory_size h < 2 ^ 43 /\ base + p_offset h < 2 ^ 44.

Lemma segment_flags_spec f r : flags_of f = Some r -> segment_flags f = Done r.
Proof.
  unfold flags_of, segment_flags. pose proof (Z.mod_pos_bound f (2 ^ 3) ltac:(lia)) as Hb. rewrite <-(land_mask f 3) in Hb by lia.
  change (2 ^ 3 - 1) with 7 in Hb. change (2 ^ 3) with 8 in Hb. set (x := Z.land f 7) in *. clearbody x.
  assert (x = 0 \/ x = 1 \/ x = 2 \/ x = 3 \/ x = 4 \/ x = 5 \/ x = 6 \/ x = 7) as Hx by lia.
  destruct Hx as [->|[->|[->|[->|[->|[->|[->| ->]]]]]]]; intros [= <-]; done.
Qed.

Lemma land_page x : Z.land x PAGE_MASK = x mod PAGE_SIZE.
Proof. exact (land_mask x 12 ltac:(lia)). Qed.

Lemma ldiff_page x : Z.ldiff x PAGE_MASK = x - x mod PAGE_SIZE.
Proof.
  change PAGE_MASK with (Z.ones 12). rewrite Z.ldiff_ones_r, Z.shiftl_mul_pow2, Z.shiftr_div_pow2 by lia. change (2 ^ 12) with PAGE_SIZE.
  pose proof (Z.div_mod x PAGE_SIZE ltac:(unfold PAGE_SIZE; lia)). lia.
Qed.

Lemma aligned_down x : (x - x mod PAGE_SIZE) mod PAGE_SIZE = 0.
Proof. rewrite Zminus_mod, Zmod_mod, Z.sub_diag. done. Qed.

Lemma segment_of_spec data base h :
  fields_fit h -> loadable (zlen data) base h -> 0 <= base -> base mod PAGE_SIZE = 0 -> segment_of data base h = Done (segment base h).
Proof.
  intros (_ & _ & Ho & Hv & _ & Hf & Hm & _) ([r Hr] & Hpo & Hva & Hlen & Hms & Hb) Hb0 Hba. unfold fits in *.
  unfold segment_of, segment. rewrite (segment_flags_spec _ _ Hr), Hr. cbn [obind default]. unfold page_offset in *.
  rewrite !land_page, !ldiff_page. unfold assert_. rewrite decide_True by done. cbn [obind].
  pose proof (Z.mod_pos_bound (p_offset h) PAGE_SIZE ltac:(unfold PAGE_SIZE; lia)) as Hpb.
  pose proof (Z.mod_le (p_offset h) PAGE_SIZE ltac:(lia) ltac:(unfold PAGE_SIZE; lia)) as Hle. set (o := p_offset h mod PAGE_SIZE) in *.
  rewrite <-Hpo. unfold PAGE_SIZE, PAGE_MASK in *.
  assert (Page_try_from (virtual_address h - o) = Ok (virtual_address h - o)) as ->.
  { unfold Page_try_from, Page_from_pointer, Page_new. rewrite decide_True by lia. rewrite decide_True; [done|].
    rewrite land_align, Hpo. apply aligned_down. }
  rewrite !(wrap_small 64) by (unfold fits; lia).
  assert (fits 32 ((memory_size h + o + 4095) / 4096)) as Hc by (split; [apply Z.div_pos; lia|apply Z.div_lt_upper_bound; lia]).
  change 0xfff with 4095. unfold try_into. rewrite decide_True by done. rewrite decide_True by lia.
  unfold PPNRange_from_ptr. rewrite Z.shiftr_div_pow2 by (unfold OFFSET_BITS; lia). unfold OFFSET_BITS. change (2 ^ 12) with 4096.
  replace (base + (p_offset h - o)) with (base + p_offset h - o) by lia. rewrite (wrap_small 32); [done|]. split; [apply Z.div_pos; lia|apply Z.div_lt_upper_bound; lia].
Qed.

(** The program header at the given place. *)
Lemma read_program_header_spec data off h :
  has data off (enc_ph h) -> fields_fit h -> read_program_header data off = Done h.
Proof.
  intros Hh (H1 & H2 & H3 & H4 & H5 & H6 & H7 & H8). unfold enc_ph in Hh.
  repeat (apply has_app in Hh as [?Hf Hh]; rewrite zlen_le_split in Hh). rewrite <-?Z.add_assoc in *. cbn [Z.of_nat Pos.of_succ_nat Pos.succ Z.add Pos.add] in *.
  unfold read_program_header, rd_le. erewrite !has_read_le by eassumption. by destruct h.
Qed.

Definition loads (phs : list ProgramHeader) : list ProgramHeader := filter (fun h => p_typ h = TYPE_LOAD) phs.

Definition headers_ok (len base : Z) (phs : list ProgramHeader) : Prop :=
  Forall (fun h => fields_fit h /\ (p_typ h = TYPE_LOAD -> loadable len base h)) phs.

Lemma zlen_enc_ph h : zlen (enc_ph h) = PROGRAM_HEADER_BYTES.
Proof. unfold enc_ph. rewrite !zlen_app, !zlen_le_split. done. Qed.

Lemma zlen_concat_enc phs : zlen (concat (enc_ph <$> phs)) = PROGRAM_HEADER_BYTES * zlen phs.
Proof.
  induction phs as [|h phs IH]; [done|]. cbn [fmap list_fmap concat]. rewrite zlen_app, zlen_enc_ph, IH, zlen_cons. lia.
Qed.

Lemma parse_loop_spec data base po cap phs k acc :
  has data (po + PROGRAM_HEADER_BYTES * k) (concat (enc_ph <$> phs)) -> headers_ok (zlen data) base phs ->
  0 <= base -> base mod PAGE_SIZE = 0 -> (length acc + length phs <= cap)%nat ->
  parse_loop data base po cap (seqZ k (zlen phs)) acc = Done (acc ++ (segment base <$> loads phs)).
Proof.
  intros Hh Hok Hb Ha. revert k acc Hh. induction Hok as [|h phs [Hf Hl] _ IH]; intros k acc Hh Hc.
  { cbn. by rewrite app_nil_r. }
  cbn [fmap list_fmap concat] in Hh. apply has_app in Hh as [Hh Ht]. rewrite zlen_enc_ph in Ht. cbn [length] in Hc.
  pose proof (zlen_nonneg phs). rewrite zlen_cons, seqZ_cons by lia. cbn [parse_loop]. unfold assert_. rewrite decide_True by lia. cbn [obind].
  rewrite (read_program_header_spec _ _ _ Hh Hf). cbn [obind].
  replace (Z.pred (1 + zlen phs)) with (zlen phs) by lia.
  assert (has data (po + PROGRAM_HEADER_BYTES * Z.succ k) (concat (enc_ph <$> phs))) as Ht'.
  { by replace (po + PROGRAM_HEADER_BYTES * Z.succ k) with (po + PROGRAM_HEADER_BYTES * k + PROGRAM_HEADER_BYTES) by lia. }
  unfold loads in *. destruct (decide (p_typ h = TYPE_LOAD)) as [Hty|Hty].
  - rewrite segment_of_spec by auto. cbn [obind]. rewrite IH by (auto; rewrite length_app; cbn; lia).
    rewrite filter_cons_True by done. cbn [fmap list_fmap]. by rewrite <-app_assoc.
  - rewrite IH by (auto; lia). by rewrite filter_cons_False.
Qed.

Lemma make_elf_has ent flags phs content (d := make_elf ent flags phs content) :
  has d 16 (le_split 2 TYPE_EXEC) /\ has d 18 (le_split 2 ELF_MACHINE) /\ has d 24 (le_split 8 ent) /\ has d 32 (le_split 8 64) /\
  has d 48 (le_split 4 flags) /\ has d 54 (le_split 2 56) /\ has d 56 (le_split 2 (zlen phs)) /\ has d 64 (concat (enc_ph <$> phs)).
Proof.
  assert (has d 0 d) as Hh by (exists [], []; by rewrite app_nil_r). revert Hh. unfold d at 2. unfold make_elf. intros Hh.
  repeat (apply has_app in Hh as [?Hf Hh]; rewrite ?zlen_le_split in Hh). change (zlen ([127; 69; 76; 70; 2; 1; 1] ++ replicate 9 0)) with 16 in *.
  rewrite <-?Z.add_assoc in *. cbn [Z.of_nat Pos.of_succ_nat Pos.succ Z.add Pos.add] in *. tauto.
Qed.

(** A segment's pages hold it, at the place the file has it. *)
Lemma segment_holds base h :
  base mod PAGE_SIZE = 0 -> let s := segment base h in
  start (ppn s) * PAGE_SIZE + (virtual_address h - address s) = base + p_offset h /\
  memory_size h <= PPNRange_len (ppn s) * PAGE_SIZE - (virtual_address h - address s).
Proof.
  intros Ha s. subst s. unfold segment, PPNRange_len. cbn [ppn start address count]. unfold page_offset.
  pose proof (Z.mod_pos_bound (p_offset h) PAGE_SIZE ltac:(unfold PAGE_SIZE; lia)).
  pose proof (Z.div_mod (base + p_offset h - p_offset h mod PAGE_SIZE) PAGE_SIZE ltac:(done)) as Hd.
  assert ((base + p_offset h - p_offset h mod PAGE_SIZE) mod PAGE_SIZE = 0) as Hz.
  { replace (base + p_offset h - p_offset h mod PAGE_SIZE) with (base + (p_offset h - p_offset h mod PAGE_SIZE)) by lia.
    rewrite Zplus_mod, Ha, aligned_down. done. }
  rewrite Hz in Hd. split; [lia|].
  pose proof (Z.div_mod (memory_size h + p_offset h mod PAGE_SIZE + (PAGE_SIZE - 1)) PAGE_SIZE ltac:(done)) as Hm.
  pose proof (Z.mod_pos_bound (memory_size h + p_offset h mod PAGE_SIZE + (PAGE_SIZE - 1)) PAGE_SIZE ltac:(done)). lia.
Qed.

(** A file that is written in the format is read back: the entry, and one segment for every
    loadable header, in order. *)
Lemma parse_make_elf ent flags phs content base cap :
  let d := make_elf ent flags phs content in
  fits 64 ent -> fits 32 flags -> Z.ldiff flags ELF_FLAGS = 0 -> fits 16 (zlen phs) -> headers_ok (zlen d) base phs ->
  (length phs <= cap)%nat -> 0 <= base -> base mod PAGE_SIZE = 0 ->
  parse d base cap = Done (segment base <$> loads phs, ent).
Proof.
  intros d He Hfl Hfm Hn Hok Hc Hb Ha.
  destruct (make_elf_has ent flags phs content) as (H1 & H2 & H3 & H4 & H5 & H6 & H7 & H8). fold d in H1, H2, H3, H4, H5, H6, H7, H8.
  pose proof (has_bound _ _ _ H8) as [_ Hlen]. rewrite zlen_concat_enc in Hlen. pose proof (zlen_nonneg phs).
  unfold parse, read_file_header, rd_le, assert_, FILE_HEADER_BYTES, PROGRAM_HEADER_BYTES in *. unfold fits in Hn.
  rewrite (decide_True (P := 16 <= zlen d)) by lia. rewrite (decide_True (P := take 4 d = _)) by done.
  rewrite (decide_True (P := base mod 8 = 0)). 2: { apply Z.mod_divide in Ha; [|done]. apply Z.mod_divide; [done|]. etrans; [|exact Ha]. by exists 512. }
  rewrite !(decide_True (P := nth_z d _ = _)) by done. rewrite (decide_True (P := 64 <= zlen d)) by lia. cbn [obind].
  rewrite (has_read_le _ _ _ _ H1), (has_read_le _ _ _ _ H2), (has_read_le _ _ _ _ H3), (has_read_le _ _ _ _ H4),
    (has_read_le _ _ _ _ H5), (has_read_le _ _ _ _ H6), (has_read_le _ _ _ _ H7) by (done || (unfold fits; lia)).
  cbn [obind typ machine fh_flags program_header_entry_count program_header_entry_size program_header_offset entry].
  rewrite !decide_True by done. cbn [obind]. rewrite wrap_small by (unfold fits; lia). rewrite decide_True by lia. cbn [obind].
  erewrite (parse_loop_spec d base 64 cap phs 0 []); [done|..]; auto.
Qed.

(** ** Bytes of physical pages *)

Definition byte_of (m : gmap (Z * Z) Z) (p o : Z) : Z := get_field (8 * (o mod 8)) 8 (rd m p (o / 8)).

Lemma byte_of_set m p o v q o' :
  0 <= o -> 0 <= o' ->
  byte_of (wr m p (o / 8) (set_field (8 * (o mod 8)) 8 (rd m p (o / 8)) v)) q o' =
    if decide ((p, o) = (q, o')) then v mod 2 ^ 8 else byte_of m q o'.
Proof.
  intros Ho Ho'. unfold byte_of. pose proof (Z.mod_pos_bound o 8 ltac:(lia)). pose proof (Z.mod_pos_bound o' 8 ltac:(lia)).
  destruct (decide ((p, o / 8) = (q, o' / 8))) as [[= <- Hk]|Hne].
  - rewrite <-Hk, rd_wr_eq. case_decide as Hd.
    + injection Hd as <-. apply get_set_field; lia.
    + apply get_set_field_ne; try lia. pose proof (Z.div_mod o 8 ltac:(lia)). pose proof (Z.div_mod o' 8 ltac:(lia)).
      assert (o <> o') by congruence. lia.
  - rewrite rd_wr_ne by done. rewrite decide_False; [done|]. intros [= -> ->]. done.
Qed.

Lemma byte_of_ext m m' p o : (forall i, rd m' p i = rd m p i) -> byte_of m' p o = byte_of m p o.
Proof. intros E. unfold byte_of. by rewrite E. Qed.

Lemma same_page_div x y : x / PAGE_SIZE = y / PAGE_SIZE -> same_page x y.
Proof.
  unfold PAGE_SIZE. intros E. unfold same_page. rewrite !ppn_2_spec, !ppn_1_spec, !ppn_0_spec.
  change (2 ^ 30) with (4096 * 2 ^ 18). change (2 ^ 21) with (4096 * 2 ^ 9). change (2 ^ 12) with 4096.
  rewrite <-!Z.div_div, E by lia. done.
Qed.

Lemma hw_walk_same m root x y : same_page x y -> hw_walk m root y = hw_walk m root x.
Proof. intros (E2 & E1 & E0). unfold hw_walk. by rewrite E2, E1, E0. Qed.

Lemma page_index j n : 0 <= j < n * PAGE_SIZE -> 0 <= j / PAGE_SIZE < n.
Proof. unfold PAGE_SIZE. intros. split; [apply Z.div_pos; lia|apply Z.div_lt_upper_bound; lia]. Qed.

Lemma byte_in_page va j : va mod PAGE_SIZE = 0 -> (va + j) / PAGE_SIZE = page_at va (j / PAGE_SIZE) / PAGE_SIZE /\ (va + j) mod PAGE_SIZE = j mod PAGE_SIZE.
Proof.
  intros Ha. unfold page_at. pose proof (Z.div_mod va PAGE_SIZE ltac:(done)) as Hv. rewrite Ha, Z.add_0_r, Z.mul_comm in Hv.
  split.
  - rewrite Hv. rewrite <-Z.mul_add_distr_r, Z.div_mul, Z.div_add_l by done. done.
  - rewrite Hv, Z.add_comm, Z_mod_plus_full. done.
Qed.

(** ** Mapping the segments *)

Section mapping.
Context {A : Type} `{FrameAllocator A}.
Implicit Types s : Machine A.

(** The loop maps the pages of the range, one after the other. *)
Lemma map_pages_frames n fuel p va s :
  (n < fuel)%nat -> 0 <= p -> p + Z.of_nat n <= 2 ^ 32 ->
  map_pages fuel (mkPPNRange p (Z.of_nat n)) va s = add_frames (seqZ p (Z.of_nat n)) va RWX_RWX UserLocal s.
Proof.
  revert fuel p va s. induction n as [|n IH]; intros fuel p va s Hf Hp Hn; (destruct fuel as [|fuel]; [lia|]); [done|].
  rewrite seqZ_cons by lia. cbn [map_pages add_frames]. unfold PPNRange_pop_base, checked_sub. cbn [count start]. rewrite decide_True by lia.
  replace (Z.of_nat (S n) - 1) with (Z.of_nat n) by lia. replace (Z.pred (Z.of_nat (S n))) with (Z.of_nat n) by lia.
  assert (forall a s, map_pages fuel (mkPPNRange (wrap 32 (p + 1)) (Z.of_nat n)) a s = add_frames (seqZ (Z.succ p) (Z.of_nat n)) a RWX_RWX UserLocal s) as Hrest.
  { intros a s1. destruct n as [|n]; [destruct fuel; [lia|done]|]. rewrite wrap_small by (unfold fits; lia). apply IH; lia. }
  unfold bind. destruct (add va (Private p) RWX_RWX UserLocal s) as [[x s1]| |]; [|done..]. destruct (unwrap_ok _ x s1) as [[u s2]| |]; [|done..].
  destruct (unwrap _ (Page_next va) s2) as [[a s3]| |]; [|done..]. apply Hrest.
Qed.

(** The bytes of [n] pages from [va] are those of the pages from [p]. *)
Definition seg_map s (va p n : Z) : Prop :=
  forall i, 0 <= i < n -> translates s (page_at va i) = Some (private_leaf (p + i) RWX_RWX UserLocal).

(** Writing one byte of a segment. *)
Lemma store_byte s va p n j l :
  vm_inv s l -> seg_map s va p n -> va mod PAGE_SIZE = 0 -> 0 <= j < n * PAGE_SIZE ->
  not_table s (p + j / PAGE_SIZE) -> p + j / PAGE_SIZE ∉ l ->
  exists s', store_n 1 (va + j) 0 s = Done (tt, s') /\ data_only s s' /\ vm_inv s' l /\
    (forall q o, 0 <= o -> byte_of (phys s') q o = if decide ((p + j / PAGE_SIZE, j mod PAGE_SIZE) = (q, o)) then 0 else byte_of (phys s) q o) /\
    (forall q i, q <> p + j / PAGE_SIZE -> rd (phys s') q i = rd (phys s) q i).
Proof.
  intros Hs Hm Ha Hj Ht Hl. destruct (byte_in_page va j Ha) as [Hd Hmod].
  assert (0 <= j / PAGE_SIZE < n) as Hi by (apply page_index; lia).
  specialize (Hm _ Hi). unfold translates in Hm. rewrite (hw_walk_same _ _ (va + j)) in Hm by by apply same_page_div.
  set (q := p + j / PAGE_SIZE) in *. unfold private_leaf in Hm. set (e := pte q _) in Hm.
  assert (Z.testbit e 1 = true /\ Z.testbit e 2 = true) as [E1 E2].
  { unfold e. rewrite !pte_testbit by (apply leaf_flags_fits || lia). by vm_compute. }
  set (o := j mod PAGE_SIZE) in *. pose proof (Z.mod_pos_bound j PAGE_SIZE ltac:(done)). 
  assert (o mod 8 = (va + j) mod 8) as Ho by (rewrite <-Hmod; apply Z.mod_mod_divide; by exists 512).
  exists (upd s q (o / 8) (set_field (8 * (o mod 8)) 8 (rd (phys s) q (o / 8)) 0)). split_and!.
  - unfold store_n, aligned. rewrite bool_decide_eq_true_2 by apply Z.mod_1_r. unfold bind, load, store. fold (root_of s).
    rewrite Hm, E1. cbv beta iota. fold (root_of s). rewrite Hm, E2. change 4096 with PAGE_SIZE. by rewrite Hmod, <-Ho.
  - constructor; [done..| |]; intros; cbn; [by apply hw_walk_wr_data|by apply node_page_wr_data].
  - by apply vm_inv_upd_data.
  - intros q' o' Ho'. cbn. rewrite byte_of_set by lia. done.
  - intros q' i Hq'. cbn. apply rd_wr_ne. congruence.
Qed.

Lemma seg_map_data s s' va p n : data_only s s' -> seg_map s va p n -> seg_map s' va p n.
Proof. intros Hd Hm i Hi. unfold translates. rewrite (data_only_root _ _ Hd), (do_walk _ _ Hd). by apply Hm. Qed.

Lemma clear_bytes_spec k s va p n a l :
  vm_inv s l -> seg_map s va p n -> va mod PAGE_SIZE = 0 -> 0 <= va -> va + n * PAGE_SIZE < 2 ^ 64 ->
  0 <= a -> a + Z.of_nat k <= n * PAGE_SIZE -> (forall i, 0 <= i < n -> not_table s (p + i) /\ p + i ∉ l) ->
  exists s', clear_bytes (seqZ a (Z.of_nat k)) va s = Done (tt, s') /\ data_only s s' /\ vm_inv s' l /\
    (forall j, 0 <= j < n * PAGE_SIZE -> byte_of (phys s') (p + j / PAGE_SIZE) (j mod PAGE_SIZE) =
       if decide (a <= j < a + Z.of_nat k) then 0 else byte_of (phys s) (p + j / PAGE_SIZE) (j mod PAGE_SIZE)) /\
    (forall q i, ~ p <= q < p + n -> rd (phys s') q i = rd (phys s) q i).
Proof.
  revert s a. induction k as [|k IH]; intros s a Hs Hm Ha Hva Hend Ha0 Hk Hp.
  { exists s. split_and!; try done. intros j Hj. by rewrite decide_False by lia. }
  assert (0 <= a / PAGE_SIZE < n) as Hi by (apply page_index; lia).
  destruct (store_byte s va p n a l Hs Hm Ha ltac:(lia)) as (s1 & E & Hd & Hs1 & Hb & Hr); [by apply Hp..|].
  destruct (IH s1 (a + 1) Hs1) as (s' & E' & Hd' & Hs' & Hb' & Hr'); [by eapply seg_map_data|done|lia|lia|lia|lia| |].
  { intros i Hin. rewrite (not_table_data s s1) by done. by apply Hp. }
  exists s'. split_and!; [|by eapply data_only_trans|done| |].
  - rewrite seqZ_cons by lia. cbn [clear_bytes]. rewrite wrap_small by (unfold fits, PAGE_SIZE in *; lia). erewrite bind_done by exact E.
    cbv beta. replace (Z.pred (Z.of_nat (S k))) with (Z.of_nat k) by lia. exact E'.
  - intros j Hj. rewrite Hb' by done. pose proof (Z.mod_pos_bound j PAGE_SIZE ltac:(done)). rewrite Hb by lia.
    pose proof (Z.div_mod j PAGE_SIZE ltac:(done)). pose proof (Z.div_mod a PAGE_SIZE ltac:(done)).
    destruct (decide (a = j)) as [->|Hne].
    + rewrite (decide_False (P := j + 1 <= j < _)), !decide_True by (done || lia). done.
    + rewrite (decide_False (P := (_, _) = _)) by (intros [= E1 E2]; apply Hne; replace (j / PAGE_SIZE) with (a / PAGE_SIZE) in * by lia; lia).
      repeat case_decide; try done; lia.
  - intros q i Hq. rewrite Hr' by done. apply Hr. lia.
Qed.

(** A segment that can be mapped: its addresses are free, and its pages are neither tables nor
    in the allocator. *)
Record seg_ok s (l : list PPN) (g : Segment) : Prop := mk_seg_ok {
  so_span : span_ok (address g) (count (ppn g));
  so_ppn : 0 <= start (ppn g) /\ start (ppn g) + count (ppn g) <= 2 ^ 32;
  so_clear : 0 <= clear_from g <= clear_to g /\ clear_to g <= count (ppn g) * PAGE_SIZE;
  so_data : forall p, p ∈ ppns (ppn g) -> not_table s p /\ p ∉ l;
  so_none : forall i, 0 <= i < count (ppn g) -> translates s (page_at (address g) i) = None
}.

(** The bytes the kernel clears for a segment, as places in memory. *)
Definition clears (g : Segment) (p i : Z) : Prop := clear_from g <= (p - start (ppn g)) * PAGE_SIZE + i < clear_to g.

#[export] Instance clears_dec g p i : Decision (clears g p i).
Proof. unfold clears. apply _. Defined.

(** The addresses of a segment lead to its pages. *)
Definition seg_mapped s (g : Segment) : Prop := seg_map s (address g) (start (ppn g)) (count (ppn g)).

Definition seg_apart (g : Segment) (va : Z) : Prop := forall i, 0 <= i < count (ppn g) -> ~ same_page (page_at (address g) i) va.

Lemma load_segment_spec s l g :
  vm_inv s l -> seg_ok s l g -> 2 * count (ppn g) <= zlen l ->
  exists s' l', load_segment g s = Done (tt, s') /\ vm_inv s' l' /\ l' `suffix_of` l /\ zlen l <= 2 * count (ppn g) + zlen l' /\
    seg_mapped s' g /\
    (forall va, not_window va -> seg_apart g va -> translates s' va = translates s va) /\
    (forall p, not_table s p -> p ∉ l -> not_table s' p /\ forall i, 0 <= i < PAGE_SIZE ->
       byte_of (phys s') p i = if decide (clears g p i) then 0 else byte_of (phys s) p i).
Proof.
  intros Hs [Hsp [Hp0 Hp] [Hc0 Hc] Hd Hn] Hl. pose proof (ro_len _ _ Hsp) as Hcnt. destruct g as [va [p c] fl cf ct]. cbn [address ppn start count clear_from clear_to] in *.
  assert (length (seqZ p c) = Z.to_nat c) as Hsl by apply length_seqZ. assert (zlen (seqZ p c) = c) as Hsz by (unfold zlen; lia).
  destruct (add_frames_spec (seqZ p c) s va l RWX_RWX UserLocal Hs) as (s1 & l' & E & Hs1 & Hl' & Hlen & Es1 & [Hg1 Hg2] & Hmap' & Hrest);
    rewrite ?Hsz, ?Hsl in *; try done; [unfold zlen in *; lia|apply Forall_forall; intros q Hq%elem_of_seqZ; unfold fits; lia|].
  assert (seg_map s1 va p c) as Hmap.
  { intros i Hi. apply Hmap'. unfold nth_z. rewrite decide_True, lookup_seqZ_lt by lia. f_equal. lia. }
  assert (root_of s1 = root_of s) as Er by (unfold root_of; by rewrite Es1).
  assert (forall q, not_table s q -> q ∉ l -> not_table s1 q) as Hnt.
  { intros q Hq Hql nd. rewrite Er. intros [Ho|Ho]%Hg1; [by apply Hq in Ho|done]. }
  assert (forall i, 0 <= i < c -> p + i ∈ ppns (mkPPNRange p c)) as Hin by (intros; apply elem_of_ppns; cbn; lia).
  destruct (ro_first _ _ Hsp) as ([Hva _] & _ & Hva0). pose proof (ro_end _ _ Hsp) as Hend.
  destruct (clear_bytes_spec (Z.to_nat (ct - cf)) s1 va p c cf l' Hs1 Hmap Hva0 Hva Hend) as (s' & E' & Hd' & Hs' & Hb & Hr);
    rewrite ?Z2Nat.id in * by lia; [lia|lia| |].
  { intros i Hi. destruct (Hd _ (Hin i Hi)) as [H1 H2]. split; [by apply Hnt|]. destruct Hl' as [k ->]. intros Hx. apply H2. by apply elem_of_app; right. }
  exists s', l'. split_and!; try done.
  - unfold load_segment. cbn [ppn address clear_from clear_to]. unfold PPNRange_len. cbn [count].
    assert (map_pages (S (Z.to_nat c)) (mkPPNRange p c) va s = Done (tt, s1)) as E1
      by (pose proof (map_pages_frames (Z.to_nat c) (S (Z.to_nat c)) p va s ltac:(lia) ltac:(lia)) as Em; rewrite Z2Nat.id in Em by lia; by rewrite Em by lia).
    by erewrite bind_done by exact E1.
  - unfold zlen in *. lia.
  - by apply (seg_map_data s1).
  - intros va' Hva' Hap. unfold translates. rewrite (data_only_root _ _ Hd'), (do_walk _ _ Hd'). by apply Hrest.
  - intros q Hq Hql. rewrite (not_table_data s1 s') by done. split; [by apply Hnt|]. intros i Hi. unfold clears. cbn [clear_from clear_to ppn start].
    destruct (decide (p <= q < p + c)) as [Hqp|Hqp].
    + specialize (Hb ((q - p) * PAGE_SIZE + i) ltac:(unfold PAGE_SIZE in *; lia)). rewrite Z.div_add_l, (Z.div_small i), (Z.add_comm _ i), Z.mod_add, (Z.mod_small i), (Z.add_comm i) in Hb by done.
      replace (p + (q - p + 0)) with q in Hb by lia. replace (cf + (ct - cf)) with ct in Hb by lia. rewrite Hb, (byte_of_ext (phys s) (phys s1)) by (intros; by apply Hg2).
      clear. repeat case_decide; done.
    + rewrite decide_False by (unfold PAGE_SIZE in *; lia). apply byte_of_ext. intros i'. rewrite Hr by done. by apply Hg2.
Qed.

(** Segments that share no address.  They may share pages. *)
Definition seg_disjoint (g1 g2 : Segment) : Prop :=
  forall i j, 0 <= i < count (ppn g1) -> 0 <= j < count (ppn g2) -> ~ same_page (page_at (address g1) i) (page_at (address g2) j).

Fixpoint pages_of (segs : list Segment) : Z := match segs with [] => 0 | g :: segs => count (ppn g) + pages_of segs end.

Lemma same_page_sym x y : same_page x y -> same_page y x.
Proof. unfold same_page. intuition congruence. Qed.

Lemma span_not_window va n i : span_ok va n -> 0 <= i < n -> not_window (page_at va i).
Proof. intros Hs Hi. by apply mappable_not_window, Hs. Qed.

Lemma seg_ok_keep s s' l l' g :
  l' `suffix_of` l -> (forall i, 0 <= i < count (ppn g) -> translates s' (page_at (address g) i) = translates s (page_at (address g) i)) ->
  (forall p, not_table s p -> p ∉ l -> not_table s' p) -> seg_ok s l g -> seg_ok s' l' g.
Proof.
  intros [k ->] Ht Hn [H1 H2 H3 H4 H5]. constructor; [done..| |].
  - intros p [Hp Hl]%H4. split; [by apply Hn|]. intros Hx. by apply Hl, elem_of_app; right.
  - intros i Hi. rewrite Ht by done. by apply H5.
Qed.

Lemma load_segments_spec segs s l :
  vm_inv s l -> Forall (seg_ok s l) segs -> ForallOrdPairs seg_disjoint segs -> 2 * pages_of segs <= zlen l ->
  exists s' l', load_segments segs s = Done (tt, s') /\ vm_inv s' l' /\ Forall (seg_mapped s') segs /\
    (forall va, not_window va -> Forall (fun g => seg_apart g va) segs -> translates s' va = translates s va) /\
    (forall p i, not_table s p -> p ∉ l -> 0 <= i < PAGE_SIZE ->
       byte_of (phys s') p i = if decide (Exists (fun g => clears g p i) segs) then 0 else byte_of (phys s) p i).
Proof.
  intros Hs Hok Hap. revert s l Hs Hok. induction Hap as [|g segs Hg Hap IH]; intros s l Hs Hok Hl.
  { exists s, l. by split_and!. }
  apply Forall_cons in Hok as [Hok1 Hok]. pose proof (so_span _ _ _ Hok1) as Hsp. pose proof (ro_len _ _ Hsp) as Hc. cbn [pages_of] in Hl.
  assert (0 <= pages_of segs) as Hpos.
  { clear -Hok. induction Hok as [|g' segs Hg' _ IH]; [done|]. cbn. pose proof (ro_len _ _ (so_span _ _ _ Hg')). lia. }
  destruct (load_segment_spec s l g Hs Hok1 ltac:(lia)) as (s1 & l1 & E & Hs1 & Hl1 & Hlen & Hld & Htr & Hkeep).
  rewrite Forall_forall in Hg, Hok.
  destruct (IH s1 l1 Hs1) as (s' & l' & E' & Hs' & Hlds & Htr' & Hkeep'); [|lia|].
  { apply Forall_forall. intros g' Hg'. pose proof (Hok g' Hg') as Hok'. apply (seg_ok_keep s s1 l l1); [done| |intros; by apply Hkeep|done].
    intros i Hi. apply Htr; [by eapply span_not_window, Hi; apply Hok'|]. intros i' Hi'. by apply (Hg g' Hg'). }
  exists s', l'. split_and!.
  - cbn [load_segments]. by erewrite bind_done by exact E.
  - done.
  - apply Forall_cons. split.
    + intros i Hi. rewrite Htr'; [by apply Hld|by eapply span_not_window|].
      apply Forall_forall. intros g' Hg' i' Hi' Hx%same_page_sym. by apply (Hg g' Hg') in Hx.
    + done.
  - intros va Hva [Hva1 Hva2]%Forall_cons. rewrite Htr' by done. by apply Htr.
  - intros p i Hp Hpl Hi. destruct (Hkeep p Hp Hpl) as [Hk1 Hk2]. rewrite Hkeep'; [|done| |done].
    + rewrite Hk2 by done. destruct (decide (Exists _ segs)) as [Hx|Hx]; [by rewrite decide_True by by right|].
      destruct (decide (clears g p i)) as [Hc1|Hc1]; [by rewrite decide_True by by left|]. by rewrite decide_False by by intros [?|?]%Exists_cons.
    + destruct Hl1 as [k ->]. intros Hx. by apply Hpl, elem_of_app; right.
Qed.

(** A byte of the program's memory. *)
Definition user_byte s (va : Z) : option Z :=
  match translates s va with Some (p, _) => Some (byte_of (phys s) p (va mod PAGE_SIZE)) | None => None end.

(** The file [d] is in memory at [base]. *)
Definition file_at s (base : Z) (d : list Z) : Prop :=
  forall i x, nth_z d i = Some x -> byte_of (phys s) ((base + i) / PAGE_SIZE) ((base + i) mod PAGE_SIZE) = x.

Lemma seg_byte s g j :
  seg_mapped s g -> address g mod PAGE_SIZE = 0 -> 0 <= j < count (ppn g) * PAGE_SIZE ->
  user_byte s (address g + j) = Some (byte_of (phys s) (start (ppn g) + j / PAGE_SIZE) (j mod PAGE_SIZE)).
Proof.
  intros Hm Ha Hj. destruct (byte_in_page (address g) j Ha) as [Hd Hmod]. pose proof (page_index _ _ Hj) as Hi.
  specialize (Hm _ Hi). unfold translates in Hm. rewrite (hw_walk_same _ _ (address g + j)) in Hm by by apply same_page_div.
  unfold user_byte, translates. rewrite Hm. cbn. by rewrite Hmod.
Qed.

Lemma file_byte base h j :
  base mod PAGE_SIZE = 0 -> let k := page_offset h + j in
  start (ppn (segment base h)) + k / PAGE_SIZE = (base + (p_offset h + j)) / PAGE_SIZE /\ k mod PAGE_SIZE = (base + (p_offset h + j)) mod PAGE_SIZE.
Proof.
  intros Ha k. unfold segment. cbn [ppn start]. assert ((base + p_offset h - page_offset h) mod PAGE_SIZE = 0) as Hz.
  { replace (base + p_offset h - page_offset h) with (base + (p_offset h - page_offset h)) by lia. unfold page_offset. rewrite Zplus_mod, Ha, aligned_down. done. }
  destruct (byte_in_page _ k Hz) as [Hd Hm]. replace (base + (p_offset h + j)) with (base + p_offset h - page_offset h + k) by lia.
  rewrite Hm. split; [|done]. rewrite Hd. unfold page_at. rewrite Z.div_add by done. lia.
Qed.

(** The place of the byte [k] of the file is cleared for a header exactly when the header has it
    in the part of its memory that the file has no bytes for. *)
Definition clears_at (k : Z) (h : ProgramHeader) : Prop := p_offset h + file_size h <= k < p_offset h + memory_size h.

#[export] Instance clears_at_dec k h : Decision (clears_at k h).
Proof. unfold clears_at. apply _. Defined.

Lemma clears_segment base h k :
  base mod PAGE_SIZE = 0 -> clears (segment base h) ((base + k) / PAGE_SIZE) ((base + k) mod PAGE_SIZE) <-> clears_at k h.
Proof.
  intros Ha. destruct (segment_holds base h Ha) as [Hs _]. unfold clears, clears_at. pose proof (Z.div_mod (base + k) PAGE_SIZE ltac:(done)).
  replace (virtual_address h - address (segment base h)) with (page_offset h) in Hs by (cbn; lia).
  cbn [segment clear_from clear_to] in *. lia.
Qed.

Lemma clears_segments base hs k :
  base mod PAGE_SIZE = 0 ->
  Exists (fun g => clears g ((base + k) / PAGE_SIZE) ((base + k) mod PAGE_SIZE)) (segment base <$> hs) <-> Exists (clears_at k) hs.
Proof. intros Ha. rewrite Exists_fmap, !Exists_exists. cbn. split; intros (h & Hh & Hx); exists h; by rewrite clears_segment in *. Qed.
End mapping.

Section program.
Context {A : Type} `{FrameAllocator A}.

(** C15: The kernel loads the first program.  A file in the format that lies in memory at a page
    boundary is parsed and its segments, which share no address, are mapped; then the program
    sees, at the address of every loadable segment, the bytes the file has for it, and zeroes up
    to the size in memory.  The pages of the file are mapped themselves and may be shared: a byte
    of the file that lies where another segment has memory beyond its own bytes is zero too. *)
Theorem elf_program_loaded (s : Machine A) (l : list PPN) ent flags phs content base cap :
  let d := make_elf ent flags phs content in
  let segs := segment base <$> loads phs in
  fits 64 ent -> fits 32 flags -> Z.ldiff flags ELF_FLAGS = 0 -> fits 16 (zlen phs) -> headers_ok (zlen d) base phs ->
  Forall (fun h => p_offset h + file_size h <= zlen d) phs ->
  (length phs <= cap)%nat -> 0 <= base -> base mod PAGE_SIZE = 0 -> file_at s base d ->
  vm_inv s l -> Forall (seg_ok s l) segs -> ForallOrdPairs seg_disjoint segs -> 2 * pages_of segs <= zlen l ->
  parse d base cap = Done (segs, ent) /\
  exists s' l', load_segments segs s = Done (tt, s') /\ vm_inv s' l' /\
    forall h j, h ∈ loads phs -> 0 <= j < memory_size h ->
      user_byte s' (virtual_address h + j) =
        if decide (j < file_size h /\ ~ Exists (clears_at (p_offset h + j)) (loads phs)) then nth_z d (p_offset h + j) else Some 0.
Proof.
  intros d segs He Hfl Hfm Hn Hok Hfs Hc Hb Ha Hfile Hs Hsegs Hap Hl. split; [by apply parse_make_elf|].
  destruct (load_segments_spec segs s l Hs Hsegs Hap Hl) as (s' & l' & E & Hs' & Hld & _ & Hby). exists s', l'. split; [done|]. split; [done|].
  intros h j Hh Hj. assert (segment base h ∈ segs) as Hg by by apply list_elem_of_fmap_2.
  pose proof Hh as [_ Hph]%list_elem_of_filter. apply Forall_forall with (x := h) in Hok as [Hff _], Hfs; try done.
  rewrite Forall_forall in Hld, Hsegs. pose proof (Hsegs _ Hg) as Hsg. destruct (ro_first _ _ (so_span _ _ _ Hsg)) as (_ & _ & Haddr).
  destruct (segment_holds base h Ha) as [_ Hsz].
  pose proof (Z.mod_pos_bound (p_offset h) PAGE_SIZE ltac:(done)) as Hpo. fold (page_offset h) in Hpo.
  destruct (file_byte base h j Ha) as [Hp1 Hp2]. unfold PPNRange_len in Hsz.
  replace (virtual_address h - address (segment base h)) with (page_offset h) in Hsz by (cbn; lia).
  replace (virtual_address h + j) with (address (segment base h) + (page_offset h + j)) by (cbn; lia).
  rewrite (seg_byte _ _ _ (Hld _ Hg) Haddr) by lia. destruct (so_data _ _ _ Hsg (start (ppn (segment base h)) + (page_offset h + j) / PAGE_SIZE)) as [Hd1 Hd2].
  { apply elem_of_ppns. pose proof (page_index (page_offset h + j) (count (ppn (segment base h))) ltac:(lia)). lia. }
  rewrite Hby by (done || by apply Z.mod_pos_bound). rewrite Hp1, Hp2.
  rewrite (decide_ext _ _ _ _ (clears_segments base (loads phs) (p_offset h + j) Ha)).
  destruct (decide (Exists _ _)) as [Hx|Hx]; [by rewrite decide_False by by intros [_ ?]|].
  assert (j < file_size h) as Hlt.
  { destruct (decide (j < file_size h)); [done|]. exfalso. apply Hx, Exists_exists. exists h. split; [done|]. unfold clears_at. lia. }
  rewrite decide_True by done. destruct (nth_z_lt d (p_offset h + j)) as [x E1]; [destruct Hff as (_ & _ & Ho & _); unfold fits in Ho; lia|].
  rewrite E1. f_equal. by apply Hfile.
Qed.
End program.

(** ** A program of one segment *)

Definition tiny_header : ProgramHeader := mkProgramHeader 1 5 120 0x10078 0x10078 8 16 4096.
Definition tiny_elf : list Z := make_elf 0x10078 5 [tiny_header] [1; 2; 3; 4; 5; 6; 7; 8].

(** The words of a page. *)
Fixpoint put_words {A} (s : Machine A) (p i : Z) (ws : list Z) : Machine A :=
  match ws with [] => s | w :: ws => put_words (upd s p i w) p (i + 1) ws end.

Lemma put_words_inv ws {A} `{FrameAllocator A} (s : Machine A) p i l : not_table s p -> p ∉ l -> vm_inv s l -> vm_inv (put_words s p i ws) l.
Proof.
  revert s i. induction ws as [|w ws IH]; intros s i Hp Hl Hs; [done|]. cbn. apply IH; [|done|by apply vm_inv_upd_data].
  intros n. cbn. rewrite node_page_wr_data by done. apply Hp.
Qed.

Definition words (d : list Z) : list Z := (fun k => le_combine (take 8 (drop (Z.to_nat (8 * k)) d))) <$> seqZ 0 (zlen d / 8).

Definition elf_machine : Machine Pmm := put_words (machine_with [6; 5]) 0x100 0 (words tiny_elf).

Lemma elf_machine_inv : vm_inv elf_machine [6; 5].
Proof.
  apply put_words_inv; [|set_solver by lia|].
  - intros n. apply no_table_word_node; [done|]. apply (bool_decide_unpack _). by vm_compute.
  - apply machine_with_inv; [by apply (bool_decide_unpack _)| |cbn; lia]. apply (bool_decide_unpack _). by vm_compute.
Qed.

Lemma elf_machine_file : file_at elf_machine 0x100000 tiny_elf.
Proof.
  intros i x Hx. pose proof (nth_z_Some _ _ _ Hx) as Hi. change (zlen tiny_elf) with 128 in Hi.
  assert (Forall (fun i => Some (byte_of (phys elf_machine) ((0x100000 + i) / PAGE_SIZE) ((0x100000 + i) mod PAGE_SIZE)) = nth_z tiny_elf i) (seqZ 0 128)) as Hall
    by (apply (bool_decide_unpack _); by vm_compute).
  rewrite Forall_forall in Hall. specialize (Hall i). rewrite elem_of_seqZ, Hx in Hall. apply (inj Some), Hall. lia.
Qed.

Lemma elf_machine_seg : seg_ok elf_machine [6; 5] (segment 0x100000 tiny_header).
Proof.
  assert (segment 0x100000 tiny_header = mkSegment 0x10000 (mkPPNRange 0x100 1) RWX_RX 128 136) as -> by by vm_compute.
  constructor; cbn [address ppn start count clear_from clear_to].
  - constructor; [by vm_compute|lia|by vm_compute|]. intros i Hi. assert (i = 0) as -> by lia. unfold mappable. by vm_compute.
  - lia.
  - unfold PAGE_SIZE. lia.
  - intros p Hp. apply elem_of_ppns in Hp. cbn in Hp. assert (p = 0x100) as -> by lia. split; [|set_solver by lia].
    intros n. apply no_table_word_node; [done|]. apply (bool_decide_unpack _). by vm_compute.
  - intros i Hi. assert (i = 0) as -> by lia. by vm_compute.
Qed.

Lemma elf_program_loaded_witness :
  parse tiny_elf 0x100000 32 = Done ([segment 0x100000 tiny_header], 0x10078) /\
  exists s', load_segments [segment 0x100000 tiny_header] elf_machine = Done (tt, s') /\
    user_byte s' 0x1007b = Some 4 /\ user_byte s' 0x10080 = Some 0.
Proof.
  destruct (elf_program_loaded elf_machine [6; 5] 0x10078 5 [tiny_header] [1; 2; 3; 4; 5; 6; 7; 8] 0x100000 32)
    as (E & s' & l' & El & _ & Hb).
  1-4: by vm_compute.
  - apply Forall_singleton. split; [by vm_compute|]. intros _. unfold loadable. split; [by eexists|]. by vm_compute.
  - apply Forall_singleton. by vm_compute.
  - cbn. lia.
  - lia.
  - done.
  - exact elf_machine_file.
  - exact elf_machine_inv.
  - apply Forall_singleton, elf_machine_seg.
  - repeat constructor.
  - by vm_compute.
  - split; [exact E|]. exists s'. split; [exact El|]. clear E El. split.
    + change 0x1007b with (virtual_address tiny_header + 3). rewrite (Hb tiny_header 3); [by vm_compute|by left|by vm_compute].
    + change 0x10080 with (virtual_address tiny_header + 8). rewrite (Hb tiny_header 8); [by vm_compute|by left|by vm_compute].
Defined.
