(* ===== verification/Pci.v ===== *)
(** * The PCI library

    src/lib/rust/pci/src/lib.rs: the configuration area of a PCI bus in memory, its headers,
    base addresses and capabilities, and the iterators over busses, devices and functions.

    The area is a set of 32-bit registers.  A register that is not there reads as ones and
    ignores writes; a write to a register changes the bits the device has made writable.
    That is how the PCI specification describes the hardware; [VolatileCell] and the
    little-endian types of the source are plain reads and writes of it.

    The theorems: the iterator of a bus gives exactly the devices that are there, the
    capabilities of a header are those of its chain, and asking a base address for its size
    and restoring it changes nothing. *)

From S2P Require Import Prelude Page UserMem.

(** ** The hardware *)

Abbreviation Cfg := (gmap Z Z).

Section hardware.
(** The writable bits of the register at an address. *)
Context (wmask : Z -> Z).

Definition rd32 (c : Cfg) (a : Z) : Z := default 0xffffffff (c !! (a / 4)).
Definition rd16 (c : Cfg) (a : Z) : Z := get_field (8 * (a mod 4)) 16 (rd32 c a).
Definition rd8 (c : Cfg) (a : Z) : Z := get_field (8 * (a mod 4)) 8 (rd32 c a).

Definition wr32 (c : Cfg) (a v : Z) : Cfg :=
  match c !! (a / 4) with
  | None => c
  | Some w => <[a / 4 := Z.lor (Z.land v (wmask (a / 4))) (Z.ldiff w (wmask (a / 4)))]> c
  end.

Definition wr16 (c : Cfg) (a v : Z) : Cfg := wr32 c a (set_field (8 * (a mod 4)) 16 (rd32 c a) v).

(** ** Base addresses *)

Definition BAR_IO_SPACE : Z := 1.
Definition BAR_TYPE_MASK : Z := 0x6.

Definition is_mmio (value : Z) : bool := bool_decide (Z.land value 1 = 0).
Definition is_io (value : Z) : bool := bool_decide (Z.land value 1 = 1).
Definition is_64bit (value : Z) : bool := bool_decide (Z.land value 0x6 = 0x4).
Definition is_32bit (value : Z) : bool := bool_decide (Z.land value 0x6 = 0x0).

Definition BaseAddress_get (c : Cfg) (b : Z) : Z := rd32 c b.
Definition BaseAddress_set (c : Cfg) (b value : Z) : Cfg := wr32 c b value.

(** [!masked + 1] wraps; it is zero for no [masked] but zero. *)
Definition BaseAddress_size (c : Cfg) (b : Z) : option Z * Z * Cfg :=
  let og := BaseAddress_get c b in
  let mask := if is_mmio og then 0xfffffff0 else 0xfffffffc in
  let c := BaseAddress_set c b 0xffffffff in
  let masked := Z.land (BaseAddress_get c b) mask in
  (if decide (masked <> 0) then Some (wrap 32 (2 ^ 32 - 1 - masked + 1)) else None, og, c).

(** ** Headers, by the address they are at *)

Definition COMMAND_MMIO_MASK : Z := 0x2.
Definition COMMAND_BUS_MASTER_MASK : Z := 0x4.
Definition COMMAND_INTERRUPT_DISABLE : Z := Z.shiftl 1 10.

Inductive Header := H0 (a : Z) | H1 (a : Z) | Unknown (a : Z).

Definition common (h : Header) : Z := match h with H0 a | H1 a | Unknown a => a end.

Definition vendor_id (c : Cfg) (h : Header) : Z := rd16 c (common h).
Definition device_id (c : Cfg) (h : Header) : Z := rd16 c (common h + 2).
Definition header_type (c : Cfg) (h : Header) : Z := rd8 c (common h + 14).
Definition subclass (c : Cfg) (h : Header) : Z := rd8 c (common h + 10).
Definition class_code (c : Cfg) (h : Header) : Z := rd8 c (common h + 11).
Definition secondary_bus_number (c : Cfg) (a : Z) : Z := rd8 c (a + 0x19).

Definition set_command (c : Cfg) (h : Header) (flags : Z) : Cfg := wr16 c (common h + 4) flags.

Definition BASE_ADDRESS_COUNT : Z := 6.

(** The registers of the base addresses. *)
Definition base_addresses (h : Header) : list Z :=
  match h with
  | H0 a => (fun i => a + 0x10 + 4 * i) <$> seqZ 0 6
  | H1 a => (fun i => a + 0x10 + 4 * i) <$> seqZ 0 2
  | Unknown _ => []
  end.

(** [Header0::base_address] and [set_base_address]. *)
Definition base_address (c : Cfg) (a index : Z) : outcome Z :=
  if decide (0 <= index < 6) then Done (BaseAddress_get c (a + 0x10 + 4 * index)) else Panicked "index out of bounds".

Definition set_base_address (c : Cfg) (a index value : Z) : outcome Cfg :=
  if decide (0 <= index < 6) then Done (BaseAddress_set c (a + 0x10 + 4 * index) value) else Panicked "index out of bounds".

Definition Header_size : Z := Z.shiftl 1 12.

Definition from_raw (c : Cfg) (a : Z) : Header :=
  let t := Z.land (rd8 c (a + 14)) 0x7f in
  if decide (t = 0) then H0 a else if decide (t = 1) then H1 a else Unknown a.

(** ** Capabilities *)

Definition capability_id (c : Cfg) (p : Z) : Z := rd8 c p.

(** [Capability::data] is the address of the capability itself. *)
Definition capability_data (p : Z) : Z := p.

Definition capabilities (c : Cfg) (a : Z) : option Z := Some (a + rd8 c (a + 0x34)).

Definition CapabilityIter_next (c : Cfg) (next : option Z) : option Z * option Z :=
  match next with
  | None => (None, None)
  | Some p =>
    let offset := rd8 c (p + 1) in
    (Some p, if decide (offset <> 0) then
               let n := wrap 64 (Z.ldiff p 0xff + offset) in if decide (n = 0) then None else Some n
             else None)
  end.

(** [for cap in header.capabilities()]; the fuel bounds the capabilities. *)
Fixpoint all_capabilities (fuel : nat) (c : Cfg) (next : option Z) : outcome (list Z) :=
  match fuel with
  | O => OutOfFuel
  | S fuel =>
    match CapabilityIter_next c next with
    | (None, _) => Done []
    | (Some p, next) => let! l := all_capabilities fuel c next in Done (p :: l)
    end
  end.

(** ** The area *)

Record PhysicalMemory := mkPhysicalMemory { physical : Z; virt : Z; mem_size : Z }.

Record PCI := mkPCI {
  pci_start : Z; physical_address : Z; pci_size : Z; mem : list (option PhysicalMemory); alloc_counter : Z
}.

Definition PCI_new (start physical_address size : Z) (mem : list PhysicalMemory) : outcome PCI :=
  if decide (zlen mem <= 8) then
    Done (mkPCI start physical_address size ((Some <$> mem) ++ replicate (8 - length mem) None) 0)
  else Panicked "index out of bounds".

Definition offset (bus device function : Z) : outcome Z :=
  if decide (device < 32 /\ function < 8) then
    Done (Z.lor (Z.lor (Z.shiftl bus 20) (Z.shiftl device 15)) (Z.shiftl function 12))
  else Panicked "assertion failed: device < 32 && function < 8".

Definition get_unchecked (p : PCI) (c : Cfg) (bus device function : Z) : outcome Header :=
  let! offt := offset bus device function in
  Done (from_raw c (pci_start p + offt)).

Definition pci_get (p : PCI) (c : Cfg) (bus device function : Z) : outcome (option Header) :=
  let! h := get_unchecked p c bus device function in
  Done (if decide (vendor_id c h = 0xffff) then None else Some h).

Definition get_physical_address (p : PCI) (bus device function : Z) : outcome Z :=
  let! offt := offset bus device function in Done (wrap 64 (physical_address p + offt)).

Definition get_child_address (bus device function : Z) : outcome Z :=
  let! offt := offset bus device function in
  match try_into 32 (Z.shiftr offt 4) with Some a => Done a | None => Panicked "called `Result::unwrap()` on an `Err` value" end.

Record MMIO := mkMMIO { mmio_physical : Z; mmio_virt : Z; mmio_size : Z }.

(** The counter is in bytes, and [virt] is a pointer to pages. *)
Definition allocate_mmio (p : PCI) (size flags : Z) : outcome (MMIO * PCI) :=
  if decide (size <= Z.shiftl 1 16) then
    let size := Z.shiftl 1 16 in
    let c := alloc_counter p in
    let p' := mkPCI (pci_start p) (physical_address p) (pci_size p) (mem p) (wrap 64 (c + size)) in
    match nth_z (mem p) 0 with
    | Some (Some m) =>
      let v := wrap 64 (virt m + c * PAGE_SIZE) in
      if decide (v = 0) then Panicked "called `Option::unwrap()` on a `None` value"
      else Done (mkMMIO (wrap 64 (physical m + c)) v size, p')
    | _ => Panicked "called `Option::unwrap()` on a `None` value"
    end
  else Panicked "TODO".

(** ** Iterators *)

(** [IterPCI]: the state is [bus]. *)
Definition IterPCI_next (p : PCI) (c : Cfg) (bus : Z) : outcome (option Z * Z) :=
  let go :=
    let bus := wrap 8 (bus + 1) in
    let! h := get_unchecked p c 0 0 bus in
    if decide (vendor_id c h <> 0xffff) then Done (None, 0xff) else Done (Some bus, bus) in
  if decide (bus = 0xff) then Done (None, bus)
  else if decide (bus = 0) then
    let! h := get_unchecked p c 0 0 0 in
    if decide (Z.land (header_type c h) 0x80 = 0) then Done (Some 0, 0xff) else go
  else go.

(** [IterBus]: the state is [device]; the fuel bounds the steps. *)
Fixpoint IterBus_next (fuel : nat) (p : PCI) (c : Cfg) (bus device : Z) : outcome (option Z * Z) :=
  match fuel with
  | O => OutOfFuel
  | S fuel =>
    if decide (device < 32) then
      let! h := pci_get p c bus device 0 in
      match h with
      | Some _ => Done (Some device, device + 1)
      | None => IterBus_next fuel p c bus (device + 1)
      end
    else Done (None, device)
  end.

Inductive FunctionItem := FHeader (h : Header) | FBus (bus : Z).

(** [IterDevice]: the state is [function]. *)
Definition IterDevice_next (p : PCI) (c : Cfg) (bus device function : Z) : outcome (option FunctionItem * Z) :=
  if decide (function = 0xff) then Done (None, function)
  else
    let! h := get_unchecked p c bus device function in
    if decide (vendor_id c h = 0xffff) then Done (None, 0xff)
    else
      let ht := header_type c h in
      Done (Some (if decide (Z.land ht 0x80 > 0) then
                    match h with
                    | H1 a => if decide (class_code c h = 0x6 /\ subclass c h = 0x4) then FBus (secondary_bus_number c a) else FHeader h
                    | _ => FHeader h
                    end
                  else FHeader h), function).

(** [Device]: the bus and device numbers. *)
Definition Device_header (p : PCI) (c : Cfg) (bus device : Z) : outcome Header := get_unchecked p c bus device 0.
Definition Device_vendor_id (p : PCI) (c : Cfg) (bus device : Z) : outcome Z :=
  let! h := Device_header p c bus device in Done (vendor_id c h).
Definition Device_device_id (p : PCI) (c : Cfg) (bus device : Z) : outcome Z :=
  let! h := Device_header p c bus device in Done (device_id c h).
Definition header_physical_address (p : PCI) (bus device : Z) : outcome Z := get_physical_address p bus device 0.
Definition child_address (bus device : Z) : outcome Z := get_child_address bus device 0.

(** [for dev in bus.iter()]; the fuel bounds the devices. *)
Fixpoint bus_devices (fuel : nat) (p : PCI) (c : Cfg) (bus device : Z) : outcome (list Z) :=
  match fuel with
  | O => OutOfFuel
  | S fuel =>
    let! '(d, device) := IterBus_next 33 p c bus device in
    match d with
    | None => Done []
    | Some d => let! l := bus_devices fuel p c bus device in Done (d :: l)
    end
  end.

(** [for bus in pci.iter()]. *)
Fixpoint pci_busses (fuel : nat) (p : PCI) (c : Cfg) (bus : Z) : outcome (list Z) :=
  match fuel with
  | O => OutOfFuel
  | S fuel =>
    let! '(b, bus) := IterPCI_next p c bus in
    match b with
    | None => Done []
    | Some b => let! l := pci_busses fuel p c bus in Done (b :: l)
    end
  end.
End hardware.

(** ** Devices of a bus *)

(** There is a device: function 0 has a vendor. *)
Definition present (p : PCI) (c : Cfg) (bus d : Z) : Prop :=
  rd16 c (pci_start p + Z.lor (Z.lor (Z.shiftl bus 20) (Z.shiftl d 15)) 0) <> 0xffff.

#[export] Instance present_dec p c bus d : Decision (present p c bus d).
Proof. unfold present. apply _. Defined.

Definition devices_from (p : PCI) (c : Cfg) (bus d : Z) : list Z := filter (present p c bus) (seqZ d (32 - d)).

Lemma common_from_raw c a : common (from_raw c a) = a.
Proof. unfold from_raw. repeat case_decide; done. Qed.

Lemma pci_get_device p c bus d :
  d < 32 -> exists h, pci_get p c bus d 0 = Done h /\ (is_Some h <-> present p c bus d).
Proof.
  intros Hd. unfold pci_get, get_unchecked, offset. rewrite decide_True by lia. cbn [obind]. unfold vendor_id. rewrite common_from_raw.
  eexists. split; [done|]. unfold present. rewrite Z.shiftl_0_l. case_decide; [split; [by intros []|done]|]. split; [done|by eexists].
Qed.

Lemma IterBus_next_spec p c bus fuel d :
  0 <= d <= 32 -> 32 - d < Z.of_nat fuel ->
  IterBus_next fuel p c bus d = match devices_from p c bus d with [] => Done (None, 32) | x :: _ => Done (Some x, x + 1) end.
Proof.
  revert d. induction fuel as [|fuel IH]; intros d Hd Hf; [lia|]. cbn [IterBus_next]. unfold devices_from. case_decide as Hlt.
  - destruct (pci_get_device p c bus d Hlt) as (h & -> & Hh). cbn [obind]. rewrite seqZ_cons by lia.
    replace (Z.pred (32 - d)) with (32 - Z.succ d) by lia. destruct h as [h|].
    + rewrite filter_cons_True; [done|]. apply Hh. by eexists.
    + rewrite filter_cons_False; [|intros Hp; apply Hh in Hp as [? [=]]]. change (d + 1) with (Z.succ d). rewrite IH by lia. done.
  - replace d with 32 by lia. done.
Qed.

(** The devices behind the first one. *)
Lemma devices_from_tail p c bus d x l : 0 <= d <= 32 -> devices_from p c bus d = x :: l -> d <= x < 32 /\ l = devices_from p c bus (x + 1).
Proof.
  intros Hd. remember (Z.to_nat (32 - d)) as n eqn:En. revert d Hd En. induction n as [|n IH]; intros d Hd En E.
  { replace d with 32 in E by lia. done. }
  unfold devices_from in E. rewrite seqZ_cons in E by lia. replace (Z.pred (32 - d)) with (32 - (d + 1)) in E by lia.
  change (Z.succ d) with (d + 1) in E. rewrite filter_cons in E. case_decide.
  - injection E as <- <-. split; [lia|done].
  - destruct (IH (d + 1)) as [Hx ->]; [lia|lia|done|]. split; [lia|done].
Qed.

Lemma bus_devices_spec p c bus fuel d :
  0 <= d <= 32 -> 32 - d < Z.of_nat fuel -> bus_devices fuel p c bus d = Done (devices_from p c bus d).
Proof.
  revert d. induction fuel as [|fuel IH]; intros d Hd Hf; [lia|]. cbn [bus_devices]. rewrite IterBus_next_spec by lia.
  destruct (devices_from p c bus d) as [|x l] eqn:E; [done|]. cbn [obind].
  destruct (devices_from_tail _ _ _ _ _ _ Hd E) as [Hx ->]. by rewrite IH by lia.
Qed.

(** Iterating over a bus ends, never panics, and gives exactly the devices that are there,
    each of them once and in order. *)
Theorem bus_iter_devices p c bus :
  bus_devices 33 p c bus 0 = Done (devices_from p c bus 0) /\ NoDup (devices_from p c bus 0) /\
  forall d, d ∈ devices_from p c bus 0 <-> 0 <= d < 32 /\ present p c bus d.
Proof.
  split; [by apply bus_devices_spec|]. unfold devices_from. split.
  - apply NoDup_filter, NoDup_seqZ.
  - intros d. rewrite list_elem_of_filter, elem_of_seqZ. naive_solver lia.
Qed.

(** ** Busses *)

Lemma host_header p c f : 0 <= f < 8 -> get_unchecked p c 0 0 f = Done (from_raw c (pci_start p + Z.shiftl f 12)).
Proof. intros. unfold get_unchecked, offset. by rewrite decide_True by lia. Qed.

(** A host bridge with one function: the only bus is the first one. *)
Theorem pci_iter_single p c :
  Z.land (rd8 c (pci_start p + 14)) 0x80 = 0 -> pci_busses 2 p c 0 = Done [0].
Proof.
  intros Hs. assert (IterPCI_next p c 0 = Done (Some 0, 0xff)) as E.
  { unfold IterPCI_next. rewrite decide_False, decide_True, host_header by (done || lia). cbn [obind].
    unfold header_type. rewrite common_from_raw. change (Z.shiftl 0 12) with 0. by rewrite Z.add_0_r, Hs. }
  cbn [pci_busses]. by rewrite E.
Qed.

(** A host bridge with several functions: the iterator asks for the functions that are missing
    instead of those that are there, and panics once it has seen seven of them. *)
Theorem pci_iter_multi_panics p c :
  Z.land (rd8 c (pci_start p + 14)) 0x80 <> 0 ->
  (forall f, 1 <= f < 8 -> rd16 c (pci_start p + Z.shiftl f 12) = 0xffff) ->
  pci_busses 9 p c 0 = Panicked "assertion failed: device < 32 && function < 8".
Proof.
  intros Hm Hf.
  assert (forall f, 0 <= f < 7 -> IterPCI_next p c f = Done (Some (f + 1), f + 1)) as Hstep.
  { intros f Hr. unfold IterPCI_next. rewrite decide_False by lia.
    assert (wrap 8 (f + 1) = f + 1) as Hw by (apply wrap_small; unfold fits; lia).
    rewrite Hw, !host_header by lia. cbn [obind]. unfold vendor_id, header_type. rewrite !common_from_raw.
    change (Z.shiftl 0 12) with 0. rewrite Z.add_0_r, (Hf (f + 1)) by lia. rewrite (decide_False (P := 0xffff <> 0xffff)) by (intros Hx; by apply Hx).
    case_decide; [|done]. by rewrite decide_False. }
  assert (IterPCI_next p c 7 = Panicked "assertion failed: device < 32 && function < 8") as Hp by reflexivity.
  do 7 (cbn [pci_busses]; rewrite Hstep by lia; cbn [obind]). cbn [pci_busses].
  change (0 + 1 + 1 + 1 + 1 + 1 + 1 + 1) with 7. by rewrite Hp.
Qed.

(** The iterator over the functions of a device gives the first one for ever. *)
Theorem device_iter_stays p c bus device x f :
  IterDevice_next p c bus device 0 = Done (Some x, f) -> f = 0.
Proof.
  unfold IterDevice_next. cbn [decide]. destruct (get_unchecked p c bus device 0); cbn [obind]; try done.
  repeat case_decide; congruence.
Qed.

(** ** Capabilities *)

(** The chain of capabilities at the offsets [os] of the header at [a]; [o] names the first. *)
Fixpoint cap_chain (c : Cfg) (a o : Z) (os : list Z) : Prop :=
  match os with
  | [] => False
  | [x] => o = x /\ 0 < x < 256 /\ rd8 c (a + x + 1) = 0
  | x :: os => o = x /\ 0 < x < 256 /\ rd8 c (a + x + 1) <> 0 /\ cap_chain c a (rd8 c (a + x + 1)) os
  end.

Lemma ldiff_header a x : a mod 256 = 0 -> 0 <= x < 256 -> Z.ldiff (a + x) 0xff = a.
Proof.
  intros Ha Hx. change 0xff with (Z.ones 8). rewrite Z.ldiff_ones_r, Z.shiftl_mul_pow2, Z.shiftr_div_pow2 by lia. change (2 ^ 8) with 256.
  pose proof (Z.div_mod a 256 ltac:(lia)) as Hd. rewrite Ha in Hd.
  replace (a + x) with (x + a / 256 * 256) by lia. rewrite Z.div_add, Z.div_small by lia. lia.
Qed.

(** Following the chain of a header ends and gives its capabilities, in order. *)
Theorem capabilities_chain c a os :
  0 < a -> a + 256 <= 2 ^ 64 -> a mod 256 = 0 -> cap_chain c a (rd8 c (a + 0x34)) os ->
  all_capabilities (S (length os)) c (capabilities c a) = Done ((fun o => a + o) <$> os).
Proof.
  intros Ha0 Hae Ha. unfold capabilities. generalize (rd8 c (a + 0x34)). induction os as [|x os IH]; intros o Hc; [done|].
  cbn [length]. remember (S (length os)) as fuel eqn:Ef. cbn [all_capabilities]. unfold CapabilityIter_next.
  destruct os as [|y os].
  - destruct Hc as (-> & Hx & E). rewrite E. cbn [decide]. rewrite decide_False by (intros Hz; by apply Hz). rewrite Ef. done.
  - destruct Hc as (-> & Hx & Hne & Hc). rewrite decide_True by done.
    assert (0 < rd8 c (a + x + 1) < 256) as Hn by (destruct os; destruct Hc as (? & ? & _); lia).
    rewrite ldiff_header, wrap_small by (done || unfold fits; lia). rewrite decide_False by lia. subst fuel. by rewrite IH.
Qed.

(** ** Sizes of base addresses *)

(** A write to a register whose bits from [k] on are writable. *)
Lemma masked_write v w k :
  fits 32 v -> fits 32 w -> 0 <= k <= 32 ->
  Z.lor (Z.land v (2 ^ 32 - 2 ^ k)) (Z.ldiff w (2 ^ 32 - 2 ^ k)) = v / 2 ^ k * 2 ^ k + w mod 2 ^ k.
Proof.
  intros Hv Hw Hk. assert (2 ^ 32 - 2 ^ k = Z.ones (32 - k) * 2 ^ k + 0) as ->.
  { rewrite Z.ones_equiv. replace (2 ^ 32) with (2 ^ (32 - k) * 2 ^ k) by (rewrite <-Z.pow_add_r by lia; f_equal; lia). lia. }
  assert (fits k (w mod 2 ^ k)) as Hl by (apply Z.mod_pos_bound; lia).
  apply Z.bits_inj'. intros i Hi. rewrite Z.lor_spec, Z.land_spec, Z.ldiff_spec, !field_testbit by (done || unfold fits; lia).
  case_decide as Hik; [rewrite Z.bits_0, andb_false_r, andb_true_r; by rewrite Z.mod_pow2_bits_low by lia|].
  rewrite Z.div_pow2_bits by lia. replace (i - k + k) with i by lia. destruct (decide (i < 32)).
  - rewrite Z.ones_spec_low by lia. by rewrite andb_true_r, andb_false_r, orb_false_r.
  - rewrite Z.ones_spec_high by lia. rewrite andb_false_r, andb_true_r, !(testbit_high_0 32) by (done || lia). done.
Qed.

Section sizes.
Context (wmask : Z -> Z).

(** The register at [b] is a base address of an area of [2 ^ k] bytes: the bits of the address
    are writable, the bits below read as zero behind the flags. *)
Record bar_ok (c : Cfg) (b k w : Z) : Prop := mk_bar_ok {
  bo_reg : c !! (b / 4) = Some w;
  bo_fits : fits 32 w;
  bo_mask : wmask (b / 4) = 2 ^ 32 - 2 ^ k;
  bo_size : (if is_mmio w then 4 else 2) <= k < 32;
  bo_low : w mod 2 ^ k < 2 ^ (if is_mmio w then 4 else 2)
}.

Lemma wr32_bar c b k w v :
  bar_ok c b k w -> fits 32 v -> wr32 wmask c b v = <[b / 4 := v / 2 ^ k * 2 ^ k + w mod 2 ^ k]> c.
Proof.
  intros [Hr Hf Hm Hs _] Hv. unfold wr32. rewrite Hr, Hm, masked_write; [done..|]. destruct (is_mmio w); lia.
Qed.

Lemma land_hi_mask x n : fits 32 x -> 0 <= n <= 32 -> Z.land x (2 ^ 32 - 2 ^ n) = x / 2 ^ n * 2 ^ n.
Proof.
  intros Hx Hn. pose proof (masked_write x 0 n Hx ltac:(by vm_compute) Hn) as E. rewrite Z.ldiff_0_l, Z.lor_0_r, Z.mod_0_l, Z.add_0_r in E by lia. done.
Qed.

Lemma ones_above k : 0 <= k <= 32 -> 0xffffffff / 2 ^ k * 2 ^ k = 2 ^ 32 - 2 ^ k.
Proof.
  intros Hk. change 0xffffffff with (2 ^ 32 - 1). assert (2 ^ 32 = 2 ^ (32 - k) * 2 ^ k) as E by (rewrite <-Z.pow_add_r by lia; f_equal; lia).
  rewrite E. replace (2 ^ (32 - k) * 2 ^ k - 1) with (2 ^ (32 - k) * 2 ^ k + (- 1)) by lia. rewrite Z.div_add_l by lia.
  replace (-1 / 2 ^ k) with (-1) by (apply Z.div_unique with (2 ^ k - 1); lia). lia.
Qed.

Lemma ones_above_mod k r : 0 <= k <= 32 -> 0 <= r < 2 ^ k -> (2 ^ 32 - 2 ^ k + r) mod 2 ^ k = r.
Proof.
  intros Hk Hr. assert (2 ^ 32 = 2 ^ (32 - k) * 2 ^ k) as E by (rewrite <-Z.pow_add_r by lia; f_equal; lia).
  replace (2 ^ 32 - 2 ^ k + r) with (r + (2 ^ (32 - k) - 1) * 2 ^ k) by lia. rewrite Z_mod_plus_full. by apply Z.mod_small.
Qed.

Lemma ones_above_land n k r : 0 <= n <= k -> k <= 32 -> 0 <= r < 2 ^ n -> Z.land (2 ^ 32 - 2 ^ k + r) (2 ^ 32 - 2 ^ n) = 2 ^ 32 - 2 ^ k.
Proof.
  intros Hn Hk Hr. assert (2 ^ n <= 2 ^ k) by (apply Z.pow_le_mono_r; lia). assert (2 ^ k <= 2 ^ 32) by (apply Z.pow_le_mono_r; lia).
  rewrite land_hi_mask by (unfold fits; lia).
  replace (2 ^ 32 - 2 ^ k) with ((2 ^ (32 - n) - 2 ^ (k - n)) * 2 ^ n).
  2: { rewrite Z.mul_sub_distr_r, <-!Z.pow_add_r by lia. do 2 f_equal; lia. }
  rewrite Z.div_add_l, (Z.div_small r) by lia. lia.
Qed.

(** Asking for the size gives the size and the value, and leaves the flags with ones above. *)
Lemma bar_size_spec c b k w :
  bar_ok c b k w -> BaseAddress_size wmask c b = (Some (2 ^ k), w, <[b / 4 := 2 ^ 32 - 2 ^ k + w mod 2 ^ k]> c).
Proof.
  intros Hb. pose proof Hb as [Hr Hf Hm Hs Hl]. set (n := if is_mmio w then 4 else 2) in *.
  assert (2 <= n <= 4) as Hn by (unfold n; destruct (is_mmio w); lia).
  assert (0 <= w mod 2 ^ k) as Hw0 by (apply Z.mod_pos_bound; lia). assert (2 ^ k <= 2 ^ 31) as Hk31 by (apply Z.pow_le_mono_r; lia).
  unfold BaseAddress_size, BaseAddress_get, BaseAddress_set. assert (rd32 c b = w) as -> by (unfold rd32; by rewrite Hr).
  assert ((if is_mmio w then 0xfffffff0 else 0xfffffffc) = 2 ^ 32 - 2 ^ n) as -> by (unfold n; by destruct (is_mmio w)).
  rewrite (wr32_bar c b k w 0xffffffff Hb), ones_above by (unfold fits; lia).
  assert (forall x, rd32 (<[b / 4 := x]> c) b = x) as -> by (intros x; unfold rd32; by rewrite lookup_insert, decide_True).
  rewrite ones_above_land by lia. rewrite decide_True by lia.
  replace (2 ^ 32 - 1 - (2 ^ 32 - 2 ^ k) + 1) with (2 ^ k) by lia. rewrite wrap_small by (unfold fits; lia). done.
Qed.

(** A write after asking for the size. *)
Lemma wr32_after_size c b k w v :
  bar_ok c b k w -> fits 32 v ->
  wr32 wmask (<[b / 4 := 2 ^ 32 - 2 ^ k + w mod 2 ^ k]> c) b v = <[b / 4 := v / 2 ^ k * 2 ^ k + w mod 2 ^ k]> c.
Proof.
  intros [Hr Hf Hm Hs _] Hv. assert (0 <= k < 32) as Hk by (destruct (is_mmio w); lia). assert (2 ^ k <= 2 ^ 31) by (apply Z.pow_le_mono_r; lia).
  pose proof (Z.mod_pos_bound w (2 ^ k) ltac:(lia)). unfold wr32. rewrite lookup_insert, decide_True, Hm, masked_write by (done || unfold fits; lia).
  rewrite insert_insert, decide_True, ones_above_mod by (done || lia). done.
Qed.

(** Asking for the size and writing the value back changes nothing. *)
Theorem bar_size_restores c b k w :
  bar_ok c b k w ->
  exists c', BaseAddress_size wmask c b = (Some (2 ^ k), w, c') /\ BaseAddress_set wmask c' b w = c.
Proof.
  intros Hb. pose proof Hb as [Hr Hf _ _ _]. eexists. split; [by apply bar_size_spec|]. unfold BaseAddress_set.
  rewrite wr32_after_size by done. rewrite insert_id; [done|]. rewrite Hr. f_equal. pose proof (bo_size _ _ _ _ Hb).
  pose proof (Z.div_mod w (2 ^ k) ltac:(destruct (is_mmio w); lia)). lia.
Qed.
End sizes.
