(* ===== verification/PciDriver.v ===== *)
(** * The PCI driver

    src/services/driver/pci/src/main.rs: the driver of the PCI bus reads its resources from its
    arguments, gives every device it has a driver for addresses for its base addresses, starts
    the driver with them, and passes interrupts on (src/services/driver/pci/src/notification.rs).

    The table of drivers is generated by the build; it is a list of vendors and devices here.
    Starting a program is a system service that returns an address; it is a function of the
    number of the programs started before.

    The theorems: the areas of a device are aligned, disjoint and in its registers, and the
    driver that is started reads exactly them from its arguments; interrupts go round the tasks
    that listen to them. *)

From stdpp Require Import sorting.
From S2P Require Import Prelude Page UserMem Bytes Utf8 DriverArgs Pci.

(** ** Arguments *)

Record IrqMap := mkIrqMap { im_bus : Z; im_system : Z; im_child_address : Z }.

(** The variables of [main] that the arguments set, and the statics. *)
Record Config := mkConfig {
  cf_reg : option (Z * Z); cf_mmio : list PhysicalMemory; cf_map : list IrqMap; cf_irqs : list Z; cf_mask : Z * Z
}.

Definition Config0 : Config := mkConfig None [] [] [] (0, 0).

Definition try_int (w x : Z) (why : string) : outcome Z := match try_into w x with Some y => Done y | None => Panicked why end.

Definition no_result : string := "called `Result::unwrap()` on an `Err` value".

(** The closure that is given every argument. *)
Definition on_arg (cf : Config) (a : Arg) : outcome Config :=
  match a with
  | Reg a s =>
    match cf_reg cf with
    | Some _ => Panicked "expecteed only one --reg specifier"
    | None => Done (mkConfig (Some (a, s)) (cf_mmio cf) (cf_map cf) (cf_irqs cf) (cf_mask cf))
    end
  | Range _ a s =>
    if decide (zlen (cf_mmio cf) < 8) then
      let! a := try_int 64 a "physical address too large" in
      let! s := try_int 64 s "size too large" in
      Done (mkConfig (cf_reg cf) (cf_mmio cf ++ [mkPhysicalMemory a (2 ^ 64 - 1) s]) (cf_map cf) (cf_irqs cf) (cf_mask cf))
    else Panicked "index out of bounds"
  | InterruptMap ca ci _ _ pi =>
    let! system := try_int 16 pi no_result in
    let! bus := try_int 16 ci no_result in
    if decide (zlen (cf_map cf) < 16) then
      let m := cf_map cf ++ [mkIrqMap bus system ca] in
      if decide (system ∈ cf_irqs cf) then Done (mkConfig (cf_reg cf) (cf_mmio cf) m (cf_irqs cf) (cf_mask cf))
      else if decide (zlen (cf_irqs cf) < 8) then Done (mkConfig (cf_reg cf) (cf_mmio cf) m (cf_irqs cf ++ [system]) (cf_mask cf))
      else Panicked "index out of bounds"
    else Panicked "index out of bounds"
  | InterruptMapMask ca ci => Done (mkConfig (cf_reg cf) (cf_mmio cf) (cf_map cf) (cf_irqs cf) (ca, ci))
  | Other _ => Panicked "unhandled"
  | _ => Panicked "not yet implemented"
  end.

Fixpoint on_args (cf : Config) (l : list Arg) : outcome Config :=
  match l with
  | [] => Done cf
  | a :: l => let! cf := on_arg cf a in on_args cf l
  end.

(** The features of the package: the arguments of a device tree. *)
Definition pci_features : Features := mkFeatures true true true true false false false false.

Definition read_config (args : list (list Z)) : outcome Config :=
  let! r := parse_args pci_features (fun _ => 0%nat) args in
  let! cf := on_args Config0 r.1 in
  match r.2 with Ok _ => Done cf | Err _ => Panicked "failed to parse all arguments" end.

(** ** Addresses *)

(** [sort_unstable_by(|a, b| b.size.cmp(&a.size))] *)
Definition by_size (a b : PhysicalMemory) : Prop := mem_size b <= mem_size a.

#[export] Instance by_size_dec a b : Decision (by_size a b).
Proof. unfold by_size. apply _. Defined.

Definition sort_mmio : list PhysicalMemory -> list PhysicalMemory := merge_sort by_size.

(** [virt.wrapping_add(virt.align_offset(n))] on a pointer to pages. *)
Definition align_virt (v n : Z) : Z := wrap 64 (v + (- v) mod n / PAGE_SIZE * PAGE_SIZE).

(** The loop that gives every area a virtual address. *)
Fixpoint place_mmio (v : Z) (l : list PhysicalMemory) : outcome (list PhysicalMemory) :=
  match l with
  | [] => Done []
  | m :: l =>
    let v :=
      if decide (2 ^ 39 <= mem_size m) then align_virt v (2 ^ 39)
      else if decide (2 ^ 30 <= mem_size m) then align_virt v (2 ^ 30)
      else if decide (2 ^ 21 <= mem_size m) then align_virt v (2 ^ 21) else v in
    if decide (v = 0) then Panicked "called `Option::unwrap()` on a `None` value"
    else
      let! l := place_mmio (wrap 64 (v + mem_size m / PAGE_SIZE * PAGE_SIZE)) l in
      Done (mkPhysicalMemory (physical m) v (mem_size m) :: l)
  end.

(** From the arguments to the [PCI] structure and the address of the second area, from which
    base addresses are given.  The status is that of [sys_direct_alloc]. *)
Definition set_up (cf : Config) (status : Z) : outcome (PCI * Z) :=
  match cf_reg cf with
  | None => Panicked "expecteed a --reg specifier"
  | Some (a, s) =>
    let! addr := try_int 64 a "address too large" in
    let! size := try_int 64 s "size too large" in
    if decide (status = 0) then
      let v := wrap 64 (0x10000000 + size / PAGE_SIZE * PAGE_SIZE) in
      let! mmio := place_mmio v (sort_mmio (cf_mmio cf)) in
      match mmio with
      | [] => Panicked "can't configure devices without MMIO area"
      | _ =>
        let! pci := PCI_new 0x10000000 addr size mmio in
        match nth_z mmio 1 with
        | None => Panicked "index out of bounds"
        | Some m => Done (pci, physical m)
        end
      end
    else Panicked "assertion failed: ret.status == 0"
  end.

(** ** Base addresses *)

Definition push_arg (a : Arg) (buf : list Z) (args : list (list Z)) : outcome (list Z * list (list Z)) := push_args 64 [a] buf args.

Section devices.
Context (wmask : Z -> Z).

(** Rounding the next address up to the size. *)
Definition round_up (mmio size : Z) : Z :=
  let offt := Z.land mmio (size - 1) in
  if decide (offt > 0) then wrap 64 (mmio + (size - offt)) else mmio.

(** [while let Some((i, b)) = bars.next()]. *)
Fixpoint assign_bars (bars : list (Z * Z)) (c : Cfg) (mmio : Z) (buf : list Z) (args : list (list Z))
  : outcome (Cfg * Z * list Z * list (list Z)) :=
  match bars with
  | [] => Done (c, mmio, buf, args)
  | (i, b) :: bars =>
    let '(size, og, c) := BaseAddress_size wmask c b in
    match size with
    | None =>
      if decide (og = 0) then assign_bars bars c mmio buf args else Panicked "masked pci bar was not originally 0 (HW bug?)"
    | Some size =>
      if decide (size = 0xffffffff) then Panicked "TODO greater than 32 bit size (wow)"
      else
        let finish (c : Cfg) (rest : Cfg -> Z -> list Z -> list (list Z) -> outcome (Cfg * Z * list Z * list (list Z))) :=
          let mmio := round_up mmio size in
          let! v := try_int 32 mmio no_result in
          let c := BaseAddress_set wmask c b v in
          let! r := push_arg (if is_mmio og then BarMmio i mmio size else BarIo i mmio size) buf args in
          rest c (wrap 64 (mmio + size)) r.1 r.2 in
        if is_64bit og then
          match bars with
          | [] => Panicked "bar can't be 64 bit"
          | (_, b2) :: bars => finish (BaseAddress_set wmask c b2 0) (assign_bars bars)
          end
        else finish c (assign_bars bars)
    end
  end.

Definition enumerate (l : list Z) : list (Z * Z) := zip (seqZ 0 (zlen l)) l.

(** The arguments of the driver of a device. *)
Definition device_args (p : PCI) (c : Cfg) (bus dev mmio : Z) : outcome (Cfg * Z * list (list Z)) :=
  let! ca := child_address bus dev in
  let! addr := header_physical_address p bus dev in
  let! r := push_arg (Pci ca addr Header_size) (replicate 4096 0) [] in
  let! h := Device_header p c bus dev in
  let! r := assign_bars (enumerate (base_addresses h)) c mmio r.1 r.2 in
  Done (r.1.1.1, r.1.1.2, r.2).

(** ** Starting drivers *)

Record Task := mkTask { t_address : Z; t_child_address : Z }.

(** The table of drivers, and the address the [n]-th program that is started gets. *)
Context (binaries : list (Z * Z)) (spawn_elf : nat -> option Z).

Record Found := mkFound { fd_cfg : Cfg; fd_mmio : Z; fd_tasks : list Task; fd_args : list (list (list Z)) }.

(** The body of the loop over the devices. *)
Definition on_device (p : PCI) (bus dev : Z) (st : Found) : outcome Found :=
  let! v := Device_vendor_id p (fd_cfg st) bus dev in
  let! d := Device_device_id p (fd_cfg st) bus dev in
  if decide ((v, d) ∈ binaries) then
    let! r := device_args p (fd_cfg st) bus dev (fd_mmio st) in
    match spawn_elf (length (fd_args st)) with
    | None => Panicked no_result
    | Some address =>
      if decide (zlen (fd_tasks st) < 16) then
        let! ca := child_address bus dev in
        Done (mkFound r.1.1 r.1.2 (fd_tasks st ++ [mkTask address (wrap 128 (Z.shiftl ca 64))]) (fd_args st ++ [r.2]))
      else Panicked "index out of bounds"
    end
  else Done st.

(** [for dev in bus.iter()]: the registers are read as they are at each step. *)
Fixpoint on_bus (fuel : nat) (p : PCI) (bus device : Z) (st : Found) : outcome Found :=
  match fuel with
  | O => OutOfFuel
  | S fuel =>
    let! '(d, device) := IterBus_next 33 p (fd_cfg st) bus device in
    match d with
    | None => Done st
    | Some d => let! st := on_device p bus d st in on_bus fuel p bus device st
    end
  end.

(** [for bus in pci.iter()]. *)
Fixpoint on_pci (fuel : nat) (p : PCI) (bus : Z) (st : Found) : outcome Found :=
  match fuel with
  | O => OutOfFuel
  | S fuel =>
    let! '(b, bus) := IterPCI_next p (fd_cfg st) bus in
    match b with
    | None => Done st
    | Some b => let! st := on_bus 33 p b 0 st in on_pci fuel p bus st
    end
  end.
End devices.

(** ** The areas a device gets *)

(** A base address that is not there, one of 32 bits, and one of 64 bits over two registers,
    with the exponent of the size and the value of the register. *)
Inductive BarDesc := NoBar | Bar (k w : Z) | Bar64 (k w : Z).

Definition regs (bars : list (Z * Z)) : list Z := (fun x => x.2 / 4) <$> bars.

(** An area: the index, register, exponent and value of its base address, where it is, and the
    register of the upper half. *)
Record Area := mkArea { ar_i : Z; ar_b : Z; ar_k : Z; ar_w : Z; ar_base : Z; ar_hi : option Z }.

Definition align_up (mmio k : Z) : Z := (mmio + (2 ^ k - 1)) / 2 ^ k * 2 ^ k.

Fixpoint areas (mmio : Z) (bars : list (Z * Z)) (ds : list BarDesc) {struct ds} : list Area :=
  match ds, bars with
  | NoBar :: ds, _ :: bars => areas mmio bars ds
  | Bar k w :: ds, (i, b) :: bars => let a := align_up mmio k in mkArea i b k w a None :: areas (a + 2 ^ k) bars ds
  | Bar64 k w :: ds, (i, b) :: (_, b2) :: bars => let a := align_up mmio k in mkArea i b k w a (Some b2) :: areas (a + 2 ^ k) bars ds
  | _, _ => []
  end.

(** Where the next device's areas start. *)
Fixpoint areas_end (mmio : Z) (ds : list BarDesc) : Z :=
  match ds with
  | [] => mmio
  | NoBar :: ds => areas_end mmio ds
  | Bar k _ :: ds | Bar64 k _ :: ds => areas_end (align_up mmio k + 2 ^ k) ds
  end.

Definition area_arg (a : Area) : Arg :=
  if is_mmio (ar_w a) then BarMmio (ar_i a) (ar_base a) (2 ^ ar_k a) else BarIo (ar_i a) (ar_base a) (2 ^ ar_k a).

Section assign.
Context (wmask : Z -> Z).

(** The registers [bars] are as described. *)
Fixpoint bars_ok (c : Cfg) (bars : list (Z * Z)) (ds : list BarDesc) : Prop :=
  match ds, bars with
  | [], [] => True
  | NoBar :: ds, (i, b) :: bars => c !! (b / 4) = Some 0 /\ wmask (b / 4) = 0 /\ bars_ok c bars ds
  | Bar k w :: ds, (i, b) :: bars => fits 128 i /\ bar_ok wmask c b k w /\ is_64bit w = false /\ bars_ok c bars ds
  | Bar64 k w :: ds, (i, b) :: (_, b2) :: bars =>
    fits 128 i /\ bar_ok wmask c b k w /\ is_64bit w = true /\ wmask (b2 / 4) = 2 ^ 32 - 1 /\
    (exists w2, c !! (b2 / 4) = Some w2 /\ fits 32 w2) /\ bars_ok c bars ds
  | _, _ => False
  end.

(** What the registers of an area hold when it is set. *)
Definition area_set (c : Cfg) (a : Area) : Prop :=
  c !! (ar_b a / 4) = Some (ar_base a + ar_w a mod 2 ^ ar_k a) /\
  match ar_hi a with Some b2 => c !! (b2 / 4) = Some 0 | None => True end.

Lemma bar_ok_ext c c' b k w : c' !! (b / 4) = c !! (b / 4) -> bar_ok wmask c b k w -> bar_ok wmask c' b k w.
Proof. intros E [H1 H2 H3 H4 H5]. constructor; congruence. Qed.

Lemma bars_ok_ext c c' ds : forall bars,
  (forall r, r ∈ regs bars -> c' !! r = c !! r) -> bars_ok c bars ds -> bars_ok c' bars ds.
Proof.
  unfold regs. induction ds as [|[|k w|k w] ds IH]; intros bars Hr Hb; destruct bars as [|[i b] bars]; try done; cbn [bars_ok fmap list_fmap snd] in *.
  - rewrite Hr by by left. split_and!; try apply Hb. apply IH; [|apply Hb]. intros r Hin. apply Hr. by right.
  - destruct Hb as (Hi & Hb & H64 & Hbs). split_and!; try done.
    + eapply bar_ok_ext; [|done]. apply Hr. by left.
    + apply IH; [|done]. intros r Hin. apply Hr. by right.
  - destruct bars as [|[i2 b2] bars]; [done|]. destruct Hb as (Hi & Hb & H64 & Hm & Hw & Hbs). cbn [fmap list_fmap snd] in Hr. split_and!; try done.
    + eapply bar_ok_ext; [|done]. apply Hr. by left.
    + rewrite Hr by (right; by left). done.
    + apply IH; [|done]. intros r Hin. apply Hr. right. by right.
Qed.

Lemma wr32_other c a v r : r <> a / 4 -> wr32 wmask c a v !! r = c !! r.
Proof. intros Hr. unfold wr32. destruct (c !! (a / 4)); [|done]. by rewrite lookup_insert_ne. Qed.

Lemma wr32_insert_comm c a v r x : r <> a / 4 -> wr32 wmask (<[r := x]> c) a v = <[r := x]> (wr32 wmask c a v).
Proof.
  intros Hr. unfold wr32. rewrite lookup_insert_ne by done. destruct (c !! (a / 4)); [|done]. by rewrite insert_insert_ne.
Qed.

Lemma align_up_spec mmio k : 0 <= k -> mmio <= align_up mmio k < mmio + 2 ^ k /\ align_up mmio k mod 2 ^ k = 0.
Proof.
  intros Hk. unfold align_up. pose proof (Z.div_mod (mmio + (2 ^ k - 1)) (2 ^ k) ltac:(lia)).
  pose proof (Z.mod_pos_bound (mmio + (2 ^ k - 1)) (2 ^ k) ltac:(lia)). split; [lia|]. apply Z.mod_mul. lia.
Qed.

Lemma round_up_spec mmio k : 0 <= mmio < 2 ^ 63 -> 0 <= k < 63 -> round_up mmio (2 ^ k) = align_up mmio k.
Proof.
  intros Hm Hk. unfold round_up, align_up. rewrite (land_mask mmio k) by lia.
  assert (2 ^ k <= 2 ^ 62) by (apply Z.pow_le_mono_r; lia).
  pose proof (Z.div_mod mmio (2 ^ k) ltac:(lia)) as Hd. pose proof (Z.mod_pos_bound mmio (2 ^ k) ltac:(lia)) as Hb. case_decide as Ho.
  - rewrite wrap_small by (unfold fits; lia).
    replace (mmio + (2 ^ k - 1)) with ((mmio / 2 ^ k + 1) * 2 ^ k + (mmio mod 2 ^ k - 1)) by lia.
    rewrite Z.div_add_l, (Z.div_small (mmio mod 2 ^ k - 1)) by lia. lia.
  - replace (mmio + (2 ^ k - 1)) with (mmio / 2 ^ k * 2 ^ k + (2 ^ k - 1)) by lia. rewrite Z.div_add_l, (Z.div_small (2 ^ k - 1)) by lia. lia.
Qed.

(** Setting a base address after asking for its size. *)
Lemma set_bar c b k w a :
  bar_ok wmask c b k w -> fits 32 a -> a mod 2 ^ k = 0 ->
  wr32 wmask (<[b / 4 := 2 ^ 32 - 2 ^ k + w mod 2 ^ k]> c) b a = <[b / 4 := a + w mod 2 ^ k]> c.
Proof.
  intros Hb Ha Hm. rewrite wr32_after_size by done. pose proof (bo_size _ _ _ _ _ Hb).
  assert (0 < 2 ^ k) by (destruct (is_mmio w); lia). pose proof (Z.div_mod a (2 ^ k) ltac:(lia)). do 2 f_equal. lia.
Qed.

Lemma wr32_clear c b w : c !! (b / 4) = Some w -> fits 32 w -> wmask (b / 4) = 2 ^ 32 - 1 -> wr32 wmask c b 0 = <[b / 4 := 0]> c.
Proof.
  intros Hr Hf Hm. unfold wr32. rewrite Hr, Hm. pose proof (masked_write 0 w 0 ltac:(unfold fits; lia) Hf ltac:(lia)) as E.
  change (2 ^ 0) with 1 in E. rewrite E, Z.mod_1_r. done.
Qed.

Lemma hex_len_le fuel a : (hex_len fuel a <= fuel)%nat.
Proof. revert a. induction fuel as [|fuel IH]; intros a; cbn; [lia|]. case_match; [lia|]. specialize (IH (a / 16)). lia. Qed.

(** Room for an argument of three numbers. *)
Lemma push_arg_spec a buf args :
  is_struct a -> length (arg_values a) = 3%nat -> (96 <= length buf)%nat -> (length args + 4 <= 64)%nat ->
  exists buf', push_arg a buf args = Done (buf', args ++ arg_text a) /\ (length buf <= 96 + length buf')%nat /\ length (arg_text a) = 4%nat.
Proof.
  intros Ha H3 Hb Hc. assert (length (arg_text a) = 4%nat) as Hl by (unfold arg_text; destruct a; cbn in *; try done).
  assert (arg_bytes a <= 96)%nat as Hbytes.
  { unfold arg_bytes. destruct (arg_values a) as [|x [|y [|z [|]]]]; try done.
    change (sum_list (hex_len 32 <$> [x; y; z])) with (hex_len 32 x + (hex_len 32 y + (hex_len 32 z + 0)))%nat. pose proof (hex_len_le 32 x). pose proof (hex_len_le 32 y).
    pose proof (hex_len_le 32 z). lia. }
  assert (sum_list (arg_bytes <$> [a]) = arg_bytes a) as Es by (change (arg_bytes a + 0 = arg_bytes a)%nat; lia).
  assert (concat (arg_text <$> [a]) = arg_text a) as Et by apply app_nil_r.
  unfold push_arg. rewrite push_args_spec, Es, Et by (rewrite ?Es, ?Et; (lia || by apply Forall_singleton)).
  eexists. split; [done|]. rewrite length_drop. split; [lia|done].
Qed.

Lemma area_arg_struct a :
  fits 128 (ar_i a) -> fits 32 (ar_base a) -> 0 <= ar_k a < 32 -> is_struct (area_arg a) /\ length (arg_values (area_arg a)) = 3%nat.
Proof.
  intros Hi Hb Hk. assert (2 ^ ar_k a <= 2 ^ 32) by (apply Z.pow_le_mono_r; lia). unfold area_arg, fits in *.
  destruct (is_mmio (ar_w a)); (split; [|done]); cbn; repeat apply Forall_cons_2; try apply Forall_nil_2; unfold fits; lia.
Qed.

(** What the theorem says of the registers. *)
Definition assigned (c c' : Cfg) (bars : list (Z * Z)) (l : list Area) : Prop :=
  Forall (area_set c') l /\ forall r, r ∉ regs bars -> c' !! r = c !! r.

Lemma areas_regs mmio ds : forall bars a, a ∈ areas mmio bars ds -> ar_b a / 4 ∈ regs bars /\ (forall b2, ar_hi a = Some b2 -> b2 / 4 ∈ regs bars).
Proof.
  revert mmio. unfold regs. induction ds as [|[|k w|k w] ds IH]; intros mmio bars a; destruct bars as [|[i b] bars]; cbn [areas]; try (intros Ha; by apply not_elem_of_nil in Ha).
  - intros [H1 H2]%IH. split; [by right|]. intros b2 E. right. by apply H2.
  - intros [->|[H1 H2]%IH]%elem_of_cons; [split; [by left|done]|]. split; [by right|]. intros b2 E. right. by apply H2.
  - destruct bars as [|[i2 b2] bars]; [intros Ha; by apply not_elem_of_nil in Ha|].
    intros [->|[H1 H2]%IH]%elem_of_cons; cbn [fmap list_fmap snd ar_b ar_hi].
    + split; [by left|]. intros b3 [= <-]. right. by left.
    + split; [right; by right|]. intros b3 E. right. right. by apply H2.
Qed.

(** The first area stays set while the others are. *)
Lemma assigned_cons c c1 c' mmio bars0 bars a ds :
  area_set c1 a -> ar_b a / 4 ∉ regs bars -> (forall b2, ar_hi a = Some b2 -> b2 / 4 ∉ regs bars) ->
  regs bars ⊆ regs bars0 -> (forall r, r ∉ regs bars0 -> c1 !! r = c !! r) ->
  assigned c1 c' bars (areas mmio bars ds) -> assigned c c' bars0 (a :: areas mmio bars ds).
Proof.
  intros [Hs1 Hs2] Hb Hh Hsub Hc1 [Hl Hr]. split.
  - apply Forall_cons. split; [|done]. split; [by rewrite Hr|]. destruct (ar_hi a) as [b2|]; [|done]. rewrite Hr by by apply Hh. done.
  - intros r Hnr. rewrite Hr by (intros Hx; by apply Hnr, Hsub). by apply Hc1.
Qed.

(** The sizes that are still to be given, with room for the alignment. *)
Fixpoint need (ds : list BarDesc) : Z :=
  match ds with [] => 0 | NoBar :: ds => need ds | Bar k _ :: ds | Bar64 k _ :: ds => 2 * 2 ^ k + need ds end.

Lemma need_nonneg ds : 0 <= need ds.
Proof. induction ds as [|[|k w|k w] ds IH]; cbn; [lia|lia| |]; pose proof (Z.pow_nonneg 2 k ltac:(lia)); lia. Qed.

Lemma bar_k c b k w : bar_ok wmask c b k w -> 2 <= k < 32 /\ 2 ^ k <= 2 ^ 31 /\ 4 <= 2 ^ k.
Proof.
  intros Hb. pose proof (bo_size _ _ _ _ _ Hb) as Hk. assert (2 <= k < 32) as Hk' by (destruct (is_mmio w); lia). split; [done|]. split.
  - apply Z.pow_le_mono_r; lia.
  - change 4 with (2 ^ 2). apply Z.pow_le_mono_r; lia.
Qed.

(** One base address: the loop goes on with the rest behind the area. *)
Lemma assign_bar c c1 rest i b k w mmio buf args :
  bar_ok wmask c b k w -> fits 128 i -> 0 <= mmio -> mmio + 2 * 2 ^ k <= 2 ^ 32 -> (96 <= length buf)%nat -> (length args + 4 <= 64)%nat ->
  c1 = <[b / 4 := 2 ^ 32 - 2 ^ k + w mod 2 ^ k]> c ->
  let a := mkArea i b k w (align_up mmio k) None in
  exists buf', (length buf <= 96 + length buf')%nat /\ length (arg_text (area_arg a)) = 4%nat /\
    (let mmio := round_up mmio (2 ^ k) in
     let! v := try_int 32 mmio no_result in
     let c := BaseAddress_set wmask c1 b v in
     let! r := push_arg (if is_mmio w then BarMmio i mmio (2 ^ k) else BarIo i mmio (2 ^ k)) buf args in
     rest c (wrap 64 (mmio + 2 ^ k)) r.1 r.2) =
    (rest (<[b / 4 := align_up mmio k + w mod 2 ^ k]> c) (align_up mmio k + 2 ^ k) buf' (args ++ arg_text (area_arg a)) : outcome (Cfg * Z * list Z * list (list Z))).
Proof.
  intros Hb Hi Hm Hn Hbuf Hargs -> a. destruct (bar_k _ _ _ _ Hb) as (Hk & Hk31 & Hk4).
  destruct (align_up_spec mmio k ltac:(lia)) as [Ha Hal]. assert (fits 32 (align_up mmio k)) as Hf by (unfold fits; lia).
  destruct (area_arg_struct a) as [Hs H3]; [done..|cbn; lia|]. destruct (push_arg_spec _ buf args Hs H3 Hbuf Hargs) as (buf' & E & Hl & H4).
  exists buf'. split; [done|]. split; [done|]. rewrite round_up_spec by lia. unfold try_int, try_into. rewrite decide_True by done. cbn [obind].
  change (if is_mmio w then BarMmio i (align_up mmio k) (2 ^ k) else BarIo i (align_up mmio k) (2 ^ k)) with (area_arg a). rewrite E. cbn [obind fst snd].
  unfold BaseAddress_set. rewrite set_bar by done. rewrite wrap_small by (unfold fits; lia). done.
Qed.

Lemma assign_cons i b bars c mmio buf args :
  assign_bars wmask ((i, b) :: bars) c mmio buf args =
    let '(size, og, c) := BaseAddress_size wmask c b in
    match size with
    | None => if decide (og = 0) then assign_bars wmask bars c mmio buf args else Panicked "masked pci bar was not originally 0 (HW bug?)"
    | Some size =>
      if decide (size = 0xffffffff) then Panicked "TODO greater than 32 bit size (wow)"
      else
        let finish (c : Cfg) (rest : Cfg -> Z -> list Z -> list (list Z) -> outcome (Cfg * Z * list Z * list (list Z))) :=
          let mmio := round_up mmio size in
          let! v := try_int 32 mmio no_result in
          let c := BaseAddress_set wmask c b v in
          let! r := push_arg (if is_mmio og then BarMmio i mmio size else BarIo i mmio size) buf args in
          rest c (wrap 64 (mmio + size)) r.1 r.2 in
        if is_64bit og then
          match bars with
          | [] => Panicked "bar can't be 64 bit"
          | (_, b2) :: bars => finish (BaseAddress_set wmask c b2 0) (assign_bars wmask bars)
          end
        else finish c (assign_bars wmask bars)
    end.
Proof. done. Qed.

(** A register that is not there. *)
Lemma no_bar_size c b : c !! (b / 4) = Some 0 -> wmask (b / 4) = 0 -> BaseAddress_size wmask c b = (None, 0, c).
Proof.
  intros Hr Hm. unfold BaseAddress_size, BaseAddress_get, BaseAddress_set. assert (rd32 c b = 0) as -> by (unfold rd32; by rewrite Hr).
  unfold wr32. rewrite Hr, Hm. change (Z.lor (Z.land 0xffffffff 0) (Z.ldiff 0 0)) with 0. rewrite insert_id by done.
  unfold rd32. rewrite Hr. done.
Qed.

(** A base address of 32 bits, and one of 64 bits: the loop goes on behind the area. *)
Lemma assign_32 c i b bars k w mmio buf args :
  bar_ok wmask c b k w -> is_64bit w = false -> fits 128 i -> 0 <= mmio -> mmio + 2 * 2 ^ k <= 2 ^ 32 ->
  (96 <= length buf)%nat -> (length args + 4 <= 64)%nat ->
  let a := mkArea i b k w (align_up mmio k) None in
  exists buf', (length buf <= 96 + length buf')%nat /\ length (arg_text (area_arg a)) = 4%nat /\
    assign_bars wmask ((i, b) :: bars) c mmio buf args =
      assign_bars wmask bars (<[b / 4 := align_up mmio k + w mod 2 ^ k]> c) (align_up mmio k + 2 ^ k) buf' (args ++ arg_text (area_arg a)).
Proof.
  intros Hb H64 Hi Hm Hn Hbuf Hargs a. destruct (bar_k _ _ _ _ Hb) as (Hk & Hk31 & Hk4).
  destruct (assign_bar c _ (assign_bars wmask bars) i b k w mmio buf args Hb Hi Hm Hn Hbuf Hargs eq_refl) as (buf1 & Hl1 & H4 & E).
  exists buf1. split; [done|]. split; [done|]. rewrite assign_cons, (bar_size_spec _ _ _ _ _ Hb). cbv beta iota. rewrite decide_False by lia.
  cbv zeta. rewrite H64. exact E.
Qed.

Lemma assign_64 c i b i2 b2 bars k w w2 mmio buf args :
  bar_ok wmask c b k w -> is_64bit w = true -> wmask (b2 / 4) = 2 ^ 32 - 1 -> c !! (b2 / 4) = Some w2 -> fits 32 w2 -> b / 4 <> b2 / 4 ->
  fits 128 i -> 0 <= mmio -> mmio + 2 * 2 ^ k <= 2 ^ 32 -> (96 <= length buf)%nat -> (length args + 4 <= 64)%nat ->
  let a := mkArea i b k w (align_up mmio k) (Some b2) in
  exists buf', (length buf <= 96 + length buf')%nat /\ length (arg_text (area_arg a)) = 4%nat /\
    assign_bars wmask ((i, b) :: (i2, b2) :: bars) c mmio buf args =
      assign_bars wmask bars (<[b / 4 := align_up mmio k + w mod 2 ^ k]> (<[b2 / 4 := 0]> c)) (align_up mmio k + 2 ^ k) buf'
        (args ++ arg_text (area_arg a)).
Proof.
  intros Hb H64 Hm2 Hw2 Hf2 Hne Hi Hm Hn Hbuf Hargs a. destruct (bar_k _ _ _ _ Hb) as (Hk & Hk31 & Hk4).
  assert (bar_ok wmask (<[b2 / 4 := 0]> c) b k w) as Hb0 by (eapply bar_ok_ext; [|done]; by rewrite lookup_insert_ne).
  destruct (assign_bar (<[b2 / 4 := 0]> c) (BaseAddress_set wmask (<[b / 4 := 2 ^ 32 - 2 ^ k + w mod 2 ^ k]> c) b2 0)
    (assign_bars wmask bars) i b k w mmio buf args Hb0 Hi Hm Hn Hbuf Hargs) as (buf1 & Hl1 & H4 & E).
  { unfold BaseAddress_set. rewrite wr32_insert_comm by done. by rewrite (wr32_clear _ _ w2). }
  exists buf1. split; [done|]. split; [done|]. rewrite assign_cons, (bar_size_spec _ _ _ _ _ Hb). cbv beta iota. rewrite decide_False by lia.
  cbv zeta. rewrite H64. exact E.
Qed.

Lemma assign_bars_spec ds : forall bars c mmio buf args,
  bars_ok c bars ds -> NoDup (regs bars) -> 0 <= mmio -> mmio + need ds <= 2 ^ 32 ->
  (96 * length ds <= length buf)%nat -> (length args + 4 * length ds <= 64)%nat ->
  exists c' buf', assign_bars wmask bars c mmio buf args =
      Done (c', areas_end mmio ds, buf', args ++ concat (arg_text <$> (area_arg <$> areas mmio bars ds))) /\
    assigned c c' bars (areas mmio bars ds).
Proof.
  induction ds as [|[|k w|k w] ds IH]; intros bars c mmio buf args Hok Hnd Hm Hneed Hbuf Hargs; destruct bars as [|[i b] bars]; try done;
    cbn [bars_ok need length] in *.
  { exists c, buf. cbn. rewrite app_nil_r. by split_and!. }
  all: apply NoDup_cons in Hnd as [Hnb Hnd]; change (b / 4 ∉ regs bars) in Hnb; pose proof (need_nonneg ds) as Hpos.
  - destruct Hok as (Hr & Hmk & Hok). rewrite assign_cons, no_bar_size by done. cbv beta iota. rewrite decide_True by done.
    destruct (IH bars c mmio buf args) as (c' & buf' & E & Hl & Hrest); [done|done|done|lia|lia|lia|]. exists c', buf'. split; [exact E|]. split; [done|].
    intros r Hnr. apply Hrest. intros Hx. apply Hnr. by right.
  - destruct Hok as (Hi & Hb & H64 & Hok). destruct (align_up_spec mmio k) as [Ha Hal]; [destruct (bar_k _ _ _ _ Hb); lia|].
    destruct (assign_32 c i b bars k w mmio buf args) as (buf1 & Hl1 & H4 & ->); [done..|lia|lia|lia|].
    set (a := mkArea i b k w (align_up mmio k) None) in *. set (c1 := <[b / 4 := _]> c).
    destruct (IH bars c1 (align_up mmio k + 2 ^ k) buf1 (args ++ arg_text (area_arg a))) as (c' & buf' & E & Has); [|done|lia|lia|lia|rewrite length_app; lia|].
    { eapply bars_ok_ext; [|done]. intros r Hr. unfold c1. rewrite lookup_insert_ne; [done|]. intros Hx. apply Hnb. by rewrite Hx. }
    exists c', buf'. split; [rewrite E; cbn [areas fmap list_fmap concat]; by rewrite <-app_assoc|].
    apply (assigned_cons c c1 c' _ _ _ a); [|done|done|intros r Hr; by right| |done].
    + split; [|done]. unfold c1. cbn. by rewrite lookup_insert, decide_True.
    + intros r Hr. unfold c1. rewrite lookup_insert_ne; [done|]. intros Hx. apply Hr. rewrite <-Hx. by left.
  - destruct bars as [|[i2 b2] bars]; [done|]. destruct Hok as (Hi & Hb & H64 & Hm2 & (w2 & Hw2 & Hf2) & Hok).
    destruct (align_up_spec mmio k) as [Ha Hal]; [destruct (bar_k _ _ _ _ Hb); lia|].
    apply NoDup_cons in Hnd as [Hnb2 Hnd]. change (b2 / 4 ∉ regs bars) in Hnb2. apply not_elem_of_cons in Hnb as [Hne Hnb].
    destruct (assign_64 c i b i2 b2 bars k w w2 mmio buf args) as (buf1 & Hl1 & H4 & ->); [done..|lia|lia|lia|].
    set (a := mkArea i b k w (align_up mmio k) (Some b2)) in *. set (c1 := <[b / 4 := _]> _).
    destruct (IH bars c1 (align_up mmio k + 2 ^ k) buf1 (args ++ arg_text (area_arg a))) as (c' & buf' & E & Has); [|done|lia|lia|lia|rewrite length_app; lia|].
    { eapply bars_ok_ext; [|done]. intros r Hr. unfold c1. rewrite !lookup_insert_ne; [done|..]; intros Hx; [apply Hnb2|apply Hnb]; by rewrite Hx. }
    exists c', buf'. split; [rewrite E; cbn [areas fmap list_fmap concat]; by rewrite <-app_assoc|].
    apply (assigned_cons c c1 c' _ _ _ a); [|done|by intros ? [= <-]|intros r Hr; right; by right| |done].
    + split; unfold c1; cbn; [by rewrite lookup_insert, decide_True|]. by rewrite lookup_insert_ne, lookup_insert, decide_True by done.
    + intros r Hr. unfold c1. rewrite !lookup_insert_ne; [done|..]; intros Hx; apply Hr; rewrite <-Hx; [right; by left|by left].
Qed.
End assign.

(** ** Devices *)

Lemma areas_ordered ds : forall mmio bars,
  Forall (fun d => match d with NoBar => True | Bar k _ | Bar64 k _ => 0 <= k end) ds ->
  mmio <= areas_end mmio ds /\
  Forall (fun a => ar_base a mod 2 ^ ar_k a = 0 /\ mmio <= ar_base a /\ ar_base a + 2 ^ ar_k a <= areas_end mmio ds) (areas mmio bars ds) /\
  ForallOrdPairs (fun a1 a2 => ar_base a1 + 2 ^ ar_k a1 <= ar_base a2) (areas mmio bars ds).
Proof.
  induction ds as [|[|k w|k w] ds IH]; intros mmio bars Hk; apply Forall_cons in Hk as [Hk Hks] || clear Hk; cbn [areas_end].
  { split; [done|]. split; constructor. }
  { destruct bars as [|x bars]; [|by apply IH]. destruct (IH mmio [] Hks) as (H1 & _). split; [done|]. split; constructor. }
  all: destruct (align_up_spec mmio k Hk) as [Ha Hal].
  all: assert (forall i b hi bars, let a := mkArea i b k w (align_up mmio k) hi in let l := a :: areas (align_up mmio k + 2 ^ k) bars ds in
    mmio <= areas_end (align_up mmio k + 2 ^ k) ds /\
    Forall (fun a => ar_base a mod 2 ^ ar_k a = 0 /\ mmio <= ar_base a /\ ar_base a + 2 ^ ar_k a <= areas_end (align_up mmio k + 2 ^ k) ds) l /\
    ForallOrdPairs (fun a1 a2 => ar_base a1 + 2 ^ ar_k a1 <= ar_base a2) l) as Hcons.
  1,3: intros i b hi bars' a l; destruct (IH (align_up mmio k + 2 ^ k) bars' Hks) as (H1 & H2 & H3); split; [lia|]; split;
    [apply Forall_cons; split; [cbn; lia|eapply Forall_impl; [exact H2|]; cbn; intros x (? & ? & ?); split_and!; [done|lia|done]]
    |constructor; [eapply Forall_impl; [exact H2|]; cbn; intros x (? & ? & ?); lia|exact H3]].
  - destruct bars as [|[i b] bars]; [|apply Hcons]. split; [apply (Hcons 0 0 None [])|split; constructor].
  - destruct bars as [|[i b] [|[i2 b2] bars]]; [| |apply Hcons]; (split; [apply (Hcons 0 0 None [])|split; constructor]).
Qed.

(** Where the header of a device is. *)
Definition dev_offset (bus dev : Z) : Z := Z.lor (Z.lor (Z.shiftl bus 20) (Z.shiftl dev 15)) 0.

Lemma offset_device bus dev : 0 <= bus < 256 -> 0 <= dev < 32 -> offset bus dev 0 = Done (dev_offset bus dev) /\ fits 28 (dev_offset bus dev).
Proof.
  intros Hb Hd. unfold offset. rewrite decide_True by lia. split; [done|]. unfold dev_offset.
  repeat apply fits_lor; try lia; rewrite ?Z.shiftl_mul_pow2 by lia; unfold fits; lia.
Qed.

Lemma zip_fmap_snd (l : list Z) : forall k, snd <$> zip (seqZ k (zlen l)) l = l.
Proof.
  induction l as [|x l IH]; intros k; [done|]. pose proof (zlen_nonneg l). rewrite zlen_cons, seqZ_cons by lia. cbn. f_equal.
  replace (Z.pred (1 + zlen l)) with (zlen l) by lia. apply IH.
Qed.

Lemma regs_enumerate l : regs (enumerate l) = (fun b => b / 4) <$> l.
Proof. unfold regs, enumerate. rewrite <-(zip_fmap_snd l 0) at 3. by rewrite <-list_fmap_compose. Qed.

Lemma bar_reg a i : (a + 16 + 4 * i) / 4 = a / 4 + 4 + i.
Proof. replace (a + 16 + 4 * i) with (a + (4 + i) * 4) by lia. rewrite Z.div_add by lia. lia. Qed.

Lemma regs_nodup h : NoDup (regs (enumerate (base_addresses h))).
Proof.
  rewrite regs_enumerate. destruct h as [a|a|a]; cbn [base_addresses]; [| |constructor].
  all: rewrite <-list_fmap_compose; apply NoDup_fmap_2_strong; [|apply NoDup_seqZ]; intros x y _ _; unfold compose; rewrite !bar_reg; lia.
Qed.

Lemma bars_ok_k wmask c ds : forall bars, bars_ok wmask c bars ds ->
  Forall (fun d => match d with NoBar => True | Bar k _ | Bar64 k _ => 0 <= k end) ds /\
  forall mmio, Forall (fun a => fits 128 (ar_i a) /\ 0 <= ar_k a < 32) (areas mmio bars ds).
Proof.
  induction ds as [|[|k w|k w] ds IH]; intros bars Hok; destruct bars as [|[i b] bars]; try done; cbn [bars_ok areas] in *.
  - destruct Hok as (_ & _ & Hok). destruct (IH _ Hok) as [H1 H2]. split; [by constructor|done].
  - destruct Hok as (Hi & Hb & _ & Hok). destruct (IH _ Hok) as [H1 H2]. destruct (bar_k _ _ _ _ _ Hb) as (Hk & _).
    split; [constructor; [lia|done]|]. intros mmio. constructor; [cbn; split; [done|lia]|apply H2].
  - destruct bars as [|[i2 b2] bars]; [done|]. destruct Hok as (Hi & Hb & _ & _ & _ & Hok). destruct (IH _ Hok) as [H1 H2].
    destruct (bar_k _ _ _ _ _ Hb) as (Hk & _). split; [constructor; [lia|done]|]. intros mmio. constructor; [cbn; split; [done|lia]|apply H2].
Qed.

(** The end stays below what the sizes need. *)
Lemma areas_end_need ds : forall mmio, Forall (fun d => match d with NoBar => True | Bar k _ | Bar64 k _ => 0 <= k end) ds -> areas_end mmio ds <= mmio + need ds.
Proof.
  induction ds as [|[|k w|k w] ds IH]; intros mmio Hk; apply Forall_cons in Hk as [Hk Hks] || clear Hk; cbn; [lia|by apply IH| |];
    destruct (align_up_spec mmio k Hk); specialize (IH (align_up mmio k + 2 ^ k) Hks); lia.
Qed.

(** What a device gets. *)
Definition device_resources (p : PCI) (bus dev mmio : Z) (h : Header) (ds : list BarDesc) : list Arg :=
  Pci (Z.shiftr (dev_offset bus dev) 4) (wrap 64 (physical_address p + dev_offset bus dev)) 4096 ::
  (area_arg <$> areas mmio (enumerate (base_addresses h)) ds).

Lemma resources_struct wmask p c bus dev mmio h ds :
  0 <= bus < 256 -> 0 <= dev < 32 -> bars_ok wmask c (enumerate (base_addresses h)) ds -> 0 <= mmio -> mmio + need ds <= 2 ^ 32 ->
  Forall is_struct (device_resources p bus dev mmio h ds).
Proof.
  intros Hb Hd Hok Hm Hn. destruct (offset_device bus dev Hb Hd) as [_ Hf]. destruct (bars_ok_k _ _ _ _ Hok) as [Hk Hi]. constructor.
  - cbn. repeat apply Forall_cons_2; try apply Forall_nil_2; [|pose proof (wrap_fits 64 (physical_address p + dev_offset bus dev) ltac:(lia))|]; unfold fits in *; [|lia..].
    rewrite Z.shiftr_div_pow2 by lia. split; [apply Z.div_pos; lia|apply Z.div_lt_upper_bound; lia].
  - apply Forall_fmap. destruct (areas_ordered ds mmio (enumerate (base_addresses h)) Hk) as (_ & Ho & _).
    pose proof (areas_end_need ds mmio Hk). specialize (Hi mmio). rewrite Forall_forall in Ho, Hi |- *. intros a Ha.
    destruct (Ho a Ha) as (_ & H1 & H2). destruct (Hi a Ha) as [H3 H4]. apply area_arg_struct; [done| |done].
    pose proof (Z.pow_pos_nonneg 2 (ar_k a) ltac:(lia) ltac:(lia)). unfold fits. lia.
Qed.

(** C16: The PCI driver starts the driver of a device with the resources of the device.  When the
    device's base addresses have room, every one of them gets an area that is aligned to its size
    and behind the previous one, its registers hold the address with the flags of the device, no
    other register changes, and the started driver reads exactly these areas from its
    arguments. *)
Theorem pci_device_resources wmask p c bus dev mmio h ds ft :
  0 <= bus < 256 -> 0 <= dev < 32 -> from_raw c (pci_start p + dev_offset bus dev) = h ->
  bars_ok wmask c (enumerate (base_addresses h)) ds -> (length ds <= 6)%nat -> 0 <= mmio -> mmio + need ds <= 2 ^ 32 ->
  parse_pci ft = true -> parse_bar_io ft = true -> parse_bar_mmio ft = true ->
  let l := areas mmio (enumerate (base_addresses h)) ds in
  exists c' args, device_args wmask p c bus dev mmio = Done (c', areas_end mmio ds, args) /\
    parse_args ft (fun _ => 0%nat) args = Done (device_resources p bus dev mmio h ds, Ok tt) /\
    assigned c c' (enumerate (base_addresses h)) l /\
    Forall (fun a => ar_base a mod 2 ^ ar_k a = 0 /\ mmio <= ar_base a /\ ar_base a + 2 ^ ar_k a <= areas_end mmio ds) l /\
    ForallOrdPairs (fun a1 a2 => ar_base a1 + 2 ^ ar_k a1 <= ar_base a2) l.
Proof.
  intros Hb Hd Hh Hok Hlen Hm Hn Hp Hio Hmm l. destruct (offset_device bus dev Hb Hd) as [Eo Hf]. destruct (bars_ok_k _ _ _ _ Hok) as [Hk _].
  pose proof (resources_struct wmask p c bus dev mmio h ds Hb Hd Hok Hm Hn) as Hs. pose proof Hs as [Hs1 _]%Forall_cons.
  destruct (push_arg_spec _ (replicate 4096 0) [] Hs1) as (buf & Epci & Hbuf & H4); [done|rewrite length_replicate; apply Nat.leb_le; done|cbn; lia|].
  rewrite length_replicate in Hbuf.
  destruct (assign_bars_spec wmask ds (enumerate (base_addresses h)) c mmio buf (arg_text (Pci (Z.shiftr (dev_offset bus dev) 4)
    (wrap 64 (physical_address p + dev_offset bus dev)) 4096)) Hok (regs_nodup h) Hm Hn) as (c' & buf' & E & Has); [lia|lia|].
  exists c'. eexists. split; [|split; [|split; [exact Has|by apply areas_ordered]]].
  - unfold device_args, child_address, get_child_address, header_physical_address, get_physical_address, Device_header, get_unchecked.
    rewrite Eo. cbn [obind]. unfold try_into. rewrite decide_True.
    2: { unfold fits in *. rewrite Z.shiftr_div_pow2 by lia. split; [apply Z.div_pos; lia|apply Z.div_lt_upper_bound; lia]. }
    cbn [obind]. change Header_size with 4096. rewrite Epci. cbn [obind fst snd app]. rewrite Hh, E. done.
  - rewrite <-concat_cons, <-fmap_cons. apply parse_args_loop_spec; [exact Hs| |apply Nat.lt_succ_diag_r].
    constructor; [done|]. apply Forall_fmap, Forall_forall. intros a _. unfold compose, area_arg. by destruct (is_mmio (ar_w a)).
Qed.

(** A network card: one memory area of 32 bits, one input and output area, one area of 64 bits. *)
Definition card_cfg : Cfg :=
  list_to_map [(0x4000000 + 2 ^ 13, 0x10001af4); (0x4000000 + 2 ^ 13 + 3, 0); (0x4000000 + 2 ^ 13 + 4, 0); (0x4000000 + 2 ^ 13 + 5, 1);
    (0x4000000 + 2 ^ 13 + 6, 0); (0x4000000 + 2 ^ 13 + 7, 0); (0x4000000 + 2 ^ 13 + 8, 12); (0x4000000 + 2 ^ 13 + 9, 0)].

Definition card_mask (r : Z) : Z :=
  if decide (r = 0x4000000 + 2 ^ 13 + 4) then 2 ^ 32 - 2 ^ 12 else if decide (r = 0x4000000 + 2 ^ 13 + 5) then 2 ^ 32 - 2 ^ 5
  else if decide (r = 0x4000000 + 2 ^ 13 + 8) then 2 ^ 32 - 2 ^ 14 else if decide (r = 0x4000000 + 2 ^ 13 + 9) then 2 ^ 32 - 1 else 0.

Definition card_bars : list BarDesc := [Bar 12 0; Bar 5 1; NoBar; NoBar; Bar64 14 12].

Definition card_pci : PCI := mkPCI 0x10000000 0x30000000 0x10000000 [] 0.

Lemma card_bars_ok : bars_ok card_mask card_cfg (enumerate (base_addresses (H0 0x10008000))) card_bars.
Proof.
  assert (enumerate (base_addresses (H0 0x10008000)) =
    [(0, 0x10008010); (1, 0x10008014); (2, 0x10008018); (3, 0x1000801c); (4, 0x10008020); (5, 0x10008024)]) as -> by by vm_compute.
  cbn [card_bars bars_ok]. split_and!.
  2, 5, 12: constructor; by vm_compute.
  12: exists 0; split; by vm_compute.
  all: by vm_compute.
Qed.

Lemma pci_device_resources_witness :
  exists c' args, device_args card_mask card_pci card_cfg 0 1 0x40000010 = Done (c', 0x40008000, args) /\
    parse_args all_features (fun _ => 0%nat) args =
      Done ([Pci 0x800 0x30008000 4096; BarMmio 0 0x40001000 0x1000; BarIo 1 0x40002000 32; BarMmio 4 0x40004000 0x4000], Ok tt) /\
    c' !! (0x4000000 + 2 ^ 13 + 8) = Some 0x4000400c.
Proof.
  destruct (pci_device_resources card_mask card_pci card_cfg 0 1 0x40000010 (H0 0x10008000) card_bars all_features)
    as (c' & args & E & Ep & [Hs _] & _).
  - lia.
  - lia.
  - by vm_compute.
  - exact card_bars_ok.
  - cbn. lia.
  - lia.
  - by vm_compute.
  - done.
  - done.
  - done.
  - exists c', args. split; [exact E|]. split; [exact Ep|]. cbn in Hs. repeat (apply Forall_cons in Hs as [? Hs]). destruct H1 as [Hx _]. exact Hx.
Defined.
