(* ===== verification/PciIrq.v ===== *)
(** * Interrupts of the PCI driver

    src/services/driver/pci/src/notification.rs and the loop of main.rs: tasks open an interrupt
    of their device and are then told of it in turn.

    The theorem: as long as the tables have room, the tasks that listen to an interrupt are kept
    in order, and as many notifications as there are listeners reach every one of them once. *)

From S2P Require Import Prelude Page UserMem Bytes Utf8 DriverArgs Pci PciDriver.

(** ** Listeners *)

Record Interrupt := mkInterrupt { tasks : list Z; tasks_count : Z; interrupt : Z; index : Z }.

#[export] Instance Interrupt_eq_dec : EqDecision Interrupt.
Proof. solve_decision. Defined.

(** [INTERRUPT_LISTENERS] and [INTERRUPT_LISTENERS_COUNT]. *)
Record Listeners := mkListeners { entries : list Interrupt; entries_count : Z }.

Definition unused : Interrupt := mkInterrupt (replicate 16 0) 0 0 0.

Definition Listeners0 : Listeners := mkListeners (replicate 16 unused) 0.

Definition usize_MAX : Z := 2 ^ 64 - 1.

(** [iter_mut().find(|e| e.interrupt == interrupt)] *)
Definition find_irq (irq : Z) (l : list Interrupt) : option (nat * Interrupt) := list_find (fun e => interrupt e = irq) l.

Definition notification_handler (typ value address : Z) (ls : Listeners) : outcome (Z * Listeners) :=
  if decide (typ <> 0 \/ address <> usize_MAX) then Done (usize_MAX, ls)
  else
    match find_irq value (entries ls) with
    | None => Done (usize_MAX, ls)
    | Some (k, e) =>
      match nth_z (tasks e) (index e) with
      | None => Panicked "index out of bounds"
      | Some addr =>
        let i := wrap 8 (index e + 1) in
        if decide (tasks_count e = 0) then Panicked "attempt to calculate the remainder with a divisor of zero"
        else Done (addr, mkListeners (<[k := mkInterrupt (tasks e) (tasks_count e) (interrupt e) (i mod tasks_count e)]> (entries ls)) (entries_count ls))
      end
    end.

Definition add_interrupt_listener (irq address : Z) (ls : Listeners) : outcome Listeners :=
  match find_irq irq (entries ls) with
  | Some (k, e) =>
    if decide (tasks_count e < zlen (tasks e)) then
      Done (mkListeners (<[k := mkInterrupt (set_z (tasks e) (tasks_count e) address) (wrap 8 (tasks_count e + 1)) (interrupt e) (index e)]>
        (entries ls)) (entries_count ls))
    else Panicked "index out of bounds"
  | None =>
    if decide (entries_count ls < zlen (entries ls)) then
      Done (mkListeners (set_z (entries ls) (entries_count ls) (mkInterrupt (set_z (replicate 16 0) 0 address) 1 irq 0)) (wrap 8 (entries_count ls + 1)))
    else Panicked "index out of bounds"
  end.

(** Reserving the interrupts: [status] answers the [n]-th system call.  The fuel bounds the
    calls, 12 asks for another one. *)
Fixpoint reserve_irqs (fuel : nat) (status : nat -> Z) (n : nat) (irqs : list Z) : outcome nat :=
  match fuel with
  | O => OutOfFuel
  | S fuel =>
    match irqs with
    | [] => Done n
    | _ :: rest =>
      if decide (status n = 0) then reserve_irqs fuel status (S n) rest
      else if decide (status n = 11) then Panicked "interrupt already reserved"
      else if decide (status n = 12) then reserve_irqs fuel status (S n) irqs
      else Panicked "failed to reserve interrupt"
    end
  end.

(** [OP_OPEN] in the loop of [main]: the interrupt [uuid] of the device of the task at [address]. *)
Definition on_open (cf : Config) (ts : list Task) (uuid address : Z) (ls : Listeners) : outcome Listeners :=
  match list_find (fun t => t_address t = address) ts with
  | None => Panicked "called `Option::unwrap()` on a `None` value"
  | Some (_, t) =>
    let mask_addr := Z.land (t_child_address t) (cf_mask cf).1 in
    let mask_intr := Z.land uuid (cf_mask cf).2 in
    match list_find (fun m => im_child_address m = mask_addr /\ im_bus m = mask_intr) (cf_map cf) with
    | None => Panicked "called `Option::unwrap()` on a `None` value"
    | Some (_, m) => add_interrupt_listener (im_system m) address ls
    end
  end.

(** Notifications of one interrupt, one after the other. *)
Fixpoint notify_n (n : nat) (irq : Z) (ls : Listeners) : outcome (list Z * Listeners) :=
  match n with
  | O => Done ([], ls)
  | S n =>
    let! '(a, ls) := notification_handler 0 irq usize_MAX ls in
    let! '(l, ls) := notify_n n irq ls in
    Done (a :: l, ls)
  end.

(** ** What the tables mean *)

(** An interrupt, the tasks that listen to it and the one that is next. *)
Abbreviation irq_state := (Z * list Z * nat)%type.

Definition entry_of (x : irq_state) : Interrupt :=
  let '(irq, ts, i) := x in mkInterrupt (ts ++ replicate (16 - length ts) 0) (zlen ts) irq (Z.of_nat i).

Definition irq_ok (x : irq_state) : Prop :=
  let '(irq, ts, i) := x in irq <> 0 /\ (i < length ts)%nat /\ (length ts <= 16)%nat.

Record listens (ls : Listeners) (m : list irq_state) : Prop := mk_listens {
  li_entries : entries ls = (entry_of <$> m) ++ replicate (16 - length m) unused;
  li_count : entries_count ls = zlen m;
  li_len : (length m <= 16)%nat;
  li_ok : Forall irq_ok m;
  li_nodup : NoDup ((fun x => x.1.1) <$> m)
}.

Lemma interrupt_entry_of x : interrupt (entry_of x) = x.1.1.
Proof. by destruct x as [[irq ts] i]. Qed.

(** Finding an interrupt. *)
Lemma find_listening m1 m2 irq ts i rest :
  NoDup ((fun x => x.1.1) <$> (m1 ++ (irq, ts, i) :: m2)) ->
  find_irq irq ((entry_of <$> (m1 ++ (irq, ts, i) :: m2)) ++ rest) = Some (length m1, entry_of (irq, ts, i)).
Proof.
  intros Hnd. rewrite fmap_app, fmap_cons in Hnd. apply NoDup_app in Hnd as (_ & Hnd & _).
  unfold find_irq. apply list_find_Some. rewrite fmap_app, fmap_cons, <-app_assoc. split_and!.
  - rewrite <-(length_fmap entry_of m1). by apply list_lookup_middle.
  - done.
  - intros j e Hj Hlt. rewrite lookup_app_l in Hj by (rewrite length_fmap; done). rewrite list_lookup_fmap in Hj.
    destruct (m1 !! j) as [x|] eqn:Hx; [|done]. injection Hj as <-. rewrite interrupt_entry_of. intros E.
    apply (Hnd x.1.1); [apply list_elem_of_fmap; exists x; split; [done|by eapply list_elem_of_lookup_2]|]. rewrite E. by left.
Qed.

Lemma find_not_listening m irq n :
  irq <> 0 -> irq ∉ ((fun x => x.1.1) <$> m) -> find_irq irq ((entry_of <$> m) ++ replicate n unused) = None.
Proof.
  intros Hz Hn. unfold find_irq. apply list_find_None, Forall_app. split.
  - apply Forall_fmap, Forall_forall. intros x Hx. unfold compose. rewrite interrupt_entry_of. intros E. apply Hn. rewrite <-E.
    apply list_elem_of_fmap. by exists x.
  - apply Forall_replicate. cbn. congruence.
Qed.

Lemma insert_middle {X} (l1 : list X) x y l2 : <[length l1 := y]> (l1 ++ x :: l2) = l1 ++ y :: l2.
Proof. by rewrite insert_app_r_alt, Nat.sub_diag by done. Qed.

(** Changing the entry of an interrupt. *)
Lemma entries_insert m1 x y m2 rest :
  <[length m1 := entry_of y]> ((entry_of <$> (m1 ++ x :: m2)) ++ rest) = (entry_of <$> (m1 ++ y :: m2)) ++ rest.
Proof. rewrite !fmap_app, !fmap_cons, <-!app_assoc. cbn [app]. by rewrite <-(length_fmap entry_of m1), insert_middle. Qed.

Lemma listens_change ls m1 irq ts i m2 ts' i' :
  listens ls (m1 ++ (irq, ts, i) :: m2) -> irq_ok (irq, ts', i') ->
  listens (mkListeners (<[length m1 := entry_of (irq, ts', i')]> (entries ls)) (entries_count ls)) (m1 ++ (irq, ts', i') :: m2).
Proof.
  intros [E Hc Hl Hok Hnd] Hx. rewrite E, entries_insert. constructor; cbn [entries entries_count].
  - rewrite !length_app. done.
  - rewrite Hc. unfold zlen. by rewrite !length_app.
  - rewrite length_app in *. done.
  - apply Forall_app in Hok as [H1 H2]. apply Forall_cons in H2 as [_ H2]. apply Forall_app. split; [done|]. by constructor.
  - rewrite fmap_app, fmap_cons in *. done.
Qed.

(** ** The operations *)

Lemma listens_0 : listens Listeners0 [].
Proof. constructor; [done|done|cbn; lia|constructor|constructor]. Qed.

Lemma notify_spec ls m1 irq ts i m2 :
  listens ls (m1 ++ (irq, ts, i) :: m2) ->
  exists a ls', ts !! i = Some a /\ notification_handler 0 irq usize_MAX ls = Done (a, ls') /\
    listens ls' (m1 ++ (irq, ts, (i + 1) mod length ts)%nat :: m2).
Proof.
  intros Hls. pose proof Hls as [E _ _ Hok Hnd]. apply Forall_app in Hok as [_ [(Hz & Hi & Hl) _]%Forall_cons].
  destruct (lookup_lt_is_Some_2 ts i Hi) as [a Ha]. exists a. eexists. split; [done|]. split.
  - unfold notification_handler. rewrite decide_False by (intros [|]; done). rewrite E, find_listening by done. cbn [entry_of tasks index tasks_count interrupt].
    assert (nth_z (ts ++ replicate (16 - length ts) 0) (Z.of_nat i) = Some a) as ->
      by (unfold nth_z; rewrite decide_True, Nat2Z.id by lia; by apply lookup_app_l_Some).
    rewrite decide_False by (unfold zlen; lia). rewrite <-E. done.
  - assert (wrap 8 (Z.of_nat i + 1) mod zlen ts = Z.of_nat ((i + 1) mod length ts)) as ->
      by (rewrite wrap_small by (unfold fits; lia); unfold zlen; rewrite Nat2Z.inj_mod; f_equal; lia).
    apply (listens_change _ _ _ ts i); [done|]. split_and!; [done|apply Nat.mod_upper_bound; lia|done].
Qed.

(** A stretch of notifications that stays below the end of the tasks. *)
Lemma notify_stretch n : forall ls m1 irq ts i m2,
  listens ls (m1 ++ (irq, ts, i) :: m2) -> (i + n <= length ts)%nat ->
  exists ls', notify_n n irq ls = Done (take n (drop i ts), ls') /\ listens ls' (m1 ++ (irq, ts, (i + n) mod length ts)%nat :: m2).
Proof.
  induction n as [|n IH]; intros ls m1 irq ts i m2 Hls Hn.
  - exists ls. rewrite Nat.add_0_r. split; [done|]. pose proof (li_ok _ _ Hls) as Hok. apply Forall_app in Hok as [_ [(_ & Hi & _) _]%Forall_cons].
    by rewrite Nat.mod_small.
  - destruct (notify_spec _ _ _ _ _ _ Hls) as (a & ls1 & Ha & E & Hls1). cbn [notify_n]. rewrite E. cbn [obind].
    destruct n as [|n].
    { exists ls1. split; [cbn [notify_n obind]; by rewrite (drop_S _ _ _ Ha)|done]. }
    rewrite Nat.mod_small in Hls1 by lia. destruct (IH _ _ _ _ _ _ Hls1) as (ls' & E' & Hls'); [lia|]. exists ls'. rewrite E'. cbn [obind].
    rewrite (drop_S _ _ _ Ha), Nat.add_1_r. cbn [take]. split; [done|]. replace (i + S (S n))%nat with (i + 1 + S n)%nat by lia. done.
Qed.

Lemma notify_n_app a b irq ls :
  notify_n (a + b) irq ls = let! '(l1, ls) := notify_n a irq ls in let! '(l2, ls) := notify_n b irq ls in Done (l1 ++ l2, ls).
Proof.
  revert ls. induction a as [|a IH]; intros ls.
  - cbn [Nat.add notify_n obind]. by destruct (notify_n b irq ls) as [[? ?]| |].
  - cbn [Nat.add notify_n]. destruct (notification_handler 0 irq usize_MAX ls) as [[x ls1]| |]; cbn [obind]; [|done..]. rewrite IH.
    destruct (notify_n a irq ls1) as [[l1 ls2]| |]; cbn [obind]; [|done..]. by destruct (notify_n b irq ls2) as [[l2 ls3]| |].
Qed.

Lemma notify_round ls m1 irq ts i m2 :
  listens ls (m1 ++ (irq, ts, i) :: m2) ->
  exists ls', notify_n (length ts) irq ls = Done (drop i ts ++ take i ts, ls') /\ listens ls' (m1 ++ (irq, ts, i) :: m2).
Proof.
  intros Hls. pose proof (li_ok _ _ Hls) as Hok. apply Forall_app in Hok as [_ [(_ & Hi & _) _]%Forall_cons].
  replace (length ts) with ((length ts - i) + i)%nat by lia. rewrite notify_n_app.
  destruct (notify_stretch (length ts - i) _ _ _ _ _ _ Hls) as (ls1 & -> & Hls1); [lia|]. cbn [obind].
  rewrite take_ge by (rewrite length_drop; lia). replace (i + (length ts - i))%nat with (length ts) in Hls1 by lia. rewrite Nat.Div0.mod_same in Hls1.
  destruct (notify_stretch i _ _ _ _ _ _ Hls1) as (ls2 & -> & Hls2); [lia|]. cbn [obind]. exists ls2. split; [done|].
  by rewrite Nat.add_0_l, Nat.mod_small in Hls2.
Qed.

(** A task more for an interrupt that has listeners, and the first one of an interrupt. *)
Lemma add_listener_more ls m1 irq ts i m2 a :
  listens ls (m1 ++ (irq, ts, i) :: m2) -> (length ts < 16)%nat ->
  exists ls', add_interrupt_listener irq a ls = Done ls' /\ listens ls' (m1 ++ (irq, ts ++ [a], i) :: m2).
Proof.
  intros Hls Hl. pose proof Hls as [E _ _ Hok Hnd]. apply Forall_app in Hok as [_ [(Hz & Hi & _) _]%Forall_cons].
  eexists. split.
  - unfold add_interrupt_listener. rewrite E, find_listening by done. cbn [entry_of tasks index tasks_count interrupt].
    rewrite decide_True by (unfold zlen; rewrite length_app, length_replicate; lia). rewrite <-E. done.
  - assert (mkInterrupt (set_z (ts ++ replicate (16 - length ts) 0) (zlen ts) a) (wrap 8 (zlen ts + 1)) irq (Z.of_nat i) = entry_of (irq, ts ++ [a], i)) as ->.
    { cbn. rewrite length_app. cbn. destruct (16 - length ts)%nat as [|k] eqn:Ek; [lia|]. cbn [replicate]. rewrite set_z_app.
      replace (16 - (length ts + 1))%nat with k by lia. rewrite <-app_assoc, wrap_small by (unfold fits, zlen; lia). cbn. f_equal.
      unfold zlen. rewrite length_app. cbn. lia. }
    apply (listens_change _ _ _ ts i); [done|]. split_and!; [done|rewrite length_app; cbn; lia|rewrite length_app; cbn; lia].
Qed.

Lemma add_listener_first ls m irq a :
  listens ls m -> irq <> 0 -> irq ∉ ((fun x => x.1.1) <$> m) -> (length m < 16)%nat ->
  exists ls', add_interrupt_listener irq a ls = Done ls' /\ listens ls' (m ++ [(irq, [a], 0%nat)]).
Proof.
  intros [E Hc Hl Hok Hnd] Hz Hn Hlen. eexists. split.
  - unfold add_interrupt_listener. rewrite E, find_not_listening by done. rewrite <-E, Hc.
    rewrite decide_True by (rewrite E; unfold zlen; rewrite length_app, length_fmap, length_replicate; lia). done.
  - constructor; cbn [entries entries_count].
    + rewrite E. destruct (16 - length m)%nat as [|k] eqn:Ek; [lia|]. cbn [replicate].
      replace (zlen m) with (zlen (entry_of <$> m)) by (unfold zlen; by rewrite length_fmap). rewrite set_z_app, fmap_app, <-app_assoc.
      cbn [fmap list_fmap app]. rewrite length_app. cbn [length]. by replace (16 - (length m + 1))%nat with k by lia.
    + unfold zlen. rewrite length_app, wrap_small by (unfold fits; lia). cbn. lia.
    + rewrite length_app. cbn. lia.
    + apply Forall_app. split; [done|]. constructor; [|done]. cbn. split_and!; [done|lia..].
    + rewrite fmap_app. apply NoDup_app. split_and!; [done| |apply NoDup_singleton]. intros x Hx. cbn. rewrite list_elem_of_singleton. by intros ->.
Qed.

(** C18: Interrupts go round.  Whatever task is next, as many notifications of an interrupt as it
    has listeners reach every listener once, in turn, and leave the tables as they were; a task
    that opens the interrupt is told of it after those that have it, and one that opens another
    interrupt gets a place of its own, as long as there is room. *)
Theorem interrupts_go_round ls m1 irq ts i m2 :
  let m := m1 ++ (irq, ts, i) :: m2 in
  listens ls m ->
  (exists l ls', notify_n (length ts) irq ls = Done (l, ls') /\ l = drop i ts ++ take i ts /\ l ≡ₚ ts /\ listens ls' m) /\
  (forall a, (length ts < 16)%nat ->
     exists ls', add_interrupt_listener irq a ls = Done ls' /\ listens ls' (m1 ++ (irq, ts ++ [a], i) :: m2)) /\
  (forall irq' a, irq' <> 0 -> irq' ∉ ((fun x => x.1.1) <$> m) -> (length m < 16)%nat ->
     exists ls', add_interrupt_listener irq' a ls = Done ls' /\ listens ls' (m ++ [(irq', [a], 0%nat)])).
Proof.
  intros m Hls. split_and!.
  - destruct (notify_round _ _ _ _ _ _ Hls) as (ls' & E & Hls'). do 2 eexists. split_and!; [exact E|done| |done].
    rewrite Permutation_app_comm. by rewrite take_drop.
  - intros a Hl. by apply add_listener_more.
  - intros irq' a Hz Hn Hl. by apply add_listener_first.
Qed.

Lemma interrupts_go_round_witness :
  exists ls ls', listens ls [(33, [7; 8; 9], 0%nat)] /\ notify_n 3 33 ls = Done ([7; 8; 9], ls').
Proof.
  destruct (add_listener_first _ _ 33 7 listens_0) as (ls1 & _ & H1); [done|set_solver|cbn; lia|].
  destruct (add_listener_more _ [] _ _ _ [] 8 H1) as (ls2 & _ & H2); [cbn; lia|].
  destruct (add_listener_more _ [] _ _ _ [] 9 H2) as (ls3 & _ & H3); [cbn; lia|].
  destruct (interrupts_go_round ls3 [] 33 [7; 8; 9] 0 [] H3) as ((l & ls' & E & -> & _) & _). by exists ls3, ls'.
Defined.

(** An interrupt with the number zero is found in the first unused place: its notification panics. *)
Theorem interrupt_zero_panics ls m :
  listens ls m -> (length m < 16)%nat ->
  notification_handler 0 0 usize_MAX ls = Panicked "attempt to calculate the remainder with a divisor of zero".
Proof.
  intros [E _ _ Hok _] Hl. unfold notification_handler. rewrite decide_False by (intros [|]; done).
  assert (find_irq 0 (entries ls) = Some (length m, unused)) as ->; [|done].
  unfold find_irq. apply list_find_Some. rewrite E. destruct (16 - length m)%nat as [|k] eqn:Ek; [lia|]. split_and!.
  - rewrite <-(length_fmap entry_of m). by apply list_lookup_middle.
  - done.
  - intros j e Hj Hlt. rewrite lookup_app_l in Hj by (rewrite length_fmap; done). rewrite list_lookup_fmap in Hj.
    destruct (m !! j) as [[[irq ts] i]|] eqn:Hx; [|done]. injection Hj as <-. rewrite Forall_lookup in Hok. apply (Hok _ _ Hx).
Qed.
