(* ===== verification/VirtioPci.v ===== *)
(** * The PCI transport of virtio devices

    [new_device] of src/lib/rust/virtio/src/pci.rs: the sizes of the base addresses of a device are
    read, the capabilities are looked through for the places of the structures of the device, and
    the places are turned into addresses.

    The theorem: for a device whose registers and chain of capabilities are as the specification
    has them, the addresses are those of the first capability of each kind, and every register has
    its value again. *)

From S2P Require Import Prelude Page UserMem Pci.

(** ** Data *)

(** [DeviceType] *)
Definition DeviceType_new (vendor device : Z) : Z := Z.lor (Z.shiftl vendor 16) device.
Definition DeviceType_vendor (t : Z) : Z := wrap 16 (Z.shiftr t 16).
Definition DeviceType_device (t : Z) : Z := wrap 16 (Z.land t 0xffff).

Definition COMMON_CONFIGURATION : Z := 1.
Definition NOTIFY_CONFIGURATION : Z := 2.
Definition ISR_CONFIGURATION : Z := 3.
Definition DEVICE_CONFIGURATION : Z := 4.
Definition PCI_CONFIGURATION : Z := 5.

(** The fields of a [Capability] at an address. *)
Definition cap_config_type (c : Cfg) (p : Z) : Z := rd8 c (p + 3).
Definition cap_base_address (c : Cfg) (p : Z) : Z := rd8 c (p + 4).
Definition cap_offset (c : Cfg) (p : Z) : Z := rd32 c (p + 8).
Definition cap_more_stuff (c : Cfg) (p : Z) : Z := rd32 c (p + 16).

Definition queue_update (status : Z) : bool := bool_decide (Z.land status 0x1 > 0).
Definition configuration_update (status : Z) : bool := bool_decide (Z.land status 0x2 > 0).

Record Notify := mkNotify { n_address : Z; multiplier : Z }.

(** [Notify::send]: the address that is written. *)
Definition Notify_send (n : Notify) (offset : Z) : Z := wrap 64 (n_address n + 2 * (multiplier n / 2 * offset)).

(** ** Sizes *)

Section transport.
Context (wmask : Z -> Z).

Definition BAR_64_FLAG : Z := 0x80.

(** [u32::log2] *)
Definition u32_log2 (x : Z) : outcome Z := if decide (x = 0) then Panicked "argument of integer logarithm must be positive" else Done (Z.log2 x).

Definition non_zero (x : Z) : outcome Z := if decide (x = 0) then Panicked "called `Option::unwrap()` on a `None` value" else Done x.

(** Writing ones, reading, and writing the value back. *)
Definition probe (c : Cfg) (a i bar : Z) : outcome (Z * Cfg) :=
  let! c := set_base_address wmask c a i 0xffffffff in
  let! r := base_address c a i in
  let size := wrap 32 (2 ^ 32 - 1 - Z.land r 0xfffffff0 + 1) in
  let! c := set_base_address wmask c a i bar in
  Done (size, c).

Definition bar_size (c : Cfg) (a i : Z) : outcome (option Z * Cfg) :=
  let! bar := base_address c a i in
  if decide (Z.land bar BAR_IO_SPACE > 0) then Done (None, c)
  else
    let t := Z.land bar BAR_TYPE_MASK in
    if decide (t = 0x0) then
      let! '(size, c) := probe c a i bar in
      if decide (size > 0) then let! l := u32_log2 size in let! l := non_zero l in Done (Some l, c) else Done (None, c)
    else if decide (t = 0x2) then Panicked "Type bit 0x1 is reserved"
    else if decide (t = 0x4) then
      let! '(size, c) := probe c a i bar in
      if decide (size = 0x10) then Panicked "MMIO area larger than 4GB"
      else let! l := u32_log2 size in let! l := non_zero (Z.lor l BAR_64_FLAG) in Done (Some l, c)
    else Panicked "Type bit 0x3 is reserved".

(** The loop over [bar_sizes]; [skip] is never set. *)
Fixpoint bar_sizes (is_ : list Z) (c : Cfg) (a : Z) : outcome (list (option Z) * Cfg) :=
  match is_ with
  | [] => Done ([], c)
  | i :: is_ =>
    let! '(s, c) := bar_size c a i in
    let! '(l, c) := bar_sizes is_ c a in
    Done (s :: l, c)
  end.

(** ** Capabilities *)

Record Caps := mkCaps { common_config : option Z; notify_config : option (Z * Z); isr_config : option Z; device_config : option Z; pci_config : option Z }.

Definition Caps0 : Caps := mkCaps None None None None None.

Definition on_cap (c : Cfg) (bs : list (option Z)) (p : Z) (k : Caps) : outcome Caps :=
  if decide (capability_id c p = 0x9) then
    let cap := capability_data p in
    match nth_z bs (cap_base_address c cap) with
    | None => Panicked "index out of bounds"
    | Some None => Done k
    | Some (Some _) =>
      let t := cap_config_type c cap in
      Done (if decide (t = COMMON_CONFIGURATION) then
              mkCaps (match common_config k with None => Some cap | x => x end) (notify_config k) (isr_config k) (device_config k) (pci_config k)
            else if decide (t = NOTIFY_CONFIGURATION) then
              mkCaps (common_config k) (match notify_config k with None => Some (cap, cap_more_stuff c cap) | x => x end) (isr_config k) (device_config k) (pci_config k)
            else if decide (t = ISR_CONFIGURATION) then
              mkCaps (common_config k) (notify_config k) (match isr_config k with None => Some cap | x => x end) (device_config k) (pci_config k)
            else if decide (t = DEVICE_CONFIGURATION) then
              mkCaps (common_config k) (notify_config k) (isr_config k) (match device_config k with None => Some cap | x => x end) (pci_config k)
            else if decide (t = PCI_CONFIGURATION) then
              mkCaps (common_config k) (notify_config k) (isr_config k) (device_config k) (match pci_config k with None => Some cap | x => x end)
            else k)
    end
  else Done k.

(** [for cap_raw in header.capabilities()]; the fuel bounds the capabilities. *)
Fixpoint read_caps (fuel : nat) (c : Cfg) (bs : list (option Z)) (next : option Z) (k : Caps) : outcome Caps :=
  match fuel with
  | O => OutOfFuel
  | S fuel =>
    match CapabilityIter_next c next with
    | (None, _) => Done k
    | (Some p, next) => let! k := on_cap c bs p k in read_caps fuel c bs next k
    end
  end.

(** ** [new_device] *)

(** [setup_mmio] *)
Definition setup_mmio (regions : list (option Z)) (bar offset : Z) : outcome Z :=
  match nth_z regions bar with
  | None => Panicked "index out of bounds"
  | Some None => Panicked "BAR not mapped to region"
  | Some (Some r) => Done (wrap 64 (r + offset))
  end.

Definition place (c : Cfg) (regions : list (option Z)) (cap : option Z) (why : string) : outcome Z :=
  match cap with
  | None => Panicked why
  | Some p => setup_mmio regions (cap_base_address c p) (cap_offset c p)
  end.

(** The arguments of the handler: the common and device configurations, the notifier and the
    interrupt status. *)
Definition new_device (fuel : nat) (c : Cfg) (header : Header) (regions : list (option Z)) : outcome ((Z * Z * Notify * Z) * Cfg) :=
  match header with
  | H0 a =>
    let! '(bs, c) := bar_sizes (seqZ 0 6) c a in
    let! k := read_caps fuel c bs (capabilities c a) Caps0 in
    if decide (zlen regions = BASE_ADDRESS_COUNT) then
      let! cc := place c regions (common_config k) "No common config map defined" in
      let! dc := place c regions (device_config k) "No common config map defined" in
      let! nc :=
        match notify_config k with
        | None => Panicked "No common config map defined"
        | Some (p, mul) => let! r := setup_mmio regions (cap_base_address c p) (cap_offset c p) in Done (mkNotify r mul)
        end in
      let! ic := place c regions (isr_config k) "No isr config map defined" in
      Done ((cc, dc, nc, ic), c)
    else Panicked "assertion failed: mmio.len() == BASE_ADDRESS_COUNT"
  | _ => Panicked "internal error: entered unreachable code"
  end.
End transport.

(** ** Registers *)

(** What a register of a base address is: nothing, input and output, the only half, the lower half
    or the upper half of a memory area. *)
Inductive RegDesc := RNone | RIo (w : Z) | RMem (k w : Z) | RMem64 (k w : Z) | RHigh.

Definition size_of (d : RegDesc) : option Z :=
  match d with RNone | RIo _ => None | RMem k _ => Some k | RMem64 k _ => Some (Z.lor k BAR_64_FLAG) | RHigh => Some 4 end.

Section sizes.
Context (wmask : Z -> Z).

Definition reg_ok (c : Cfg) (b : Z) (d : RegDesc) : Prop :=
  match d with
  | RNone => c !! (b / 4) = Some 0 /\ wmask (b / 4) = 0
  | RIo w => c !! (b / 4) = Some w /\ Z.land w 1 = 1
  | RMem k w => bar_ok wmask c b k w /\ Z.land w 7 = 0
  | RMem64 k w => bar_ok wmask c b k w /\ Z.land w 7 = 4 /\ k <> 4
  | RHigh => c !! (b / 4) = Some 0 /\ wmask (b / 4) = 2 ^ 32 - 1
  end.

Lemma base_address_reg c a i w : 0 <= i < 6 -> c !! ((a + 0x10 + 4 * i) / 4) = Some w -> base_address c a i = Done w.
Proof. intros Hi Hr. unfold base_address, BaseAddress_get, rd32. by rewrite decide_True, Hr by done. Qed.

Lemma land_low w n m : 0 <= n <= m -> Z.land w (2 ^ n - 1) = Z.land (Z.land w (2 ^ m - 1)) (2 ^ n - 1).
Proof.
  intros Hn. rewrite !land_mask by lia. rewrite Z.mod_mod_divide; [done|]. exists (2 ^ (m - n)). rewrite <-Z.pow_add_r by lia. f_equal. lia.
Qed.

Lemma is_mmio_low w : Z.land w 7 = 0 \/ Z.land w 7 = 4 -> is_mmio w = true /\ Z.land w BAR_IO_SPACE = 0 /\ Z.land w BAR_TYPE_MASK = Z.land w 7.
Proof.
  intros Hw. assert (Z.land w 1 = 0) as H1.
  { change 1 with (2 ^ 1 - 1) at 1. rewrite (land_low w 1 3) by lia. change (2 ^ 3 - 1) with 7. by destruct Hw as [-> | ->]. }
  unfold is_mmio, BAR_IO_SPACE, BAR_TYPE_MASK. rewrite H1. split; [by apply bool_decide_eq_true_2|]. split; [done|].
  change 6 with (Z.land 7 6). rewrite Z.land_assoc. by destruct Hw as [-> | ->].
Qed.

(** Probing a memory area. *)
Lemma probe_bar c a i k w :
  0 <= i < 6 -> bar_ok wmask c (a + 0x10 + 4 * i) k w -> is_mmio w = true -> probe wmask c a i w = Done (2 ^ k, c).
Proof.
  intros Hi Hb Hmm. pose proof Hb as [Hr Hf _ Hk Hl]. rewrite Hmm in Hk, Hl. assert (2 ^ k <= 2 ^ 31) as Hk31 by (apply Z.pow_le_mono_r; lia).
  assert (0 < 2 ^ k) by lia. pose proof (Z.mod_pos_bound w (2 ^ k) ltac:(lia)).
  unfold probe, set_base_address, BaseAddress_set. rewrite !decide_True by done. cbn [obind].
  rewrite (wr32_bar _ _ _ _ _ _ Hb), ones_above by (unfold fits; lia). erewrite base_address_reg by (done || by rewrite lookup_insert, decide_True). cbn [obind].
  change 0xfffffff0 with (2 ^ 32 - 2 ^ 4). rewrite ones_above_land by lia.
  replace (2 ^ 32 - 1 - (2 ^ 32 - 2 ^ k) + 1) with (2 ^ k) by lia. rewrite wrap_small by (unfold fits; lia).
  rewrite wr32_after_size by done. rewrite decide_True by done. cbn [obind]. rewrite insert_id; [done|]. rewrite Hr. f_equal. pose proof (Z.div_mod w (2 ^ k) ltac:(lia)). lia.
Qed.

(** Probing a register that holds zero and has no or only writable bits. *)
Lemma probe_zero c a i m :
  0 <= i < 6 -> c !! ((a + 0x10 + 4 * i) / 4) = Some 0 -> wmask ((a + 0x10 + 4 * i) / 4) = m -> m = 0 \/ m = 2 ^ 32 - 1 ->
  probe wmask c a i 0 = Done (if decide (m = 0) then 0 else 0x10, c).
Proof.
  intros Hi Hr Hm Hcase. unfold probe, set_base_address, BaseAddress_set. rewrite !decide_True by done. cbn [obind].
  assert (wr32 wmask c (a + 0x10 + 4 * i) 0xffffffff = <[(a + 0x10 + 4 * i) / 4 := Z.lor (Z.land 0xffffffff m) (Z.ldiff 0 m)]> c) as ->
    by (unfold wr32; by rewrite Hr, Hm).
  erewrite base_address_reg by (done || by rewrite lookup_insert, decide_True). cbn [obind].
  rewrite decide_True by done. cbn [obind]. unfold wr32. rewrite lookup_insert, decide_True, Hm by done. rewrite insert_insert, decide_True by done.
  destruct Hcase as [-> | ->]; (rewrite insert_id; [done|by rewrite Hr]).
Qed.

Lemma bar_size_ok c a i d : 0 <= i < 6 -> reg_ok c (a + 0x10 + 4 * i) d -> bar_size wmask c a i = Done (size_of d, c).
Proof.
  intros Hi Hd. unfold bar_size. destruct d as [|w|k w|k w|]; cbn [reg_ok size_of] in *.
  - destruct Hd as [Hr Hm]. rewrite (base_address_reg _ _ _ _ Hi Hr). cbn [obind]. rewrite decide_False, decide_True by done.
    rewrite (probe_zero _ _ _ 0) by auto. done.
  - destruct Hd as [Hr Hw]. rewrite (base_address_reg _ _ _ _ Hi Hr). cbn [obind]. unfold BAR_IO_SPACE. rewrite Hw. done.
  - destruct Hd as [Hb Hw]. destruct (is_mmio_low w (or_introl Hw)) as (Hmm & Hio & Ht). rewrite (base_address_reg _ _ _ _ Hi (bo_reg _ _ _ _ _ Hb)).
    cbn [obind]. rewrite Hio, Ht, Hw. rewrite decide_False, decide_True by done. rewrite (probe_bar _ _ _ _ _ Hi Hb Hmm). cbn [obind].
    pose proof (bo_size _ _ _ _ _ Hb) as Hk. rewrite Hmm in Hk. assert (0 < 2 ^ k) by lia. rewrite decide_True by lia.
    unfold u32_log2. rewrite decide_False by lia. rewrite Z.log2_pow2 by lia. cbn [obind]. unfold non_zero. by rewrite decide_False by lia.
  - destruct Hd as (Hb & Hw & Hk4). destruct (is_mmio_low w (or_intror Hw)) as (Hmm & Hio & Ht). rewrite (base_address_reg _ _ _ _ Hi (bo_reg _ _ _ _ _ Hb)).
    cbn [obind]. rewrite Hio, Ht, Hw. rewrite !decide_False, decide_True by done. rewrite (probe_bar _ _ _ _ _ Hi Hb Hmm). cbn [obind].
    pose proof (bo_size _ _ _ _ _ Hb) as Hk. rewrite Hmm in Hk. assert (2 ^ 5 <= 2 ^ k) by (apply Z.pow_le_mono_r; lia).
    rewrite decide_False by lia. unfold u32_log2. rewrite decide_False by lia. rewrite Z.log2_pow2 by lia. cbn [obind]. unfold non_zero.
    rewrite decide_False; [done|]. intros E. apply Z.lor_eq_0_iff in E as [_ E]. done.
  - destruct Hd as [Hr Hm]. rewrite (base_address_reg _ _ _ _ Hi Hr). cbn [obind]. rewrite decide_False, decide_True by done.
    rewrite (probe_zero _ _ _ (2 ^ 32 - 1)) by auto. done.
Qed.

Lemma bar_sizes_ok c a (d : Z -> RegDesc) l :
  Forall (fun i => 0 <= i < 6 /\ reg_ok c (a + 0x10 + 4 * i) (d i)) l -> bar_sizes wmask l c a = Done ((fun i => size_of (d i)) <$> l, c).
Proof.
  induction 1 as [|i l [Hi Hd] _ IH]; [done|]. cbn [bar_sizes]. rewrite (bar_size_ok _ _ _ _ Hi Hd). cbn [obind]. rewrite IH. done.
Qed.
End sizes.

(** ** The first capability of each kind *)

(** A virtio capability in a base address that has a size. *)
Definition usable (c : Cfg) (bs : list (option Z)) (t p : Z) : Prop :=
  capability_id c p = 0x9 /\ cap_config_type c p = t /\ exists s, nth_z bs (cap_base_address c p) = Some (Some s).

#[export] Instance usable_dec c bs t p : Decision (usable c bs t p).
Proof.
  unfold usable. apply and_dec; [apply _|]. apply and_dec; [apply _|].
  destruct (nth_z bs (cap_base_address c p)) as [[s|]|]; [left; by exists s|right; by intros [? [=]]..].
Defined.

Definition first_cap (c : Cfg) (bs : list (option Z)) (t : Z) (ps : list Z) : option Z := snd <$> list_find (usable c bs t) ps.

Lemma first_cap_cons c bs t p ps : first_cap c bs t (p :: ps) = if decide (usable c bs t p) then Some p else first_cap c bs t ps.
Proof.
  unfold first_cap. cbn [list_find]. case_decide; [done|]. by destruct (list_find (usable c bs t) ps) as [[]|].
Qed.

(** [k], with what it lacks from the capabilities [ps]. *)
Definition found (c : Cfg) (bs : list (option Z)) (ps : list Z) (k : Caps) : Caps :=
  let or_first {X} (o : option X) t (f : Z -> X) := match o with Some x => Some x | None => f <$> first_cap c bs t ps end in
  mkCaps (or_first (common_config k) 1 id) (or_first (notify_config k) 2 (fun p => (p, cap_more_stuff c p)))
    (or_first (isr_config k) 3 id) (or_first (device_config k) 4 id) (or_first (pci_config k) 5 id).

(** The base address every virtio capability names has an index. *)
Definition cap_indexed (c : Cfg) (bs : list (option Z)) (p : Z) : Prop := capability_id c p = 0x9 -> 0 <= cap_base_address c p < zlen bs.

(** What a capability changes, and what that does to the rest. *)
Lemma on_cap_found c bs p ps k :
  cap_indexed c bs p -> exists k', on_cap c bs p k = Done k' /\ found c bs ps k' = found c bs (p :: ps) k.
Proof.
  intros Hin. unfold on_cap, capability_data. destruct (decide (capability_id c p = 0x9)) as [H9|H9].
  - destruct (nth_z_lt bs (cap_base_address c p) (Hin H9)) as [s Hs]. rewrite Hs. destruct s as [s|].
    + eexists. split; [done|]. assert (forall t, usable c bs t p <-> cap_config_type c p = t) as Hu by (intros t; unfold usable; rewrite Hs; naive_solver).
      assert (forall t, first_cap c bs t (p :: ps) = if decide (cap_config_type c p = t) then Some p else first_cap c bs t ps) as Hf.
      { intros t. rewrite first_cap_cons. specialize (Hu t). repeat case_decide; tauto. }
      unfold found. rewrite !Hf. unfold COMMON_CONFIGURATION, NOTIFY_CONFIGURATION, ISR_CONFIGURATION, DEVICE_CONFIGURATION, PCI_CONFIGURATION.
      destruct k as [[] [] [] [] []]; cbn [common_config notify_config isr_config device_config pci_config];
        repeat case_decide; cbn [common_config notify_config isr_config device_config pci_config fmap option_fmap option_map]; try congruence; done.
    + exists k. split; [done|]. unfold found. rewrite !first_cap_cons.
      rewrite !decide_False by (intros (_ & _ & s & E); rewrite Hs in E; done). done.
  - exists k. split; [done|]. unfold found. rewrite !first_cap_cons. rewrite !decide_False by (intros (E & _); done). done.
Qed.

Lemma found_nil c bs k : found c bs [] k = k.
Proof. destruct k as [[] [] [] [] []]; done. Qed.

(** Following the chain. *)
Lemma read_caps_chain c a bs os : forall o k,
  0 < a -> a + 256 <= 2 ^ 64 -> a mod 256 = 0 -> cap_chain c a o os -> Forall (fun x => cap_indexed c bs (a + x)) os ->
  read_caps (S (length os)) c bs (Some (a + o)) k = Done (found c bs ((fun x => a + x) <$> os) k).
Proof.
  induction os as [|x os IH]; intros o k Ha0 Hae Ha Hc Hin; [done|]. apply Forall_cons in Hin as [Hx Hin].
  cbn [length]. remember (S (length os)) as fuel eqn:Ef. cbn [read_caps]. unfold CapabilityIter_next.
  destruct (on_cap_found c bs (a + x) ((fun x => a + x) <$> os) k Hx) as (k' & Ek & Hk). rewrite fmap_cons, <-Hk. destruct os as [|y os].
  - destruct Hc as (-> & Hxr & E). rewrite E. rewrite decide_False by (intros Hz; by apply Hz). rewrite Ek. cbn [obind]. rewrite Ef. cbn [fmap list_fmap].
    by rewrite found_nil.
  - destruct Hc as (-> & Hxr & Hne & Hc). rewrite decide_True by done.
    assert (0 < rd8 c (a + x + 1) < 256) as Hn by (destruct os; destruct Hc as (? & ? & _); lia).
    rewrite ldiff_header, wrap_small by (done || unfold fits; lia). rewrite decide_False by lia. rewrite Ek. cbn [obind]. subst fuel. by rewrite IH.
Qed.

(** C17: A virtio device is set up from its configuration area.  When the registers and the chain of
    capabilities are as the specification has them and there is a usable capability of each of the
    four kinds in a region that is mapped, the driver gets the addresses the first capability of
    each kind names, and every register of the device has its value again. *)
Theorem virtio_device_found wmask c a (d : Z -> RegDesc) os regions p1 p2 p3 p4 r1 r2 r3 r4 :
  let bs := (fun i => size_of (d i)) <$> seqZ 0 6 in
  let ps := (fun x => a + x) <$> os in
  0 < a -> a + 256 <= 2 ^ 64 -> a mod 256 = 0 ->
  Forall (fun i => reg_ok wmask c (a + 0x10 + 4 * i) (d i)) (seqZ 0 6) ->
  cap_chain c a (rd8 c (a + 0x34)) os -> Forall (fun x => cap_indexed c bs (a + x)) os -> zlen regions = 6 ->
  first_cap c bs 1 ps = Some p1 -> first_cap c bs 2 ps = Some p2 -> first_cap c bs 3 ps = Some p3 -> first_cap c bs 4 ps = Some p4 ->
  nth_z regions (cap_base_address c p1) = Some (Some r1) -> nth_z regions (cap_base_address c p2) = Some (Some r2) ->
  nth_z regions (cap_base_address c p3) = Some (Some r3) -> nth_z regions (cap_base_address c p4) = Some (Some r4) ->
  new_device wmask (S (length os)) c (H0 a) regions =
    Done ((wrap 64 (r1 + cap_offset c p1), wrap 64 (r4 + cap_offset c p4), mkNotify (wrap 64 (r2 + cap_offset c p2)) (cap_more_stuff c p2),
           wrap 64 (r3 + cap_offset c p3)), c).
Proof.
  intros bs ps Ha0 Hae Ha Hregs Hc Hin Hlen F1 F2 F3 F4 R1 R2 R3 R4. unfold new_device. rewrite (bar_sizes_ok wmask c a d (seqZ 0 6)).
  2: { rewrite Forall_forall in Hregs |- *. intros i Hi. split; [apply elem_of_seqZ in Hi; lia|by apply Hregs]. }
  fold bs. unfold obind at 1. unfold capabilities. rewrite read_caps_chain by done. unfold obind at 1. rewrite decide_True by done.
  unfold found, Caps0. fold ps. cbn [common_config notify_config isr_config device_config pci_config]. rewrite F1, F2, F3, F4.
  unfold place, setup_mmio. cbn [fmap option_fmap option_map id]. rewrite R1, R2, R3, R4. done.
Qed.

(** A device with its structures in an area of 64 bits, and an area of 32 bits. *)
Definition gpu_cap (off next t place : Z) : list (Z * Z) :=
  let r := (0x10008000 + off) / 4 in
  [(r, 0x9 + 2 ^ 8 * next + 2 ^ 16 * 16 + 2 ^ 24 * t); (r + 1, 4); (r + 2, place); (r + 3, 0x1000); (r + 4, 4)].

Definition gpu_cfg : Cfg :=
  let r := 0x10008000 / 4 in
  list_to_map ([(r, 0x10501af4); (r + 3, 0); (r + 4, 0); (r + 5, 0x40001000); (r + 6, 0); (r + 7, 0); (r + 8, 0x4000400c); (r + 9, 0); (r + 13, 0x40)] ++
    gpu_cap 0x40 0x54 1 0 ++ gpu_cap 0x54 0x68 3 0x1000 ++ gpu_cap 0x68 0x7c 4 0x2000 ++ gpu_cap 0x7c 0 2 0x3000).

Definition gpu_mask (x : Z) : Z :=
  let r := 0x10008000 / 4 in
  if decide (x = r + 5) then 2 ^ 32 - 2 ^ 12 else if decide (x = r + 8) then 2 ^ 32 - 2 ^ 14 else if decide (x = r + 9) then 2 ^ 32 - 1 else 0.

Definition gpu_regs (i : Z) : RegDesc :=
  if decide (i = 1) then RMem 12 0x40001000 else if decide (i = 4) then RMem64 14 0x4000400c else if decide (i = 5) then RHigh else RNone.

Definition gpu_regions : list (option Z) := [None; Some 0x20000000; None; None; Some 0x30000000; None].

Lemma gpu_regs_ok : Forall (fun i => reg_ok gpu_mask gpu_cfg (0x10008000 + 0x10 + 4 * i) (gpu_regs i)) (seqZ 0 6).
Proof.
  change (seqZ 0 6) with [0; 1; 2; 3; 4; 5]. repeat apply Forall_cons_2; [split; by vm_compute| |split; by vm_compute..| |split; by vm_compute|constructor].
  - split; [|by vm_compute]. constructor; by vm_compute.
  - split; [|split; by vm_compute]. constructor; by vm_compute.
Qed.

Lemma virtio_device_found_witness :
  new_device gpu_mask 5 gpu_cfg (H0 0x10008000) gpu_regions =
    Done ((0x30000000, 0x30002000, mkNotify 0x30003000 4, 0x30001000), gpu_cfg).
Proof.
  apply (virtio_device_found gpu_mask gpu_cfg 0x10008000 gpu_regs [0x40; 0x54; 0x68; 0x7c] gpu_regions
    0x10008040 0x1000807c 0x10008054 0x10008068 0x30000000 0x30000000 0x30000000 0x30000000).
  - lia.
  - lia.
  - done.
  - exact gpu_regs_ok.
  - cbn [cap_chain]. split_and!; by vm_compute.
  - repeat apply Forall_cons_2; try constructor; by vm_compute.
  - done.
  - by vm_compute.
  - by vm_compute.
  - by vm_compute.
  - by vm_compute.
  - by vm_compute.
  - by vm_compute.
  - by vm_compute.
  - by vm_compute.
Defined.
