(* ===== verification/Boot.v ===== *)
(** * The start of memory management

    [Allocator::new] and [mem_add_ranges] (src/kernel/src/memory/allocator.rs, memory/mod.rs): the
    pages of the ring are mapped with the first pages of the given ranges, before an allocator
    exists, and the remaining pages are inserted; and the loop of [main] that maps the device tree
    (src/kernel/src/main.rs).

    The ring lives in pages that are not cleared, so its counters are what the memory holds.  The
    theorems: when the two counters are equal, the new allocator hands out exactly the pages that
    were left; otherwise the kernel may hand out pages it was never given.  The window of
    the device tree shows the first page of the tree again and again. *)

From S2P Require Import Prelude Page Ppn Allocator Reserved Sv39Entry Sv39 Sv39Walk Sv39Spec RangeSpec UserMem.

(** ** [Allocator::new] *)

(** The closure that takes pages: [loop { if let Some(p) = pages[i].pop() { break p } else { i += 1 } }]. *)
Fixpoint take_page (fuel : nat) : M (list PPNRange * Z) PPN :=
  match fuel with
  | O => fun _ => OutOfFuel
  | S fuel =>
    let* '(pages, i) := get in
    match nth_z pages i with
    | None => panic "index out of bounds"
    | Some r =>
      match PPNRange_pop r with
      | (Some p, r) => modify (fun _ => (set_z pages i r, i)) ;; ret p
      | (None, _) => modify (fun _ => (pages, i + 1)) ;; take_page fuel
      end
    end
  end.

(** The pages the ring needs for one hart. *)
Definition ring_pages : Z :=
  let count := 1 * MEM_TOTAL_SIZE in
  Z.ldiff (count + OFFSET_MASK) OFFSET_MASK / PAGE_SIZE.

Section memory.

(** [n] numbers of [sz] bytes from [va]. *)
Fixpoint load_array (sz : Z) (n : nat) (va : Z) : M (Machine Pmm) (list Z) :=
  match n with
  | O => ret []
  | S n => let* x := load_n sz va in let* l := load_array sz n (va + sz) in ret (x :: l)
  end.

(** The ring that the mapped pages hold. *)
Definition load_stacks : M (Machine Pmm) Stacks :=
  let at_ := rstart PMM_STACK in
  let* ring := load_array 4 2048 at_ in
  let* top := load_n 2 (at_ + MEM_STACK_SIZE) in
  let* base := load_n 2 (at_ + MEM_STACK_SIZE + 2) in
  ret (mkStacks [ring] [(top, base)]).

(** [while let Some(p) = p.pop() { s.insert(p) }] *)
Fixpoint insert_range (fuel : nat) (r : PPNRange) (a : Allocator) : outcome Allocator :=
  match fuel with
  | O => OutOfFuel
  | S fuel =>
    match PPNRange_pop r with
    | (None, _) => Done a
    | (Some p, r) => let! '(_, a) := Allocator_insert a p in insert_range fuel r a
    end
  end.

Fixpoint insert_ranges (pages : list PPNRange) (a : Allocator) : outcome Allocator :=
  match pages with
  | [] => Done a
  | r :: pages => let! a := insert_range (S (Z.to_nat (count r))) r a in insert_ranges pages a
  end.

Definition lift_outcome {S X} (o : outcome X) : M S X := fun s => let! x := o in Done (x, s).

Definition Allocator_new (pages : list PPNRange) : M (Machine Pmm) (result Allocator unit) :=
  fun m =>
    let! '(_, (m, (pages, _))) := allocate_pages (take_page (S (length pages))) (rstart PMM_STACK) ring_pages (m, (pages, 0)) in
    (let* s := load_stacks in
     let* a := lift_outcome (insert_ranges pages (mkAllocator s)) in
     ret (Ok a)) m.

Definition mem_add_ranges (ranges : list PPNRange) : M (Machine Pmm) unit :=
  let* m := get in
  match pmm m with
  | Some _ => panic "Can't add more than one memory range"
  | None =>
    let* r := Allocator_new ranges in
    let* a := unwrap_ok "called `Result::unwrap()` on an `Err` value" r in
    modify (fun m => mkMachine (phys m) (satp m) (Some a))
  end.

(** ** The device tree *)

(** [size_of::<arch::Page>()]: [Page] is the address of a page. *)
Definition SIZE_OF_PAGE : Z := 8.

(** [for i in 0..n]: [dtb_ptr] is a [*const arch::Page], so [dtb_ptr.add(i)] is [i] addresses further. *)
Fixpoint remap_tree (l : list Z) (dtb : Z) (addr : Page) : M (Machine Pmm) unit :=
  match l with
  | [] => ret tt
  | i :: l =>
    let* r := add addr (Private (PPN_from_ptr (wrap 64 (dtb + i * SIZE_OF_PAGE)))) RWX_R KernelGlobal in
    unwrap_ok "called `Result::unwrap()` on an `Err` value" r ;;
    let* addr := unwrap "called `Option::unwrap()` on a `None` value" (Page_next addr) in
    remap_tree l dtb addr
  end.

Definition remap_device_tree (dtb total_size : Z) (start : Page) : M (Machine Pmm) unit :=
  remap_tree (seqZ 0 (wrap 64 (total_size + PAGE_SIZE - 1) / PAGE_SIZE)) dtb start.
End memory.

(** ** Pages are only taken *)

Section keeps.
Context {S T : Type} (I : T -> Prop).

(** An operation on a pair keeps what [I] says of the second part. *)
Definition keeps {X} (f : M (S * T) X) : Prop := forall st x st', f st = Done (x, st') -> I st.2 -> I st'.2.

Lemma keeps_ret {X} (x : X) : keeps (ret x).
Proof. by intros st y st' [= _ <-]. Qed.

Lemma keeps_panic {X} why : keeps (panic (A := X) why).
Proof. by intros st y st' [=]. Qed.

Lemma keeps_bind {X Y} (f : M (S * T) X) (g : X -> M (S * T) Y) : keeps f -> (forall x, keeps (g x)) -> keeps (bind f g).
Proof.
  intros Hf Hg st y st'. unfold bind. destruct (f st) as [[x st1]| |] eqn:E; [|done..]. intros E' Hi. eapply Hg; [done|]. by eapply Hf.
Qed.

Lemma keeps_on_fst {X} (f : M S X) : keeps (on_fst f).
Proof. intros [s t] x st'. unfold on_fst. cbn. destruct (f s) as [[y s1]| |]; [|done..]. by intros [= _ <-]. Qed.

Lemma keeps_on_snd {X} (f : M T X) : (forall t x t', f t = Done (x, t') -> I t -> I t') -> keeps (on_snd f).
Proof. intros Hf [s t] x st'. unfold on_snd. cbn. destruct (f t) as [[y t1]| |] eqn:E; [|done..]. intros [= _ <-]. cbn. by eapply Hf. Qed.
End keeps.

Create HintDb keeps.
#[export] Hint Resolve keeps_ret keeps_panic keeps_bind keeps_on_fst keeps_on_snd : keeps.

Lemma keeps_allocate_pages {A T} (I : T -> Prop) `{FrameAllocator A} (f : M T PPN) address n :
  (forall t x t', f t = Done (x, t') -> I t -> I t') -> keeps (S := Machine A) I (allocate_pages f address n).
Proof.
  intros Hf. assert (forall va, keeps (S := Machine A) I (allocate_pages_step f va)) as Hstep.
  { intros va. unfold allocate_pages_step, unwrap_ok. repeat (apply keeps_bind; [|intros ?]); try case_match; auto with keeps;
      repeat (apply keeps_bind; [|intros ?]); try case_match; auto with keeps. }
  assert (forall k va, keeps (S := Machine A) I (allocate_pages_loop f va k)) as Hloop.
  { intros k. induction k as [|k IH]; intros va; cbn [allocate_pages_loop]; auto with keeps. }
  unfold allocate_pages, unwrap_ok. repeat (apply keeps_bind; [|intros ?]); try case_match; auto with keeps.
Qed.

(** The ranges that are left are part of those that were there. *)
Definition part_of (pages0 : list PPNRange) (st : list PPNRange * Z) : Prop :=
  Forall range_ok st.1 /\ concat (ppns <$> st.1) ⊆+ concat (ppns <$> pages0).

Lemma concat_set (l : list PPNRange) i r r' p :
  nth_z l i = Some r -> ppns r = ppns r' ++ [p] -> concat (ppns <$> set_z l i r') ⊆+ concat (ppns <$> l).
Proof.
  unfold nth_z, set_z. case_decide; [|done]. intros Hi E. rewrite <-(take_drop_middle l _ _ Hi) at 2. rewrite insert_take_drop by by eapply lookup_lt_Some.
  rewrite !fmap_app, !fmap_cons, !concat_app, !concat_cons.
  apply submseteq_app; [done|]. apply submseteq_app; [|done]. rewrite E. by apply submseteq_inserts_r.
Qed.

Lemma take_page_part fuel pages0 : forall t x t', take_page fuel t = Done (x, t') -> part_of pages0 t -> part_of pages0 t'.
Proof.
  induction fuel as [|fuel IH]; intros [pages i] x t' E [Hok Hsub]; [done|]. cbn [take_page] in E. erewrite bind_done in E by done. cbv beta iota in E.
  destruct (nth_z pages i) as [r|] eqn:Hr; [|done]. destruct (PPNRange_pop r) as [o r'] eqn:Ep.
  assert (range_ok r) as Hrok by (rewrite Forall_forall in Hok; by eapply Hok, nth_z_elem).
  destruct (PPNRange_pop_spec r o r' Hrok Ep) as [Hr' Hs]. destruct o as [p|]; erewrite bind_done in E by done; cbv beta in E.
  - injection E as <- <-. cbn [fst] in *. split.
    + cbn. unfold set_z. case_decide; [|done]. by apply Forall_insert.
    + etrans; [|exact Hsub]. by eapply concat_set.
  - eapply IH; [exact E|]. by split.
Qed.

(** ** Inserting pages *)

Lemma insert_range_spec fuel : forall r a l,
  range_ok r -> count r < Z.of_nat fuel -> alloc_repr a l -> zlen l + count r <= STACK_SIZE ->
  exists a', insert_range fuel r a = Done a' /\ alloc_repr a' (l ++ reverse (ppns r)).
Proof.
  induction fuel as [|fuel IH]; intros r a l Hr Hf Ha Hl; [destruct Hr; lia|]. cbn [insert_range].
  destruct (PPNRange_pop r) as [[p|] r'] eqn:E; destruct (PPNRange_pop_spec _ _ _ Hr E) as [Hr' Hs].
  - assert (count r = 1 + count r') as Hc.
    { apply (f_equal length) in Hs. unfold ppns in Hs. rewrite length_app, !length_seqZ in Hs. cbn in Hs. destruct Hr, Hr'. lia. }
    destruct Hr' as (? & ? & ?). destruct (Allocator_free_spec a l p Ha) as (a1 & Ef & Ha1); [lia|]. unfold Allocator_insert. rewrite Ef. cbn [obind].
    destruct (IH r' a1 (l ++ [p])) as (a' & Ei & Ha'); [done|lia|done|rewrite zlen_app; change (zlen [p]) with 1; lia|].
    exists a'. split; [done|]. rewrite Hs, reverse_app. cbn. by rewrite <-app_assoc in Ha'.
  - destruct Hs as [-> _]. exists a. split; [done|]. by rewrite app_nil_r.
Qed.

(** The pages in the order they are inserted. *)
Definition in_order (pages : list PPNRange) : list PPN := concat ((fun r => reverse (ppns r)) <$> pages).

Lemma insert_ranges_spec pages : forall a l,
  Forall range_ok pages -> alloc_repr a l -> zlen l + zlen (in_order pages) <= STACK_SIZE ->
  exists a', insert_ranges pages a = Done a' /\ alloc_repr a' (l ++ in_order pages).
Proof.
  unfold in_order. induction pages as [|r pages IH]; intros a l Hok Ha Hl; cbn [insert_ranges fmap list_fmap concat] in *.
  { exists a. split; [done|]. by rewrite app_nil_r. }
  apply Forall_cons in Hok as [Hr Hok]. rewrite zlen_app in Hl. assert (zlen (reverse (ppns r)) = count r) as Hz.
  { unfold zlen, ppns. rewrite length_reverse, length_seqZ. destruct Hr as (_ & ? & _). lia. }
  pose proof (zlen_nonneg (concat ((fun r => reverse (ppns r)) <$> pages))).
  destruct (insert_range_spec (S (Z.to_nat (count r))) r a l Hr) as (a1 & -> & Ha1); [lia|done|lia|]. cbn [obind].
  destruct (IH a1 (l ++ reverse (ppns r)) Hok Ha1) as (a' & -> & Ha'); [rewrite zlen_app; lia|]. exists a'. split; [done|]. by rewrite <-app_assoc in Ha'.
Qed.

Lemma in_order_perm pages : in_order pages ≡ₚ concat (ppns <$> pages).
Proof.
  unfold in_order. induction pages as [|r pages IH]; [done|]. cbn [fmap list_fmap concat]. by rewrite IH, reverse_Permutation.
Qed.

(** The memory manager starts with [l0] in its ring and the pages that are left behind it. *)
Lemma memory_started_with (m m1 : Machine Pmm) ranges pages i ring top base l0 :
  pmm m = None -> Forall range_ok ranges ->
  allocate_pages (take_page (S (length ranges))) (rstart PMM_STACK) ring_pages (m, (ranges, 0)) = Done (tt, (m1, (pages, i))) ->
  load_stacks m1 = Done (mkStacks [ring] [(top, base)], m1) -> ring_repr ring (top, base) l0 ->
  zlen l0 + zlen (concat (ppns <$> ranges)) <= STACK_SIZE ->
  exists a, mem_add_ranges ranges m = Done (tt, mkMachine (phys m1) (satp m1) (Some a)) /\
    frames (Some a) (reverse (l0 ++ in_order pages)) /\ in_order pages ⊆+ concat (ppns <$> ranges).
Proof.
  intros Hnone Hok E Hload Hring Hlen.
  assert (part_of ranges (pages, i)) as [Hpok Hsub].
  { apply (keeps_allocate_pages (part_of ranges) _ _ _ (take_page_part (S (length ranges)) ranges) _ _ _ E). by split. }
  cbn [fst] in *. rewrite <-in_order_perm in Hsub.
  assert (zlen (in_order pages) <= zlen (concat (ppns <$> ranges))) as Hz by (apply submseteq_length in Hsub; unfold zlen; lia).
  assert (alloc_repr (mkAllocator (mkStacks [ring] [(top, base)])) l0) as Ha by (by exists ring, (top, base)).
  destruct (insert_ranges_spec pages _ _ Hpok Ha) as (a & Ei & Ha'); [lia|]. exists a. split_and!; [|by exists a; rewrite reverse_involutive|done].
  assert (Allocator_new ranges m = Done (Ok a, m1)) as En.
  { unfold Allocator_new. rewrite E. cbn [obind]. erewrite bind_done by exact Hload. unfold lift_outcome, bind. rewrite Ei. done. }
  unfold mem_add_ranges. erewrite bind_done by done. cbv beta iota. change (pmm m) with (@pmm Pmm m). rewrite Hnone.
  by erewrite bind_done by exact En.
Qed.

(** Memory management starts.  When the counters of the ring are equal in the memory that was
    mapped for it, the new allocator has exactly the pages that were left of the given ranges, to be
    handed out one after the other; they are among those that were given. *)
Theorem memory_started (m m1 : Machine Pmm) ranges pages i ring b :
  pmm m = None -> Forall range_ok ranges -> zlen (concat (ppns <$> ranges)) <= STACK_SIZE ->
  allocate_pages (take_page (S (length ranges))) (rstart PMM_STACK) ring_pages (m, (ranges, 0)) = Done (tt, (m1, (pages, i))) ->
  load_stacks m1 = Done (mkStacks [ring] [(b, b)], m1) -> fits 16 b -> zlen ring = STACK_SIZE ->
  exists a l, mem_add_ranges ranges m = Done (tt, mkMachine (phys m1) (satp m1) (Some a)) /\
    frames (Some a) l /\ l ≡ₚ concat (ppns <$> pages) /\ l ⊆+ concat (ppns <$> ranges).
Proof.
  intros Hnone Hok Hlen E Hload Hb Hring.
  destruct (memory_started_with m m1 ranges pages i ring b b []) as (a & Ea & Hf & Hsub); try done.
  { constructor; [done|done| |change (zlen (@nil PPN)) with 0; unfold STACK_SIZE; lia|].
    - cbn. change (zlen (@nil PPN)) with 0. rewrite Z.add_0_r. by rewrite wrap_small.
    - intros j p Hj%nth_z_Some. unfold zlen in Hj. cbn in Hj. lia. }
  exists a, (reverse (in_order pages)). split_and!; [done|done|by rewrite reverse_Permutation, in_order_perm|by rewrite reverse_Permutation].
Qed.

(** ** The device tree is mapped *)

Lemma remap_tree_frames l dtb : forall addr s,
  remap_tree l dtb addr s = add_frames ((fun i => PPN_from_ptr (wrap 64 (dtb + i * SIZE_OF_PAGE))) <$> l) addr RWX_R KernelGlobal s.
Proof.
  induction l as [|i l IH]; intros addr s; [done|]. cbn [remap_tree fmap list_fmap add_frames]. unfold bind.
  destruct (add _ _ _ _ s) as [[x s1]| |]; [|done..]. destruct (unwrap_ok _ x s1) as [[u s2]| |]; [|done..].
  destruct (unwrap _ (Page_next addr) s2) as [[a s3]| |]; [|done..]. apply IH.
Qed.

Lemma first_page k i : fits 32 k -> 0 <= i < 512 -> PPN_from_ptr (wrap 64 (k * PAGE_SIZE + i * SIZE_OF_PAGE)) = k.
Proof.
  intros Hk Hi. unfold PAGE_SIZE, SIZE_OF_PAGE, PPN_from_ptr. rewrite (wrap_small 64) by (unfold fits in *; lia).
  rewrite Z.shiftr_div_pow2 by (unfold OFFSET_BITS; lia). change (2 ^ OFFSET_BITS) with 4096.
  rewrite Z.div_add_l, Z.div_small, Z.add_0_r by lia. by apply wrap_small.
Qed.

(** The kernel maps the first page of the device tree at every page of the window, since the pointer
    moves by the size of an address for each page: the pages after the first are not mapped.
    Nothing else changes. *)
Theorem device_tree_repeats (s : Machine Pmm) l dtb total_size n :
  n = (total_size + PAGE_SIZE - 1) / PAGE_SIZE -> 0 <= total_size -> n <= 512 -> (PAGE_SIZE | dtb) -> 0 <= dtb < 2 ^ 44 ->
  vm_inv s l -> 2 * n <= zlen l -> span_ok (rstart DEVICE_TREE) n ->
  (forall i, 0 <= i < n -> translates s (page_at (rstart DEVICE_TREE) i) = None) ->
  exists s' l', remap_device_tree dtb total_size (rstart DEVICE_TREE) s = Done (tt, s') /\ vm_inv s' l' /\ l' `suffix_of` l /\
    (forall i, 0 <= i < n -> translates s' (page_at (rstart DEVICE_TREE) i) = Some (private_leaf (dtb / PAGE_SIZE) RWX_R KernelGlobal)) /\
    (forall va, not_window va -> (forall i, 0 <= i < n -> ~ same_page (page_at (rstart DEVICE_TREE) i) va) -> translates s' va = translates s va).
Proof.
  intros Hn Ht Hn' [k ->] Hd Hs Hl Hsp Hnone. set (ps := (fun i => PPN_from_ptr (wrap 64 (k * PAGE_SIZE + i * SIZE_OF_PAGE))) <$> seqZ 0 n).
  assert (0 <= n) as Hn0 by (rewrite Hn; apply Z.div_pos; unfold PAGE_SIZE; lia).
  assert (@zlen Z ps = n) as Hz by (unfold ps, zlen; rewrite length_fmap, length_seqZ; lia).
  assert (k * PAGE_SIZE / PAGE_SIZE = k) as Hk by (apply Z.div_mul; unfold PAGE_SIZE; lia). rewrite Hk.
  assert (fits 32 k) as Hkf by (unfold fits, PAGE_SIZE in *; lia).
  assert (forall i, 0 <= i < n -> PPN_from_ptr (wrap 64 (k * PAGE_SIZE + i * SIZE_OF_PAGE)) = k) as Hp by (intros i Hi; apply first_page; [done|lia]).
  destruct (add_frames_spec ps s (rstart DEVICE_TREE) l RWX_R KernelGlobal Hs) as (s' & l' & E & Hs' & Hl' & _ & _ & _ & Hmap & Hrest);
    rewrite ?Hz; try done; [unfold zlen in Hz, Hl; lia|apply Forall_fmap, Forall_forall; intros i Hi%elem_of_seqZ; unfold compose; rewrite Hp by lia; done|].
  exists s', l'. split_and!; try done.
  - unfold remap_device_tree. rewrite (wrap_small 64); [by rewrite <-Hn, remap_tree_frames|]. unfold fits, PAGE_SIZE in *.
    pose proof (Z.mul_succ_div_gt (total_size + 4096 - 1) 4096). lia.
  - intros i Hi. apply Hmap. unfold ps, nth_z. rewrite decide_True, list_lookup_fmap, lookup_seqZ_lt by lia. cbn.
    rewrite Z2Nat.id by lia. by rewrite Hp.
  - by rewrite Hz in Hrest.
Qed.

(** ** Witnesses *)

(** A machine at boot: a gigapage maps the memory at 0x80000000 to itself. *)
Definition boot_machine : Machine Pmm :=
  mkMachine {[(0x80000, 2) := Z.lor (Z.shiftl 0x80000 10) 0xcf]} (Z.lor (Z.shiftl 8 60) 0x80000) None.

Definition boot_ranges : list PPNRange := [mkPPNRange 0x80010 16].

(** Nine of sixteen pages are left, and the first of them is the next to be handed out. *)

Lemma device_tree_repeats_witness : exists s' l',
  remap_device_tree 0x82200000 5000 (rstart DEVICE_TREE) (machine_with [8; 7; 6; 5]) = Done (tt, s') /\ vm_inv s' l' /\
  translates s' (page_at (rstart DEVICE_TREE) 1) = Some (private_leaf 0x82200 RWX_R KernelGlobal).
Proof.
  destruct (device_tree_repeats (machine_with [8; 7; 6; 5]) [8; 7; 6; 5] 0x82200000 5000 2) as (s' & l' & E & Hs & _ & Ht & _).
  - done.
  - lia.
  - lia.
  - by exists 0x82200.
  - lia.
  - apply machine_with_inv; [by apply (bool_decide_unpack _)| |cbn; lia]. apply (bool_decide_unpack _). by vm_compute.
  - unfold zlen. cbn. lia.
  - constructor; [by vm_compute|lia|by vm_compute|]. intros i Hi. assert (i = 0 \/ i = 1) as [-> | ->] by lia; unfold mappable; by vm_compute.
  - intros i Hi. assert (i = 0 \/ i = 1) as [-> | ->] by lia; by vm_compute.
  - exists s', l'. split; [exact E|]. clear E. split; [exact Hs|]. clear Hs. rewrite Ht by lia. by vm_compute.
Defined.

(** The ring after its pages are mapped, and what is left of the ranges. *)
Definition boot_mapped (m : Machine Pmm) : Machine Pmm * (list PPNRange * Z) :=
  match allocate_pages (take_page 2) (rstart PMM_STACK) ring_pages (m, (boot_ranges, 0)) with
  | Done (_, st) => st
  | _ => (m, ([], 0))
  end.

Lemma boot_maps : allocate_pages (take_page 2) (rstart PMM_STACK) ring_pages (boot_machine, (boot_ranges, 0)) =
  Done (tt, (fst (boot_mapped boot_machine), ([mkPPNRange 0x80010 9], 0))).
Proof. by vm_compute. Qed.

Lemma boot_loads : load_stacks (fst (boot_mapped boot_machine)) = Done (mkStacks [replicate 2048 0] [(0, 0)], fst (boot_mapped boot_machine)).
Proof. by vm_compute. Qed.

Lemma memory_started_witness : exists s' a l, mem_add_ranges boot_ranges boot_machine = Done (tt, s') /\ pmm s' = Some a /\
  frames (Some a) l /\ l ≡ₚ seqZ 0x80010 9.
Proof.
  destruct (memory_started boot_machine (fst (boot_mapped boot_machine)) boot_ranges [mkPPNRange 0x80010 9] 0 (replicate 2048 0) 0)
    as (a & l & E & Hf & Hl & _).
  - done.
  - apply Forall_singleton. by vm_compute.
  - by vm_compute.
  - exact boot_maps.
  - exact boot_loads.
  - done.
  - by vm_compute.
  - eexists _, a, l. split; [exact E|]. split; [done|]. split; [exact Hf|]. exact Hl.
Defined.

(** A machine where the memory that becomes the counters holds a one. *)
Definition stale_machine : Machine Pmm := mkMachine (<[(0x80019, 0) := 1]> (phys boot_machine)) (satp boot_machine) None.

(** The ring is not cleared: with a one left in memory where its counters are, the allocator owns a
    page that is in none of the ranges it was given. *)
Theorem stale_ring_adds_page : exists s' a l, mem_add_ranges boot_ranges stale_machine = Done (tt, s') /\ pmm s' = Some a /\
  frames (Some a) l /\ 0 ∈ l /\ 0 ∉ concat (ppns <$> boot_ranges).
Proof.
  destruct (memory_started_with stale_machine (fst (boot_mapped stale_machine)) boot_ranges [mkPPNRange 0x80010 9] 0 (replicate 2048 0) 1 0 [0])
    as (a & E & Hf & _).
  - done.
  - apply Forall_singleton. by vm_compute.
  - by vm_compute.
  - by vm_compute.
  - constructor; [by vm_compute|by vm_compute|by vm_compute|by vm_compute|].
    intros j p Hj. pose proof (nth_z_Some _ _ _ Hj) as Hi. change (zlen [0]) with 1 in Hi. assert (j = 0) as -> by lia. injection Hj as <-. by vm_compute.
  - by vm_compute.
  - eexists _, a, _. split; [exact E|]. split; [done|]. split; [exact Hf|]. split; [|apply (bool_decide_unpack _); by vm_compute].
    apply elem_of_reverse, elem_of_app. left. by apply list_elem_of_singleton.
Qed.
