(* ===== verification/CMem.v ===== *)
(** * Memory of C programs

    The memory the C library works on: a map from addresses to bytes, where an address that is not
    mapped must not be touched.  A pointer is an address; C leaves moving a pointer out of its
    object undefined, so addresses do not wrap.  The file holds the two accesses, strings and
    areas of memory as lists of bytes, and the lemmas the string functions share. *)

From S2P Require Import Prelude Bytes.

(** ** Accesses *)

Abbreviation Mem := (gmap Z Z).

Definition ldb (a : Z) : M Mem Z :=
  fun m => match m !! a with Some x => Done (x, m) | None => Panicked "undefined: read of unmapped memory" end.

Definition stb (a x : Z) : M Mem unit :=
  fun m => match m !! a with Some _ => Done (tt, <[a := x]> m) | None => Panicked "undefined: write to unmapped memory" end.

(** [m] with the bytes [l] from [p]. *)
Fixpoint put (p : Z) (l : list Z) (m : Mem) : Mem :=
  match l with
  | [] => m
  | x :: l => <[p := x]> (put (p + 1) l m)
  end.

(** The bytes [l] lie at [p]. *)
Definition bytes_at (m : Mem) (p : Z) (l : list Z) : Prop := forall i x, nth_z l i = Some x -> m !! (p + i) = Some x.

(** [n] bytes from [p] are mapped. *)
Definition room (m : Mem) (p n : Z) : Prop := forall i, 0 <= i < n -> is_Some (m !! (p + i)).

(** The null-terminated string [l] lies at [p]. *)
Definition cstr_at (m : Mem) (p : Z) (l : list Z) : Prop := bytes_at m p (l ++ [0]) /\ 0 ∉ l.

(** ** Lemmas *)

Lemma ldb_at m a x : m !! a = Some x -> ldb a m = Done (x, m).
Proof. unfold ldb. by intros ->. Qed.

Lemma stb_at m a x : is_Some (m !! a) -> stb a x m = Done (tt, <[a := x]> m).
Proof. unfold stb. by intros [y ->]. Qed.

Lemma stb_dom a x m r m' : stb a x m = Done (r, m') -> dom m' = dom m.
Proof.
  unfold stb. destruct (m !! a) eqn:E; [|done]. intros [= _ <-]. rewrite dom_insert_L. apply elem_of_dom_2 in E. set_solver.
Qed.

Lemma nth_z_tail {A} (x : A) l i : 0 < i -> nth_z (x :: l) i = nth_z l (i - 1).
Proof. intros. replace i with (1 + (i - 1)) at 1 by lia. apply nth_z_cons. lia. Qed.

Lemma put_in l : forall p m i x, nth_z l i = Some x -> put p l m !! (p + i) = Some x.
Proof.
  induction l as [|y l IH]; intros p m i x Hi; [by apply nth_z_Some in Hi; unfold zlen in Hi; cbn in Hi; lia|]. cbn [put].
  pose proof (nth_z_Some _ _ _ Hi) as [Hi0 _]. destruct (decide (i = 0)) as [->|Hne].
  - injection Hi as ->. rewrite Z.add_0_r. apply lookup_insert_eq.
  - rewrite lookup_insert_ne by lia. rewrite nth_z_tail in Hi by lia.
    replace (p + i) with (p + 1 + (i - 1)) by lia. by apply IH.
Qed.

Lemma put_out l : forall p m a, a < p \/ p + zlen l <= a -> put p l m !! a = m !! a.
Proof.
  induction l as [|y l IH]; intros p m a Ha; [done|]. cbn [put]. rewrite zlen_cons in Ha. pose proof (zlen_nonneg l).
  rewrite lookup_insert_ne by lia. apply IH. lia.
Qed.

Lemma put_room l p m q n : room m q n -> room (put p l m) q n.
Proof.
  intros Hr i Hi. destruct (decide (p <= q + i < p + zlen l)) as [Hin|Hout].
  - destruct (nth_z_lt l (q + i - p)) as [x Hx]; [lia|]. apply (put_in l p m) in Hx. replace (p + (q + i - p)) with (q + i) in Hx by lia. by rewrite Hx.
  - rewrite put_out by lia. by apply Hr.
Qed.

Lemma put_cons p x l m : put (p + 1) l (<[p := x]> m) = put p (x :: l) m.
Proof.
  cbn [put]. apply map_eq. intros a. destruct (decide (a = p)) as [->|Ha].
  - rewrite lookup_insert_eq, put_out by lia. apply lookup_insert_eq.
  - rewrite lookup_insert_ne by lia. destruct (decide (p + 1 <= a < p + 1 + zlen l)) as [Hin|Hout].
    + destruct (nth_z_lt l (a - (p + 1))) as [y Hy]; [lia|]. replace a with (p + 1 + (a - (p + 1))) by lia. by rewrite !(put_in _ _ _ _ _ Hy).
    + rewrite !put_out by lia. by apply lookup_insert_ne.
Qed.

Lemma put_app l1 : forall p l2 m, put p (l1 ++ l2) m = put p l1 (put (p + zlen l1) l2 m).
Proof.
  induction l1 as [|x l1 IH]; intros p l2 m; [by rewrite zlen_nil, Z.add_0_r|]. cbn [app put]. rewrite IH, zlen_cons.
  by replace (p + 1 + zlen l1) with (p + (1 + zlen l1)) by lia.
Qed.

Lemma put_snoc p l x m : put p (l ++ [x]) m = <[p + zlen l := x]> (put p l m).
Proof.
  rewrite put_app. cbn [put]. revert p m. induction l as [|y l IH]; intros p m; [done|]. cbn [put]. rewrite zlen_cons. pose proof (zlen_nonneg l).
  replace (p + (1 + zlen l)) with (p + 1 + zlen l) by lia. rewrite IH. apply insert_insert_ne. lia.
Qed.

Lemma put_bytes_at p l m : bytes_at (put p l m) p l.
Proof. intros i x Hi. by apply put_in. Qed.

Lemma bytes_at_put p l m q l' : bytes_at m q l' -> p + zlen l <= q \/ q + zlen l' <= p -> bytes_at (put p l m) q l'.
Proof. intros H Hd i x Hi. pose proof (nth_z_Some _ _ _ Hi). rewrite put_out by lia. by apply H. Qed.

Lemma bytes_at_room m p l : bytes_at m p l -> room m p (zlen l).
Proof. intros H i Hi. destruct (nth_z_lt l i Hi) as [x Hx]. rewrite (H i x Hx). by eexists. Qed.

Lemma bytes_at_nil m p : bytes_at m p [].
Proof. intros i x Hi%nth_z_Some. unfold zlen in Hi. cbn in Hi. lia. Qed.

Lemma bytes_at_cons m p x l : bytes_at m p (x :: l) <-> m !! p = Some x /\ bytes_at m (p + 1) l.
Proof.
  split.
  - intros H. split; [by rewrite <-(Z.add_0_r p); apply H|]. intros i y Hi. pose proof (nth_z_Some _ _ _ Hi).
    replace (p + 1 + i) with (p + (1 + i)) by lia. apply H. by rewrite nth_z_cons by lia.
  - intros [Hp H] i y Hi. pose proof (nth_z_Some _ _ _ Hi) as [Hi0 _]. destruct (decide (i = 0)) as [->|Hne].
    + rewrite Z.add_0_r. injection Hi as <-. done.
    + rewrite nth_z_tail in Hi by lia.
      specialize (H _ _ Hi). by replace (p + i) with (p + 1 + (i - 1)) by lia.
Qed.

Lemma bytes_at_app m p l1 l2 : bytes_at m p (l1 ++ l2) <-> bytes_at m p l1 /\ bytes_at m (p + zlen l1) l2.
Proof.
  revert p. induction l1 as [|x l1 IH]; intros p.
  - cbn. rewrite zlen_nil, Z.add_0_r. split; [|by intros [_ ?]]. intros H. split; [apply bytes_at_nil|done].
  - cbn [app]. rewrite !bytes_at_cons, IH, zlen_cons. replace (p + 1 + zlen l1) with (p + (1 + zlen l1)) by lia. tauto.
Qed.

Lemma room_le m a n n' : room m a n -> n' <= n -> room m a n'.
Proof. intros Hr Hn i Hi. apply Hr. lia. Qed.

Lemma room_tail m p n : 0 < n -> room m p n -> is_Some (m !! p) /\ room m (p + 1) (n - 1).
Proof.
  intros Hn H. split; [rewrite <-(Z.add_0_r p); apply H; lia|]. intros i Hi. replace (p + 1 + i) with (p + (1 + i)) by lia. apply H. lia.
Qed.

Lemma cstr_at_nil m p : cstr_at m p [] <-> m !! p = Some 0.
Proof.
  unfold cstr_at. cbn [app]. rewrite bytes_at_cons. split; [by intros [[? _] _]|]. intros H. split; [|set_solver]. split; [done|apply bytes_at_nil].
Qed.

Lemma cstr_at_cons m p x l : cstr_at m p (x :: l) <-> x <> 0 /\ m !! p = Some x /\ cstr_at m (p + 1) l.
Proof. unfold cstr_at. cbn [app]. rewrite bytes_at_cons, not_elem_of_cons. naive_solver. Qed.

(** Scanning mapped memory ends: an area is no larger than the memory. *)
Lemma room_bound (m : Mem) p n : 0 <= n -> room m p n -> n <= Z.of_nat (size m).
Proof.
  intros Hn Hr. assert (list_to_set (seqZ p n) ⊆@{gset Z} dom m) as Hs.
  { intros a. rewrite elem_of_list_to_set, elem_of_seqZ, elem_of_dom. intros Ha. replace a with (p + (a - p)) by lia. apply Hr. lia. }
  apply subseteq_size in Hs. rewrite size_list_to_set, length_seqZ, size_dom in Hs by apply NoDup_seqZ. lia.
Qed.

Lemma room_bound_len (m : Mem) p l : bytes_at m p l -> (length l <= size m)%nat.
Proof. intros H%bytes_at_room%room_bound; [unfold zlen in H; lia|apply zlen_nonneg]. Qed.

(** Writing over what was written before. *)
Lemma put_put p l l' m : zlen l' <= zlen l -> put p l (put p l' m) = put p l m.
Proof.
  intros Hl. apply map_eq. intros a. destruct (decide (p <= a < p + zlen l)).
  - destruct (nth_z_lt l (a - p)) as [x Hx]; [lia|]. replace a with (p + (a - p)) by lia. by rewrite !(put_in _ _ _ _ _ Hx).
  - by rewrite !put_out by lia.
Qed.

Lemma put_self p l m : bytes_at m p l -> put p l m = m.
Proof.
  intros H. apply map_eq. intros a. destruct (decide (p <= a < p + zlen l)); [|by apply put_out; lia].
  destruct (nth_z_lt l (a - p)) as [x Hx]; [lia|]. replace a with (p + (a - p)) by lia. by rewrite (put_in _ _ _ _ _ Hx), (H _ _ Hx).
Qed.

(** Writing the second part after the first. *)
Lemma put_app_after p l1 l2 m : put (p + zlen l1) l2 (put p l1 m) = put p (l1 ++ l2) m.
Proof.
  pose proof (zlen_nonneg l1). apply map_eq. intros a. rewrite put_app. destruct (decide (p + zlen l1 <= a < p + zlen l1 + zlen l2)).
  - rewrite (put_out l1) by lia. destruct (nth_z_lt l2 (a - (p + zlen l1))) as [x Hx]; [lia|].
    replace a with (p + zlen l1 + (a - (p + zlen l1))) by lia. by rewrite !(put_in _ _ _ _ _ Hx).
  - rewrite put_out by lia. destruct (decide (p <= a < p + zlen l1)); [|by rewrite !put_out by lia].
    destruct (nth_z_lt l1 (a - p)) as [x Hx]; [lia|]. replace a with (p + (a - p)) by lia. by rewrite !(put_in _ _ _ _ _ Hx).
Qed.

Lemma put_comm a l b l' (m : Mem) : a + zlen l <= b \/ b + zlen l' <= a -> put a l (put b l' m) = put b l' (put a l m).
Proof.
  intros Hd. apply map_eq. intros k. destruct (decide (a <= k < a + zlen l)) as [Ha|Ha].
  - rewrite (put_out l') by lia. destruct (nth_z_lt l (k - a)) as [v Hv]; [lia|]. replace k with (a + (k - a)) by lia. by rewrite !(put_in _ _ _ _ _ Hv).
  - rewrite (put_out l) by lia. destruct (decide (b <= k < b + zlen l')) as [Hb|Hb]; [|by rewrite !put_out by lia].
    destruct (nth_z_lt l' (k - b)) as [v Hv]; [lia|]. replace k with (b + (k - b)) by lia. by rewrite !(put_in _ _ _ _ _ Hv).
Qed.

(** ** Contents

    [n] bytes from [a]; what was never written is zero. *)
Definition peek (d : Mem) (a n : Z) : list Z := (fun i => default 0 (d !! (a + i))) <$> seqZ 0 n.

Lemma zlen_peek d a n : 0 <= n -> zlen (peek d a n) = n.
Proof. intros. unfold peek, zlen. rewrite length_fmap, length_seqZ. lia. Qed.

Lemma nth_peek d a n i : 0 <= i < n -> nth_z (peek d a n) i = Some (default 0 (d !! (a + i))).
Proof.
  intros Hi. unfold nth_z, peek. rewrite decide_True by lia. rewrite list_lookup_fmap, lookup_seqZ_lt by lia. cbn.
  do 3 f_equal. lia.
Qed.

Lemma peek_put d a l : peek (put a l d) a (zlen l) = l.
Proof.
  pose proof (zlen_nonneg l). apply nth_z_ext; [by apply zlen_peek|]. intros i Hi. rewrite zlen_peek in Hi by done.
  rewrite nth_peek by done. destruct (nth_z_lt l i Hi) as [x Hx]. by rewrite (put_in _ _ _ _ _ Hx), Hx.
Qed.

Lemma peek_put_ne d a l a' n : a' + n <= a \/ a + zlen l <= a' -> peek (put a l d) a' n = peek d a' n.
Proof.
  intros Hd. unfold peek. apply list_fmap_ext. intros k i Hi. apply lookup_seqZ in Hi. rewrite put_out; [done|]. lia.
Qed.

Lemma bytes_at_peek m a l : bytes_at m a l -> peek m a (zlen l) = l.
Proof.
  intros H. pose proof (zlen_nonneg l). apply nth_z_ext; [by apply zlen_peek|]. intros i Hi. rewrite zlen_peek in Hi by done.
  rewrite nth_peek by done. destruct (nth_z_lt l i Hi) as [x Hx]. by rewrite (H i x Hx), Hx.
Qed.
