(* ===== verification/CString.v ===== *)
(** * String functions of the C library

    src/lib/c/std/src/string.c, on the memory of CMem: copying and filling memory, lengths,
    comparison, copying of strings, and the tokenizer with its static position.

    The theorems: [memmove] copies overlapping areas; [strcmp] compares strings in the order of
    their bytes; [strncmp] compares one character too many; [strncpy] leaves out the terminator;
    [strtok] cuts a string at its delimiters one call at a time; and every loop ends on every
    memory. *)

From S2P Require Import Prelude CMem.

Abbreviation NULL := 0.

(** ** Memory *)

(** [while (s != e) { *d++ = *s++; }] *)
Fixpoint copy_up (fuel : nat) (d s e : Z) : M Mem unit :=
  match fuel with
  | O => fun _ => OutOfFuel
  | S fuel =>
    if s =? e then ret tt else
    let* x := ldb s in
    stb d x ;;
    copy_up fuel (d + 1) (s + 1) e
  end.

(** [while (s != e) { *d-- = *e--; }] *)
Fixpoint copy_down (fuel : nat) (d s e : Z) : M Mem unit :=
  match fuel with
  | O => fun _ => OutOfFuel
  | S fuel =>
    if s =? e then ret tt else
    let* x := ldb e in
    stb d x ;;
    copy_down fuel (d - 1) s (e - 1)
  end.

Definition memcpy (dest src n : Z) : M Mem Z :=
  copy_up (S (Z.to_nat n)) dest src (src + n) ;; ret dest.

Definition memmove (dest src n : Z) : M Mem Z :=
  (if dest <? src then copy_up (S (Z.to_nat n)) dest src (src + n)
   else copy_down (S (Z.to_nat n)) (dest + (n - 1)) (src - 1) (src + n - 1)) ;;
  ret dest.

Fixpoint fill (fuel : nat) (d e c : Z) : M Mem unit :=
  match fuel with
  | O => fun _ => OutOfFuel
  | S fuel => if d =? e then ret tt else stb d (wrap 8 c) ;; fill fuel (d + 1) e c
  end.

Definition memset (dest c n : Z) : M Mem Z :=
  fill (S (Z.to_nat n)) dest (dest + n) c ;; ret dest.

(** ** Strings

    The loops that end at a terminator read a further byte in each iteration, so the size of the
    memory bounds them. *)

Definition bounded {A} (loop : nat -> M Mem A) : M Mem A := fun m => loop (S (size m)) m.

Fixpoint find_end (fuel : nat) (e : Z) : M Mem Z :=
  match fuel with
  | O => fun _ => OutOfFuel
  | S fuel => let* x := ldb e in if x =? 0 then ret e else find_end fuel (e + 1)
  end.

Definition strlen (s : Z) : M Mem Z :=
  let* e := bounded (fun fuel => find_end fuel s) in ret (e - s).

(** The difference of the characters the loop of [strncmp] ends at. *)
Definition char_difference (a b : Z) : M Mem Z :=
  let* x := ldb a in let* y := ldb b in ret (x - y).

Fixpoint strncmp_loop (fuel : nat) (a b n : Z) : M Mem Z :=
  match fuel with
  | O => fun _ => OutOfFuel
  | S fuel =>
    if 0 <? n then
      let* x := ldb a in
      let* y := ldb b in
      if x =? y then
        if x =? 0 then ret 0 else strncmp_loop fuel (a + 1) (b + 1) (wrap 64 (n - 1))
      else char_difference a b
    else char_difference a b
  end.

Definition strncmp (a b n : Z) : M Mem Z := bounded (fun fuel => strncmp_loop fuel a b n).

Definition strcmp (a b : Z) : M Mem Z := strncmp a b (wrap 64 (-1)).

Fixpoint strncpy_loop (fuel : nat) (d src n : Z) : M Mem unit :=
  match fuel with
  | O => fun _ => OutOfFuel
  | S fuel =>
    if 0 <? n then
      let* x := ldb src in
      if x =? 0 then ret tt else
      stb d x ;;
      strncpy_loop fuel (d + 1) (src + 1) (wrap 64 (n - 1))
    else ret tt
  end.

Definition strncpy (dest src n : Z) : M Mem Z :=
  bounded (fun fuel => strncpy_loop fuel dest src n) ;; ret dest.

Definition strcpy (dest src : Z) : M Mem Z := strncpy dest src (wrap 64 (-1)).

(** ** The tokenizer

    The state is the memory and the static variable [prev_str]. *)

(** [for (const char *c = delim; *c != '\0'; c++)]: whether [*p] is one of the delimiters. *)
Fixpoint is_delim (fuel : nat) (p c : Z) : M Mem bool :=
  match fuel with
  | O => fun _ => OutOfFuel
  | S fuel =>
    let* x := ldb c in
    if x =? 0 then ret false else
    let* y := ldb p in
    if y =? x then ret true else is_delim fuel p (c + 1)
  end.

Fixpoint strtok_loop (fuel : nat) (str p delim : Z) : M (Mem * Z) Z :=
  match fuel with
  | O => fun _ => OutOfFuel
  | S fuel =>
    let* x := on_fst (ldb p) in
    if x =? 0 then
      on_snd (modify (fun _ => NULL)) ;;
      ret (if p =? str then NULL else str)
    else
      let* d := on_fst (bounded (fun fuel => is_delim fuel p delim)) in
      if (d : bool) then
        on_fst (stb p 0) ;;
        on_snd (modify (fun _ => p + 1)) ;;
        ret str
      else strtok_loop fuel str (p + 1) delim
  end.

Definition strtok (str delim : Z) : M (Mem * Z) Z :=
  fun st =>
    let str := if str =? NULL then snd st else str in
    if str =? NULL then Done (NULL, st) else strtok_loop (S (size (fst st))) str str delim st.

(** ** Copying and filling *)

Lemma copy_up_spec l : forall fuel m d s,
  bytes_at m s l -> room m d (zlen l) -> d <= s \/ s + zlen l <= d -> (length l < fuel)%nat ->
  copy_up fuel d s (s + zlen l) m = Done (tt, put d l m).
Proof.
  induction l as [|x l IH]; intros [|fuel] m d s Hs Hr Hd Hf; cbn [length] in Hf; try lia; cbn [copy_up].
  { by rewrite zlen_nil, Z.add_0_r, Z.eqb_refl. }
  apply bytes_at_cons in Hs as [Hx Hs]. rewrite zlen_cons in *. pose proof (zlen_nonneg l).
  apply room_tail in Hr as [Hd0 Hr]; [|lia]. replace (s =? s + (1 + zlen l)) with false by lia.
  erewrite bind_done by by apply ldb_at. erewrite bind_done by by apply stb_at.
  replace (s + (1 + zlen l)) with (s + 1 + zlen l) by lia. rewrite IH; [by rewrite put_cons| | |lia|lia].
  - change (<[d := x]> m) with (put d [x] m). apply bytes_at_put; [done|]. change (zlen [x]) with 1. lia.
  - replace (1 + zlen l - 1) with (zlen l) in Hr by lia. change (<[d := x]> m) with (put d [x] m). by apply put_room.
Qed.

Lemma copy_down_spec l : forall fuel m d s,
  bytes_at m s l -> room m d (zlen l) -> s <= d \/ d + zlen l <= s -> (length l < fuel)%nat ->
  copy_down fuel (d + (zlen l - 1)) (s - 1) (s + zlen l - 1) m = Done (tt, put d l m).
Proof.
  induction l as [|x l IH] using rev_ind; intros [|fuel] m d s Hs Hr Hd Hf; rewrite ?length_app in Hf; cbn in Hf; try lia; cbn [copy_down].
  { rewrite zlen_nil. by replace (s + 0 - 1) with (s - 1) by lia; rewrite Z.eqb_refl. }
  apply bytes_at_app in Hs as [Hs [Hx _]%bytes_at_cons]. rewrite zlen_app in *. change (zlen [x]) with 1 in *. pose proof (zlen_nonneg l).
  replace (s - 1 =? s + (zlen l + 1) - 1) with false by lia.
  erewrite bind_done by (apply ldb_at; by replace (s + (zlen l + 1) - 1) with (s + zlen l) by lia).
  erewrite bind_done by (apply stb_at, Hr; lia). cbv beta.
  replace (d + (zlen l + 1 - 1) - 1) with (d + (zlen l - 1)) by lia. replace (s + (zlen l + 1) - 1 - 1) with (s + zlen l - 1) by lia.
  replace (d + (zlen l + 1 - 1)) with (d + zlen l) by lia. change (<[d + zlen l := x]> m) with (put (d + zlen l) [x] m).
  rewrite IH; [by rewrite put_app| | |lia|lia].
  - apply bytes_at_put; [done|]. change (zlen [x]) with 1. lia.
  - apply put_room. intros i Hi. apply Hr. lia.
Qed.

(** Copying separate areas, or towards lower addresses. *)
Lemma memcpy_spec m d s l :
  bytes_at m s l -> room m d (zlen l) -> d <= s \/ s + zlen l <= d -> memcpy d s (zlen l) m = Done (d, put d l m).
Proof. intros Hs Hr Hd. unfold memcpy. erewrite bind_done; [done|]. apply copy_up_spec; [done..|]. unfold zlen. lia. Qed.

(** [memmove] copies areas that overlap in any way: afterwards the destination holds the bytes
    the source held before, and nothing else changes. *)
Theorem memmove_copies m d s l :
  bytes_at m s l -> room m d (zlen l) ->
  exists m', memmove d s (zlen l) m = Done (d, m') /\ bytes_at m' d l /\
    (forall a, a < d \/ d + zlen l <= a -> m' !! a = m !! a).
Proof.
  intros Hs Hr. exists (put d l m). split; [|split; [apply put_bytes_at|intros a Ha; by apply put_out]].
  unfold memmove. erewrite bind_done; [done|]. destruct (d <? s) eqn:E.
  - apply copy_up_spec; [done..|lia|unfold zlen; lia].
  - apply copy_down_spec; [done..|lia|unfold zlen; lia].
Qed.

Lemma fill_spec n : forall fuel m d c,
  room m d (Z.of_nat n) -> (n < fuel)%nat -> fill fuel d (d + Z.of_nat n) c m = Done (tt, put d (replicate n (wrap 8 c)) m).
Proof.
  induction n as [|n IH]; intros [|fuel] m d c Hr Hf; try lia; cbn [fill]; [by rewrite Z.add_0_r, Z.eqb_refl|].
  apply room_tail in Hr as [Hd Hr]; [|lia]. rewrite (proj2 (Z.eqb_neq d _)) by lia. erewrite bind_done by by apply stb_at.
  replace (d + Z.of_nat (S n)) with (d + 1 + Z.of_nat n) by lia. rewrite IH; [by cbn [replicate]; rewrite put_cons| |lia].
  replace (Z.of_nat (S n) - 1) with (Z.of_nat n) in Hr by lia. change (<[d := wrap 8 c]> m) with (put d [wrap 8 c] m). by apply put_room.
Qed.

Lemma memset_spec m d c n :
  0 <= n -> room m d n -> memset d c n m = Done (d, put d (replicate (Z.to_nat n) (wrap 8 c)) m).
Proof.
  intros Hn Hr. unfold memset. erewrite bind_done; [done|]. rewrite <-(Z2Nat.id n Hn) at 2. apply fill_spec; [by rewrite Z2Nat.id|lia].
Qed.

(** ** Lengths and comparison *)

Lemma find_end_spec l : forall fuel m s,
  cstr_at m s l -> (length l < fuel)%nat -> find_end fuel s m = Done (s + zlen l, m).
Proof.
  induction l as [|x l IH]; intros [|fuel] m s Hs Hf; cbn [length] in Hf; try lia; cbn [find_end].
  - apply cstr_at_nil in Hs. erewrite bind_done by by apply ldb_at. cbn. unfold ret. by rewrite Z.add_0_r.
  - apply cstr_at_cons in Hs as (Hx0 & Hx & Hs). erewrite bind_done by by apply ldb_at. replace (x =? 0) with false by lia.
    rewrite IH by (done || lia). rewrite zlen_cons. by replace (s + 1 + zlen l) with (s + (1 + zlen l)) by lia.
Qed.

Lemma cstr_at_size m s l : cstr_at m s l -> (length l < size m)%nat.
Proof. intros [H%room_bound_len _]. rewrite length_app in H. cbn in H. lia. Qed.

Lemma strlen_spec m s l : cstr_at m s l -> strlen s m = Done (zlen l, m).
Proof.
  intros Hs. unfold strlen. erewrite bind_done; [|apply (find_end_spec l); [done|apply cstr_at_size in Hs; lia]].
  cbn. by replace (s + zlen l - s) with (zlen l) by lia.
Qed.

(** The difference of the first characters that differ; a string ends with a zero. *)
Fixpoint str_difference (l1 l2 : list Z) : Z :=
  match l1, l2 with
  | [], [] => 0
  | [], y :: _ => 0 - y
  | x :: _, [] => x
  | x :: l1, y :: l2 => if x =? y then str_difference l1 l2 else x - y
  end.

Lemma strncmp_loop_spec l1 : forall l2 fuel m a b n,
  cstr_at m a l1 -> cstr_at m b l2 -> (length l1 < fuel)%nat -> zlen l1 < n < 2 ^ 64 ->
  strncmp_loop fuel a b n m = Done (str_difference l1 l2, m).
Proof.
  induction l1 as [|x l1 IH]; intros l2 [|fuel] m a b n Ha Hb Hf Hn; cbn [length] in Hf; try lia; cbn [strncmp_loop].
  - rewrite zlen_nil in Hn. replace (0 <? n) with true by lia. apply cstr_at_nil in Ha. erewrite bind_done by by apply ldb_at.
    unfold char_difference. destruct l2 as [|y l2].
    + apply cstr_at_nil in Hb. by erewrite bind_done by by apply ldb_at.
    + apply cstr_at_cons in Hb as (Hy & Hb & _). erewrite bind_done by by apply ldb_at. replace (0 =? y) with false by lia.
      by do 2 (erewrite bind_done by by apply ldb_at).
  - rewrite zlen_cons in Hn. pose proof (zlen_nonneg l1). replace (0 <? n) with true by lia. apply cstr_at_cons in Ha as (Hx & Ha & Ha').
    erewrite bind_done by by apply ldb_at. unfold char_difference. destruct l2 as [|y l2].
    + apply cstr_at_nil in Hb. erewrite bind_done by by apply ldb_at. replace (x =? 0) with false by lia.
      do 2 (erewrite bind_done by by apply ldb_at). cbn. by rewrite Z.sub_0_r.
    + apply cstr_at_cons in Hb as (Hy & Hb & Hb'). erewrite bind_done by by apply ldb_at. cbn [str_difference].
      destruct (x =? y) eqn:E; [|by do 2 (erewrite bind_done by by apply ldb_at)].
      replace (x =? 0) with false by lia. rewrite wrap_small by (unfold fits; lia). apply IH; [done..|lia|lia].
Qed.

(** The order of strings by their bytes. *)
Inductive str_lt : list Z -> list Z -> Prop :=
| str_lt_end y l : str_lt [] (y :: l)
| str_lt_char x y l1 l2 : x < y -> str_lt (x :: l1) (y :: l2)
| str_lt_next x l1 l2 : str_lt l1 l2 -> str_lt (x :: l1) (x :: l2).

Lemma str_difference_zero l1 : forall l2, Forall (Z.lt 0) l1 -> Forall (Z.lt 0) l2 -> str_difference l1 l2 = 0 <-> l1 = l2.
Proof.
  induction l1 as [|x l1 IH]; intros [|y l2] H1 H2; cbn [str_difference]; rewrite ?Forall_cons in *; try naive_solver lia.
  destruct (x =? y) eqn:E; [|naive_solver lia]. rewrite IH by tauto. apply Z.eqb_eq in E as ->. naive_solver.
Qed.

Lemma str_difference_neg l1 : forall l2, Forall (Z.lt 0) l1 -> Forall (Z.lt 0) l2 -> str_difference l1 l2 < 0 <-> str_lt l1 l2.
Proof.
  induction l1 as [|x l1 IH]; intros [|y l2] H1 H2; cbn [str_difference]; rewrite ?Forall_cons in *.
  - split; [lia|inversion 1].
  - split; [constructor|lia].
  - split; [lia|inversion 1].
  - destruct (x =? y) eqn:E.
    + apply Z.eqb_eq in E as ->. rewrite IH by tauto. split; [by constructor|]. inversion 1; [lia|done].
    + split; [intros; apply str_lt_char; lia|]. inversion 1; lia.
Qed.

Lemma strcmp_spec m a b l1 l2 :
  cstr_at m a l1 -> cstr_at m b l2 -> zlen l1 < 2 ^ 64 - 1 -> strcmp a b m = Done (str_difference l1 l2, m).
Proof.
  intros Ha Hb Hl. unfold strcmp, strncmp, bounded. change (wrap 64 (-1)) with (2 ^ 64 - 1). apply strncmp_loop_spec; [done..| |lia].
  apply cstr_at_size in Ha. lia.
Qed.

(** [strcmp] compares strings: its result is zero exactly for equal strings and negative
    exactly when the first string comes before the second in the order of their bytes. *)
Theorem strcmp_compares m a b l1 l2 :
  cstr_at m a l1 -> cstr_at m b l2 -> Forall (Z.lt 0) l1 -> Forall (Z.lt 0) l2 -> zlen l1 < 2 ^ 64 - 1 ->
  exists r, strcmp a b m = Done (r, m) /\ (r = 0 <-> l1 = l2) /\ (r < 0 <-> str_lt l1 l2).
Proof.
  intros Ha Hb H1 H2 Hl. exists (str_difference l1 l2). split; [by apply strcmp_spec|split; [by apply str_difference_zero|by apply str_difference_neg]].
Qed.

Lemma strncmp_prefix l : forall fuel m a b x y,
  bytes_at m a (l ++ [x]) -> bytes_at m b (l ++ [y]) -> 0 ∉ l -> (length l < fuel)%nat -> zlen l < 2 ^ 64 ->
  strncmp_loop fuel a b (zlen l) m = Done (x - y, m).
Proof.
  induction l as [|c l IH]; intros [|fuel] m a b x y Ha Hb H0 Hf Hl; cbn [length] in Hf; try lia; cbn [strncmp_loop app] in *;
    apply bytes_at_cons in Ha as [Ha Ha']; apply bytes_at_cons in Hb as [Hb Hb'].
  - change (0 <? zlen (@nil Z)) with false. unfold char_difference. by do 2 (erewrite bind_done by by apply ldb_at).
  - rewrite zlen_cons in *. pose proof (zlen_nonneg l). apply not_elem_of_cons in H0 as [Hc H0]. replace (0 <? 1 + zlen l) with true by lia.
    do 2 (erewrite bind_done by by apply ldb_at). rewrite Z.eqb_refl. replace (c =? 0) with false by lia.
    replace (1 + zlen l - 1) with (zlen l) by lia. rewrite wrap_small by (unfold fits; lia). apply IH; (done || lia).
Qed.

(** [strncmp] looks one character too far: on strings that agree in their first [n] characters it
    returns the difference of the characters after them, where the C standard asks for zero. *)
Theorem strncmp_reads_past m a b l x y :
  bytes_at m a (l ++ [x]) -> bytes_at m b (l ++ [y]) -> 0 ∉ l -> zlen l < 2 ^ 64 ->
  strncmp a b (zlen l) m = Done (x - y, m).
Proof.
  intros Ha Hb H0 Hl. apply strncmp_prefix; try done. apply room_bound_len in Ha. rewrite length_app in Ha. cbn in Ha. lia.
Qed.

(** ** Copying strings *)

Lemma strncpy_loop_spec l : forall fuel m d s n,
  cstr_at m s l -> room m d (Z.min n (zlen l)) -> d + n <= s \/ s + zlen l < d -> (length l < fuel)%nat -> 0 <= n < 2 ^ 64 ->
  strncpy_loop fuel d s n m = Done (tt, put d (take (Z.to_nat n) l) m).
Proof.
  induction l as [|x l IH]; intros [|fuel] m d s n Hs Hr Hd Hf Hn; cbn [length] in Hf; try lia; cbn [strncpy_loop].
  - rewrite take_nil. destruct (0 <? n); [|done]. apply cstr_at_nil in Hs. by erewrite bind_done by by apply ldb_at.
  - apply cstr_at_cons in Hs as (Hx & Hsx & Hs). rewrite zlen_cons in *. pose proof (zlen_nonneg l).
    destruct (0 <? n) eqn:E; [|by replace (Z.to_nat n) with O by lia]. erewrite bind_done by by apply ldb_at. replace (x =? 0) with false by lia.
    apply room_tail in Hr as [Hd0 Hr]; [|lia]. erewrite bind_done by by apply stb_at. rewrite wrap_small by (unfold fits; lia).
    replace (Z.min n (1 + zlen l) - 1) with (Z.min (n - 1) (zlen l)) in Hr by lia.
    change (<[d := x]> m) with (put d [x] m). rewrite IH; [|destruct Hs; split; [|done]|by apply put_room|lia|lia|lia].
    + replace (Z.to_nat n) with (S (Z.to_nat (n - 1))) by lia. cbn [take put]. by rewrite put_cons.
    + apply bytes_at_put; [done|]. rewrite zlen_app. change (zlen [x]) with 1. change (zlen [0]) with 1. lia.
Qed.

(** [strncpy] copies at most [n] characters and neither a terminator nor padding, and so does
    [strcpy]: the byte behind the copy keeps its value. *)
Theorem strncpy_copies m d s l n :
  cstr_at m s l -> room m d (Z.min n (zlen l)) -> d + n <= s \/ s + zlen l < d -> 0 <= n < 2 ^ 64 ->
  strncpy d s n m = Done (d, put d (take (Z.to_nat n) l) m).
Proof.
  intros Hs Hr Hd Hn. unfold strncpy. erewrite bind_done; [done|]. apply strncpy_loop_spec; try done. apply cstr_at_size in Hs. lia.
Qed.

(** ** Tokens *)

Lemma is_delim_spec ds : forall fuel m p c x,
  cstr_at m c ds -> m !! p = Some x -> (length ds < fuel)%nat -> is_delim fuel p c m = Done (bool_decide (x ∈ ds), m).
Proof.
  induction ds as [|y ds IH]; intros [|fuel] m p c x Hc Hp Hf; cbn [length] in Hf; try lia; cbn [is_delim].
  - apply cstr_at_nil in Hc. erewrite bind_done by by apply ldb_at. by rewrite bool_decide_false by set_solver.
  - apply cstr_at_cons in Hc as (Hy & Hcy & Hc). erewrite bind_done by by apply ldb_at. replace (y =? 0) with false by lia.
    erewrite bind_done by by apply ldb_at. destruct (x =? y) eqn:E.
    + apply Z.eqb_eq in E as ->. by rewrite bool_decide_true by set_solver.
    + rewrite (IH _ _ _ _ x) by (done || lia). do 2 f_equal. apply bool_decide_ext. rewrite elem_of_cons. naive_solver lia.
Qed.

(** What a call of [strtok] does at the string [l]. *)
Definition strtok_result (ds l : list Z) (str p : Z) (m : Mem) : Z * (Mem * Z) :=
  match list_find (.∈ ds) l with
  | Some (i, _) => (str, (<[p + Z.of_nat i := 0]> m, p + Z.of_nat i + 1))
  | None => (if p + zlen l =? str then NULL else str, (m, NULL))
  end.

Lemma strtok_loop_spec ds l : forall fuel m str p delim prev,
  cstr_at m p l -> cstr_at m delim ds -> (length l < fuel)%nat ->
  strtok_loop fuel str p delim (m, prev) = Done (strtok_result ds l str p m).
Proof.
  induction l as [|x l IH]; intros [|fuel] m str p delim prev Hp Hd Hf; cbn [length] in Hf; try lia; cbn [strtok_loop].
  - apply cstr_at_nil in Hp. erewrite bind_done by by apply on_fst_done, ldb_at. cbn. unfold bind, ret. cbn.
    unfold strtok_result. cbn. by rewrite Z.add_0_r.
  - apply cstr_at_cons in Hp as (Hx & Hpx & Hp). erewrite bind_done by by apply on_fst_done, ldb_at. replace (x =? 0) with false by lia.
    erewrite bind_done by (apply on_fst_done; unfold bounded; apply (is_delim_spec ds); [done|done|apply cstr_at_size in Hd; lia]).
    unfold strtok_result. cbn [list_find]. case_bool_decide as Hin.
    + rewrite decide_True by done. erewrite bind_done by by apply on_fst_done, stb_at. cbn. by rewrite Z.add_0_r.
    + rewrite decide_False by done. rewrite (IH _ _ _ _ _ _ Hp Hd) by lia. unfold strtok_result.
      destruct (list_find (.∈ ds) l) as [[i y]|]; cbn.
      * replace (p + 1 + Z.of_nat i) with (p + Z.of_nat (S i)) by lia. done.
      * rewrite zlen_cons. by replace (p + 1 + zlen l) with (p + (1 + zlen l)) by lia.
Qed.

(** A call with a string starts at its beginning, a call with [NULL] where the last one stopped. *)
Lemma strtok_spec m prev str delim ds l :
  (if str =? NULL then prev else str) <> NULL -> cstr_at m (if str =? NULL then prev else str) l -> cstr_at m delim ds ->
  strtok str delim (m, prev) = Done (strtok_result ds l (if str =? NULL then prev else str) (if str =? NULL then prev else str) m).
Proof.
  intros H0 Hs Hd. unfold strtok. cbn [fst snd]. rewrite (proj2 (Z.eqb_neq _ _) H0). apply strtok_loop_spec; [done..|]. apply cstr_at_size in Hs. lia.
Qed.

(** ** Termination *)

Lemma bind_out_of_fuel {S A B} (f : M S A) (k : A -> M S B) s :
  bind f k s = OutOfFuel -> f s = OutOfFuel \/ exists a s', f s = Done (a, s') /\ k a s' = OutOfFuel.
Proof. unfold bind. destruct (f s) as [[a s']| |]; [|done|]; naive_solver. Qed.

Lemma ldb_inv {A} a m (k : Z -> M Mem A) : bind (ldb a) k m = OutOfFuel -> exists x, m !! a = Some x /\ k x m = OutOfFuel.
Proof. unfold bind, ldb. destruct (m !! a) as [x|]; [|done]. eauto. Qed.

Lemma stb_inv {A} a x m (k : unit -> M Mem A) : bind (stb a x) k m = OutOfFuel -> is_Some (m !! a) /\ k tt (<[a := x]> m) = OutOfFuel.
Proof. unfold bind, stb. destruct (m !! a) as [y|]; [|done]. eauto. Qed.

Lemma room_cons m p n : is_Some (m !! p) -> room m (p + 1) n -> room m p (1 + n).
Proof.
  intros Hp Hr i Hi. destruct (decide (i = 0)) as [->|Hne]; [by rewrite Z.add_0_r|]. replace (p + i) with (p + 1 + (i - 1)) by lia. apply Hr. lia.
Qed.

Lemma room_insert m p n a x : is_Some (m !! a) -> room (<[a := x]> m) p n -> room m p n.
Proof. intros Ha Hr i Hi. destruct (decide (a = p + i)) as [->|Hne]; [done|]. specialize (Hr i Hi). by rewrite lookup_insert_ne in Hr. Qed.

Lemma bounded_halts {A} (loop : nat -> M Mem A) p :
  (forall fuel m, loop fuel m = OutOfFuel -> room m p (Z.of_nat fuel)) -> halts (bounded loop).
Proof. intros H m E. apply H in E. apply room_bound in E; lia. Qed.

(** Goals "a loop that is out of fuel has seen mapped memory": the iteration in [H]. *)
Ltac scan_step H IH :=
  rewrite Nat2Z.inj_succ, <-Z.add_1_l; apply ldb_inv in H as (? & ? & H); apply room_cons; [by eexists|];
  repeat (apply ldb_inv in H as (? & ? & H)); repeat (case_match; try done); try (by eapply IH).

Lemma find_end_scan fuel : forall m s, find_end fuel s m = OutOfFuel -> room m s (Z.of_nat fuel).
Proof. induction fuel as [|fuel IH]; intros m s H; [intros i Hi; lia|]. cbn [find_end] in H. scan_step H IH. Qed.

Lemma char_difference_halts a b : halts (char_difference a b).
Proof. intros m. unfold char_difference, bind, ldb. by repeat (case_match; simplify_eq). Qed.

Lemma strncmp_scan fuel : forall m a b n, strncmp_loop fuel a b n m = OutOfFuel -> room m a (Z.of_nat fuel).
Proof.
  induction fuel as [|fuel IH]; intros m a b n H; [intros i Hi; lia|]. cbn [strncmp_loop] in H.
  destruct (0 <? n); [|by apply char_difference_halts in H]. scan_step H IH. by apply char_difference_halts in H.
Qed.

Lemma strncpy_scan fuel : forall m d s n, strncpy_loop fuel d s n m = OutOfFuel -> room m s (Z.of_nat fuel).
Proof.
  induction fuel as [|fuel IH]; intros m d s n H; [intros i Hi; lia|]. cbn [strncpy_loop] in H. destruct (0 <? n); [|done].
  scan_step H IH. apply stb_inv in H as [Hd H]. eapply room_insert; [done|]. by eapply IH.
Qed.

Lemma is_delim_scan fuel : forall m p c, is_delim fuel p c m = OutOfFuel -> room m c (Z.of_nat fuel).
Proof.
  induction fuel as [|fuel IH]; intros m p c H; [intros i Hi; lia|]. cbn [is_delim] in H. scan_step H IH.
  apply ldb_inv in H as (? & ? & H). case_match; [done|]. by eapply IH.
Qed.

Lemma is_delim_reads fuel : forall m p c b m', is_delim fuel p c m = Done (b, m') -> m' = m.
Proof.
  induction fuel as [|fuel IH]; intros m p c b m' H; [done|]. cbn [is_delim] in H. unfold bind, ldb in H.
  destruct (m !! c) as [x|]; [|done]. destruct (x =? 0); [by injection H|]. destruct (m !! p) as [y|]; [|done].
  destruct (y =? x); [by injection H|by eapply IH].
Qed.

Lemma strtok_scan fuel : forall m prev str p delim, strtok_loop fuel str p delim (m, prev) = OutOfFuel -> room m p (Z.of_nat fuel).
Proof.
  induction fuel as [|fuel IH]; intros m prev str p delim H; [intros i Hi; lia|]. cbn [strtok_loop] in H.
  apply bind_out_of_fuel in H as [H|(x & st & Hx & H)]; unfold on_fst, ldb in *; cbn [fst snd] in *; destruct (m !! p) eqn:Hp; try done.
  injection Hx as -> <-. rewrite Nat2Z.inj_succ, <-Z.add_1_l. apply room_cons; [by eexists|]. destruct (x =? 0); [done|].
  apply bind_out_of_fuel in H as [H|(b & st & Hb & H)]; cbn [fst snd] in *; destruct (bounded _ m) as [[b' m1]| |] eqn:E; try done.
  - exfalso. eapply (bounded_halts (fun fuel => is_delim fuel p delim) delim); [intros; by eapply is_delim_scan|exact E].
  - injection Hb as -> <-. unfold bounded in E. apply is_delim_reads in E as ->. destruct b; [|by eapply IH].
    unfold bind, on_fst, stb in H. cbn in H. by rewrite Hp in H.
Qed.

Lemma copy_up_halts n : forall fuel d s, (n < fuel)%nat -> halts (copy_up fuel d s (s + Z.of_nat n)).
Proof.
  induction n as [|n IH]; intros [|fuel] d s Hf m; try lia; cbn [copy_up]; [by rewrite Z.add_0_r, Z.eqb_refl|].
  rewrite (proj2 (Z.eqb_neq s _)) by lia. intros (x & _ & H)%ldb_inv. apply stb_inv in H as [_ H].
  replace (s + Z.of_nat (S n)) with (s + 1 + Z.of_nat n) in H by lia. by apply IH in H; [|lia].
Qed.

Lemma copy_down_halts n : forall fuel d s e, e = s + Z.of_nat n -> (n < fuel)%nat -> halts (copy_down fuel d s e).
Proof.
  induction n as [|n IH]; intros [|fuel] d s e -> Hf m; try lia; cbn [copy_down]; [by rewrite Z.add_0_r, Z.eqb_refl|].
  rewrite (proj2 (Z.eqb_neq s _)) by lia. intros (x & _ & H)%ldb_inv. apply stb_inv in H as [_ H]. by apply IH in H; [|lia..].
Qed.

Lemma fill_halts n : forall fuel d c, (n < fuel)%nat -> halts (fill fuel d (d + Z.of_nat n) c).
Proof.
  induction n as [|n IH]; intros [|fuel] d c Hf m; try lia; cbn [fill]; [by rewrite Z.add_0_r, Z.eqb_refl|].
  rewrite (proj2 (Z.eqb_neq d _)) by lia. intros [_ H]%stb_inv. replace (d + Z.of_nat (S n)) with (d + 1 + Z.of_nat n) in H by lia. by apply IH in H; [|lia].
Qed.

Lemma halts_seq {S A B} (f : M S A) (x : B) : halts f -> halts (f ;; ret x).
Proof. intros Hf s [H|(a & s' & _ & H)]%bind_out_of_fuel; [by apply Hf in H|done]. Qed.

(** Every function of the library on strings ends, by returning or at memory that is not
    mapped, for all pointers and all contents of the memory. *)
Theorem string_functions_end d s n c delim :
  0 <= n ->
  halts (memcpy d s n) /\ halts (memmove d s n) /\ halts (memset d c n) /\ halts (strlen s) /\
  halts (strncmp d s n) /\ halts (strcmp d s) /\ halts (strncpy d s n) /\ halts (strcpy d s) /\ halts (strtok s delim).
Proof.
  intros Hn. assert (forall a b k, halts (strncmp a b k)) as Hcmp by (intros a b k; apply (bounded_halts _ a); intros; by eapply strncmp_scan).
  assert (forall a b k, halts (strncpy a b k)) as Hcpy.
  { intros a b k. apply halts_seq, (bounded_halts _ b). intros. by eapply strncpy_scan. }
  assert (halts (copy_up (S (Z.to_nat n)) d s (s + n))) as Hup by (rewrite <-(Z2Nat.id n Hn) at 2; apply copy_up_halts; lia).
  split_and!; try apply Hcmp; try apply Hcpy.
  - by apply halts_seq.
  - apply halts_seq. destruct (d <? s); [done|]. apply (copy_down_halts (Z.to_nat n)); lia.
  - apply halts_seq. rewrite <-(Z2Nat.id n Hn) at 2. apply fill_halts. lia.
  - intros m [H|(a & m' & _ & H)]%bind_out_of_fuel; [|done]. eapply (bounded_halts (fun fuel => find_end fuel s) s); [intros; by eapply find_end_scan|exact H].
  - intros [m prev] H. unfold strtok in H. cbn [fst snd] in H. repeat case_match; try done; apply strtok_scan, room_bound in H; lia.
Qed.

(** ** Witnesses *)

(** Four bytes at 16, and two more behind them. *)
Definition six_bytes : Mem := put 16 [1; 2; 3; 4; 0; 0] ∅.

Lemma memmove_copies_witness :
  exists m', memmove 18 16 4 six_bytes = Done (18, m') /\ bytes_at m' 18 [1; 2; 3; 4] /\ m' !! 17 = Some 2.
Proof.
  destruct (memmove_copies six_bytes 18 16 [1; 2; 3; 4]) as (m' & E & Hb & Hout).
  - apply (bytes_at_app six_bytes 16 [1; 2; 3; 4] [0; 0]), put_bytes_at.
  - intros i Hi. replace (18 + i) with (16 + (i + 2)) by lia. apply (bytes_at_room six_bytes 16 [1; 2; 3; 4; 0; 0] (put_bytes_at _ _ _) (i + 2)). change (zlen [1; 2; 3; 4]) with 4 in Hi. unfold zlen. cbn. lia.
  - exists m'. split; [exact E|]. split; [exact Hb|]. rewrite Hout by lia. by vm_compute.
Defined.
