(* ===== verification/CFormat.v ===== *)
(** * Number formatting of the C library

    src/lib/c/std/src/format.c and format.h: strings and numbers are written to a buffer, a
    conversion of a format string is read, and an argument is formatted as the conversion says.

    The theorems: a number is written as its digits, which read back as the number, and nothing
    is written behind the end of the buffer; a conversion with a flag, a width or a precision is
    never read to its end. *)

From S2P Require Import Prelude CMem CString.

(** ** Conversions *)

Inductive specifier : Type :=
| FORMAT_DEC | FORMAT_UDEC | FORMAT_OCTAL | FORMAT_HEX | FORMAT_FLOAT | FORMAT_SCIENCE | FORMAT_FLOAT_OR_SCIENCE
| FORMAT_HEX_FLOAT | FORMAT_CHAR | FORMAT_STRING | FORMAT_POINTER | FORMAT_COUNT | FORMAT_PERCENT.

#[export] Instance specifier_eq_dec : EqDecision specifier.
Proof. solve_decision. Defined.

Definition FORMAT_LJUST : Z := Z.shiftl 1 0.
Definition FORMAT_SIGNED : Z := Z.shiftl 1 1.
Definition FORMAT_SPACE : Z := Z.shiftl 1 2.
Definition FORMAT_PREFIX_OR_DECIMAL : Z := Z.shiftl 1 3.
Definition FORMAT_ZEROES : Z := Z.shiftl 1 4.
Definition FORMAT_VAR_WIDTH : Z := Z.shiftl 1 5.
Definition FORMAT_VAR_PRECISION : Z := Z.shiftl 1 6.
Definition FORMAT_UPPER : Z := Z.shiftl 1 7.

(** Types of arguments; the types of [char] and [short] are the type of [int]. *)
Inductive arg_type : Type :=
| TYPE_INT | TYPE_LONG | TYPE_LONG_LONG | TYPE_INTMAX_T | TYPE_SIZE_T | TYPE_PTRDIFF_T | TYPE_POINTER | TYPE_LONG_DOUBLE | TYPE_NONE.

Abbreviation TYPE_CHAR := TYPE_INT.
Abbreviation TYPE_SHORT := TYPE_INT.

(** [struct std_format_type]; an unset specifier is [None]. *)
Record format_type : Type := mkFormat {
  fsize : Z;
  width : Z;
  precision : Z;
  spec : option specifier;
  modifiers : Z;
  ftype : arg_type
}.

Definition has (modifiers flag : Z) : bool := negb (Z.land modifiers flag =? 0).

(** ** Strings and numbers *)

(** Where the characters of a string come from: a literal or memory. *)
Inductive text : Type :=
| Literal (l : list Z)
| Pointer (p : Z).

Definition char_at (t : text) (i : Z) : M Mem Z :=
  match t with
  | Literal l => ret (default 0 (nth_z l i))
  | Pointer p => ldb (p + i)
  end.

Fixpoint format_str_loop (fuel : nat) (value : text) (i str size max : Z) : M Mem Z :=
  match fuel with
  | O => fun _ => OutOfFuel
  | S fuel =>
    let* c := char_at value i in
    if c =? 0 then ret str else
    if max =? 0 then ret str else
    if size =? 0 then ret NULL else
    stb str c ;;
    format_str_loop fuel value (i + 1) (str + 1) (size - 1) (wrap 64 (max - 1))
  end.

(** The string [(null)]. *)
Definition null_text : list Z := [40; 110; 117; 108; 108; 41].

(** At most [size] characters are written before the loop ends. *)
Definition format_str (value : text) (str size max : Z) : M Mem Z :=
  let value := match value with Pointer p => if p =? NULL then Literal null_text else value | _ => value end in
  format_str_loop (S (S (Z.to_nat size))) value 0 str size max.

(** The character of a digit. *)
Definition digit_char (upper : bool) (c : Z) : Z :=
  if 10 <=? c then c + ((if upper then 65 else 97) - 10) else c + 48.

(** [do { ... } while (value != 0)], with the digits in reverse; [None] when the buffer is full. *)
Fixpoint write_digits (fuel : nat) (value str end_ base : Z) (upper : bool) : M Mem (option Z) :=
  match fuel with
  | O => fun _ => OutOfFuel
  | S fuel =>
    if str =? end_ then ret None else
    stb str (wrap 8 (digit_char upper (value mod base))) ;;
    if value / base =? 0 then ret (Some (str + 1)) else write_digits fuel (value / base) (str + 1) end_ base upper
  end.

(** [for (; end > start;)]: swaps the characters between [start] and [end]. *)
Fixpoint reverse_chars (fuel : nat) (start end_ : Z) : M Mem unit :=
  match fuel with
  | O => fun _ => OutOfFuel
  | S fuel =>
    if start <? end_ then
      let* t := ldb end_ in
      let* x := ldb start in
      stb end_ x ;;
      stb start t ;;
      reverse_chars fuel (start + 1) (end_ - 1)
    else ret tt
  end.

(** A number has at most 64 digits. *)
Definition MAX_DIGITS : nat := 64.

Definition format_unsigned_int (value str size base modifiers : Z) : M Mem Z :=
  let end_ := str + size in
  let sign := if has modifiers FORMAT_SIGNED then Some 43 else if has modifiers FORMAT_SPACE then Some 32 else None in
  let digits (start : Z) : M Mem Z :=
    let* r := write_digits (S MAX_DIGITS) value start end_ base (has modifiers FORMAT_UPPER) in
    match r with
    | None => ret NULL
    | Some str => reverse_chars (S MAX_DIGITS) start (str - 1) ;; ret str
    end in
  match sign with
  | Some c => if str =? end_ then ret NULL else stb str c ;; digits (str + 1)
  | None => digits str
  end.

(** The least [intmax_t], which has no opposite. *)
Definition INTMAX_MIN : Z := - 2 ^ 63.

Definition format_signed_int (value str size base modifiers : Z) : M Mem Z :=
  let put_sign (c value modifiers : Z) : M Mem Z :=
    if 0 <? size then stb str c ;; format_unsigned_int (wrap 64 value) (str + 1) (size - 1) base modifiers
    else ret NULL in
  if value <? 0 then
    if (0 <? size) && (value =? INTMAX_MIN) then stb str 45 ;; panic "undefined: signed overflow" else
    put_sign 45 (- value) modifiers
  else if has modifiers FORMAT_SIGNED then put_sign 43 value (Z.ldiff modifiers FORMAT_SIGNED)
  else if has modifiers FORMAT_SPACE then put_sign 32 value (Z.ldiff modifiers FORMAT_SPACE)
  else format_unsigned_int (wrap 64 value) str size base modifiers.

(** ** Reading a conversion *)

(** The flag a character stands for. *)
Definition flag_of (c : Z) : option Z :=
  if c =? 45 then Some FORMAT_LJUST
  else if c =? 43 then Some FORMAT_SIGNED
  else if c =? 32 then Some FORMAT_SPACE
  else if c =? 35 then Some FORMAT_PREFIX_OR_DECIMAL
  else if c =? 48 then Some FORMAT_ZEROES
  else None.

(** The loop over flags: it does not move on to the next character. *)
Fixpoint read_flags (fuel : nat) (input modifiers : Z) : M Mem Z :=
  match fuel with
  | O => fun _ => OutOfFuel
  | S fuel =>
    let* c := ldb input in
    match flag_of c with
    | Some f => read_flags fuel input (Z.lor modifiers f)
    | None => ret modifiers
    end
  end.

Definition is_digit (c : Z) : bool := (48 <=? c) && (c <=? 57).

(** The loop over the digits of a width or precision: nor does this one. *)
Fixpoint read_number (fuel : nat) (input n : Z) : M Mem Z :=
  match fuel with
  | O => fun _ => OutOfFuel
  | S fuel =>
    let* c := ldb input in
    if is_digit c then read_number fuel input (wrap 8 (wrap 8 (n * 10) + (c - 48))) else ret n
  end.

(** The length specifier and the input after it. *)
Definition read_length (input : Z) : M Mem (arg_type * Z) :=
  let* c := ldb input in
  if c =? 104 then
    let* d := ldb (input + 1) in
    ret (if d =? 104 then (TYPE_CHAR, input + 2) else (TYPE_SHORT, input + 1))
  else if c =? 108 then
    let* d := ldb (input + 1) in
    ret (if d =? 108 then (TYPE_LONG_LONG, input + 2) else (TYPE_LONG, input + 1))
  else if c =? 106 then ret (TYPE_INTMAX_T, input + 1)
  else if c =? 122 then ret (TYPE_SIZE_T, input + 1)
  else if c =? 116 then ret (TYPE_PTRDIFF_T, input + 1)
  else ret (TYPE_INT, input). (* [L] falls through to the default *)

Definition specifier_of (c : Z) : option specifier :=
  if (c =? 100) || (c =? 105) then Some FORMAT_DEC
  else if c =? 117 then Some FORMAT_UDEC
  else if c =? 111 then Some FORMAT_OCTAL
  else if c =? 120 then Some FORMAT_HEX
  else if c =? 102 then Some FORMAT_FLOAT
  else if c =? 101 then Some FORMAT_SCIENCE
  else if c =? 103 then Some FORMAT_FLOAT_OR_SCIENCE
  else if c =? 97 then Some FORMAT_HEX_FLOAT
  else if c =? 99 then Some FORMAT_CHAR
  else if c =? 115 then Some FORMAT_STRING
  else if c =? 112 then Some FORMAT_POINTER
  else if c =? 110 then Some FORMAT_COUNT
  else None.

(** The conversion at [input] and the input after it, or [NULL]. *)
Definition determine_format (fuel : nat) (input : Z) : M Mem (Z * format_type) :=
  let none := mkFormat 0 0 0 None 0 TYPE_NONE in
  let* c := ldb input in
  if negb (c =? 37) then ret (NULL, none) else
  let input := input + 1 in
  let* c := ldb input in
  if c =? 37 then ret (input + 1, mkFormat 1 0 0 (Some FORMAT_PERCENT) 0 TYPE_NONE) else
  let* modifiers := read_flags fuel input 0 in
  let* c := ldb input in
  let* '(modifiers, width) := (if c =? 42 then ret (Z.lor modifiers FORMAT_VAR_WIDTH, 0)
                               else let* w := read_number fuel input 0 in ret (modifiers, w)) in
  let* c := ldb input in
  let* '(modifiers, precision, input) :=
    (if c =? 46 then
       let input := input + 1 in
       let* c := ldb input in
       if c =? 42 then ret (Z.lor modifiers FORMAT_VAR_PRECISION, 0, input)
       else let* p := read_number fuel input 0 in ret (modifiers, p, input)
     else ret (modifiers, 0, input)) in
  let* '(ty, input) := read_length input in
  let* c := ldb input in
  let '(modifiers, c) := if (65 <=? c) && (c <=? 90) then (Z.lor modifiers FORMAT_UPPER, c - 65 + 97) else (modifiers, c) in
  match specifier_of c with
  | None => ret (NULL, mkFormat 0 width precision None modifiers ty)
  | Some s => ret (input + 1, mkFormat 0 width precision (Some s) modifiers (if decide (s = FORMAT_STRING) then TYPE_NONE else ty))
  end.

(** ** Formatting an argument

    [va_list] is the list of the arguments that are left, each in a register of 64 bits. *)

Definition va_arg (args : list Z) : outcome (Z * list Z) :=
  match args with
  | a :: args => Done (a, args)
  | [] => Panicked "undefined: no argument left"
  end.

(** The value of the low [w] bits in two's complement. *)
Definition signed (w x : Z) : Z := if decide (wrap w x < 2 ^ (w - 1)) then wrap w x else wrap w x - 2 ^ w.

(** [sval] and [val], read as the type says. *)
Definition load_arg (sign : bool) (ty : arg_type) (args : list Z) : outcome (Z * Z * list Z) :=
  match ty with
  | TYPE_INT => let! '(a, args) := va_arg args in Done (if sign then (signed 32 a, 0) else (0, wrap 32 a), args)
  | TYPE_LONG | TYPE_LONG_LONG | TYPE_INTMAX_T =>
    let! '(a, args) := va_arg args in Done (if sign then (signed 64 a, 0) else (0, wrap 64 a), args)
  | TYPE_SIZE_T => let! '(a, args) := va_arg args in Done ((0, wrap 64 a), args)
  | TYPE_PTRDIFF_T => let! '(a, args) := va_arg args in Done ((signed 64 a, 0), args)
  | TYPE_POINTER => let! '(a, args) := va_arg args in Done ((0, wrap 64 a), args)
  | TYPE_LONG_DOUBLE | TYPE_NONE => Done ((0, 0), args)
  end.

(** The string [(todo)]. *)
Definition todo_text : list Z := [40; 116; 111; 100; 111; 41].

Definition SIZE_MAX : Z := 2 ^ 64 - 1.

Definition std_format (out size : Z) (ty : format_type) (args : list Z) : M Mem (Z * list Z) :=
  fun m =>
    let! '((sval, val), args) := load_arg (bool_decide (spec ty = Some FORMAT_DEC)) (ftype ty) args in
    let keep (f : M Mem Z) : outcome ((Z * list Z) * Mem) := (let* r := f in ret (r, args)) m in
    match spec ty with
    | Some FORMAT_DEC => keep (format_signed_int sval out size 10 (modifiers ty))
    | Some FORMAT_UDEC => keep (format_unsigned_int val out size 10 (modifiers ty))
    | Some FORMAT_OCTAL => keep (format_unsigned_int val out size 8 (modifiers ty))
    | Some FORMAT_HEX => keep (format_unsigned_int val out size 16 (modifiers ty))
    | Some (FORMAT_FLOAT | FORMAT_SCIENCE | FORMAT_FLOAT_OR_SCIENCE | FORMAT_HEX_FLOAT | FORMAT_CHAR) =>
      keep (format_str (Literal todo_text) out size SIZE_MAX)
    | Some FORMAT_STRING =>
      let! '(a, args) := va_arg args in
      (let* r := format_str (Pointer a) out size SIZE_MAX in ret (r, args)) m
    | Some FORMAT_POINTER =>
      keep (let* out := format_str (Literal [48; 120]) out size SIZE_MAX in
            if out =? NULL then ret NULL else format_unsigned_int val out (size - 2) 16 (modifiers ty))
    | Some FORMAT_COUNT => keep (ret out)
    | Some FORMAT_PERCENT => keep (if 0 <? size then stb out 37 ;; ret (out + 1) else ret NULL)
    | None => keep (ret NULL)
    end.

(** ** Digits *)

Fixpoint digits_rev (fuel : nat) (base : Z) (upper : bool) (v : Z) : list Z :=
  match fuel with
  | O => []
  | S fuel => digit_char upper (v mod base) :: (if v / base =? 0 then [] else digits_rev fuel base upper (v / base))
  end.

Definition digits (base : Z) (upper : bool) (v : Z) : list Z := reverse (digits_rev MAX_DIGITS base upper v).

(** The number a text of digits stands for. *)
Definition char_digit (c : Z) : Z := if c <=? 57 then c - 48 else if c <=? 90 then c - 55 else c - 87.
Definition number (base : Z) (l : list Z) : Z := foldl (fun n c => n * base + char_digit c) 0 l.

Lemma char_digit_char upper c : 0 <= c < 16 -> char_digit (digit_char upper c) = c.
Proof. intros Hc. unfold char_digit, digit_char. destruct upper; repeat (case_match; try lia). Qed.

Lemma digit_char_fits upper c : 0 <= c < 16 -> fits 8 (digit_char upper c).
Proof. intros Hc. unfold fits, digit_char. destruct upper; case_match; lia. Qed.

Lemma div_digit base v n : 2 <= base -> 0 <= v < base ^ Z.of_nat (S n) -> 0 <= v / base < base ^ Z.of_nat n.
Proof.
  intros Hb Hv. split; [apply Z.div_pos; lia|]. apply Z.div_lt_upper_bound; [lia|].
  rewrite <-Z.pow_succ_r by lia. rewrite <-Nat2Z.inj_succ. apply Hv.
Qed.

Lemma digits_rev_number base upper : 2 <= base <= 16 -> forall fuel v,
  0 <= v < base ^ Z.of_nat fuel -> number base (reverse (digits_rev fuel base upper v)) = v.
Proof.
  intros Hb. induction fuel as [|fuel IH]; intros v Hv; [cbn in Hv; cbn; lia|]. cbn [digits_rev].
  rewrite reverse_cons. unfold number in *. rewrite foldl_app. cbn [foldl].
  pose proof (Z.mod_pos_bound v base ltac:(lia)). rewrite char_digit_char by lia.
  pose proof (Z.div_mod v base ltac:(lia)). destruct (v / base =? 0) eqn:E.
  - cbn. apply Z.eqb_eq in E. rewrite E in *. lia.
  - rewrite IH; [lia|]. apply div_digit; [lia|done].
Qed.

Lemma max_digits base v : 2 <= base -> fits 64 v -> 0 <= v < base ^ Z.of_nat MAX_DIGITS.
Proof.
  intros Hb Hv. unfold fits in Hv. split; [lia|]. apply Z.lt_le_trans with (2 ^ 64); [lia|].
  change (Z.of_nat MAX_DIGITS) with 64. apply Z.pow_le_mono_l. lia.
Qed.

Lemma digits_number base upper v : 2 <= base <= 16 -> fits 64 v -> number base (digits base upper v) = v.
Proof. intros Hb Hv. apply digits_rev_number; [done|]. apply max_digits; [lia|done]. Qed.

(** The fuel does not matter once it is enough. *)
Lemma digits_rev_fuel base upper : 2 <= base -> forall f1 f2 v,
  0 <= v < base ^ Z.of_nat f1 -> (f1 <= f2)%nat -> (0 < f1)%nat -> digits_rev f2 base upper v = digits_rev f1 base upper v.
Proof.
  intros Hb. induction f1 as [|f1 IH]; intros [|f2] v Hv Hf Hf1; try lia. cbn [digits_rev]. f_equal. destruct (v / base =? 0) eqn:E; [done|].
  pose proof (div_digit base v f1 Hb Hv) as Hd.
  apply IH; [done|lia|]. destruct f1; [cbn in Hd; lia|lia].
Qed.

(** ** Writing numbers *)

Lemma write_digits_spec base upper : 2 <= base <= 16 -> forall fuel v m str size,
  let l := digits_rev fuel base upper v in
  0 <= v < base ^ Z.of_nat fuel -> (0 < fuel)%nat -> 0 <= size -> room m str (Z.min size (zlen l)) ->
  if decide (zlen l <= size)
  then write_digits fuel v str (str + size) base upper m = Done (Some (str + zlen l), put str l m)
  else write_digits fuel v str (str + size) base upper m = Done (None, put str (take (Z.to_nat size) l) m).
Proof.
  intros Hb. induction fuel as [|fuel IH]; intros v m str size l Hv Hf Hs Hr; [lia|]. subst l. cbn [write_digits digits_rev] in *.
  pose proof (Z.mod_pos_bound v base ltac:(lia)) as Hm. rewrite zlen_cons in *. set (c := digit_char upper (v mod base)) in *.
  pose proof (zlen_nonneg (if v / base =? 0 then [] else digits_rev fuel base upper (v / base))) as Hz.
  destruct (str =? str + size) eqn:E0.
  { rewrite decide_False by lia. by replace (Z.to_nat size) with O by lia. }
  apply room_tail in Hr as [Hstr Hr]; [|lia]. rewrite (wrap_small 8 c) by (apply digit_char_fits; lia).
  set (rest := if v / base =? 0 then [] else digits_rev fuel base upper (v / base)) in *.
  assert (room (<[str := c]> m) (str + 1) (Z.min (size - 1) (zlen rest))) as Hr'
    by (change (<[str := c]> m) with (put str [c] m); apply put_room; by replace (Z.min (size - 1) (zlen rest)) with (Z.min size (1 + zlen rest) - 1) by lia).
  subst rest. destruct (v / base =? 0) eqn:E.
  - rewrite zlen_nil, decide_True by lia. by erewrite bind_done by by apply stb_at.
  - pose proof (div_digit base v fuel ltac:(lia) Hv) as Hd.
    specialize (IH (v / base) (<[str := c]> m) (str + 1) (size - 1)). cbn zeta in IH. specialize (IH Hd ltac:(destruct fuel; [cbn in Hd; lia|lia]) ltac:(lia) Hr').
    replace (str + 1 + (size - 1)) with (str + size) in IH by lia. rewrite !put_cons in IH.
    erewrite bind_done by by apply stb_at. case_decide; case_decide; try lia; rewrite IH.
    + by replace (str + 1 + zlen (digits_rev fuel base upper (v / base))) with (str + (1 + zlen (digits_rev fuel base upper (v / base)))) by lia.
    + replace (Z.to_nat size) with (S (Z.to_nat (size - 1))) by lia. done.
Qed.

Lemma ends_cases {A} (l : list A) : (exists x, l = [x]) \/ l = [] \/ exists x l' y, l = x :: l' ++ [y].
Proof.
  destruct l as [|x l]; [by right; left|]. destruct l as [|y l'] using rev_ind; [left; by eexists|]. right. right. by exists x, l', y.
Qed.

(** Swapping the ends and reversing the middle. *)
Lemma put_ends p x y l m : put (p + 1) l (<[p := x]> (<[p + 1 + zlen l := y]> m)) = put p (x :: l ++ [y]) m.
Proof. rewrite put_cons. change (x :: l ++ [y]) with ((x :: l) ++ [y]). rewrite put_app. cbn [put]. rewrite zlen_cons. by rewrite Z.add_assoc. Qed.

Lemma reverse_chars_spec fuel : forall l m p,
  bytes_at m p l -> (length l < fuel)%nat -> reverse_chars fuel p (p + zlen l - 1) m = Done (tt, put p (reverse l) m).
Proof.
  induction fuel as [|fuel IH]; intros l m p Hl Hf; [lia|]. cbn [reverse_chars]. destruct (ends_cases l) as [[x ->]|[->|(x & l' & y & ->)]].
  - replace (p <? p + zlen [x] - 1) with false by (change (zlen [x]) with 1; lia). rewrite reverse_singleton. by rewrite put_self.
  - replace (p <? p + zlen [] - 1) with false by (rewrite zlen_nil; lia). done.
  - rewrite zlen_cons, zlen_app. change (zlen [y]) with 1. pose proof (zlen_nonneg l'). replace (p <? p + (1 + (zlen l' + 1)) - 1) with true by lia.
    apply bytes_at_cons in Hl as [Hx [Hl [Hy _]%bytes_at_cons]%bytes_at_app]. replace (p + (1 + (zlen l' + 1)) - 1) with (p + 1 + zlen l') by lia.
    do 2 (erewrite bind_done by by apply ldb_at). erewrite bind_done by by apply stb_at.
    erewrite bind_done by (apply stb_at; by rewrite lookup_insert_ne by lia). cbn [length] in Hf. rewrite length_app in Hf. cbn in Hf.
    replace (p + 1 + zlen l' - 1) with (p + 1 + zlen l' - 1) by lia. rewrite IH; [| |lia].
    + rewrite reverse_cons, reverse_app, reverse_singleton. cbn [app]. rewrite <-put_ends. unfold zlen. by rewrite length_reverse.
    + intros i c Hi. pose proof (nth_z_Some _ _ _ Hi). rewrite !lookup_insert_ne by lia. by apply Hl.
Qed.

(** [f] writes the text [t] to the buffer of [size] bytes at [str]: it returns the end of the text,
    or [NULL] when the buffer is too small, and changes nothing outside the buffer. *)
Definition writes (f : M Mem Z) (m : Mem) (str size : Z) (t : list Z) : Prop :=
  exists m', f m = Done (if decide (zlen t <= size) then str + zlen t else NULL, m') /\
    (zlen t <= size -> m' = put str t m) /\ (forall a, a < str \/ str + size <= a -> m' !! a = m !! a).

Lemma writes_char (g : M Mem Z) m str size c t :
  0 < size -> is_Some (m !! str) -> writes g (<[str := c]> m) (str + 1) (size - 1) t -> writes (stb str c ;; g) m str size (c :: t).
Proof.
  intros Hs Hm (m' & E & Hput & Hout). exists m'. rewrite zlen_cons. split_and!.
  - erewrite bind_done by by apply stb_at. rewrite E. repeat case_decide; try lia; [|done]. by rewrite Z.add_assoc.
  - intros Ht. rewrite Hput by lia. apply put_cons.
  - intros a Ha. rewrite Hout by lia. apply lookup_insert_ne. lia.
Qed.

Lemma writes_full (t : list Z) m str : 0 < zlen t -> writes (ret NULL) m str 0 t.
Proof. intros Ht. exists m. rewrite decide_False by lia. split_and!; [done|lia|done]. Qed.

Lemma length_digits_rev fuel base upper v : (length (digits_rev fuel base upper v) <= fuel)%nat.
Proof. revert v. induction fuel as [|fuel IH]; intros v; [done|]. cbn [digits_rev length]. case_match; cbn; [lia|]. specialize (IH (v / base)). lia. Qed.

Lemma digits_pos base upper v : 0 < zlen (digits base upper v).
Proof. unfold digits, zlen. rewrite length_reverse. cbn [digits_rev MAX_DIGITS length]. lia. Qed.

(** The sign [format_unsigned_int] puts in front of a number. *)
Definition sign_text (modifiers : Z) : list Z :=
  if has modifiers FORMAT_SIGNED then [43] else if has modifiers FORMAT_SPACE then [32] else [].

Lemma format_unsigned_spec v m str size base mods :
  let text := sign_text mods ++ digits base (has mods FORMAT_UPPER) v in
  2 <= base <= 16 -> fits 64 v -> 0 <= size -> room m str (Z.min size (zlen text)) ->
  writes (format_unsigned_int v str size base mods) m str size text.
Proof.
  intros text Hb Hv Hs Hr. subst text. unfold format_unsigned_int. set (up := has mods FORMAT_UPPER) in *.
  assert (forall m p n, 0 <= n -> str + size = p + n -> room m p (Z.min n (zlen (digits base up v))) ->
    writes (let* r := write_digits (S MAX_DIGITS) v p (str + size) base up in
            match r with None => ret NULL | Some str => reverse_chars (S MAX_DIGITS) p (str - 1) ;; ret str end) m p n (digits base up v)) as Hd.
  { intros m0 p n Hn -> Hr0. pose proof (max_digits base v ltac:(lia) Hv) as Hvm.
    assert (0 <= v < base ^ Z.of_nat (S MAX_DIGITS)) as Hvm' by (rewrite Nat2Z.inj_succ, Z.pow_succ_r by lia; nia).
    pose proof (write_digits_spec base up Hb (S MAX_DIGITS) v m0 p n) as E. cbn zeta in E.
    rewrite (digits_rev_fuel base up ltac:(lia) MAX_DIGITS (S MAX_DIGITS) v Hvm ltac:(lia) ltac:(unfold MAX_DIGITS; lia)) in E.
    set (l := digits_rev MAX_DIGITS base up v) in *. assert (zlen (digits base up v) = zlen l) as Hz by (unfold digits, zlen; by rewrite length_reverse).
    rewrite Hz in Hr0. specialize (E Hvm' ltac:(lia) Hn Hr0).
    destruct (decide (zlen l <= n)) as [Hl|Hl].
    - exists (put p (digits base up v) m0). split_and!; [|done|intros a Ha; apply put_out; lia].
      erewrite bind_done by exact E. cbv beta iota. erewrite bind_done; [|apply (reverse_chars_spec _ l)].
      + rewrite decide_True by lia. rewrite Hz. unfold ret. by rewrite put_put by (unfold zlen; rewrite length_reverse; lia).
      + apply put_bytes_at.
      + pose proof (length_digits_rev MAX_DIGITS base up v). subst l. lia.
    - exists (put p (take (Z.to_nat n) l) m0). split_and!; [|lia|].
      + erewrite bind_done by exact E. by rewrite decide_False by lia.
      + intros a Ha. apply put_out. unfold zlen in *. rewrite length_take. lia. }
  assert (forall c, room m str (Z.min size (zlen (c :: digits base up v))) -> writes (if str =? str + size then ret NULL else stb str c ;;
    let* r := write_digits (S MAX_DIGITS) v (str + 1) (str + size) base up in
    match r with None => ret NULL | Some s => reverse_chars (S MAX_DIGITS) (str + 1) (s - 1) ;; ret s end) m str size (c :: digits base up v)) as Hc.
  { intros c Hrc. rewrite zlen_cons in Hrc. pose proof (digits_pos base up v). destruct (str =? str + size) eqn:E.
    - replace size with 0 by lia. apply writes_full. rewrite zlen_cons. lia.
    - apply room_tail in Hrc as [Hm Hrc]; [|lia]. apply writes_char; [lia|done|]. apply Hd; [lia|lia|].
      change (<[str := c]> m) with (put str [c] m). apply put_room. eapply room_le; [exact Hrc|lia]. }
  unfold sign_text in *. destruct (has mods FORMAT_SIGNED); [by apply Hc|]. destruct (has mods FORMAT_SPACE); [by apply Hc|]. by apply Hd.
Qed.

(** What [format_signed_int] writes: a negative number may get a second sign. *)
Definition signed_text (base mods v : Z) : list Z :=
  let up := has mods FORMAT_UPPER in
  if v <? 0 then 45 :: sign_text mods ++ digits base up (- v)
  else if has mods FORMAT_SIGNED then 43 :: sign_text (Z.ldiff mods FORMAT_SIGNED) ++ digits base up v
  else if has mods FORMAT_SPACE then 32 :: digits base up v
  else digits base up v.

Lemma has_ldiff mods f g : Z.land f g = 0 -> has (Z.ldiff mods f) g = has mods g.
Proof.
  intros H. unfold has. do 2 f_equal. apply Z.bits_inj'. intros n Hn. rewrite !Z.land_spec, Z.ldiff_spec.
  apply (f_equal (fun x => Z.testbit x n)) in H. rewrite Z.land_spec, Z.bits_0 in H. destruct (Z.testbit f n), (Z.testbit g n), (Z.testbit mods n); done.
Qed.

Lemma has_ldiff_same mods f : has (Z.ldiff mods f) f = false.
Proof.
  unfold has. apply negb_false_iff, Z.eqb_eq, Z.bits_inj'. intros n Hn. rewrite Z.land_spec, Z.ldiff_spec, Z.bits_0.
  by destruct (Z.testbit f n), (Z.testbit mods n).
Qed.

Lemma format_signed_spec v m str size base mods :
  2 <= base <= 16 -> - 2 ^ 63 < v < 2 ^ 63 -> 0 <= size -> room m str (Z.min size (zlen (signed_text base mods v))) ->
  writes (format_signed_int v str size base mods) m str size (signed_text base mods v).
Proof.
  intros Hb Hv Hs Hr. unfold format_signed_int, signed_text in *.
  assert (forall c v mods, fits 64 v -> room m str (Z.min size (zlen (c :: sign_text mods ++ digits base (has mods FORMAT_UPPER) v))) -> writes (if 0 <? size then stb str c ;; format_unsigned_int (wrap 64 v) (str + 1) (size - 1) base mods else ret NULL)
    m str size (c :: sign_text mods ++ digits base (has mods FORMAT_UPPER) v)) as Hc.
  { intros c v' mods' Hv' Hrc. rewrite zlen_cons in Hrc. pose proof (zlen_nonneg (sign_text mods' ++ digits base (has mods' FORMAT_UPPER) v')).
    rewrite wrap_small by done. destruct (0 <? size) eqn:E.
    - apply room_tail in Hrc as [Hm Hrc]; [|lia]. apply writes_char; [lia|done|]. apply format_unsigned_spec; [lia|done|lia|].
      change (<[str := c]> m) with (put str [c] m). apply put_room. eapply room_le; [exact Hrc|lia].
    - replace size with 0 by lia. apply writes_full. rewrite zlen_cons. lia. }
  destruct (v <? 0) eqn:E.
  { replace (v =? INTMAX_MIN) with false by (unfold INTMAX_MIN; lia). rewrite andb_false_r. apply Hc; [unfold fits; lia|done]. }
  assert (fits 64 v) as Hf by (unfold fits; lia).
  destruct (has mods FORMAT_SIGNED) eqn:E1.
  { rewrite <-(has_ldiff mods FORMAT_SIGNED FORMAT_UPPER) in * by done. by apply Hc. }
  destruct (has mods FORMAT_SPACE) eqn:E2.
  - rewrite <-(has_ldiff mods FORMAT_SPACE FORMAT_UPPER) in * by done. specialize (Hc 32 v (Z.ldiff mods FORMAT_SPACE) Hf).
    unfold sign_text in Hc. rewrite (has_ldiff mods FORMAT_SPACE FORMAT_SIGNED), E1, has_ldiff_same in Hc by done. by apply Hc.
  - rewrite wrap_small by done. pose proof (format_unsigned_spec v m str size base mods) as H. unfold sign_text in H. rewrite E1, E2 in H. by apply H.
Qed.

(** The number a text with an optional minus sign stands for. *)
Definition signed_number (base : Z) (l : list Z) : Z :=
  match l with
  | c :: l' => if c =? 45 then - number base l' else number base l
  | [] => 0
  end.

Lemma signed_text_number base mods v :
  2 <= base <= 16 -> - 2 ^ 63 < v < 2 ^ 63 -> has mods FORMAT_SIGNED = false -> has mods FORMAT_SPACE = false ->
  signed_number base (signed_text base mods v) = v.
Proof.
  intros Hb Hv H1 H2. unfold signed_text, sign_text. rewrite H1, H2. set (up := has mods FORMAT_UPPER). destruct (v <? 0) eqn:E.
  - cbn [app signed_number]. rewrite Z.eqb_refl, digits_number by (done || unfold fits; lia). lia.
  - assert (Forall (fun c => c <> 45) (digits base up v)) as Hd.
    { apply Forall_reverse. generalize MAX_DIGITS v. intros n. induction n as [|n IH]; intros x; cbn [digits_rev]; constructor.
      - pose proof (Z.mod_pos_bound x base ltac:(lia)). unfold digit_char. destruct up; case_match; lia.
      - case_match; [constructor|apply IH]. }
    pose proof (digits_number base up v Hb ltac:(unfold fits; lia)) as Hn. unfold signed_number. destruct (digits base up v) as [|c l]; [done|].
    apply Forall_cons in Hd as [Hc _]. by rewrite (proj2 (Z.eqb_neq c 45) Hc).
Qed.

(** Numbers are formatted so that they can be read back: without a sign flag, a signed number is
    written in its base with a minus sign when it is negative, the text stands for the number, the
    end of the text is returned, a buffer that is too small gives [NULL], and no byte outside the
    buffer changes. *)
Theorem format_signed_reads_back v m str size base mods :
  2 <= base <= 16 -> - 2 ^ 63 < v < 2 ^ 63 -> 0 <= size -> room m str size ->
  has mods FORMAT_SIGNED = false -> has mods FORMAT_SPACE = false ->
  exists t m', signed_number base t = v /\
    format_signed_int v str size base mods m = Done (if decide (zlen t <= size) then str + zlen t else NULL, m') /\
    (zlen t <= size -> bytes_at m' str t) /\ (forall a, a < str \/ str + size <= a -> m' !! a = m !! a).
Proof.
  intros Hb Hv Hs Hr H1 H2. exists (signed_text base mods v).
  destruct (format_signed_spec v m str size base mods Hb Hv Hs (room_le _ _ _ _ Hr (Z.le_min_l _ _))) as (m' & E & Hput & Hout). exists m'. split_and!; [|done| |done].
  - by apply signed_text_number.
  - intros Ht. rewrite Hput by done. apply put_bytes_at.
Qed.

(** A negative number gets two signs when the flag for a sign is set. *)
Theorem negative_gets_two_signs v m str size :
  - 2 ^ 63 < v < 0 -> 2 + zlen (digits 10 false (- v)) <= size -> room m str size ->
  exists m', format_signed_int v str size 10 FORMAT_SIGNED m = Done (str + 2 + zlen (digits 10 false (- v)), m') /\ bytes_at m' str [45; 43].
Proof.
  intros Hv Hs Hr. pose proof (zlen_nonneg (digits 10 false (- v))).
  destruct (format_signed_spec v m str size 10 FORMAT_SIGNED) as (m' & E & Hput & _); [lia|lia|lia|eapply room_le; [done|lia]|].
  assert (signed_text 10 FORMAT_SIGNED v = [45; 43] ++ digits 10 false (- v)) as Et by (unfold signed_text; by replace (v <? 0) with true by lia).
  rewrite Et, zlen_app in *. change (zlen [45; 43]) with 2 in *. exists m'. split.
  - rewrite E, decide_True by lia. by rewrite Z.add_assoc.
  - rewrite Hput by lia. by destruct (proj1 (bytes_at_app _ _ _ _) (put_bytes_at str ([45; 43] ++ digits 10 false (- v)) m)).
Qed.

(** ** Conversions with flags *)

Lemma read_flags_hangs m input c f : m !! input = Some c -> flag_of c = Some f -> forall fuel mods, read_flags fuel input mods m = OutOfFuel.
Proof.
  intros Hc Hf. induction fuel as [|fuel IH]; intros mods; [done|]. cbn [read_flags]. erewrite bind_done by by apply ldb_at. rewrite Hf. apply IH.
Qed.

Lemma read_number_hangs m input c : m !! input = Some c -> is_digit c = true -> forall fuel n, read_number fuel input n m = OutOfFuel.
Proof.
  intros Hc Hd. induction fuel as [|fuel IH]; intros n; [done|]. cbn [read_number]. erewrite bind_done by by apply ldb_at. rewrite Hd. apply IH.
Qed.

Lemma read_flags_none m input c fuel mods : m !! input = Some c -> flag_of c = None -> read_flags (S fuel) input mods m = Done (mods, m).
Proof. intros Hc Hf. cbn [read_flags]. erewrite bind_done by by apply ldb_at. by rewrite Hf. Qed.

Lemma read_number_none m input c fuel n : m !! input = Some c -> is_digit c = false -> read_number (S fuel) input n m = Done (n, m).
Proof. intros Hc Hf. cbn [read_number]. erewrite bind_done by by apply ldb_at. by rewrite Hf. Qed.

Lemma bind_fuel {S A B} (f : M S A) (k : A -> M S B) s : f s = OutOfFuel -> bind f k s = OutOfFuel.
Proof. unfold bind. by intros ->. Qed.

(** A conversion with a flag or a width is never read to its end: the loops over flags and digits
    look at the same character for ever, whatever fuel they get. *)
Theorem flags_hang m p c :
  m !! p = Some 37 -> m !! (p + 1) = Some c -> is_Some (flag_of c) \/ is_digit c = true ->
  forall fuel, determine_format fuel p m = OutOfFuel.
Proof.
  intros Hp Hc H fuel. unfold determine_format. erewrite bind_done by by apply ldb_at. cbn [Z.eqb negb Pos.eqb].
  assert (c <> 37) as H37 by (intros ->; destruct H as [[? [=]]|[=]]).
  erewrite bind_done by by apply ldb_at. rewrite (proj2 (Z.eqb_neq c 37) H37). destruct (flag_of c) as [f|] eqn:Ef.
  - apply bind_fuel. by eapply read_flags_hangs.
  - destruct H as [[? [=]]|Hd]. destruct fuel as [|fuel]; [done|]. erewrite bind_done by by eapply read_flags_none.
    erewrite bind_done by by apply ldb_at. unfold is_digit in Hd. replace (c =? 42) with false by lia.
    do 2 apply bind_fuel. by eapply read_number_hangs.
Qed.

(** The characters of specifiers are neither flags, digits, points, stars nor lengths. *)
Definition plain_char (c : Z) : Prop :=
  flag_of c = None /\ is_digit c = false /\ ((65 <=? c) && (c <=? 90)) = false /\
  Forall (fun d => (c =? d) = false) [37; 42; 46; 104; 108; 106; 122; 116].

Lemma specifier_plain c s : specifier_of c = Some s -> plain_char c.
Proof.
  intros Hs. assert (Forall plain_char [100; 105; 117; 111; 120; 102; 101; 103; 97; 99; 115; 112; 110]) as Hall by repeat constructor.
  rewrite Forall_forall in Hall. apply Hall. unfold specifier_of in Hs.
  repeat (case_match; [rewrite ?orb_true_iff, ?Z.eqb_eq in *; set_solver|]). done.
Qed.

(** A conversion that is only a specifier is read. *)
Lemma plain_format m p c s fuel :
  m !! p = Some 37 -> m !! (p + 1) = Some c -> specifier_of c = Some s -> (0 < fuel)%nat ->
  determine_format fuel p m = Done (p + 2, mkFormat 0 0 0 (Some s) 0 (if decide (s = FORMAT_STRING) then TYPE_NONE else TYPE_INT), m).
Proof.
  intros Hp Hc Hs Hf. destruct fuel as [|fuel]; [lia|]. destruct (specifier_plain c s Hs) as (Hfl & Hd & Hup & Hne).
  rewrite !Forall_cons in Hne. destruct Hne as (H37 & H42 & H46 & H104 & H108 & H106 & H122 & H116 & _).
  unfold determine_format. erewrite bind_done by by apply ldb_at. cbn [Z.eqb negb Pos.eqb]. erewrite bind_done by by apply ldb_at. rewrite H37.
  erewrite bind_done by by eapply read_flags_none. erewrite bind_done by by apply ldb_at. rewrite H42.
  erewrite bind_done by (erewrite bind_done by (by eapply read_number_none); done). cbv beta iota.
  erewrite bind_done by by apply ldb_at. rewrite H46. erewrite bind_done by done. cbv beta iota.
  erewrite bind_done by (unfold read_length; erewrite bind_done by (by apply ldb_at); rewrite H104, H108, H106, H122, H116; done). cbv beta iota.
  erewrite bind_done by by apply ldb_at. rewrite Hup, Hs. unfold ret. by replace (p + 1 + 1) with (p + 2) by lia.
Qed.

(** ** Conversions that lose the argument *)

(** [%p] reads its argument as an [int]: only the low 32 bits of a pointer are printed. *)
Theorem pointer_truncated m p a b args str size fuel :
  m !! p = Some 37 -> m !! (p + 1) = Some 112 -> (0 < fuel)%nat -> 0 < str -> 18 <= size -> room m str size -> wrap 32 a = wrap 32 b ->
  exists ty, determine_format fuel p m = Done (p + 2, ty, m) /\ std_format str size ty (a :: args) m = std_format str size ty (b :: args) m.
Proof.
  intros Hp Hc Hf Hstr Hsz Hr Hab. eexists. split; [by apply (plain_format m p 112 FORMAT_POINTER)|].
  rewrite decide_False by done. unfold std_format. cbn. by rewrite Hab.
Qed.

(** [%zd] prints zero, whatever its argument is: a [size_t] is only loaded as an unsigned number. *)
Theorem signed_size_prints_zero m str size a b args :
  std_format str size (mkFormat 0 0 0 (Some FORMAT_DEC) 0 TYPE_SIZE_T) (a :: args) m =
  std_format str size (mkFormat 0 0 0 (Some FORMAT_DEC) 0 TYPE_SIZE_T) (b :: args) m.
Proof. done. Qed.

(** ** Witnesses *)

(** Thirty-two mapped bytes at 4096. *)
Definition buffer : Mem := put 4096 (replicate 32 0) ∅.

Lemma buffer_room : room buffer 4096 32.
Proof. apply (bytes_at_room buffer 4096 (replicate 32 0)), put_bytes_at. Qed.

Lemma format_signed_reads_back_witness :
  exists t m', signed_number 10 t = -1234 /\
    format_signed_int (-1234) 4096 32 10 0 buffer = Done (4101, m') /\ bytes_at m' 4096 t.
Proof.
  destruct (format_signed_reads_back (-1234) buffer 4096 32 10 0) as (t & m' & Ht & E & Hb & _).
  - lia.
  - lia.
  - lia.
  - exact buffer_room.
  - by vm_compute.
  - by vm_compute.
  - assert (match format_signed_int (-1234) 4096 32 10 0 buffer with Done (r, _) => r = 4101 | _ => False end) as H by by vm_compute.
    rewrite E in H. exists t, m'. split; [exact Ht|]. rewrite E, H. split; [done|]. apply Hb.
    destruct (decide (zlen t <= 32)); [done|]. by vm_compute in H.
Defined.
