(* ===== verification/Minish.v ===== *)
(** * The shell

    src/services/init/minish/src/main.c, on the string functions of the C library: editing the
    input line, splitting it into words with [strtok], and choosing the command by its name.
    What the commands print goes through the standard output of CStdio.

    The theorems: a line is split into exactly its words, each of which stays in place as a string;
    the editor keeps the line as typed, with deleted characters removed, except that a deletion at
    the start of the line loses the rest of the input. *)

From S2P Require Import Prelude CMem CString.

(** ** Words *)

(** [for (;;) { s = strtok(line, ARG_SEPARATORS); line = NULL; ... }] *)
Fixpoint next_cmd (fuel : nat) (line sep : Z) : M (Mem * Z) Z :=
  match fuel with
  | O => fun _ => OutOfFuel
  | S fuel =>
    let* s := strtok line sep in
    if s =? NULL then ret NULL else
    let* c := on_fst (ldb s) in
    if negb (c =? 0) then ret s else next_cmd fuel NULL sep
  end.

Fixpoint next_arg (fuel : nat) (sep : Z) : M (Mem * Z) Z :=
  match fuel with
  | O => fun _ => OutOfFuel
  | S fuel =>
    let* s := strtok NULL sep in
    if s =? NULL then ret NULL else
    let* c := on_fst (ldb s) in
    if negb (c =? 0) then ret s else next_arg fuel sep
  end.

(** The loop of [echo] and [write]: every argument until there are no more. *)
Fixpoint rest_args (fuel : nat) (sep : Z) : M (Mem * Z) (list Z) :=
  match fuel with
  | O => fun _ => OutOfFuel
  | S fuel =>
    let* s := next_arg (S fuel) sep in
    if s =? NULL then ret [] else let* l := rest_args fuel sep in ret (s :: l)
  end.

(** The command and its arguments. *)
Definition split_line (fuel : nat) (line sep : Z) : M (Mem * Z) (list Z) :=
  let* s := next_cmd (S fuel) line sep in
  if s =? NULL then ret [] else let* l := rest_args fuel sep in ret (s :: l).

(** ** The editor *)

(** Moves the string at [r] to [w], with its end. *)
Fixpoint shift_left (fuel : nat) (w r : Z) : M Mem unit :=
  match fuel with
  | O => fun _ => OutOfFuel
  | S fuel =>
    let* c := ldb r in
    if c =? 0 then stb w 0 else
    stb w c ;;
    shift_left fuel (w + 1) (r + 1)
  end.

(** What happens after the characters of the input: a whole line, or more input at [ptr]. *)
Inductive edited : Type :=
| ParseInput
| MoreInput (ptr : Z).

(** [for (char *p = in; *p != '\0'; p++)] *)
Fixpoint edit_loop (fuel : nat) (in_ p ptr : Z) : M Mem edited :=
  match fuel with
  | O => fun _ => OutOfFuel
  | S fuel =>
    let* c := ldb p in
    if c =? 0 then ret (MoreInput ptr) else
    if c =? 10 then stb p 0 ;; ret ParseInput else
    if (c =? 8) || (c =? 127) then
      let* p := (if p =? in_ then stb p 0 ;; ret p
                 else bounded (fun fuel => shift_left fuel (p - 1) (p + 1)) ;; ret (p - 1)) in
      let p := p - 1 in
      edit_loop fuel in_ (p + 1) (p + 1)
    else edit_loop fuel in_ (p + 1) (p + 1)
  end.

Definition edit (in_ ptr : Z) : M Mem edited := bounded (fun fuel => edit_loop fuel in_ in_ ptr).

(** ** Commands *)

Inductive command : Type := Echo | Help | List | Read | Write.

(** The chain of comparisons with the names of the commands. *)
Fixpoint dispatch (names : list (Z * command)) (cmd : Z) : M Mem (option command) :=
  match names with
  | [] => ret None
  | (name, c) :: names =>
    let* r := strcmp cmd name in
    if r =? 0 then ret (Some c) else dispatch names cmd
  end.

(** ** The words of a line *)

(** The text between separators. *)
Fixpoint tokens (ds l : list Z) : list (list Z) :=
  match l with
  | [] => [[]]
  | x :: l =>
    if decide (x ∈ ds) then [] :: tokens ds l else
    match tokens ds l with t :: ts => (x :: t) :: ts | [] => [] end
  end.

Definition words (ds l : list Z) : list (list Z) := filter (.≠ []) (tokens ds l).

Lemma tokens_none ds l : list_find (.∈ ds) l = None -> tokens ds l = [l].
Proof.
  induction l as [|x l IH]; [done|]. intros H. cbn [list_find] in H. cbn [tokens]. case_decide; [done|].
  destruct (list_find (.∈ ds) l) as [[]|] eqn:E; [done|]. by rewrite IH.
Qed.

Lemma tokens_some ds l : forall i x, list_find (.∈ ds) l = Some (i, x) ->
  tokens ds l = take i l :: tokens ds (drop (S i) l).
Proof.
  induction l as [|y l IH]; intros i x H; [done|]. cbn [list_find] in H. cbn [tokens]. case_decide.
  - by injection H as <- <-.
  - destruct (list_find (.∈ ds) l) as [[j z]|] eqn:E; [|done]. injection H as <- <-. by rewrite (IH j z).
Qed.

Lemma words_none ds l : list_find (.∈ ds) l = None -> words ds l = if decide (l = []) then [] else [l].
Proof. intros H. unfold words. rewrite tokens_none by done. cbn. unfold filter. cbn. repeat case_decide; naive_solver. Qed.

Lemma words_some ds l i x : list_find (.∈ ds) l = Some (i, x) ->
  words ds l = (if decide (take i l = []) then [] else [take i l]) ++ words ds (drop (S i) l).
Proof.
  intros H. unfold words. rewrite (tokens_some _ _ _ _ H). rewrite filter_cons. repeat case_decide; naive_solver.
Qed.

Lemma cstr_at_put m p l a x : cstr_at m p l -> a < p \/ p + zlen l < a -> cstr_at (<[a := x]> m) p l.
Proof.
  intros [H H0] Ha. split; [|done]. change (<[a := x]> m) with (put a [x] m). apply bytes_at_put; [done|].
  rewrite zlen_app. change (zlen [0]) with 1. change (zlen [x]) with 1. lia.
Qed.

(** Cutting a string in two at one of its characters. *)
Lemma cut_string m p l1 x l2 : cstr_at m p (l1 ++ x :: l2) ->
  cstr_at (<[p + zlen l1 := 0]> m) p l1 /\ cstr_at (<[p + zlen l1 := 0]> m) (p + zlen l1 + 1) l2.
Proof.
  intros [H H0]. rewrite <-app_assoc in H. apply bytes_at_app in H as [H1 H2]. cbn [app] in H2. apply bytes_at_cons in H2 as [_ H2].
  rewrite not_elem_of_app, not_elem_of_cons in H0. pose proof (zlen_nonneg l1). split.
  - split; [|tauto]. apply bytes_at_app. split.
    + change (<[p + zlen l1 := 0]> m) with (put (p + zlen l1) [0] m). apply bytes_at_put; [done|lia].
    + apply bytes_at_cons. split; [by apply lookup_insert_eq|apply bytes_at_nil].
  - apply cstr_at_put; [|lia]. split; [done|tauto].
Qed.

(** The words that are still to come: [prev] is where the tokenizer goes on, before [hi]. *)
Definition pending (ds : list Z) (m : Mem) (prev hi : Z) (n : nat) (ws : list (list Z)) : Prop :=
  (prev = NULL /\ ws = []) \/
  (0 < prev /\ exists l, cstr_at m prev l /\ prev + zlen l < hi /\ (length l < n)%nat /\ ws = words ds l).

(** The result [s] of looking for a word: the first of [ws], or [NULL]. *)
Definition found (m : Mem) (prev s : Z) (ws : list (list Z)) : Prop :=
  match ws with
  | [] => s = NULL
  | w :: _ => 0 < s /\ cstr_at m s w /\ (prev = NULL \/ s + zlen w < prev)
  end.

Lemma next_arg_spec ds sep hi fuel : forall m prev n ws,
  pending ds m prev hi n ws -> cstr_at m sep ds -> prev = NULL \/ sep + zlen ds < prev \/ hi <= sep -> (n <= fuel)%nat -> (0 < fuel)%nat ->
  exists s m' prev', next_arg fuel sep (m, prev) = Done (s, (m', prev')) /\ found m' prev' s ws /\
    pending ds m' prev' hi (pred n) (tail ws) /\ (prev' = NULL \/ prev < prev') /\
    (forall a, prev = NULL \/ a < prev \/ hi <= a -> m' !! a = m !! a).
Proof.
  induction fuel as [|fuel IH]; intros m prev n ws Hp Hsep Hd Hn Hf; [lia|]. cbn [next_arg].
  destruct Hp as [[-> ->]|(Hprev & l & Hl & Hhi & Hn' & ->)].
  { exists NULL, m, NULL. erewrite bind_done by done. split_and!; (done || by left). }
  assert (strtok NULL sep (m, prev) = Done (strtok_result ds l prev prev m)) as Es by (apply (strtok_spec m prev NULL); cbn; [lia|done|done]).
  unfold strtok_result in Es. destruct (list_find (.∈ ds) l) as [[i x]|] eqn:E; erewrite bind_done by exact Es.
  - rewrite (words_some ds l i x E). pose proof E as (Hi & _ & _)%list_find_Some. pose proof (lookup_lt_Some _ _ _ Hi) as Hlt.
    pose proof (take_drop_middle l i x Hi) as El. assert (zlen (take i l) = Z.of_nat i) as Ei by (unfold zlen; rewrite length_take; lia).
    assert (zlen l = Z.of_nat i + 1 + zlen (drop (S i) l)) as Ed by (unfold zlen; rewrite length_drop; lia). pose proof (zlen_nonneg (drop (S i) l)).
    rewrite <-El in Hl. apply cut_string in Hl as [H1 H2]. rewrite Ei in H1, H2. set (m1 := <[prev + Z.of_nat i := 0]> m) in *.
    assert (cstr_at m1 sep ds) as Hsep1 by (apply cstr_at_put; [done|lia]). rewrite (proj2 (Z.eqb_neq prev NULL)) by lia.
    assert (forall k, (length l <= k)%nat -> pending ds m1 (prev + Z.of_nat i + 1) hi k (words ds (drop (S i) l))) as Hpend.
    { intros k Hk. right. split; [lia|]. exists (drop (S i) l). split_and!; [done|lia| |done]. rewrite length_drop. lia. }
    assert (forall a, a < prev \/ hi <= a -> m1 !! a = m !! a) as Hm1 by (intros a Ha; apply lookup_insert_ne; lia).
    destruct (decide (take i l = [])) as [Et|Et].
    + rewrite Et in H1. apply cstr_at_nil in H1. erewrite bind_done by by apply on_fst_done, ldb_at. cbn [negb Z.eqb app].
      destruct (IH m1 (prev + Z.of_nat i + 1) (pred n) (words ds (drop (S i) l))) as (s & m' & prev' & -> & Hs & Hp' & Hgt & Hout);
        [apply Hpend; lia|done|lia|lia|lia|].
      exists s, m', prev'. split_and!; [done|done| |lia|].
      * destruct Hp' as [?|(? & l' & ? & ? & ? & ?)]; [by left|]. right. split; [done|]. exists l'. split_and!; (done || lia).
      * intros a Ha. rewrite Hout by lia. apply Hm1. lia.
    + destruct (take i l) as [|c t] eqn:Et'; [done|]. apply cstr_at_cons in H1 as (Hc & Hpc & H1').
      erewrite bind_done by by apply on_fst_done, ldb_at. rewrite (proj2 (Z.eqb_neq c 0) Hc). cbn [negb app tail].
      exists prev, m1, (prev + Z.of_nat i + 1). split_and!; [done| |apply Hpend; lia|lia|intros a Ha; apply Hm1; lia].
      cbn. split_and!; [lia|by apply cstr_at_cons|lia].
  - rewrite words_none by done. destruct l as [|c l].
    + rewrite zlen_nil, Z.add_0_r, Z.eqb_refl. cbn [Z.eqb]. exists NULL, m, NULL. split_and!; (done || by left).
    + rewrite zlen_cons. pose proof (zlen_nonneg l). rewrite (proj2 (Z.eqb_neq (prev + (1 + zlen l)) prev)), (proj2 (Z.eqb_neq prev NULL)) by lia.
      pose proof Hl as (Hc & Hpc & _)%cstr_at_cons. erewrite bind_done by by apply on_fst_done, ldb_at. rewrite (proj2 (Z.eqb_neq c 0) Hc).
      cbn [negb]. rewrite decide_False by done. exists prev, m, NULL. split_and!; [done| |by left|by left|done]. cbn. split_and!; [lia|done|by left].
Qed.

Lemma next_cmd_null fuel sep st : next_cmd fuel NULL sep st = next_arg fuel sep st.
Proof.
  revert st. induction fuel as [|fuel IH]; intros st; [done|]. cbn [next_cmd next_arg]. unfold bind. destruct (strtok NULL sep st) as [[s st1]| |]; [|done..].
  destruct (s =? NULL); [done|]. destruct (on_fst (ldb s) st1) as [[c st2]| |]; [|done..]. destruct (negb (c =? 0)); [done|]. apply IH.
Qed.

Lemma strtok_loop_prev fuel delim str m prev prev' : forall p,
  strtok_loop fuel str p delim (m, prev) = strtok_loop fuel str p delim (m, prev').
Proof.
  revert m. induction fuel as [|fuel IH]; intros m p; [done|]. cbn [strtok_loop]. unfold bind, on_fst. cbn [fst snd].
  destruct (ldb p m) as [[x m1]| |]; [|done..]. cbn [fst snd]. destruct (x =? 0); [done|]. cbn [fst snd].
  destruct (bounded _ m1) as [[[] m2]| |]; cbn [fst snd]; [|apply IH|done..]. by destruct (stb p 0 m2) as [[u m3]| |].
Qed.

(** The first word is found as if the tokenizer had stopped at the start of the line. *)
Lemma next_cmd_line fuel line sep m prev : line <> NULL -> next_cmd fuel line sep (m, prev) = next_arg fuel sep (m, line).
Proof.
  intros Hl. destruct fuel as [|fuel]; [done|]. cbn [next_cmd next_arg].
  assert (strtok line sep (m, prev) = strtok NULL sep (m, line)) as E.
  { unfold strtok. cbn [fst snd]. rewrite Z.eqb_refl, !(proj2 (Z.eqb_neq line NULL) Hl). apply strtok_loop_prev. }
  unfold bind. rewrite E. destruct (strtok NULL sep (m, line)) as [[s st1]| |]; [|done..]. destruct (s =? NULL); [done|].
  destruct (on_fst (ldb s) st1) as [[c st2]| |]; [|done..]. destruct (negb (c =? 0)); [done|]. apply next_cmd_null.
Qed.

Lemma cstr_at_same m m' p l : cstr_at m p l -> (forall a, p <= a <= p + zlen l -> m' !! a = m !! a) -> cstr_at m' p l.
Proof.
  intros [H H0] Hm. split; [|done]. intros i x Hi. pose proof (nth_z_Some _ _ _ Hi) as Hb. rewrite zlen_app in Hb. change (zlen [0]) with 1 in Hb.
  rewrite Hm by lia. by apply H.
Qed.

Lemma rest_args_spec ds sep hi fuel : forall m prev ws,
  pending ds m prev hi fuel ws -> cstr_at m sep ds -> prev = NULL \/ sep + zlen ds < prev \/ hi <= sep -> (0 < fuel)%nat ->
  exists ps m' prev', rest_args fuel sep (m, prev) = Done (ps, (m', prev')) /\ Forall2 (cstr_at m') ps ws /\
    (forall a, prev = NULL \/ a < prev \/ hi <= a -> m' !! a = m !! a).
Proof.
  induction fuel as [|fuel IH]; intros m prev ws Hp Hsep Hd Hf; [lia|]. cbn [rest_args].
  destruct (next_arg_spec ds sep hi (S fuel) m prev (S fuel) ws Hp Hsep Hd ltac:(lia) Hf) as (s & m1 & prev1 & E & Hs & Hp1 & Hgt & Hout).
  erewrite bind_done by exact E. destruct ws as [|w ws]; cbn [found tail pred] in *.
  { rewrite Hs. exists [], m1, prev1. split_and!; [done|constructor|done]. }
  destruct Hs as (Hs0 & Hw & Hlt). rewrite (proj2 (Z.eqb_neq s NULL)) by lia.
  assert (prev <> NULL) as Hprev by (destruct Hp as [[_ [=]]|[? _]]; lia).
  assert (cstr_at m1 sep ds) as Hsep1.
  { eapply cstr_at_same; [done|]. intros a Ha. apply Hout. lia. }
  assert (0 < fuel)%nat as Hf1.
  { destruct Hp as [[_ [=]]|(_ & l & _ & _ & Hn & Hws)]. destruct l; [done|cbn in Hn; lia]. }
  destruct (IH m1 prev1 ws Hp1 Hsep1) as (ps & m' & prev' & E' & Hps & Hout'); [lia|done|].
  erewrite bind_done by exact E'. exists (s :: ps), m', prev'. split_and!; [done| |].
  - constructor; [|done]. eapply cstr_at_same; [done|]. intros a Ha. apply Hout'. lia.
  - intros a Ha. rewrite Hout', Hout; [done|lia|]. lia.
Qed.

(** The shell splits a line into its words: the command and the arguments it finds are, in order,
    the longest pieces of the line without separators, each of which is left in memory as a string,
    and no byte outside the line changes. *)
Theorem line_split_into_words ds sep m prev line l fuel :
  0 < line -> cstr_at m line l -> cstr_at m sep ds -> sep + zlen ds < line \/ line + zlen l < sep -> (length l < fuel)%nat ->
  exists ps m' prev', split_line fuel line sep (m, prev) = Done (ps, (m', prev')) /\
    Forall2 (cstr_at m') ps (words ds l) /\ (forall a, a < line \/ line + zlen l < a -> m' !! a = m !! a).
Proof.
  intros Hl0 Hl Hsep Hd Hf. assert (split_line fuel line sep (m, prev) = rest_args (S fuel) sep (m, line)) as ->.
  { unfold split_line. cbn [rest_args]. unfold bind at 1 3. by rewrite next_cmd_line by lia. }
  destruct (rest_args_spec ds sep (line + zlen l + 1) (S fuel) m line (words ds l)) as (ps & m' & prev' & E & Hps & Hout); [|done|lia|lia|].
  - right. split; [done|]. exists l. split_and!; (done || lia).
  - exists ps, m', prev'. split_and!; [done..|]. intros a Ha. apply Hout. lia.
Qed.

(** ** Editing *)

Definition is_delete (c : Z) : bool := (c =? 8) || (c =? 127).

(** What is left of the line [out ++ l] when the cursor is behind [out], and whether it is complete. *)
Fixpoint edit_text (out l : list Z) : list Z * bool :=
  match l with
  | [] => (out, false)
  | c :: l =>
    if c =? 10 then (out, true)
    else if is_delete c then if decide (out = []) then ([], false) else edit_text (removelast out) l
    else edit_text (out ++ [c]) l
  end.

Lemma shift_left_spec l : forall fuel m w r,
  cstr_at m r l -> room m w (zlen l + 1) -> w < r -> (length l < fuel)%nat -> shift_left fuel w r m = Done (tt, put w (l ++ [0]) m).
Proof.
  induction l as [|x l IH]; intros [|fuel] m w r Hr Hm Hw Hf; cbn [length] in Hf; try lia; cbn [shift_left].
  - apply cstr_at_nil in Hr. erewrite bind_done by by apply ldb_at. cbn [Z.eqb]. rewrite stb_at; [done|]. rewrite <-(Z.add_0_r w). apply Hm. unfold zlen. cbn. lia.
  - apply cstr_at_cons in Hr as (Hx & Hrx & Hr). rewrite zlen_cons in Hm. pose proof (zlen_nonneg l). apply room_tail in Hm as [Hw0 Hm]; [|lia].
    erewrite bind_done by by apply ldb_at. rewrite (proj2 (Z.eqb_neq x 0) Hx). erewrite bind_done by by apply stb_at.
    rewrite IH; [cbn [app]; by rewrite put_cons|apply cstr_at_put; [done|lia]| |lia|lia].
    replace (1 + zlen l + 1 - 1) with (zlen l + 1) in Hm by lia. change (<[w := x]> m) with (put w [x] m). by apply put_room.
Qed.

Lemma cstr_at_app m p l1 l2 : cstr_at m p (l1 ++ l2) <-> bytes_at m p l1 /\ (0 ∉ l1) /\ cstr_at m (p + zlen l1) l2.
Proof. unfold cstr_at. rewrite <-app_assoc, bytes_at_app, not_elem_of_app. tauto. Qed.

(** Deleting the character before the cursor. *)
Lemma delete_back m p out y c l :
  cstr_at m p (out ++ [y; c] ++ l) ->
  exists m', bounded (fun fuel => shift_left fuel (p + zlen out) (p + zlen out + 2)) m = Done (tt, m') /\ cstr_at m' p (out ++ l) /\
    (forall a, a < p \/ p + zlen out + zlen l + 2 < a -> m' !! a = m !! a).
Proof.
  intros H. pose proof (bytes_at_room _ _ _ (proj1 H)) as Hroom. rewrite !zlen_app in Hroom. change (zlen [0]) with 1 in Hroom. change (zlen [y; c]) with 2 in Hroom.
  pose proof (zlen_nonneg out). pose proof (zlen_nonneg l). apply cstr_at_app in H as (Hout & Hz0 & H). apply cstr_at_app in H as (_ & _ & H). change (zlen [y; c]) with 2 in H.
  exists (put (p + zlen out) (l ++ [0]) m). split_and!.
  - unfold bounded. apply shift_left_spec; [done| |lia|apply cstr_at_size in H; lia]. intros i Hi. rewrite <-Z.add_assoc. apply Hroom. lia.
  - apply cstr_at_app. split_and!; [apply bytes_at_put; [done|lia]|done|]. split; [apply put_bytes_at|apply H].
  - intros a Ha. apply put_out. rewrite zlen_app. change (zlen [0]) with 1. lia.
Qed.

Lemma edit_loop_spec l : forall fuel in_ ptr out m,
  cstr_at m in_ (out ++ l) -> (length l < fuel)%nat ->
  exists m', edit_loop fuel in_ (in_ + zlen out) ptr m =
      Done (if (edit_text out l).2 then ParseInput else MoreInput (if decide (l = []) then ptr else in_ + zlen (edit_text out l).1), m') /\
    cstr_at m' in_ (edit_text out l).1 /\ (forall a, a < in_ \/ in_ + zlen out + zlen l < a -> m' !! a = m !! a).
Proof.
  induction l as [|c l IH]; intros [|fuel] in_ ptr out m H Hf; cbn [length] in Hf; try lia; cbn [edit_loop].
  { rewrite app_nil_r in H. exists m. pose proof H as H'. rewrite <-(app_nil_r out) in H'. apply cstr_at_app in H' as (_ & _ & Hz%cstr_at_nil).
    erewrite bind_done by by apply ldb_at. by split_and!. }
  pose proof H as (Hout & Hz0 & Hl)%cstr_at_app. apply cstr_at_cons in Hl as (Hc & Hpc & Hl). rewrite zlen_cons. pose proof (zlen_nonneg l). pose proof (zlen_nonneg out).
  erewrite bind_done by by apply ldb_at. rewrite (proj2 (Z.eqb_neq c 0) Hc). cbn [edit_text]. rewrite (decide_False (P := c :: l = [])) by done. destruct (c =? 10) eqn:E10.
  { erewrite bind_done by by apply stb_at. exists (<[in_ + zlen out := 0]> m). apply cut_string in H as [H _]. split_and!; [done..|]. intros a Ha. apply lookup_insert_ne. lia. }
  fold (is_delete c). destruct (is_delete c) eqn:Ed.
  - destruct (decide (out = [])) as [->|Hne].
    + rewrite Z.add_0_r in *. rewrite Z.eqb_refl. erewrite bind_done by (erewrite bind_done by (by apply stb_at); done). cbv beta zeta.
      replace (in_ - 1 + 1) with in_ by lia. exists (<[in_ := 0]> m). split_and!; [|by apply cstr_at_nil, lookup_insert_eq|intros a Ha; apply lookup_insert_ne; lia].
      destruct fuel as [|fuel]; [lia|]. cbn [edit_loop]. erewrite bind_done by by apply ldb_at, lookup_insert_eq.
      cbn. unfold ret. by rewrite Z.add_0_r.
    + destruct (exists_last Hne) as (out0 & y & ->). rewrite removelast_last, zlen_app in *. change (zlen [y]) with 1 in *. pose proof (zlen_nonneg out0).
      rewrite (proj2 (Z.eqb_neq (in_ + (zlen out0 + 1)) in_)) by lia. rewrite <-app_assoc in H.
      destruct (delete_back m in_ out0 y c l H) as (m1 & E1 & Hm1 & Hout1).
      replace (in_ + (zlen out0 + 1) - 1) with (in_ + zlen out0) by lia. replace (in_ + (zlen out0 + 1) + 1) with (in_ + zlen out0 + 2) by lia.
      erewrite bind_done by (erewrite bind_done by exact E1; done). cbv beta zeta. replace (in_ + zlen out0 - 1 + 1) with (in_ + zlen out0) by lia.
      destruct (IH fuel in_ (in_ + zlen out0) out0 m1 Hm1 ltac:(lia)) as (m' & E' & H' & Hout').
      exists m'. split_and!; [|done|intros a Ha; rewrite Hout', Hout1 by lia; done].
      rewrite E'. destruct (decide (l = [])) as [->|]; [|done]. done.
  - change (out ++ c :: l) with (out ++ [c] ++ l) in H. rewrite app_assoc in H. destruct (IH fuel in_ (in_ + zlen (out ++ [c])) (out ++ [c]) m H ltac:(lia)) as (m' & E' & H' & Hout').
    rewrite zlen_app in *. change (zlen [c]) with 1 in *. exists m'. split_and!; [|done|intros a Ha; apply Hout'; lia].
    replace (in_ + zlen out + 1) with (in_ + (zlen out + 1)) by lia. rewrite E'. destruct (decide (l = [])) as [->|]; [|done]. cbn. by rewrite zlen_app.
Qed.

(** The editor keeps the line as typed: characters that were deleted are removed, a newline completes
    the line, and otherwise input goes on behind the text. *)
Theorem line_edited m in_ ptr l :
  cstr_at m in_ l -> l <> [] ->
  exists m', edit in_ ptr m = Done (if (edit_text [] l).2 then ParseInput else MoreInput (in_ + zlen (edit_text [] l).1), m') /\
    cstr_at m' in_ (edit_text [] l).1 /\ (forall a, a < in_ \/ in_ + zlen l < a -> m' !! a = m !! a).
Proof.
  intros H Hl. destruct (edit_loop_spec l (S (size m)) in_ ptr [] m H) as (m' & E & H' & Hout); [apply cstr_at_size in H; lia|].
  rewrite zlen_nil, Z.add_0_r in *. rewrite decide_False in E by done. by exists m'.
Qed.

(** A deletion at the start of the line loses what follows it. *)
Theorem delete_at_start_loses_rest c l : is_delete c = true -> (edit_text [] (c :: l)).1 = [].
Proof. intros H. cbn [edit_text]. rewrite H. destruct (c =? 10); [done|]. done. Qed.

(** ** Choosing a command *)

(** The command whose name is the given word. *)
Definition named (names : list (list Z * command)) (w : list Z) : option command :=
  snd <$> (snd <$> list_find (fun nc => nc.1 = w) names).

(** The command is the one with the name that was typed, and none when there is no such name. *)
Theorem dispatch_finds m cmd w names texts :
  cstr_at m cmd w -> Forall2 (fun nc tc => cstr_at m nc.1 tc.1 /\ Forall (Z.lt 0) tc.1 /\ nc.2 = tc.2) names texts ->
  Forall (Z.lt 0) w -> zlen w < 2 ^ 64 - 1 -> dispatch names cmd m = Done (named texts w, m).
Proof.
  intros Hcmd Hn Hw Hl. unfold named. induction Hn as [|[p c] [l c'] names texts (Hp & Hpos & Hc) Hn IH]; [done|]. cbn in Hc, Hp, Hpos. subst c'.
  cbn [dispatch]. erewrite bind_done by by apply (strcmp_spec m cmd p w l). cbn [list_find].
  pose proof (str_difference_zero w l Hw Hpos) as Hz. case_decide as Hd; cbn in Hd.
  - rewrite (proj2 Hz) by done. done.
  - rewrite (proj2 (Z.eqb_neq (str_difference w l) 0)) by naive_solver. rewrite IH. by destruct (list_find _ texts) as [[]|].
Qed.

(** ** Witnesses *)

(** The line [ a  bc] at 64 and the separators at 16. *)
Definition shell_mem : Mem := put 16 [32; 9; 0] (put 64 [32; 97; 32; 32; 98; 99; 0] ∅).

Lemma line_split_into_words_witness :
  exists ps st, split_line 8 64 16 (shell_mem, NULL) = Done (ps, st) /\ Forall2 (cstr_at st.1) ps [[97]; [98; 99]].
Proof.
  destruct (line_split_into_words [32; 9] 16 shell_mem NULL 64 [32; 97; 32; 32; 98; 99] 8) as (ps & m' & prev' & E & Hps & _).
  - lia.
  - split; [|by apply (bool_decide_unpack _)]. apply bytes_at_put; [apply put_bytes_at|by left].
  - split; [apply put_bytes_at|by apply (bool_decide_unpack _)].
  - by left.
  - cbn. lia.
  - exists ps, (m', prev'). split; [exact E|]. clear E. assert (words [32; 9] [32; 97; 32; 32; 98; 99] = [[97]; [98; 99]]) as Ew by by vm_compute.
    rewrite Ew in Hps. exact Hps.
Defined.
