(* ===== verification/FatIo.v ===== *)
(** * Disk access of the FAT driver

    src/services/driver/fat/src/io.rs: [GlobalIO] gives the file system a position on the disk and a
    buffer of one page, which it reads from and writes to the block driver.

    The theorems: reading gives the bytes of the disk; what is written inside a page is on the disk
    after a flush; but a flush with the position in another page writes the buffer to that page,
    so that a write that reaches the end of a page is lost and damages the next one. *)

From S2P Require Import Prelude Page.

(** ** The block driver

    The driver takes requests with the number of a page of the disk and reads it to, or writes it
    from, the page that comes with the request. *)

Class BlockDriver (D : Type) : Type := {
  read_page : D -> Z -> list Z;
  write_page : D -> Z -> list Z -> D;
  page_len : forall d n, length (read_page d n) = Z.to_nat PAGE_SIZE;
  read_write_eq : forall d n l, length l = Z.to_nat PAGE_SIZE -> read_page (write_page d n l) n = l;
  read_write_ne : forall d n k l, length l = Z.to_nat PAGE_SIZE -> n <> k -> read_page (write_page d n l) k = read_page d k
}.

Section io.
Context {D : Type} `{BlockDriver D}.

Record GlobalIO : Type := mkIO {
  buffer : list Z;
  position : Z;
  buffer_sector : Z;
  max_position : Z;
  dirty : bool
}.

(** The input and output together with the disk. *)
Record Disk : Type := mkDisk { io : GlobalIO; disk : D }.

Definition set_io (f : GlobalIO -> GlobalIO) : M Disk unit := modify (fun s => mkDisk (f (io s)) (disk s)).

Definition set_position (p : Z) (g : GlobalIO) : GlobalIO := mkIO (buffer g) p (buffer_sector g) (max_position g) (dirty g).
Definition set_buffer (l : list Z) (g : GlobalIO) : GlobalIO := mkIO l (position g) (buffer_sector g) (max_position g) (dirty g).
Definition set_buffer_sector (n : Z) (g : GlobalIO) : GlobalIO := mkIO (buffer g) (position g) n (max_position g) (dirty g).
Definition set_dirty (b : bool) (g : GlobalIO) : GlobalIO := mkIO (buffer g) (position g) (buffer_sector g) (max_position g) b.

Definition seek_sector (g : GlobalIO) : Z := position g / PAGE_SIZE.
Definition seek_offset (g : GlobalIO) : Z := Z.land (position g) OFFSET_MASK.

Definition fetch : M Disk unit :=
  set_io (fun g => set_buffer_sector (seek_sector g) g) ;;
  let* s := get in
  set_io (set_buffer (read_page (disk s) (buffer_sector (io s)))).

Definition flush : M Disk (result unit unit) :=
  let* s := get in
  if negb (dirty (io s)) then ret (Ok tt) else
  set_io (fun g => set_buffer_sector (seek_sector g) g) ;;
  modify (fun s => mkDisk (io s) (write_page (disk s) (buffer_sector (io s)) (buffer (io s)))) ;;
  set_io (set_dirty false) ;;
  ret (Ok tt).

(** [self.fetch(); assert_eq!(self.seek_sector(), self.buffer_sector());] *)
Definition refill : M Disk (result unit unit) :=
  fetch ;;
  let* g := gets io in
  if decide (seek_sector g = buffer_sector g) then ret (Ok tt) else panic "assertion failed: `(left == right)`".

(** [GlobalIO::new] with the contents of the page it is given. *)
Definition GlobalIO_new (page : list Z) (d : D) : outcome (unit * Disk) :=
  fetch (mkDisk (mkIO page 0 (2 ^ 64 - 1) (512 * 32) false) d).

(** [while i < data.len()]: the bytes that were read. *)
Fixpoint read_loop (n : nat) : M Disk (result (list Z) unit) :=
  match n with
  | O => ret (Ok [])
  | S n =>
    let* g := gets io in
    if decide (max_position g <= position g) then ret (Ok []) else
    let? _ := (if decide (seek_sector g = buffer_sector g) then ret (Ok tt)
               else let? _ := flush in refill) in
    let* g := gets io in
    let* x := unwrap "index out of bounds" (nth_z (buffer g) (seek_offset g)) in
    set_io (fun g => set_position (wrap 64 (position g + 1)) g) ;;
    let? l := read_loop n in
    ret (Ok (x :: l))
  end.

(** The bytes that were read; their number is what the source returns. *)
Definition read (n : Z) : M Disk (result (list Z) unit) := read_loop (Z.to_nat n).

(** [len] is the length of the whole data. *)
Fixpoint write_loop (data : list Z) (len : Z) : M Disk (result Z unit) :=
  match data with
  | [] => ret (Ok 0)
  | x :: data =>
    let* g := gets io in
    if decide (max_position g <= position g) then ret (Ok 0) else
    let? _ := (if decide (seek_sector g = buffer_sector g) then ret (Ok tt)
               else let? _ := flush in
                    if decide (len <= PAGE_SIZE) then refill else ret (Ok tt)) in
    let* g := gets io in
    let so := seek_offset g in
    unwrap "index out of bounds" (nth_z (buffer g) so) ;;
    set_io (set_buffer (set_z (buffer g) so x)) ;;
    set_io (fun g => set_position (wrap 64 (position g + 1)) g) ;;
    set_io (set_dirty true) ;;
    let? i := write_loop data len in
    ret (Ok (1 + i))
  end.

Definition write (data : list Z) : M Disk (result Z unit) := write_loop data (zlen data).

(** [SeekFrom]; relative positions are signed. *)
Inductive SeekFrom : Type :=
| Start (p : Z)
| Current (p : Z)
| End (p : Z).

Definition seek (pos : SeekFrom) : M Disk (result Z unit) :=
  let* g := gets io in
  let r :=
    match pos with
    | Start p => Some p
    | Current p =>
      if decide (0 < p) then Some (default (2 ^ 64 - 1) (checked_add 64 (position g) p))
      else checked_sub (position g) (wrap 64 (- p))
    | End p => checked_sub (max_position g) (wrap 64 (- p))
    end in
  match r with
  | Some p => set_io (set_position p) ;; ret (Ok p)
  | None => ret (Err tt)
  end.

(** ** The bytes of the disk *)

Definition disk_byte (d : D) (a : Z) : option Z := nth_z (read_page d (a / PAGE_SIZE)) (a mod PAGE_SIZE).

(** The buffer holds its page, and what is not written yet is only in the buffer. *)
Record io_ok (s : Disk) : Prop := mk_io_ok {
  ok_len : length (buffer (io s)) = Z.to_nat PAGE_SIZE;
  ok_position : 0 <= position (io s) < 2 ^ 63;
  ok_max : 0 <= max_position (io s) < 2 ^ 63;
  ok_clean : dirty (io s) = false -> buffer (io s) = read_page (disk s) (buffer_sector (io s))
}.

Lemma set_io_done (f : GlobalIO -> GlobalIO) s : set_io f s = Done (tt, mkDisk (f (io s)) (disk s)).
Proof. done. Qed.

Lemma fetch_done s : fetch s = Done (tt, mkDisk (set_buffer (read_page (disk s) (seek_sector (io s))) (set_buffer_sector (seek_sector (io s)) (io s))) (disk s)).
Proof. done. Qed.

Lemma flush_clean s : dirty (io s) = false -> flush s = Done (Ok tt, s).
Proof. intros Hd. unfold flush. erewrite bind_done by done. by rewrite Hd. Qed.

Lemma flush_dirty s : dirty (io s) = true ->
  flush s = Done (Ok tt, mkDisk (set_dirty false (set_buffer_sector (seek_sector (io s)) (io s))) (write_page (disk s) (seek_sector (io s)) (buffer (io s)))).
Proof. intros Hd. unfold flush. erewrite bind_done by done. by rewrite Hd. Qed.

Lemma seek_offset_mod g : 0 <= position g -> seek_offset g = position g mod PAGE_SIZE.
Proof. intros Hp. unfold seek_offset. change OFFSET_MASK with (2 ^ 12 - 1). by rewrite land_mask. Qed.

Lemma buffer_index (l : list Z) p : length l = Z.to_nat PAGE_SIZE -> is_Some (nth_z l (p mod PAGE_SIZE)).
Proof. intros Hl. apply nth_z_lt. unfold zlen. rewrite Hl. pose proof (Z.mod_pos_bound p PAGE_SIZE). unfold PAGE_SIZE in *. lia. Qed.

(** The buffer holds the page of the position. *)
Definition at_page (s : Disk) : Prop := dirty (io s) = false /\ io_ok s /\ seek_sector (io s) = buffer_sector (io s).

(** What is done when the position is in another page than the buffer, which is clean. *)
Lemma load_page s : io_ok s -> dirty (io s) = false ->
  exists s', at_page s' /\ disk s' = disk s /\ position (io s') = position (io s) /\ max_position (io s') = max_position (io s) /\
    (if decide (seek_sector (io s) = buffer_sector (io s)) then ret (Ok tt) else let? _ := flush in refill) s = Done (Ok tt, s').
Proof.
  intros Hs Hd. destruct (decide (seek_sector (io s) = buffer_sector (io s))) as [E|E]; [by exists s|].
  exists (mkDisk (set_buffer (read_page (disk s) (seek_sector (io s))) (set_buffer_sector (seek_sector (io s)) (io s))) (disk s)).
  split_and!; [|done..|].
  - split_and!; [done| |done]. destruct Hs. constructor; [apply page_len|done..].
  - unfold bind_ok, bind, refill. rewrite flush_clean by done. unfold bind. rewrite fetch_done. unfold gets. cbn -[decide read_page]. by rewrite decide_True.
Qed.

Lemma moved_ok s : at_page s -> position (io s) < max_position (io s) ->
  io_ok (mkDisk (set_position (wrap 64 (position (io s) + 1)) (io s)) (disk s)) /\ wrap 64 (position (io s) + 1) = position (io s) + 1.
Proof.
  intros (Hd & [Hl Hp Hm Hc] & _) Hlt. assert (wrap 64 (position (io s) + 1) = position (io s) + 1) as E by (apply wrap_small; unfold fits; lia).
  split; [|done]. rewrite E. constructor; cbn; [done|lia|done|done].
Qed.

Lemma read_loop_spec n : forall s, io_ok s -> dirty (io s) = false ->
  exists l s', read_loop n s = Done (Ok l, s') /\ zlen l = Z.max 0 (Z.min (Z.of_nat n) (max_position (io s) - position (io s))) /\
    (forall i, 0 <= i < zlen l -> nth_z l i = disk_byte (disk s) (position (io s) + i)) /\
    io_ok s' /\ dirty (io s') = false /\ disk s' = disk s /\ position (io s') = position (io s) + zlen l.
Proof.
  induction n as [|n IH]; intros s Hs Hd; cbn [read_loop].
  { exists [], s. rewrite zlen_nil. split_and!; [done|lia|lia|done..|lia]. }
  erewrite bind_done by done. cbv beta. destruct (decide (max_position (io s) <= position (io s))) as [Hmax|Hmax].
  { exists [], s. rewrite zlen_nil. split_and!; [done|lia|lia|done..|lia]. }
  destruct (load_page s Hs Hd) as (s1 & Hat & Ed & Ep & Em & E1). erewrite bind_ok_done by exact E1. erewrite bind_done by done. cbv beta.
  destruct (moved_ok s1 Hat ltac:(lia)) as [Hok Ew]. pose proof Hat as (Hd1 & [Hl1 Hp1 _ Hc1] & Hsec1).
  rewrite seek_offset_mod by lia. destruct (buffer_index (buffer (io s1)) (position (io s1)) Hl1) as [x Hx]. rewrite Hx.
  erewrite bind_done by done. erewrite bind_done by apply set_io_done. cbv beta.
  destruct (IH (mkDisk (set_position (wrap 64 (position (io s1) + 1)) (io s1)) (disk s1)) Hok Hd1) as (l & s' & E & Hz & Hn & Hs' & Hd' & Hdisk & Hpos).
  erewrite bind_ok_done by exact E. exists (x :: l), s'. cbn [io disk position max_position set_position] in *. rewrite Ew, Ed, Ep, ?Em in *.
  rewrite zlen_cons. split_and!; [done|lia| |done..|lia].
  intros i Hi. destruct (decide (i = 0)) as [->|Hne].
  - rewrite Z.add_0_r. unfold disk_byte. change (nth_z (x :: l) 0) with (Some x). rewrite <-Hx, Hc1 by done. rewrite <-Hsec1. unfold seek_sector. by rewrite Ep.
  - replace i with (1 + (i - 1)) at 1 by lia. rewrite nth_z_cons by lia. rewrite Hn by lia. f_equal. lia.
Qed.

(** Reading gives the bytes of the disk from the position on, up to the end of the disk; the disk does
    not change. *)
Theorem read_gives_disk n s : 0 <= n -> io_ok s -> dirty (io s) = false ->
  exists l s', read n s = Done (Ok l, s') /\ zlen l = Z.max 0 (Z.min n (max_position (io s) - position (io s))) /\
    (forall i, 0 <= i < zlen l -> nth_z l i = disk_byte (disk s) (position (io s) + i)) /\
    io_ok s' /\ disk s' = disk s /\ position (io s') = position (io s) + zlen l.
Proof.
  intros Hn Hs Hd. destruct (read_loop_spec (Z.to_nat n) s Hs Hd) as (l & s' & E & Hz & Hl & Hs' & _ & Hdisk & Hp).
  rewrite Z2Nat.id in Hz by done. by exists l, s'.
Qed.

(** ** Writing inside a page *)

(** [l] with [data] from position [i]. *)
Fixpoint splice (l : list Z) (i : Z) (data : list Z) : list Z :=
  match data with
  | [] => l
  | x :: data => splice (set_z l i x) (i + 1) data
  end.

Lemma length_splice data : forall l i, length (splice l i data) = length l.
Proof. induction data as [|x data IH]; intros l i; [done|]. cbn. rewrite IH. unfold set_z. case_decide; [apply length_insert|done]. Qed.

Lemma nth_splice data : forall l i j, 0 <= i -> i + zlen data <= zlen l ->
  nth_z (splice l i data) j = if decide (i <= j < i + zlen data) then nth_z data (j - i) else nth_z l j.
Proof.
  induction data as [|x data IH]; intros l i j Hi Hl; cbn [splice].
  - rewrite zlen_nil. by rewrite decide_False by lia.
  - rewrite zlen_cons in *. pose proof (zlen_nonneg data). rewrite IH by (rewrite ?zlen_set_z; lia). destruct (decide (j = i)) as [->|Hne].
    + rewrite decide_False, decide_True by lia. rewrite nth_z_set_eq by lia. by rewrite Z.sub_diag.
    + rewrite nth_z_set_ne by lia. repeat case_decide; try lia; [|done]. replace (j - i) with (1 + (j - (i + 1))) by lia. by rewrite nth_z_cons by lia.
Qed.

(** Writing with the page of the position in the buffer. *)
Lemma write_loop_page data : forall s len,
  length (buffer (io s)) = Z.to_nat PAGE_SIZE -> 0 <= position (io s) -> seek_sector (io s) = buffer_sector (io s) ->
  position (io s) mod PAGE_SIZE + zlen data <= PAGE_SIZE -> position (io s) + zlen data <= max_position (io s) < 2 ^ 63 -> data <> [] ->
  write_loop data len s = Done (Ok (zlen data),
    mkDisk (mkIO (splice (buffer (io s)) (position (io s) mod PAGE_SIZE) data) (position (io s) + zlen data) (buffer_sector (io s))
      (max_position (io s)) true) (disk s)).
Proof.
  induction data as [|x data IH]; intros [[buf p sec mx d] dk] len Hl Hp Hsec Hin Hmax Hne; [done|]. cbn [io disk buffer position buffer_sector max_position dirty] in *.
  cbn [write_loop]. rewrite zlen_cons in *. pose proof (zlen_nonneg data). erewrite bind_done by done. cbv beta. cbn [io position max_position seek_sector].
  rewrite decide_False by lia. rewrite decide_True by done. erewrite bind_ok_done by done. erewrite bind_done by done. cbv beta zeta.
  rewrite seek_offset_mod by done. cbn [io buffer position]. destruct (buffer_index buf p Hl) as [y Hy]. rewrite Hy.
  erewrite bind_done by done. do 3 (erewrite bind_done by apply set_io_done). cbn [io disk set_position set_buffer set_dirty position buffer buffer_sector max_position].
  rewrite wrap_small by (unfold fits; lia). destruct data as [|z data]; [cbn; by rewrite !Z.add_0_r|].
  rewrite zlen_cons in *. pose proof (zlen_nonneg data). assert (p mod PAGE_SIZE + 1 < PAGE_SIZE) as Hlt by lia.
  assert ((p + 1) mod PAGE_SIZE = p mod PAGE_SIZE + 1 /\ (p + 1) / PAGE_SIZE = p / PAGE_SIZE) as [Em Ediv].
  { pose proof (Z.div_mod p PAGE_SIZE ltac:(done)). pose proof (Z.mod_pos_bound p PAGE_SIZE ltac:(done)).
    split; symmetry; [apply (Z.mod_unique _ _ (p / PAGE_SIZE))|apply (Z.div_unique _ _ _ (p mod PAGE_SIZE + 1))]; lia. }
  erewrite bind_ok_done; [|rewrite IH; [reflexivity|..]]; cbn [io disk set_position set_buffer set_dirty position buffer buffer_sector max_position seek_sector].
  - rewrite Em, ?zlen_cons. unfold ret. by replace (p + 1 + (1 + zlen data)) with (p + (1 + (1 + zlen data))) by lia.
  - rewrite <-Hl. unfold set_z. case_decide; [apply length_insert|done].
  - lia.
  - unfold seek_sector in *. cbn in *. by rewrite Ediv.
  - rewrite Em, ?zlen_cons. lia.
  - rewrite ?zlen_cons. lia.
  - done.
Qed.

(** Writing and then flushing, with a clean buffer to start with. *)
Definition write_flush (data : list Z) : M Disk (result Z unit) :=
  let? n := write data in let? _ := flush in ret (Ok n).

Lemma write_flush_spec s data :
  io_ok s -> dirty (io s) = false -> data <> [] -> position (io s) mod PAGE_SIZE + zlen data <= PAGE_SIZE ->
  position (io s) + zlen data <= max_position (io s) ->
  exists s', write_flush data s = Done (Ok (zlen data), s') /\ dirty (io s') = false /\
    disk s' = write_page (disk s) ((position (io s) + zlen data) / PAGE_SIZE)
      (splice (read_page (disk s) (position (io s) / PAGE_SIZE)) (position (io s) mod PAGE_SIZE) data).
Proof.
  intros Hs Hd Hne Hin Hmax. destruct (load_page s Hs Hd) as (s1 & (Hd1 & [Hl1 Hp1 Hm1 Hc1] & Hsec1) & Ed & Ep & Em & E1).
  pose proof (zlen_nonneg data). pose proof (Z.mod_pos_bound (position (io s)) PAGE_SIZE ltac:(done)).
  assert (write data s = write_loop data (zlen data) s1) as Ew.
  { unfold write. destruct data as [|x data]; [done|]. cbn [write_loop]. erewrite bind_done by done. cbv beta.
    assert (0 < zlen (x :: data)) by (rewrite zlen_cons; pose proof (zlen_nonneg data); lia). rewrite decide_False by lia.
    rewrite (decide_True (P := zlen (x :: data) <= PAGE_SIZE)) by lia. erewrite bind_ok_done by exact E1.
    symmetry. erewrite bind_done by done. cbv beta. rewrite decide_False by lia. rewrite decide_True by done. by erewrite bind_ok_done by done. }
  assert (write data s = Done (Ok (zlen data), _)) as Ew' by (rewrite Ew; apply write_loop_page; rewrite ?Ep, ?Em; (done || lia)).
  unfold write_flush. erewrite bind_ok_done by exact Ew'. erewrite bind_ok_done by by apply flush_dirty.
  eexists. split; [done|]. split; [done|]. cbn [disk io seek_sector set_buffer_sector position buffer].
  unfold seek_sector in Hsec1. rewrite Hc1 by done. by rewrite Ed, Ep, <-Hsec1, Ep.
Qed.

Lemma div_mod_page a : a = PAGE_SIZE * (a / PAGE_SIZE) + a mod PAGE_SIZE /\ 0 <= a mod PAGE_SIZE < PAGE_SIZE.
Proof. split; [by apply Z.div_mod|by apply Z.mod_pos_bound]. Qed.

(** C30: What is written inside a page is on the disk after a flush: every byte of the data is at its
    place, and no other byte of the disk changed. *)
Theorem fat_write_reaches_disk s data :
  io_ok s -> dirty (io s) = false -> position (io s) mod PAGE_SIZE + zlen data < PAGE_SIZE -> position (io s) + zlen data <= max_position (io s) ->
  data <> [] ->
  exists s', write_flush data s = Done (Ok (zlen data), s') /\
    forall a, disk_byte (disk s') a = if decide (position (io s) <= a < position (io s) + zlen data) then nth_z data (a - position (io s)) else disk_byte (disk s) a.
Proof.
  intros Hs Hd Hin Hmax Hne. destruct (write_flush_spec s data Hs Hd Hne ltac:(lia) Hmax) as (s' & E & _ & Edisk). exists s'. split; [done|].
  intros a. unfold disk_byte. rewrite Edisk. set (p := position (io s)) in *. pose proof (zlen_nonneg data).
  destruct (div_mod_page p) as [Hp Hp']. destruct (div_mod_page a) as [Ha Ha'].
  assert ((p + zlen data) / PAGE_SIZE = p / PAGE_SIZE) as -> by (symmetry; apply (Z.div_unique _ _ _ (p mod PAGE_SIZE + zlen data)); lia).
  destruct (decide (a / PAGE_SIZE = p / PAGE_SIZE)) as [Ea|Ea].
  - rewrite Ea, read_write_eq by (rewrite length_splice; apply page_len).
    rewrite nth_splice; [|lia|unfold zlen; rewrite page_len; unfold zlen in *; unfold PAGE_SIZE in *; lia]. rewrite Ea in Ha.
    repeat case_decide; try lia; [f_equal; lia|done].
  - rewrite read_write_ne by (done || (rewrite length_splice; apply page_len)). rewrite decide_False; [done|]. intros Hr. apply Ea. unfold PAGE_SIZE in *. nia.
Qed.

(** A write that ends at the end of a page is lost: the flush writes the buffer over the next page and
    leaves the page that was written to as it was. *)
Theorem write_to_end_of_page_lost s data :
  io_ok s -> dirty (io s) = false -> position (io s) mod PAGE_SIZE + zlen data = PAGE_SIZE -> position (io s) + zlen data <= max_position (io s) ->
  data <> [] ->
  exists s', write_flush data s = Done (Ok (zlen data), s') /\
    read_page (disk s') (position (io s) / PAGE_SIZE) = read_page (disk s) (position (io s) / PAGE_SIZE) /\
    read_page (disk s') (position (io s) / PAGE_SIZE + 1) =
      splice (read_page (disk s) (position (io s) / PAGE_SIZE)) (position (io s) mod PAGE_SIZE) data.
Proof.
  intros Hs Hd Hin Hmax Hne. destruct (write_flush_spec s data Hs Hd Hne ltac:(lia) Hmax) as (s' & E & _ & Edisk). exists s'. split; [done|]. rewrite Edisk.
  set (p := position (io s)) in *. destruct (div_mod_page p) as [Hp Hp'].
  assert ((p + zlen data) / PAGE_SIZE = p / PAGE_SIZE + 1) as -> by (symmetry; apply (Z.div_unique _ _ _ 0); lia).
  split; [by rewrite read_write_ne by (lia || (rewrite length_splice; apply page_len))|]. apply read_write_eq. rewrite length_splice. apply page_len.
Qed.

(** Moving by zero or more keeps the position in range, and a position before the start is refused. *)
Theorem seek_current s d : io_ok s -> - 2 ^ 63 < d < 2 ^ 63 ->
  seek (Current d) s =
    if decide (0 <= position (io s) + d)
    then Done (Ok (position (io s) + d), mkDisk (set_position (position (io s) + d) (io s)) (disk s))
    else Done (Err tt, s).
Proof.
  intros [_ Hp _ _] Hd. unfold seek. erewrite bind_done by done. cbv beta zeta. destruct (decide (0 < d)).
  - unfold checked_add. rewrite decide_True by lia. cbn [default]. by rewrite decide_True by lia.
  - rewrite wrap_small by (unfold fits; lia). unfold checked_sub. repeat case_decide; try lia; [|done]. by replace (position (io s) - - d) with (position (io s) + d) by lia.
Qed.
End io.

(** ** A disk in memory *)

(** Pages that were written; the others are zero. *)
Abbreviation Pages := (gmap Z (list Z)).

Definition pages_read (d : Pages) (n : Z) : list Z :=
  match d !! n with
  | Some l => if decide (length l = Z.to_nat PAGE_SIZE) then l else replicate (Z.to_nat PAGE_SIZE) 0
  | None => replicate (Z.to_nat PAGE_SIZE) 0
  end.

#[export] Program Instance pages_driver : BlockDriver Pages := {
  read_page := pages_read;
  write_page := fun d n l => <[n := l]> d
}.
Next Obligation. intros d n. unfold pages_read. repeat case_match; rewrite ?length_replicate; done. Qed.
Next Obligation. intros d n l Hl. unfold pages_read. rewrite lookup_insert_eq. by rewrite decide_True. Qed.
Next Obligation. intros d n k l Hl Hn. unfold pages_read. by rewrite lookup_insert_ne. Qed.

(** A new input and output on an empty disk. *)
Definition fresh : Disk (D := Pages) := mkDisk (mkIO (replicate (Z.to_nat PAGE_SIZE) 0) 0 0 (512 * 32) false) ∅.

Lemma fresh_ok : io_ok fresh.
Proof. constructor; [by vm_compute|done|done|done]. Qed.

Lemma fat_write_reaches_disk_witness :
  exists s', write_flush [7; 8] fresh = Done (Ok 2, s') /\ disk_byte (disk s') 1 = Some 8.
Proof.
  destruct (fat_write_reaches_disk fresh [7; 8]) as (s' & E & Hb).
  - exact fresh_ok.
  - done.
  - done.
  - done.
  - done.
  - exists s'. split; [exact E|]. clear E. rewrite Hb. by vm_compute.
Defined.
