(* ===== verification/Uart.v ===== *)
(** * The serial driver

    src/services/driver/uart/src/main.rs: characters that arrive are put into a ring by the
    notification handler and taken from it by read requests; write requests wait until the device
    takes each byte.  The device is modelled by its registers: the line status tells whether a
    character is there and whether one can be sent.

    The theorems: until 4096 characters have arrived the ring is a queue, of which reads take the
    oldest characters, with carriage returns as newlines; then the next character makes the handler
    panic, because it does not mask the index of the ring, or is lost when nothing was read yet.
    Write requests send their bytes in order. *)

From S2P Require Import Prelude.

(** ** The device and the variables of the driver *)

Record Uart : Type := mkUart {
  ier : Z;             (* interrupt enable register *)
  fifo : list Z;       (* characters that arrived *)
  sent : list Z;       (* characters that were sent *)
  room_left : nat;     (* how many characters the transmitter still takes *)
  BUFFER : list Z;
  NEW_INDEX : Z;
  USED_INDEX : Z
}.

Definition BUFFER_LEN : Z := Z.shiftl 1 12.

Definition set_ier (x : Z) (u : Uart) : Uart := mkUart x (fifo u) (sent u) (room_left u) (BUFFER u) (NEW_INDEX u) (USED_INDEX u).
Definition set_fifo (l : list Z) (u : Uart) : Uart := mkUart (ier u) l (sent u) (room_left u) (BUFFER u) (NEW_INDEX u) (USED_INDEX u).
Definition set_used (x : Z) (u : Uart) : Uart := mkUart (ier u) (fifo u) (sent u) (room_left u) (BUFFER u) (NEW_INDEX u) x.

(** The line status register. *)
Definition lsr (u : Uart) : Z :=
  Z.lor (if fifo u is [] then 0 else 0x1) (if room_left u is O then 0 else 0x20).

(** ** Registers *)

(** Sets or clears a bit of the interrupt enable register. *)
Definition with_bit (m bit : Z) (enable : bool) : Z :=
  Z.lor (Z.ldiff m (Z.shiftl 1 bit)) (Z.shiftl (bool_to_Z enable) bit).

Definition interrupt_data_available (enable : bool) : M Uart unit :=
  modify (fun u => set_ier (with_bit (ier u) 0 enable) u).

Definition interrupt_transmitter_empty (enable : bool) : M Uart unit :=
  modify (fun u => set_ier (with_bit (ier u) 1 enable) u).

Definition data_available : M Uart bool := gets (fun u => 0 <? Z.land (lsr u) 0x1).

Definition can_transmit : M Uart bool := gets (fun u => 0 <? Z.land (lsr u) 0x20).

(** Reading the data register takes a character from the device. *)
Definition take_char : M Uart Z :=
  let* u := get in
  match fifo u with
  | c :: l => modify (set_fifo l) ;; ret c
  | [] => ret 0
  end.

Definition read : M Uart (option Z) :=
  let* d := data_available in
  if (d : bool) then let* c := take_char in ret (Some c) else ret None.

Definition put_char (c : Z) : M Uart unit :=
  modify (fun u => mkUart (ier u) (fifo u) (sent u ++ [c]) (pred (room_left u)) (BUFFER u) (NEW_INDEX u) (USED_INDEX u)).

Definition write (byte : Z) : M Uart bool :=
  let* tr := can_transmit in
  (if (tr : bool) then put_char byte else ret tt) ;;
  ret tr.

(** ** The notification handler *)

Definition store_char (c : Z) : M Uart unit :=
  let* u := get in
  unwrap "index out of bounds" (nth_z (BUFFER u) (NEW_INDEX u)) ;;
  modify (fun u => mkUart (ier u) (fifo u) (sent u) (room_left u) (set_z (BUFFER u) (NEW_INDEX u) c) (wrap 16 (NEW_INDEX u + 1)) (USED_INDEX u)).

(** [while let Some(c) = read()] *)
Fixpoint drain (fuel : nat) (full_index : Z) : M Uart unit :=
  match fuel with
  | O => fun _ => OutOfFuel
  | S fuel =>
    let* r := read in
    match r with
    | None => ret tt
    | Some c =>
      let* u := get in
      if decide (NEW_INDEX u = full_index) then interrupt_data_available false else
      store_char c ;;
      drain fuel full_index
    end
  end.

Definition UART_IRQ : Z := 0xa.
Definition USIZE_MAX : Z := 2 ^ 64 - 1.

Definition notification_handler (typ value address : Z) : M Uart unit :=
  if decide (typ = 0 /\ address = USIZE_MAX /\ value = UART_IRQ) then
    fun u => drain (S (length (fifo u))) (wrap 16 (USED_INDEX u + BUFFER_LEN)) u
  else ret tt.

(** ** Requests *)

(** [while USED_INDEX != NEW_INDEX && length < data.len()] *)
Fixpoint take_data (n : nat) : M Uart (list Z) :=
  match n with
  | O => ret []
  | S n =>
    let* u := get in
    if decide (USED_INDEX u = NEW_INDEX u) then ret [] else
    let* c := unwrap "index out of bounds" (nth_z (BUFFER u) (Z.land (USED_INDEX u) (BUFFER_LEN - 1))) in
    modify (fun u => set_used (wrap 16 (USED_INDEX u + 1)) u) ;;
    let* l := take_data n in
    ret ((if decide (c = 13) then 10 else c) :: l)
  end.

Section requests.
(** The system call that waits; notifications are handled meanwhile. *)
Context (io_wait : M Uart unit).

Fixpoint wait_for_data (fuel : nat) : M Uart unit :=
  match fuel with
  | O => fun _ => OutOfFuel
  | S fuel =>
    let* u := get in
    if decide (USED_INDEX u = NEW_INDEX u) then io_wait ;; wait_for_data fuel else ret tt
  end.

(** [Op::Read]: the data of the reply. *)
Definition on_read (fuel : nat) (len : Z) : M Uart (list Z) :=
  wait_for_data fuel ;;
  let* l := take_data (Z.to_nat len) in
  interrupt_data_available true ;;
  ret l.

(** [while !write(data[len])] *)
Fixpoint write_byte (fuel : nat) (byte : Z) : M Uart unit :=
  match fuel with
  | O => fun _ => OutOfFuel
  | S fuel =>
    let* w := write byte in
    if (w : bool) then interrupt_transmitter_empty false else
    interrupt_transmitter_empty true ;;
    io_wait ;;
    write_byte fuel byte
  end.

(** [Op::Write]: the length of the reply. *)
Fixpoint on_write (fuel : nat) (data : list Z) : M Uart Z :=
  match data with
  | [] => ret 0
  | c :: data =>
    write_byte fuel c ;;
    let* n := on_write fuel data in
    ret (1 + n)
  end.
End requests.

(** ** The queue *)

(** The characters [q] are in the ring, which has not gone round yet. *)
Record queued (u : Uart) (q : list Z) : Prop := mk_queued {
  q_len : zlen (BUFFER u) = BUFFER_LEN;
  q_used : 0 <= USED_INDEX u;
  q_new : NEW_INDEX u = USED_INDEX u + zlen q;
  q_end : NEW_INDEX u <= BUFFER_LEN;
  q_at : forall j, 0 <= j < zlen q -> nth_z (BUFFER u) (USED_INDEX u + j) = nth_z q j
}.

Lemma data_available_spec u : data_available u = Done (if fifo u is [] then false else true, u).
Proof. unfold data_available, gets, lsr. by destruct (fifo u), (room_left u). Qed.

Lemma can_transmit_spec u : can_transmit u = Done (if room_left u is O then false else true, u).
Proof. unfold can_transmit, gets, lsr. by destruct (fifo u), (room_left u). Qed.

Lemma read_some u c l : fifo u = c :: l -> read u = Done (Some c, set_fifo l u).
Proof. intros E. unfold read. erewrite bind_done by apply data_available_spec. rewrite E. unfold bind, take_char, bind, get, ret, modify. by rewrite E. Qed.

Lemma read_none u : fifo u = [] -> read u = Done (None, u).
Proof. intros E. unfold read. erewrite bind_done by apply data_available_spec. by rewrite E. Qed.

(** [u] with the characters [cs] stored and the device at [l]. *)
Lemma drain_spec cs : forall fuel u q,
  queued u q -> fifo u = cs -> NEW_INDEX u + zlen cs <= BUFFER_LEN -> (length cs < fuel)%nat ->
  exists u', drain fuel (wrap 16 (USED_INDEX u + BUFFER_LEN)) u = Done (tt, u') /\ queued u' (q ++ cs) /\
    fifo u' = [] /\ USED_INDEX u' = USED_INDEX u /\ sent u' = sent u.
Proof.
  induction cs as [|c cs IH]; intros [|fuel] u q Hq Hf Hn Hfuel; cbn [length] in Hfuel; try lia; cbn [drain].
  { exists u. erewrite bind_done by by apply read_none. rewrite app_nil_r. by split_and!. }
  erewrite bind_done by by apply read_some. cbv beta iota. erewrite bind_done by done. cbv beta. rewrite zlen_cons in Hn. pose proof (zlen_nonneg cs). pose proof (zlen_nonneg q).
  destruct Hq as [Hl Hu Hnew Hend Hat]. cbn [NEW_INDEX set_fifo]. change BUFFER_LEN with 4096 in *.
  rewrite decide_False by (rewrite wrap_small by (unfold fits; lia); lia).
  destruct (nth_z_lt (BUFFER u) (NEW_INDEX u)) as [y Hy]; [lia|]. unfold store_char at 1. unfold bind at 1.
  unfold bind at 1, get at 1. cbn [BUFFER NEW_INDEX set_fifo]. rewrite Hy. unfold bind, unwrap, ret, modify. cbn [fifo sent room_left ier BUFFER NEW_INDEX USED_INDEX set_fifo].
  rewrite (wrap_small 16 (NEW_INDEX u + 1)) by (unfold fits; lia).
  destruct (IH fuel (mkUart (ier u) cs (sent u) (room_left u) (set_z (BUFFER u) (NEW_INDEX u) c) (NEW_INDEX u + 1) (USED_INDEX u)) (q ++ [c]))
    as (u' & E & Hq' & Hf' & Hu' & Hs'); cbn [USED_INDEX NEW_INDEX fifo]; [|done|change BUFFER_LEN with 4096; lia|lia|].
  - constructor; cbn [BUFFER NEW_INDEX USED_INDEX]; [by rewrite zlen_set_z|done|rewrite zlen_app; change (zlen [c]) with 1; lia|change BUFFER_LEN with 4096; lia|].
    intros j Hj. rewrite zlen_app in Hj. change (zlen [c]) with 1 in Hj. destruct (decide (j = zlen q)) as [->|Hne].
    + rewrite <-Hnew, nth_z_set_eq by lia. by rewrite nth_z_middle.
    + rewrite nth_z_set_ne, nth_z_app_l by lia. apply Hat. lia.
  - exists u'. cbn in Hu', Hs'. split_and!; [exact E| |done..]. by rewrite <-app_assoc in Hq'.
Qed.

(** Characters arrive and the driver is notified. *)
Definition arrive (cs : list Z) : M Uart unit :=
  modify (fun u => set_fifo (fifo u ++ cs) u) ;;
  notification_handler 0 UART_IRQ USIZE_MAX.

Lemma arrive_spec u q cs : queued u q -> fifo u = [] -> NEW_INDEX u + zlen cs <= BUFFER_LEN ->
  exists u', arrive cs u = Done (tt, u') /\ queued u' (q ++ cs) /\ fifo u' = [] /\ NEW_INDEX u' = NEW_INDEX u + zlen cs.
Proof.
  intros Hq Hf Hn. destruct (drain_spec cs (S (length cs)) (set_fifo cs u) q) as (u' & E & Hq' & Hf' & Hu' & _); [by destruct Hq|done|done|lia|].
  exists u'. split_and!; [|done|done|].
  - unfold arrive. erewrite bind_done by done. cbv beta. rewrite Hf. unfold notification_handler. by rewrite decide_True.
  - rewrite (q_new _ _ Hq'), Hu', zlen_app. cbn [USED_INDEX set_fifo]. rewrite (q_new _ _ Hq). lia.
Qed.

(** Carriage returns are read as newlines. *)
Definition newline (c : Z) : Z := if decide (c = 13) then 10 else c.

Lemma take_data_spec n : forall u q, queued u q ->
  exists u', take_data n u = Done (newline <$> take n q, u') /\ queued u' (drop n q) /\ fifo u' = fifo u /\ NEW_INDEX u' = NEW_INDEX u.
Proof.
  induction n as [|n IH]; intros u q Hq; cbn [take_data]; [by exists u|]. erewrite bind_done by done. cbv beta.
  pose proof Hq as [Hl Hu Hnew Hend Hat]. destruct q as [|c q].
  { rewrite zlen_nil, Z.add_0_r in Hnew. rewrite decide_True by done. by exists u. }
  rewrite zlen_cons in *. pose proof (zlen_nonneg q). rewrite decide_False by lia. change BUFFER_LEN with 4096 in *.
  assert (nth_z (BUFFER u) (USED_INDEX u) = Some c) as Hc by (rewrite <-(Z.add_0_r (USED_INDEX u)), Hat by lia; done).
  change (4096 - 1) with (2 ^ 12 - 1). rewrite land_mask, (Z.mod_small (USED_INDEX u)) by lia. rewrite Hc. erewrite bind_done by done. erewrite bind_done by done. cbv beta.
  rewrite wrap_small by (unfold fits; lia).
  destruct (IH (set_used (USED_INDEX u + 1) u) q) as (u' & E & Hq' & Hf' & Hn').
  { constructor; cbn; [done|lia|lia|change BUFFER_LEN with 4096; lia|]. intros j Hj. rewrite <-Z.add_assoc, Hat by lia. apply nth_z_cons. lia. }
  erewrite bind_done by exact E. exists u'. split_and!; [|done..]. done.
Qed.

(** ** Sequences of arrivals and requests *)

Inductive uart_op : Type :=
| Arrive (cs : list Z)
| ReadRequest (len : Z).

(** A read request that finds no characters waits, and is not answered here. *)
Definition uart_step (op : uart_op) : M Uart (list Z) :=
  match op with
  | Arrive cs => arrive cs ;; ret []
  | ReadRequest len =>
    let* u := get in
    if decide (USED_INDEX u = NEW_INDEX u) then ret [] else on_read (ret tt) 1 len
  end.

Fixpoint uart_run (ops : list uart_op) : M Uart (list (list Z)) :=
  match ops with
  | [] => ret []
  | op :: ops => let* r := uart_step op in let* rs := uart_run ops in ret (r :: rs)
  end.

Fixpoint queue_run (ops : list uart_op) (q : list Z) : list (list Z) * list Z :=
  match ops with
  | [] => ([], q)
  | Arrive cs :: ops => let '(rs, q) := queue_run ops (q ++ cs) in ([] :: rs, q)
  | ReadRequest len :: ops => let '(rs, q') := queue_run ops (drop (Z.to_nat len) q) in ((newline <$> take (Z.to_nat len) q) :: rs, q')
  end.

Fixpoint arrivals (ops : list uart_op) : Z :=
  match ops with
  | [] => 0
  | Arrive cs :: ops => zlen cs + arrivals ops
  | ReadRequest _ :: ops => arrivals ops
  end.

Lemma arrivals_nonneg ops : 0 <= arrivals ops.
Proof. induction ops as [|[cs|n] ops IH]; cbn; [done|pose proof (zlen_nonneg cs); lia|done]. Qed.

Lemma on_read_spec io_wait fuel u q len : queued u q -> fifo u = [] -> q <> [] ->
  exists u', on_read io_wait (S fuel) len u = Done (newline <$> take (Z.to_nat len) q, u') /\ queued u' (drop (Z.to_nat len) q) /\ fifo u' = [] /\
    NEW_INDEX u' = NEW_INDEX u.
Proof.
  intros Hq Hf Hne. destruct (take_data_spec (Z.to_nat len) u q Hq) as (u' & E & Hq' & Hf' & Hn').
  assert (USED_INDEX u <> NEW_INDEX u) as Hu.
  { rewrite (q_new _ _ Hq). destruct q as [|c q]; [done|]. rewrite zlen_cons. pose proof (zlen_nonneg q). lia. }
  exists (set_ier (with_bit (ier u') 0 true) u'). split_and!; [|by destruct Hq'|by rewrite <-Hf, <-Hf'|done].
  unfold on_read. cbn [wait_for_data]. erewrite bind_done by (erewrite bind_done by done; cbv beta; rewrite decide_False by done; done).
  erewrite bind_done by exact E. done.
Qed.

(** C29: Until 4096 characters have arrived, any sequence of arrivals and read requests answers as a
    queue: a request gets the oldest characters, up to the length it asks for, with carriage returns
    as newlines, and they are removed. *)
Theorem uart_refines_queue ops u q :
  queued u q -> fifo u = [] -> NEW_INDEX u + arrivals ops <= BUFFER_LEN ->
  exists u', uart_run ops u = Done ((queue_run ops q).1, u') /\ queued u' (queue_run ops q).2.
Proof.
  revert u q. induction ops as [|[cs|len] ops IH]; intros u q Hq Hf Hn; cbn [uart_run queue_run arrivals] in *; [by exists u| |].
  - pose proof (arrivals_nonneg ops). destruct (arrive_spec u q cs Hq Hf ltac:(lia)) as (u1 & E1 & Hq1 & Hf1 & Hn1).
    destruct (IH u1 (q ++ cs) Hq1 Hf1 ltac:(lia)) as (u' & E & Hq'). exists u'. destruct (queue_run ops (q ++ cs)) as [rs q']. split; [|done].
    erewrite bind_done by (cbn [uart_step]; erewrite bind_done by exact E1; done). by erewrite bind_done by exact E.
  - cbn [uart_step]. destruct q as [|c q].
    + destruct (IH u [] Hq Hf Hn) as (u' & E & Hq'). exists u'. rewrite drop_nil, take_nil. destruct (queue_run ops []) as [rs q']. split; [|done].
      erewrite bind_done by (erewrite bind_done by done; cbv beta; rewrite decide_True by (rewrite (q_new _ _ Hq), zlen_nil; lia); done).
      by erewrite bind_done by exact E.
    + destruct (on_read_spec (ret tt) 0 u (c :: q) len Hq Hf ltac:(done)) as (u1 & E1 & Hq1 & Hf1 & Hn1).
      destruct (IH u1 _ Hq1 Hf1 ltac:(lia)) as (u' & E & Hq'). exists u'. destruct (queue_run ops (drop (Z.to_nat len) (c :: q))) as [rs q']. split; [|done].
      erewrite bind_done; [by erewrite bind_done by exact E|]. erewrite bind_done by done. cbv beta.
      rewrite decide_False; [done|]. rewrite (q_new _ _ Hq), zlen_cons. pose proof (zlen_nonneg q). lia.
Qed.

(** ** When the ring has gone round *)

(** After 4096 characters, of which some were read, the next character makes the handler panic: the
    index it stores to is not reduced to the size of the ring. *)
Theorem next_round_panics u q c cs :
  queued u q -> fifo u = [] -> NEW_INDEX u = BUFFER_LEN -> 0 < USED_INDEX u ->
  arrive (c :: cs) u = Panicked "index out of bounds".
Proof.
  intros [Hl Hu Hnew Hend Hat] Hf Hn Hpos. pose proof (zlen_nonneg q). change BUFFER_LEN with 4096 in *. unfold arrive. erewrite bind_done by done. cbv beta.
  unfold notification_handler. rewrite decide_True by done. rewrite Hf. cbn [app drain set_fifo fifo length].
  erewrite bind_done by by apply read_some. cbv beta iota. erewrite bind_done by done. cbv beta. cbn [NEW_INDEX USED_INDEX set_fifo].
  rewrite decide_False by (rewrite wrap_small by (unfold fits; change BUFFER_LEN with 4096; lia); change BUFFER_LEN with 4096; lia).
  unfold store_char, bind, get. cbn [BUFFER NEW_INDEX set_fifo]. destruct (nth_z (BUFFER u) (NEW_INDEX u)) eqn:E; [|done]. apply nth_z_Some in E. lia.
Qed.

(** When nothing was read yet, the character that finds the ring full is taken from the device and
    lost. *)
Theorem full_ring_loses_character u q c cs :
  queued u q -> fifo u = [] -> NEW_INDEX u = BUFFER_LEN -> USED_INDEX u = 0 ->
  exists u', arrive (c :: cs) u = Done (tt, u') /\ queued u' q /\ fifo u' = cs.
Proof.
  intros [Hl Hu Hnew Hend Hat] Hf Hn H0. exists (set_ier (with_bit (ier u) 0 false) (set_fifo cs u)). split_and!; [|by constructor|done].
  unfold arrive. erewrite bind_done by done. cbv beta. unfold notification_handler. rewrite decide_True by done. rewrite Hf.
  cbn [app drain set_fifo fifo length]. erewrite bind_done by by apply read_some. cbv beta iota. erewrite bind_done by done. cbv beta.
  cbn [NEW_INDEX USED_INDEX set_fifo]. rewrite decide_True; [done|]. by rewrite Hn, H0.
Qed.

(** ** Writing *)

Section writing.
Context (io_wait : M Uart unit).
(** Waiting ends with room in the transmitter, and sends nothing itself. *)
Context (io_wait_room : forall u, exists u', io_wait u = Done (tt, u') /\ sent u' = sent u /\ (0 < room_left u')%nat).

Lemma write_byte_spec c u : exists u', write_byte io_wait 2 c u = Done (tt, u') /\ sent u' = sent u ++ [c].
Proof using io_wait_room.
  assert (forall u fuel, (0 < room_left u)%nat -> exists u', write_byte io_wait (S fuel) c u = Done (tt, u') /\ sent u' = sent u ++ [c]) as Hroom.
  { intros v fuel Hv. cbn [write_byte]. unfold write, bind. rewrite can_transmit_spec. destruct (room_left v) eqn:E; [lia|]. cbn. by eexists. }
  destruct (room_left u) eqn:E; [|apply Hroom; lia]. cbn [write_byte]. unfold write at 1. unfold bind at 1 2. rewrite can_transmit_spec, E. cbn [bind ret].
  unfold bind at 1 2 3. cbn. destruct (io_wait_room (set_ier (with_bit (ier u) 1 true) u)) as (u1 & -> & Hs & Hr).
  destruct (Hroom u1 0%nat Hr) as (u' & E' & Hs'). exists u'. split; [exact E'|]. by rewrite Hs', Hs.
Qed.

(** A write request sends all its bytes in order, and its reply has their number. *)
Theorem write_sends_all data u : exists u', on_write io_wait 2 data u = Done (zlen data, u') /\ sent u' = sent u ++ data.
Proof using io_wait_room.
  revert u. induction data as [|c data IH]; intros u; cbn [on_write]; [exists u; by rewrite app_nil_r|].
  destruct (write_byte_spec c u) as (u1 & E1 & Hs1). destruct (IH u1) as (u' & E & Hs). exists u'. erewrite bind_done by exact E1. erewrite bind_done by exact E.
  rewrite zlen_cons. split; [done|]. by rewrite Hs, Hs1, <-app_assoc.
Qed.
End writing.

(** ** Witness *)

Definition idle : Uart := mkUart 1 [] [] 16 (replicate 4096 0) 0 0.

Lemma idle_queued : queued idle [].
Proof. constructor; [by vm_compute|done|done|done|]. intros j Hj. unfold zlen in Hj. cbn in Hj. lia. Qed.

Lemma uart_refines_queue_witness :
  exists u', uart_run [Arrive [108; 115; 13]; ReadRequest 2; ReadRequest 8] idle = Done ([[]; [108; 115]; [10]], u') /\ queued u' [].
Proof.
  destruct (uart_refines_queue [Arrive [108; 115; 13]; ReadRequest 2; ReadRequest 8] idle []) as (u' & E & Hq).
  - exact idle_queued.
  - done.
  - by vm_compute.
  - exists u'. split; [exact E|exact Hq].
Defined.
