(* ===== verification/Spawn.v ===== *)
(** * Starting programs

    [spawn_elf] of src/lib/rust/dux/src/task.rs: the segments of an ELF file become mappings of a new
    task, the stack is filled with the arguments and objects of the program, and the task is spawned;
    and [rtbegin] of the programs (src/services/driver/uart/src/rtbegin.rs and its copies), which
    finds the arguments again.  The fields of the ELF file, which a third-party library reads, are
    arguments of the model.

    The theorems: the arguments a program reads are those it was started with; every page of a
    segment is mapped once, at its address, with its rights; more pages than the table has room for
    panic. *)

From S2P Require Import Prelude Bytes Page DuxMem.

(** ** The stack

    The stack is the bytes of the pages that were allocated for it.  Both [addr] and the addresses
    of the task are multiples of the page size, so an offset stands for both addresses. *)

Definition STACK_PAGES : Z := 16.
Definition STACK_TOP : Z := 0x80000000.
Definition STACK_BASE : Z := 0x7fff0000.

Record Stack : Type := mkStack { stk : list Z; sp : Z; stack_offset : Z }.

Definition store (l : list Z) (off : Z) (bs : list Z) : outcome (list Z) :=
  if decide (0 <= off /\ off + zlen bs <= zlen l) then Done (write l off bs) else Panicked "undefined: write outside of the stack".

(** A number of [n] bytes below the stack pointer. *)
Definition push (n : nat) (v : Z) (s : Stack) : outcome Stack :=
  let p := sp s - Z.of_nat n in
  let! l := store (stk s) p (le_split n v) in
  Done (mkStack l p (stack_offset s)).

(** The units of two bytes a string takes with its length. *)
Definition words (arg : list Z) : Z := (zlen arg + 1) / 2 + 1.

Definition push_string (arg : list Z) (s : Stack) : outcome Stack :=
  let p := sp s - 2 * words arg in
  match try_into 16 (zlen arg) with
  | None => Panicked "called `Result::unwrap()` on an `Err` value"
  | Some n =>
    let! l := store (stk s) p (le_split 2 n) in
    let! l := store l (p + 2) arg in
    Done (mkStack l p (stack_offset s + 2 * words arg))
  end.

Fixpoint push_strings (args : list (list Z)) (s : Stack) : outcome Stack :=
  match args with
  | [] => Done s
  | a :: args => let! s := push_string a s in push_strings args s
  end.

(** [align_offset(8)] *)
Definition align_offset (p : Z) : Z := (- p) mod 8.

Definition align (s : Stack) : Stack * Z :=
  let offt := Z.land (8 - align_offset (sp s)) (8 - 1) in
  (mkStack (stk s) (sp s - offt) (stack_offset s + offt), offt).

(** [for arg in arguments.iter().rev()]: the addresses of the strings. *)
Fixpoint push_pointers (args : list (list Z)) (strings_base : Z) (s : Stack) : outcome Stack :=
  match args with
  | [] => Done s
  | a :: args =>
    let! s := push 8 strings_base s in
    push_pointers args (strings_base + (Z.ldiff (zlen a + 1) 1 + 2)) s
  end.

(** The addresses and identifiers of objects. *)
Fixpoint push_objects (objects : list (Z * Z)) (s : Stack) : outcome Stack :=
  match objects with
  | [] => Done s
  | (addr, uuid) :: objects =>
    let! s := push 8 addr s in
    let! s := push 16 uuid s in
    push_objects objects s
  end.

Definition fill_stack (args : list (list Z)) (objects : list (Z * Z)) (pages : list Z) : outcome Stack :=
  let! s := push_strings args (mkStack pages (STACK_PAGES * PAGE_SIZE) 0) in
  let '(s, offt) := align s in
  let strings_base := STACK_TOP - stack_offset s + offt in
  let! s := push 8 (zlen args) s in
  let! s := push_pointers (reverse args) strings_base s in
  let! s := push 8 (zlen objects) s in
  push_objects objects s.

(** ** The start of a program

    A program sees the stack at [STACK_BASE]. *)

Definition task_load (l : list Z) (n : nat) (a : Z) : outcome Z :=
  match read_le l n (a - STACK_BASE) with
  | Some v => Done v
  | None => Panicked "undefined: read outside of the stack"
  end.

(** [_start]: the number of arguments and the pointer to them. *)
Definition start (l : list Z) (stack_pointer : Z) : outcome (Z * Z) :=
  let! count := task_load l 8 (stack_pointer - 8) in
  let sp := stack_pointer - 8 in
  let sp := sp - Z.shiftl count 3 in
  Done (count, sp).

(** [ArgIter::next] until the end. *)
Fixpoint arg_iter (l : list Z) (n : nat) (ptr : Z) : outcome (list (list Z)) :=
  match n with
  | O => Done []
  | S n =>
    let! p := task_load l 8 ptr in
    let! len := task_load l 2 p in
    match slice l (p + 2 - STACK_BASE) len with
    | None => Panicked "undefined: read outside of the stack"
    | Some a => let! rest := arg_iter l n (ptr + 8) in Done (a :: rest)
    end
  end.

(** [args()] of a program that starts with the given stack pointer. *)
Definition program_args (l : list Z) (stack_pointer : Z) : outcome (list (list Z)) :=
  let! '(count, ptr) := start l stack_pointer in
  arg_iter l (Z.to_nat count) ptr.

(** ** Segments *)

(** What the ELF library gives of a program header. *)
Record ProgramHeader : Type := mkPH {
  ph_load : bool;
  ph_offset : Z;
  ph_vaddr : Z;
  ph_filesz : Z;
  ph_memsz : Z;
  ph_read : bool;
  ph_write : bool;
  ph_execute : bool
}.

(** [TaskSpawnMapping]; the type is always zero. *)
Record Mapping : Type := mkMapping { m_flags : Z; task_address : Z; self_address : Z }.

Inductive SpawnElfError : Type :=
| SpawnReserveError (e : ReserveError)
| BadRWXFlags.

(** [RWX] as the number the kernel gets. *)
Definition rwx_of (ph : ProgramHeader) : option Z :=
  match ph_read ph, ph_write ph, ph_execute ph with
  | true, false, false => Some 1
  | false, true, false => Some 2
  | false, false, true => Some 4
  | true, true, false => Some 3
  | true, false, true => Some 5
  | true, true, true => Some 7
  | _, _, _ => None
  end.

(** The variables of [spawn_elf], and the contents of the areas it allocates. *)
Record Spawn : Type := mkSpawn {
  mappings : list Mapping;
  reserved_ranges : list (Z * Z);
  areas : list (Z * list Z)
}.

Definition MAX_MAPPINGS : Z := 96.
Definition MAX_RANGES : Z := 8.

Definition push_mapping (m : Mapping) : M Spawn unit :=
  let* s := get in
  if decide (zlen (mappings s) < MAX_MAPPINGS)
  then modify (fun s => mkSpawn (mappings s ++ [m]) (reserved_ranges s) (areas s))
  else panic "index out of bounds".

(** [n] pages from the addresses on. *)
Fixpoint push_pages (n : nat) (flags task self : Z) : M Spawn unit :=
  match n with
  | O => ret tt
  | S n => push_mapping (mkMapping flags task self) ;; push_pages n flags (wrap 64 (task + PAGE_SIZE)) (wrap 64 (self + PAGE_SIZE))
  end.

(** [DropRanges::push] *)
Definition push_range (addr count : Z) (bytes : list Z) : M Spawn unit :=
  let* s := get in
  if decide (zlen (reserved_ranges s) < MAX_RANGES)
  then modify (fun s => mkSpawn (mappings s) (reserved_ranges s ++ [(addr, count)]) (areas s ++ [(addr, bytes)]))
  else panic "index out of bounds".

Definition pages_of (size page_offset : Z) : Z := Z.ldiff (wrap 64 (wrap 64 (size + page_offset) + OFFSET_MASK)) OFFSET_MASK / PAGE_SIZE.

Section spawn.
Context (mem_alloc : Z -> Z -> Z -> Z) (mem_dealloc : Z -> Z -> Z).
(** The address of the file and its bytes. *)
Context (data_ptr : Z) (data : list Z).
(** What the pages of the stack hold when they are allocated. *)
Context (fresh : list Z).
(** The system call: the status and the address of the task. *)
Context (task_spawn : list Mapping -> Z -> Z -> Z * Z).

Definition map_reserve {A} (m : M Global (result A ReserveError)) : M (Global * Spawn) (result A SpawnElfError) :=
  let* r := on_fst m in ret (map_err SpawnReserveError r).

(** One segment of the loop over the program headers. *)
Definition load_segment (ph : ProgramHeader) : M (Global * Spawn) (result unit SpawnElfError) :=
  let offset := Z.ldiff (ph_offset ph) OFFSET_MASK in
  let page_offset := Z.land (ph_offset ph) OFFSET_MASK in
  let virt_a := Z.ldiff (ph_vaddr ph) OFFSET_MASK in
  let file_pages := pages_of (ph_filesz ph) page_offset in
  let mem_pages := pages_of (ph_memsz ph) page_offset in
  match rwx_of ph with
  | None => ret (Err BadRWXFlags)
  | Some flags =>
    if ph_write ph then
      let? addr := map_reserve (allocate_range mem_alloc None mem_pages flags) in
      match slice data (ph_offset ph) (ph_filesz ph) with
      | None => panic "range end index out of range"
      | Some raw =>
        if decide (page_offset + ph_filesz ph <= mem_pages * PAGE_SIZE) then
          on_snd (push_range addr mem_pages (write (replicate (Z.to_nat (mem_pages * PAGE_SIZE)) 0) page_offset raw)) ;;
          on_snd (push_pages (Z.to_nat mem_pages) flags virt_a addr) ;;
          ret (Ok tt)
        else panic "undefined: write outside of the area"
      end
    else
      on_snd (push_pages (Z.to_nat file_pages) flags virt_a (wrap 64 (data_ptr + offset))) ;;
      ret (Ok tt)
  end.

Fixpoint load_segments (phs : list ProgramHeader) : M (Global * Spawn) (result unit SpawnElfError) :=
  match phs with
  | [] => ret (Ok tt)
  | ph :: phs => if ph_load ph then let? _ := load_segment ph in load_segments phs else load_segments phs
  end.

Definition RWX_RW : Z := 3.

(** The stack: its area, its mappings and the stack pointer of the task. *)
Definition load_stack (args : list (list Z)) (objects : list (Z * Z)) : M (Global * Spawn) (result Z SpawnElfError) :=
  let? addr := map_reserve (allocate_range mem_alloc None STACK_PAGES RWX_RW) in
  match fill_stack args objects fresh with
  | Done s =>
    on_snd (push_range addr STACK_PAGES (stk s)) ;;
    on_snd (push_pages (Z.to_nat STACK_PAGES) RWX_RW STACK_BASE addr) ;;
    ret (Ok (STACK_TOP - stack_offset s))
  | Panicked why => panic why
  | OutOfFuel => fun _ => OutOfFuel
  end.

(** [Drop for DropRanges] *)
Fixpoint drop_ranges (l : list (Z * Z)) : M (Global * Spawn) unit :=
  match l with
  | [] => ret tt
  | (addr, count) :: l => on_fst (deallocate_range mem_dealloc addr count) ;; drop_ranges l
  end.

Definition spawn_body (phs : list ProgramHeader) (entry : Z) (args : list (list Z)) (objects : list (Z * Z)) : M (Global * Spawn) (result Z SpawnElfError) :=
  let? _ := load_segments phs in
  let? stack_pointer := load_stack args objects in
  let* st := get in
  let '(status, value) := task_spawn (mappings st.2) entry stack_pointer in
  if decide (status = 0) then ret (Ok value) else panic "internal error: entered unreachable code".

(** The new task's address; the areas are given back in any case. *)
Definition spawn_elf (phs : list ProgramHeader) (entry : Z) (args : list (list Z)) (objects : list (Z * Z)) : M (Global * Spawn) (result Z SpawnElfError) :=
  let* r := spawn_body phs entry args objects in
  let* st := get in
  drop_ranges (reserved_ranges st.2) ;;
  ret r.
End spawn.

(** ** Reading the arguments back *)

(** Nothing from [p] on changed. *)
Definition same_above (l l' : list Z) (p : Z) : Prop :=
  zlen l' = zlen l /\ forall off n, p <= off -> slice l' off n = slice l off n.

Lemma same_above_trans l1 l2 l3 p q : same_above l1 l2 p -> same_above l2 l3 q -> q <= p -> same_above l1 l3 p.
Proof. intros [E1 H1] [E2 H2] Hq. split; [lia|]. intros off n Ho. rewrite H2, H1 by lia. done. Qed.

Lemma same_above_read l l' p n off : same_above l l' p -> p <= off -> read_le l' n off = read_le l n off.
Proof. intros [_ H] Ho. unfold read_le. by rewrite H. Qed.

Lemma store_spec l off bs p : 0 <= off -> off + zlen bs <= p -> p <= zlen l ->
  store l off bs = Done (write l off bs) /\ same_above l (write l off bs) p.
Proof.
  intros Ho Hp Hl. unfold store. rewrite decide_True by lia. split; [done|]. split; [apply zlen_write|].
  intros off' n Ho'. apply slice_write_ne. lia.
Qed.

Lemma push_spec n v s : Z.of_nat n <= sp s <= zlen (stk s) -> fits (8 * Z.of_nat n) v ->
  exists s', push n v s = Done s' /\ sp s' = sp s - Z.of_nat n /\ stack_offset s' = stack_offset s /\
    same_above (stk s) (stk s') (sp s) /\ read_le (stk s') n (sp s') = Some v.
Proof.
  intros Hs Hv. unfold push. destruct (store_spec (stk s) (sp s - Z.of_nat n) (le_split n v) (sp s)) as [-> Ha]; [lia|rewrite zlen_le_split; lia|lia|].
  eexists. split; [done|]. cbn [sp stk stack_offset]. split_and!; [done..|]. apply read_write_le; [lia|lia|done].
Qed.

(** The string [a] with its length at the offset [p]. *)
Definition string_at (l : list Z) (p : Z) (a : list Z) : Prop := read_le l 2 p = Some (zlen a) /\ slice l (p + 2) (zlen a) = Some a.

(** The offsets of strings that were pushed from [p] on. *)
Fixpoint locations (p : Z) (args : list (list Z)) : list Z :=
  match args with
  | [] => []
  | a :: args => p - 2 * words a :: locations (p - 2 * words a) args
  end.

Definition strings_size (args : list (list Z)) : Z := foldr (fun a n => 2 * words a + n) 0 args.

Lemma words_bounds a : zlen a + 2 <= 2 * words a <= zlen a + 3.
Proof. unfold words. pose proof (Z.div_mod (zlen a + 1) 2 ltac:(done)). pose proof (Z.mod_pos_bound (zlen a + 1) 2 ltac:(done)). lia. Qed.

Lemma strings_size_nonneg args : 0 <= strings_size args.
Proof. induction args as [|a args IH]; cbn; [done|]. pose proof (words_bounds a). pose proof (zlen_nonneg a). fold (strings_size args). lia. Qed.

Lemma push_string_spec a s : 2 * words a <= sp s <= zlen (stk s) -> zlen a < 2 ^ 16 ->
  exists s', push_string a s = Done s' /\ sp s' = sp s - 2 * words a /\ stack_offset s' = stack_offset s + 2 * words a /\
    same_above (stk s) (stk s') (sp s) /\ string_at (stk s') (sp s') a.
Proof.
  intros Hs Ha. pose proof (words_bounds a). pose proof (zlen_nonneg a). unfold push_string, try_into.
  assert (fits 16 (zlen a)) as Hf by (unfold fits; lia). rewrite decide_True by done.
  destruct (store_spec (stk s) (sp s - 2 * words a) (le_split 2 (zlen a)) (sp s)) as [-> H1]; [lia|rewrite zlen_le_split; lia|lia|]. cbn [obind].
  set (l1 := write (stk s) (sp s - 2 * words a) (le_split 2 (zlen a))) in *. assert (zlen l1 = zlen (stk s)) as Hl1 by apply zlen_write.
  destruct (store_spec l1 (sp s - 2 * words a + 2) a (sp s)) as [-> H2]; [lia|lia|lia|]. cbn [obind].
  eexists. split; [done|]. cbn [sp stk stack_offset]. split_and!; [done|done|by eapply same_above_trans|]. split.
  - rewrite read_le_write by lia. unfold l1. apply read_write_le; [lia|lia|done].
  - apply slice_write_eq; lia.
Qed.

Lemma string_at_above l l' p q a : string_at l q a -> same_above l l' p -> p <= q -> string_at l' q a.
Proof. intros [H1 H2] Ha Hq. split; [by rewrite (same_above_read _ _ _ _ _ Ha)|]. destruct Ha as [_ Ha]. by rewrite Ha by lia. Qed.

Lemma strings_above l l' p q args : Forall2 (string_at l) (locations q args) args -> same_above l l' p -> p <= q - strings_size args ->
  Forall2 (string_at l') (locations q args) args.
Proof.
  intros H Ha. revert q H. induction args as [|a args IH]; intros q H Hp; [constructor|]. cbn [locations] in *. apply Forall2_cons in H as [H1 H2].
  cbn in Hp. fold (strings_size args) in Hp. pose proof (strings_size_nonneg args). constructor.
  - eapply string_at_above; [done..|]. lia.
  - apply IH; [done|lia].
Qed.

Lemma push_strings_spec args : forall s,
  strings_size args <= sp s <= zlen (stk s) -> Forall (fun a => zlen a < 2 ^ 16) args ->
  exists s', push_strings args s = Done s' /\ sp s' = sp s - strings_size args /\ stack_offset s' = stack_offset s + strings_size args /\
    same_above (stk s) (stk s') (sp s) /\ Forall2 (string_at (stk s')) (locations (sp s) args) args.
Proof.
  induction args as [|a args IH]; intros s Hs Ha; cbn [push_strings locations].
  { exists s. cbn. rewrite Z.sub_0_r, Z.add_0_r. split_and!; [done..|constructor]. }
  apply Forall_cons in Ha as [Ha Hargs]. cbn in Hs. fold (strings_size args) in Hs. pose proof (strings_size_nonneg args). pose proof (words_bounds a). pose proof (zlen_nonneg a).
  destruct (push_string_spec a s) as (s1 & -> & Es1 & Eo1 & Ha1 & Hat1); [lia|done|]. cbn [obind].
  destruct (IH s1) as (s' & -> & Es & Eo & Hab & Hall); [destruct Ha1; lia|done|]. exists s'. cbn. fold (strings_size args).
  split_and!; [done|lia|lia|eapply same_above_trans; [done..|lia]|]. rewrite <-Es1. constructor; [|done].
  eapply string_at_above; [done..|lia].
Qed.

(** Consecutive words of eight bytes. *)
Definition words_at (l : list Z) (p : Z) (ps : list Z) : Prop := forall k v, ps !! k = Some v -> read_le l 8 (p + 8 * Z.of_nat k) = Some v.

Lemma words_at_above l l' p q ps : words_at l q ps -> same_above l l' p -> p <= q -> words_at l' q ps.
Proof. intros H Ha Hq k v Hk. rewrite (same_above_read _ _ _ _ _ Ha) by lia. by apply H. Qed.

Fixpoint bases (base : Z) (args : list (list Z)) : list Z :=
  match args with
  | [] => []
  | a :: args => base :: bases (base + 2 * words a) args
  end.

Lemma string_bytes a : Z.ldiff (zlen a + 1) 1 + 2 = 2 * words a.
Proof.
  change 1 with (Z.ones 1) at 2. rewrite Z.ldiff_ones_r, Z.shiftl_mul_pow2, Z.shiftr_div_pow2 by lia. unfold words. change (2 ^ 1) with 2. lia.
Qed.

Lemma push_pointers_spec args : forall base s,
  8 * zlen args <= sp s <= zlen (stk s) -> 0 <= base -> base + strings_size args < 2 ^ 64 ->
  exists s', push_pointers args base s = Done s' /\ sp s' = sp s - 8 * zlen args /\ stack_offset s' = stack_offset s /\
    same_above (stk s) (stk s') (sp s) /\ words_at (stk s') (sp s') (reverse (bases base args)).
Proof.
  induction args as [|a args IH]; intros base s Hs Hb Hf; cbn [push_pointers bases].
  { exists s. change (zlen (@nil (list Z))) with 0. rewrite Z.mul_0_r, Z.sub_0_r. split_and!; [done..|]. by intros k v Hk. }
  rewrite zlen_cons in *. cbn in Hf. fold (strings_size args) in Hf. pose proof (zlen_nonneg args). pose proof (strings_size_nonneg args).
  pose proof (words_bounds a). pose proof (zlen_nonneg a).
  destruct (push_spec 8 base s) as (s1 & -> & Es1 & Eo1 & Ha1 & Hr1); [lia|unfold fits; lia|]. cbn [obind]. rewrite string_bytes.
  destruct (IH (base + 2 * words a) s1) as (s' & -> & Es & Eo & Hab & Hw); [destruct Ha1; lia|lia|lia|]. exists s'.
  split_and!; [done|lia|congruence|eapply same_above_trans; [done..|lia]|]. rewrite reverse_cons. intros k v Hk.
  assert (length (reverse (bases (base + 2 * words a) args)) = length args) as Hlen.
  { rewrite length_reverse. generalize (base + 2 * words a). clear. induction args as [|b args IH]; intros x; [done|]. cbn. by rewrite IH. }
  destruct (decide (k < length args)%nat) as [Hlt|Hge].
  - rewrite lookup_app_l in Hk by lia. by apply Hw.
  - rewrite lookup_app_r in Hk by lia. rewrite Hlen in Hk. assert (k = length args) as -> by (apply lookup_lt_Some in Hk; cbn in Hk; lia).
    rewrite Nat.sub_diag in Hk. injection Hk as <-. replace (sp s' + 8 * Z.of_nat (length args)) with (sp s1) by (rewrite Es; unfold zlen; lia).
    by rewrite (same_above_read _ _ _ _ _ Hab) by lia.
Qed.

Lemma push_objects_spec objects : forall s,
  24 * zlen objects <= sp s <= zlen (stk s) -> Forall (fun o => fits 64 o.1 /\ fits 128 o.2) objects ->
  exists s', push_objects objects s = Done s' /\ stack_offset s' = stack_offset s /\ same_above (stk s) (stk s') (sp s).
Proof.
  induction objects as [|[addr uuid] objects IH]; intros s Hs Ho; cbn [push_objects]; [by exists s|].
  rewrite zlen_cons in Hs. pose proof (zlen_nonneg objects). apply Forall_cons in Ho as [[H1 H2] Ho]. cbn in H1, H2.
  destruct (push_spec 8 addr s) as (s1 & -> & Es1 & Eo1 & Ha1 & _); [lia|done|]. cbn [obind].
  destruct (push_spec 16 uuid s1) as (s2 & -> & Es2 & Eo2 & Ha2 & _); [destruct Ha1; lia|done|]. cbn [obind].
  destruct (IH s2) as (s' & -> & Eo & Hab); [destruct Ha1, Ha2; lia|done|]. exists s'. split_and!; [done|congruence|].
  eapply same_above_trans; [done|eapply same_above_trans; [done..|lia]|lia].
Qed.

Lemma bases_app args : forall base a, bases base (args ++ [a]) = bases base args ++ [base + strings_size args].
Proof.
  induction args as [|b args IH]; intros base a; cbn; [by rewrite Z.add_0_r|]. rewrite IH. fold (strings_size args). by rewrite Z.add_assoc.
Qed.

Lemma strings_size_app l1 l2 : strings_size (l1 ++ l2) = strings_size l1 + strings_size l2.
Proof. induction l1 as [|a l1 IH]; cbn; [done|]. fold (strings_size l1). unfold strings_size at 1 in IH. rewrite IH. lia. Qed.

Lemma strings_size_reverse args : strings_size (reverse args) = strings_size args.
Proof.
  induction args as [|a args IH]; [done|]. rewrite reverse_cons, strings_size_app, IH. cbn. fold (strings_size args). lia.
Qed.

(** The pointers, from the last to the first, are the addresses of the strings. *)
Lemma bases_locations args : forall p, reverse (bases (STACK_BASE + p - strings_size args) (reverse args)) = (fun q => STACK_BASE + q) <$> locations p args.
Proof.
  induction args as [|a args IH]; intros p; [done|]. cbn [locations fmap list_fmap]. rewrite reverse_cons, bases_app, reverse_app, reverse_singleton. cbn [app].
  rewrite strings_size_reverse. cbn. fold (strings_size args). f_equal; [lia|]. rewrite <-IH. do 2 f_equal. lia.
Qed.

Lemma arg_iter_spec l args : forall q locs,
  words_at l q ((fun q => STACK_BASE + q) <$> locs) -> Forall2 (string_at l) locs args ->
  arg_iter l (length args) (STACK_BASE + q) = Done args.
Proof.
  induction args as [|a args IH]; intros q locs Hw Ha; [done|]. apply Forall2_cons_inv_r in Ha as (p & locs' & [H1 H2] & Hl & ->). cbn [length arg_iter].
  unfold task_load at 1. pose proof (Hw 0%nat (STACK_BASE + p) eq_refl) as H0. replace (STACK_BASE + q - STACK_BASE) with (q + 8 * Z.of_nat 0) by lia. rewrite H0. cbn [obind].
  unfold task_load at 1. replace (STACK_BASE + p - STACK_BASE) with p by lia. rewrite H1. cbn [obind].
  replace (STACK_BASE + p + 2 - STACK_BASE) with (p + 2) by lia. rewrite H2. replace (STACK_BASE + q + 8) with (STACK_BASE + (q + 8)) by lia.
  rewrite (IH (q + 8) locs'); [done| |done]. intros k v Hk. replace (q + 8 + 8 * Z.of_nat k) with (q + 8 * Z.of_nat (S k)) by lia. by apply Hw.
Qed.

Lemma stack_align s : 0 <= sp s -> align s = (mkStack (stk s) (sp s - sp s mod 8) (stack_offset s + sp s mod 8), sp s mod 8).
Proof.
  intros Hs. unfold align, align_offset. change (8 - 1) with (2 ^ 3 - 1). rewrite land_mask by lia. change (2 ^ 3) with 8.
  assert ((8 - (- sp s) mod 8) mod 8 = sp s mod 8) as ->; [|done].
  rewrite Zminus_mod, Zmod_mod, <-Zminus_mod. replace (8 - - sp s) with (sp s + 1 * 8) by lia. apply Z.mod_add. lia.
Qed.

(** C31: A program gets the arguments it was started with: what [spawn_elf] puts on the stack is what
    the start code of the program and its iterator over arguments read, for every list of arguments
    that fits on the stack. *)
Theorem program_gets_arguments args objects fresh :
  zlen fresh = STACK_PAGES * PAGE_SIZE -> Forall (fun a => zlen a < 2 ^ 16) args -> Forall (fun o => fits 64 o.1 /\ fits 128 o.2) objects ->
  strings_size args + 8 * zlen args + 24 * zlen objects + 23 <= STACK_PAGES * PAGE_SIZE ->
  exists s, fill_stack args objects fresh = Done s /\ program_args (stk s) (STACK_TOP - stack_offset s) = Done args.
Proof.
  intros Hf Ha Ho Hsz. change (STACK_PAGES * PAGE_SIZE) with 65536 in *. unfold fill_stack. change (STACK_PAGES * PAGE_SIZE) with 65536.
  pose proof (zlen_nonneg args). pose proof (zlen_nonneg objects). pose proof (strings_size_nonneg args).
  destruct (push_strings_spec args (mkStack fresh 65536 0)) as (s1 & -> & Es1 & Eo1 & Ha1 & Hat1); [cbn; lia|done|]. cbn [obind sp stk stack_offset] in *.
  rewrite stack_align by lia. set (offt := sp s1 mod 8). assert (0 <= offt < 8) as Hofft by (by apply Z.mod_pos_bound). cbn [stack_offset].
  destruct Ha1 as [El1 Ha1]. set (s2 := mkStack (stk s1) (sp s1 - offt) (stack_offset s1 + offt)).
  destruct (push_spec 8 (zlen args) s2) as (s3 & -> & Es3 & Eo3 & Ha3 & Hr3); [cbn; lia|unfold fits; lia|]. cbn [obind].
  pose proof Ha3 as [El3 _]. cbn [s2 sp stk stack_offset] in *.
  assert (STACK_TOP - (stack_offset s1 + offt) + offt = STACK_BASE + 65536 - strings_size args) as -> by (rewrite Eo1; unfold STACK_TOP, STACK_BASE; lia).
  destruct (push_pointers_spec (reverse args) (STACK_BASE + 65536 - strings_size args) s3) as (s4 & -> & Es4 & Eo4 & Ha4 & Hw4);
    [unfold zlen in *; rewrite length_reverse; lia|unfold STACK_BASE; lia|rewrite strings_size_reverse; unfold STACK_BASE; lia|]. cbn [obind].
  assert (zlen (reverse args) = zlen args) as Hzr by (unfold zlen; by rewrite length_reverse). rewrite Hzr in *. pose proof Ha4 as [El4 _].
  destruct (push_spec 8 (zlen objects) s4) as (s5 & -> & Es5 & Eo5 & Ha5 & _); [lia|unfold fits; lia|]. cbn [obind]. pose proof Ha5 as [El5 _].
  destruct (push_objects_spec objects s5) as (s6 & -> & Eo6 & Ha6); [lia|done|]. exists s6. split; [done|].
  assert (same_above (stk s4) (stk s6) (sp s4)) as Ha46 by (eapply same_above_trans; [done..|lia]).
  assert (same_above (stk s3) (stk s6) (sp s3)) as Ha36 by (eapply same_above_trans; [done..|lia]).
  assert (same_above (stk s1) (stk s6) (sp s1 - offt)) as Ha16 by (eapply same_above_trans; [done..|lia]).
  unfold program_args, start. replace (STACK_TOP - stack_offset s6 - 8) with (STACK_BASE + sp s3) by (rewrite Eo6, Eo5, Eo4, Eo3, Eo1, Es3, Es1; unfold STACK_TOP, STACK_BASE; lia).
  unfold task_load at 1. replace (STACK_BASE + sp s3 - STACK_BASE) with (sp s3) by lia. rewrite (same_above_read _ _ _ _ _ Ha36), Hr3 by lia. cbn [obind].
  rewrite Z.shiftl_mul_pow2 by lia. change (2 ^ 3) with 8. replace (STACK_BASE + sp s3 - zlen args * 8) with (STACK_BASE + sp s4) by lia.
  replace (Z.to_nat (zlen args)) with (length args) by (unfold zlen; lia). apply (arg_iter_spec _ _ _ (locations 65536 args)).
  - rewrite <-bases_locations. eapply words_at_above; [done..|lia].
  - eapply strings_above; [done..|lia].
Qed.

(** ** The pages of segments *)

Definition page_mappings (n : nat) (flags task self : Z) : list Mapping :=
  (fun i => mkMapping flags (task + PAGE_SIZE * i) (self + PAGE_SIZE * i)) <$> seqZ 0 (Z.of_nat n).

Lemma page_mappings_S n flags task self :
  page_mappings (S n) flags task self = mkMapping flags task self :: page_mappings n flags (task + PAGE_SIZE) (self + PAGE_SIZE).
Proof.
  unfold page_mappings. rewrite seqZ_cons by lia. cbn [fmap list_fmap]. rewrite Z.mul_0_r, !Z.add_0_r. f_equal.
  replace (Z.pred (Z.of_nat (S n))) with (Z.of_nat n) by lia. change (Z.succ 0) with (0 + 1). rewrite <-(fmap_add_seqZ 1 0), <-list_fmap_compose.
  apply list_fmap_ext. intros k i _. cbn. f_equal; lia.
Qed.

Lemma push_pages_spec n : forall flags task self s,
  zlen (mappings s) + Z.of_nat n <= MAX_MAPPINGS -> 0 <= task -> task + PAGE_SIZE * Z.of_nat n < 2 ^ 64 -> 0 <= self -> self + PAGE_SIZE * Z.of_nat n < 2 ^ 64 ->
  push_pages n flags task self s = Done (tt, mkSpawn (mappings s ++ page_mappings n flags task self) (reserved_ranges s) (areas s)).
Proof.
  induction n as [|n IH]; intros flags task self s Hn Ht Ht' Hs Hs'; cbn [push_pages]; [unfold page_mappings; cbn; rewrite app_nil_r; by destruct s|].
  unfold PAGE_SIZE in *. erewrite bind_done; [|unfold push_mapping; erewrite bind_done by done; rewrite decide_True by lia; done].
  rewrite !wrap_small by (unfold fits; lia). rewrite IH; cbn [mappings reserved_ranges areas]; [|rewrite zlen_app; change (zlen [_]) with 1; lia|lia..].
  rewrite page_mappings_S, <-app_assoc. done.
Qed.

(** More pages than the table has room for make [spawn_elf] panic. *)
Theorem too_many_pages_panic n : forall flags task self s,
  zlen (mappings s) <= MAX_MAPPINGS < zlen (mappings s) + Z.of_nat n -> push_pages n flags task self s = Panicked "index out of bounds".
Proof.
  induction n as [|n IH]; intros flags task self s Hn; [lia|]. cbn [push_pages]. unfold bind at 1, push_mapping at 1, bind at 1, get at 1.
  destruct (decide (zlen (mappings s) < MAX_MAPPINGS)); [|done]. cbn [modify]. unfold modify. cbn.
  rewrite IH; [done|]. cbn [mappings]. rewrite zlen_app. change (zlen [_]) with 1. lia.
Qed.

Lemma ldiff_offset x : Z.ldiff x OFFSET_MASK = PAGE_SIZE * (x / PAGE_SIZE).
Proof.
  change OFFSET_MASK with (Z.ones 12). rewrite Z.ldiff_ones_r, Z.shiftl_mul_pow2, Z.shiftr_div_pow2 by lia. unfold PAGE_SIZE. change (2 ^ 12) with 4096. lia.
Qed.

Lemma pages_of_spec size po : 0 <= size < 2 ^ 63 -> 0 <= po < PAGE_SIZE -> pages_of size po = (size + po + PAGE_SIZE - 1) / PAGE_SIZE.
Proof.
  intros Hs Hp. unfold pages_of. unfold PAGE_SIZE in Hp. change OFFSET_MASK with 4095 at 1. rewrite (wrap_small 64 (size + po)), wrap_small by (unfold fits; lia).
  rewrite ldiff_offset, Z.mul_comm, Z.div_mul by done. unfold PAGE_SIZE. f_equal. lia.
Qed.

(** A segment that is not written is shared: every byte of the file that belongs to it is mapped at
    its address, with the rights of the segment, and nothing else is mapped. *)
Theorem shared_segment_mapped mem_alloc data_ptr data ph flags g s :
  rwx_of ph = Some flags -> ph_write ph = false -> 0 <= ph_filesz ph < 2 ^ 32 -> 0 <= ph_offset ph < 2 ^ 32 -> 0 <= ph_vaddr ph < 2 ^ 63 ->
  ph_vaddr ph mod PAGE_SIZE = ph_offset ph mod PAGE_SIZE -> (PAGE_SIZE | data_ptr) -> 0 <= data_ptr < 2 ^ 63 ->
  zlen (mappings s) + pages_of (ph_filesz ph) (Z.land (ph_offset ph) OFFSET_MASK) <= MAX_MAPPINGS ->
  exists ms, load_segment mem_alloc data_ptr data ph (g, s) = Done (Ok tt, (g, mkSpawn (mappings s ++ ms) (reserved_ranges s) (areas s))) /\
    Forall (fun m => m_flags m = flags) ms /\
    forall i, 0 <= i < ph_filesz ph -> exists m, m ∈ ms /\ task_address m <= ph_vaddr ph + i < task_address m + PAGE_SIZE /\
      self_address m + (ph_vaddr ph + i - task_address m) = data_ptr + ph_offset ph + i.
Proof.
  intros Hfl Hw Hsz Ho Hv Hmod [d Hd] Hdp Hn. set (po := Z.land (ph_offset ph) OFFSET_MASK) in *.
  assert (po = ph_offset ph mod PAGE_SIZE) as Epo by (unfold po; change OFFSET_MASK with (2 ^ 12 - 1); by rewrite land_mask).
  assert (0 <= po < PAGE_SIZE) as Hpo by (rewrite Epo; by apply Z.mod_pos_bound).
  set (n := pages_of (ph_filesz ph) po) in *. assert (n = (ph_filesz ph + po + PAGE_SIZE - 1) / PAGE_SIZE) as En by (apply pages_of_spec; [lia|done]).
  assert (0 <= n) as Hn0 by (rewrite En; apply Z.div_pos; unfold PAGE_SIZE in *; lia).
  pose proof (Z.div_mod (ph_offset ph) PAGE_SIZE ltac:(done)) as Eo. pose proof (Z.div_mod (ph_vaddr ph) PAGE_SIZE ltac:(done)) as Ev.
  pose proof (zlen_nonneg (mappings s)). unfold MAX_MAPPINGS in *.
  exists (page_mappings (Z.to_nat n) flags (PAGE_SIZE * (ph_vaddr ph / PAGE_SIZE)) (data_ptr + PAGE_SIZE * (ph_offset ph / PAGE_SIZE))). split_and!.
  - unfold load_segment. rewrite Hfl, Hw. fold po n. rewrite !ldiff_offset. rewrite wrap_small by (unfold fits, PAGE_SIZE in *; lia).
    erewrite bind_done; [done|]. apply on_snd_done, push_pages_spec; rewrite ?Z2Nat.id by done; unfold MAX_MAPPINGS, PAGE_SIZE in *; lia.
  - apply Forall_fmap, Forall_forall. done.
  - intros i Hi. set (k := (po + i) / PAGE_SIZE). pose proof (Z.div_mod (po + i) PAGE_SIZE ltac:(done)) as Ek. pose proof (Z.mod_pos_bound (po + i) PAGE_SIZE ltac:(done)).
    assert (0 <= k < n) as Hk.
    { unfold k. split; [apply Z.div_pos; [lia|done]|]. rewrite En. apply Z.lt_le_trans with ((po + i) / PAGE_SIZE + 1); [lia|].
      rewrite <-Z.div_add by done. apply Z.div_le_mono; [done|]. lia. }
    eexists. split; [apply list_elem_of_fmap; exists k; split; [done|]; apply elem_of_seqZ; lia|]. cbn [task_address self_address]. fold k in Ek. rewrite <-Hmod in Epo. lia.
Qed.

(** ** Witness *)

Lemma program_gets_arguments_witness :
  exists s, fill_stack [[45; 97]; [49; 48; 48]] [(1, 7)] (replicate (Z.to_nat 65536) 0) = Done s /\
    program_args (stk s) (STACK_TOP - stack_offset s) = Done [[45; 97]; [49; 48; 48]].
Proof.
  destruct (program_gets_arguments [[45; 97]; [49; 48; 48]] [(1, 7)] (replicate (Z.to_nat 65536) 0)) as (s & E & Ea).
  - by vm_compute.
  - apply (bool_decide_unpack _). by vm_compute.
  - apply (bool_decide_unpack _). by vm_compute.
  - by vm_compute.
  - exists s. split; [exact E|exact Ea].
Defined.
