(* ===== verification/Abi.v ===== *)
(** * The interface of the kernel

    The structures and numbers that programs and the kernel share: src/lib/rust/kernel/src/lib.rs and
    riscv.rs for programs in Rust, src/lib/c/std/include/kernel.h for programs in C, and
    src/kernel/src/task/ipc.rs and syscall.rs for the kernel.

    The theorems: the three declarations of a packet, and the declarations of the other shared
    structures, place every field at the same offset with the same size; operations and identifiers
    convert back and forth; page numbers convert to addresses except that the highest bits are lost. *)

From S2P Require Import Prelude Page DuxList Allocator Sv39 Sv39Spec UserMem Arena Registry Task Executor Ipc Syscall.

(** ** Layout of structures *)

(** The size and alignment of the types that are used, on a 64-bit machine. *)
Inductive ctype : Type :=
| U8 | U16 | U32 | U64 | I64 | Pointer | Array2U64.

Definition size_of (t : ctype) : Z := match t with U8 => 1 | U16 => 2 | U32 => 4 | U64 => 8 | I64 => 8 | Pointer => 8 | Array2U64 => 16 end.
Definition align_of (t : ctype) : Z := match t with U8 => 1 | U16 => 2 | U32 => 4 | U64 => 8 | I64 => 8 | Pointer => 8 | Array2U64 => 8 end.

Definition align_up (x a : Z) : Z := (x + a - 1) / a * a.

(** [#[repr(C)]]: the offsets of the fields from [off] on, and the end of the last. *)
Fixpoint place (off : Z) (l : list ctype) : list Z * Z :=
  match l with
  | [] => ([], off)
  | t :: l =>
    let o := align_up off (align_of t) in
    let '(os, e) := place (o + size_of t) l in
    (o :: os, e)
  end.

(** The offsets and the size of a structure. *)
Definition repr_c (l : list ctype) : list Z * Z :=
  let '(os, e) := place 0 l in
  (os, align_up e (foldr Z.max 1 (align_of <$> l))).

(** A structure: the names of its fields and their types. *)
Abbreviation struct := (list (string * ctype)).

Definition layout (s : struct) : list Z * Z := repr_c (snd <$> s).

(** Every field with its offset and size. *)
Definition fields_at (s : struct) : list (string * Z * Z) :=
  zip_with (fun f o => (f.1, o, size_of f.2)) s (layout s).1.

(** ** The structures *)

(** [Packet] of the library. *)
Definition lib_Packet : struct :=
  [("uuid"%string, Array2U64); ("data"%string, Pointer); ("name"%string, Pointer); ("offset"%string, U64); ("length"%string, U64);
   ("address"%string, U64); ("flags"%string, U16); ("name_len"%string, U16); ("id"%string, U8); ("opcode"%string, U8)].

(** [Packet] of the kernel. *)
Definition kernel_Packet : struct :=
  [("uuid"%string, Array2U64); ("data"%string, Pointer); ("name"%string, Pointer); ("data_offset"%string, U64); ("data_length"%string, U64);
   ("address"%string, U64); ("flags"%string, U16); ("name_length"%string, U16); ("id"%string, U8); ("opcode"%string, U8)].

(** [struct kernel_ipc_packet] of the C header. *)
Definition c_Packet : struct :=
  [("uuid"%string, Array2U64); ("data"%string, Pointer); ("name"%string, Pointer); ("offset"%string, I64); ("length"%string, U64);
   ("address"%string, U64); ("flags"%string, U16); ("name_len"%string, U16); ("id"%string, U8); ("opcode"%string, U8)].

Definition lib_TaskSpawnMapping : struct :=
  [("task_address"%string, Pointer); ("typ"%string, U8); ("flags"%string, U8); ("self_address"%string, Pointer)].

Definition kernel_Mapping : struct :=
  [("task_address"%string, Pointer); ("typ"%string, U8); ("flags"%string, U8); ("self_address"%string, Pointer)].

Definition lib_FreePage : struct := [("address"%string, Pointer); ("count"%string, U64)].
Definition kernel_FreePage : struct := [("address"%string, Pointer); ("count"%string, U64)].
Definition c_free_range : struct := [("address"%string, Pointer); ("count"%string, U64)].

(** ** Operations *)

Inductive Op : Type :=
| Read | Write | Info | List | MapRead | MapWrite | MapReadWrite | MapExec | MapReadExec | MapReadCow | MapExecCow | MapReadExecCow.

Definition op_list : list Op :=
  [Read; Write; Info; List; MapRead; MapWrite; MapReadWrite; MapExec; MapReadExec; MapReadCow; MapExecCow; MapReadExecCow].

#[export] Instance Op_eq_dec : EqDecision Op.
Proof. solve_decision. Defined.

Inductive UnknownOp : Type := UnknownOp_.

Definition op_code (op : Op) : Z :=
  match op with
  | Read => 1 | Write => 2 | Info => 3 | List => 4 | MapRead => 5 | MapWrite => 6 | MapReadWrite => 7 | MapExec => 8
  | MapReadExec => 9 | MapReadCow => 10 | MapExecCow => 11 | MapReadExecCow => 12
  end.

(** [TryFrom<NonZeroU8> for Op]: up to the number of variants, the number is the variant. *)
Definition Op_try_from (op : Z) : result Op UnknownOp :=
  if decide (op <= zlen op_list) then ok_or UnknownOp_ (nth_z op_list (op - 1)) else Err UnknownOp_.

(** The numbers of the C header. *)
Definition c_ops : list (Z * Op) :=
  [(1, Read); (2, Write); (3, Info); (4, List); (5, MapRead); (6, MapWrite); (7, MapReadWrite); (8, MapExec); (9, MapReadExec); (10, MapReadCow);
   (11, MapExecCow); (12, MapReadExecCow)].

(** ** Identifiers, which are those of DuxList *)

(** The bytes [Display] prints, in order; a shift of a 128-bit number takes the amount modulo 128. *)
Definition UUID_display (u : UUID) : list Z :=
  let n := UUID_to_u128 u in
  [wrap 8 n; wrap 8 (Z.shiftr n 8)] ++
  concat ((fun i => [wrap 8 (Z.shiftr n (wrap 7 (16 * i))); wrap 8 (Z.shiftr n (wrap 7 (24 * i)))]) <$> seqZ 1 7).

(** ** Page numbers and physical addresses *)

Inductive OutOfRange : Type := OutOfRange_.
Inductive BadAlignment : Type := BadAlignment_.

(** [checked_shl] only looks at the number of bits to shift by. *)
Definition checked_shl (x n : Z) : option Z := if decide (n < 64) then Some (wrap 64 (Z.shiftl x n)) else None.

Definition PhysicalAddress_try_from (ppn : Z) : result Z OutOfRange := ok_or OutOfRange_ (checked_shl ppn OFFSET_BITS).

Definition PPN_try_from (pa : Z) : result Z BadAlignment :=
  if decide (Z.land pa OFFSET_MASK = 0) then Ok (Z.shiftr pa OFFSET_BITS) else Err BadAlignment_.

(** ** Calls *)

(** The calls of the libraries: name, number and how many arguments are passed. *)
Definition lib_calls : list (string * Z * Z) :=
  [("io_wait", 0, 1); ("io_set_queues", 1, 4); ("io_set_notify_handler", 2, 1); ("mem_alloc", 3, 3); ("mem_dealloc", 4, 2);
   ("mem_physical_address", 7, 3); ("sys_set_interrupt_controller", 8, 3); ("io_notify_return", 9, 0); ("sys_reserve_interrupt", 10, 1);
   ("task_spawn", 11, 4); ("dev_dma_alloc", 12, 3); ("sys_platform_info", 13, 2); ("sys_direct_alloc", 14, 4); ("sys_log", 15, 2);
   ("sys_registry_add", 16, 3); ("sys_registry_get", 17, 2)]%string.

Definition c_calls : list (string * Z * Z) :=
  [("io_wait", 0, 1); ("io_set_queues", 1, 6); ("mem_alloc", 3, 3); ("mem_dealloc", 4, 2); ("mem_get_flags", 5, 1); ("mem_set_flags", 6, 2);
   ("sys_log", 15, 2)]%string.

(** The kernel's table: name and how many arguments are read. *)
Definition kernel_calls : list (string * Z) :=
  [("io_wait", 2); ("io_set_queues", 4); ("io_set_notify_handler", 1); ("mem_alloc", 3); ("mem_dealloc", 2); ("mem_get_flags", 0);
   ("mem_set_flags", 0); ("mem_physical_addresses", 3); ("sys_set_interrupt_controller", 3); ("io_notify_return", 1);
   ("sys_reserve_interrupt", 1); ("task_spawn", 4); ("dev_dma_alloc", 3); ("sys_platform_info", 2); ("sys_direct_alloc", 4); ("sys_log", 2);
   ("sys_registry_add", 3); ("sys_registry_get", 2); ("placeholder", 0); ("placeholder", 0)]%string.

(** The calls of a library that the kernel has under another name, or with another number of arguments. *)
Definition mismatches (calls : list (string * Z * Z)) : list string :=
  (fun c => c.1.1) <$> filter (fun c => nth_z kernel_calls c.1.2 <> Some (c.1.1, c.2)) calls.

(** ** The registry, from a program *)

Inductive AddError : Type := AddUnavailable | AddNameTooLong | AddOccupied.
Inductive GetError : Type := GetNotFound.

Definition Return_OK : Z := 0.
Definition Return_MEMORY_UNAVAILABLE : Z := 4.
Definition Return_NOT_FOUND : Z := 9.
Definition Return_TOO_LONG : Z := 10.
Definition Return_OCCUPIED : Z := 11.

Definition unreachable : string := "internal error: entered unreachable code".

Section client.
Context {A : Type} `{FrameAllocator A}.
Context (idle_task_stub : Z) (fuel : nat) (task : Z).
Abbreviation K := (Kernel A Services).

(** A system call of the library that returns: the status and the value. *)
Definition ecall (n a0 a1 a2 a3 : Z) : M K (Z * Z) :=
  let* r := syscall idle_task_stub fuel n a0 a1 a2 a3 task in
  match r with
  | Return st v => ret (status_code st, v)
  | _ => panic "does not return a status"
  end.

Definition task_registry_add (name len address : Z) : M K (result unit AddError) :=
  let* '(status, _) := ecall 16 name len address 0 in
  if decide (status = Return_OK) then ret (Ok tt)
  else if decide (status = Return_MEMORY_UNAVAILABLE) then ret (Err AddUnavailable)
  else if decide (status = Return_TOO_LONG) then ret (Err AddNameTooLong)
  else if decide (status = Return_OCCUPIED) then ret (Err AddOccupied)
  else panic unreachable.

Definition task_registry_get (name len : Z) : M K (result Z GetError) :=
  let* '(status, value) := ecall 17 name len 0 0 in
  if decide (status = Return_OK) then ret (Ok value)
  else if decide (status = Return_NOT_FOUND) then ret (Err GetNotFound)
  else panic unreachable.

(** ** Packets as programs see them *)

(** The accesses to the fields of a structure: an array is accessed by element. *)
Definition words_of (f : Z * ctype) : list (Z * Z) :=
  match f.2 with
  | Array2U64 => [(f.1, 8); (f.1 + 8, 8)]
  | t => [(f.1, size_of t)]
  end.

Definition accesses (s : struct) : list (Z * Z) := concat (words_of <$> zip (layout s).1 (snd <$> s)).

Fixpoint load_words (ws : list (Z * Z)) (a : Z) : M (Machine A) (list Z) :=
  match ws with
  | [] => ret []
  | (o, sz) :: ws => let* v := load_n sz (a + o) in let* vs := load_words ws a in ret (v :: vs)
  end.

Fixpoint store_words (ws : list (Z * Z)) (a : Z) (vs : list Z) : M (Machine A) unit :=
  match ws, vs with
  | (o, sz) :: ws, v :: vs => store_n sz (a + o) v ;; store_words ws a vs
  | _, _ => ret tt
  end.
End client.

(** The values of a packet, in the order of the fields. *)
Definition packet_values (p : Packet) : list Z :=
  [(pk_uuid p).1; (pk_uuid p).2; pk_data p; pk_name p; pk_data_offset p; pk_data_length p; pk_address p; pk_flags p; pk_name_length p; pk_id p;
   pk_opcode p].

(** The name the kernel gives to a field of the library. *)
Definition kernel_name (f : string) : string :=
  if decide (f = "offset"%string) then "data_offset"
  else if decide (f = "length"%string) then "data_length"
  else if decide (f = "name_len"%string) then "name_length"
  else f.

(** ** Theorems *)

Lemma load_words_packet {A} `{FrameAllocator A} (a : Z) (s : Machine A) :
  load_words (accesses lib_Packet) a s = (let* p := read_packet a in ret (packet_values p)) s.
Proof.
  replace (accesses lib_Packet)
    with [(0, 8); (8, 8); (16, 8); (24, 8); (32, 8); (40, 8); (48, 8); (56, 2); (58, 2); (60, 1); (61, 1)] by reflexivity.
  cbn [load_words]. unfold read_packet, bind, ret. rewrite !Z.add_0_r.
  repeat match goal with |- context [load_n ?sz ?va ?st] => destruct (load_n sz va st) as [[? ?]| |]; try reflexivity end.
Qed.

Lemma store_words_packet {A} `{FrameAllocator A} (a : Z) (p : Packet) (s : Machine A) :
  store_words (accesses lib_Packet) a (packet_values p) s = write_packet a p s.
Proof.
  replace (accesses lib_Packet)
    with [(0, 8); (8, 8); (16, 8); (24, 8); (32, 8); (40, 8); (48, 8); (56, 2); (58, 2); (60, 1); (61, 1)] by reflexivity.
  cbn [store_words packet_values]. unfold write_packet, bind, ret. rewrite !Z.add_0_r.
  repeat match goal with |- context [store_n ?sz ?va ?v ?st] => destruct (store_n sz va v st) as [[[] ?]| |]; try reflexivity end.
Qed.

(** Programs and the kernel agree on packets.  The library's, the C header's and the kernel's
    declarations give every field the same offset and size, 64 bytes in all, and reading or writing a
    packet field by field as the library declares it is what the kernel's own accesses do, in every
    state of memory, faults included. *)
Theorem packet_layouts_agree {A} `{FrameAllocator A} (a : Z) (p : Packet) (s : Machine A) :
  fields_at c_Packet = fields_at lib_Packet /\
  fields_at kernel_Packet = (fun f => (kernel_name f.1.1, f.1.2, f.2)) <$> fields_at lib_Packet /\
  Forall (fun t => (layout t).2 = 64) [lib_Packet; c_Packet; kernel_Packet] /\
  load_words (accesses lib_Packet) a s = (let* q := read_packet a in ret (packet_values q)) s /\
  store_words (accesses lib_Packet) a (packet_values p) s = write_packet a p s.
Proof. split_and!; [done|done|by repeat constructor|apply load_words_packet|apply store_words_packet]. Qed.

(** The other shared structures agree as well. *)
Theorem shared_structures_agree :
  fields_at lib_TaskSpawnMapping = fields_at kernel_Mapping /\ (layout lib_TaskSpawnMapping).2 = 24 /\
  fields_at lib_FreePage = fields_at kernel_FreePage /\ fields_at lib_FreePage = fields_at c_free_range /\ (layout lib_FreePage).2 = 16.
Proof. done. Qed.

(** Operations are numbered without gaps: exactly 1 to 12 are operations, and each converts back. *)
Theorem op_codes_roundtrip (op : Op) (n : Z) :
  Op_try_from (op_code op) = Ok op /\ (op_code op, op) ∈ c_ops /\
  (0 < n < 256 -> (exists o, Op_try_from n = Ok o /\ op_code o = n) \/ Op_try_from n = Err UnknownOp_ /\ 12 < n).
Proof.
  split; [by destruct op|]. split; [destruct op; set_solver|]. intros Hn.
  destruct (decide (n <= 12)) as [Hle|Hgt].
  - left. assert (n = 1 \/ n = 2 \/ n = 3 \/ n = 4 \/ n = 5 \/ n = 6 \/ n = 7 \/ n = 8 \/ n = 9 \/ n = 10 \/ n = 11 \/ n = 12) as Hc by lia.
    destruct_or! Hc; subst n; eexists; split; reflexivity.
  - right. split; [|lia]. unfold Op_try_from. by rewrite decide_False.
Qed.

(** Identifiers convert to 128 bits and back. *)
Theorem uuid_roundtrip (n : Z) (u : UUID) :
  (fits 128 n -> UUID_to_u128 (UUID_new n) = n) /\
  (fits 64 (uuid_x u) -> fits 64 (uuid_y u) -> UUID_new (UUID_to_u128 u) = u).
Proof.
  split.
  - intros Hn. unfold UUID_to_u128, UUID_new. cbn. unfold wrap, fits in *. apply Z.bits_inj'. intros i Hi.
    rewrite Z.lor_spec, Z.shiftl_spec by lia. destruct (decide (i < 64)).
    + rewrite (Z.testbit_neg_r _ (i - 64)) by lia. by rewrite orb_false_r, Z.mod_pow2_bits_low by lia.
    + rewrite (Z.mod_pow2_bits_high n) by lia. cbn. rewrite Z.mod_small.
      * rewrite Z.shiftr_spec by lia. f_equal. lia.
      * rewrite Z.shiftr_div_pow2 by lia. split; [apply Z.div_pos; lia|]. apply Z.div_lt_upper_bound; lia.
  - destruct u as [x y]. cbn. unfold fits. intros Hx Hy. unfold UUID_to_u128, UUID_new. cbn.
    assert (Z.lor x (Z.shiftl y 64) = x + y * 2 ^ 64) as ->.
    { rewrite Z.shiftl_mul_pow2 by lia. rewrite <-Z.add_lor_land.
      enough (Z.land x (y * 2 ^ 64) = 0) as -> by lia. apply Z.bits_inj'. intros i Hi.
      rewrite Z.land_spec, Z.bits_0, <-Z.shiftl_mul_pow2, Z.shiftl_spec by lia. destruct (decide (i < 64)).
      - rewrite (Z.testbit_neg_r _ (i - 64)) by lia. apply andb_false_r.
      - rewrite <-(Z.mod_small x (2 ^ 64)) by lia. by rewrite Z.mod_pow2_bits_high by lia. }
    f_equal; unfold wrap.
    + rewrite Z.mod_add by lia. by apply Z.mod_small.
    + rewrite Z.shiftr_div_pow2, Z.div_add by lia. rewrite (Z.div_small x) by lia. by apply Z.mod_small.
Qed.

(** A page number is never out of range: one of more than 52 bits loses its high bits instead. *)
Theorem physical_address_truncates :
  PhysicalAddress_try_from (2 ^ 52) = Ok 0 /\
  (forall ppn, fits 52 ppn -> exists pa, PhysicalAddress_try_from ppn = Ok pa /\ PPN_try_from pa = Ok ppn).
Proof.
  split; [done|]. intros ppn Hp. exists (ppn * 4096). unfold fits in Hp.
  unfold PhysicalAddress_try_from, checked_shl, PPN_try_from. change OFFSET_BITS with 12. rewrite decide_True by lia. split.
  - cbn [ok_or]. rewrite wrap_small, Z.shiftl_mul_pow2 by (unfold fits; rewrite ?Z.shiftl_mul_pow2; lia). done.
  - change OFFSET_MASK with (Z.ones 12). rewrite Z.land_ones, decide_True by (rewrite ?Z.mod_mul; lia).
    rewrite Z.shiftr_div_pow2 by lia. by rewrite Z.div_mul.
Qed.

(** An identifier is not printed byte by byte: from the third pair on the second byte is another one. *)
Theorem uuid_display_repeats :
  UUID_display (UUID_new 0x0f0e0d0c0b0a09080706050403020100) = [0; 1; 2; 3; 4; 6; 6; 9; 8; 12; 10; 15; 12; 2; 14; 5].
Proof. done. Qed.

(** The calls of the two libraries are at the kernel's numbers.  The kernel reads registers that a few of
    them do not set: the upper half of the time, which is not used on riscv64, and the task to defer to in
    [io_notify_return].  The C header still has the arguments of an older [io_set_queues]. *)
Theorem calls_agree :
  zlen kernel_calls = TABLE_LEN /\
  mismatches lib_calls = ["io_wait"; "mem_physical_address"; "io_notify_return"]%string /\
  mismatches c_calls = ["io_wait"; "io_set_queues"; "mem_get_flags"; "mem_set_flags"]%string.
Proof. by vm_compute. Qed.

(** ** The registry, from a program *)

Section client_theorems.
Context {A : Type} `{FrameAllocator A}.
Abbreviation K := (Kernel A Services).
Implicit Types k : K.

Definition set_registry k (r : Registry) : K :=
  set_ext k (mkServices r (plic (ext k)) (platform_info_phys_ptr (ext k)) (platform_info_size (ext k)) (console (ext k))).

(** What the program gets for the registry's answer. *)
Definition add_answer (r : result unit RegistryAddError) : result unit AddError :=
  match r with
  | Ok _ => Ok tt
  | Err RegistryFull => Err AddUnavailable
  | Err NameTooLong => Err AddNameTooLong
  | Err Occupied => Err AddOccupied
  end.

(** The name is in memory the program can read. *)
Definition name_at k (name : Z) (nm : list Z) : Prop :=
  read_bytes name (length nm) (machine k) = Done (nm, machine k).

Lemma set_machine_self k : set_machine k (machine k) = k.
Proof. by destruct k. Qed.

Lemma registry_add_call idle fuel task k l name nm address :
  registry_repr (registry (ext k)) l -> name_at k name nm ->
  exists r, task_registry_add idle fuel task name (zlen nm) address k =
      Done (add_answer (assoc_add l nm (if decide (address = usize_MAX) then next_id k else address)).1, set_registry k r) /\
    registry_repr r (assoc_add l nm (if decide (address = usize_MAX) then next_id k else address)).2.
Proof.
  intros Hr Hn. set (addr := if decide (address = usize_MAX) then next_id k else address).
  unfold task_registry_add, ecall. change (syscall idle fuel 16 name (zlen nm) address 0 task)
    with (sys_registry_add (A := A) name (zlen nm) address).
  unfold sys_registry_add, current_address, gets, bind. cbn beta iota. fold addr.
  destruct (decide (zlen nm > 31)) as [Hl|Hl].
  - exists (registry (ext k)). unfold assoc_add. rewrite decide_True by done. split; [|done]. cbn. unfold set_registry.
    by destruct k as [? ? ? ? ? ? ? ? []].
  - destruct (registry_add_spec _ l nm addr Hr) as (r & E & Hr'). exists r. split; [|done].
    unfold on_machine, zoom, name_at in *. unfold zlen at 1. rewrite Nat2Z.id, Hn. unfold on_registry, zoom.
    rewrite set_machine_self, E. unfold ret. by destruct (assoc_add l nm addr).1 as [[]|[]].
Qed.

Lemma existsb_false_get (l : list (list Z * Z)) nm es :
  take (length l) es = (fun x => Some (entry_of x)) <$> l ->
  existsb (fun e => match e with Some e => bool_decide (Registry.name_len e = zlen nm) | None => false end) es = false ->
  assoc_get l nm = None.
Proof.
  revert es. induction l as [|[n a] l IH]; intros es He Hx; [done|]. destruct es as [|e es]; [done|]. cbn in He.
  injection He as -> He. cbn in Hx. apply orb_false_iff in Hx as [Hx1 Hx2]. cbn. rewrite decide_False; [by apply (IH es)|].
  intros ->. by rewrite bool_decide_eq_true_2 in Hx1.
Qed.

Lemma assoc_get_long l : Forall (fun x : list Z * Z => (length x.1 <= 31)%nat) l -> assoc_get l (replicate 32 0) = None.
Proof. induction 1 as [|[n a] l Hx Hl IH]; [done|]. cbn. rewrite decide_False; [done|]. intros ->. cbn in Hx. lia. Qed.

Lemma registry_get_call idle fuel task k l name nm :
  registry_repr (registry (ext k)) l -> name_at k name nm ->
  task_registry_get idle fuel task name (zlen nm) k = Done (ok_or GetNotFound (assoc_get l nm), k).
Proof.
  intros Hr Hn. unfold task_registry_get, ecall. change (syscall idle fuel 17 name (zlen nm) 0 0 task)
    with (sys_registry_get (A := A) name (zlen nm)).
  unfold sys_registry_get, gets, bind. cbn beta iota.
  assert (forall q, on_registry (registry_get q) k = Done (assoc_get l q, k)) as Eg.
  { intros q. unfold on_registry, zoom. rewrite (registry_get_spec _ l) by done. by destruct k as [? ? ? ? ? ? ? ? []]. }
  destruct (existsb _ _) eqn:Hx.
  - unfold on_machine, zoom. unfold zlen at 1. rewrite Nat2Z.id, Hn, set_machine_self, Eg. unfold ret.
    by destruct (assoc_get l nm).
  - unfold ret at 1. cbv beta iota. rewrite Eg. rewrite assoc_get_long by apply Hr. unfold ret.
    by rewrite (existsb_false_get l nm _ (rg_entries _ _ Hr) Hx).
Qed.

Lemma assoc_get_snoc l nm a : assoc_get (l ++ [(nm, a)]) nm = Some (default a (assoc_get l nm)).
Proof. induction l as [|[n b] l IH]; cbn; [by rewrite decide_True|]. by case_decide. Qed.
End client_theorems.

(** C32: a program that registers a name finds it again.  While the table has room and the name is at most
    31 bytes, [registry::add] succeeds through the system call, leaves memory alone, and every later
    [registry::get] of the name, from wherever a program has it in memory, returns the address that was
    registered under it first; an all-ones address registers the current task.  Neither function reaches
    the statuses it declares unreachable. *)
Theorem registry_client_roundtrip {A} `{FrameAllocator A} (idle : Z) (fuel : nat) (task task2 : Z) (k : Kernel A Services)
    (l : list (list Z * Z)) (name : Z) (nm : list Z) (address : Z) :
  registry_repr (registry (ext k)) l -> name_at k name nm -> zlen nm <= 31 -> zlen l < 16 ->
  exists k', task_registry_add idle fuel task name (zlen nm) address k = Done (Ok tt, k') /\ machine k' = machine k /\
    forall name2, name_at k' name2 nm ->
      task_registry_get idle fuel task2 name2 (zlen nm) k' =
        Done (Ok (default (if decide (address = usize_MAX) then next_id k else address) (assoc_get l nm)), k').
Proof.
  intros Hr Hn Hl Hroom. destruct (registry_add_call idle fuel task k l name nm address Hr Hn) as (r & E & Hr').
  exists (set_registry k r). unfold assoc_add in *. rewrite !decide_False in * by lia. cbn [fst snd] in *. split; [exact E|].
  split; [done|]. intros name2 Hn2. rewrite (registry_get_call _ _ _ (set_registry k r) _ _ nm Hr' Hn2). by rewrite assoc_get_snoc.
Qed.

(** The name "uart" at 0x5000. *)
Definition named_kernel : Kernel Pmm Services :=
  sys_kernel (mkMachine (wr (phys mapped_machine) 0x80200 0 0x74726175) (satp mapped_machine) (pmm mapped_machine)).

Lemma registry_client_roundtrip_witness :
  exists k', task_registry_add 0 0 100 0x5000 4 7 named_kernel = Done (Ok tt, k') /\
    task_registry_get 0 0 100 0x5000 4 k' = Done (Ok 7, k').
Proof.
  destruct (registry_client_roundtrip 0 0 100 100 named_kernel [] 0x5000 [117; 97; 114; 116] 7) as (k' & E & Hm & Hg).
  - apply registry_init_repr.
  - by vm_compute.
  - by vm_compute.
  - by vm_compute.
  - exists k'. split; [exact E|]. apply (Hg 0x5000). unfold name_at. rewrite Hm. by vm_compute.
Defined.
