(* ===== verification/VirtioSetup.v ===== *)
(** * How the drivers of virtio devices start

    The drivers in src/services/driver/virtio_block, virtio_input and virtio_gpu start alike (main.rs of
    each): they take the header and the memory areas of their device from their arguments and map them
    one after the other.  The libraries in src/lib/rust/virtio_block and virtio_input begin to set their
    device up alike as well.

    The theorems: with the arguments the PCI driver passes, the driver maps the header and every memory
    area of the device, each at addresses of its own, and finds each area under its index; an area
    smaller than a page is not mapped at all; no feature is ever accepted. *)

From S2P Require Import Prelude Page DuxMem DriverArgs Pci PciDriver.

(** ** Arguments *)

(** [pci] and [bars] of [main]: address and size. *)
Record Started : Type := mkStarted { s_pci : option (Z * Z); s_bars : list (option (Z * Z)) }.

Definition Started0 : Started := mkStarted None (replicate 6 None).

(** The closure that is given every argument. *)
Definition driver_arg (st : Started) (a : Arg) : outcome Started :=
  match a with
  | Pci _ a s =>
    match s_pci st with
    | None => Done (mkStarted (Some (a, s)) (s_bars st))
    | Some _ => Panicked "multiple pci addresses specified"
    end
  | BarMmio i a s =>
    match nth_z (s_bars st) i with
    | None => Panicked "index out of range"
    | Some (Some _) => Panicked "bar specified multiple times"
    | Some None => Done (mkStarted (s_pci st) (set_z (s_bars st) i (Some (a, s))))
    end
  | BarIo _ _ _ => Done st
  | _ => Panicked "bad argument"
  end.

Fixpoint driver_args (st : Started) (args : list Arg) : outcome Started :=
  match args with
  | [] => Done st
  | a :: args => let! st := driver_arg st a in driver_args st args
  end.

(** ** Mapping *)

(** The next free address, and the calls that mapped memory: virtual address, page number, pages. *)
Record Maps : Type := mkMaps { virt : Z; mapped : list (Z * Z * Z) }.

Section mapping.
(** The status of the system call. *)
Context (sys_direct_alloc : Z -> Z -> Z -> Z).

Definition map_region (too_large failed : string) (region : Z * Z) : M Maps Z :=
  let* addr := unwrap "address out of range" (try_into 64 (Z.shiftr region.1 OFFSET_BITS)) in
  let* size := unwrap too_large (try_into 64 region.2) in
  let* m := get in
  if decide (sys_direct_alloc (virt m) addr (size / PAGE_SIZE) <> 0) then panic failed else
  modify (fun m => mkMaps (wrap 64 (virt m + PAGE_SIZE * (size / PAGE_SIZE))) (mapped m ++ [(virt m, addr, size / PAGE_SIZE)])) ;;
  ret (virt m).

Fixpoint map_bars (bars : list (option (Z * Z))) : M Maps (list (option Z)) :=
  match bars with
  | [] => ret []
  | b :: bars =>
    let* w :=
      match b with
      | None => ret None
      | Some r =>
        let* v := map_region "size out of range" "failed to map BAR region" r in
        if decide (v = 0) then panic "called `Option::unwrap()` on a `None` value" else ret (Some v)
      end in
    let* ws := map_bars bars in
    ret (w :: ws)
  end.

(** From the arguments to the address of the header and of the areas. *)
Definition driver_start (args : list Arg) : outcome ((Z * list (option Z)) * Maps) :=
  let! st := driver_args Started0 args in
  match s_pci st with
  | None => Panicked "called `Option::unwrap()` on a `None` value"
  | Some pci =>
    (let* header := map_region "size too large" "failed to map pci header" pci in
     let* bars := map_bars (s_bars st) in
     ret (header, bars)) (mkMaps 0x10000000 [])
  end.
End mapping.

(** ** Packets *)

Section packets.
(** The status of the system call, and whether the library takes the range back. *)
Context (mem_dealloc : Z -> Z -> Z) (add_free_range : Z -> Z -> bool).

(** The pages that came with a packet are unmapped and offered again. *)
Definition release {S} (data length : Z) : M S unit :=
  if decide (data = 0) then ret tt else
  let len := min_pages_for_range length in
  if decide (mem_dealloc data len <> 0) then panic "assertion failed: `(left == right)`" else
  if decide (Z.land data OFFSET_MASK <> 0) then panic "called `Result::unwrap()` on an `Err` value" else
  if add_free_range data len then ret tt else panic "called `Result::unwrap()` on an `Err` value".
End packets.

(** ** The common configuration *)

(** What a driver does to the registers: the features the device offers, what was written to the
    register of these, the features the driver accepted, and the writes to the status. *)
Record Setup : Type := mkSetup {
  feature_select : Z; device_feature : Z; feature_writes : list Z; driver_feature : Z; status_writes : list Z
}.

Definition STATUS_ACKNOWLEDGE : Z := 0x1.
Definition STATUS_DRIVER : Z := 0x2.
Definition STATUS_DRIVER_OK : Z := 0x4.
Definition STATUS_FEATURES_OK : Z := 0x8.

(** The first steps of [new], up to [STATUS_FEATURES_OK]. *)
Definition negotiate (features : Z) : M Setup unit :=
  modify (fun s => mkSetup 0 (device_feature s) (feature_writes s) (driver_feature s) (status_writes s)) ;;
  let* offered := gets device_feature in
  modify (fun s => mkSetup (feature_select s) (device_feature s) (feature_writes s ++ [Z.land features offered]) (driver_feature s) (status_writes s)) ;;
  modify (fun s => mkSetup (feature_select s) (device_feature s) (feature_writes s) (driver_feature s)
            (status_writes s ++ [Z.lor (Z.lor STATUS_ACKNOWLEDGE STATUS_DRIVER) STATUS_FEATURES_OK])).

Definition driver_ok : M Setup unit :=
  modify (fun s => mkSetup (feature_select s) (device_feature s) (feature_writes s) (driver_feature s)
            (status_writes s ++ [Z.lor (Z.lor (Z.lor STATUS_ACKNOWLEDGE STATUS_DRIVER) STATUS_FEATURES_OK) STATUS_DRIVER_OK])).

(** The features a driver wants are written to the register of the features the device offers; the
    register of the features the driver accepts keeps its value. *)
Theorem no_feature_accepted features s :
  exists s', negotiate features s = Done (tt, s') /\ driver_feature s' = driver_feature s /\
    feature_writes s' = feature_writes s ++ [Z.land features (device_feature s)] /\ status_writes s' = status_writes s ++ [11].
Proof. eexists. split; [done|]. done. Qed.

(** ** What the arguments give *)

(** The memory areas among the arguments, with their indices. *)
Definition mmio_args (args : list Arg) : list (Z * (Z * Z)) :=
  omap (fun a => match a with BarMmio i a s => Some (i, (a, s)) | _ => None end) args.

Definition is_bar (a : Arg) : bool := match a with BarMmio _ _ _ | BarIo _ _ _ => true | _ => false end.

Definition set_bars (bars : list (option (Z * Z))) (l : list (Z * (Z * Z))) : list (option (Z * Z)) :=
  fold_left (fun b x => set_z b x.1 (Some x.2)) l bars.

Lemma driver_args_spec args : forall st,
  Forall (fun a => is_bar a = true) args -> NoDup (mmio_args args).*1 ->
  Forall (fun i => nth_z (s_bars st) i = Some None) (mmio_args args).*1 ->
  driver_args st args = Done (mkStarted (s_pci st) (set_bars (s_bars st) (mmio_args args))).
Proof.
  induction args as [|a args IH]; intros [pci bars] Hb Hn Hf; [done|]. apply Forall_cons in Hb as [Ha Hb].
  destruct a as [| | | | | |i a s|i a s|]; try done; cbn [driver_args driver_arg obind].
  - by apply IH.
  - cbn [mmio_args omap list_omap fmap list_fmap fst s_bars s_pci] in *. apply NoDup_cons in Hn as [Hi Hn]. apply Forall_cons in Hf as [Hi0 Hf].
    rewrite Hi0. cbn [obind]. rewrite IH; [done|done|done|]. cbn [s_bars]. rewrite Forall_forall in Hf |- *. intros j Hj.
    rewrite nth_z_set_ne; [by apply Hf|]. intros ->. done.
Qed.

Lemma zlen_set_bars l : forall bars, zlen (set_bars bars l) = zlen bars.
Proof. unfold set_bars. induction l as [|x l IH]; intros b; [done|]. cbn [fold_left]. rewrite IH. apply zlen_set_z. Qed.

Lemma nth_set_bars l : forall bars i r, NoDup l.*1 -> (i, r) ∈ l -> is_Some (nth_z bars i) -> nth_z (set_bars bars l) i = Some (Some r).
Proof.
  induction l as [|[j q] l IH] using rev_ind; intros bars i r Hn Hin Hb; [set_solver|]. unfold set_bars. rewrite fold_left_app. cbn.
  fold (set_bars bars l). rewrite fmap_app in Hn. apply NoDup_app in Hn as (Hn & Hd & _).
  destruct Hb as [x Hx]. apply nth_z_Some in Hx. apply elem_of_app in Hin as [Hin|Hin].
  - rewrite nth_z_set_ne; [apply IH; [done..|by apply nth_z_lt]|]. intros ->. apply (Hd i); [|by left].
    apply list_elem_of_fmap. by exists (i, r).
  - apply list_elem_of_singleton in Hin as [= -> ->]. apply nth_z_set_eq. rewrite zlen_set_bars. lia.
Qed.

(** ** Where the areas are mapped *)

Definition region_pages (r : Z * Z) : Z := r.2 / PAGE_SIZE.

(** The addresses, and the calls, for areas from [v] on. *)
Fixpoint places (v : Z) (bars : list (option (Z * Z))) : list (option Z) * list (Z * Z * Z) :=
  match bars with
  | [] => ([], [])
  | None :: bars => let '(vs, l) := places v bars in (None :: vs, l)
  | Some r :: bars =>
    let '(vs, l) := places (v + PAGE_SIZE * region_pages r) bars in
    (Some v :: vs, (v, r.1 / PAGE_SIZE, region_pages r) :: l)
  end.

Fixpoint total (bars : list (option (Z * Z))) : Z :=
  match bars with
  | [] => 0
  | None :: bars => total bars
  | Some r :: bars => PAGE_SIZE * region_pages r + total bars
  end.

Definition region_ok (r : Z * Z) : Prop := fits 64 r.1 /\ fits 64 r.2.

Definition bar_region_ok (b : option (Z * Z)) : Prop := match b with Some r => region_ok r | None => True end.

Lemma region_pages_nonneg r : region_ok r -> 0 <= region_pages r.
Proof. intros [_ H]. apply Z.div_pos; [apply H|done]. Qed.

Lemma total_nonneg bars : Forall bar_region_ok bars -> 0 <= total bars.
Proof.
  induction 1 as [|[r|] bars Hr Hb IH]; cbn; [done| |done]. pose proof (region_pages_nonneg r Hr). unfold PAGE_SIZE in *. lia.
Qed.

Section mapping_theorems.
Context (sys_direct_alloc : Z -> Z -> Z -> Z) (Hok : forall v a n, sys_direct_alloc v a n = 0).

Lemma map_region_spec e1 e2 r m :
  region_ok r -> 0 <= virt m -> virt m + PAGE_SIZE * region_pages r < 2 ^ 64 ->
  map_region sys_direct_alloc e1 e2 r m = Done (virt m,
    mkMaps (virt m + PAGE_SIZE * region_pages r) (mapped m ++ [(virt m, r.1 / PAGE_SIZE, region_pages r)])).
Proof using Hok.
  intros Hr Hv Hlt. pose proof (region_pages_nonneg r Hr). destruct Hr as [Ha Hs]. unfold map_region, try_into.
  assert (Z.shiftr r.1 OFFSET_BITS = r.1 / PAGE_SIZE) as Esh by (rewrite Z.shiftr_div_pow2; done). rewrite Esh.
  assert (0 <= r.1 / PAGE_SIZE <= r.1) by (unfold fits, PAGE_SIZE in *; split; [apply Z.div_pos; lia|apply Z.div_le_upper_bound; lia]).
  rewrite (decide_True (P := fits 64 (r.1 / PAGE_SIZE))) by (unfold fits in *; lia). erewrite bind_done by done.
  rewrite decide_True by done. erewrite bind_done by done. erewrite bind_done by done. rewrite Hok. rewrite decide_False by (intros []; done).
  erewrite bind_done by done. fold (region_pages r). rewrite wrap_small; [done|]. unfold fits, PAGE_SIZE in *. lia.
Qed.

Lemma map_bars_spec bars : forall m,
  Forall bar_region_ok bars -> 0 < virt m -> virt m + total bars < 2 ^ 64 ->
  exists v, map_bars sys_direct_alloc bars m = Done ((places (virt m) bars).1, mkMaps v (mapped m ++ (places (virt m) bars).2)).
Proof using Hok.
  induction bars as [|[r|] bars IH]; intros m Hb Hv Hlt; cbn [map_bars places total] in *.
  - exists (virt m). rewrite app_nil_r. by destruct m.
  - apply Forall_cons in Hb as [Hr Hb]. pose proof (total_nonneg _ Hb). pose proof (region_pages_nonneg r Hr). cbn in Hr.
    erewrite bind_done by (erewrite bind_done by (apply map_region_spec; [done|lia|lia]); rewrite decide_False by lia; reflexivity).
    destruct (IH (mkMaps (virt m + PAGE_SIZE * region_pages r) (mapped m ++ [(virt m, r.1 / PAGE_SIZE, region_pages r)]))) as [v E];
      [done|cbn [virt]; unfold PAGE_SIZE in *; lia..|].
    erewrite bind_done by exact E. cbn [virt mapped]. destruct (places _ bars) as [vs l]. exists v. cbn [fst snd]. by rewrite <-app_assoc.
  - apply Forall_cons in Hb as [_ Hb]. erewrite bind_done by done. destruct (IH m Hb Hv Hlt) as [v E]. erewrite bind_done by exact E.
    exists v. by destruct (places _ bars).
Qed.

End mapping_theorems.

Definition before (x y : Z * Z * Z) : Prop := x.1.1 + PAGE_SIZE * x.2 <= y.1.1.

Lemma places_ordered bars : forall v, Forall bar_region_ok bars ->
  Forall (fun x => v <= x.1.1) (places v bars).2 /\ ForallOrdPairs before (places v bars).2.
Proof.
  induction bars as [|[r|] bars IH]; intros v Hb; cbn [places].
  - split; constructor.
  - apply Forall_cons in Hb as [Hr Hb]. pose proof (region_pages_nonneg r Hr). destruct (IH (v + PAGE_SIZE * region_pages r) Hb) as [H1 H2].
    destruct (places _ bars) as [vs l]. cbn [snd] in *. split; constructor; [cbn; lia| |done|done].
    eapply Forall_impl; [exact H1|]. cbn. unfold PAGE_SIZE in *. lia.
  - apply Forall_cons in Hb as [_ Hb]. destruct (IH v Hb) as [H1 H2]. by destruct (places v bars).
Qed.

Lemma places_find bars : forall v i r, nth_z bars i = Some (Some r) ->
  exists w, nth_z (places v bars).1 i = Some (Some w) /\ (w, r.1 / PAGE_SIZE, region_pages r) ∈ (places v bars).2.
Proof.
  induction bars as [|b bars IH]; intros v i r Hi; [by apply nth_z_Some in Hi; unfold zlen in Hi; cbn in Hi; lia|].
  pose proof (nth_z_Some _ _ _ Hi) as [Hi0 _]. destruct (decide (i = 0)) as [->|Hne].
  - injection Hi as ->. cbn [places]. destruct (places _ bars) as [vs l]. exists v. split; [done|]. cbn. set_solver.
  - replace i with (1 + (i - 1)) in Hi |- * by lia. rewrite nth_z_cons in Hi by lia. destruct b as [q|]; cbn [places];
      [destruct (IH (v + PAGE_SIZE * region_pages q) _ _ Hi) as (w & H1 & H2)|destruct (IH v _ _ Hi) as (w & H1 & H2)];
      destruct (places _ bars) as [vs l]; exists w; cbn [fst snd] in *; rewrite nth_z_cons by lia; (split; [done|]); set_solver.
Qed.

(** ** The arguments of the PCI driver *)

Lemma areas_indices ds : forall mmio bars, (ar_i <$> areas mmio bars ds) `sublist_of` bars.*1.
Proof.
  induction ds as [|[|k w|k w] ds IH]; intros mmio bars; [apply sublist_nil_l| | |].
  - destruct bars as [|[i b] bars]; [apply sublist_nil_l|]. cbn. apply sublist_cons, IH.
  - destruct bars as [|[i b] bars]; [apply sublist_nil_l|]. cbn. apply sublist_skip, IH.
  - destruct bars as [|[i b] [|[j b2] bars]]; [apply sublist_nil_l|apply sublist_nil_l|]. cbn. apply sublist_skip, sublist_cons, IH.
Qed.

Lemma mmio_area_args l :
  mmio_args (area_arg <$> l) = (fun a => (ar_i a, (ar_base a, 2 ^ ar_k a))) <$> filter (fun a => is_mmio (ar_w a) = true) l.
Proof.
  induction l as [|a l IH]; [done|]. rewrite fmap_cons, filter_cons. unfold mmio_args in *. cbn [omap list_omap]. rewrite IH.
  unfold area_arg. by destruct (is_mmio (ar_w a)).
Qed.

Lemma enumerate_indices h : (enumerate (base_addresses h)).*1 = seqZ 0 (zlen (base_addresses h)) /\ zlen (base_addresses h) <= 6.
Proof. by destruct h. Qed.

(** The arguments for the areas of a device set each memory area at its index. *)
Lemma area_args_spec mmio h ds pci :
  let l := areas mmio (enumerate (base_addresses h)) ds in
  exists bars, driver_args (mkStarted pci (replicate 6 None)) (area_arg <$> l) = Done (mkStarted pci bars) /\
    bars = set_bars (replicate 6 None) (mmio_args (area_arg <$> l)) /\
    forall a, a ∈ l -> is_mmio (ar_w a) = true -> nth_z bars (ar_i a) = Some (Some (ar_base a, 2 ^ ar_k a)).
Proof.
  intros l. destruct (enumerate_indices h) as [He H6]. pose proof (areas_indices ds mmio (enumerate (base_addresses h))) as Hs. fold l in Hs.
  rewrite He in Hs. 
  assert ((mmio_args (area_arg <$> l)).*1 `sublist_of` seqZ 0 (zlen (base_addresses h))) as Hsub.
  { etrans; [|exact Hs]. rewrite mmio_area_args, <-list_fmap_compose. change (fst ∘ _) with ar_i.
    by apply fmap_sublist, sublist_filter. }
  assert (NoDup (mmio_args (area_arg <$> l)).*1) as Hn by (eapply sublist_NoDup; [apply NoDup_seqZ|exact Hsub]).
  assert (forall i, i ∈ (mmio_args (area_arg <$> l)).*1 -> nth_z (replicate 6 (@None (Z * Z))) i = Some None) as Hr.
  { intros i Hi. apply (elem_of_sublist _ _ _ Hi), elem_of_seqZ in Hsub. unfold nth_z. rewrite decide_True by lia. apply lookup_replicate_2. lia. }
  eexists. split; [|split; [reflexivity|]].
  - rewrite driver_args_spec; [done| |done|by apply Forall_forall]. apply Forall_fmap, Forall_forall. intros a _.
    unfold compose, area_arg. by destruct (is_mmio (ar_w a)).
  - intros a Ha Hm. assert ((ar_i a, (ar_base a, 2 ^ ar_k a)) ∈ mmio_args (area_arg <$> l)) as Hin.
    { rewrite mmio_area_args. apply list_elem_of_fmap. exists a. split; [done|]. by apply list_elem_of_filter. }
    apply nth_set_bars; [done|done|]. rewrite Hr; [done|]. apply list_elem_of_fmap. by exists (ar_i a, (ar_base a, 2 ^ ar_k a)).
Qed.

Lemma Forall_set_bars (P : option (Z * Z) -> Prop) l : forall bars, Forall P bars -> Forall (fun x => P (Some x.2)) l -> Forall P (set_bars bars l).
Proof.
  unfold set_bars. induction l as [|x l IH]; intros bars Hb Hl; [done|]. apply Forall_cons in Hl as [Hx Hl]. cbn [fold_left]. apply IH; [|done].
  unfold set_z. case_decide; [|done]. by apply Forall_insert.
Qed.

Lemma total_bound B bars : Forall (fun b => match b with Some r => PAGE_SIZE * region_pages r <= B | None => 0 <= B end) bars -> total bars <= zlen bars * B.
Proof. induction 1 as [|[r|] bars Hr Hb IH]; cbn [total]; [change (0 <= 0 * B); lia|rewrite zlen_cons; lia..]. Qed.

(** A driver that is started by the PCI driver maps its device.  The header is at the first address,
    every memory area of the device is mapped under its index with the page numbers of the area that was
    assigned to it, and all the mappings are apart from each other. *)
Theorem driver_maps_device (sys_direct_alloc : Z -> Z -> Z -> Z) (p : PCI) (bus dev mmio : Z) (h : Header) (ds : list BarDesc) :
  (forall v a n, sys_direct_alloc v a n = 0) ->
  Forall (fun d => match d with NoBar => True | Bar k _ | Bar64 k _ => 0 <= k end) ds -> 0 <= mmio -> areas_end mmio ds <= 2 ^ 32 ->
  let l := areas mmio (enumerate (base_addresses h)) ds in
  exists virts m, driver_start sys_direct_alloc (device_resources p bus dev mmio h ds) = Done ((0x10000000, virts), m) /\
    (0x10000000, wrap 64 (physical_address p + dev_offset bus dev) / PAGE_SIZE, 1) ∈ mapped m /\ ForallOrdPairs before (mapped m) /\
    forall a, a ∈ l -> is_mmio (ar_w a) = true ->
      exists v, nth_z virts (ar_i a) = Some (Some v) /\ (v, ar_base a / PAGE_SIZE, 2 ^ ar_k a / PAGE_SIZE) ∈ mapped m.
Proof.
  intros Hok Hk Hm He l. set (phys := wrap 64 (physical_address p + dev_offset bus dev)).
  assert (fits 64 phys) as Hphys by (by apply wrap_fits).
  destruct (area_args_spec mmio h ds (Some (phys, 4096))) as (bars & Ea & Eb & Hb). fold l in Ea, Eb, Hb.
  destruct (areas_ordered ds mmio (enumerate (base_addresses h)) Hk) as (_ & Ho & _). fold l in Ho.
  set (small := fun r : Z * Z => 0 <= r.1 <= 2 ^ 32 /\ 0 <= r.2 <= 2 ^ 32).
  assert (Forall (fun b => match b with Some r => small r | None => True end) bars) as Hsmall.
  { rewrite Eb. apply Forall_set_bars; [by apply Forall_replicate|]. rewrite mmio_area_args. apply Forall_fmap, Forall_forall.
    intros a [_ Ha]%list_elem_of_filter. rewrite Forall_forall in Ho. destruct (Ho a Ha) as (_ & H1 & H2). unfold compose, small. cbn [fst snd].
    pose proof (Z.pow_nonneg 2 (ar_k a) ltac:(lia)). lia. }
  assert (Forall bar_region_ok bars) as Hregions.
  { eapply Forall_impl; [exact Hsmall|]. intros [r|]; [|done]. unfold small, bar_region_ok, region_ok, fits. lia. }
  assert (total bars <= zlen bars * 2 ^ 32) as Htot.
  { apply total_bound. eapply Forall_impl; [exact Hsmall|]. intros [r|]; [|done]. intros [_ Hr]. unfold region_pages.
    pose proof (Z.mul_div_le r.2 PAGE_SIZE ltac:(done)). lia. }
  assert (zlen bars = 6) as Hlen by (rewrite Eb, zlen_set_bars; done). rewrite Hlen in Htot.
  destruct (map_bars_spec sys_direct_alloc Hok bars (mkMaps 0x10001000 [(0x10000000, phys / PAGE_SIZE, 1)])) as [v E]; [done|done|cbn [virt]; lia|].
  destruct (places_ordered bars 0x10001000 Hregions) as [Hge Hord]. eexists _, _. split.
  - unfold driver_start, device_resources, Started0. cbn [driver_args driver_arg obind s_pci s_bars]. fold phys l. rewrite Ea. cbn [obind s_pci s_bars].
    erewrite bind_done by (apply map_region_spec; [done|split; done|done|done]). cbn [virt mapped fst].
    erewrite bind_done by exact E. done.
  - cbn [mapped virt]. split_and!; [set_solver| |].
    + constructor; [|done]. eapply Forall_impl; [exact Hge|]. intros x Hx. exact Hx.
    + intros a Ha Hmm. destruct (places_find bars 0x10001000 _ _ (Hb a Ha Hmm)) as (w & Hw & Hin). exists w. split; [done|].
      apply elem_of_app. by right.
Qed.

(** The network card of the PCI driver. *)
Lemma driver_maps_device_witness :
  exists virts m, driver_start (fun _ _ _ => 0) (device_resources card_pci 0 1 0x40000000 (H0 0x10008000) card_bars) =
      Done ((0x10000000, virts), m) /\ ForallOrdPairs before (mapped m).
Proof.
  destruct (driver_maps_device (fun _ _ _ => 0) card_pci 0 1 0x40000000 (H0 0x10008000) card_bars) as (virts & m & E & _ & Ho & _).
  - done.
  - by repeat constructor.
  - done.
  - by vm_compute.
  - exists virts, m. split; [exact E|exact Ho].
Defined.

(** A memory area of less than a page is counted as no page: nothing is mapped for it. *)
Theorem small_area_not_mapped :
  map_bars (fun _ _ _ => 0) [Some (0x40000000, 256); Some (0x40001000, 4096)] (mkMaps 0x10001000 []) =
    Done ([Some 0x10001000; Some 0x10001000], mkMaps 0x10002000 [(0x10001000, 0x40000, 0); (0x10001000, 0x40001, 1)]).
Proof. done. Qed.
