(* ===== verification/VirtioDevice.v ===== *)
(** * Requests to a virtio device

    What the drivers of src/lib/rust/virtio_block and virtio_gpu have in common: a request is a chain of
    buffers with physical addresses that is sent through a queue; the driver notifies the device and
    waits until the chain is used.  What a device does with a chain is a parameter, and so is its state.

    The lemmas: while the driver waits the device may move in any way the queue allows; when it gets to
    the chain it has served it exactly once, with the buffers that were sent, and the queue is as it was. *)

From S2P Require Import Prelude Page Bytes CMem VirtQueue.

(** The queue with the device, physical memory, the state of the device and the values written to the
    notification register. *)
Record Dev (D : Type) : Type := mkDev { sys : Sys; ram : Mem; dev : D; kicks : list Z }.
Arguments mkDev {_} _ _ _ _.
Arguments sys {_} _.
Arguments ram {_} _.
Arguments dev {_} _.
Arguments kicks {_} _.

(** The buffers of the chain that starts at a descriptor. *)
Fixpoint buffers_of (fuel : nat) (t : list Descriptor) (i : Z) : list buffer :=
  match fuel, nth_z t i with
  | S fuel, Some d =>
    (VirtQueue.address d, d_length d, negb (Z.land (flags d) VirtQueue.WRITE =? 0)) ::
    (if decide (Z.land (flags d) NEXT > 0) then buffers_of fuel t (next d) else [])
  | _, _ => []
  end.

Section device.
Context {D : Type}.
(** What the device does with a chain, to memory and its state. *)
Context (serve : list buffer -> Mem * D -> Mem * D).
(** The system call: status and physical address. *)
Context (mem_physical_address : Z -> Z * Z).

(** A move of the device. *)
Definition device_serves (b : Dev D) (o : device_op) : Dev D :=
  let s := device_step o (sys b) in
  match o with
  | Fetch => mkDev s (ram b) (dev b) (kicks b)
  | Complete n _ =>
    match in_flight (sys b) !! n with
    | Some h =>
      let '(m, d) := serve (buffers_of 8 (descriptors (queue (sys b))) h) (ram b, dev b) in
      mkDev s m d (kicks b)
    | None => b
    end
  end.

Definition device_moves (ops : list device_op) (b : Dev D) : Dev D := fold_left device_serves ops b.

Definition on_queue {X} (m : M Queue X) : M (Dev D) X := fun b =>
  match driver m (sys b) with
  | Done (x, s) => Done (x, mkDev s (ram b) (dev b) (kicks b))
  | Panicked why => Panicked why
  | OutOfFuel => OutOfFuel
  end.

(** The physical address behind a virtual one, and a store of bytes through the page tables. *)
Definition pa (a : Z) : Z := (mem_physical_address (Z.ldiff a 0xfff)).2 + Z.land a 0xfff.

Fixpoint store_va (a : Z) (l : list Z) (m : Mem) : Mem :=
  match l with
  | [] => m
  | x :: l => store_va (a + 1) l (<[pa a := x]> m)
  end.

Definition store_local (a : Z) (l : list Z) : M (Dev D) unit :=
  modify (fun b => mkDev (sys b) (store_va a l (ram b)) (dev b) (kicks b)).

(** [kernel::mem_physical_address] with the offset in the page. *)
Definition phys_of (a : Z) : M (Dev D) Z :=
  let '(status, phys) := mem_physical_address (Z.ldiff a 0xfff) in
  if decide (status = 0) then ret (wrap 64 (phys + Z.land a 0xfff)) else panic "Failed DMA get phys address".

(** [send], the notification of the queues [l] and [wait_for_used]; [waits] are the moves of the device
    during the calls of [wait]. *)
Definition exchange (l : list Z) (waits : list (list device_op)) (bufs : list buffer) (why : string) : M (Dev D) unit :=
  let* r := on_queue (send bufs) in
  match r.1.1 with
  | Err _ => panic why
  | Ok _ =>
    modify (fun b => mkDev (sys b) (ram b) (dev b) (kicks b ++ l)) ;;
    wait_for_used (on_queue collect_used) (device_moves <$> waits) ;;
    ret tt
  end.
End device.

(** ** A chain on its way through the device *)

Inductive phase : Type := Posted | Taken | Finished.

#[export] Instance phase_eq_dec : EqDecision phase.
Proof. solve_decision. Defined.

Definition phase_step (p : phase) (o : device_op) : phase :=
  match p, o with
  | Posted, Fetch => Taken
  | Taken, Complete 0 _ => Finished
  | p, _ => p
  end.

Definition phase_run (ops : list device_op) (p : phase) : phase := fold_left phase_step ops p.

(** A queue with one chain. *)
Definition spec_of (fr : list Z) (c : chain) (p : phase) : Spec :=
  match p with
  | Posted => mkSpec fr [c] [] []
  | Taken => mkSpec fr [] [c] []
  | Finished => mkSpec fr [] [] [c]
  end.

Lemma spec_of_step fr c p o : spec_device o (spec_of fr c p) = spec_of fr c (phase_step p o).
Proof. destruct p, o as [|[|n] len]; done. Qed.

Lemma buffer_flags_write w more : negb (Z.land (buffer_flags w more) VirtQueue.WRITE =? 0) = w.
Proof. by destruct w, more. Qed.

(** The device sees the buffers that were sent. *)
Lemma buffers_of_chain t c : forall fuel, (length c <= fuel)%nat -> c <> [] -> chain_at t c -> buffers_of fuel t (head_of c) = snd <$> c.
Proof.
  induction c as [|[i [[a l] w]] c IH]; intros fuel Hf Hne Hc; [done|]. cbn [length] in Hf. destruct fuel as [|fuel]; [lia|].
  destruct Hc as [(nx & Hn & Hj) Hc]. cbn [head_of buffers_of]. rewrite Hn. cbn [VirtQueue.address d_length flags next].
  rewrite buffer_flags_write. cbn [fmap list_fmap snd]. f_equal. destruct c as [|[j b] c].
  - rewrite decide_False; [done|]. intros H%buffer_flags_next. done.
  - rewrite decide_True by (by apply buffer_flags_next). rewrite (Hj j b c eq_refl).
    apply (IH fuel); [cbn in *; lia|done|done].
Qed.

Section served.
Context {D : Type} (serve : list buffer -> Mem * D -> Mem * D).
Context (fr : list Z) (c : chain) (m0 : Mem * D).

(** The effect of the request on memory and the disk, once it is finished. *)
Definition after (p : phase) : Mem * D := if decide (p = Finished) then serve (snd <$> c) m0 else m0.

Record on_way (p : phase) (b : Dev D) : Prop := {
  ow_repr : repr (sys b) (spec_of fr c p);
  ow_mem : (ram b, dev b) = after p
}.

Lemma on_way_chain p b : on_way p b -> c <> [] /\ chain_at (descriptors (queue (sys b))) c /\ (length c <= 8)%nat.
Proof.
  intros [Hr _]. assert (c ∈ chains (spec_of fr c p)) as Hin by (destruct p; set_solver).
  pose proof (r_chains _ _ Hr) as Hc. rewrite Forall_forall in Hc. destruct (Hc c Hin) as [Hne Hat]. split_and!; [done..|].
  pose proof (owned_length _ (r_owned _ _ Hr)) as Hl. rewrite length_app in Hl.
  assert (all_idxs (chains (spec_of fr c p)) = chain_idxs c) as Ha by (destruct p; unfold all_idxs; cbn; by rewrite app_nil_r).
  rewrite Ha in Hl. unfold chain_idxs in Hl. rewrite length_fmap in Hl. lia.
Qed.

Lemma on_way_step p b o : on_way p b -> on_way (phase_step p o) (device_serves serve b o).
Proof.
  intros H. pose proof (device_repr _ _ o (ow_repr _ _ H)) as Hr. rewrite spec_of_step in Hr.
  pose proof (r_taken _ _ (ow_repr _ _ H)) as Ht. unfold device_serves. destruct o as [|n len].
  - split; [done|]. cbn. rewrite (ow_mem _ _ H). by destruct p.
  - rewrite Ht. destruct p; [done| |done]. cbn [spec_of taken fmap list_fmap].
    destruct n as [|n]; [|done]. change ([head_of c] !! 0%nat) with (Some (head_of c)). cbv beta iota. destruct (on_way_chain _ _ H) as (Hne & Hat & Hlen).
    rewrite (buffers_of_chain _ c) by done. pose proof (ow_mem _ _ H) as Hm. change (after Taken) with m0 in Hm. rewrite Hm.
    destruct (serve (snd <$> c) m0) as [m d] eqn:E. split; [done|]. unfold after. by rewrite decide_True.
Qed.

Lemma on_way_moves ops : forall p b, on_way p b -> on_way (phase_run ops p) (device_moves serve ops b).
Proof. induction ops as [|o ops IH]; intros p b H; [done|]. by apply IH, on_way_step. Qed.

Lemma device_moves_kicks ops : forall b, kicks (device_moves serve ops b) = kicks b.
Proof.
  unfold device_moves. induction ops as [|o ops IH]; intros b; [done|]. cbn [fold_left]. rewrite IH. unfold device_serves.
  destruct o as [|n len]; [done|]. destruct (in_flight (sys b) !! n); [|done]. by destruct (serve _ _).
Qed.

Lemma on_way_collect p b : on_way p b ->
  exists l s, on_queue collect_used b = Done ((l, if decide (p = Finished) then 1 else 0), mkDev s (ram b) (dev b) (kicks b)) /\
    repr s (if decide (p = Finished) then mkSpec (fr ++ chain_idxs c) [] [] [] else spec_of fr c p).
Proof.
  intros [Hr _]. destruct (collect_repr _ _ _ _ _ Hr eq_refl) as (q & E & Hq & _). unfold on_queue, driver. rewrite E.
  do 2 eexists. destruct p; (split; [done|]); cbn in *; try rewrite app_nil_r in Hq; done.
Qed.

Lemma wait_served waits : forall p b, on_way p b -> phase_run (concat waits) p = Finished ->
  exists l b', wait_for_used (on_queue collect_used) (device_moves serve <$> waits) b = Done (l, b') /\
    repr (sys b') (mkSpec (fr ++ chain_idxs c) [] [] []) /\ (ram b', dev b') = serve (snd <$> c) m0 /\ kicks b' = kicks b.
Proof.
  induction waits as [|ops waits IH]; intros p b H Hrun; destruct (on_way_collect p b H) as (l & s & E & Hs);
    destruct (decide (p = Finished)) as [->|Hp].
  - exists l. eexists. cbn [fmap list_fmap wait_for_used]. erewrite bind_done by exact E. split_and!; [done..| |done].
    apply (ow_mem _ _ H).
  - done.
  - exists l. eexists. cbn [fmap list_fmap wait_for_used]. erewrite bind_done by exact E. split_and!; [done..| |done].
    apply (ow_mem _ _ H).
  - assert (on_way p (mkDev s (ram b) (dev b) (kicks b))) as H' by (split; [done|apply (ow_mem _ _ H)]).
    apply (on_way_moves ops) in H'. rewrite concat_cons in Hrun. unfold phase_run in Hrun. rewrite fold_left_app in Hrun.
    destruct (IH _ _ H' Hrun) as (l' & b' & E' & Hr & Hm & Hk). exists (l ++ l'), b'. cbn [fmap list_fmap wait_for_used].
    erewrite bind_done by exact E. cbn [fst snd]. rewrite decide_True by done. erewrite bind_done by done.
    erewrite bind_done by exact E'. split_and!; [done..|]. by rewrite Hk, device_moves_kicks.
Qed.
End served.

(** ** A request *)

(** No request is in flight. *)
Definition idle {D} (b : Dev D) : Prop := exists fr, repr (sys b) (mkSpec fr [] [] []).

Lemma send_idle {D} (b : Dev D) bufs :
  idle b -> bufs <> [] -> (length bufs <= 8)%nat ->
  exists fr c s l, on_queue (send bufs) b = Done ((Ok tt, l, []), mkDev s (ram b) (dev b) (kicks b)) /\
    repr s (spec_of fr c Posted) /\ snd <$> c = bufs.
Proof.
  intros [fr Hr] Hne Hl. pose proof (owned_length _ (r_owned _ _ Hr)) as H8. cbn in H8. rewrite app_nil_r in H8.
  set (a := mkSpec fr [] [] []) in *. destruct (spec_send bufs a) as [ans a'] eqn:Es.
  assert (zlen bufs < 2 ^ 16) as H16 by (unfold zlen; lia).
  destruct (send_repr _ _ _ _ _ Hr H16 Es) as (s' & E & Hr'). unfold spec_send in Es. rewrite decide_False in Es by done.
  rewrite decide_True in Es by (cbn; lia). cbn [free posted taken done_ a app] in Es. injection Es as <- <-.
  unfold step, bind in E. destruct (driver (send bufs) (sys b)) as [[[[r1 r2] r3] s1]| |] eqn:Ed; [|done..].
  unfold ret in E. injection E as -> -> -> ->. eexists _, _, s', _. unfold on_queue. rewrite Ed. split_and!; [done|exact Hr'|].
  apply snd_zip. rewrite length_reverse, length_drop. lia.
Qed.

Lemma page_parts a : Z.land a 0xfff = a mod 4096 /\ Z.ldiff a 0xfff = a - a mod 4096.
Proof.
  change 0xfff with (Z.ones 12). rewrite Z.land_ones, Z.ldiff_ones_r, Z.shiftr_div_pow2, Z.shiftl_mul_pow2 by lia.
  change (2 ^ 12) with 4096. split; [done|]. pose proof (Z.div_mod a 4096). lia.
Qed.

(** A request has been served when the driver goes on. *)
Lemma exchange_served {D} (serve : list buffer -> Mem * D -> Mem * D) l waits bufs why b :
  idle b -> bufs <> [] -> (length bufs <= 8)%nat -> phase_run (concat waits) Posted = Finished ->
  exists b', exchange serve l waits bufs why b = Done (tt, b') /\ idle b' /\ (ram b', dev b') = serve bufs (ram b, dev b) /\ kicks b' = kicks b ++ l.
Proof.
  intros Hi Hne Hl Hw. unfold exchange. destruct (send_idle b bufs) as (fr & c & s1 & l1 & E & Hr & Hb); [done..|].
  erewrite bind_done by exact E. cbn [fst snd]. erewrite bind_done by done. cbn [sys ram dev kicks]. set (b2 := mkDev _ _ _ _).
  destruct (wait_served serve fr c (ram b2, dev b2) waits Posted b2) as (l' & b' & Ew & Hr' & Hm & Hk); [by split|done|].
  erewrite bind_done by exact Ew. exists b'. rewrite Hb in Hm. split_and!; [done|by eexists|done|done].
Qed.

(** ** Addresses *)

Section pages.
Context (mem_physical_address : Z -> Z * Z).
Abbreviation pa := (pa mem_physical_address).

(** [n] bytes from [a] lie in one mapped page. *)
Record in_page (a n : Z) : Prop := {
  ip_status : (mem_physical_address (Z.ldiff a 0xfff)).1 = 0;
  ip_phys : fits 64 (pa a);
  ip_len : a mod 4096 + n <= 4096
}.

Lemma pa_succ a : a mod 4096 + 1 < 4096 -> pa (a + 1) = pa a + 1.
Proof.
  intros H. unfold VirtioDevice.pa. destruct (page_parts a) as [-> ->], (page_parts (a + 1)) as [-> ->].
  assert ((a + 1) mod 4096 = a mod 4096 + 1) as ->.
  { pose proof (Z.mod_pos_bound a 4096). rewrite <-Z.add_mod_idemp_l by lia. by apply Z.mod_small; lia. }
  replace (a + 1 - (a mod 4096 + 1)) with (a - a mod 4096) by lia. lia.
Qed.

Lemma store_va_put l : forall a m, a mod 4096 + zlen l <= 4096 -> store_va mem_physical_address a l m = put (pa a) l m.
Proof.
  induction l as [|x l IH]; intros a m H; [done|]. rewrite zlen_cons in H. pose proof (zlen_nonneg l). cbn [store_va].
  destruct l as [|y l]; [done|]. rewrite zlen_cons in H. pose proof (zlen_nonneg l). pose proof (Z.mod_pos_bound a 4096).
  rewrite IH, pa_succ, put_cons; [done|lia|]. rewrite zlen_cons.
  assert ((a + 1) mod 4096 = a mod 4096 + 1) as -> by (rewrite <-Z.add_mod_idemp_l by lia; apply Z.mod_small; lia). lia.
Qed.

Lemma phys_of_page {D} a n (b : Dev D) : in_page a n -> phys_of mem_physical_address a b = Done (pa a, b).
Proof.
  intros [Hs Hf _]. unfold phys_of, VirtioDevice.pa in *. destruct (mem_physical_address _) as [st ph]. cbn [fst snd] in *.
  rewrite decide_True by done. by rewrite wrap_small.
Qed.

(** The [n] bytes from [a] are mapped to [n] bytes in a row. *)
Record in_row (a n : Z) : Prop := {
  ir_status : (mem_physical_address (Z.ldiff a 0xfff)).1 = 0;
  ir_phys : fits 64 (pa a);
  ir_row : forall i, 0 <= i < n -> pa (a + i) = pa a + i
}.

Lemma in_page_row a n : in_page a n -> in_row a n.
Proof.
  intros [Hs Hp Hl]. split; [done|done|]. intros i Hi. pose proof (Z.mod_pos_bound a 4096 ltac:(lia)) as Hb.
  assert ((a + i) mod 4096 = a mod 4096 + i) as Em by (rewrite <-Z.add_mod_idemp_l by lia; apply Z.mod_small; lia).
  unfold VirtioDevice.pa. destruct (page_parts a) as [-> ->], (page_parts (a + i)) as [-> ->]. rewrite Em.
  replace (a + i - (a mod 4096 + i)) with (a - a mod 4096) by lia. lia.
Qed.

Lemma phys_of_row {D} a n (b : Dev D) : in_row a n -> phys_of mem_physical_address a b = Done (pa a, b).
Proof.
  intros [Hs Hf _]. unfold phys_of, VirtioDevice.pa in *. destruct (mem_physical_address _) as [st ph]. cbn [fst snd] in *.
  rewrite decide_True by done. by rewrite wrap_small.
Qed.

Lemma store_va_row l : forall a m, (forall i, 0 <= i < zlen l -> pa (a + i) = pa a + i) -> store_va mem_physical_address a l m = put (pa a) l m.
Proof.
  induction l as [|x l IH]; intros a m H; [done|]. rewrite zlen_cons in H. pose proof (zlen_nonneg l). cbn [store_va].
  destruct l as [|y l]; [done|]. rewrite zlen_cons in H. pose proof (zlen_nonneg l). rewrite IH.
  - by rewrite (H 1), put_cons by lia.
  - intros i Hi. rewrite zlen_cons in Hi. rewrite <-Z.add_assoc, !H by lia. lia.
Qed.
End pages.
