(* ===== verification/VirtioBlock.v ===== *)
(** * The virtio block device and its driver

    src/lib/rust/virtio_block/src/lib.rs: a request is a chain of three buffers, the header, the data
    and a status byte, of which the device is told the physical addresses; and
    src/services/driver/virtio_block/src/main.rs, which turns packets of other programs into requests.

    What the device does with a chain is a parameter, with the behaviour of the virtio specification for
    the two kinds of request as hypotheses.  It moves while the driver waits, in any way the queue allows.

    The theorems: a request is served exactly once before the function returns, and leaves the queue as it
    found it; a write reaches the sectors, and a read fills the buffer; the service is a block driver for
    the file system, page by page.  The status of a request is never looked at, so that a request the
    device refuses succeeds. *)

From S2P Require Import Prelude Page Bytes CMem FatIo DuxMem Ipc Abi VirtioSetup VirtQueue VirtioDevice.

(** ** Requests *)

Abbreviation Blk := (Dev Mem).
Abbreviation disk := dev.

Definition Sector_SIZE : Z := 512.

Definition READ : Z := 0.
Definition WRITE : Z := 1.

(** [RequestHeader] in memory. *)
Definition RequestHeader (typ sector : Z) : list Z := le_split 4 typ ++ le_split 4 0 ++ le_split 8 sector.

Section block.
(** What the device does with a chain, to memory and the disk. *)
Context (serve : list buffer -> Mem * Mem -> Mem * Mem).
(** The system call: status and physical address. *)
Context (mem_physical_address : Z -> Z * Z).

(** [flush] is the notification of queue 0. *)
Definition flush : list Z := [0].

(** [write] and [read] differ in the type of the request and in who writes to the data.  [header_at] and
    [status_at] are where the locals lie; [waits] are the moves of the device during the calls of [wait].
    There is no error. *)
Definition request (typ : Z) (device_writes : bool) (header_at status_at : Z) (waits : list (list device_op))
    (data count sector_start : Z) : M Blk unit :=
  store_local mem_physical_address header_at (RequestHeader typ sector_start) ;;
  store_local mem_physical_address status_at [111] ;;
  let* h := phys_of mem_physical_address header_at in
  let* d := phys_of mem_physical_address data in
  let* s := phys_of mem_physical_address status_at in
  let* len := unwrap "called `Result::unwrap()` on an `Err` value" (try_into 32 (wrap 64 (count * Sector_SIZE))) in
  exchange serve flush waits [(h, 16, false); (d, len, device_writes); (s, 1, true)] "Failed to send data".

Definition write := request WRITE false.
Definition read := request READ true.
End block.

(** ** Setting up *)

Definition SIZE_MAX : Z := Z.shiftl 1 1.
Definition SEG_MAX : Z := Z.shiftl 1 2.
Definition GEOMETRY : Z := Z.shiftl 1 4.
Definition BLK_SIZE : Z := Z.shiftl 1 6.
Definition TOPOLOGY : Z := Z.shiftl 1 10.

(** [BlockDevice::new]: the queue and the capacity, which is at the start of the device's own
    configuration. *)
Definition BlockDevice_new dev_dma_alloc mem_physical_address (mem : Dma) (blk_cfg : list Z) : M (Setup * NewState) (Queue * Z) :=
  on_fst (negotiate (Z.lor (Z.lor (Z.lor (Z.lor SIZE_MAX SEG_MAX) GEOMETRY) BLK_SIZE) TOPOLOGY)) ;;
  let* r := on_snd (Queue_new dev_dma_alloc mem_physical_address mem 0 8 None) in
  match r with
  | Err _ => panic "OOM"
  | Ok q => on_fst driver_ok ;; ret (q, le_combine (take 8 blk_cfg))
  end.

(** ** The service *)

(** [kernel::Page::SIZE / size_of::<Sector>()] *)
Definition ratio : Z := PAGE_SIZE / Sector_SIZE.

Definition reply (rxq : Packet) (op : Op) (length offset : Z) : Packet :=
  mkPacket (0, 0) 0 0 offset length (pk_address rxq) 0 0 0 (op_code op).

Section service.
Context (serve : list buffer -> Mem * Mem -> Mem * Mem) (mem_physical_address : Z -> Z * Z).
(** The status of the system call, and whether the library takes the range back. *)
Context (mem_dealloc : Z -> Z -> Z) (add_free_range : Z -> Z -> bool).
Context (header_at status_at : Z) (waits : list (list device_op)).

(** One round of the loop: the answer, if there is one. *)
Definition handle (rxq : Packet) : M Blk (option Packet) :=
  let* op := unwrap "called `Option::unwrap()` on a `None` value" (if decide (pk_opcode rxq = 0) then None else Some (pk_opcode rxq)) in
  let length := pk_data_length rxq / Sector_SIZE in
  let offset := wrap 64 (pk_data_offset rxq * ratio) in
  let data := unwrap "called `Option::unwrap()` on a `None` value" (if decide (pk_data rxq = 0) then None else Some (pk_data rxq)) in
  let* answer :=
    match Op_try_from op with
    | Ok Read =>
      let* data := data in
      read serve mem_physical_address header_at status_at waits data length offset ;;
      ret (Some (reply rxq Read (length / Sector_SIZE) (offset / ratio)))
    | Ok Write =>
      let* data := data in
      write serve mem_physical_address header_at status_at waits data length offset ;;
      ret (Some (reply rxq Write (length / Sector_SIZE) (offset / ratio)))
    | _ => ret None
    end in
  release mem_dealloc add_free_range (pk_data rxq) (pk_data_length rxq) ;;
  release mem_dealloc add_free_range (pk_name rxq) (pk_name_length rxq) ;;
  ret answer.
End service.

Section requests.
Context (serve : list buffer -> Mem * Mem -> Mem * Mem) (mem_physical_address : Z -> Z * Z).
Abbreviation pa := (pa mem_physical_address).
Abbreviation in_page := (in_page mem_physical_address).

(** What the device is given. *)
Definition chain_of (header_at status_at data count : Z) (device_writes : bool) : list buffer :=
  [(pa header_at, 16, false); (pa data, 512 * count, device_writes); (pa status_at, 1, true)].

Definition with_locals (header_at status_at typ sector : Z) (m : Mem) : Mem :=
  put (pa status_at) [111] (put (pa header_at) (RequestHeader typ sector) m).

Lemma request_served typ dw h s waits data count sector b :
  idle b -> in_page h 16 -> in_page s 1 -> in_page data 0 -> 0 <= 512 * count < 2 ^ 32 ->
  phase_run (concat waits) Posted = Finished ->
  exists b', request serve mem_physical_address typ dw h s waits data count sector b = Done (tt, b') /\ idle b' /\
    (ram b', disk b') = serve (chain_of h s data count dw) (with_locals h s typ sector (ram b), disk b) /\ kicks b' = kicks b ++ [0].
Proof.
  intros Hi Hh Hs Hd Hc Hw. unfold request, store_local. erewrite bind_done by done. erewrite bind_done by done. cbv beta.
  cbn [sys ram dev kicks]. rewrite !store_va_put by (rewrite ?zlen_cons, ?zlen_nil; first [apply Hh|apply Hs]).
  fold (with_locals h s typ sector (ram b)). set (b1 := mkDev _ _ _ _).
  erewrite bind_done by (by eapply phys_of_page). erewrite bind_done by (by eapply phys_of_page).
  erewrite bind_done by (by eapply phys_of_page). unfold Sector_SIZE.
  rewrite wrap_small by (unfold fits; lia). rewrite (Z.mul_comm count). unfold try_into. rewrite decide_True by (unfold fits; lia).
  erewrite bind_done by done. fold (chain_of h s data count dw).
  apply (exchange_served serve flush waits (chain_of h s data count dw) "Failed to send data" b1); [done|done|cbn; lia|done].
Qed.
End requests.

(** A device whose queue could be set up is idle, the driver is announced in two steps, and no feature is
    accepted. *)
Theorem block_device_ready dma_alloc phys_addr mem blk_cfg st q c :
  Queue_new dma_alloc phys_addr mem 0 8 None st.2 = Done (Ok q, c) -> repr (mkSys q 0 []) new_spec ->
  exists st', BlockDevice_new dma_alloc phys_addr mem blk_cfg st = Done ((q, le_combine (take 8 blk_cfg)), st') /\
    status_writes st'.1 = status_writes st.1 ++ [11; 15] /\ driver_feature st'.1 = driver_feature st.1 /\
    idle (mkDev (mkSys q 0 []) ∅ (∅ : Mem) []).
Proof.
  intros Eq Hr. destruct st as [su ns]. unfold BlockDevice_new. erewrite bind_done by done.
  erewrite bind_done by (unfold on_snd; cbn [snd] in *; by rewrite Eq). cbv beta iota. erewrite bind_done by done.
  eexists. split; [done|]. cbn. rewrite <-app_assoc. split_and!; [done..|]. by exists [5; 7; 6; 0; 1; 3; 2; 4].
Qed.

(** ** The disk *)

(** What the virtio specification says of a device with [capacity] sectors: a write request stores the
    data, a read request fills the buffer, both with status 0; a request past the end has status 1. *)
Class VirtioDisk (capacity : Z) (serve : list buffer -> Mem * Mem -> Mem * Mem) : Prop := {
  vd_write : forall h d s n sector m dk l,
    bytes_at m h (RequestHeader WRITE sector) -> bytes_at m d l -> zlen l = 512 * n -> fits 64 sector -> sector + n <= capacity ->
    serve [(h, 16, false); (d, 512 * n, false); (s, 1, true)] (m, dk) = (put s [0] m, put (512 * sector) l dk);
  vd_read : forall h d s n sector m dk,
    bytes_at m h (RequestHeader READ sector) -> 0 <= n -> fits 64 sector -> sector + n <= capacity ->
    serve [(h, 16, false); (d, 512 * n, true); (s, 1, true)] (m, dk) =
      (put s [0] (put d (peek dk (512 * sector) (512 * n)) m), dk);
  vd_refused : forall h d s n sector m dk (w : bool),
    bytes_at m h (RequestHeader (if w then READ else WRITE) sector) -> 0 <= n -> fits 64 sector -> capacity < sector + n ->
    serve [(h, 16, false); (d, 512 * n, w); (s, 1, true)] (m, dk) = (put s [1] m, dk)
}.

(** Two areas do not meet. *)
Definition apart (a n b k : Z) : Prop := a + n <= b \/ b + k <= a.

Lemma zlen_RequestHeader typ sector : zlen (RequestHeader typ sector) = 16.
Proof. unfold RequestHeader. by rewrite !zlen_app, !zlen_le_split. Qed.

Section theorems.
Context (capacity : Z) (serve : list buffer -> Mem * Mem -> Mem * Mem) `{!VirtioDisk capacity serve}.
Context (mem_physical_address : Z -> Z * Z).
Abbreviation pa := (pa mem_physical_address).
Abbreviation in_page := (in_page mem_physical_address).

(** Where a request finds its locals: in mapped pages, apart from each other and from the data. *)
Record frame (h s data n : Z) : Prop := {
  fr_h : in_page h 16;
  fr_s : in_page s 1;
  fr_d : in_page data 0;
  fr_hs : apart (pa h) 16 (pa s) 1;
  fr_hd : apart (pa h) 16 (pa data) n;
  fr_sd : apart (pa s) 1 (pa data) n
}.

Lemma locals_header h s data n typ sector m :
  frame h s data n -> bytes_at (with_locals mem_physical_address h s typ sector m) (pa h) (RequestHeader typ sector).
Proof.
  intros F. unfold with_locals. apply bytes_at_put; [apply put_bytes_at|]. rewrite zlen_RequestHeader, zlen_cons, zlen_nil.
  pose proof (fr_hs _ _ _ _ F) as Ha. unfold apart in Ha. lia.
Qed.

Lemma locals_data h s data l typ sector m :
  frame h s data (zlen l) -> bytes_at m (pa data) l -> bytes_at (with_locals mem_physical_address h s typ sector m) (pa data) l.
Proof.
  intros F Hl. unfold with_locals. pose proof (fr_hd _ _ _ _ F) as H1. pose proof (fr_sd _ _ _ _ F) as H2. unfold apart in *.
  repeat apply bytes_at_put; rewrite ?zlen_RequestHeader, ?zlen_cons, ?zlen_nil; (done || lia).
Qed.

Lemma write_spec h s waits data count sector l b :
  idle b -> frame h s data (zlen l) -> bytes_at (ram b) (pa data) l -> zlen l = 512 * count -> 512 * count < 2 ^ 32 ->
  fits 64 sector -> sector + count <= capacity -> phase_run (concat waits) Posted = Finished ->
  exists b', write serve mem_physical_address h s waits data count sector b = Done (tt, b') /\ idle b' /\
    disk b' = put (512 * sector) l (disk b) /\ bytes_at (ram b') (pa data) l.
Proof using All.
  intros Hi F Hl Hlen Hc Hsec Hcap Hw. pose proof (zlen_nonneg l).
  destruct (request_served serve mem_physical_address WRITE false h s waits data count sector b) as (b' & E & Hi' & Hm & _);
    [done|apply F..|lia|done|].
  unfold chain_of in Hm. rewrite (vd_write _ _ _ _ sector _ _ l) in Hm by (first [by eapply locals_header|by apply locals_data|done]).
  apply pair_equal_spec in Hm as [Hr Hd]. exists b'. split_and!; [done..|]. rewrite Hr. pose proof (fr_sd _ _ _ _ F) as H2. unfold apart in H2.
  apply bytes_at_put; [by apply locals_data|]. rewrite zlen_cons, zlen_nil. lia.
Qed.

Lemma read_spec h s waits data count sector b :
  idle b -> frame h s data (512 * count) -> 0 <= 512 * count < 2 ^ 32 ->
  fits 64 sector -> sector + count <= capacity -> phase_run (concat waits) Posted = Finished ->
  exists b', read serve mem_physical_address h s waits data count sector b = Done (tt, b') /\ idle b' /\
    disk b' = disk b /\ bytes_at (ram b') (pa data) (peek (disk b) (512 * sector) (512 * count)).
Proof using All.
  intros Hi F Hc Hsec Hcap Hw.
  destruct (request_served serve mem_physical_address READ true h s waits data count sector b) as (b' & E & Hi' & Hm & _);
    [done|apply F..|lia|done|].
  unfold chain_of in Hm. rewrite (vd_read _ _ _ _ sector) in Hm by (first [by eapply locals_header|done|lia]).
  apply pair_equal_spec in Hm as [Hr Hd]. exists b'. split_and!; [done..|]. rewrite Hr. pose proof (fr_sd _ _ _ _ F) as H2. unfold apart in H2.
  apply bytes_at_put; [apply put_bytes_at|]. rewrite zlen_cons, zlen_nil, zlen_peek by lia. lia.
Qed.

(** The status of a request is not looked at: a write past the end of the disk returns as if it had been
    done, and the disk is as it was. *)
Theorem refused_write_succeeds h s waits data count sector b :
  idle b -> frame h s data (512 * count) -> 0 <= 512 * count < 2 ^ 32 -> fits 64 sector -> capacity < sector + count ->
  phase_run (concat waits) Posted = Finished ->
  exists b', write serve mem_physical_address h s waits data count sector b = Done (tt, b') /\ idle b' /\
    disk b' = disk b /\ ram b' !! pa s = Some 1.
Proof using All.
  intros Hi F Hc Hsec Hcap Hw.
  destruct (request_served serve mem_physical_address WRITE false h s waits data count sector b) as (b' & E & Hi' & Hm & _);
    [done|apply F..|lia|done|].
  unfold chain_of in Hm. rewrite (vd_refused _ _ _ _ sector _ _ false) in Hm by (first [by eapply locals_header|done|lia]).
  apply pair_equal_spec in Hm as [Hr Hd]. exists b'. split_and!; [done..|]. rewrite Hr. cbn [put]. apply lookup_insert_eq.
Qed.

(** ** The service is a block driver *)

Section pages.
Context (mem_dealloc : Z -> Z -> Z) (add_free_range : Z -> Z -> bool).

(** A request for a page of the disk, as the FAT driver sends it. *)
Definition page_request (op : Op) (data n from : Z) : Packet := mkPacket (0, 0) data 0 n PAGE_SIZE from 0 0 0 (op_code op).

Lemma release_page data (b : Blk) :
  data mod 4096 = 0 -> mem_dealloc data 1 = 0 -> add_free_range data 1 = true ->
  release mem_dealloc add_free_range data PAGE_SIZE b = Done (tt, b).
Proof.
  intros Ha Hd Hf. unfold release. case_decide; [done|]. change (min_pages_for_range PAGE_SIZE) with 1. rewrite Hd, Hf.
  change OFFSET_MASK with 0xfff. destruct (page_parts data) as [-> _]. rewrite Ha. by rewrite !decide_False by (intros []; done).
Qed.

Definition page_ok (h s data n : Z) : Prop :=
  frame h s data 4096 /\ data <> 0 /\ data mod 4096 = 0 /\ mem_dealloc data 1 = 0 /\ add_free_range data 1 = true /\
  0 <= n /\ 8 * n + 8 <= capacity <= 2 ^ 64.
End pages.
End theorems.

(** The pages of a disk. *)
#[export] Program Instance disk_driver : BlockDriver Mem := {
  read_page := fun d n => peek d (4096 * n) 4096;
  write_page := fun d n l => put (4096 * n) l d
}.
Next Obligation. intros d n. pose proof (zlen_peek d (4096 * n) 4096). unfold zlen, PAGE_SIZE in *. lia. Qed.
Next Obligation.
  intros d n l Hl. assert (zlen l = 4096) as <- by (unfold zlen, PAGE_SIZE in *; lia). apply peek_put.
Qed.
Next Obligation. intros d n k l Hl Hn. apply peek_put_ne. unfold zlen, PAGE_SIZE in *. lia. Qed.

(** C34: the service is the block driver the file system expects.  A request to write page [n] of the
    disk is answered to its sender, with the page on the disk and nothing else changed there; a request to
    read it is answered with the page of the disk in the buffer.  In both cases the device has served the
    request exactly once and the queue is idle again, whatever the device does while the driver waits, as
    long as it gets to the request. *)
Theorem block_service_pages capacity serve `{!VirtioDisk capacity serve} mem_physical_address mem_dealloc add_free_range
    (h s : Z) (waits : list (list device_op)) (data n from : Z) (l : list Z) (b : Blk) :
  idle b -> page_ok capacity mem_physical_address mem_dealloc add_free_range h s data n ->
  phase_run (concat waits) Posted = Finished -> bytes_at (ram b) (pa mem_physical_address data) l -> zlen l = 4096 ->
  (exists b' r, handle serve mem_physical_address mem_dealloc add_free_range h s waits (page_request Write data n from) b =
      Done (Some r, b') /\ pk_address r = from /\ idle b' /\ disk b' = write_page (disk b) n l) /\
  (exists b' r, handle serve mem_physical_address mem_dealloc add_free_range h s waits (page_request Read data n from) b =
      Done (Some r, b') /\ pk_address r = from /\ idle b' /\ disk b' = disk b /\
      bytes_at (ram b') (pa mem_physical_address data) (read_page (disk b) n)).
Proof.
  intros Hi (F & Hnz & Ha & Hd & Hf & Hn & Hcap) Hw Hl Hlen.
  assert (wrap 64 (n * 8) = 8 * n) as Ew by (rewrite Z.mul_comm; apply wrap_small; unfold fits; lia).
  assert (fits 64 (8 * n)) by (unfold fits; lia).
  split; unfold handle, page_request; cbn [pk_opcode pk_data pk_data_length pk_data_offset pk_name pk_name_length op_code];
    change ratio with 8; change (PAGE_SIZE / Sector_SIZE) with 8; rewrite Ew; (rewrite decide_False by done); (erewrite bind_done by done);
    (rewrite (decide_False (P := data = 0)) by done).
  - destruct (write_spec capacity serve mem_physical_address h s waits data 8 (8 * n) l b)
      as (b' & E & Hi' & Hdk & _); [done|by rewrite Hlen|done|done|done|done|lia|done|].
    change (Op_try_from 2) with (@Ok Op UnknownOp Write). erewrite bind_done by (erewrite bind_done by done; by erewrite bind_done by exact E).
    erewrite bind_done by (by apply release_page). eexists b', _. split_and!; [done|done|done|]. rewrite Hdk. cbn. f_equal. lia.
  - destruct (read_spec capacity serve mem_physical_address h s waits data 8 (8 * n) b)
      as (b' & E & Hi' & Hdk & Hb); [done|done|done|done|lia|done|].
    change (Op_try_from 1) with (@Ok Op UnknownOp Read). erewrite bind_done by (erewrite bind_done by done; by erewrite bind_done by exact E).
    erewrite bind_done by (by apply release_page). eexists b', _. split_and!; [done|done|done|done|]. cbn.
    by replace (4096 * n) with (512 * (8 * n)) by lia.
Qed.

(** ** A device *)

Definition a_disk (capacity : Z) (bufs : list buffer) (st : Mem * Mem) : Mem * Mem :=
  let '(m, dk) := st in
  match bufs with
  | [(h, 16, false); (d, len, _); (s, 1, true)] =>
    let header := peek m h 16 in
    let typ := le_combine (take 4 header) in
    let sector := le_combine (drop 8 header) in
    if decide (capacity < sector + len / 512) then (put s [1] m, dk)
    else if decide (typ = WRITE) then (put s [0] m, put (512 * sector) (peek m d len) dk)
    else (put s [0] (put d (peek dk (512 * sector) len) m), dk)
  | _ => st
  end.

Lemma header_read m h typ sector :
  bytes_at m h (RequestHeader typ sector) -> fits 32 typ -> fits 64 sector ->
  le_combine (take 4 (peek m h 16)) = typ /\ le_combine (drop 8 (peek m h 16)) = sector.
Proof.
  intros H Ht Hs. rewrite <-(zlen_RequestHeader typ sector), (bytes_at_peek _ _ _ H). unfold RequestHeader. split.
  - rewrite take_app_length' by (by rewrite length_le_split). by apply le_combine_split.
  - rewrite app_assoc, drop_app_length' by (by rewrite length_app, !length_le_split). by apply le_combine_split.
Qed.

#[export] Instance a_disk_ok capacity : VirtioDisk capacity (a_disk capacity).
Proof.
  split.
  - intros h d s n sector m dk l Hh Hl Hlen Hs Hc. destruct (header_read _ _ _ _ Hh ltac:(done) Hs) as [Et Es]. unfold a_disk. cbv zeta.
    rewrite Et, Es, (Z.mul_comm 512 n), Z.div_mul by done. rewrite decide_False by lia. rewrite decide_True by done.
    by rewrite (Z.mul_comm n 512), <-Hlen, (bytes_at_peek _ _ _ Hl).
  - intros h d s n sector m dk Hh Hn Hs Hc. destruct (header_read _ _ _ _ Hh ltac:(done) Hs) as [Et Es]. unfold a_disk. cbv zeta.
    rewrite Et, Es, (Z.mul_comm 512 n), Z.div_mul by done. rewrite decide_False by lia. by rewrite decide_False by done.
  - intros h d s n sector m dk w Hh Hn Hs Hc. destruct (header_read _ _ _ _ Hh ltac:(by destruct w) Hs) as [Et Es]. unfold a_disk. cbv zeta.
    rewrite Et, Es, (Z.mul_comm 512 n), Z.div_mul by done. by rewrite decide_True by lia.
Qed.

(** A driver at rest, with a page of sevens at 0x2000. *)
Definition sevens : list Z := replicate (Z.to_nat 4096) 7.
Definition resting : Blk := mkDev example_sys (put 0x2000 sevens ∅) ∅ [].

Lemma resting_idle : idle resting.
Proof. exists [5; 7; 6; 0; 1; 3; 2; 4]. exact example_repr. Qed.

Lemma block_service_pages_witness :
  exists b', (exists r, handle (a_disk 16) (fun a => (0, a)) (fun _ _ => 0) (fun _ _ => true) 0x1000 0x1010 [[]; [Fetch]; [Complete 0 1]]
      (page_request Write 0x2000 1 9) resting = Done (Some r, b')) /\ peek (disk b') 4096 2 = [7; 7].
Proof.
  destruct (block_service_pages 16 (a_disk 16) (fun a => (0, a)) (fun _ _ => 0) (fun _ _ => true) 0x1000 0x1010 [[]; [Fetch]; [Complete 0 1]]
    0x2000 1 9 sevens resting) as [(b' & r & E & _ & _ & Hd) _].
  - exact resting_idle.
  - unfold page_ok. split_and!; [|done..]. split; (split; by vm_compute) || (unfold apart; vm_compute; lia) || (left; by vm_compute).
  - done.
  - exact (put_bytes_at _ _ _).
  - done.
  - exists b'. split; [by exists r|]. rewrite Hd. by vm_compute.
Defined.
