(* ===== verification/VirtioGpu.v ===== *)
(** * The virtio GPU

    src/lib/rust/virtio_gpu/src: commands for a 2D display and a cursor, in structures of memory that are
    shared with the device (controlq/ and cursorq/), and the operations that send them (lib.rs).

    What the device does is a parameter.  [Command], [encode] and [exec] state the part of the virtio
    specification that is used: pictures that are copied as a whole from the pages of the driver, shown on
    the first scanout.  The class [VirtioGpu] says that a device follows it.

    The theorems: the structures are those of the specification; a picture that is drawn is on the
    screen, byte by byte from the virtual memory of the driver, and what was shown before stays unless it
    is on the screen; a command that the device refuses counts as done. *)

From S2P Require Import Prelude Page Bytes CMem Abi VirtQueue VirtioSetup VirtioDevice.

(** ** Structures *)

Definition FEATURE_EDID : Z := 0x2.

Definition CMD_RESOURCE_CREATE_2D : Z := 0x101.
Definition CMD_SET_SCANOUT : Z := 0x103.
Definition CMD_RESOURCE_FLUSH : Z := 0x104.
Definition CMD_TRANSFER_TO_HOST_2D : Z := 0x105.
Definition CMD_RESOURCE_ATTACH_BACKING : Z := 0x106.
Definition CMD_UPDATE_CURSOR : Z := 0x300.
Definition CMD_MOVE_CURSOR : Z := 0x301.

Definition RESP_OK_NODATA : Z := 0x1100.
Definition RESP_ERR_INVALID_SCANOUT_ID : Z := 0x1202.
Definition RESP_ERR_INVALID_RESOURCE_ID : Z := 0x1203.

Definition FLAG_FENCE : Z := 0x1.

(** [ControlHeader::new]: the type, the flags, the fence, the context and the padding. *)
Definition ControlHeader (ty : Z) (fence : option Z) : list Z :=
  le_split 4 ty ++ le_split 4 (match fence with Some _ => FLAG_FENCE | None => 0 end) ++ le_split 8 (default 0 fence) ++ le_split 4 0 ++ le_split 4 0.

Record Rect : Type := mkRect { rect_x : Z; rect_y : Z; rect_width : Z; rect_height : Z }.

#[export] Instance Rect_eq_dec : EqDecision Rect.
Proof. solve_decision. Defined.

Definition Rect_bytes (r : Rect) : list Z :=
  le_split 4 (rect_x r) ++ le_split 4 (rect_y r) ++ le_split 4 (rect_width r) ++ le_split 4 (rect_height r).

Inductive Format : Type :=
| BGRA8Unorm | BGRX8Unorm | ARGB8Unorm | XRGB8Unorm | RGBA8Unorm | XBGR8Unorm | ABGR8Unorm | RGBX8Unorm.

Definition Format_u32 (f : Format) : Z :=
  match f with
  | BGRA8Unorm => 1 | BGRX8Unorm => 2 | ARGB8Unorm => 3 | XRGB8Unorm => 4
  | RGBA8Unorm => 67 | XBGR8Unorm => 68 | ABGR8Unorm => 121 | RGBX8Unorm => 134
  end.

Definition Format_try_from (n : Z) : option Format :=
  match n with
  | 1 => Some BGRA8Unorm | 2 => Some BGRX8Unorm | 3 => Some ARGB8Unorm | 4 => Some XRGB8Unorm
  | 67 => Some RGBA8Unorm | 68 => Some XBGR8Unorm | 121 => Some ABGR8Unorm | 134 => Some RGBX8Unorm
  | _ => None
  end.

Lemma format_roundtrip n f : Format_try_from n = Some f <-> n = Format_u32 f.
Proof.
  split; [|intros ->; by destruct f]. unfold Format_try_from. intros H. repeat case_match; simplify_eq; done.
Qed.

Definition Create2D (resource_id : Z) (format : Format) (width height : Z) (fence : option Z) : list Z :=
  ControlHeader CMD_RESOURCE_CREATE_2D fence ++ le_split 4 resource_id ++ le_split 4 (Format_u32 format) ++ le_split 4 width ++ le_split 4 height.

Definition AttachBacking (resource_id count : Z) (fence : option Z) : list Z :=
  ControlHeader CMD_RESOURCE_ATTACH_BACKING fence ++ le_split 4 resource_id ++ le_split 4 count.

Definition MemoryEntry (address length : Z) : list Z := le_split 8 address ++ le_split 4 length ++ le_split 4 0.

Definition SetScanout (scanout_id resource_id : Z) (rect : Rect) (fence : option Z) : list Z :=
  ControlHeader CMD_SET_SCANOUT fence ++ Rect_bytes rect ++ le_split 4 scanout_id ++ le_split 4 resource_id ++ le_split 4 0.

Definition TransferToHost2D (resource_id offset : Z) (rect : Rect) (fence : option Z) : list Z :=
  ControlHeader CMD_TRANSFER_TO_HOST_2D fence ++ Rect_bytes rect ++ le_split 8 offset ++ le_split 4 resource_id ++ le_split 4 0.

Definition Flush (resource_id : Z) (rect : Rect) (fence : option Z) : list Z :=
  ControlHeader CMD_RESOURCE_FLUSH fence ++ Rect_bytes rect ++ le_split 4 resource_id ++ le_split 4 0.

Record CursorPosition : Type := mkPosition { scanout_id : Z; pos_x : Z; pos_y : Z }.

Definition Position_bytes (p : CursorPosition) : list Z := le_split 4 (scanout_id p) ++ le_split 4 (pos_x p) ++ le_split 4 (pos_y p) ++ le_split 4 0.

Definition MoveCursor (p : CursorPosition) (fence : option Z) : list Z :=
  ControlHeader CMD_MOVE_CURSOR fence ++ Position_bytes p ++ le_split 4 0 ++ le_split 4 0 ++ le_split 4 0 ++ le_split 4 0.

Definition UpdateCursor (p : CursorPosition) (resource_id hot_x hot_y : Z) (fence : option Z) : list Z :=
  ControlHeader CMD_UPDATE_CURSOR fence ++ Position_bytes p ++ le_split 4 resource_id ++ le_split 4 hot_x ++ le_split 4 hot_y ++ le_split 4 0.

(** The fields of the structures, for their sizes. *)
Definition header_fields : list ctype := [U32; U32; U64; U32; U32].
Definition rect_fields : list ctype := [U32; U32; U32; U32].

Definition size_of_ControlHeader : Z := (repr_c header_fields).2.
Definition size_of_Create2D : Z := (repr_c (header_fields ++ [U32; U32; U32; U32])).2.
Definition size_of_AttachBacking : Z := (repr_c (header_fields ++ [U32; U32])).2.
Definition size_of_MemoryEntry : Z := (repr_c [U64; U32; U32]).2.
Definition size_of_SetScanout : Z := (repr_c (header_fields ++ rect_fields ++ [U32; U32; U32])).2.
Definition size_of_TransferToHost2D : Z := (repr_c (header_fields ++ rect_fields ++ [U64; U32; U32])).2.
Definition size_of_Flush : Z := (repr_c (header_fields ++ rect_fields ++ [U32; U32])).2.
Definition size_of_MoveCursor : Z := (repr_c (header_fields ++ rect_fields ++ [U32; U32; U32; U32])).2.
Definition size_of_UpdateCursor : Z := (repr_c (header_fields ++ rect_fields ++ [U32; U32; U32; U32])).2.

(** ** What the specification says of the device *)

Inductive Command : Type :=
| Create (id : Z) (format : Format) (width height : Z)
| Attach (id : Z) (entries : list (Z * Z))
| Scanout (scanout id : Z) (rect : Rect)
| Transfer (id offset : Z) (rect : Rect)
| FlushRes (id : Z) (rect : Rect)
| Update (p : CursorPosition) (id hot_x hot_y : Z)
| MoveTo (p : CursorPosition).

(** The bytes of a command with the fence 0. *)
Definition encode (c : Command) : list Z :=
  let hdr ty := le_split 4 ty ++ le_split 4 1 ++ le_split 8 0 ++ le_split 4 0 ++ le_split 4 0 in
  let u := le_split 4 in
  let rect r := u (rect_x r) ++ u (rect_y r) ++ u (rect_width r) ++ u (rect_height r) in
  let pos p := u (scanout_id p) ++ u (pos_x p) ++ u (pos_y p) ++ u 0 in
  match c with
  | Create id f w h => hdr 0x101 ++ u id ++ u (Format_u32 f) ++ u w ++ u h
  | Attach id l => hdr 0x106 ++ u id ++ u (zlen l) ++ concat ((fun e => le_split 8 e.1 ++ u e.2 ++ u 0) <$> l)
  | Scanout s id r => hdr 0x103 ++ rect r ++ u s ++ u id
  | Transfer id o r => hdr 0x105 ++ rect r ++ le_split 8 o ++ u id ++ u 0
  | FlushRes id r => hdr 0x104 ++ rect r ++ u id ++ u 0
  | Update p id hx hy => hdr 0x300 ++ pos p ++ u id ++ u hx ++ u hy ++ u 0
  | MoveTo p => hdr 0x301 ++ pos p ++ u 0 ++ u 0 ++ u 0 ++ u 0
  end.

(** A resource: its size, the memory behind it and its picture in the device, four bytes per pixel. *)
Record Res : Type := mkRes { res_width : Z; res_height : Z; backing : list (Z * Z); picture : list Z }.

(** The device: the resources, what the first scanout shows, what is on the screen, and the cursor with
    its position and its hot spot. *)
Record Gpu : Type := mkGpu { resources : gmap Z Res; scanout : option Z; screen : list Z; cursor : option (list Z * (Z * Z) * (Z * Z)) }.

Definition whole (r : Res) : Rect := mkRect 0 0 (res_width r) (res_height r).

Definition backing_bytes (m : Mem) (l : list (Z * Z)) : list Z := concat ((fun e => peek m e.1 e.2) <$> l).

Definition with_resource (id : Z) (r : Res) (g : Gpu) : Gpu := mkGpu (<[id := r]> (resources g)) (scanout g) (screen g) (cursor g).

(** The state and the type of the answer.  Nothing is said of the parts of pictures. *)
Definition exec (m : Mem) (c : Command) (g : Gpu) : option (Gpu * Z) :=
  match c with
  | Create id _ w h =>
    Some (if decide (id = 0 \/ is_Some (resources g !! id)) then (g, RESP_ERR_INVALID_RESOURCE_ID)
          else (with_resource id (mkRes w h [] (replicate (Z.to_nat (4 * (w * h))) 0)) g, RESP_OK_NODATA))
  | Attach id l =>
    Some (match resources g !! id with
          | None => (g, RESP_ERR_INVALID_RESOURCE_ID)
          | Some r => (with_resource id (mkRes (res_width r) (res_height r) l (picture r)) g, RESP_OK_NODATA)
          end)
  | Scanout s id rect =>
    if decide (s <> 0) then Some (g, RESP_ERR_INVALID_SCANOUT_ID) else
    match resources g !! id with
    | None => Some (g, RESP_ERR_INVALID_RESOURCE_ID)
    | Some r => if decide (rect = whole r) then Some (mkGpu (resources g) (Some id) (screen g) (cursor g), RESP_OK_NODATA) else None
    end
  | Transfer id offset rect =>
    match resources g !! id with
    | None => Some (g, RESP_ERR_INVALID_RESOURCE_ID)
    | Some r =>
      let n := 4 * (res_width r * res_height r) in
      let data := backing_bytes m (backing r) in
      if decide (rect = whole r /\ offset = 0 /\ n <= zlen data)
      then Some (with_resource id (mkRes (res_width r) (res_height r) (backing r) (take (Z.to_nat n) data)) g, RESP_OK_NODATA) else None
    end
  | FlushRes id rect =>
    match resources g !! id with
    | None => Some (g, RESP_ERR_INVALID_RESOURCE_ID)
    | Some r =>
      if decide (rect = whole r)
      then Some (mkGpu (resources g) (scanout g) (if decide (scanout g = Some id) then picture r else screen g) (cursor g), RESP_OK_NODATA) else None
    end
  | Update p id hx hy =>
    match resources g !! id with
    | None => None
    | Some r => Some (mkGpu (resources g) (scanout g) (screen g) (Some (picture r, (pos_x p, pos_y p), (hx, hy))), RESP_OK_NODATA)
    end
  | MoveTo p =>
    Some (mkGpu (resources g) (scanout g) (screen g)
            (match cursor g with Some (pic, _, hot) => Some (pic, (pos_x p, pos_y p), hot) | None => None end), RESP_OK_NODATA)
  end.

Definition rect_fits (r : Rect) : Prop := fits 32 (rect_x r) /\ fits 32 (rect_y r) /\ fits 32 (rect_width r) /\ fits 32 (rect_height r).
Definition position_fits (p : CursorPosition) : Prop := fits 32 (scanout_id p) /\ fits 32 (pos_x p) /\ fits 32 (pos_y p).

(** The fields have their widths. *)
Definition command_fits (c : Command) : Prop :=
  match c with
  | Create id _ w h => fits 32 id /\ fits 32 w /\ fits 32 h
  | Attach id l => fits 32 id /\ fits 32 (zlen l) /\ Forall (fun e => fits 64 e.1 /\ fits 32 e.2) l
  | Scanout s id r => fits 32 s /\ fits 32 id /\ rect_fits r
  | Transfer id o r => fits 32 id /\ fits 64 o /\ rect_fits r
  | FlushRes id r => fits 32 id /\ rect_fits r
  | Update p id hx hy => position_fits p /\ fits 32 id /\ fits 32 hx /\ fits 32 hy
  | MoveTo p => position_fits p
  end.

(** The command is read from the first buffer, which may be longer, and the answer is written to the
    second. *)
Class VirtioGpu (serve : list buffer -> Mem * Gpu -> Mem * Gpu) : Prop := {
  vg_serve : forall c h n r m g g' code,
    command_fits c -> bytes_at m h (encode c) -> zlen (encode c) <= n -> exec m c g = Some (g', code) ->
    serve [(h, n, false); (r, 24, true)] (m, g) = (put r (ControlHeader code (Some 0)) m, g')
}.

(** ** The operations *)

(** The two queues, memory, the device and the values written to the notification register. *)
Record Driver : Type := mkDriver { controlq : Sys; cursorq : Sys; memory : Mem; gpu : Gpu; notified : list Z }.

Definition on_controlq {X} (m : M (Dev Gpu) X) : M Driver X := fun s =>
  match m (mkDev (controlq s) (memory s) (gpu s) (notified s)) with
  | Done (x, b) => Done (x, mkDriver (sys b) (cursorq s) (ram b) (dev b) (kicks b))
  | Panicked why => Panicked why
  | OutOfFuel => OutOfFuel
  end.

Definition on_cursorq {X} (m : M (Dev Gpu) X) : M Driver X := fun s =>
  match m (mkDev (cursorq s) (memory s) (gpu s) (notified s)) with
  | Done (x, b) => Done (x, mkDriver (controlq s) (sys b) (ram b) (dev b) (kicks b))
  | Panicked why => Panicked why
  | OutOfFuel => OutOfFuel
  end.

Definition MAX_PAGES : Z := 1024.

Section operations.
Context (serve : list buffer -> Mem * Gpu -> Mem * Gpu).
(** The system call for [count] pages: status and physical addresses. *)
Context (mem_physical_address : Z -> Z -> Z * list Z).
(** Where the locals lie: the commands, by their type, and the buffers for answers, by the first command
    of the function that has them. *)
Context (local answer : Z -> Z).
(** The moves of the device while the driver waits for a command. *)
Context (waits : Z -> list (list device_op)).

Definition one_address (a : Z) : Z * Z := let '(status, l) := mem_physical_address a 1 in (status, default 0 (head l)).

(** [create_queue_entry] and [create_queue_entry_mut]. *)
Definition create_queue_entry (buffer size : Z) : M (Dev Gpu) VirtQueue.buffer :=
  let* p := phys_of one_address buffer in ret (p, size, false).
Definition create_queue_entry_mut (buffer size : Z) : M (Dev Gpu) VirtQueue.buffer :=
  let* p := phys_of one_address buffer in ret (p, size, true).

(** [flush] notifies both queues. *)
Definition flush : list Z := [0; 1].

(** The buffer for answers. *)
Definition response (ty : Z) : M (Dev Gpu) VirtQueue.buffer :=
  store_local one_address (answer ty) (ControlHeader 0 None) ;;
  create_queue_entry_mut (answer ty) size_of_ControlHeader.

(** A command is written to its place, sent together with the buffer for the answer, and waited for. *)
Definition command (ty : Z) (bytes : list Z) (size : Z) (resp : VirtQueue.buffer) : M (Dev Gpu) unit :=
  store_local one_address (local ty) bytes ;;
  let* e := create_queue_entry (local ty) size in
  exchange serve flush (waits ty) [e; resp] "failed to send data".

Definition create_resource (id : Z) (rect : Rect) (format : Format) (backend count : Z) : M (Dev Gpu) unit :=
  let* resp := response CMD_RESOURCE_CREATE_2D in
  if decide (MAX_PAGES < count) then panic "todo: use dyn alloc" else
  let '(status, phys_addrs) := mem_physical_address backend count in
  if decide (status <> 0) then panic "backend not allocated" else
  command CMD_RESOURCE_CREATE_2D (Create2D id format (rect_width rect) (rect_height rect) (Some 0)) size_of_Create2D resp ;;
  let entries := (fun r => MemoryEntry r PAGE_SIZE) <$> phys_addrs in
  let unused := replicate (Z.to_nat MAX_PAGES - length phys_addrs) (MemoryEntry 0 0) in
  command CMD_RESOURCE_ATTACH_BACKING (AttachBacking id (zlen phys_addrs) (Some 0) ++ concat (entries ++ unused))
    (size_of_AttachBacking + size_of_MemoryEntry * zlen phys_addrs) resp.

Definition init_scanout (format : Format) (rect : Rect) (backend count : Z) : M Driver Z :=
  let res_id := 1 in
  let scan_id := 0 in
  on_controlq
    (create_resource res_id rect format backend count ;;
     let* resp := response CMD_SET_SCANOUT in
     command CMD_SET_SCANOUT (SetScanout scan_id res_id rect (Some 0)) size_of_SetScanout resp) ;;
  ret res_id.

Definition init_cursor (x y : Z) (format : Format) (backend count : Z) : M Driver Z :=
  if decide (count <> 4) then panic "assertion failed: `(left == right)`" else
  let res_id := 2 in
  let scan_id := 0 in
  on_controlq (create_resource res_id (mkRect 0 0 64 64) format backend count) ;;
  on_cursorq
    (let* resp := response CMD_UPDATE_CURSOR in
     command CMD_UPDATE_CURSOR (UpdateCursor (mkPosition scan_id x y) res_id 0 0 (Some 0)) size_of_UpdateCursor resp) ;;
  ret res_id.

Definition update_cursor (resource hot_x hot_y : Z) : M Driver Z :=
  let scan_id := 0 in
  on_cursorq
    (let* resp := response CMD_UPDATE_CURSOR in
     command CMD_UPDATE_CURSOR (UpdateCursor (mkPosition scan_id 0 0) resource hot_x hot_y (Some 0)) size_of_UpdateCursor resp) ;;
  ret resource.

Definition move_cursor (x y : Z) : M Driver unit :=
  let scan_id := 0 in
  on_cursorq
    (let* resp := response CMD_MOVE_CURSOR in
     command CMD_MOVE_CURSOR (MoveCursor (mkPosition scan_id x y) (Some 0)) size_of_MoveCursor resp).

Definition draw (resource : Z) (rect : Rect) : M Driver unit :=
  on_controlq
    (let* resp := response CMD_TRANSFER_TO_HOST_2D in
     command CMD_TRANSFER_TO_HOST_2D (TransferToHost2D resource 0 rect (Some 0)) size_of_TransferToHost2D resp ;;
     command CMD_RESOURCE_FLUSH (Flush resource rect (Some 0)) size_of_Flush resp).
End operations.

(** [Device::new]: the two queues. *)
Definition Device_new dev_dma_alloc mem_physical_address (mem : Dma) : M (Setup * NewState) (Queue * Queue) :=
  on_fst (negotiate FEATURE_EDID) ;;
  let* r := on_snd (Queue_new dev_dma_alloc mem_physical_address mem 0 8 None) in
  match r with
  | Err _ => panic "OOM"
  | Ok controlq =>
    let* r := on_snd (Queue_new dev_dma_alloc mem_physical_address mem 1 8 None) in
    match r with
    | Err _ => panic "OOM"
    | Ok cursorq => on_fst driver_ok ;; ret (controlq, cursorq)
    end
  end.

(** When both queues could be set up the driver is announced in two steps and no feature is accepted. *)
Lemma gpu_device_ready dma_alloc phys_addr mem st q0 q1 c0 c1 :
  Queue_new dma_alloc phys_addr mem 0 8 None st.2 = Done (Ok q0, c0) -> Queue_new dma_alloc phys_addr mem 1 8 None c0 = Done (Ok q1, c1) ->
  exists st', Device_new dma_alloc phys_addr mem st = Done ((q0, q1), st') /\ status_writes st'.1 = status_writes st.1 ++ [11; 15] /\
    driver_feature st'.1 = driver_feature st.1.
Proof.
  intros E0 E1. destruct st as [su ns]. unfold Device_new. erewrite bind_done by done.
  erewrite bind_done by (unfold on_snd; cbn [snd] in *; by rewrite E0). cbv beta iota.
  erewrite bind_done by (unfold on_snd; cbn [snd] in *; by rewrite E1). cbv beta iota. erewrite bind_done by done.
  eexists. split; [done|]. cbn. by rewrite <-app_assoc.
Qed.

(** ** The structures are those of the specification *)

(** Every structure begins with the command of the specification and is at least as long. *)
Lemma structures_encode :
  (forall id f w h, Create2D id f w h (Some 0) = encode (Create id f w h)) /\
  (forall s id r, SetScanout s id r (Some 0) = encode (Scanout s id r) ++ le_split 4 0) /\
  (forall id o r, TransferToHost2D id o r (Some 0) = encode (Transfer id o r)) /\
  (forall id r, Flush id r (Some 0) = encode (FlushRes id r)) /\
  (forall p id hx hy, UpdateCursor p id hx hy (Some 0) = encode (Update p id hx hy)) /\
  (forall p, MoveCursor p (Some 0) = encode (MoveTo p)) /\
  (forall id l, AttachBacking id (zlen l) (Some 0) ++ concat ((fun r => MemoryEntry r PAGE_SIZE) <$> l) = encode (Attach id ((fun r => (r, PAGE_SIZE)) <$> l))).
Proof.
  split_and!; try done. intros id l. unfold AttachBacking, ControlHeader, encode. rewrite zlen_fmap, <-list_fmap_compose, <-!app_assoc. done.
Qed.

(** The sizes that are sent; [SetScanout] has eight bytes more than the command. *)
Lemma structure_sizes :
  (size_of_ControlHeader, size_of_Create2D, size_of_AttachBacking, size_of_MemoryEntry, size_of_SetScanout, size_of_TransferToHost2D, size_of_Flush,
   size_of_MoveCursor, size_of_UpdateCursor) = (24, 40, 32, 16, 56, 56, 48, 56, 56).
Proof. done. Qed.

(** ** Commands *)

Section commands.
Context (serve : list buffer -> Mem * Gpu -> Mem * Gpu) `{!VirtioGpu serve}.
Context (mem_physical_address : Z -> Z -> Z * list Z) (local answer : Z -> Z) (waits : Z -> list (list device_op)).
(** The physical addresses of the locals. *)
Context (owned : Z -> Prop).
Abbreviation pa := (pa (one_address mem_physical_address)).

Definition place (a n : Z) : Prop := in_row (one_address mem_physical_address) a n /\ forall i, 0 <= i < n -> owned (pa a + i).

(** The size of the local of every command. *)
Definition local_sizes : list (Z * Z) :=
  [(CMD_RESOURCE_CREATE_2D, 40); (CMD_RESOURCE_ATTACH_BACKING, 32 + 16 * 1024); (CMD_SET_SCANOUT, 56); (CMD_TRANSFER_TO_HOST_2D, 56);
   (CMD_RESOURCE_FLUSH, 48); (CMD_UPDATE_CURSOR, 56); (CMD_MOVE_CURSOR, 56)].

(** The locals lie in a row in physical memory, and the device gets to every command. *)
Definition locals_ok : Prop := forall ty n, (ty, n) ∈ local_sizes ->
  place (local ty) n /\ place (answer ty) 24 /\ phase_run (concat (waits ty)) Posted = Finished.

Definition unchanged (m m' : Mem) : Prop := forall a, ~ owned a -> m' !! a = m !! a.

Lemma unchanged_trans m1 m2 m3 : unchanged m1 m2 -> unchanged m2 m3 -> unchanged m1 m3.
Proof. intros H1 H2 a Ha. by rewrite H2, H1. Qed.

Lemma unchanged_put m a l : (forall i, 0 <= i < zlen l -> owned (a + i)) -> unchanged m (put a l m).
Proof.
  intros H b Hb. apply put_out. destruct (decide (b < a)); [by left|]. destruct (decide (a + zlen l <= b)); [by right|].
  destruct Hb. replace b with (a + (b - a)) by lia. apply H. lia.
Qed.

Lemma place_store a n l (b : Dev Gpu) : place a n -> zlen l <= n ->
  store_local (one_address mem_physical_address) a l b = Done (tt, mkDev (sys b) (put (pa a) l (ram b)) (dev b) (kicks b)).
Proof. intros [[_ _ Hr] _] Hl. unfold store_local, modify. by rewrite store_va_row by (intros i Hi; apply Hr; lia). Qed.

Lemma response_spec ty b : place (answer ty) 24 ->
  exists m, response mem_physical_address answer ty b = Done ((pa (answer ty), 24, true), mkDev (sys b) m (dev b) (kicks b)) /\ unchanged (ram b) m.
Proof.
  intros Hp. unfold response. erewrite bind_done by (by apply (place_store _ 24)). unfold create_queue_entry_mut.
  erewrite bind_done by (eapply phys_of_row, Hp). eexists. split; [done|]. apply unchanged_put. intros i Hi. by apply Hp.
Qed.

Lemma command_spec ty bytes size c r g' code b :
  idle b -> place (local ty) (zlen bytes) -> phase_run (concat (waits ty)) Posted = Finished ->
  command_fits c -> encode c `prefix_of` bytes -> zlen (encode c) <= size -> (forall i, 0 <= i < 24 -> owned (r + i)) ->
  (forall m, unchanged (ram b) m -> exec m c (dev b) = Some (g', code)) ->
  exists b', command serve mem_physical_address local waits ty bytes size (r, 24, true) b = Done (tt, b') /\ idle b' /\ dev b' = g' /\
    unchanged (ram b) (ram b') /\ kicks b' = kicks b ++ [0; 1] /\ bytes_at (ram b') r (ControlHeader code (Some 0)).
Proof using VirtioGpu0.
  intros Hi Hp Hw Hf [rest ->] Hsz Hr Hx. unfold command. erewrite bind_done by (by apply (place_store _ _ _ _ Hp)).
  unfold create_queue_entry. erewrite bind_done by (erewrite bind_done by (eapply phys_of_row, Hp); done).
  set (m1 := put (pa (local ty)) (encode c ++ rest) (ram b)).
  assert (unchanged (ram b) m1) as H1 by (apply unchanged_put; intros i Hi'; by apply Hp).
  destruct (exchange_served serve flush (waits ty) [(pa (local ty), size, false); (r, 24, true)] "failed to send data" (mkDev (sys b) m1 (dev b) (kicks b)))
    as (b' & E & Hi' & Hm & Hk); [done|done|cbn; lia|done|]. cbn [ram dev kicks] in *.
  rewrite (vg_serve c _ _ _ m1 _ g' code) in Hm by (first [done|by apply Hx|refine (proj1 (proj1 (bytes_at_app _ _ _ rest) _)); apply put_bytes_at]).
  apply pair_equal_spec in Hm as [Hm1 Hm2]. exists b'. rewrite Hm1. split_and!; [done..| |done|apply put_bytes_at].
  eapply unchanged_trans; [exact H1|]. by apply unchanged_put.
Qed.
Lemma zlen_entries l : zlen (concat ((fun r => MemoryEntry r PAGE_SIZE) <$> l)) = 16 * zlen l.
Proof.
  induction l as [|r l IH]; [done|]. cbn [fmap list_fmap concat]. rewrite zlen_app, IH, zlen_cons. unfold MemoryEntry. rewrite !zlen_app, !zlen_le_split. lia.
Qed.

Lemma zlen_unused n : zlen (concat (replicate n (MemoryEntry 0 0))) = 16 * Z.of_nat n.
Proof. induction n as [|n IH]; [done|]. cbn [replicate concat]. rewrite zlen_app, IH. change (zlen (MemoryEntry 0 0)) with 16. lia. Qed.

(** The picture of a new resource. *)
Definition blank (w h : Z) : list Z := replicate (Z.to_nat (4 * (w * h))) 0.
Definition page_entries (l : list Z) : list (Z * Z) := (fun r => (r, PAGE_SIZE)) <$> l.

(** The pages of the driver at [backend] have the physical addresses [l]. *)
Definition backend_ok (backend count : Z) (l : list Z) : Prop :=
  mem_physical_address backend count = (0, l) /\ zlen l = count /\ count <= MAX_PAGES /\ Forall (fits 64) l.

Lemma create_resource_spec id rect format backend count l b :
  locals_ok -> idle b -> backend_ok backend count l -> fits 32 id -> id <> 0 -> resources (dev b) !! id = None -> rect_fits rect ->
  exists b', create_resource serve mem_physical_address local answer waits id rect format backend count b = Done (tt, b') /\ idle b' /\
    dev b' = with_resource id (mkRes (rect_width rect) (rect_height rect) (page_entries l) (blank (rect_width rect) (rect_height rect))) (dev b) /\
    unchanged (ram b) (ram b').
Proof using VirtioGpu0.
  intros Hok Hi (Ea & Hlen & Hmax & Hl) Hid Hnz Hnone (_ & _ & Hrw & Hrh). destruct structures_encode as (S1 & _ & _ & _ & _ & _ & S7).
  destruct (Hok CMD_RESOURCE_CREATE_2D 40) as (P1 & A1 & W1); [set_solver|]. destruct (Hok CMD_RESOURCE_ATTACH_BACKING (32 + 16 * 1024)) as (P2 & _ & W2); [set_solver|].
  unfold create_resource. destruct (response_spec CMD_RESOURCE_CREATE_2D b A1) as (m & E & Hm). erewrite bind_done by exact E.
  rewrite decide_False by (unfold MAX_PAGES in *; lia). rewrite Ea. rewrite decide_False by lia. set (r := pa (answer _)). set (res := mkRes (rect_width rect) (rect_height rect)).
  destruct (command_spec CMD_RESOURCE_CREATE_2D (Create2D id format (rect_width rect) (rect_height rect) (Some 0)) size_of_Create2D
    (Create id format (rect_width rect) (rect_height rect)) r (with_resource id (res [] (blank (rect_width rect) (rect_height rect))) (dev b)) RESP_OK_NODATA
    (mkDev (sys b) m (dev b) (kicks b))) as (b1 & E1 & Hi1 & Hd1 & Hm1 & _); [done|done|done|done|by rewrite S1|done|apply A1| |].
  { intros m' _. cbn [exec dev]. rewrite decide_False; [done|]. rewrite Hnone. intros [?|[? ?]]; done. }
  erewrite bind_done by exact E1. cbn [ram] in Hm1. cbv zeta. rewrite concat_app, app_assoc, S7.
  destruct (command_spec CMD_RESOURCE_ATTACH_BACKING
    (encode (Attach id (page_entries l)) ++ concat (replicate (Z.to_nat MAX_PAGES - length l) (MemoryEntry 0 0))) (size_of_AttachBacking + size_of_MemoryEntry * zlen l)
    (Attach id (page_entries l)) r (with_resource id (res (page_entries l) (blank (rect_width rect) (rect_height rect))) (dev b)) RESP_OK_NODATA b1)
    as (b2 & E2 & Hi2 & Hd2 & Hm2 & _); [done| |done| |by eexists| |apply A1| |].
  - assert (zlen (encode (Attach id (page_entries l))) = 32 + 16 * zlen l) as El.
    { unfold page_entries. rewrite <-S7, zlen_app, zlen_entries. unfold AttachBacking, ControlHeader. rewrite !zlen_app, !zlen_le_split. lia. }
    rewrite zlen_app, El, zlen_unused. unfold MAX_PAGES, zlen in *. replace (32 + 16 * Z.of_nat (length l) + 16 * _) with (32 + 16 * 1024) by lia. done.
  - cbn [command_fits]. unfold page_entries. rewrite zlen_fmap. split_and!; [done|unfold MAX_PAGES, fits, zlen in *; lia|].
    apply Forall_fmap. eapply Forall_impl; [exact Hl|]. intros a Ha. split; [done|]. by unfold fits, PAGE_SIZE.
  - unfold page_entries. rewrite <-S7, zlen_app, zlen_entries. unfold AttachBacking, ControlHeader. rewrite !zlen_app, !zlen_le_split. change size_of_AttachBacking with 32. change size_of_MemoryEntry with 16. lia.
  - intros m' _. rewrite Hd1. unfold exec, with_resource at 1. cbn [resources]. rewrite lookup_insert_eq. unfold with_resource. cbn [resources scanout screen cursor res_width res_height picture res].
    by rewrite insert_insert_eq.
  - exists b2. split; [exact E2|]. split_and!; [done|done|]. eapply unchanged_trans; [exact Hm|]. by eapply unchanged_trans.
Qed.
(** ** The operations of the device *)

(** No command is on its way. *)
Definition at_rest (s : Driver) : Prop :=
  idle (mkDev (controlq s) (memory s) (gpu s) (notified s)) /\ idle (mkDev (cursorq s) (memory s) (gpu s) (notified s)).

(** The driver after an operation: the device has [g] and only locals were written. *)
Record done_with (s s' : Driver) (g : Gpu) : Prop := {
  dw_rest : at_rest s';
  dw_gpu : gpu s' = g;
  dw_memory : unchanged (memory s) (memory s')
}.

Lemma on_controlq_done {X} (m : M (Dev Gpu) X) s x b g :
  at_rest s -> m (mkDev (controlq s) (memory s) (gpu s) (notified s)) = Done (x, b) -> idle b -> dev b = g -> unchanged (memory s) (ram b) ->
  exists s', on_controlq m s = Done (x, s') /\ done_with s s' g.
Proof. intros [_ Hr] E Hi Hd Hm. unfold on_controlq. rewrite E. eexists. split; [done|]. by split. Qed.

Lemma on_cursorq_done {X} (m : M (Dev Gpu) X) s x b g :
  at_rest s -> m (mkDev (cursorq s) (memory s) (gpu s) (notified s)) = Done (x, b) -> idle b -> dev b = g -> unchanged (memory s) (ram b) ->
  exists s', on_cursorq m s = Done (x, s') /\ done_with s s' g.
Proof. intros [Hr _] E Hi Hd Hm. unfold on_cursorq. rewrite E. eexists. split; [done|]. by split. Qed.

(** One command with its buffer for the answer. *)
Lemma single_command ty n bytes size c g' code (b : Dev Gpu) :
  locals_ok -> idle b -> (ty, n) ∈ local_sizes -> zlen bytes <= n -> command_fits c -> encode c `prefix_of` bytes -> zlen (encode c) <= size ->
  (forall m, unchanged (ram b) m -> exec m c (dev b) = Some (g', code)) ->
  exists b', (let* resp := response mem_physical_address answer ty in command serve mem_physical_address local waits ty bytes size resp) b = Done (tt, b') /\
    idle b' /\ dev b' = g' /\ unchanged (ram b) (ram b') /\ bytes_at (ram b') (pa (answer ty)) (ControlHeader code (Some 0)).
Proof using VirtioGpu0.
  intros Hok Hi Hty Hn Hf Hpre Hsz Hx. destruct (Hok ty n Hty) as ([[Ps Pf Pr] Po] & A & W). destruct (response_spec ty b A) as (m & E & Hm). erewrite bind_done by exact E.
  destruct (command_spec ty bytes size c (pa (answer ty)) g' code (mkDev (sys b) m (dev b) (kicks b))) as (b' & E' & Hi' & Hd & Hm' & _ & Ha); try done.
  - split; [split; [done|done|]|]; intros i Hi'; [apply Pr|apply Po]; lia.
  - apply A.
  - intros m' Hm'. apply Hx. by eapply unchanged_trans.
  - exists b'. split_and!; [done..| |done]. by eapply unchanged_trans.
Qed.

Lemma init_scanout_spec format rect backend count l s :
  locals_ok -> at_rest s -> backend_ok backend count l -> resources (gpu s) !! 1 = None -> rect_fits rect -> rect_x rect = 0 -> rect_y rect = 0 ->
  let res := mkRes (rect_width rect) (rect_height rect) (page_entries l) (blank (rect_width rect) (rect_height rect)) in
  exists s', init_scanout serve mem_physical_address local answer waits format rect backend count s = Done (1, s') /\
    done_with s s' (mkGpu (<[1 := res]> (resources (gpu s))) (Some 1) (screen (gpu s)) (cursor (gpu s))).
Proof using VirtioGpu0.
  intros Hok Hs Hb Hnone Hrf Hx Hy res. destruct structures_encode as (_ & S2 & _). unfold init_scanout. cbv zeta.
  set (b := mkDev (controlq s) (memory s) (gpu s) (notified s)).
  destruct (create_resource_spec 1 rect format backend count l b) as (b1 & E1 & Hi1 & Hd1 & Hm1); [done|apply Hs|done|done|done|done|done|].
  destruct (single_command CMD_SET_SCANOUT 56 (SetScanout 0 1 rect (Some 0)) size_of_SetScanout (Scanout 0 1 rect)
    (mkGpu (<[1 := res]> (resources (gpu s))) (Some 1) (screen (gpu s)) (cursor (gpu s))) RESP_OK_NODATA b1) as (b2 & E2 & Hi2 & Hd2 & Hm2 & _);
    [done|done|set_solver|done|done|rewrite S2; by eexists|done| |].
  { intros m _. rewrite Hd1. unfold exec, with_resource. cbn [resources scanout screen cursor dev b]. rewrite decide_False by tauto. rewrite lookup_insert_eq.
    rewrite decide_True; [done|]. unfold whole. cbn. destruct rect. cbn in *. by subst. }
  edestruct (on_controlq_done (create_resource serve mem_physical_address local answer waits 1 rect format backend count ;;
    let* resp := response mem_physical_address answer CMD_SET_SCANOUT in
    command serve mem_physical_address local waits CMD_SET_SCANOUT (SetScanout 0 1 rect (Some 0)) size_of_SetScanout resp) s tt b2) as (s' & E & Hd); [done|by erewrite bind_done by exact E1|done|exact Hd2| |].
  - by eapply unchanged_trans.
  - erewrite bind_done by exact E. by exists s'.
Qed.

Lemma init_cursor_spec x y format backend l s :
  locals_ok -> at_rest s -> backend_ok backend 4 l -> resources (gpu s) !! 2 = None -> fits 32 x -> fits 32 y ->
  exists s', init_cursor serve mem_physical_address local answer waits x y format backend 4 s = Done (2, s') /\
    done_with s s' (mkGpu (<[2 := mkRes 64 64 (page_entries l) (blank 64 64)]> (resources (gpu s))) (scanout (gpu s)) (screen (gpu s)) (Some (blank 64 64, (x, y), (0, 0)))).
Proof using VirtioGpu0.
  intros Hok Hs Hb Hnone Hx Hy. destruct structures_encode as (_ & _ & _ & _ & S5 & _). unfold init_cursor. rewrite decide_False by tauto. cbv zeta.
  set (b := mkDev (controlq s) (memory s) (gpu s) (notified s)).
  destruct (create_resource_spec 2 (mkRect 0 0 64 64) format backend 4 l b) as (b1 & E1 & Hi1 & Hd1 & Hm1); [done|apply Hs|done..|].
  destruct (on_controlq_done _ s tt b1 _ Hs E1 Hi1 Hd1 Hm1) as (s1 & E & [Hs1 Hg1 Hm]). erewrite bind_done by exact E. cbn [rect_width rect_height dev b] in Hg1.
  set (b' := mkDev (cursorq s1) (memory s1) (gpu s1) (notified s1)).
  edestruct (single_command CMD_UPDATE_CURSOR 56 (UpdateCursor (mkPosition 0 x y) 2 0 0 (Some 0)) size_of_UpdateCursor (Update (mkPosition 0 x y) 2 0 0)) as (b2 & E2 & Hi2 & Hd2 & Hm2 & _);
    [done|apply (proj2 Hs1)|set_solver|done|done|by rewrite S5|done| |].
  { intros m _. cbn [dev exec]. rewrite Hg1. unfold with_resource. cbn [resources]. rewrite lookup_insert_eq. done. }
  destruct (on_cursorq_done _ s1 tt b2 _ Hs1 E2 Hi2 Hd2 Hm2) as (s2 & E' & [Hs2 Hg2 Hm']). erewrite bind_done by exact E'.
  exists s2. split; [done|]. split; [done|done|]. by eapply unchanged_trans.
Qed.

(** The pages behind a resource are not the locals of the driver. *)
Definition apart_from_locals (l : list (Z * Z)) : Prop := Forall (fun e => forall i, 0 <= i < e.2 -> ~ owned (e.1 + i)) l.

Lemma peek_unchanged m m' a n : (forall i, 0 <= i < n -> ~ owned (a + i)) -> unchanged m m' -> peek m' a n = peek m a n.
Proof. intros Ha Hu. unfold peek. apply list_fmap_ext. intros k i Hi%list_elem_of_lookup_2%elem_of_seqZ. by rewrite Hu by (apply Ha; lia). Qed.

Lemma backing_unchanged m m' l : apart_from_locals l -> unchanged m m' -> backing_bytes m' l = backing_bytes m l.
Proof.
  intros Ha Hu. unfold backing_bytes. f_equal. induction Ha as [|e l He _ IH]; [done|]. cbn [fmap list_fmap]. f_equal; [|exact IH]. by apply peek_unchanged.
Qed.

(** What the device has after a resource was drawn from the bytes [data]. *)
Definition drawn (id : Z) (r : Res) (data : list Z) (g : Gpu) : Gpu :=
  let pic := take (Z.to_nat (4 * (res_width r * res_height r))) data in
  mkGpu (<[id := mkRes (res_width r) (res_height r) (backing r) pic]> (resources g)) (scanout g) (if decide (scanout g = Some id) then pic else screen g) (cursor g).

Lemma draw_spec id r s :
  locals_ok -> at_rest s -> resources (gpu s) !! id = Some r -> fits 32 id -> rect_fits (whole r) -> apart_from_locals (backing r) ->
  4 * (res_width r * res_height r) <= zlen (backing_bytes (memory s) (backing r)) ->
  exists s', draw serve mem_physical_address local answer waits id (whole r) s = Done (tt, s') /\
    done_with s s' (drawn id r (backing_bytes (memory s) (backing r)) (gpu s)).
Proof using VirtioGpu0.
  intros Hok Hs Hr Hid Hrf Hap Hlen. destruct structures_encode as (_ & _ & S3 & S4 & _). unfold draw.
  set (b := mkDev (controlq s) (memory s) (gpu s) (notified s)). set (data := backing_bytes (memory s) (backing r)) in *.
  destruct (Hok CMD_TRANSFER_TO_HOST_2D 56) as (P1 & A1 & W1); [set_solver|]. destruct (Hok CMD_RESOURCE_FLUSH 48) as (P2 & _ & W2); [set_solver|].
  destruct (response_spec CMD_TRANSFER_TO_HOST_2D b A1) as (m & E & Hm). set (res' := mkRes (res_width r) (res_height r) (backing r) (take (Z.to_nat (4 * (res_width r * res_height r))) data)).
  destruct (command_spec CMD_TRANSFER_TO_HOST_2D (TransferToHost2D id 0 (whole r) (Some 0)) size_of_TransferToHost2D (Transfer id 0 (whole r)) (pa (answer CMD_TRANSFER_TO_HOST_2D))
    (with_resource id res' (gpu s)) RESP_OK_NODATA (mkDev (sys b) m (dev b) (kicks b))) as (b1 & E1 & Hi1 & Hd1 & Hm1 & _); [apply Hs|done|done|done|by rewrite S3|done|apply A1| |].
  { intros m' Hm'. cbn [exec dev b]. rewrite Hr. cbv zeta. rewrite (backing_unchanged (memory s) m') by (done || by eapply unchanged_trans). fold data. by rewrite decide_True. }
  destruct (command_spec CMD_RESOURCE_FLUSH (Flush id (whole r) (Some 0)) size_of_Flush (FlushRes id (whole r)) (pa (answer CMD_TRANSFER_TO_HOST_2D))
    (drawn id r data (gpu s)) RESP_OK_NODATA b1) as (b2 & E2 & Hi2 & Hd2 & Hm2 & _); [done|done|done|done|by rewrite S4|done|apply A1| |].
  { intros m' _. rewrite Hd1. unfold exec, with_resource. cbn [resources]. rewrite lookup_insert_eq. by rewrite decide_True. }
  eapply (on_controlq_done _ s tt b2); [done| |done|done|].
  - erewrite bind_done by exact E. erewrite bind_done by exact E1. exact E2.
  - eapply unchanged_trans; [exact Hm|]. by eapply unchanged_trans.
Qed.

(** The answers are not looked at: drawing a resource that the device does not have returns as if it
    had been done. *)
Lemma refused_draw_succeeds id rect s :
  locals_ok -> at_rest s -> resources (gpu s) !! id = None -> fits 32 id -> rect_fits rect ->
  exists s', draw serve mem_physical_address local answer waits id rect s = Done (tt, s') /\ done_with s s' (gpu s) /\
    bytes_at (memory s') (pa (answer CMD_TRANSFER_TO_HOST_2D)) (ControlHeader RESP_ERR_INVALID_RESOURCE_ID (Some 0)).
Proof using VirtioGpu0.
  intros Hok Hs Hr Hid Hrf. destruct structures_encode as (_ & _ & S3 & S4 & _). unfold draw.
  destruct (Hok CMD_TRANSFER_TO_HOST_2D 56) as (_ & A1 & _); [set_solver|]. destruct (Hok CMD_RESOURCE_FLUSH 48) as (P2 & _ & W2); [set_solver|].
  destruct (Hok CMD_TRANSFER_TO_HOST_2D 56) as (P1 & _ & W1); [set_solver|]. set (b := mkDev (controlq s) (memory s) (gpu s) (notified s)).
  destruct (response_spec CMD_TRANSFER_TO_HOST_2D b A1) as (m & E & Hm).
  destruct (command_spec CMD_TRANSFER_TO_HOST_2D (TransferToHost2D id 0 rect (Some 0)) size_of_TransferToHost2D (Transfer id 0 rect) (pa (answer CMD_TRANSFER_TO_HOST_2D))
    (gpu s) RESP_ERR_INVALID_RESOURCE_ID (mkDev (sys b) m (dev b) (kicks b))) as (b1 & E1 & Hi1 & Hd1 & Hm1 & _);
    [apply Hs|done|done|done|by rewrite S3|done|apply A1|intros m' _; cbn [exec dev b]; by rewrite Hr|].
  destruct (command_spec CMD_RESOURCE_FLUSH (Flush id rect (Some 0)) size_of_Flush (FlushRes id rect) (pa (answer CMD_TRANSFER_TO_HOST_2D))
    (gpu s) RESP_ERR_INVALID_RESOURCE_ID b1) as (b2 & E2 & Hi2 & Hd2 & Hm2 & _ & Ha); [done|done|done|done|by rewrite S4|done|apply A1|intros m' _; rewrite Hd1; cbn [exec]; by rewrite Hr|].
  unfold on_controlq. fold b. erewrite bind_done by exact E. erewrite bind_done by exact E1. rewrite E2. eexists. split; [done|]. split; [|done].
  split; [split; [done|apply Hs]|done|]. eapply unchanged_trans; [exact Hm|]. by eapply unchanged_trans.
Qed.

(** The cursor goes to the upper left corner whenever its picture is updated. *)
Lemma update_cursor_spec id hot_x hot_y r s :
  locals_ok -> at_rest s -> resources (gpu s) !! id = Some r -> fits 32 id -> fits 32 hot_x -> fits 32 hot_y ->
  exists s', update_cursor serve mem_physical_address local answer waits id hot_x hot_y s = Done (id, s') /\
    done_with s s' (mkGpu (resources (gpu s)) (scanout (gpu s)) (screen (gpu s)) (Some (picture r, (0, 0), (hot_x, hot_y)))).
Proof using VirtioGpu0.
  intros Hok Hs Hr Hid Hx Hy. destruct structures_encode as (_ & _ & _ & _ & S5 & _). unfold update_cursor. cbv zeta.
  set (b := mkDev (cursorq s) (memory s) (gpu s) (notified s)).
  edestruct (single_command CMD_UPDATE_CURSOR 56 (UpdateCursor (mkPosition 0 0 0) id hot_x hot_y (Some 0)) size_of_UpdateCursor (Update (mkPosition 0 0 0) id hot_x hot_y))
    as (b2 & E2 & Hi2 & Hd2 & Hm2 & _); [done|apply (proj2 Hs)|set_solver|done|done|by rewrite S5|done|intros m _; cbn [dev exec]; by rewrite Hr|].
  destruct (on_cursorq_done _ s tt b2 _ Hs E2 Hi2 Hd2 Hm2) as (s2 & E' & Hd). erewrite bind_done by exact E'. by exists s2.
Qed.

Lemma move_cursor_spec x y s :
  locals_ok -> at_rest s -> fits 32 x -> fits 32 y ->
  exists s', move_cursor serve mem_physical_address local answer waits x y s = Done (tt, s') /\
    done_with s s' (mkGpu (resources (gpu s)) (scanout (gpu s)) (screen (gpu s)) ((fun c => (c.1.1, (x, y), c.2)) <$> cursor (gpu s))).
Proof using VirtioGpu0.
  intros Hok Hs Hx Hy. destruct structures_encode as (_ & _ & _ & _ & _ & S6 & _). unfold move_cursor. cbv zeta.
  edestruct (single_command CMD_MOVE_CURSOR 56 (MoveCursor (mkPosition 0 x y) (Some 0)) size_of_MoveCursor (MoveTo (mkPosition 0 x y)))
    as (b2 & E2 & Hi2 & Hd2 & Hm2 & _); [done|apply (proj2 Hs)|set_solver|done|done|by rewrite S6|done|intros m _; by cbn [dev exec]|].
  destruct (on_cursorq_done _ s tt b2 _ Hs E2 Hi2 Hd2 Hm2) as (s2 & E' & [H1 H2 H3]). exists s2. split; [exact E'|]. split; [done| |done].
  rewrite H2. by destruct (cursor (gpu s)) as [[[? ?] ?]|].
Qed.
End commands.

(** ** Pictures in virtual memory *)

Section pictures.
Context (mem_physical_address : Z -> Z -> Z * list Z).
Abbreviation pa := (pa (one_address mem_physical_address)).

(** The bytes from the virtual address [a]. *)
Definition va_bytes (m : Mem) (a n : Z) : list Z := (fun i => default 0 (m !! pa (a + i))) <$> seqZ 0 n.

(** The system call gives the address of every page. *)
Definition pages_of (a count : Z) : list Z := (fun i => (one_address mem_physical_address (a + 4096 * i)).2) <$> seqZ 0 count.

Lemma va_bytes_page m a : a mod 4096 = 0 -> peek m (one_address mem_physical_address a).2 4096 = va_bytes m a 4096.
Proof.
  intros Ha. unfold peek, va_bytes. apply list_fmap_ext. intros k i Hi%list_elem_of_lookup_2%elem_of_seqZ. do 2 f_equal. unfold VirtioDevice.pa.
  destruct (page_parts (a + i)) as [-> ->]. assert ((a + i) mod 4096 = i) as -> by (rewrite <-Z.add_mod_idemp_l, Ha by lia; apply Z.mod_small; lia).
  by replace (a + i - i) with a by lia.
Qed.

Lemma va_bytes_app m a n k : 0 <= n -> 0 <= k -> va_bytes m a (n + k) = va_bytes m a n ++ va_bytes m (a + n) k.
Proof.
  intros Hn Hk. unfold va_bytes. rewrite seqZ_app, fmap_app by done. f_equal. rewrite (Z.add_comm 0 n), <-fmap_add_seqZ, <-list_fmap_compose.
  apply list_fmap_ext. intros j i _. cbn. by rewrite Z.add_assoc.
Qed.

Lemma zlen_va_bytes m a n : 0 <= n -> zlen (va_bytes m a n) = n.
Proof. intros Hn. unfold va_bytes, zlen. rewrite length_fmap, length_seqZ. lia. Qed.

Lemma va_bytes_take m a n k : 0 <= n <= k -> take (Z.to_nat n) (va_bytes m a k) = va_bytes m a n.
Proof.
  intros Hn. replace k with (n + (k - n)) by lia. rewrite va_bytes_app by lia. apply take_app_length'. unfold va_bytes. rewrite length_fmap, length_seqZ. done.
Qed.

(** The memory behind a resource is the buffer of the driver. *)
Lemma backing_is_buffer m a count : a mod 4096 = 0 -> 0 <= count -> backing_bytes m (page_entries (pages_of a count)) = va_bytes m a (4096 * count).
Proof.
  intros Ha. revert count. apply natlike_ind; [done|]. intros n Hn IH. rewrite <-Z.add_1_r. unfold backing_bytes, page_entries, pages_of in *.
  rewrite seqZ_app, !fmap_app, concat_app by lia. rewrite IH. rewrite Z.mul_add_distr_l, va_bytes_app by lia. f_equal.
  change (seqZ (0 + n) 1) with [0 + n]. cbn [fmap list_fmap concat fst snd]. rewrite app_nil_r. rewrite Z.mul_1_r, Z.add_0_l. apply va_bytes_page.
  rewrite <-Z.add_mod_idemp_r, (Z.mul_comm 4096), Z.mod_mul, Z.add_0_r by lia. done.
Qed.
End pictures.

(** ** A device *)

(** The next field of [k] bytes. *)
Definition field (k : nat) (l : list Z) : Z * list Z := (le_combine (take k l), drop k l).

Lemma field_encoded k v l : fits (8 * Z.of_nat k) v -> field k (le_split k v ++ l) = (v, l).
Proof.
  intros Hv. unfold field. rewrite take_app_length', drop_app_length' by (by rewrite length_le_split). by rewrite le_combine_split.
Qed.

Fixpoint entries (n : nat) (l : list Z) : list (Z * Z) :=
  match n with
  | O => []
  | S n => let '(a, l) := field 8 l in let '(k, l) := field 4 l in let '(_, l) := field 4 l in (a, k) :: entries n l
  end.

Definition decode (l : list Z) : option Command :=
  let '(ty, l) := field 4 l in
  let l := drop 20 l in
  let '(a, l) := field 4 l in
  let '(b, l) := field 4 l in
  if decide (ty = 0x106) then Some (Attach a (entries (Z.to_nat b) l)) else
  let '(c, l) := field 4 l in
  let '(d, l) := field 4 l in
  if decide (ty = 0x101) then (fun f => Create a f c d) <$> Format_try_from b else
  let rect := mkRect a b c d in
  if decide (ty = 0x105) then let '(o, l) := field 8 l in let '(id, l) := field 4 l in Some (Transfer id o rect) else
  let '(e, l) := field 4 l in
  if decide (ty = 0x104) then Some (FlushRes e rect) else
  let '(f, l) := field 4 l in
  if decide (ty = 0x103) then Some (Scanout e f rect) else
  let '(g, l) := field 4 l in
  let p := mkPosition a b c in
  if decide (ty = 0x300) then Some (Update p e f g) else
  if decide (ty = 0x301) then Some (MoveTo p) else None.

Lemma entries_encoded l rest : Forall (fun e => fits 64 e.1 /\ fits 32 e.2) l ->
  entries (length l) (concat ((fun e => le_split 8 e.1 ++ le_split 4 e.2 ++ le_split 4 0) <$> l) ++ rest) = l.
Proof.
  induction 1 as [|[a k] l [Ha Hk] _ IH]; [done|]. cbn [length entries fmap list_fmap concat fst snd] in *. rewrite <-!app_assoc.
  rewrite !field_encoded by done. by rewrite IH.
Qed.

Lemma drop_header v w rest : drop 20 (le_split 4 v ++ le_split 8 w ++ le_split 4 0 ++ le_split 4 0 ++ rest) = rest.
Proof. done. Qed.

Lemma Format_u32_fits f : fits 32 (Format_u32 f).
Proof. by destruct f. Qed.

(** Reads the fields of an encoded command. *)
Ltac parse_fields :=
  rewrite <-?app_assoc;
  repeat first [rewrite field_encoded by (first [tauto|apply Format_u32_fits|done])
    | rewrite drop_header | rewrite decide_False by done | rewrite decide_True by done]; try done.

Lemma decode_encode c rest : command_fits c -> decode (encode c ++ rest) = Some c.
Proof.
  intros Hc. destruct c as [id f w h|id l|s id [x y w h]|id o [x y w h]|id [x y w h]|[s x y] id hx hy|[s x y]];
    unfold command_fits, rect_fits, position_fits in Hc; cbn [rect_x rect_y rect_width rect_height scanout_id pos_x pos_y] in Hc;
    unfold decode, encode; cbv zeta; cbn [rect_x rect_y rect_width rect_height scanout_id pos_x pos_y]; parse_fields.
  - by rewrite (proj2 (format_roundtrip _ f)) by done.
  - unfold zlen. rewrite Nat2Z.id, entries_encoded by tauto. done.
Qed.

Definition a_gpu (bufs : list buffer) (st : Mem * Gpu) : Mem * Gpu :=
  match bufs with
  | [(h, n, false); (r, 24, true)] =>
    match decode (peek st.1 h n) ≫= (fun c => exec st.1 c st.2) with
    | Some (g, code) => (put r (ControlHeader code (Some 0)) st.1, g)
    | None => st
    end
  | _ => st
  end.

Lemma peek_app m a n k : 0 <= n -> 0 <= k -> peek m a (n + k) = peek m a n ++ peek m (a + n) k.
Proof.
  intros Hn Hk. unfold peek. rewrite seqZ_app, fmap_app by done. f_equal. rewrite (Z.add_comm 0 n), <-fmap_add_seqZ, <-list_fmap_compose.
  apply list_fmap_ext. intros j i _. cbn. by rewrite Z.add_assoc.
Qed.

#[export] Instance a_gpu_ok : VirtioGpu a_gpu.
Proof.
  split. intros c h n r m g g' code Hc Hb Hn Hx. unfold a_gpu. cbn [fst snd]. replace n with (zlen (encode c) + (n - zlen (encode c))) by lia.
  rewrite peek_app, (bytes_at_peek _ _ _ Hb), decode_encode by (done || (pose proof (zlen_nonneg (encode c)); lia)). cbn. by rewrite Hx.
Qed.
