(* ===== verification/GpuDriver.v ===== *)
(** * The driver of the virtio GPU

    src/services/driver/virtio_gpu/src/main.rs: a display of 800 by 600 pixels and a cursor of 64 by 64 in
    the memory of the driver.  It starts with a gradient; other programs get the memory with the packet
    "open" and ask with "flush" to show what they wrote there.  The arguments and the mapping of the device
    are those of VirtioSetup.

    The theorems: after the start the screen shows the gradient, pixel by pixel; whatever is in the two
    buffers when a program asks for it is then on the screen and in the cursor, again and again; a packet
    with any other number or object ends the driver. *)

From S2P Require Import Prelude Page Bytes CMem Ipc Abi VirtQueue DriverArgs Pci VirtioSetup VirtioDevice VirtioGpu.

(** The start, up to [new_device]: the arguments, the mapping of the header and the areas, and what is
    written to the command register of the header. *)
Definition start (sys_direct_alloc : Z -> Z -> Z -> Z) (args : list Arg) : outcome (((Z * list (option Z)) * Maps) * Z) :=
  let! r := driver_start sys_direct_alloc args in
  Done (r, Z.lor (Z.lor COMMAND_INTERRUPT_DISABLE COMMAND_MMIO_MASK) COMMAND_BUS_MASTER_MASK).

Definition width : Z := 800.
Definition height : Z := 600.
Definition size : Z := (width * height * 4 + 4095) / PAGE_SIZE.
Definition addr : Z := 0x33330000.
(** The pixels of the slice. *)
Definition pixels : Z := size * PAGE_SIZE / 4.
Definition cursor_addr : Z := addr + PAGE_SIZE * size.
Definition cursor_size : Z := (64 * 64 * 4 + 4095) / PAGE_SIZE.

Definition rect : Rect := mkRect 0 0 width height.
Definition cursor_rect : Rect := mkRect 0 0 64 64.

Definition OP_OPEN : Z := 128.
Definition OP_FLUSH : Z := 129.

Section driver.
Context (serve : list buffer -> Mem * Gpu -> Mem * Gpu).
Context (mem_physical_address : Z -> Z -> Z * list Z) (local answer : Z -> Z) (waits : Z -> list (list device_op)).
(** The status of the system calls. *)
Context (mem_alloc : Z -> Z -> Z) (sys_registry_add : Z).

(** The pixel at [x], [y]. *)
Definition set_pixel (x y : Z) : M Driver unit :=
  let r := wrap 8 (x * 127 / width) in
  let g := wrap 8 (y * 127 / height) in
  let i := x + y * width in
  if decide (pixels <= i) then panic "index out of bounds" else
  modify (fun s => mkDriver (controlq s) (cursorq s) (store_va (one_address mem_physical_address) (addr + 4 * i) [wrap 8 (r * 2); wrap 8 (g * 2); wrap 8 (255 - r - g); 255] (memory s)) (gpu s) (notified s)).

Definition fill : M Driver unit := for_each (seqZ 0 width) (fun x => for_each (seqZ 0 height) (fun y => set_pixel x y)).

(** [main], from the creation of the draw buffer to the loop. *)
Definition main : M Driver (Z * Z) :=
  if decide (mem_alloc addr size <> 0) then panic "assertion failed: `(left == right)`" else
  if decide (mem_alloc cursor_addr cursor_size <> 0) then panic "assertion failed: `(left == right)`" else
  let* id := init_scanout serve mem_physical_address local answer waits RGBA8Unorm rect addr size in
  fill ;;
  let* cursor_id := init_cursor serve mem_physical_address local answer waits 0 0 RGBA8Unorm cursor_addr cursor_size in
  draw serve mem_physical_address local answer waits cursor_id cursor_rect ;;
  draw serve mem_physical_address local answer waits id rect ;;
  if decide (sys_registry_add <> 0) then panic "failed to add self to registry" else
  ret (id, cursor_id).

(** The answer to "open": the memory of a buffer. *)
Definition opened (rx : Packet) (data length : Z) : Packet :=
  mkPacket (0, 0) data 0 0 length (pk_address rx) 0 0 (pk_id rx) (pk_opcode rx).

(** One round of the loop: the answer, if there is one. *)
Definition handle (id cursor_id : Z) (rx : Packet) : M Driver (option Packet) :=
  if decide (pk_opcode rx = OP_OPEN) then
    let uuid := (pk_uuid rx).1 + 2 ^ 64 * (pk_uuid rx).2 in
    if decide (uuid = 0) then ret (Some (opened rx addr (width * height * 4)))
    else if decide (uuid = 1) then ret (Some (opened rx cursor_addr (64 * 64 * 4)))
    else panic "not yet implemented"
  else if decide (pk_opcode rx = OP_FLUSH) then
    draw serve mem_physical_address local answer waits id rect ;;
    draw serve mem_physical_address local answer waits cursor_id cursor_rect ;;
    update_cursor serve mem_physical_address local answer waits cursor_id 0 0 ;;
    ret None
  else panic "not yet implemented".
End driver.

(** ** The gradient *)

(** The byte at an offset of the buffer. *)
Definition shade (o : Z) : Z :=
  let r := (o / 4) mod 800 * 127 / 800 in
  let g := o / 4 / 800 * 127 / 600 in
  match o mod 4 with
  | 0 => r * 2
  | 1 => g * 2
  | 2 => 255 - r - g
  | _ => 255
  end.

Lemma shade_pixel x y : 0 <= x < 800 -> 0 <= y < 600 ->
  let i := x + y * 800 in
  let r := x * 127 / 800 in
  let g := y * 127 / 600 in
  [shade (4 * i); shade (4 * i + 1); shade (4 * i + 2); shade (4 * i + 3)] = [r * 2; g * 2; 255 - r - g; 255] /\ 0 <= r <= 126 /\ 0 <= g <= 126.
Proof.
  intros Hx Hy i r g. assert (forall k, 0 <= k < 4 -> (4 * i + k) / 4 = i /\ (4 * i + k) mod 4 = k) as Hk.
  { intros k Hk. split; [symmetry; apply (Z.div_unique _ _ _ k); lia|symmetry; apply (Z.mod_unique _ _ i); lia]. }
  assert (i mod 800 = x /\ i / 800 = y) as [Em Ed] by (split; symmetry; [apply (Z.mod_unique _ _ y); lia|apply (Z.div_unique _ _ _ x); lia]).
  assert (forall k, 0 <= k < 4 -> shade (4 * i + k) = match k with 0 => r * 2 | 1 => g * 2 | 2 => 255 - r - g | _ => 255 end) as Hs.
  { intros k Hk'. unfold shade. destruct (Hk k Hk') as [-> ->]. by rewrite Em, Ed. }
  rewrite <-(Z.add_0_r (4 * i)) at 1. rewrite !Hs by lia. split; [done|]. split; split; try (apply Z.div_pos; lia); apply Z.lt_succ_r; (apply Z.div_lt_upper_bound; lia).
Qed.

Section proofs.
Context (serve : list buffer -> Mem * Gpu -> Mem * Gpu) `{!VirtioGpu serve}.
Context (mem_physical_address : Z -> Z -> Z * list Z) (local answer : Z -> Z) (waits : Z -> list (list device_op)).
Context (owned : Z -> Prop).
Abbreviation pa := (pa (one_address mem_physical_address)).

(** The two buffers: their pages are known to the system, apart from the locals, and different. *)
Record buffers_ok : Prop := {
  bo_display : backend_ok mem_physical_address addr size (pages_of mem_physical_address addr size);
  bo_cursor : backend_ok mem_physical_address cursor_addr cursor_size (pages_of mem_physical_address cursor_addr cursor_size);
  bo_apart : apart_from_locals owned (page_entries (pages_of mem_physical_address addr size));
  bo_cursor_apart : apart_from_locals owned (page_entries (pages_of mem_physical_address cursor_addr cursor_size));
  bo_different : forall i j, 0 <= i < 4096 * size -> 0 <= j < 4096 * size -> pa (addr + i) = pa (addr + j) -> i = j
}.

Definition shaded (o : Z) (m : Mem) : Prop := 0 <= o < 4096 * size /\ m !! pa (addr + o) = Some (shade o).

Lemma store_shade o i m : buffers_ok -> 0 <= i < 4096 * size -> shaded o m \/ (o = i) -> shaded o (<[pa (addr + i) := shade i]> m).
Proof.
  intros Hb Hi Ho. destruct (decide (pa (addr + o) = pa (addr + i))) as [E|Hne].
  - assert (o = i) as -> by (destruct Ho as [[Hr _]| ->]; [by apply (bo_different Hb)|done]). split; [done|]. apply lookup_insert_eq.
  - destruct Ho as [[Hr Ho]| ->]; [|done]. split; [done|]. by rewrite lookup_insert_ne.
Qed.

(** A step of the loop: only memory changes, and what is shaded stays. *)
Definition step_ok (s s' : Driver) : Prop :=
  (exists m, s' = mkDriver (controlq s) (cursorq s) m (gpu s) (notified s)) /\ forall o, shaded o (memory s) -> shaded o (memory s').

Lemma step_ok_refl s : step_ok s s.
Proof. split; [|done]. exists (memory s). by destruct s. Qed.

Lemma step_ok_trans s1 s2 s3 : step_ok s1 s2 -> step_ok s2 s3 -> step_ok s1 s3.
Proof. intros [[m1 ->] H1] [[m2 ->] H2]. split; [by eexists|]. intros o Ho. by apply H2, H1. Qed.

(** All four bytes of a pixel. *)
Definition pixel_ok (x y : Z) (s : Driver) : Prop := forall k, 0 <= k < 4 -> shaded (4 * (x + y * 800) + k) (memory s).

Lemma set_pixel_spec x y s : buffers_ok -> 0 <= x < 800 -> 0 <= y < 600 ->
  exists s', set_pixel mem_physical_address x y s = Done (tt, s') /\ step_ok s s' /\ pixel_ok x y s'.
Proof.
  intros Hb Hx Hy. destruct (shade_pixel x y Hx Hy) as (Hs & Hr & Hg). unfold set_pixel. change width with 800 in *. change height with 600. cbv zeta in *.
  set (r := x * 127 / 800) in *. set (g := y * 127 / 600) in *. set (i := x + y * 800) in *.
  rewrite (wrap_small 8 r), (wrap_small 8 g) by (unfold fits; lia). rewrite !wrap_small by (unfold fits; lia).
  rewrite decide_False by (change pixels with 480256; lia). rewrite <-Hs. eexists. split; [done|]. cbn [store_va].
  assert (forall k, 0 <= k < 4 -> 0 <= 4 * i + k < 4096 * size) as Hrange by (change (4096 * size) with 1921024; lia).
  pose proof (Hrange 0 ltac:(lia)). pose proof (Hrange 1 ltac:(lia)). pose proof (Hrange 2 ltac:(lia)). pose proof (Hrange 3 ltac:(lia)).
  replace (addr + 4 * i + 1 + 1 + 1) with (addr + (4 * i + 3)) by lia. replace (addr + 4 * i + 1 + 1) with (addr + (4 * i + 2)) by lia.
  replace (addr + 4 * i + 1) with (addr + (4 * i + 1)) by lia. split.
  - split; [by eexists|]. cbn [memory]. intros o Ho. do 4 (apply store_shade; [done|lia|left]). done.
  - intros k Hk. cbn [memory]. assert (k = 0 \/ k = 1 \/ k = 2 \/ k = 3) as [-> |[-> |[-> | ->]]] by lia; rewrite ?Z.add_0_r.
    + do 3 (apply store_shade; [done|lia|left]). apply store_shade; [done|lia|by right].
    + do 2 (apply store_shade; [done|lia|left]). apply store_shade; [done|lia|by right].
    + apply store_shade; [done|lia|left]. apply store_shade; [done|lia|by right].
    + apply store_shade; [done|lia|by right].
Qed.

Lemma fill_shades s : buffers_ok -> exists s', fill mem_physical_address s = Done (tt, s') /\ step_ok s s' /\ forall o, 0 <= o < 4 * (width * height) -> shaded o (memory s').
Proof.
  intros Hb. unfold fill.
  destruct (for_each_spec (fun _ => True) step_ok (fun x s => forall y, y ∈ seqZ 0 height -> pixel_ok x y s) (fun x => for_each (seqZ 0 height) (fun y => set_pixel mem_physical_address x y))
    step_ok_refl step_ok_trans) with (l := seqZ 0 width) (s := s) as (s' & E & _ & Hs & Hp).
  - intros x s1 s2 Hj [_ Hk] y Hy k Hk'. by apply Hk, Hj.
  - done.
  - intros x s1 Hx%elem_of_seqZ _. apply for_each_spec; [apply step_ok_refl|apply step_ok_trans| |done|].
    + intros y s2 s3 Hj [_ Hk] k Hk'. by apply Hk, Hj.
    + intros y s2 Hy%elem_of_seqZ _. destruct (set_pixel_spec x y s2) as (s3 & E & Hst & Hpx); [done|change width with 800 in Hx; lia|change height with 600 in Hy; lia|]. by exists s3.
  - exists s'. split; [done|]. split; [done|]. intros o Ho. change (width * height) with 480000 in Ho.
    pose proof (Z.div_mod o 4 ltac:(lia)) as Eo. pose proof (Z.mod_pos_bound o 4 ltac:(lia)) as H4.
    pose proof (Z.div_mod (o / 4) 800 ltac:(lia)) as Ei. pose proof (Z.mod_pos_bound (o / 4) 800 ltac:(lia)) as H800.
    assert (0 <= o / 4 / 800 < 600) as Hy by (split; [do 2 (apply Z.div_pos; [|lia]); lia|do 2 (apply Z.div_lt_upper_bound; [lia|]); lia]).
    rewrite Eo. replace (o / 4) with ((o / 4) mod 800 + o / 4 / 800 * 800) at 1 by lia. apply (Hp ((o / 4) mod 800)); [apply elem_of_seqZ; change width with 800; lia| |done].
    apply elem_of_seqZ. change height with 600. lia.
Qed.
(** ** The loop *)

(** The buffer at [a] of [n] pages is behind the resource [id] of the device. *)
Definition resource_of (g : Gpu) (id w h a n : Z) : Prop :=
  exists pic, resources g !! id = Some (mkRes w h (page_entries (pages_of mem_physical_address a n)) pic).

Record serving (s : Driver) : Prop := {
  sv_rest : at_rest s;
  sv_display : resource_of (gpu s) 1 width height addr size;
  sv_cursor : resource_of (gpu s) 2 64 64 cursor_addr cursor_size;
  sv_scanout : scanout (gpu s) = Some 1
}.

(** The memory of the driver is shared with other programs, which may write to it. *)
Definition with_memory (m : Mem) (s : Driver) : Driver := mkDriver (controlq s) (cursorq s) m (gpu s) (notified s).

Lemma serving_memory m s : serving s -> serving (with_memory m s).
Proof. by intros [[H0 H1] H2 H3 H4]. Qed.

Lemma va_bytes_unchanged m m' a n k :
  apart_from_locals owned (page_entries (pages_of mem_physical_address a n)) -> a mod 4096 = 0 -> 0 <= n -> 0 <= k <= 4096 * n -> unchanged owned m m' ->
  va_bytes mem_physical_address m' a k = va_bytes mem_physical_address m a k.
Proof.
  intros Hap Ha Hn Hk Hu. pose proof (backing_unchanged owned m m' _ Hap Hu) as H. rewrite !backing_is_buffer in H by done.
  rewrite <-(va_bytes_take _ m' a k (4096 * n)), <-(va_bytes_take _ m a k (4096 * n)) by done. by rewrite H.
Qed.

(** Drawing a resource takes the picture from the buffer. *)
Lemma draw_buffer id w h a n s :
  locals_ok mem_physical_address local answer waits owned -> at_rest s -> resource_of (gpu s) id w h a n ->
  apart_from_locals owned (page_entries (pages_of mem_physical_address a n)) -> fits 32 id -> fits 32 w -> fits 32 h -> a mod 4096 = 0 -> 0 <= n -> 0 <= 4 * (w * h) <= 4096 * n ->
  let pic := va_bytes mem_physical_address (memory s) a (4 * (w * h)) in
  exists s', draw serve mem_physical_address local answer waits id (mkRect 0 0 w h) s = Done (tt, s') /\
    done_with owned s s' (mkGpu (<[id := mkRes w h (page_entries (pages_of mem_physical_address a n)) pic]> (resources (gpu s))) (scanout (gpu s))
      (if decide (scanout (gpu s) = Some id) then pic else screen (gpu s)) (cursor (gpu s))).
Proof using VirtioGpu0.
  intros Hl Hs (pic0 & Hr) Hap Hid Hw Hh Ha Hn Hsz pic. destruct (draw_spec serve mem_physical_address local answer waits owned id _ s Hl Hs Hr) as (s' & E & Hd).
  - done.
  - done.
  - done.
  - cbn [res_width res_height backing]. rewrite backing_is_buffer by done. rewrite zlen_va_bytes; lia.
  - exists s'. split; [exact E|]. revert Hd. unfold drawn. cbn [res_width res_height backing]. rewrite backing_is_buffer by done. by rewrite va_bytes_take by lia.
Qed.

(** What other programs wrote to the buffers is shown.  Whenever the driver serves and the memory holds
    anything, the packet "flush" puts the bytes of the display buffer on the screen and those of the
    cursor buffer into the cursor, byte by byte in the virtual memory of the driver, and the driver
    serves on; the packet "open" answers its sender with the address and length of the buffer it asked
    for and changes nothing. *)
Theorem flush_shows_buffers m s (rx : Packet) :
  locals_ok mem_physical_address local answer waits owned -> buffers_ok -> serving s ->
  (pk_opcode rx = OP_FLUSH -> exists s', handle serve mem_physical_address local answer waits 1 2 rx (with_memory m s) = Done (None, s') /\ serving s' /\
     screen (gpu s') = va_bytes mem_physical_address m addr (4 * (width * height)) /\
     cursor (gpu s') = Some (va_bytes mem_physical_address m cursor_addr (4 * (64 * 64)), (0, 0), (0, 0)) /\
     (forall a, ~ owned a -> memory s' !! a = m !! a)) /\
  (pk_opcode rx = OP_OPEN -> pk_uuid rx = (0, 0) \/ pk_uuid rx = (1, 0) -> exists r,
     handle serve mem_physical_address local answer waits 1 2 rx (with_memory m s) = Done (Some r, with_memory m s) /\ pk_address r = pk_address rx /\ pk_id r = pk_id rx /\
     (pk_data r, pk_data_length r) = if decide (pk_uuid rx = (0, 0)) then (addr, 4 * (width * height)) else (cursor_addr, 4 * (64 * 64))).
Proof using VirtioGpu0.
  intros Hl Hb Hs. split.
  - intros Eo. unfold handle. rewrite Eo. rewrite decide_False by done. rewrite decide_True by done. destruct (serving_memory m s Hs) as [S1 S2 S3 S4].
    destruct (draw_buffer 1 width height addr size (with_memory m s)) as (s1 & E1 & [R1 G1 M1]); [done|done|done|apply Hb|done..|].
    erewrite bind_done by exact E1. rewrite S4, decide_True in G1 by done.
    destruct (draw_buffer 2 64 64 cursor_addr cursor_size s1) as (s2 & E2 & [R2 G2 M2]); [done|done| |apply Hb|done..|].
    { destruct S3 as [pic Hp]. exists pic. rewrite G1. cbn [resources]. by rewrite lookup_insert_ne. }
    erewrite bind_done by exact E2.
    destruct (update_cursor_spec serve mem_physical_address local answer waits owned 2 0 0 (mkRes 64 64 (page_entries (pages_of mem_physical_address cursor_addr cursor_size))
      (va_bytes mem_physical_address (memory s1) cursor_addr (4 * (64 * 64)))) s2) as (s3 & E3 & [R3 G3 M3]); [done|done| |done..|].
    { rewrite G2. cbn [resources]. by rewrite lookup_insert_eq. }
    erewrite bind_done by exact E3. exists s3. split; [done|]. rewrite (va_bytes_unchanged m (memory s1) cursor_addr cursor_size) in * by (done || apply Hb).
    split_and!.
    + split; [done| | |]; unfold resource_of; rewrite G3, G2, G1; cbn [resources scanout]; [|eexists; by rewrite lookup_insert_eq|done].
      eexists. rewrite lookup_insert_ne by done. by rewrite lookup_insert_eq.
    + rewrite G3, G2, G1. cbn [screen scanout]. by rewrite decide_False by done.
    + rewrite G3. done.
    + intros a Ha. by rewrite M3, M2, M1.
  - intros Eo Hu. unfold handle. rewrite Eo. rewrite decide_True by done. destruct Hu as [Hu|Hu]; rewrite Hu; eexists; split_and!; try done.
Qed.
(** ** The start *)

Section start.
Context (mem_alloc : Z -> Z -> Z) (sys_registry_add : Z).

(** The driver starts with the gradient on the screen and serves from then on, when the memory for the
    buffers and the name are to be had. *)
Theorem driver_shows_gradient s :
  locals_ok mem_physical_address local answer waits owned -> buffers_ok -> at_rest s -> resources (gpu s) !! 1 = None -> resources (gpu s) !! 2 = None ->
  mem_alloc addr size = 0 -> mem_alloc cursor_addr cursor_size = 0 -> sys_registry_add = 0 ->
  exists s', main serve mem_physical_address local answer waits mem_alloc sys_registry_add s = Done ((1, 2), s') /\ serving s' /\
    screen (gpu s') = shade <$> seqZ 0 (4 * (width * height)).
Proof using VirtioGpu0.
  intros Hl Hb Hs N1 N2 A1 A2 Hreg. unfold main. rewrite A1, A2. rewrite !decide_False by tauto.
  destruct (init_scanout_spec serve mem_physical_address local answer waits owned RGBA8Unorm rect addr size _ s Hl Hs (bo_display Hb) N1) as (s1 & E1 & [R1 G1 M1]); [done..|].
  erewrite bind_done by exact E1. destruct (fill_shades s1 Hb) as (s2 & E2 & [[m2 ->] _] & Hsh). erewrite bind_done by exact E2. set (s2 := mkDriver _ _ m2 _ _) in *.
  assert (at_rest s2) as R2 by exact R1.
  destruct (init_cursor_spec serve mem_physical_address local answer waits owned 0 0 RGBA8Unorm cursor_addr _ s2 Hl R2 (bo_cursor Hb)) as (s3 & E3 & [R3 G3 M3]); [|unfold fits; lia..|].
  { cbn [gpu s2]. rewrite G1. cbn [resources]. rewrite lookup_insert_ne by lia. exact N2. }
  change cursor_size with 4. erewrite bind_done by exact E3. cbn [gpu s2] in G3. rewrite G1 in G3. cbn [resources scanout screen] in G3.
  destruct (draw_buffer 2 64 64 cursor_addr cursor_size s3) as (s4 & E4 & [R4 G4 M4]);
    [exact Hl|exact R3| |apply Hb|unfold fits; lia..|reflexivity|change cursor_size with 4; lia|change cursor_size with 4; lia|].
  { eexists. rewrite G3. cbn [resources]. apply lookup_insert_eq. }
  erewrite bind_done by exact E4. rewrite G3 in G4. cbn [resources scanout screen cursor] in G4.
  destruct (draw_buffer 1 width height addr size s4) as (s5 & E5 & [R5 G5 M5]);
    [exact Hl|exact R4| |apply Hb|unfold fits, width, height; lia..|reflexivity|change size with 469; lia|change size with 469; unfold width, height; lia|].
  { eexists. rewrite G4. cbn [resources]. rewrite !lookup_insert_ne by lia. apply lookup_insert_eq. }
  erewrite bind_done by exact E5. rewrite decide_False by tauto. exists s5. split; [reflexivity|]. rewrite G4 in G5. cbn [resources scanout screen cursor] in G5. split.
  - split; [exact R5| | |]; unfold resource_of; rewrite G5; cbn [resources scanout]; [| |reflexivity].
    + eexists. apply lookup_insert_eq.
    + eexists. rewrite lookup_insert_ne by lia. apply lookup_insert_eq.
  - rewrite G5. cbn [screen]. rewrite decide_True by reflexivity. rewrite (va_bytes_unchanged (memory s2) (memory s4) addr size) by (first [exact (bo_apart Hb)|reflexivity|change size with 469; unfold width, height; lia|eapply unchanged_trans; [exact M3|exact M4]]).
    unfold va_bytes. apply list_fmap_ext. intros j o Ho%list_elem_of_lookup_2%elem_of_seqZ. destruct (Hsh o) as [_ H]; [lia|]. by rewrite H.
Qed.
End start.
End proofs.

(** A packet with another number ends the driver. *)
Lemma other_packets_panic serve mem_physical_address local answer waits id cursor_id rx s :
  pk_opcode rx <> OP_OPEN -> pk_opcode rx <> OP_FLUSH -> handle serve mem_physical_address local answer waits id cursor_id rx s = Panicked "not yet implemented".
Proof. intros H1 H2. unfold handle. by rewrite !decide_False. Qed.

(** ** An example: memory that is mapped to itself *)

Definition same_addresses (a n : Z) : Z * list Z := (0, (fun i => a + 4096 * i) <$> seqZ 0 n).
Definition low (a : Z) : Prop := a < 0x100000.

Lemma same_one a : one_address same_addresses a = (0, a).
Proof. unfold one_address, same_addresses. change (seqZ 0 1) with [0]. cbn [fmap list_fmap head default]. by rewrite Z.mul_0_r, Z.add_0_r. Qed.

Lemma same_pa a : pa (one_address same_addresses) a = a.
Proof. unfold pa. rewrite same_one. cbn [snd]. destruct (page_parts a) as [-> ->]. lia. Qed.

Lemma same_pages a n : pages_of same_addresses a n = (fun i => a + 4096 * i) <$> seqZ 0 n.
Proof. unfold pages_of. apply list_fmap_ext. intros k i _. by rewrite same_one. Qed.

Lemma same_backend a n : 0 <= n <= 1024 -> 0 <= a < 2 ^ 40 -> backend_ok same_addresses a n (pages_of same_addresses a n).
Proof.
  intros Hn Ha. rewrite same_pages. split_and!; [reflexivity|unfold zlen; rewrite length_fmap, length_seqZ; lia|unfold MAX_PAGES; lia|].
  apply Forall_fmap, Forall_forall. intros i Hi%elem_of_seqZ. cbn. unfold fits. lia.
Qed.

Lemma same_apart a n : 0x100000 <= a -> apart_from_locals low (page_entries (pages_of same_addresses a n)).
Proof.
  intros Ha. rewrite same_pages. unfold apart_from_locals, page_entries. rewrite <-list_fmap_compose. apply Forall_fmap, Forall_forall.
  intros i Hi%elem_of_seqZ j Hj. cbn in *. unfold low. lia.
Qed.

Lemma same_buffers : buffers_ok same_addresses low.
Proof.
  split.
  - apply same_backend; [change size with 469; lia|unfold addr; lia].
  - apply same_backend; [change cursor_size with 4; lia|change cursor_addr with 0x33505000; lia].
  - apply same_apart. unfold addr. lia.
  - apply same_apart. change cursor_addr with 0x33505000. lia.
  - intros i j _ _. rewrite !same_pa. lia.
Qed.

Definition soon : list (list device_op) := [[Fetch]; [Complete 0 24]].

Lemma same_locals : locals_ok same_addresses (fun _ => 0x10000) (fun _ => 0x20000) (fun _ => soon) low.
Proof.
  assert (forall a n, 0 <= a -> 0 <= n <= 0x8000 -> a + n < 0x100000 -> place same_addresses low a n) as H.
  { intros a n Ha Hn1 Hn. split; [split|]; [reflexivity|rewrite same_pa; unfold fits; lia|intros i Hi; rewrite !same_pa; lia|intros i Hi; rewrite same_pa; unfold low; lia]. }
  intros ty n Hin. split; [|split; [apply H; lia|reflexivity]]. assert (0 <= n <= 0x8000) as Hn; [|apply H; lia].
  unfold local_sizes in Hin. rewrite !elem_of_cons, elem_of_nil in Hin. destruct_or!; simplify_eq; lia.
Qed.

Definition showing : Driver :=
  mkDriver example_sys example_sys ∅
    (mkGpu (<[1 := mkRes width height (page_entries (pages_of same_addresses addr size)) []]>
             (<[2 := mkRes 64 64 (page_entries (pages_of same_addresses cursor_addr cursor_size)) []]> ∅)) (Some 1) [] None) [].

Lemma showing_serves : serving same_addresses showing.
Proof.
  split.
  - split; exists [5; 7; 6; 0; 1; 3; 2; 4]; exact example_repr.
  - exists []. apply lookup_insert_eq.
  - exists []. cbn [gpu resources showing]. rewrite lookup_insert_ne by lia. apply lookup_insert_eq.
  - reflexivity.
Qed.

Lemma flush_shows_buffers_witness :
  exists s', handle a_gpu same_addresses (fun _ => 0x10000) (fun _ => 0x20000) (fun _ => soon) 1 2 (mkPacket (0, 0) 0 0 0 0 9 0 0 0 OP_FLUSH)
      (with_memory {[addr := 7]} showing) = Done (None, s') /\ nth_z (screen (gpu s')) 0 = Some 7.
Proof.
  destruct (flush_shows_buffers a_gpu same_addresses (fun _ => 0x10000) (fun _ => 0x20000) (fun _ => soon) low {[addr := 7]} showing
    (mkPacket (0, 0) 0 0 0 0 9 0 0 0 OP_FLUSH) same_locals same_buffers showing_serves) as [H _].
  destruct H as (s' & E & _ & Hs & _); [reflexivity|]. exists s'. split; [exact E|]. rewrite Hs.
  replace (4 * (width * height)) with (1 + 1919999) by reflexivity. rewrite va_bytes_app by lia. unfold va_bytes at 1. change (seqZ 0 1) with [0]. cbn [fmap list_fmap].
  rewrite same_pa, Z.add_0_r, lookup_singleton_eq. reflexivity.
Defined.
