(* ===== verification/Console.v ===== *)
(** * The console

    src/services/driver/console/src/main.rs and letter.rs: text that other programs write is drawn, letter
    by letter, into the display buffer of the GPU driver.  The letters are a bitmap that is part of the
    build and a parameter here.

    A text is an abstract screen of letters in 50 columns.  The theorems: the pixels of the buffer are
    those of the letters, and every other pixel stays; after the console has asked the GPU driver to flush,
    the screen of the device shows the text; at the 38th line the console panics, because it never scrolls
    and its height is not used. *)

From S2P Require Import Prelude Page Bytes CMem Ipc Abi VirtQueue VirtioDevice VirtioGpu GpuDriver.

(** ** Letters *)

Record RGBA8 : Type := mkRGBA8 { red : Z; green : Z; blue : Z; alpha : Z }.

Definition rgb (r g b : Z) : RGBA8 := mkRGBA8 r g b 255.

Definition WIDTH : Z := 9.
Definition HEIGHT : Z := 16.
Definition BITS : Z := WIDTH * HEIGHT.
Definition SIZE : Z := BITS / 8.

(** The width of the display. *)
Definition w : Z := 800.

Section font.
Context (LETTERS : list Z).

(** [Letter::get] *)
Definition letter_get (letter x y : Z) : outcome bool :=
  if decide (WIDTH <= x) then Panicked "assertion failed: x < Self::WIDTH" else
  if decide (HEIGHT <= y) then Panicked "assertion failed: y < Self::HEIGHT" else
  let i := letter * BITS + y * WIDTH + x in
  match nth_z LETTERS (i / 8) with
  | None => Panicked "index out of bounds"
  | Some b => Done (0 <? Z.land b (Z.shiftl 1 (i mod 8)))
  end.

(** [buffer[wx + wy * w] = ...] *)
Definition set_pixel (letter lx ly wx wy : Z) (fg bg : RGBA8) : M (list RGBA8) unit := fun buffer =>
  let! on := letter_get letter lx ly in
  let i := wrap 64 (wx + wy * w) in
  if decide (i < zlen buffer) then Done (tt, set_z buffer i (if (on : bool) then fg else bg)) else Panicked "index out of bounds".

(** [Letter::copy] *)
Definition copy (letter x y : Z) (fg bg : RGBA8) : M (list RGBA8) unit :=
  let* len := gets zlen in
  if decide (len <= wrap 64 (x + w * y)) then panic "assertion failed: x + w * y < buffer.len()" else
  for_each (seqZ 0 HEIGHT) (fun ly => for_each (seqZ 0 WIDTH) (fun lx => set_pixel letter lx ly (x + lx) (y + ly) fg bg)).

(** ** Text *)

Record Console : Type := mkConsole { buffer : list RGBA8; cursor_x : Z; cursor_y : Z }.

Definition cursor_w : Z := 50.

Definition on_buffer {X} (m : M (list RGBA8) X) : M Console X := fun s =>
  match m (buffer s) with
  | Done (x, b) => Done (x, mkConsole b (cursor_x s) (cursor_y s))
  | Panicked why => Panicked why
  | OutOfFuel => OutOfFuel
  end.

Definition set_cursor (x y : Z) : M Console unit := modify (fun s => mkConsole (buffer s) x y).

Definition fg : RGBA8 := rgb 255 255 255.
Definition bg : RGBA8 := rgb 0 0 0.

(** A letter at the cursor. *)
Definition put_letter (c : Z) : M Console unit :=
  let* s := get in
  on_buffer (copy c (wrap 64 (cursor_x s * WIDTH)) (wrap 64 (cursor_y s * HEIGHT)) fg bg) ;;
  if decide (cursor_w <= cursor_x s + 1) then set_cursor 0 (wrap 64 (cursor_y s + 1)) else set_cursor (cursor_x s + 1) (cursor_y s).

(** The escape sequence that clears the line. *)
Definition clear_line : M Console unit :=
  let* s := get in
  on_buffer (for_each (seqZ 0 cursor_w) (fun x => copy 0 (x * WIDTH) (wrap 64 (cursor_y s * HEIGHT)) fg bg)) ;;
  set_cursor 0 (cursor_y s).

(** The loop over the bytes. *)
Fixpoint type_bytes (data : list Z) : M Console unit :=
  match data with
  | [] => ret tt
  | c :: data =>
    if decide (c = 10) then (let* s := get in set_cursor 0 (wrap 64 (cursor_y s + 1))) ;; type_bytes data
    else if decide (c = 13) then (let* s := get in set_cursor 0 (cursor_y s)) ;; type_bytes data
    else if decide (c = 27) then
      match data with
      | [] => panic "assertion failed: `(left == right)`"
      | d :: data =>
        if decide (d <> 91) then panic "assertion failed: `(left == right)`" else
        match data with
        | [] => panic "called `Option::unwrap()` on a `None` value"
        | e :: data =>
          if decide (e <> 50) then panic "explicit panic" else
          match data with
          | [] => panic "called `Option::unwrap()` on a `None` value"
          | f :: data => if decide (f <> 75) then panic "explicit panic" else clear_line ;; type_bytes data
          end
        end
      end
    else put_letter c ;; type_bytes data
  end.

(** ** Packets *)

(** The request for the display buffer, and what the console takes from the answer. *)
Definition open_request (address : Z) : Packet := mkPacket (0, 0) 0 0 0 0 address 0 0 0 OP_OPEN.

Definition take_buffer (address : Z) (rx : Packet) : outcome (Z * Z) :=
  if decide (pk_address rx <> address) then Panicked "assertion failed: `(left == right)`" else
  if decide (pk_data rx = 0) then Panicked "called `Option::unwrap()` on a `None` value" else
  Done (pk_data rx, pk_data_length rx / 4).

Definition flush_request (address : Z) : Packet := mkPacket (0, 0) 0 0 0 0 address 0 0 0 OP_FLUSH.

(** One round of the loop: the packets that are sent.  [data] is the memory the packet brings. *)
Definition handle (address : Z) (rx : Packet) (data : list Z) : M Console (list Packet) :=
  if decide (pk_opcode rx = op_code Write) then
    if decide (pk_data rx = 0) then panic "called `Option::unwrap()` on a `None` value" else
    type_bytes data ;;
    ret [mkPacket (0, 0) 0 0 0 (pk_data_length rx) (pk_address rx) 0 0 (pk_id rx) (pk_opcode rx); flush_request address]
  else panic "not yet implemented".
End font.

(** ** Text on an abstract screen *)

(** The letters by column and line, and the cursor. *)
Record Text : Type := mkText { cells : gmap (Z * Z) Z; col : Z; line : Z }.

(** The last line that fits the display, 37 lines of 16 pixels. *)
Definition LINES : Z := 37.

Definition clear_cells (y : Z) (m : gmap (Z * Z) Z) : gmap (Z * Z) Z := fold_left (fun m x => <[(x, y) := 0]> m) (seqZ 0 50) m.

(** [None] when a letter would leave the screen or an escape sequence is not known. *)
Fixpoint spec_type (data : list Z) (t : Text) : option Text :=
  match data with
  | [] => Some t
  | c :: data =>
    if decide (c = 10) then spec_type data (mkText (cells t) 0 (line t + 1))
    else if decide (c = 13) then spec_type data (mkText (cells t) 0 (line t))
    else if decide (c = 27) then
      match data with
      | 91 :: 50 :: 75 :: data => if decide (line t < LINES) then spec_type data (mkText (clear_cells (line t) (cells t)) 0 (line t)) else None
      | _ => None
      end
    else if decide (line t < LINES) then
      let m := <[(col t, line t) := c]> (cells t) in
      spec_type data (if decide (col t + 1 = 50) then mkText m 0 (line t + 1) else mkText m (col t + 1) (line t))
    else None
  end.

(** A loop that panics in one of its rounds. *)
Lemma for_each_panics {S} (I : S -> Prop) (f : Z -> M S unit) why i l2 : (forall s, I s -> f i s = Panicked why) ->
  forall l1 s, I s -> (forall j s, j ∈ l1 -> I s -> exists s', f j s = Done (tt, s') /\ I s') -> for_each (l1 ++ i :: l2) f s = Panicked why.
Proof.
  intros Hi. induction l1 as [|j l1 IH]; intros s Hs Hl; cbn [for_each app]; [unfold bind; by rewrite Hi|].
  destruct (Hl j s) as (s1 & E & H1); [set_solver|done|]. erewrite bind_done by exact E. apply IH; [done|]. set_solver.
Qed.

(** ** The pixels of a letter *)

Section letters.
Context (LETTERS : list Z) (HL : zlen LETTERS = SIZE * 256).

Definition letter_bit (c lx ly : Z) : bool :=
  let i := c * BITS + ly * WIDTH + lx in
  0 <? Z.land (default 0 (nth_z LETTERS (i / 8))) (Z.shiftl 1 (i mod 8)).

Definition color (c lx ly : Z) : RGBA8 := if letter_bit c lx ly then fg else bg.

Lemma letter_get_ok c lx ly : fits 8 c -> 0 <= lx < 9 -> 0 <= ly < 16 -> letter_get LETTERS c lx ly = Done (letter_bit c lx ly).
Proof using HL.
  intros Hc Hx Hy. unfold letter_get, letter_bit, WIDTH, HEIGHT, BITS in *. rewrite !decide_False by lia. cbv zeta.
  set (i := c * (WIDTH * HEIGHT) + ly * 9 + lx). destruct (nth_z_lt LETTERS (i / 8)) as [b Hb]; [|unfold WIDTH, HEIGHT in *; by rewrite Hb].
  rewrite HL. change (SIZE * 256) with 4608. unfold fits in Hc. assert (0 <= i < 36864) as Hi by (unfold i, WIDTH, HEIGHT; lia).
  split; [apply Z.div_pos; lia|apply Z.div_lt_upper_bound; lia].
Qed.

(** The pixel with the index [i] is in the cell. *)
Definition in_cell (cx cy i : Z) : Prop := i mod 800 / 9 = cx /\ i / 800 / 16 = cy.

(** The pixel of a letter in a cell. *)
Definition glyph (c i : Z) : RGBA8 := color c (i mod 800 mod 9) (i / 800 mod 16).

Definition index (cx cy lx ly : Z) : Z := (9 * cx + lx) + (16 * cy + ly) * 800.

Lemma index_cell cx cy lx ly : 0 <= cx < 50 -> 0 <= lx < 9 -> 0 <= ly < 16 ->
  in_cell cx cy (index cx cy lx ly) /\ index cx cy lx ly mod 800 mod 9 = lx /\ index cx cy lx ly / 800 mod 16 = ly.
Proof using Type.
  intros Hx Hlx Hly. unfold in_cell, index. set (i := 9 * cx + lx + _).
  assert (i mod 800 = 9 * cx + lx) as -> by (symmetry; apply (Z.mod_unique _ _ (16 * cy + ly)); lia).
  assert (i / 800 = 16 * cy + ly) as -> by (symmetry; apply (Z.div_unique _ _ _ (9 * cx + lx)); lia).
  split_and!; symmetry; [apply (Z.div_unique _ _ _ lx); lia|apply (Z.div_unique _ _ _ ly); lia|apply (Z.mod_unique _ _ cx); lia|apply (Z.mod_unique _ _ cy); lia].
Qed.

(** Every pixel of a cell has its place in the letter. *)
Lemma cell_index cx cy i : 0 <= i -> in_cell cx cy i -> i = index cx cy (i mod 800 mod 9) (i / 800 mod 16).
Proof using Type.
  intros Hi [<- <-]. unfold index. pose proof (Z.div_mod i 800). pose proof (Z.div_mod (i mod 800) 9). pose proof (Z.div_mod (i / 800) 16). lia.
Qed.

Definition PIXELS : Z := 480000.

Section cell.
Context (c cx cy : Z) (Hc : fits 8 c) (Hcx : 0 <= cx < 50) (Hcy : 0 <= cy < 37).

Definition full (b : list RGBA8) : Prop := zlen b = PIXELS.

(** A round only sets pixels of the letter. *)
Definition pixels_of (b b' : list RGBA8) : Prop :=
  forall i, nth_z b' i = nth_z b i \/ (in_cell cx cy i /\ nth_z b' i = Some (glyph c i)).

Lemma pixels_of_trans b1 b2 b3 : pixels_of b1 b2 -> pixels_of b2 b3 -> pixels_of b1 b3.
Proof using Type. intros H1 H2 i. destruct (H2 i) as [E|[Hi E]]; [rewrite E; apply H1|by right]. Qed.

Lemma set_pixel_cell lx ly b : full b -> 0 <= lx < 9 -> 0 <= ly < 16 ->
  exists b', set_pixel LETTERS c lx ly (cx * 9 + lx) (cy * 16 + ly) fg bg b = Done (tt, b') /\ full b' /\ pixels_of b b' /\
    nth_z b' (index cx cy lx ly) = Some (glyph c (index cx cy lx ly)).
Proof using All.
  intros Hb Hx Hy. unfold set_pixel. rewrite letter_get_ok by done. unfold obind.
  assert (wrap 64 (cx * 9 + lx + (cy * 16 + ly) * w) = index cx cy lx ly) as -> by (unfold w, index; rewrite wrap_small by (unfold fits; lia); lia).
  destruct (index_cell cx cy lx ly Hcx Hx Hy) as (Hi & E1 & E2). set (i := index cx cy lx ly) in *.
  assert (0 <= i < zlen b) as Hr by (rewrite Hb; unfold i, index, PIXELS; lia). rewrite decide_True by lia.
  fold (color c lx ly). assert (color c lx ly = glyph c i) as -> by (unfold glyph; by rewrite E1, E2).
  eexists. split; [done|]. split; [unfold full; by rewrite zlen_set_z|]. split; [|by apply nth_z_set_eq].
  intros j. destruct (decide (i = j)) as [<-|Hne]; [right; split; [done|by apply nth_z_set_eq]|left; by apply nth_z_set_ne].
Qed.

Lemma copy_cell b : full b ->
  exists b', copy LETTERS c (cx * 9) (cy * 16) fg bg b = Done (tt, b') /\ full b' /\
    forall i, 0 <= i < PIXELS -> (in_cell cx cy i -> nth_z b' i = Some (glyph c i)) /\ (~ in_cell cx cy i -> nth_z b' i = nth_z b i).
Proof using All.
  intros Hb. unfold copy. erewrite bind_done by done. rewrite Hb. rewrite decide_False by (unfold w, PIXELS; rewrite wrap_small by (unfold fits; lia); lia).
  set (J := fun ly lx b => nth_z b (index cx cy lx ly) = Some (glyph c (index cx cy lx ly))).
  assert (forall ly lx b b', J ly lx b -> pixels_of b b' -> J ly lx b') as HJ by (intros ly lx b1 b2 HJ HR; unfold J in *; destruct (HR (index cx cy lx ly)) as [->|[_ ?]]; done).
  destruct (for_each_spec full pixels_of (fun ly b => forall lx, lx ∈ seqZ 0 9 -> J ly lx b)
    (fun ly => for_each (seqZ 0 WIDTH) (fun lx => set_pixel LETTERS c lx ly (cx * 9 + lx) (cy * 16 + ly) fg bg))) with (l := seqZ 0 HEIGHT) (s := b) as (b' & E & Hb' & HR & Hall).
  - intros b1 i. by left.
  - apply pixels_of_trans.
  - intros ly b1 b2 H1 H2 lx Hlx. by eapply HJ, H2; apply H1.
  - done.
  - intros ly b1 Hly%elem_of_seqZ Hb1. apply for_each_spec; [intros b2 i; by left|apply pixels_of_trans|intros lx b2 b3 HJ2; by apply HJ|done|].
    intros lx b2 Hlx%elem_of_seqZ Hb2. change HEIGHT with 16 in Hly. change WIDTH with 9 in Hlx. apply set_pixel_cell; [done|lia|lia].
  - exists b'. split; [exact E|]. split; [done|]. intros i Hi. split.
    + intros Hin. rewrite (cell_index _ _ _ (proj1 Hi) Hin). apply Hall; apply elem_of_seqZ; [change HEIGHT with 16; pose proof (Z.mod_pos_bound (i / 800) 16); lia|].
      pose proof (Z.mod_pos_bound (i mod 800) 9). lia.
    + intros Hin. destruct (HR i) as [->|[? _]]; done.
Qed.
End cell.
(** ** The text in the buffer *)

(** The buffer has the pixels of the letters, and those of [init] elsewhere. *)
Definition shows (init : list RGBA8) (m : gmap (Z * Z) Z) (b : list RGBA8) : Prop :=
  full b /\ forall i, 0 <= i < PIXELS -> nth_z b i = match m !! (i mod 800 / 9, i / 800 / 16) with Some c => Some (glyph c i) | None => nth_z init i end.

Lemma shows_copy init m b c cx cy : fits 8 c -> 0 <= cx < 50 -> 0 <= cy < 37 -> shows init m b ->
  exists b', copy LETTERS c (cx * 9) (cy * 16) fg bg b = Done (tt, b') /\ shows init (<[(cx, cy) := c]> m) b'.
Proof using HL.
  intros Hc Hx Hy [Hb Hm]. destruct (copy_cell c cx cy Hc Hx Hy b Hb) as (b' & E & Hb' & Hi). exists b'. split; [done|]. split; [done|].
  intros i Hr. destruct (Hi i Hr) as [H1 H2]. destruct (decide ((i mod 800 / 9, i / 800 / 16) = (cx, cy))) as [Ec|Hne].
  - rewrite Ec, lookup_insert_eq. apply H1. by simplify_eq.
  - rewrite lookup_insert_ne by done. rewrite H2; [by apply Hm|]. intros [<- <-]. done.
Qed.

Lemma shows_clear init cy : 0 <= cy < 37 -> forall l m b, (forall x, x ∈ l -> 0 <= x < 50) -> shows init m b ->
  exists b', for_each l (fun x => copy LETTERS 0 (x * WIDTH) (wrap 64 (cy * HEIGHT)) fg bg) b = Done (tt, b') /\
    shows init (fold_left (fun m x => <[(x, cy) := 0]> m) l m) b'.
Proof using HL.
  intros Hy. induction l as [|x l IH]; intros m b Hl Hs; [by exists b|]. cbn [for_each fold_left].
  destruct (shows_copy init m b 0 x cy) as (b1 & E & Hs1); [done|apply Hl; set_solver|done|done|].
  unfold HEIGHT, WIDTH in *. rewrite (wrap_small 64 (cy * 16)) in * by (unfold fits; lia). erewrite bind_done by exact E. apply IH; [set_solver|done].
Qed.

(** The console and the abstract screen. *)
Record agrees (init : list RGBA8) (t : Text) (s : Console) : Prop := {
  ag_shows : shows init (cells t) (buffer s);
  ag_cursor : cursor_x s = col t /\ cursor_y s = line t;
  ag_range : 0 <= col t < 50 /\ 0 <= line t
}.

Lemma put_letter_agrees init t s c : agrees init t s -> fits 8 c -> line t < LINES ->
  let m := <[(col t, line t) := c]> (cells t) in
  exists s', put_letter LETTERS c s = Done (tt, s') /\ agrees init (if decide (col t + 1 = 50) then mkText m 0 (line t + 1) else mkText m (col t + 1) (line t)) s'.
Proof using HL.
  intros [Hs [Ex Ey] [Hx Hy]] Hc Hl m. unfold LINES in Hl. destruct (shows_copy init (cells t) (buffer s) c (col t) (line t)) as (b & E & Hb); [done|done|lia|done|].
  unfold put_letter. erewrite bind_done by done. rewrite Ex, Ey. unfold WIDTH, HEIGHT, cursor_w. rewrite !(wrap_small 64 (_ * _)) by (unfold fits; lia).
  erewrite bind_done by (unfold on_buffer; by rewrite E). rewrite (wrap_small 64 (line t + 1)) by (unfold fits; lia). rewrite Ex, Ey.
  destruct (decide (col t + 1 = 50)) as [He|Hne]; [rewrite decide_True by lia|rewrite decide_False by lia]; eexists; (split; [done|]); split; cbn; try done; lia.
Qed.

Lemma clear_line_agrees init t s : agrees init t s -> line t < LINES ->
  exists s', clear_line LETTERS s = Done (tt, s') /\ agrees init (mkText (clear_cells (line t) (cells t)) 0 (line t)) s'.
Proof using HL.
  intros [Hs [Ex Ey] [Hx Hy]] Hl. unfold LINES in Hl. unfold clear_line. erewrite bind_done by done. rewrite Ey.
  destruct (shows_clear init (line t) ltac:(lia) (seqZ 0 cursor_w) (cells t) (buffer s)) as (b & E & Hb); [intros x Hx'%elem_of_seqZ; unfold cursor_w in Hx'; lia|done|].
  erewrite bind_done by (unfold on_buffer; by rewrite E). eexists. split; [done|]. split; cbn; try done; lia.
Qed.

(** Typing follows the abstract screen. *)
Lemma type_bytes_agrees init n : forall data t t' s, (length data <= n)%nat -> Forall (fits 8) data -> agrees init t s -> line t + zlen data < 2 ^ 64 ->
  spec_type data t = Some t' -> exists s', type_bytes LETTERS data s = Done (tt, s') /\ agrees init t' s'.
Proof using HL.
  induction n as [|n IH]; intros data t t' s Hn Hd Ha Hl Hspec; (destruct data as [|c data]; [cbn in Hspec; simplify_eq; by exists s|cbn in Hn; try lia]).
  apply Forall_cons in Hd as [Hc Hd]. rewrite zlen_cons in Hl. pose proof (zlen_nonneg data). cbn [type_bytes spec_type] in *.
  pose proof Ha as [Hs [Ex Ey] [Hx Hy]].
  case_decide; [|case_decide; [|case_decide; [|case_decide; [|done]]]].
  - erewrite bind_done by done. rewrite Ey, wrap_small by (unfold fits; lia). refine (IH data _ t' _ _ Hd _ _ Hspec); [lia|split; cbn; try done; lia|cbn; lia].
  - erewrite bind_done by done. rewrite Ey. refine (IH data _ t' _ _ Hd _ _ Hspec); [lia|split; cbn; try done; lia|cbn; lia].
  - destruct data as [|d [|e [|f data]]]; try (by repeat case_match).
    assert (d = 91 /\ e = 50 /\ f = 75) as (-> & -> & ->) by (repeat case_match; done). cbn in Hspec. rewrite !decide_False by (intros Hne; by apply Hne).
    case_decide; [|done]. destruct (clear_line_agrees init t s Ha) as (s1 & E1 & Ha1); [done|]. erewrite bind_done by exact E1. rewrite !zlen_cons in *.
    apply Forall_cons in Hd as [_ Hd]. apply Forall_cons in Hd as [_ Hd]. apply Forall_cons in Hd as [_ Hd]. cbn in Hn.
    refine (IH data _ t' _ _ Hd Ha1 _ Hspec); [lia|]. cbn. pose proof (zlen_nonneg data). lia.
  - destruct (put_letter_agrees init t s c Ha Hc) as (s1 & E1 & Ha1); [done|]. erewrite bind_done by exact E1. refine (IH data _ t' _ _ Hd Ha1 _ Hspec); [lia|].
    case_decide; cbn; lia.
Qed.
(** ** The 38th line *)

(** The first eight rows of pixels of a letter in the 38th line fit, the ninth does not: the console panics
    instead of scrolling. *)
Theorem line_38_panics c s : fits 8 c -> full (buffer s) -> 0 <= cursor_x s < 50 -> cursor_y s = 37 ->
  put_letter LETTERS c s = Panicked "index out of bounds".
Proof using HL.
  intros Hc Hb Hx Hy. unfold put_letter. erewrite bind_done by done. rewrite Hy. unfold WIDTH, HEIGHT. rewrite !wrap_small by (unfold fits; lia).
  assert (copy LETTERS c (cursor_x s * 9) (37 * 16) fg bg (buffer s) = Panicked "index out of bounds") as E; [|unfold bind, on_buffer; by rewrite E].
  unfold copy. erewrite bind_done by done. rewrite Hb. rewrite decide_False by (unfold w, PIXELS; rewrite wrap_small by (unfold fits; lia); lia).
  change (seqZ 0 HEIGHT) with (seqZ 0 8 ++ 8 :: seqZ 9 7). apply (for_each_panics full); [|done|].
  - intros b Hb'. change (seqZ 0 WIDTH) with (0 :: seqZ 1 8). cbn [for_each]. unfold bind, set_pixel. rewrite letter_get_ok by (done || lia). unfold obind.
    rewrite wrap_small by (unfold fits, w; lia). by rewrite decide_False by (rewrite Hb'; unfold w, PIXELS; lia).
  - intros ly b Hly%elem_of_seqZ Hb'. destruct (for_each_spec full (fun _ _ => True) (fun _ _ => True)
      (fun lx => set_pixel LETTERS c lx ly (cursor_x s * 9 + lx) (37 * 16 + ly) fg bg)) with (l := seqZ 0 WIDTH) (s := b) as (b' & E & Hf & _); [done..| |by exists b'].
    intros lx b1 Hlx%elem_of_seqZ Hb1. change WIDTH with 9 in Hlx. unfold set_pixel. rewrite letter_get_ok by (done || lia). unfold obind.
    rewrite wrap_small by (unfold fits, w; lia). rewrite decide_True by (rewrite Hb1; unfold w, PIXELS; lia). eexists. split; [done|]. split; [|done].
    unfold full. by rewrite zlen_set_z.
Qed.
End letters.

(** ** Text on the screen *)

Definition RGBA8_bytes (p : RGBA8) : list Z := [red p; green p; blue p; alpha p].
Definition pixel_bytes (b : list RGBA8) : list Z := concat (RGBA8_bytes <$> b).

Lemma zlen_pixel_bytes b : zlen (pixel_bytes b) = 4 * zlen b.
Proof. induction b as [|p b IH]; [done|]. unfold pixel_bytes in *. cbn [fmap list_fmap concat]. rewrite zlen_app, IH, zlen_cons. change (zlen (RGBA8_bytes p)) with 4. lia. Qed.

Lemma nth_pixel_bytes b : forall i p k, nth_z b i = Some p -> 0 <= k < 4 -> nth_z (pixel_bytes b) (4 * i + k) = nth_z (RGBA8_bytes p) k.
Proof.
  induction b as [|q b IH]; intros i p k Hi Hk; [by destruct i|]. pose proof (nth_z_Some _ _ _ Hi) as Hr. unfold pixel_bytes in *. cbn [fmap list_fmap concat].
  destruct (decide (i = 0)) as [->|Hne].
  - cbn in Hi. injection Hi as ->. rewrite Z.mul_0_r, Z.add_0_l. apply nth_z_app_l. change (zlen (RGBA8_bytes p)) with 4. lia.
  - rewrite nth_z_app_r by (change (zlen (RGBA8_bytes q)) with 4; lia). change (zlen (RGBA8_bytes q)) with 4.
    replace (4 * i + k - 4) with (4 * (i - 1) + k) by lia. apply IH; [|done]. rewrite <-Hi. change (q :: b) with ([q] ++ b). rewrite nth_z_app_r by (change (zlen [q]) with 1; lia). done.
Qed.

(** The console gets the display buffer from the GPU driver. *)
Lemma console_gets_buffer serve mem_physical_address local answer waits owned s m from id :
  VirtioGpu serve -> locals_ok mem_physical_address local answer waits owned -> buffers_ok mem_physical_address owned -> serving mem_physical_address s ->
  exists r, GpuDriver.handle serve mem_physical_address local answer waits 1 2 (mkPacket (0, 0) 0 0 0 0 from 0 0 id (pk_opcode (open_request from))) (with_memory m s) =
      Done (Some r, with_memory m s) /\
    take_buffer from r = Done (addr, PIXELS).
Proof.
  intros Hg Hl Hb Hs. destruct (flush_shows_buffers serve mem_physical_address local answer waits owned m s
    (mkPacket (0, 0) 0 0 0 0 from 0 0 id OP_OPEN) Hl Hb Hs) as [_ H]. destruct H as (r & E & Ha & _ & Hd); [done|by left|].
  exists r. split; [exact E|]. unfold take_buffer. cbn in Hd, Ha. injection Hd as E1 E2. rewrite Ha, decide_False by tauto. rewrite E1, E2. rewrite decide_False by done. reflexivity.
Qed.

(** C38: text that a program writes to the console is on the screen.  The console draws it as on the abstract
    screen, answers the program and asks the GPU driver to flush; when that driver has the pixels of the
    console in its buffer, which is the same memory, the screen of the device has, for every letter in
    every cell, exactly the pixels of its bitmap. *)
Theorem text_on_screen LETTERS init t t' s (rx : Packet) (data : list Z) (address : Z) :
  zlen LETTERS = SIZE * 256 -> agrees LETTERS init t s -> Forall (fits 8) data -> line t + zlen data < 2 ^ 64 -> spec_type data t = Some t' ->
  pk_opcode rx = op_code Write -> pk_data rx <> 0 ->
  exists s' reply, handle LETTERS address rx data s = Done ([reply; flush_request address], s') /\ agrees LETTERS init t' s' /\ pk_address reply = pk_address rx /\
    forall serve, VirtioGpu serve -> forall mem_physical_address local answer waits owned m g (rx2 : Packet),
    locals_ok mem_physical_address local answer waits owned -> buffers_ok mem_physical_address owned -> serving mem_physical_address g ->
    va_bytes mem_physical_address m addr (4 * PIXELS) = pixel_bytes (buffer s') -> pk_opcode rx2 = pk_opcode (flush_request address) ->
    exists g', GpuDriver.handle serve mem_physical_address local answer waits 1 2 rx2 (with_memory m g) = Done (None, g') /\ serving mem_physical_address g' /\
      forall cx cy c lx ly k, cells t' !! (cx, cy) = Some c -> 0 <= cx < 50 -> 0 <= cy < 37 -> 0 <= lx < 9 -> 0 <= ly < 16 -> 0 <= k < 4 ->
        nth_z (screen (gpu g')) (4 * ((9 * cx + lx) + (16 * cy + ly) * 800) + k) = nth_z (RGBA8_bytes (if letter_bit LETTERS c lx ly then fg else bg)) k.
Proof.
  intros HL Ha Hd Hl Hspec Hop Hdata. destruct (type_bytes_agrees LETTERS HL init (length data) data t t' s) as (s' & E & Ha'); [done..|].
  unfold handle. rewrite decide_True by done. rewrite decide_False by done. erewrite bind_done by exact E. eexists s', _. split; [done|]. split; [done|]. split; [done|].
  intros serve Hg mpa local answer waits owned m g rx2 Hlo Hb Hsv Hva Hop2.
  destruct (flush_shows_buffers serve mpa local answer waits owned m g rx2 Hlo Hb Hsv) as [H _]. destruct (H Hop2) as (g' & Eg & Hg' & Hscr & _).
  exists g'. split; [exact Eg|]. split; [exact Hg'|]. intros cx cy c lx ly k Hc Hcx Hcy Hlx Hly Hk.
  change (4 * (width * height)) with (4 * PIXELS) in Hscr. rewrite Hscr, Hva. fold (index cx cy lx ly). fold (color LETTERS c lx ly).
  destruct (index_cell cx cy lx ly Hcx Hlx Hly) as ([E1 E2] & E3 & E4). apply nth_pixel_bytes; [|done].
  destruct (ag_shows _ _ _ _ Ha') as [_ Hs]. rewrite Hs by (unfold index, PIXELS; lia). rewrite E1, E2, Hc. unfold glyph. by rewrite E3, E4.
Qed.

(** ** An example *)

(** A font of full blocks, and a display that is black. *)
Definition blocks : list Z := replicate (Z.to_nat (SIZE * 256)) 255.
Definition black : list RGBA8 := replicate (Z.to_nat PIXELS) bg.

Lemma black_agrees : agrees blocks black (mkText ∅ 0 0) (mkConsole black 0 0).
Proof.
  split; [split|split; reflexivity|cbn; lia].
  - cbn [buffer]. unfold full, black, zlen. rewrite length_replicate, Z2Nat.id; unfold PIXELS; lia.
  - intros i Hi. cbn [cells buffer]. by rewrite lookup_empty.
Qed.

Lemma same_va_bytes m a n : va_bytes same_addresses m a n = peek m a n.
Proof. unfold va_bytes, peek. apply list_fmap_ext. intros j i _. by rewrite same_pa. Qed.

Lemma text_on_screen_witness :
  exists s' reply g', handle blocks 3 (mkPacket (0, 0) 4096 0 0 2 9 0 0 0 2) [72; 10] (mkConsole black 0 0) = Done ([reply; flush_request 3], s') /\
    cursor_y s' = 1 /\
    GpuDriver.handle a_gpu same_addresses (fun _ => 0x10000) (fun _ => 0x20000) (fun _ => soon) 1 2 (flush_request 3)
      (with_memory (put addr (pixel_bytes (buffer s')) ∅) showing) = Done (None, g') /\
    nth_z (screen (gpu g')) 0 = Some 255.
Proof.
  destruct (text_on_screen blocks black (mkText ∅ 0 0) (mkText {[(0, 0) := 72]} 0 1) (mkConsole black 0 0) (mkPacket (0, 0) 4096 0 0 2 9 0 0 0 2) [72; 10] 3)
    as (s' & reply & E & Ha & _ & H).
  - unfold blocks, zlen. rewrite length_replicate, Z2Nat.id; [reflexivity|done].
  - exact black_agrees.
  - repeat apply Forall_cons_2; [unfold fits; lia..|apply Forall_nil_2].
  - reflexivity.
  - reflexivity.
  - reflexivity.
  - cbn. lia.
  - destruct (H a_gpu _ same_addresses (fun _ => 0x10000) (fun _ => 0x20000) (fun _ => soon) low (put addr (pixel_bytes (buffer s')) ∅) showing (flush_request 3)
      same_locals same_buffers showing_serves) as (g' & Eg & _ & Hg).
    + rewrite same_va_bytes. destruct (ag_shows _ _ _ _ Ha) as [Hf _]. unfold full in Hf. rewrite <-Hf, <-zlen_pixel_bytes. apply peek_put.
    + reflexivity.
    + exists s', reply, g'. split; [exact E|]. split; [exact (proj2 (ag_cursor _ _ _ _ Ha))|]. split; [exact Eg|].
      refine (eq_trans (Hg 0 0 72 0 0 0 _ _ _ _ _ _) _); (lia || reflexivity).
Defined.
