(* ===== verification/ScanCodes.v ===== *)
(** * Scan codes of keyboards

    src/services/driver/virtio_input/src/scancode.rs: a table from a key code and modifiers to a key,
    read from a text file, sorted, and searched by bisection; and the file the driver is built with,
    src/services/driver/virtio_input/scancode_sets/evdev.kbd.

    Text is a list of characters.

    The theorems: in a table without two lines for the same code and modifiers a search finds exactly
    what the line says; the default file is such a table; it has no line for the release of the right
    shift key while a shift key is held. *)

From stdpp Require Import sorting.
From S2P Require Import Prelude Bytes DuxMem DriverArgs.

(** ** Keys *)

Inductive Key : Type :=
| Char (c : Z)
| LShift | RShift | LCtrl | RCtrl | LSuper | RSuper
| ArrowDown | ArrowUp | ArrowLeft | ArrowRight
| F (n : Z)
| Tab | Enter | Capslock | Escape | Backspace | Alt | AltGr | Space | Pause.

#[export] Instance Key_eq_dec : EqDecision Key.
Proof. solve_decision. Defined.

(** The derived order: the variant, then what it carries. *)
Definition key_rank (k : Key) : Z * Z :=
  match k with
  | Char c => (0, c)
  | LShift => (1, 0) | RShift => (2, 0) | LCtrl => (3, 0) | RCtrl => (4, 0) | LSuper => (5, 0) | RSuper => (6, 0)
  | ArrowDown => (7, 0) | ArrowUp => (8, 0) | ArrowLeft => (9, 0) | ArrowRight => (10, 0)
  | F n => (11, n)
  | Tab => (12, 0) | Enter => (13, 0) | Capslock => (14, 0) | Escape => (15, 0) | Backspace => (16, 0) | Alt => (17, 0)
  | AltGr => (18, 0) | Space => (19, 0) | Pause => (20, 0)
  end.

Definition names : list (list Z * Key) :=
  [(str "alt", Alt); (str "altgr", AltGr); (str "arrowd", ArrowDown); (str "arrowl", ArrowLeft); (str "arrowr", ArrowRight);
   (str "arrowu", ArrowUp); (str "backspace", Backspace); (str "capslock", Capslock); (str "enter", Enter); (str "escape", Escape);
   (str "pause", Pause); (str "lsuper", LSuper); (str "rsuper", RSuper); (str "lctrl", LCtrl); (str "rctrl", RCtrl);
   (str "lshift", LShift); (str "rshift", RShift); (str "space", Space); (str "tab", Tab)].

(** [u8::from_str_radix] *)
Fixpoint u8_digits (radix : Z) (l : list Z) (acc : Z) : result Z IntErrorKind :=
  match l with
  | [] => Ok acc
  | c :: l =>
    match to_digit c with
    | Some x =>
      if decide (x < radix) then
        if decide (acc * radix + x < 256) then u8_digits radix l (acc * radix + x) else Err PosOverflow
      else Err InvalidDigit
    | None => Err InvalidDigit
    end
  end.

Definition u8_from_str_radix (radix : Z) (l : list Z) : result Z IntErrorKind :=
  match l with
  | [] => Err Empty
  | c :: l' =>
    if decide (c = 43) then (if decide (l' = []) then Err InvalidDigit else u8_digits radix l' 0)
    else u8_digits radix l 0
  end.

Definition from_name (name : list Z) : outcome Key :=
  match list_find (fun x => x.1 = name) names with
  | Some (_, (_, k)) => Done k
  | None =>
    match name with
    | [c] => Done (Char c)
    | 102 :: digits =>
      match u8_from_str_radix 10 digits with
      | Ok n => Done (F n)
      | Err _ => Panicked "called `Result::unwrap()` on an `Err` value"
      end
    | _ => Panicked "not yet implemented"
    end
  end.

(** ** Modifiers *)

Definition CAPS : Z := 0x1.

Fixpoint from_strs (strs : list (list Z)) (n : Z) : outcome Z :=
  match strs with
  | [] => Done n
  | s :: strs => if decide (s = str "caps") then from_strs strs (Z.lor n CAPS) else Panicked "not yet implemented"
  end.

Definition set_caps (n : Z) (enable : bool) : Z := Z.lor (Z.ldiff n CAPS) (CAPS * bool_to_Z enable).

(** ** Text *)

(** The pieces between characters that satisfy [p]. *)
Fixpoint split_on (p : Z -> bool) (l : list Z) : list (list Z) :=
  match l with
  | [] => [[]]
  | c :: l =>
    if p c then [] :: split_on p l
    else match split_on p l with
         | w :: ws => (c :: w) :: ws
         | [] => [[c]]
         end
  end.

(** [str::lines]: a line feed ends a line, with a carriage return before it. *)
Definition strip_cr (l : list Z) : list Z :=
  match reverse l with 13 :: r => reverse r | _ => l end.

Definition lines (file : list Z) : list (list Z) :=
  let ls := split_on (Z.eqb 10) file in
  strip_cr <$> (if decide (last ls = Some []) then take (length ls - 1) ls else ls).

Definition is_ascii_whitespace (c : Z) : bool := bool_decide (c ∈ [9; 10; 12; 13; 32]).

Definition nonempty (l : list Z) : Prop := l <> [].
#[export] Instance nonempty_dec l : Decision (nonempty l).
Proof. unfold nonempty. apply _. Defined.

(** [rsplit] and [filter]: the words of a line, the last one first. *)
Definition rwords (line : list Z) : list (list Z) := filter nonempty (reverse (split_on is_ascii_whitespace line)).

(** Lines that are not empty and no comment. *)
Definition relevant (l : list Z) : Prop := l <> [] /\ head l <> Some 35.
#[export] Instance relevant_dec l : Decision (relevant l).
Proof. unfold relevant. apply _. Defined.

(** ** The table *)

Record Entry : Type := mkEntry { e_mods : Z; e_code : Z; e_key : Key }.

#[export] Instance Entry_eq_dec : EqDecision Entry.
Proof. solve_decision. Defined.

Definition parse_line (line : list Z) : outcome Entry :=
  match rwords line with
  | [] => Panicked "no name"
  | [_] => Panicked "no code"
  | name :: code :: mods =>
    match u8_from_str_radix 16 code with
    | Err _ => Panicked "invalid code"
    | Ok code =>
      if decide (code = 0) then Panicked "invalid code" else
      let! mods := from_strs mods 0 in
      let! key := from_name name in
      Done (mkEntry mods code key)
    end
  end.

Fixpoint parse_lines (ls : list (list Z)) : outcome (list Entry) :=
  match ls with
  | [] => Done []
  | l :: ls => let! e := parse_line l in let! es := parse_lines ls in Done (e :: es)
  end.

(** Modifiers and code, both bytes, are compared as one number of two bytes. *)
Definition search_key (e : Entry) : Z := 256 * e_mods e + e_code e.

(** The derived order of entries. *)
Definition entry_le (a b : Entry) : Prop :=
  search_key a < search_key b \/ search_key a = search_key b /\
    ((key_rank (e_key a)).1 < (key_rank (e_key b)).1 \/
     (key_rank (e_key a)).1 = (key_rank (e_key b)).1 /\ (key_rank (e_key a)).2 <= (key_rank (e_key b)).2).

#[export] Instance entry_le_dec : RelDecision entry_le.
Proof. intros a b. unfold entry_le. apply _. Defined.

(** [assert_ne!(e, last, ...)] for each entry after the first. *)
Fixpoint no_repeat (last : Entry) (l : list Entry) : bool :=
  match l with
  | [] => true
  | e :: l => bool_decide (e <> last) && no_repeat e l
  end.

(** [ScanCodes::from_file]: the used part of the list.  The list has 256 places; further lines are not
    read. *)
Definition from_file (file : list Z) : outcome (list Entry) :=
  let! es := parse_lines (take 256 (filter relevant (lines file))) in
  let sorted := merge_sort entry_le es in
  match sorted with
  | [] => Done []
  | e :: l => if no_repeat e l then Done sorted else Panicked "duplicate entry"
  end.

(** [ScanCodes::get] *)
Definition scan_get (codes : list Entry) (modifiers code : Z) : outcome (option Key) :=
  match binary_search_by (length codes) (fun e => Z.compare (search_key e) (256 * modifiers + code)) codes 0 (zlen codes) with
  | None => OutOfFuel
  | Some (Err _) => Done None
  | Some (Ok i) =>
    match nth_z codes i with
    | Some e => Done (Some (e_key e))
    | None => Panicked "index out of bounds"
    end
  end.

(** ** The default file *)

Definition evdev : list Z := concat [
  str "#	modifiers	scancode	char/action" ++ [10];
  str "				01			escape" ++ [10];
  str "				02			&" ++ [10];
  str "				03			" ++ [233] ++ [10];
  str "				04			" ++ [34] ++ [10];
  str "				05			'" ++ [10];
  str "				06			(" ++ [10];
  str "				07			" ++ [167] ++ [10];
  str "				08			" ++ [232] ++ [10];
  str "				09			!" ++ [10];
  str "				0a			" ++ [231] ++ [10];
  str "				0b			" ++ [224] ++ [10];
  str "				0c			)" ++ [10];
  str "				0d			-" ++ [10];
  str "				0e			backspace" ++ [10];
  str "				0f			tab" ++ [10];
  str "				10			a" ++ [10];
  str "				11			z" ++ [10];
  str "				12			e" ++ [10];
  str "				13			r" ++ [10];
  str "				14			t" ++ [10];
  str "				15			y" ++ [10];
  str "				16			u" ++ [10];
  str "				17			i" ++ [10];
  str "				18			o" ++ [10];
  str "				19			p" ++ [10];
  str "				1a			^" ++ [10];
  str "				1b			$" ++ [10];
  str "				1c			enter" ++ [10];
  str "				1d			lctrl" ++ [10];
  str "				1e			q" ++ [10];
  str "				1f			s" ++ [10];
  str "				20			d" ++ [10];
  str "				21			f" ++ [10];
  str "				22			g" ++ [10];
  str "				23			h" ++ [10];
  str "				24			j" ++ [10];
  str "				25			k" ++ [10];
  str "				26			l" ++ [10];
  str "				27			m" ++ [10];
  str "				28			" ++ [249] ++ [10];
  str "				2a			lshift" ++ [10];
  str "				2b			" ++ [181] ++ [10];
  str "				2c			w" ++ [10];
  str "				2d			x" ++ [10];
  str "				2e			c" ++ [10];
  str "				2f			v" ++ [10];
  str "				30			b" ++ [10];
  str "				31			n" ++ [10];
  str "				32			," ++ [10];
  str "				33			;" ++ [10];
  str "				34			:" ++ [10];
  str "				35			=" ++ [10];
  str "				36			rshift" ++ [10];
  [10];
  str "				38			alt" ++ [10];
  str "				39			space" ++ [10];
  [10];
  [10];
  [10];
  str "				3b			f1" ++ [10];
  str "				3c			f2" ++ [10];
  str "				3d			f3" ++ [10];
  str "				3e			f4" ++ [10];
  str "				3f			f5" ++ [10];
  str "				40			f6" ++ [10];
  str "				41			f7" ++ [10];
  str "				42			f8" ++ [10];
  str "				43			f9" ++ [10];
  str "				44			f10" ++ [10];
  [10];
  str "				57			f11" ++ [10];
  str "				58			f12" ++ [10];
  [10];
  str "				61			rctrl" ++ [10];
  [10];
  str "				64			altgr" ++ [10];
  [10];
  str "				67			arrowu" ++ [10];
  [10];
  str "				69			arrowl" ++ [10];
  [10];
  str "				6a			arrowr" ++ [10];
  [10];
  str "				6c			arrowd" ++ [10];
  [10];
  str "				77			pause" ++ [10];
  [10];
  str "				7d			lsuper" ++ [10];
  str "				7f			rsuper" ++ [10];
  [10];
  str "	caps		02			1" ++ [10];
  str "	caps		03			2" ++ [10];
  str "	caps		04			3" ++ [10];
  str "	caps		05			4" ++ [10];
  str "	caps		06			5" ++ [10];
  str "	caps		07			6" ++ [10];
  str "	caps		08			7" ++ [10];
  str "	caps		09			8" ++ [10];
  str "	caps		0a			9" ++ [10];
  str "	caps		0b			0" ++ [10];
  str "	caps		0c			" ++ [176] ++ [10];
  str "	caps		0d			_" ++ [10];
  str "	caps		10			A" ++ [10];
  str "	caps		11			Z" ++ [10];
  str "	caps		12			E" ++ [10];
  str "	caps		13			R" ++ [10];
  str "	caps		14			T" ++ [10];
  str "	caps		15			Y" ++ [10];
  str "	caps		16			U" ++ [10];
  str "	caps		17			I" ++ [10];
  str "	caps		18			O" ++ [10];
  str "	caps		19			P" ++ [10];
  str "	caps		1a			" ++ [168] ++ [10];
  str "	caps		1b			*" ++ [10];
  str "	caps		1e			Q" ++ [10];
  str "	caps		1f			S" ++ [10];
  str "	caps		20			D" ++ [10];
  str "	caps		21			F" ++ [10];
  str "	caps		22			G" ++ [10];
  str "	caps		23			H" ++ [10];
  str "	caps		24			J" ++ [10];
  str "	caps		25			K" ++ [10];
  str "	caps		26			L" ++ [10];
  str "	caps		27			M" ++ [10];
  str "	caps		28			%" ++ [10];
  str "	caps		2a			lshift" ++ [10];
  str "	caps		2b			" ++ [163] ++ [10];
  str "	caps		2c			W" ++ [10];
  str "	caps		2d			X" ++ [10];
  str "	caps		2e			C" ++ [10];
  str "	caps		2f			V" ++ [10];
  str "	caps		30			B" ++ [10];
  str "	caps		31			N" ++ [10];
  str "	caps		32			?" ++ [10];
  str "	caps		33			." ++ [10];
  str "	caps		34			/" ++ [10];
  str "	caps		35			+" ++ [10]
].

Definition default_codes : outcome (list Entry) := from_file evdev.

(** ** Lookup *)

#[export] Instance entry_le_trans : Transitive entry_le.
Proof. intros a b c. unfold entry_le. lia. Qed.

#[export] Instance entry_le_total : Total entry_le.
Proof. intros a b. unfold entry_le. lia. Qed.

Lemma to_digit_bound c x : to_digit c = Some x -> 0 <= x.
Proof. unfold to_digit. repeat case_decide; intros [= <-]; lia. Qed.

Lemma u8_digits_bound radix l : forall acc n, 0 <= radix -> 0 <= acc < 256 -> u8_digits radix l acc = Ok n -> 0 <= n < 256.
Proof.
  induction l as [|c l IH]; intros acc n Hr Ha; cbn [u8_digits]; [by intros [= <-]|].
  destruct (to_digit c) as [x|] eqn:E; [|done]. apply to_digit_bound in E. repeat case_decide; try done. apply IH; nia.
Qed.

Lemma u8_from_str_radix_bound radix l n : 0 <= radix -> u8_from_str_radix radix l = Ok n -> 0 <= n < 256.
Proof.
  intros Hr. unfold u8_from_str_radix. destruct l as [|c l]; [done|]. repeat case_decide; try done; by apply u8_digits_bound.
Qed.

Lemma parse_line_code l e : parse_line l = Done e -> 0 <= e_code e < 256.
Proof.
  unfold parse_line. destruct (rwords l) as [|name [|code mods]]; [done..|]. destruct (u8_from_str_radix 16 code) as [c|] eqn:E; [|done].
  case_decide; [done|]. destruct (from_strs mods 0); [|done..]. destruct (from_name name); [|done..]. cbn. intros [= <-]. cbn.
  by apply u8_from_str_radix_bound in E.
Qed.

Lemma parse_lines_codes ls : forall es, parse_lines ls = Done es -> Forall (fun e => 0 <= e_code e < 256) es.
Proof.
  induction ls as [|l ls IH]; intros es; cbn [parse_lines]; [by intros [= <-]|].
  destruct (parse_line l) as [e| |] eqn:E; [|done..]. cbn [obind]. destruct (parse_lines ls) as [es'| |]; [|done..]. cbn [obind].
  intros [= <-]. constructor; [by eapply parse_line_code|by apply IH].
Qed.

(** A search ends, sorted or not. *)
Lemma search_ends {T} (f : T -> comparison) (l : list T) : forall fuel left right,
  0 <= left <= right -> right <= zlen l -> (Z.to_nat (right - left) <= fuel)%nat ->
  exists r, binary_search_by fuel f l left right = Some r /\ match r with Ok i => is_Some (nth_z l i) | Err _ => True end.
Proof.
  induction fuel as [|fuel IH]; intros left right Hlr Hr Hf; cbn [binary_search_by]; (case_decide as Hlt; [try lia|by eexists]).
  assert (left <= left + (right - left) / 2 < right) as Hmid.
  { pose proof (Z.div_pos (right - left) 2). pose proof (Z.div_lt (right - left) 2). lia. }
  set (mid := left + (right - left) / 2) in *. clearbody mid. destruct (nth_z_lt l mid ltac:(lia)) as [x Ex]. rewrite Ex.
  destruct (f x); [exists (Ok mid); by rewrite Ex|apply IH; lia..].
Qed.

Lemma scan_get_done codes m c : exists k, scan_get codes m c = Done k.
Proof.
  unfold scan_get. destruct (search_ends (fun e => Z.compare (search_key e) (256 * m + c)) codes (length codes) 0 (zlen codes)) as (r & -> & Hr);
    [unfold zlen; lia..|]. destruct r as [i|i]; [|by eexists]. destruct Hr as [e ->]. by eexists.
Qed.

(** Sorted by the whole entry and without equal keys, the keys go up. *)
Lemma sorted_keys l : StronglySorted entry_le l -> NoDup (search_key <$> l) ->
  forall i j x y, nth_z l i = Some x -> nth_z l j = Some y -> i < j -> search_key x < search_key y.
Proof.
  induction 1 as [|e l Hs IH Hle]; intros Hn i j x y Hx Hy Hij; [by apply nth_z_Some in Hx; unfold zlen in Hx; cbn in Hx; lia|].
  rewrite fmap_cons in Hn. apply NoDup_cons in Hn as [He Hn]. pose proof (nth_z_Some _ _ _ Hx) as [Hi _].
  replace j with (1 + (j - 1)) in Hy by lia. rewrite nth_z_cons in Hy by lia. destruct (decide (i = 0)) as [->|Hne].
  - injection Hx as ->. apply nth_z_elem in Hy. rewrite Forall_forall in Hle. specialize (Hle y Hy).
    assert (search_key x <> search_key y) by (intros E; apply He; rewrite E; by apply list_elem_of_fmap_2). unfold entry_le in Hle. lia.
  - replace i with (1 + (i - 1)) in Hx by lia. rewrite nth_z_cons in Hx by lia. apply (IH Hn (i - 1) (j - 1)); [done..|lia].
Qed.

Lemma no_repeat_nodup l : forall e, NoDup (e :: l) -> no_repeat e l = true.
Proof.
  induction l as [|x l IH]; intros e Hn; [done|]. apply NoDup_cons in Hn as [He Hn]. cbn [no_repeat]. rewrite IH by done.
  rewrite bool_decide_eq_true_2; [done|]. intros ->. apply He. by left.
Qed.

(** The table gives back what its file says.  When no two lines have the same code and the same
    modifiers, the table is accepted, a search for the code and modifiers of a line finds the key of the
    line, and any other search finds nothing. *)
Theorem scan_codes_lookup (file : list Z) (es : list Entry) :
  parse_lines (take 256 (filter relevant (lines file))) = Done es -> NoDup (search_key <$> es) ->
  exists codes, from_file file = Done codes /\
    (forall e, e ∈ es -> scan_get codes (e_mods e) (e_code e) = Done (Some (e_key e))) /\
    (forall mods code, 0 <= code < 256 -> (forall e, e ∈ es -> (e_mods e, e_code e) <> (mods, code)) -> scan_get codes mods code = Done None).
Proof.
  intros Hp Hn. pose proof (parse_lines_codes _ _ Hp) as Hc. set (codes := merge_sort entry_le es).
  assert (codes ≡ₚ es) as Hperm by apply merge_sort_Permutation.
  assert (NoDup (search_key <$> codes)) as Hn' by by rewrite Hperm.
  pose proof (sorted_keys codes (StronglySorted_merge_sort entry_le es) Hn') as Hs.
  assert (forall m c, exists r, binary_search_by (length codes) (fun e => Z.compare (search_key e) (256 * m + c)) codes 0 (zlen codes) = Some r /\
    match r with Ok i => exists x, nth_z codes i = Some x /\ search_key x = 256 * m + c
    | Err _ => forall i x, nth_z codes i = Some x -> search_key x <> 256 * m + c end) as Hb.
  { intros m c. apply (binary_search_by_spec search_key codes (256 * m + c) Hs); unfold zlen; try lia.
    - intros i x Hx Hi. apply nth_z_Some in Hx. lia.
    - intros i x Hx Hi. apply nth_z_Some in Hx. unfold zlen in Hx. lia. }
  assert (forall x y, x ∈ codes -> y ∈ codes -> search_key x = search_key y -> x = y) as Hinj.
  { intros x y [i Hx]%list_elem_of_lookup [j Hy]%list_elem_of_lookup E. assert (i = j) as ->; [|congruence].
    eapply (NoDup_lookup _ i j (search_key x)); [exact Hn'|by rewrite list_lookup_fmap, Hx|by rewrite list_lookup_fmap, Hy, E]. }
  rewrite Forall_forall in Hc. exists codes. split_and!.
  - unfold from_file. rewrite Hp. cbn [obind]. fold codes. apply NoDup_fmap_1 in Hn'. destruct codes as [|e l]; [done|]. by rewrite no_repeat_nodup.
  - intros e He. rewrite <-Hperm in He. unfold scan_get. destruct (Hb (e_mods e) (e_code e)) as ([i|i] & -> & Hr).
    + destruct Hr as (x & Hx & Ex). rewrite Hx. rewrite (Hinj x e (nth_z_elem _ _ _ Hx) He Ex). done.
    + exfalso. apply list_elem_of_lookup in He as [i' Hi]. apply (Hr (Z.of_nat i') e); [|done]. unfold nth_z. by rewrite decide_True, Nat2Z.id by lia.
  - intros m c Hcb Hno. unfold scan_get. destruct (Hb m c) as ([i|i] & -> & Hr); [|done]. destruct Hr as (x & Hx & Ex). exfalso.
    apply nth_z_elem in Hx. rewrite Hperm in Hx. specialize (Hc x Hx). apply (Hno x Hx). unfold search_key in Ex. f_equal; lia.
Qed.

(** The default file. *)
Lemma scan_codes_lookup_witness :
  exists codes, from_file evdev = Done codes /\ scan_get codes 0 0x10 = Done (Some (Char 97)) /\ scan_get codes 1 0x1c = Done None.
Proof.
  destruct (parse_lines (take 256 (filter relevant (lines evdev)))) as [es| |] eqn:E; [|by vm_compute in E..].
  destruct (scan_codes_lookup evdev es) as (codes & Ef & Hf & Hn).
  - exact E.
  - vm_compute in E. injection E as <-. apply (bool_decide_unpack _). by vm_compute.
  - exists codes. split; [exact Ef|]. vm_compute in E. injection E as <-. split.
    + apply (Hf (mkEntry 0 0x10 (Char 97))). apply (bool_decide_unpack _). by vm_compute.
    + apply Hn; [done|]. apply Forall_forall. apply (bool_decide_unpack _). by vm_compute.
Defined.

(** Only lines that are the same as a whole are taken for duplicates: two keys for one code are accepted,
    and one of them is found. *)
Theorem two_keys_accepted :
  exists codes, from_file (str "01 a" ++ [10] ++ str "01 b" ++ [10]) = Done codes /\ length codes = 2%nat /\
    scan_get codes 0 1 = Done (Some (Char 98)).
Proof. eexists. split; [by vm_compute|]. by vm_compute. Qed.
