(* ===== verification/VirtioInput.v ===== *)
(** * The virtio input device and the keyboard driver

    src/lib/rust/virtio_input/src/lib.rs: eight events in one page are given to the device as buffers of
    one queue; received events are handed on and given back.
    src/services/driver/virtio_input/src/main.rs: the events of a keyboard become text in a ring.

    The device moves as the queue allows; an event it delivers is written to the buffer it completes.

    The theorems: events are received in the order in which they were delivered, each once, and all eight
    buffers are with the device again after each reception; a text that is typed on the
    keyboard of the default table, with the left shift key, is what a program reads; a key code of more than eight bits, and text beyond the size of the ring, stop the driver;
    a right shift key that was pressed is never released. *)

From S2P Require Import Prelude Page Bytes DriverArgs ScanCodes VirtioSetup VirtQueue.

(** ** The device *)

Record InputEvent : Type := mkEvent { ev_ty : Z; ev_code : Z; ev_value : Z }.

Definition MAX_EVENTS : Z := 8.
Definition EVENT_SIZE : Z := 8.

(** The event queue with the device, the events in memory, and the notifications that were sent. *)
Record Inp : Type := mkInp { isys : Sys; events : list InputEvent; ikicks : list Z }.

(** The device takes the next buffer, or delivers an event in one it has taken. *)
Inductive inp_op : Type := Take | Deliver (n : nat) (e : InputEvent).

Section device.
(** The physical address of the page with the events. *)
Context (events_phys_addr : Z).

Definition inp_device (o : inp_op) (s : Inp) : Inp :=
  match o with
  | Take => mkInp (device_step Fetch (isys s)) (events s) (ikicks s)
  | Deliver n e =>
    match in_flight (isys s) !! n ≫= nth_z (descriptors (queue (isys s))) with
    | Some d =>
      mkInp (device_step (Complete n EVENT_SIZE) (isys s))
        (set_z (events s) ((address d - events_phys_addr) / EVENT_SIZE) e) (ikicks s)
    | None => s
    end
  end.

Definition on_eventq {X} (m : M Queue X) : M Inp X := fun s =>
  match driver m (isys s) with
  | Done (x, q) => Done (x, mkInp q (events s) (ikicks s))
  | Panicked why => Panicked why
  | OutOfFuel => OutOfFuel
  end.

(** A buffer is given to the device. *)
Definition send_event (u : buffer) : M Inp unit :=
  let* r := on_eventq (send [u]) in
  match r.1.1 with Ok _ => ret tt | Err _ => panic "failed to send to eventq" end.

Fixpoint send_events (us : list buffer) : M Inp unit :=
  match us with
  | [] => ret tt
  | u :: us => send_event u ;; send_events us
  end.

Definition flush : M Inp unit := modify (fun s => mkInp (isys s) (events s) (ikicks s ++ [0])).

(** The buffers of the eight events. *)
Definition event_buffer (offt i : Z) : buffer := (wrap 64 (events_phys_addr + offt + i * EVENT_SIZE), EVENT_SIZE, true).

(** [Device::new] from the system calls on: the page of the events is at [ev_ptr], and [status] is that of
    the call that gave its physical address. *)
Definition Device_new dev_dma_alloc mem_physical_address (mem1 mem2 : Dma) (ev_ptr status : Z) (memory : list InputEvent)
  : M (Setup * NewState) (Inp * Queue) :=
  on_fst (negotiate 0) ;;
  let* eventq := on_snd (Queue_new dev_dma_alloc mem_physical_address mem1 0 MAX_EVENTS None) in
  let* eventq := unwrap_ok "OOM" eventq in
  let* statusq := on_snd (Queue_new dev_dma_alloc mem_physical_address mem2 1 MAX_EVENTS None) in
  let* statusq := unwrap_ok "OOM" statusq in
  on_fst driver_ok ;;
  if decide (status <> 0) then panic "Failed DMA get phys address" else
  match (send_events (event_buffer (Z.land ev_ptr OFFSET_MASK) <$> seqZ 0 MAX_EVENTS) ;; flush) (mkInp (mkSys eventq 0 []) memory []) with
  | Done (_, s) => ret (s, statusq)
  | Panicked why => panic why
  | OutOfFuel => fun _ => OutOfFuel
  end.

(** The closure of [receive] for the buffers that were collected: the calls of [callback] and [used]. *)
Fixpoint take_events (c : collected) (used : list buffer) : M Inp (list InputEvent * list buffer) :=
  match c with
  | [] => ret ([], used)
  | (_, phys, size) :: c =>
    let i := wrap 64 (phys - events_phys_addr) / EVENT_SIZE in
    if decide (MAX_EVENTS <= i) then panic "device returned bad physical address" else
    let* s := get in
    let* e := unwrap "undefined: read outside the events" (nth_z (events s) i) in
    if decide (zlen used < MAX_EVENTS) then
      let* r := take_events c (used ++ [(phys, size, true)]) in
      ret (e :: r.1, r.2)
    else panic "index out of bounds"
  end.

(** [receive]: the events the callback is called with. *)
Definition receive : M Inp (list InputEvent) :=
  let* r := on_eventq collect_used in
  let* '(es, used) := take_events r.1 [] in
  send_events used ;;
  flush ;;
  ret es.
End device.

(** ** Buffers on their way *)

Section buffers.
Context (events_phys_addr : Z).

(** The chain of a descriptor with the buffer of an event. *)
Definition ev_chain (x : Z * Z) : chain := [(x.1, (events_phys_addr + EVENT_SIZE * x.2, EVENT_SIZE, true))].

Definition ev_buf (i : Z) : buffer := (events_phys_addr + EVENT_SIZE * i, EVENT_SIZE, true).

(** Buffers that are posted, taken and done, each a descriptor and the number of an event, and the events
    that are waiting in the done ones. *)
Record inp_ok (s : Inp) (P T D : list (Z * Z)) (pending : list InputEvent) : Prop := {
  io_repr : repr (isys s) (mkSpec [] (ev_chain <$> P) (ev_chain <$> T) (ev_chain <$> D));
  io_slots : (P ++ T ++ D).*2 ≡ₚ seqZ 0 8;
  io_len : zlen (events s) = 8;
  io_pending : (fun x => nth_z (events s) x.2) <$> D = Some <$> pending
}.

Lemma slot_range s P T D pending x : inp_ok s P T D pending -> x ∈ P ++ T ++ D -> 0 <= x.2 < 8.
Proof.
  intros H Hx. assert (x.2 ∈ seqZ 0 8) as Hi by (rewrite <-(io_slots _ _ _ _ _ H); by apply list_elem_of_fmap_2). apply elem_of_seqZ in Hi. lia.
Qed.

Lemma take_ok s P T D pending x :
  inp_ok s (x :: P) T D pending -> inp_ok (inp_device events_phys_addr Take s) P (T ++ [x]) D pending.
Proof.
  intros [Hr Hs Hl Hp]. split; [|rewrite <-Hs|done|done].
  - apply fetch_repr in Hr. cbn in Hr. by rewrite fmap_app.
  - apply fmap_Permutation. cbn [app]. rewrite <-app_assoc. cbn. by rewrite <-!Permutation_middle.
Qed.

Lemma take_none s T D pending : inp_ok s [] T D pending -> inp_ok (inp_device events_phys_addr Take s) [] T D pending.
Proof. intros [Hr Hs Hl Hp]. split; [|done..]. by apply fetch_repr in Hr. Qed.

Lemma taken_descriptor s P T D pending n x :
  inp_ok s P T D pending -> T !! n = Some x ->
  exists d, in_flight (isys s) !! n ≫= nth_z (descriptors (queue (isys s))) = Some d /\ address d = events_phys_addr + EVENT_SIZE * x.2.
Proof.
  intros [Hr _ _ _] Hn. pose proof (r_taken _ _ Hr) as Ht. pose proof (r_chains _ _ Hr) as Hc. cbn [chains posted taken done_] in Hc.
  rewrite Forall_forall in Hc. destruct (Hc (ev_chain x)) as [_ [(nx & Hd & _) _]].
  { unfold chains. cbn. apply elem_of_app. right. apply elem_of_app. left. apply list_elem_of_fmap_2. by eapply list_elem_of_lookup_2. }
  rewrite Ht. cbn [taken]. rewrite !list_lookup_fmap, Hn. cbn. rewrite Hd. by eexists.
Qed.

Lemma deliver_ok s P T D pending n e x :
  inp_ok s P T D pending -> T !! n = Some x ->
  inp_ok (inp_device events_phys_addr (Deliver n e) s) P (delete n T) (D ++ [x]) (pending ++ [e]).
Proof.
  intros H Hn. destruct (taken_descriptor _ _ _ _ _ _ _ H Hn) as (d & Hd & Ha). pose proof (list_elem_of_lookup_2 _ _ _ Hn) as Hin.
  pose proof (slot_range _ _ _ _ _ x H ltac:(set_solver)) as Hx. pose proof H as [Hr Hs Hl Hp].
  unfold inp_device. rewrite Hd, Ha. replace (events_phys_addr + EVENT_SIZE * x.2 - events_phys_addr) with (x.2 * EVENT_SIZE) by lia.
  rewrite Z.div_mul by done. split; cbn [isys events].
  - apply (complete_repr n EVENT_SIZE) in Hr. cbn in Hr. rewrite list_lookup_fmap, Hn in Hr. cbn in Hr. by rewrite fmap_app, list_fmap_delete.
  - rewrite <-Hs. apply fmap_Permutation, Permutation_app_head. rewrite (delete_Permutation T n x Hn) at 2. rewrite (Permutation_app_comm D). cbn.
    by rewrite Permutation_middle.
  - by rewrite zlen_set_z.
  - rewrite !fmap_app. cbn. rewrite nth_z_set_eq by lia. f_equal. rewrite <-Hp. apply list_fmap_ext. intros j y Hy.
    rewrite nth_z_set_ne; [done|]. intros E. assert (NoDup (P ++ T ++ D).*2) as Hnd by (rewrite Hs; apply NoDup_seqZ).
    rewrite !fmap_app in Hnd. apply NoDup_app in Hnd as (_ & _ & Hnd). apply NoDup_app in Hnd as (_ & Hnd & _).
    apply (Hnd x.2); [by apply list_elem_of_fmap_2|]. rewrite E. apply list_elem_of_fmap_2. by eapply list_elem_of_lookup_2.
Qed.

Lemma deliver_none s P T D pending n e :
  inp_ok s P T D pending -> T !! n = None -> inp_device events_phys_addr (Deliver n e) s = s.
Proof.
  intros [Hr _ _ _] Hn. unfold inp_device. rewrite (r_taken _ _ Hr). cbn [taken]. by rewrite !list_lookup_fmap, Hn.
Qed.

Lemma send_event_ok u fr d P T s :
  repr (isys s) (mkSpec (fr ++ [d]) P T []) ->
  exists s', send_event u s = Done (tt, mkInp s' (events s) (ikicks s)) /\ repr s' (mkSpec fr (P ++ [[(d, u)]]) T []).
Proof.
  intros Hr. destruct (spec_send [u] (mkSpec (fr ++ [d]) P T [])) as [ans a'] eqn:Es.
  assert (zlen [u] < 2 ^ 16) as H16 by done. destruct (send_repr _ _ [u] _ _ Hr H16 Es) as (s' & E & Hr'). unfold spec_send in Es. rewrite decide_False in Es by done.
  cbn [free posted taken done_] in Es. rewrite decide_True in Es by (rewrite length_app; cbn; lia).
  rewrite length_app in Es. replace (length fr + length [d] - length [u])%nat with (length fr) in Es by (cbn; lia).
  rewrite take_app_length, drop_app_length in Es. cbn in Es. injection Es as <- <-.
  unfold step, bind in E. destruct (driver (send [u]) (isys s)) as [[[[r1 r2] r3] s1]| |] eqn:Ed; [|done..].
  unfold ret in E. injection E as -> -> -> ->. exists s'. split; [|exact Hr'].
  unfold send_event, bind, on_eventq. by rewrite Ed.
Qed.

Lemma send_events_ok us : forall fr P T s,
  repr (isys s) (mkSpec fr P T []) -> length us = length fr ->
  exists s', send_events us s = Done (tt, mkInp s' (events s) (ikicks s)) /\
    repr s' (mkSpec [] (P ++ zip_with (fun d u => [(d, u)]) (reverse fr) us) T []).
Proof.
  induction us as [|u us IH]; intros fr P T s Hr Hl.
  - destruct fr; [|done]. exists (isys s). split; [by destruct s|]. by rewrite app_nil_r.
  - destruct fr as [|d fr _] using rev_ind; [done|]. rewrite length_app in Hl. cbn in Hl.
    destruct (send_event_ok u fr d P T s Hr) as (s1 & E1 & H1).
    destruct (IH fr _ T (mkInp s1 (events s) (ikicks s)) H1 ltac:(lia)) as (s2 & E2 & H2). exists s2. split.
    + cbn [send_events]. erewrite bind_done by exact E1. exact E2.
    + rewrite reverse_app. cbn. by rewrite <-app_assoc in H2.
Qed.

Definition ev_log (D : list (Z * Z)) : collected := (fun x => (x.1, events_phys_addr + EVENT_SIZE * x.2, EVENT_SIZE)) <$> D.

Lemma collect_ok s P T D pending :
  inp_ok s P T D pending ->
  exists s', on_eventq collect_used s = Done ((ev_log D, zlen D), mkInp s' (events s) (ikicks s)) /\
    repr s' (mkSpec (D.*1) (ev_chain <$> P) (ev_chain <$> T) []).
Proof.
  intros [Hr _ _ _]. destruct (collect_repr _ _ _ _ _ Hr eq_refl) as (q & E & Hq & _).
  assert (concat (chain_log <$> (ev_chain <$> D)) = ev_log D) as El by (unfold ev_log; clear; induction D as [|x D IH]; [done|]; cbn; by rewrite IH).
  assert (all_idxs (ev_chain <$> D) = D.*1) as Ei by (clear; unfold all_idxs; induction D as [|x D IH]; [done|]; cbn; by rewrite IH).
  cbn [free posted taken done_] in *. rewrite El in E. rewrite Ei in Hq. unfold on_eventq, driver. rewrite E.
  assert (zlen (ev_chain <$> D) = zlen D) as Hz by (unfold zlen; by rewrite length_fmap). rewrite Hz. eexists. split; [done|exact Hq].
Qed.

Context (Hbase : 0 <= events_phys_addr /\ events_phys_addr + 64 < 2 ^ 64).

Lemma take_events_ok D : forall used s pending,
  Forall (fun x => 0 <= x.2 < 8) D -> zlen used + zlen D <= 8 -> (fun x => nth_z (events s) x.2) <$> D = Some <$> pending ->
  take_events events_phys_addr (ev_log D) used s = Done ((pending, used ++ (ev_buf <$> D.*2)), s).
Proof using Hbase.
  induction D as [|x D IH]; intros used s pending Hx Hl Hp.
  - destruct pending; [|done]. cbn. by rewrite app_nil_r.
  - destruct pending as [|e pending]; [done|]. cbn in Hp. injection Hp as He Hp. apply Forall_cons in Hx as [Hx HD].
    rewrite zlen_cons in Hl. pose proof (zlen_nonneg D). cbn [ev_log fmap list_fmap take_events].
    assert (wrap 64 (events_phys_addr + EVENT_SIZE * x.2 - events_phys_addr) / EVENT_SIZE = x.2) as Ei.
    { unfold EVENT_SIZE. rewrite wrap_small by (unfold fits; lia).
      replace (events_phys_addr + 8 * x.2 - events_phys_addr) with (x.2 * 8) by lia. by rewrite Z.div_mul. }
    rewrite Ei. unfold MAX_EVENTS. rewrite decide_False by lia. erewrite bind_done by done. rewrite He. erewrite bind_done by done.
    rewrite decide_True by lia. change ((fun x : Z * Z => (x.1, events_phys_addr + EVENT_SIZE * x.2, EVENT_SIZE)) <$> D) with (ev_log D).
    erewrite bind_done by (apply IH; [done|rewrite zlen_app, zlen_cons, zlen_nil; lia|done]). unfold ret. cbn. by rewrite <-app_assoc.
Qed.

Lemma receive_ok s P T D pending :
  inp_ok s P T D pending ->
  exists s', receive events_phys_addr s = Done (pending, s') /\ inp_ok s' (P ++ zip (reverse D.*1) D.*2) T [] [].
Proof using Hbase.
  intros H. destruct (collect_ok _ _ _ _ _ H) as (s1 & E1 & H1). pose proof H as [_ Hs Hl Hp].
  assert (Forall (fun x => 0 <= x.2 < 8) D) as HD by (apply Forall_forall; intros x Hx; eapply slot_range; [exact H|set_solver]).
  assert (zlen D <= 8) as HlD.
  { apply (f_equal length) in Hs || apply Permutation_length in Hs. rewrite length_fmap, length_seqZ, !length_app in Hs. unfold zlen. lia. }
  destruct (send_events_ok (ev_buf <$> D.*2) (D.*1) (ev_chain <$> P) (ev_chain <$> T) (mkInp s1 (events s) (ikicks s)) H1) as (s2 & E2 & H2).
  { by rewrite !length_fmap. }
  eexists. split.
  - unfold receive. erewrite bind_done by exact E1. cbn [fst snd].
    erewrite bind_done by (apply take_events_ok; [done|rewrite zlen_nil; lia|done]). cbv beta iota. cbn [app].
    erewrite bind_done by exact E2. erewrite bind_done by done. done.
  - split; cbn [isys events].
    + rewrite fmap_app. cbn [fmap list_fmap]. assert (zip_with (fun d u => [(d, u)]) (reverse D.*1) (ev_buf <$> D.*2)
        = ev_chain <$> zip (reverse D.*1) D.*2) as <-; [|done].
      generalize (reverse D.*1) (D.*2). clear. intros l. induction l as [|d l IH]; intros [|i k]; [done..|]. cbn. by rewrite IH.
    + rewrite <-Hs, !app_nil_r, !fmap_app. rewrite snd_zip by (by rewrite length_reverse, !length_fmap).
      rewrite <-!app_assoc. apply Permutation_app_head, Permutation_app_comm.
    + done.
    + done.
Qed.
End buffers.

(** ** Runs *)

Inductive inp_step : Type := Dev (o : inp_op) | Recv.

(** The answers of the receptions. *)
Fixpoint inp_run (base : Z) (ops : list inp_step) : M Inp (list (list InputEvent)) :=
  match ops with
  | [] => ret []
  | Dev o :: ops => modify (inp_device base o) ;; inp_run base ops
  | Recv :: ops => let* es := receive base in let* l := inp_run base ops in ret (es :: l)
  end.

(** With [p] buffers posted, [t] taken, and events waiting: an event is delivered when the device has
    taken the buffer for it, and a reception gets all the events that wait. *)
Fixpoint inp_spec (ops : list inp_step) (p t : nat) (pending : list InputEvent) : list (list InputEvent) :=
  match ops with
  | [] => []
  | Dev Take :: ops => match p with O => inp_spec ops O t pending | S p => inp_spec ops p (S t) pending end
  | Dev (Deliver n e) :: ops =>
    if decide (n < t)%nat then inp_spec ops p (t - 1) (pending ++ [e]) else inp_spec ops p t pending
  | Recv :: ops => pending :: inp_spec ops (p + length pending) t []
  end.

Lemma inp_run_spec (base : Z) (ops : list inp_step) (s : Inp) (P T D : list (Z * Z)) (pending : list InputEvent) :
  0 <= base /\ base + 64 < 2 ^ 64 -> inp_ok base s P T D pending ->
  exists s', inp_run base ops s = Done (inp_spec ops (length P) (length T) pending, s') /\
    exists P' T' D' pending', inp_ok base s' P' T' D' pending'.
Proof.
  intros Hb. revert s P T D pending. induction ops as [|[[|n e]|] ops IH]; intros s P T D pending H; cbn [inp_run inp_spec].
  - exists s. split; [done|]. by exists P, T, D, pending.
  - erewrite bind_done by done. destruct P as [|x P]; [by apply (IH _ [] T D), take_none|].
    apply take_ok in H. destruct (IH _ _ _ _ _ H) as (s' & E & Hs'). rewrite length_app, Nat.add_1_r in E. by exists s'.
  - erewrite bind_done by done. case_decide as Hn.
    + apply lookup_lt_is_Some_2 in Hn as [x Hx]. apply (deliver_ok base _ _ _ _ _ n e x) in H; [|done].
      destruct (IH _ _ _ _ _ H) as (s' & E & Hs'). rewrite length_delete in E by (by eexists). by exists s'.
    + rewrite (deliver_none base _ _ _ _ _ n e H) by (apply lookup_ge_None_2; lia). by apply (IH _ P T D).
  - destruct (receive_ok base Hb _ _ _ _ _ H) as (s1 & E1 & H1). destruct (IH _ _ _ _ _ H1) as (s' & E & Hs').
    assert (length D = length pending) as Hl by (pose proof (f_equal length (io_pending _ _ _ _ _ _ H)) as Hl; by rewrite !length_fmap in Hl).
    rewrite length_app, length_zip_with_l_eq, length_reverse, length_fmap, Hl in E by (by rewrite length_reverse, !length_fmap).
    exists s'. split; [|done]. erewrite bind_done by exact E1. by erewrite bind_done by exact E.
Qed.

(** C35: the input device is a queue of events.  From a state with the eight buffers on their way, every
    run of moves of the device and receptions goes through without a panic, and the receptions answer
    with the events in the order in which they were delivered, each exactly once; every buffer goes back
    to the device, so that it can always deliver as long as no more than eight events wait. *)
Theorem input_refines_queue (base : Z) (ops : list inp_step) (s : Inp) (P T D : list (Z * Z)) (pending : list InputEvent) :
  0 <= base /\ base + 64 < 2 ^ 64 -> inp_ok base s P T D pending ->
  exists s', inp_run base ops s = Done (inp_spec ops (length P) (length T) pending, s') /\
    exists P' T' D' pending', inp_ok base s' P' T' D' pending'.
Proof. apply inp_run_spec. Qed.

(** ** A new device *)

Lemma new_buffers base : 0 <= base /\ base + 64 < 2 ^ 64 -> event_buffer base 0 <$> seqZ 0 MAX_EVENTS = ev_buf base <$> seqZ 0 8.
Proof.
  intros Hb. apply list_fmap_ext. intros i x Hx. apply lookup_seqZ in Hx. unfold event_buffer, ev_buf, EVENT_SIZE.
  rewrite wrap_small by (unfold fits; lia). do 2 f_equal. lia.
Qed.

(** [Device::new] gives all eight buffers to the device. *)
Theorem input_device_ready dma_alloc phys_addr mem1 mem2 base ev_ptr memory st q1 q2 c1 c2 :
  0 <= base /\ base + 64 < 2 ^ 64 -> Z.land ev_ptr OFFSET_MASK = 0 -> zlen memory = 8 ->
  Queue_new dma_alloc phys_addr mem1 0 MAX_EVENTS None st.2 = Done (Ok q1, c1) -> repr (mkSys q1 0 []) new_spec ->
  Queue_new dma_alloc phys_addr mem2 1 MAX_EVENTS None c1 = Done (Ok q2, c2) ->
  exists s st', Device_new base dma_alloc phys_addr mem1 mem2 ev_ptr 0 memory st = Done ((s, q2), st') /\
    inp_ok base s (zip [4; 2; 3; 1; 0; 6; 7; 5] (seqZ 0 8)) [] [] [].
Proof.
  intros Hb Ha Hm E1 Hr E2. destruct st as [su ns]. unfold Device_new. erewrite bind_done by done.
  erewrite bind_done by (unfold on_snd; cbn [snd] in *; by rewrite E1). erewrite bind_done by done.
  erewrite bind_done by (unfold on_snd; cbn [snd]; by rewrite E2). erewrite bind_done by done. erewrite bind_done by done.
  rewrite decide_False by (intros []; done). rewrite Ha, new_buffers by done.
  destruct (send_events_ok (ev_buf base <$> seqZ 0 8) [5; 7; 6; 0; 1; 3; 2; 4] [] [] (mkInp (mkSys q1 0 []) memory []) Hr) as (s2 & E3 & H3);
    [by rewrite length_fmap, length_seqZ|].
  erewrite bind_done by exact E3. do 2 eexists. split; [done|]. split; [exact H3|done|done|done].
Qed.

(** A device with eight buffers of empty events. *)
Lemma example_inp_ok : exists s, inp_ok 0x80000000 s (zip [4; 2; 3; 1; 0; 6; 7; 5] (seqZ 0 8)) [] [] [].
Proof.
  destruct (send_events_ok (ev_buf 0x80000000 <$> seqZ 0 8) [5; 7; 6; 0; 1; 3; 2; 4] [] []
    (mkInp example_sys (replicate 8 (mkEvent 0 0 0)) []) example_repr) as (s2 & E & H); [by rewrite length_fmap, length_seqZ|].
  exists (mkInp s2 (replicate 8 (mkEvent 0 0 0)) []). split; [exact H|done|done|done].
Qed.

Lemma input_refines_queue_witness :
  exists s s', inp_run 0x80000000 [Dev Take; Dev Take; Dev (Deliver 1 (mkEvent 1 30 1)); Dev (Deliver 0 (mkEvent 1 30 0)); Recv; Recv] s =
    Done ([[mkEvent 1 30 1; mkEvent 1 30 0]; []], s').
Proof.
  destruct example_inp_ok as [s H].
  destruct (input_refines_queue 0x80000000
    [Dev Take; Dev Take; Dev (Deliver 1 (mkEvent 1 30 1)); Dev (Deliver 0 (mkEvent 1 30 0)); Recv; Recv] s _ _ _ _ ltac:(done) H) as (s' & E & _).
  exists s, s'. exact E.
Defined.

(** ** The keyboard driver *)

Definition BUFFER_LEN : Z := 4096.

Record Kbd : Type := mkKbd { BUFFER : list Z; NEW_INDEX : Z; USED_INDEX : Z; KEY_MODIFIERS : Z }.

Definition LSHIFT : Z := 0x1.
Definition RSHIFT : Z := 0x2.
Definition CAPSLOCK : Z := 0x4.

(** [set_lshift], [set_rshift] and [set_capslock]; [lshift], [rshift] and [capslock]. *)
Definition set_modifier (bit : Z) (enable : bool) : M Kbd unit :=
  modify (fun k => mkKbd (BUFFER k) (NEW_INDEX k) (USED_INDEX k) (Z.lor (Z.ldiff (KEY_MODIFIERS k) bit) (bit * bool_to_Z enable))).

Definition modifier (bit : Z) (k : Kbd) : bool := 0 <? Z.land (KEY_MODIFIERS k) bit.

(** [char::encode_utf8] *)
Definition encode_utf8 (c : Z) : list Z :=
  if decide (c < 0x80) then [c]
  else if decide (c < 0x800) then [0xc0 + c / 0x40; 0x80 + c mod 0x40]
  else if decide (c < 0x10000) then [0xe0 + c / 0x1000; 0x80 + c / 0x40 mod 0x40; 0x80 + c mod 0x40]
  else [0xf0 + c / 0x40000; 0x80 + c / 0x1000 mod 0x40; 0x80 + c / 0x40 mod 0x40; 0x80 + c mod 0x40].

(** [putc]: the character goes behind the last one; the index is not wrapped to the ring. *)
Definition putc (on : bool) (c : Z) : M Kbd unit :=
  if on then
    let* k := get in
    let bytes := encode_utf8 c in
    if decide (BUFFER_LEN < NEW_INDEX k) then panic "range start index out of range for slice" else
    if decide (BUFFER_LEN - NEW_INDEX k < zlen bytes) then panic "encode_utf8: need more bytes" else
    modify (fun k => mkKbd (write (BUFFER k) (NEW_INDEX k) bytes) (wrap 16 (NEW_INDEX k + zlen bytes)) (USED_INDEX k) (KEY_MODIFIERS k))
  else ret tt.

(** The closure of [process_events] for one event. *)
Definition on_event (codes : list Entry) (evt : InputEvent) : M Kbd unit :=
  let* code := unwrap "called `Result::unwrap()` on an `Err` value" (try_into 8 (ev_code evt)) in
  if decide (code = 0) then ret tt else
  let* k := get in
  let mods := set_caps 0 (xorb (modifier LSHIFT k || modifier RSHIFT k) (modifier CAPSLOCK k)) in
  let on := 0 <? ev_value evt in
  match scan_get codes mods code with
  | Panicked why => panic why
  | OutOfFuel => fun _ => OutOfFuel
  | Done key =>
    match key with
    | Some (Char c) => putc on c
    | Some LShift => set_modifier LSHIFT on
    | Some RShift => set_modifier RSHIFT on
    | Some Capslock => set_modifier CAPSLOCK on
    | Some Backspace => putc on 8
    | Some Enter => putc on 10
    | Some Space => putc on 32
    | _ => ret tt
    end
  end.

Fixpoint on_events (codes : list Entry) (evts : list InputEvent) : M Kbd unit :=
  match evts with
  | [] => ret tt
  | e :: evts => on_event codes e ;; on_events codes evts
  end.

(** [process_events] *)
Definition process_events (base : Z) (codes : list Entry) : M (Inp * Kbd) unit :=
  let* es := on_fst (receive base) in
  on_snd (on_events codes es).

(** A read request: [while USED_INDEX != NEW_INDEX && length < data.len()] *)
Fixpoint read_keys (n : nat) : M Kbd (list Z) :=
  match n with
  | O => ret []
  | S n =>
    let* k := get in
    if decide (USED_INDEX k = NEW_INDEX k) then ret [] else
    let* c := unwrap "index out of bounds" (nth_z (BUFFER k) (Z.land (USED_INDEX k) (BUFFER_LEN - 1))) in
    modify (fun k => mkKbd (BUFFER k) (NEW_INDEX k) (wrap 16 (USED_INDEX k + 1)) (KEY_MODIFIERS k)) ;;
    let* l := read_keys n in
    ret (c :: l)
  end.

(** ** The text *)

(** What a sequence of events types, from the state of the modifiers: the shift keys and caps lock. *)
Definition caps_on (m : Z) : bool := xorb ((0 <? Z.land m LSHIFT) || (0 <? Z.land m RSHIFT)) (0 <? Z.land m CAPSLOCK).

Definition with_modifier (m bit : Z) (enable : bool) : Z := Z.lor (Z.ldiff m bit) (bit * bool_to_Z enable).

(** The key that a table has for a code. *)
Definition key_of (codes : list Entry) (m code : Z) : option Key :=
  match scan_get codes (set_caps 0 (caps_on m)) code with Done k => k | _ => None end.

Definition key_char (k : Key) : option Z :=
  match k with Char c => Some c | Backspace => Some 8 | Enter => Some 10 | Space => Some 32 | _ => None end.

Definition key_modifier (k : Key) : option Z :=
  match k with LShift => Some LSHIFT | RShift => Some RSHIFT | Capslock => Some CAPSLOCK | _ => None end.

Fixpoint typed (codes : list Entry) (m : Z) (evts : list InputEvent) : list Z * Z :=
  match evts with
  | [] => ([], m)
  | e :: evts =>
    let on := 0 <? ev_value e in
    let k := if decide (ev_code e = 0) then None else key_of codes m (ev_code e) in
    let m' := match k ≫= key_modifier with Some bit => with_modifier m bit on | None => m end in
    let '(text, m'') := typed codes m' evts in
    (match k ≫= key_char with Some c => if on then c :: text else text | None => text end, m'')
  end.

Definition text_bytes (text : list Z) : list Z := concat (encode_utf8 <$> text).

Lemma write_write (l : list Z) off b1 b2 :
  0 <= off -> off + zlen (b1 ++ b2) <= zlen l -> write (write l off b1) (off + zlen b1) b2 = write l off (b1 ++ b2).
Proof.
  rewrite zlen_app. intros Ho Hl. pose proof (zlen_nonneg b1). pose proof (zlen_nonneg b2). apply nth_z_ext; [by rewrite !zlen_write|].
  intros i Hi. rewrite !nth_z_write by (rewrite ?zlen_write, ?zlen_app; lia). rewrite zlen_app.
  repeat case_decide; try lia; try done; [by rewrite nth_z_app_r by lia; f_equal; lia|by rewrite nth_z_app_l by lia].
Qed.

Lemma write_nil (l : list Z) off : 0 <= off <= zlen l -> write l off [] = l.
Proof. intros. unfold write. change (zlen (@nil Z)) with 0. rewrite decide_True by lia. rewrite Z.add_0_r. apply take_drop. Qed.

Definition room_for (k : Kbd) (bytes : list Z) : Prop := zlen (BUFFER k) = 4096 /\ 0 <= NEW_INDEX k /\ NEW_INDEX k + zlen bytes <= 4096.

Lemma putc_spec k c rest : room_for k (encode_utf8 c ++ rest) ->
  putc true c k = Done (tt, mkKbd (write (BUFFER k) (NEW_INDEX k) (encode_utf8 c)) (NEW_INDEX k + zlen (encode_utf8 c)) (USED_INDEX k) (KEY_MODIFIERS k)).
Proof.
  intros (Hl & H0 & Hr). rewrite zlen_app in Hr. pose proof (zlen_nonneg rest). pose proof (zlen_nonneg (encode_utf8 c)).
  unfold putc, BUFFER_LEN. erewrite bind_done by done. rewrite !decide_False by lia. unfold modify. by rewrite wrap_small by (unfold fits; lia).
Qed.

(** What one event does. *)
Lemma on_event_spec codes e k text :
  fits 8 (ev_code e) -> let '(t, m) := typed codes (KEY_MODIFIERS k) [e] in
  room_for k (text_bytes t ++ text) ->
  on_event codes e k = Done (tt, mkKbd (write (BUFFER k) (NEW_INDEX k) (text_bytes t)) (NEW_INDEX k + zlen (text_bytes t)) (USED_INDEX k) m).
Proof.
  intros Hc. cbn [typed]. unfold on_event, try_into. rewrite (decide_True (P := fits 8 (ev_code e))) by done. erewrite bind_done by done.
  assert (forall m, room_for k ([] ++ text) -> Done (tt, mkKbd (BUFFER k) (NEW_INDEX k) (USED_INDEX k) m) =
    Done (tt, mkKbd (write (BUFFER k) (NEW_INDEX k) []) (NEW_INDEX k + zlen (@nil Z)) (USED_INDEX k) m)) as Hsame.
  { intros m (Hl & H0 & Hr). rewrite zlen_app in Hr. pose proof (zlen_nonneg text).
    rewrite write_nil by (change (zlen (@nil Z)) with 0 in Hr; lia). change (zlen (@nil Z)) with 0. by rewrite Z.add_0_r. }
  case_decide as Hz; [intros Hr; unfold ret; rewrite <-Hsame by done; by destruct k|]. unfold key_of.
  erewrite bind_done by done. change (xorb (modifier LSHIFT k || modifier RSHIFT k) (modifier CAPSLOCK k)) with (caps_on (KEY_MODIFIERS k)).
  destruct (scan_get_done codes (set_caps 0 (caps_on (KEY_MODIFIERS k))) (ev_code e)) as [key ->].
  assert (forall c, let t := if 0 <? ev_value e then [c] else [] in room_for k (text_bytes t ++ text) ->
    putc (0 <? ev_value e) c k = Done (tt, mkKbd (write (BUFFER k) (NEW_INDEX k) (text_bytes t)) (NEW_INDEX k + zlen (text_bytes t)) (USED_INDEX k) (KEY_MODIFIERS k)))
    as Hput.
  { intros c. destruct (0 <? ev_value e); cbn [text_bytes fmap list_fmap concat].
    - unfold text_bytes. cbn [fmap list_fmap concat]. rewrite app_nil_r. apply putc_spec.
    - intros Hr. unfold putc, ret. rewrite <-Hsame by done. by destruct k. }
  assert (room_for k ([] ++ text) -> (ret tt : M Kbd unit) k = Done (tt, mkKbd (write (BUFFER k) (NEW_INDEX k) [])
    (NEW_INDEX k + zlen (@nil Z)) (USED_INDEX k) (KEY_MODIFIERS k))) as Hret by (intros Hr; rewrite <-Hsame by done; by destruct k).
  destruct key as [key|]; [|exact Hret].
  destruct key; cbn [mbind option_bind key_modifier key_char]; first [apply Hput|exact Hret|intros Hr; rewrite <-Hsame by done; done].
Qed.

Lemma typed_cons codes m e evts :
  typed codes m (e :: evts) =
    let '(t1, m1) := typed codes m [e] in let '(t2, m2) := typed codes m1 evts in (t1 ++ t2, m2).
Proof.
  cbn [typed]. destruct (typed codes _ evts) as [t m2]. f_equal. repeat case_match; done.
Qed.

Lemma on_events_spec (codes : list Entry) (evts : list InputEvent) (k : Kbd) :
  Forall (fun e => fits 8 (ev_code e)) evts ->
  let '(text, m) := typed codes (KEY_MODIFIERS k) evts in
  room_for k (text_bytes text) ->
  on_events codes evts k =
    Done (tt, mkKbd (write (BUFFER k) (NEW_INDEX k) (text_bytes text)) (NEW_INDEX k + zlen (text_bytes text)) (USED_INDEX k) m).
Proof.
  revert k. induction evts as [|e evts IH]; intros k Hc.
  - cbn. intros (Hl & H0 & Hr). change (text_bytes []) with (@nil Z) in *. change (zlen (@nil Z)) with 0 in *.
    rewrite write_nil, Z.add_0_r by lia. by destruct k.
  - apply Forall_cons in Hc as [He Hc]. rewrite typed_cons. pose proof (on_event_spec codes e k) as H1.
    destruct (typed codes (KEY_MODIFIERS k) [e]) as [t1 m1]. 
    set (k1 := mkKbd (write (BUFFER k) (NEW_INDEX k) (text_bytes t1)) (NEW_INDEX k + zlen (text_bytes t1)) (USED_INDEX k) m1) in *.
    specialize (IH k1 Hc). cbn [KEY_MODIFIERS k1] in IH. destruct (typed codes m1 evts) as [t2 m2].
    assert (text_bytes (t1 ++ t2) = text_bytes t1 ++ text_bytes t2) as Et by (unfold text_bytes; by rewrite fmap_app, concat_app).
    rewrite Et. intros Hr. cbn [on_events]. erewrite bind_done by exact (H1 (text_bytes t2) He Hr).
    destruct Hr as (Hl & H0 & Hr). rewrite zlen_app in Hr. pose proof (zlen_nonneg (text_bytes t1)).
    rewrite IH by (unfold room_for; cbn [k1 BUFFER NEW_INDEX]; rewrite zlen_write; lia). cbn [k1 BUFFER NEW_INDEX USED_INDEX].
    rewrite write_write by (rewrite ?zlen_app; lia). by rewrite zlen_app, Z.add_assoc.
Qed.

(** A run of the driver: the moves of the device, and calls of [process_events]. *)
Fixpoint kbd_run (base : Z) (codes : list Entry) (ops : list inp_step) : M (Inp * Kbd) unit :=
  match ops with
  | [] => ret tt
  | Dev o :: ops => on_fst (modify (inp_device base o)) ;; kbd_run base codes ops
  | Recv :: ops => process_events base codes ;; kbd_run base codes ops
  end.

Lemma on_events_app codes es1 es2 k : on_events codes (es1 ++ es2) k = (on_events codes es1 ;; on_events codes es2) k.
Proof.
  revert k. induction es1 as [|e es1 IH]; intros k; [done|]. cbn [on_events app]. unfold bind in *.
  destruct (on_event codes e k) as [[[] k1]| |]; [apply IH|done..].
Qed.

(** The events of all receptions reach the keyboard in order. *)
Lemma kbd_run_events base codes ops : forall s k l s' k',
  inp_run base ops s = Done (l, s') -> on_events codes (concat l) k = Done (tt, k') -> kbd_run base codes ops (s, k) = Done (tt, (s', k')).
Proof.
  induction ops as [|[o|] ops IH]; intros s k l s' k'; cbn [inp_run kbd_run].
  - intros [= <- <-] [= <-]. done.
  - intros E1 E2. erewrite bind_done by reflexivity. by apply (IH _ _ l).
  - unfold bind at 1. destruct (receive base s) as [[es s1]| |] eqn:Er; [|done..]. unfold bind at 1.
    destruct (inp_run base ops s1) as [[l1 s2]| |] eqn:E1; [|done..]. intros [= <- <-]. cbn [concat]. rewrite on_events_app.
    unfold process_events, bind, on_fst, on_snd. cbn [fst snd]. rewrite Er. cbn [fst snd].
    destruct (on_events codes es k) as [[[] k1]| |]; [|done..]. by apply IH.
Qed.

(** ** The layout of the keyboard *)

(** A row of keys from the code [first] on, with their characters. *)
Definition row (shift : bool) (first : Z) (chars : list Z) : list (Z * Z * bool) :=
  imap (fun i c => (c, first + Z.of_nat i, shift)) chars.

(** A Belgian keyboard: the characters, with their key and whether it takes shift. *)
Definition layout : list (Z * Z * bool) :=
  row false 0x02 ([38; 233; 34; 39; 40; 167; 232; 33; 231; 224; 41; 45]) ++
  row true 0x02 (str "1234567890" ++ [176; 95]) ++
  row false 0x10 (str "azertyuiop^$") ++ row true 0x10 (str "AZERTYUIOP" ++ [168; 42]) ++
  row false 0x1e (str "qsdfghjklm" ++ [249]) ++ row true 0x1e (str "QSDFGHJKLM%") ++
  row false 0x2b ([181] ++ str "wxcvbn,;:=") ++ row true 0x2b ([163] ++ str "WXCVBN?./+") ++
  [(8, 0x0e, false); (10, 0x1c, false); (32, 0x39, false)].

Definition LEFT_SHIFT : Z := 0x2a.

(** Ways to type a text, with the left shift key up or down: the keys of its characters are pressed in
    order, or repeat themselves, while the shift key is as each needs it; keys may be released in any
    order; the events between have code 0.  At the end the shift key is up. *)
Inductive types : bool -> list Z -> list InputEvent -> Prop :=
| types_end : types false [] []
| types_sync b text ty v evts : types b text evts -> types b text (mkEvent ty 0 v :: evts)
| types_press b c text ty code v evts :
    (c, code, b) ∈ layout -> 0 < v -> types b text evts -> types b (c :: text) (mkEvent ty code v :: evts)
| types_release b b' c text ty code evts :
    (c, code, b') ∈ layout -> types b text evts -> types b text (mkEvent ty code 0 :: evts)
| types_shift text ty evts : types true text evts -> types false text (mkEvent ty LEFT_SHIFT 1 :: evts)
| types_unshift text ty evts : types false text evts -> types true text (mkEvent ty LEFT_SHIFT 0 :: evts).

Definition held (b : bool) : Z := if b then LSHIFT else 0.

(** What the default table has for the keys of the layout and for the shift key. *)
Definition layout_ok (codes : list Entry) : bool :=
  forallb (fun '(c, code, b) => bool_decide (0 < code < 256) &&
    bool_decide (key_of codes (held b) code ≫= key_char = Some c) &&
    bool_decide (key_of codes (held true) code ≫= key_modifier = None) && bool_decide (key_of codes (held false) code ≫= key_modifier = None)) layout &&
  bool_decide (key_of codes (held false) LEFT_SHIFT = Some LShift) && bool_decide (key_of codes (held true) LEFT_SHIFT = Some LShift).

Lemma default_layout codes : default_codes = Done codes -> layout_ok codes = true.
Proof.
  intros E. assert (match default_codes with Done codes => layout_ok codes | _ => false end = true) as H by by vm_compute. by rewrite E in H.
Qed.

Section layout.
Context (codes : list Entry) (Hok : layout_ok codes = true).

Lemma layout_key c code b : (c, code, b) ∈ layout ->
  0 < code < 256 /\ key_of codes (held b) code ≫= key_char = Some c /\ forall b', key_of codes (held b') code ≫= key_modifier = None.
Proof using Hok.
  intros Hin. unfold layout_ok in Hok. rewrite !andb_true_iff, forallb_forall in Hok. destruct Hok as [[H _] _].
  apply list_elem_of_In in Hin. apply H in Hin. rewrite !andb_true_iff, !bool_decide_eq_true in Hin. destruct Hin as (((H1 & H2) & H3) & H4).
  split; [done|]. split; [done|]. by intros [].
Qed.

Lemma layout_shift b : key_of codes (held b) LEFT_SHIFT = Some LShift.
Proof using Hok.
  unfold layout_ok in Hok. rewrite !andb_true_iff, !bool_decide_eq_true in Hok. destruct Hok as [[_ H1] H2]. by destruct b.
Qed.

Lemma types_typed b text evts : types b text evts -> typed codes (held b) evts = (text, 0) /\ Forall (fun e => fits 8 (ev_code e)) evts.
Proof using Hok.
  induction 1 as [|b text ty v evts _ [IH1 IH2]|b c text ty code v evts Hin Hv _ [IH1 IH2]|b b' c text ty code evts Hin _ [IH1 IH2]
    |text ty evts _ [IH1 IH2]|text ty evts _ [IH1 IH2]]; cbn [typed ev_code ev_value].
  - done.
  - rewrite decide_True by done. cbn. rewrite IH1. split; [done|]. by constructor.
  - destruct (layout_key _ _ _ Hin) as (Hc & Hk & Hm). rewrite decide_False by lia. rewrite Hm, Hk, IH1.
    rewrite (proj2 (Z.ltb_lt 0 v)) by done. split; [done|]. constructor; [unfold fits; cbn; lia|done].
  - destruct (layout_key _ _ _ Hin) as (Hc & _ & Hm). rewrite decide_False by lia. rewrite Hm, IH1. split; [|constructor; [unfold fits; cbn; lia|done]].
    by destruct (_ ≫= key_char).
  - rewrite decide_False by done. rewrite (layout_shift false). cbn [mbind option_bind key_modifier key_char].
    change (with_modifier (held false) LSHIFT (0 <? 1)) with (held true). rewrite IH1. split; [done|]. by constructor.
  - rewrite decide_False by done. rewrite (layout_shift true). cbn [mbind option_bind key_modifier key_char].
    change (with_modifier (held true) LSHIFT (0 <? 0)) with (held false). rewrite IH1. split; [done|]. by constructor.
Qed.
End layout.

(** A read request gets the bytes that wait, at most as many as it asks for. *)
Theorem read_gets_text n : forall k,
  0 <= USED_INDEX k <= NEW_INDEX k -> NEW_INDEX k <= BUFFER_LEN -> zlen (BUFFER k) = BUFFER_LEN ->
  let m := Z.min (Z.of_nat n) (NEW_INDEX k - USED_INDEX k) in
  exists l, read_keys n k = Done (l, mkKbd (BUFFER k) (NEW_INDEX k) (USED_INDEX k + m) (KEY_MODIFIERS k)) /\ slice (BUFFER k) (USED_INDEX k) m = Some l.
Proof.
  change BUFFER_LEN with 4096. induction n as [|n IH]; intros k Hu Hn Hl m.
  - exists []. replace m with 0 by lia. rewrite Z.add_0_r. split; [by destruct k|]. unfold slice. by rewrite decide_True by lia.
  - cbn [read_keys]. erewrite bind_done by done. case_decide as He.
    + exists []. replace m with 0 by lia. rewrite Z.add_0_r. split; [by destruct k|]. unfold slice. by rewrite decide_True by lia.
    + unfold BUFFER_LEN. change (4096 - 1) with (Z.ones 12). rewrite Z.land_ones, Z.mod_small by lia.
      destruct (nth_z_lt (BUFFER k) (USED_INDEX k) ltac:(lia)) as [c Hc]. rewrite Hc. erewrite bind_done by done. erewrite bind_done by done.
      rewrite wrap_small by (unfold fits; lia).
      destruct (IH (mkKbd (BUFFER k) (NEW_INDEX k) (USED_INDEX k + 1) (KEY_MODIFIERS k))) as (l & E & Hs); cbn [BUFFER NEW_INDEX USED_INDEX KEY_MODIFIERS] in *; [lia..|].
      exists (c :: l). erewrite bind_done by exact E. set (m1 := Z.min (Z.of_nat n) (NEW_INDEX k - (USED_INDEX k + 1))) in *.
      assert (m = 1 + m1) as Em by lia. split; [unfold ret; rewrite Em; do 3 f_equal; lia|].
      unfold slice in *. rewrite decide_True in Hs by lia. rewrite decide_True by lia. injection Hs as <-. f_equal. unfold nth_z in Hc. rewrite decide_True in Hc by lia.
      rewrite Em, (drop_S _ c) by done. replace (Z.to_nat (1 + m1)) with (S (Z.to_nat m1)) by lia. cbn. do 2 f_equal. f_equal. lia.
Qed.

Lemma take_all_or {A} (l : list A) n : take (Z.to_nat (Z.min (Z.of_nat n) (zlen l))) l = take n l.
Proof.
  unfold zlen. destruct (decide (n <= length l)%nat) as [H|H].
  - f_equal. lia.
  - by rewrite !take_ge by lia.
Qed.

Lemma slice_write (l : list Z) off bytes n :
  0 <= off -> off + zlen bytes <= zlen l -> 0 <= n <= zlen bytes -> slice (write l off bytes) off n = Some (take (Z.to_nat n) bytes).
Proof.
  intros Ho Hl Hn. unfold slice. rewrite decide_True by (rewrite zlen_write; lia). f_equal. unfold write. rewrite decide_True by lia.
  assert (length (take (Z.to_nat off) l) = Z.to_nat off) as El by (rewrite length_take; unfold zlen in *; lia).
  rewrite drop_app_length' by done. rewrite take_app_le by (unfold zlen in *; lia). done.
Qed.

(** C36: what is typed is read.  A text of characters of the Belgian layout is typed with the left shift
    key, and its events arrive in any number of receptions, as the device moves.  While the buffer has
    room, the driver with its default table ends with exactly this text, in UTF-8, behind what it had, and
    with no modifier; a read request gets the text from its start, as many bytes as it asks for.  (The
    right shift key does not work, [right_shift_sticks], and a key code above 255 stops the driver,
    [large_code_panics].) *)
Theorem keyboard_types (base : Z) (codes : list Entry) (ops : list inp_step) (s : Inp) (k : Kbd) (P T D : list (Z * Z))
    (pending : list InputEvent) (text : list Z) (n : nat) :
  0 <= base /\ base + 64 < 2 ^ 64 -> inp_ok base s P T D pending -> default_codes = Done codes ->
  types false text (concat (inp_spec ops (length P) (length T) pending)) ->
  KEY_MODIFIERS k = 0 -> room_for k (text_bytes text) -> USED_INDEX k = NEW_INDEX k ->
  exists s' k' k'', kbd_run base codes ops (s, k) = Done (tt, (s', k')) /\
    k' = mkKbd (write (BUFFER k) (NEW_INDEX k) (text_bytes text)) (NEW_INDEX k + zlen (text_bytes text)) (USED_INDEX k) 0 /\
    read_keys n k' = Done (take n (text_bytes text), k'').
Proof.
  intros Hb H Hc Ht Hm Hr Hu. destruct (inp_run_spec base ops s P T D pending Hb H) as (s' & E & _).
  destruct (types_typed codes (default_layout codes Hc) _ _ _ Ht) as [Ety Hf]. pose proof (on_events_spec codes _ k Hf) as He.
  change (held false) with 0 in Ety. rewrite Hm, Ety in He. specialize (He Hr). pose proof Hr as (Hl & H0 & Hr'). pose proof (zlen_nonneg (text_bytes text)).
  set (k' := mkKbd (write _ _ _) _ _ _) in He. destruct (read_gets_text n k') as (l & El & Hs); cbn [k' BUFFER NEW_INDEX USED_INDEX] in *.
  1-3: unfold BUFFER_LEN; rewrite ?zlen_write; lia.
  eexists s', k', _. split; [by eapply kbd_run_events|]. split; [done|]. rewrite El. rewrite Hu, slice_write in Hs by lia. injection Hs as <-.
  replace (NEW_INDEX k + zlen (text_bytes text) - NEW_INDEX k) with (zlen (text_bytes text)) by lia. by rewrite take_all_or.
Qed.

(** "aA", in two receptions. *)
Definition example_keys : list inp_step :=
  [Dev Take; Dev Take; Dev (Deliver 0 (mkEvent 1 0x10 1)); Dev (Deliver 0 (mkEvent 1 0x2a 1)); Recv;
   Dev Take; Dev Take; Dev Take; Dev (Deliver 0 (mkEvent 1 0x10 0)); Dev (Deliver 1 (mkEvent 1 0x10 1)); Dev (Deliver 0 (mkEvent 1 0x2a 0)); Recv].

Lemma keyboard_types_witness :
  exists codes s s' k' k'', default_codes = Done codes /\
    kbd_run 0x80000000 codes example_keys (s, mkKbd (replicate (Z.to_nat 4096) 0) 0 0 0) = Done (tt, (s', k')) /\ read_keys 10 k' = Done ([97; 65], k'').
Proof.
  destruct example_inp_ok as [s H]. destruct default_codes as [codes| |] eqn:E; [|by vm_compute in E..].
  assert (forall c code b, bool_decide ((c, code, b) ∈ layout) = true -> (c, code, b) ∈ layout) as Hin by (intros c code b; apply bool_decide_eq_true).
  destruct (keyboard_types 0x80000000 codes example_keys s (mkKbd (replicate (Z.to_nat 4096) 0) 0 0 0) _ _ _ _ [97; 65] 10 ltac:(done) H E)
    as (s' & k' & k'' & E1 & _ & E2); [|done|split_and!; by vm_compute|done|by exists codes, s, s', k', k''].
  apply types_press; [by apply Hin; vm_compute|done|]. apply types_shift. apply (types_release _ false 97); [by apply Hin; vm_compute|].
  apply types_press; [by apply Hin; vm_compute|done|]. apply types_unshift, types_end.
Defined.

(** ** Where the driver goes wrong *)

(** With the default table: the right shift key has no line with the modifier that pressing it sets, so its
    release is not seen, and later keys stay shifted. *)
Theorem right_shift_sticks :
  exists codes k, default_codes = Done codes /\
    on_events codes [mkEvent 1 0x36 1; mkEvent 1 0x36 0; mkEvent 1 0x10 1] (mkKbd (replicate (Z.to_nat 4096) 0) 0 0 0) = Done (tt, k) /\
    modifier RSHIFT k = true /\ take 1 (BUFFER k) = [65].
Proof. eexists _, _. split; [by vm_compute|]. split; by vm_compute. Qed.

(** A key code that is not a byte, as those of buttons, stops the driver. *)
Theorem large_code_panics codes e k : 255 < ev_code e -> on_event codes e k = Panicked "called `Result::unwrap()` on an `Err` value".
Proof. intros H. unfold on_event, try_into. rewrite decide_False by (unfold fits; lia). done. Qed.

(** The buffer is never used from its start again: a character behind its end stops the driver, even when
    everything before it has been read. *)
Theorem full_buffer_panics c k : NEW_INDEX k = BUFFER_LEN -> putc true c k = Panicked "encode_utf8: need more bytes".
Proof.
  intros H. unfold putc. erewrite bind_done by done. rewrite H. rewrite decide_False by done. rewrite decide_True; [done|].
  assert (0 < zlen (encode_utf8 c)) by (unfold encode_utf8; repeat case_decide; done). lia.
Qed.
