(* ===== verification/CStdio.v ===== *)
(** * Streams of the C library

    src/lib/c/std/src/stdio.c, src/lib/c/std/src/sys/uio.c and src/lib/c/std/src/fcntl.c, on the
    memory of CMem: reading, writing and printing through packets, with the one buffer of the library
    that every function shares.

    The rings of packets are those of DuxIpc, seen from above: a submitted packet stays in the ring
    until the program waits, when the kernel transmits it to a server, which is a parameter; the answers
    go to the end of the packets that were received; a packet that is deferred changes places with the
    last one.  No packets come but answers, and a wait that no answer ends never returns, which is
    [OutOfFuel] here.  There is always a free slot for a packet.  [sent] records every packet with the
    data it had when it was transmitted.

    The theorems: [writev] sends all the bytes of its areas, in order, whatever the server makes of
    them, if the part of the buffer they take is mapped, and faults if it is not; [fwrite] sends an area
    that fits the buffer and skips data of a larger one; [fread] copies what the server answers, more
    than was asked for as well; [vfprintf] sends the text of its format and arguments when it fits the
    buffer; every call hangs when a packet of another kind was received before. *)

From S2P Require Import Prelude Bytes CMem CString CFormat Ipc DuxIpc.

Definition OP_READ : Z := 1.
Definition OP_WRITE : Z := 2.

Record FILE : Type := mkFILE { _uuid : Z * Z; _position : Z; _address : Z; _path : Z }.

(** [sizeof(FILE)] *)
Definition SIZEOF_FILE : Z := 40.

Section stdio.
Context {Srv : Type}.

Record Io : Type := mkIo {
  mem : Mem; srv : Srv; outbox : list Packet; inbox : list Packet; sent : list (Packet * list Z);
  files : list FILE; files_count : Z; universal_buffer : Z; universal_buffer_size : Z
}.

Definition with_mem (m : Mem) (s : Io) : Io :=
  mkIo m (srv s) (outbox s) (inbox s) (sent s) (files s) (files_count s) (universal_buffer s) (universal_buffer_size s).

Definition with_inbox (l : list Packet) (s : Io) : Io :=
  mkIo (mem s) (srv s) (outbox s) l (sent s) (files s) (files_count s) (universal_buffer s) (universal_buffer_size s).

Definition with_files (l : list FILE) (s : Io) : Io :=
  mkIo (mem s) (srv s) (outbox s) (inbox s) (sent s) l (files_count s) (universal_buffer s) (universal_buffer_size s).

Definition on_mem {X} (f : M Mem X) : M Io X := fun s =>
  match f (mem s) with
  | Done (x, m) => Done (x, with_mem m s)
  | Panicked why => Panicked why
  | OutOfFuel => OutOfFuel
  end.

(** ** Packets

    What the server does with a packet: the packets it answers with, after it read and wrote the
    memory of the packet.  [slot_id] is what the slot of the ring held for the [id] of the packet,
    which the functions of stdio.c do not write. *)
Context (serve : Srv -> Packet -> Mem -> Srv * Mem * list Packet) (slot_id : nat -> Z).

(** [dux_reserve_transmit_entry], filling the packet and [dux_submit_transmit_entry]. *)
Definition submit (p : Packet) : M Io unit := modify (fun s =>
  mkIo (mem s) (srv s) (outbox s ++ [p]) (inbox s) (sent s) (files s) (files_count s) (universal_buffer s) (universal_buffer_size s)).

(** The kernel transmits the packets of the ring, and the servers answer them. *)
Fixpoint transmit_all (t : Srv) (m : Mem) (ps : list Packet) : Srv * Mem * list (Packet * list Z) * list Packet :=
  match ps with
  | [] => (t, m, [], [])
  | p :: ps =>
    let '(t1, m1, replies) := serve t p m in
    let '(t2, m2, log, l) := transmit_all t1 m1 ps in
    (t2, m2, (p, peek m (pk_data p) (pk_data_length p)) :: log, replies ++ l)
  end.

(** [kernel_io_wait(-1)]: the ring is transmitted, and the program goes on when a packet arrives. *)
Definition io_wait : M Io unit := fun s =>
  let '(t, m, log, replies) := transmit_all (srv s) (mem s) (outbox s) in
  match replies with
  | [] => OutOfFuel
  | _ => Done (tt, mkIo m t [] (inbox s ++ replies) (sent s ++ log) (files s) (files_count s) (universal_buffer s) (universal_buffer_size s))
  end.

(** [dux_get_received_entry]: it waits while no packet was received. *)
Definition get_received : M Io Packet :=
  let* s := get in
  match inbox s with
  | p :: _ => ret p
  | [] => io_wait ;; let* s := get in unwrap "unreachable: no packet" (head (inbox s))
  end.

Definition pop_received : M Io unit := modify (fun s => with_inbox (tail (inbox s)) s).
Definition defer_received : M Io unit := modify (fun s => with_inbox (swap_ends (inbox s)) s).

(** The loop that waits for an answer to [op]: another packet is deferred, and the loops that [waits]
    call [kernel_io_wait] before they look again. *)
Fixpoint wait_loop (fuel : nat) (waits : bool) (op : Z) : M Io Packet :=
  match fuel with
  | O => fun _ => OutOfFuel
  | S fuel =>
    let* p := get_received in
    if pk_opcode p =? op then pop_received ;; ret p
    else defer_received ;; (if waits then io_wait else ret tt) ;; wait_loop fuel waits op
  end.

(** Two looks are enough: [wait_two]. *)
Definition wait_for (waits : bool) (op : Z) : M Io Packet := wait_loop 2 waits op.

Definition file (stream : Z) : M Io FILE := let* s := get in unwrap "undefined: no such file" (nth_z (files s) stream).

Definition set_position (stream n : Z) : M Io unit := modify (fun s =>
  match nth_z (files s) stream with
  | Some f => with_files (set_z (files s) stream (mkFILE (_uuid f) n (_address f) (_path f))) s
  | None => s
  end).

Definition path_len (f : FILE) : M Io Z := if _path f =? NULL then ret 0 else on_mem (strlen (_path f)).

(** The packets of [fread] and [fwrite]. *)
Definition stream_packet (op : Z) (uuid : Z * Z) (stream length : Z) : M Io Packet :=
  let* f := file stream in
  let* name_len := path_len f in
  let* s := get in
  ret (mkPacket uuid (universal_buffer s) (_path f) (_position f) length (_address f) 0 (wrap 16 name_len)
    (slot_id (List.length (sent s))) op).

(** [stream->_position += n] *)
Definition advance (stream n : Z) : M Io unit :=
  let* f := file stream in set_position stream (wrap 64 (_position f + n)).

(** ** Reading and writing streams

    A stream is the index of its [FILE]. *)

Definition chunk (s : Io) (delta : Z) : Z := if universal_buffer_size s <? delta then universal_buffer_size s else delta.

Fixpoint fread_loop (fuel : nat) (p read_total total_read stream : Z) : M Io Z :=
  match fuel with
  | O => fun _ => OutOfFuel
  | S fuel =>
    if total_read <? read_total then
      let* s := get in
      let max_size := chunk s (read_total - total_read) in
      let* pkt := stream_packet OP_READ (wrap 64 (-1), 0) stream 0x1000 in
      submit pkt ;;
      let* cce := wait_for true OP_READ in
      let n := pk_data_length cce in
      on_mem (memcpy p (universal_buffer s) n) ;;
      advance stream n ;;
      let total_read := wrap 64 (total_read + n) in
      if n <? max_size then ret total_read else fread_loop fuel (p + n) read_total total_read stream
    else ret total_read
  end.

(** Every iteration but the last reads at least a byte. *)
Definition fread (ptr size count stream : Z) : M Io Z :=
  let read_total := wrap 64 (size * count) in
  fread_loop (S (Z.to_nat read_total)) ptr read_total 0 stream.

Fixpoint fwrite_loop (fuel : nat) (p write_total total_written stream : Z) : M Io Z :=
  match fuel with
  | O => fun _ => OutOfFuel
  | S fuel =>
    if total_written <? write_total then
      let* s := get in
      let max_size := chunk s (write_total - total_written) in
      on_mem (copy_up (S (Z.to_nat max_size)) (universal_buffer s) p (p + max_size)) ;;
      let p := p + max_size in
      let* pkt := stream_packet OP_WRITE (0, wrap 64 (-1)) stream max_size in
      submit pkt ;;
      let* cce := wait_for false OP_WRITE in
      let n := pk_data_length cce in
      let p := p + n in
      advance stream n ;;
      let total_written := wrap 64 (total_written + n) in
      if n <? max_size then ret total_written else fwrite_loop fuel p write_total total_written stream
    else ret total_written
  end.

Definition fwrite (ptr size count stream : Z) : M Io Z :=
  let write_total := wrap 64 (size * count) in
  fwrite_loop (S (Z.to_nat write_total)) ptr write_total 0 stream.

(** The result is converted to [int]. *)
Definition fputs (str stream : Z) : M Io Z :=
  let* len := on_mem (strlen str) in
  let* n := fwrite str len 1 stream in ret (signed 32 n).

(** [newline] is where the literal lies. *)
Definition puts (newline str : Z) : M Io Z :=
  let* r0 := fputs str 1 in
  if r0 <? 0 then ret r0 else
  let* r1 := fputs newline 1 in
  ret (if r1 <? 0 then r1 else signed 32 (r0 + r1)).

(** Until something is read; it is always the standard input that is read. *)
Fixpoint fgets (fuel : nat) (str size stream : Z) : M Io Z :=
  match fuel with
  | O => fun _ => OutOfFuel
  | S fuel =>
    let* rd := fread str (wrap 64 (size - 1)) 1 0 in
    on_mem (stb (str + rd) 0) ;;
    if rd =? 0 then fgets fuel str size stream else ret str
  end.

(** ** Gathering

    The areas that are left and the offset in the first of them. *)
Fixpoint gather (fuel : nat) (iov : list (Z * Z)) (base_offset copied : Z) : M Io (list (Z * Z) * Z * Z) :=
  match fuel with
  | O => fun _ => OutOfFuel
  | S fuel =>
    match iov with
    | [] => ret ([], base_offset, copied)
    | (base, len) :: rest =>
      if base_offset <? len then
        let* s := get in
        if copied <? universal_buffer_size s then
          let* x := on_mem (ldb (base + base_offset)) in
          on_mem (stb (universal_buffer s + copied) x) ;;
          gather fuel iov (base_offset + 1) (copied + 1)
        else ret (iov, base_offset, copied)
      else gather fuel rest 0 copied
    end
  end.

(** The bytes of the areas, and a step for each area. *)
Definition iov_fuel (iov : list (Z * Z)) : nat := foldr (fun x n => (S (Z.to_nat x.2) + n)%nat) 1%nat iov.

Fixpoint writev_loop (fuel : nat) (iov : list (Z * Z)) (base_offset total_written : Z) : M Io Z :=
  match fuel with
  | O => fun _ => OutOfFuel
  | S fuel =>
    let* '(iov', base_offset, copied) := gather (iov_fuel iov) iov base_offset 0 in
    if copied =? 0 then ret total_written else
    let* s := get in
    submit (mkPacket (0, 0x12345678) (universal_buffer s) NULL total_written copied 0 0 0 0 OP_WRITE) ;;
    let* cce := wait_for true OP_WRITE in
    writev_loop fuel iov' base_offset (wrap 64 (total_written + pk_data_length cce))
  end.

(** Every iteration but the last sends at least a byte; the file descriptor is not used. *)
Definition writev (fd : Z) (iov : list (Z * Z)) : M Io Z := writev_loop (iov_fuel iov) iov 0 0.

Definition write (fd buf count : Z) : M Io Z := writev fd [(buf, count)].

(** The index is divided by the size of a [FILE] once more. *)
Definition fileno (stream : Z) : Z := Z.quot stream SIZEOF_FILE.

(** [chr] is where the character lies. *)
Definition fputc (chr c stream : Z) : M Io Z :=
  let c := wrap 8 c in
  on_mem (stb chr c) ;;
  let* r := writev (fileno stream) [(chr, 1)] in
  ret (if 0 <=? signed 64 r then c else signed 32 r).

Definition putchar (chr c : Z) : M Io Z := fputc chr c 1.

(** ** Opening files *)

Definition MODE_READ : Z := 0x1.
Definition MODE_WRITE : Z := 0x2.
Definition MODE_APPEND : Z := 0x4.
Definition MODE_UPDATE : Z := 0x8.

Fixpoint mode_flags (fuel : nat) (c flags : Z) : M Mem (option Z) :=
  match fuel with
  | O => fun _ => OutOfFuel
  | S fuel =>
    let* x := ldb c in
    if x =? 0 then ret (Some flags)
    else if x =? 114 then mode_flags fuel (c + 1) (Z.lor flags MODE_READ)
    else if x =? 119 then mode_flags fuel (c + 1) (Z.lor flags MODE_WRITE)
    else if x =? 97 then mode_flags fuel (c + 1) (Z.lor flags MODE_APPEND)
    else if x =? 43 then mode_flags fuel (c + 1) (Z.lor flags MODE_UPDATE)
    else if x =? 98 then mode_flags fuel (c + 1) flags
    else ret None
  end.

Definition std_pop_free_file : M Io Z := fun s =>
  Done (files_count s, mkIo (mem s) (srv s) (outbox s) (inbox s) (sent s) (files s) (wrap 64 (files_count s + 1)) (universal_buffer s) (universal_buffer_size s)).

Definition set_file (i : Z) (f : FILE) : M Io unit := fun s =>
  if decide (0 <= i < zlen (files s)) then Done (tt, with_files (set_z (files s) i f) s) else Panicked "undefined: no such file".

(** [path_buf] is the static buffer for the path, of 4096 bytes; a null pointer is [None]. *)
Definition fopen (path_buf path mode : Z) : M Io (option Z) :=
  let* flags := on_mem (bounded (fun fuel => mode_flags fuel mode 0)) in
  match flags with
  | None => ret None
  | Some flags =>
    if (flags =? 0) || (flags =? MODE_UPDATE) then ret None else
    let* i := std_pop_free_file in
    let* cwd := file 3 in
    let* len := on_mem (strlen path) in
    let len := if len <? 4096 - 1 then len else 4096 - 1 in
    on_mem (memcpy path_buf path len) ;;
    on_mem (stb (path_buf + len) 0) ;;
    set_file i (mkFILE (0, 0) 0 (_address cwd) path_buf) ;;
    ret (Some i)
  end.

(** ** Printing *)

(** The inner loop, from the character at [c] of the format: the rest of the format, the end of the
    text and the arguments that are left. *)
Fixpoint fill_out (fuel : nat) (out size c ptr : Z) (args : list Z) : M Mem (Z * Z * list Z) :=
  match fuel with
  | O => fun _ => OutOfFuel
  | S fuel =>
    let* x := ldb c in
    if x =? 0 then ret (c, ptr, args) else
    let literal := if ptr - out <? size then stb ptr x ;; fill_out fuel out size (c + 1) (ptr + 1) args
                   else fill_out fuel out size c ptr args in
    if x =? 37 then
      let* '(e, fty) := bounded (fun fuel => determine_format fuel c) in
      if e =? NULL then literal else
      let* '(e', args') := std_format ptr (size - (ptr - out)) fty args in
      if e' =? NULL then ret (c, ptr, args) else fill_out fuel out size e e' args'
    else literal
  end.

(** The wait of [vfprintf] stops for ever at a packet it does not expect. *)
Definition wait_only (op : Z) : M Io Packet :=
  let* p := get_received in
  if pk_opcode p =? op then pop_received ;; ret p else fun _ => OutOfFuel.

Fixpoint vfprintf_loop (fuel : nat) (stream c : Z) (args : list Z) (total_written : Z) : M Io Z :=
  match fuel with
  | O => fun _ => OutOfFuel
  | S fuel =>
    let* x := on_mem (ldb c) in
    if x =? 0 then ret total_written else
    let* s := get in
    let out := universal_buffer s in
    let* '(c, ptr, args) := on_mem (bounded (fun fuel => fill_out fuel out (universal_buffer_size s) c out args)) in
    let* f := file stream in
    let* s := get in
    submit (mkPacket (_uuid f) out NULL (wrap 64 total_written) (ptr - out) (_address f) 0 0 (slot_id (List.length (sent s))) OP_WRITE) ;;
    let* cce := wait_only OP_WRITE in
    advance stream (pk_data_length cce) ;;
    vfprintf_loop fuel stream c args (signed 32 (total_written + pk_data_length cce))
  end.

(** [fuel] bounds the packets that are sent, which no bound on the format gives: an argument that
    does not fit the buffer is tried for ever. *)
Definition vfprintf (fuel : nat) (stream format : Z) (args : list Z) : M Io Z := vfprintf_loop fuel stream format args 0.

Definition printf (fuel : nat) (format : Z) (args : list Z) : M Io Z := vfprintf fuel 1 format args.

(** ** Waiting and sending *)

Lemma on_mem_done {X} (f : M Mem X) s x m : f (mem s) = Done (x, m) -> on_mem f s = Done (x, with_mem m s).
Proof. unfold on_mem. by intros ->. Qed.

(** No packet is on its way. *)
Definition idle (s : Io) : Prop := inbox s = [] /\ outbox s = [].

(** What [io_wait] leaves behind. *)
Lemma io_wait_done s s' : io_wait s = Done (tt, s') -> outbox s' = [] /\ exists l, l <> [] /\ inbox s' = inbox s ++ l.
Proof using Type.
  unfold io_wait. destruct (transmit_all _ _ _) as [[[t m] log] l]. destruct l as [|r l]; [done|]. intros [= <-]. split; [done|]. by exists (r :: l).
Qed.

Lemma io_wait_nothing s : outbox s = [] -> io_wait s = OutOfFuel.
Proof using Type. intros E. unfold io_wait. by rewrite E. Qed.

Lemma get_received_head s p : head (inbox s) = Some p -> get_received s = Done (p, s).
Proof using Type. unfold get_received. erewrite (bind_done get) by done. destruct (inbox s) as [|q l]; [done|]. by intros [= ->]. Qed.

Lemma swap_ends_head {A} (l : list A) : head (swap_ends l) = last l /\ last (swap_ends l) = head l.
Proof using Type.
  destruct l as [|x l]; [done|]. destruct l as [|y l _] using rev_ind; [done|].
  assert (swap_ends (x :: l ++ [y]) = y :: l ++ [x]) as -> by (unfold swap_ends; by rewrite reverse_snoc, reverse_involutive).
  change (x :: l ++ [y]) with ((x :: l) ++ [y]). change (y :: l ++ [x]) with ((y :: l) ++ [x]). by rewrite !last_snoc.
Qed.

(** A packet that was received before an answer makes the library wait for ever, if the last packet is
    not the answer either.  A loop that waits after it deferred a packet is woken for the answer, looks at the
    last of the earlier packets and waits for a packet that nobody sends; one that does not wait looks at the
    first and the last again and again, and the request is never transmitted. *)
Theorem wait_never_ends fuel : forall waits op s p q,
  head (inbox s) = Some p -> last (inbox s) = Some q -> pk_opcode p <> op -> pk_opcode q <> op -> wait_loop fuel waits op s = OutOfFuel.
Proof using Type.
  induction fuel as [|fuel IH]; intros waits op s p q Hp Hq Hpo Hqo; [done|]. cbn [wait_loop].
  erewrite bind_done by (by apply get_received_head). rewrite (proj2 (Z.eqb_neq _ _)) by done. erewrite bind_done by done.
  destruct (swap_ends_head (inbox s)) as [E1 E2]. set (s1 := with_inbox (swap_ends (inbox s)) s).
  assert (head (inbox s1) = Some q) as Hh by (by cbn; rewrite E1). destruct waits.
  - unfold bind at 1. destruct (io_wait s1) as [[[] s2]| |] eqn:Ew; [|by unfold io_wait in Ew; destruct (transmit_all _ _ _) as [[[? ?] ?] []]|done].
    destruct (io_wait_done _ _ Ew) as (Ho & l & _ & El). destruct fuel as [|fuel]; [done|]. cbn [wait_loop].
    erewrite bind_done by (apply get_received_head; rewrite El; revert Hh; by destruct (inbox s1)).
    rewrite (proj2 (Z.eqb_neq _ _)) by done. erewrite bind_done by done. apply bind_fuel. by apply io_wait_nothing.
  - erewrite bind_done by done. apply (IH _ _ _ q p); [done| |done..]. cbn. by rewrite E2.
Qed.

(** So does [vfprintf], at the first packet that is not the answer. *)
Theorem other_packet_hangs op s p : head (inbox s) = Some p -> pk_opcode p <> op -> wait_only op s = OutOfFuel.
Proof using Type.
  intros Hp Ho. unfold wait_only. erewrite bind_done by (by apply get_received_head). by rewrite (proj2 (Z.eqb_neq _ _)).
Qed.

(** One look, with the result of the wait after it. *)
Lemma look_step fuel waits op s :
  wait_loop (S fuel) waits op s =
    match get_received s with
    | Done (p, s1) =>
      if pk_opcode p =? op then Done (p, with_inbox (tail (inbox s1)) s1) else
      match (if waits then io_wait else ret tt) (with_inbox (swap_ends (inbox s1)) s1) with
      | Done (_, s2) => wait_loop fuel waits op s2
      | Panicked why => Panicked why
      | OutOfFuel => OutOfFuel
      end
    | Panicked why => Panicked why
    | OutOfFuel => OutOfFuel
    end.
Proof using Type. cbn [wait_loop]. unfold bind at 1. destruct (get_received s) as [[p s1]| |]; [|done..]. by case_match. Qed.

Lemma get_received_is_head s p s1 : get_received s = Done (p, s1) -> head (inbox s1) = Some p.
Proof using Type.
  unfold get_received. erewrite (bind_done get) by done. destruct (inbox s) as [|x l] eqn:Ei; [|intros [= -> ->]; by rewrite Ei].
  unfold bind at 1. destruct (io_wait s) as [[[] s']| |]; [|done..]. erewrite (bind_done get) by done. destruct (head (inbox s')) eqn:Eh; [|done].
  by intros [= -> ->].
Qed.

(** The loop finds the answer at its first or second look, or never. *)
Lemma wait_two fuel waits op s : wait_loop (2 + fuel) waits op s = wait_loop 2 waits op s.
Proof using Type.
  change (2 + fuel)%nat with (S (S fuel)). rewrite (look_step (S fuel)), (look_step 1). destruct (get_received s) as [[p s1]| |] eqn:Eg; [|done..].
  apply get_received_is_head in Eg. destruct (Z.eqb_spec (pk_opcode p) op) as [|Hp]; [done|]. destruct (swap_ends_head (inbox s1)) as [E1 E2].
  destruct (last (inbox s1)) as [q|] eqn:El; [|apply last_None in El; by rewrite El in Eg]. set (s2 := with_inbox _ s1). destruct waits.
  - destruct (io_wait s2) as [[[] s3]| |] eqn:Ew; [|done..]. destruct (io_wait_done _ _ Ew) as (Ho & l & _ & Ei). rewrite !look_step.
    rewrite (get_received_head s3 q) by (rewrite Ei; cbn [s2 with_inbox inbox]; revert E1; by destruct (swap_ends (inbox s1))).
    case_match; [done|]. by rewrite io_wait_nothing.
  - unfold ret. rewrite !look_step, (get_received_head s2 q) by done. destruct (Z.eqb_spec (pk_opcode q) op) as [|Hq]; [done|]. unfold ret.
    destruct (swap_ends_head (swap_ends (inbox s1))) as [E3 E4]. apply (wait_never_ends fuel _ _ _ p q); cbn [s2 inbox with_inbox]; congruence.
Qed.

(** A packet that is the only one and is answered with one. *)
Lemma get_received_answer s p t m r :
  inbox s = [] -> outbox s = [p] -> serve (srv s) p (mem s) = (t, m, [r]) ->
  get_received s = Done (r, mkIo m t [] [r] (sent s ++ [(p, peek (mem s) (pk_data p) (pk_data_length p))]) (files s) (files_count s)
    (universal_buffer s) (universal_buffer_size s)).
Proof using Type.
  intros Hi Ho Hs. unfold get_received. erewrite bind_done by done. rewrite Hi. unfold bind at 1, io_wait. rewrite Ho. cbn [transmit_all]. rewrite Hs.
  cbn [app]. by rewrite Hi.
Qed.

(** ** Streams *)

(** The path of a file: none, or a string that the buffer does not touch. *)
Definition path_at (s : Io) (f : FILE) (path : list Z) : Prop :=
  _path f = NULL /\ path = [] \/
  _path f <> NULL /\ cstr_at (mem s) (_path f) path /\
    (_path f + zlen path < universal_buffer s \/ universal_buffer s + universal_buffer_size s <= _path f).

Lemma path_len_spec s f path : path_at s f path -> path_len f s = Done (zlen path, s).
Proof using Type.
  unfold path_len. intros [[-> ->]|(Hn & Hp & _)]; [done|]. rewrite (proj2 (Z.eqb_neq _ _)) by done.
  erewrite on_mem_done by by apply strlen_spec. by destruct s.
Qed.

Lemma path_at_put s f path l :
  path_at s f path -> zlen l <= universal_buffer_size s -> path_at (with_mem (put (universal_buffer s) l (mem s)) s) f path.
Proof using Type.
  intros [?|(Hn & [Hp H0] & Hd)] Hl; [by left|]. right. split; [done|]. split; [|done]. split; [|done]. cbn [with_mem mem].
  apply bytes_at_put; [done|]. rewrite zlen_app. change (zlen [0]) with 1. lia.
Qed.

Lemma file_spec s stream f : nth_z (files s) stream = Some f -> file stream s = Done (f, s).
Proof using Type. intros Hf. unfold file. erewrite bind_done by done. by rewrite Hf. Qed.

Lemma advance_spec s stream f n :
  nth_z (files s) stream = Some f ->
  advance stream n s = Done (tt, with_files (set_z (files s) stream (mkFILE (_uuid f) (wrap 64 (_position f + n)) (_address f) (_path f))) s).
Proof using Type.
  intros Hf. unfold advance. erewrite bind_done by by apply file_spec. unfold set_position, modify. by rewrite Hf.
Qed.

(** The packet the library makes for a stream. *)
Definition packet_of (s : Io) (op : Z) (uuid : Z * Z) (f : FILE) (path : list Z) (length : Z) : Packet :=
  mkPacket uuid (universal_buffer s) (_path f) (_position f) length (_address f) 0 (wrap 16 (zlen path)) (slot_id (List.length (sent s))) op.

Lemma stream_packet_spec s op uuid stream f path n :
  nth_z (files s) stream = Some f -> path_at s f path -> stream_packet op uuid stream n s = Done (packet_of s op uuid f path n, s).
Proof using Type.
  intros Hf Hp. unfold stream_packet. erewrite bind_done by by apply file_spec. erewrite bind_done by by apply path_len_spec. done.
Qed.

(** Submitting a packet that is answered, and waiting for the answer. *)
Lemma ask_spec {X} s waits p op t m r (k : Packet -> M Io X) :
  serve (srv s) p (mem s) = (t, m, [r]) -> pk_opcode r = op -> idle s ->
  bind (submit p) (fun _ => bind (wait_for waits op) k) s =
  k r (mkIo m t [] [] (sent s ++ [(p, peek (mem s) (pk_data p) (pk_data_length p))]) (files s) (files_count s) (universal_buffer s)
         (universal_buffer_size s)).
Proof using Type.
  intros E Hr [Hi Ho]. erewrite bind_done by done. unfold bind at 1, wait_for. rewrite look_step.
  rewrite (get_received_answer _ p t m r) by (done || by cbn; rewrite Ho). by rewrite Hr, Z.eqb_refl.
Qed.

(** [fwrite] of an area that fits the buffer sends one packet to the server of the file, with the
    path and the position of the file and exactly the bytes of the area.  It returns what the server says
    it took and moves the position by that much. *)
Theorem fwrite_sends s ptr size count stream data f path t m r :
  wrap 64 (size * count) = zlen data -> 0 < zlen data <= universal_buffer_size s -> bytes_at (mem s) ptr data ->
  room (mem s) (universal_buffer s) (zlen data) -> universal_buffer s <= ptr \/ ptr + zlen data <= universal_buffer s ->
  nth_z (files s) stream = Some f -> path_at s f path -> idle s ->
  let pkt := packet_of s OP_WRITE (0, wrap 64 (-1)) f path (zlen data) in
  serve (srv s) pkt (put (universal_buffer s) data (mem s)) = (t, m, [r]) -> pk_opcode r = OP_WRITE -> 0 <= pk_data_length r <= zlen data ->
  fwrite ptr size count stream s = Done (pk_data_length r,
    mkIo m t [] [] (sent s ++ [(pkt, data)])
      (set_z (files s) stream (mkFILE (_uuid f) (wrap 64 (_position f + pk_data_length r)) (_address f) (_path f)))
      (files_count s) (universal_buffer s) (universal_buffer_size s)).
Proof using Type.
  intros Ht Hl Hb Hr Hd Hf Hp Hi pkt Hs Hop Hn. assert (fits 64 (zlen data)) as Hfit by (rewrite <-Ht; by apply wrap_fits).
  unfold fwrite. rewrite Ht. cbn [fwrite_loop]. rewrite (proj2 (Z.ltb_lt 0 _)) by lia.
  erewrite bind_done by done. assert (chunk s (zlen data - 0) = zlen data) as -> by (unfold chunk; case_match; lia). cbv zeta.
  erewrite bind_done by (apply on_mem_done, copy_up_spec; [done..|unfold zlen; lia]).
  erewrite bind_done by (apply (stream_packet_spec _ _ _ _ f path); [done|apply path_at_put; [done|lia]]).
  rewrite (ask_spec _ _ _ _ t m r) by done. erewrite bind_done by (by apply (advance_spec _ _ f)). cbn [with_files mem with_mem packet_of pk_data pk_data_length universal_buffer].
  rewrite peek_put, (wrap_small 64 (0 + _)) by (unfold fits in *; lia). rewrite Z.add_0_l.
  destruct (Z.ltb_spec (pk_data_length r) (zlen data)); [done|]. replace (pk_data_length r) with (zlen data) by lia.
  destruct (Z.to_nat (zlen data)) eqn:E; [lia|]. cbn [fwrite_loop]. by rewrite Z.ltb_irrefl.
Qed.

(** [fread] copies what the server answered to the memory of the caller, returns its length and moves
    the position by it.  The length is that of the answer, whatever was asked for: the packet always asks for
    4096 bytes, and an answer that is longer than [size * count] is copied past the end of the area. *)
Theorem fread_copies s ptr size count stream data f path t m r :
  let total := wrap 64 (size * count) in
  0 < total -> nth_z (files s) stream = Some f -> path_at s f path -> idle s ->
  let pkt := packet_of s OP_READ (wrap 64 (-1), 0) f path 0x1000 in
  serve (srv s) pkt (mem s) = (t, m, [r]) -> pk_opcode r = OP_READ -> pk_data_length r = zlen data -> fits 64 (zlen data) ->
  bytes_at m (universal_buffer s) data -> room m ptr (zlen data) ->
  ptr <= universal_buffer s \/ universal_buffer s + zlen data <= ptr ->
  zlen data < chunk s total \/ total <= zlen data ->
  fread ptr size count stream s = Done (zlen data,
    mkIo (put ptr data m) t [] [] (sent s ++ [(pkt, peek (mem s) (universal_buffer s) 4096)])
      (set_z (files s) stream (mkFILE (_uuid f) (wrap 64 (_position f + zlen data)) (_address f) (_path f)))
      (files_count s) (universal_buffer s) (universal_buffer_size s)).
Proof using Type.
  intros total Ht Hf Hp Hi pkt Hs Hop Hn Hfit Hb Hr Hd Hend. unfold fread. fold total. cbv zeta. cbn [fread_loop].
  rewrite (proj2 (Z.ltb_lt 0 _)) by lia. erewrite bind_done by done. rewrite Z.sub_0_r.
  erewrite bind_done by (by apply (stream_packet_spec _ _ _ _ f path)). fold pkt. rewrite (ask_spec _ _ _ _ t m r) by done. rewrite Hn.
  erewrite bind_done by (by apply on_mem_done, memcpy_spec). erewrite bind_done by (by apply (advance_spec _ _ f)).
  rewrite Z.add_0_l, wrap_small by done. destruct (Z.ltb_spec (zlen data) (chunk s total)) as [|Hc]; [done|].
  destruct Hend as [|Hend]; [lia|]. destruct (Z.to_nat total) eqn:E; [lia|]. cbn [fread_loop]. by rewrite (proj2 (Z.ltb_ge _ _)) by lia.
Qed.

(** ** Gathering *)

(** The bytes that are left. *)
Fixpoint remaining (m : Mem) (iov : list (Z * Z)) (base_offset : Z) : list Z :=
  match iov with
  | [] => []
  | (base, len) :: rest => peek m (base + base_offset) (len - base_offset) ++ remaining m rest 0
  end.

(** An area that can be read and lies apart from the buffer. *)
Definition area_ok (s : Io) (x : Z * Z) : Prop :=
  0 <= x.2 /\ room (mem s) x.1 x.2 /\ (x.1 + x.2 <= universal_buffer s \/ universal_buffer s + universal_buffer_size s <= x.1).

Lemma peek_cons m a n x : 0 < n -> m !! a = Some x -> peek m a n = x :: peek m (a + 1) (n - 1).
Proof using Type.
  intros Hn Hx. apply nth_z_ext.
  - rewrite zlen_cons, !zlen_peek by lia. lia.
  - intros i Hi. rewrite zlen_peek in Hi by lia. rewrite nth_peek by lia. destruct (decide (i = 0)) as [->|Hi0]; [by rewrite Z.add_0_r, Hx|].
    rewrite nth_z_tail, nth_peek by lia. do 3 f_equal. lia.
Qed.

Lemma peek_nil m a n : n <= 0 -> peek m a n = [].
Proof using Type. intros. unfold peek. by rewrite seqZ_nil by lia. Qed.

Lemma remaining_frame s m' iov : forall o, 0 <= o -> Forall (area_ok s) iov ->
  (forall a, a < universal_buffer s \/ universal_buffer s + universal_buffer_size s <= a -> m' !! a = mem s !! a) ->
  remaining m' iov o = remaining (mem s) iov o.
Proof using Type.
  induction iov as [|[b n] iov IH]; intros o Ho Hok Hm; [done|]. apply Forall_cons in Hok as [(Hn & _ & Hd) Hok]. cbn in *. f_equal; [|by apply IH].
  unfold peek. apply list_fmap_ext. intros k i Hi%lookup_seqZ. rewrite Hm; [done|]. lia.
Qed.

Lemma take_Z_cons {A} n (x : A) l : 0 < n -> take (Z.to_nat n) (x :: l) = x :: take (Z.to_nat (n - 1)) l.
Proof using Type. intros. by replace (Z.to_nat n) with (S (Z.to_nat (n - 1))) by lia. Qed.

Lemma drop_Z_cons {A} n (x : A) l : 0 < n -> drop (Z.to_nat n) (x :: l) = drop (Z.to_nat (n - 1)) l.
Proof using Type. intros. by replace (Z.to_nat n) with (S (Z.to_nat (n - 1))) by lia. Qed.

Definition offset_ok (iov : list (Z * Z)) (o : Z) : Prop := 0 <= o /\ match iov with [] => o = 0 | (_, n) :: _ => o <= n end.

(** What [gather] leaves after it copied [k] bytes to [copied]. *)
Definition gathered (s : Io) (iov : list (Z * Z)) (o copied : Z) (r : outcome (list (Z * Z) * Z * Z * Io)) : Prop :=
  let R := remaining (mem s) iov o in
  let k := Z.min (universal_buffer_size s - copied) (zlen R) in
  exists iov' o', r = Done (iov', o', copied + k, with_mem (put (universal_buffer s + copied) (take (Z.to_nat k) R) (mem s)) s) /\
    remaining (mem s) iov' o' = drop (Z.to_nat k) R /\ Forall (area_ok s) iov' /\ offset_ok iov' o'.

Lemma area_ok_put s a l iov : Forall (area_ok s) iov -> Forall (area_ok (with_mem (put a l (mem s)) s)) iov.
Proof using Type. intros Hok. eapply Forall_impl; [exact Hok|]. intros x (Hn & Hr & Hd). split; [done|]. split; [by apply put_room|done]. Qed.

Lemma gather_stop s iov o c : Forall (area_ok s) iov -> offset_ok iov o -> remaining (mem s) iov o = [] \/ c = universal_buffer_size s ->
  0 <= c <= universal_buffer_size s -> gathered s iov o c (Done (iov, o, c, s)).
Proof using Type.
  intros Hok Ho Hend Hc. unfold gathered. set (R := remaining (mem s) iov o) in *. set (k := Z.min _ _).
  assert (k = 0) as ->. { unfold k. pose proof (zlen_nonneg R). destruct Hend as [->| ->]; [change (zlen []) with 0|]; lia. }
  exists iov, o. rewrite Z.add_0_r. split; [|done]. by destruct s.
Qed.

(** A byte that was copied to the buffer does not change what is left. *)
Lemma remaining_stored s c x iov o : 0 <= c < universal_buffer_size s -> 0 <= o -> Forall (area_ok s) iov ->
  remaining (put (universal_buffer s + c) [x] (mem s)) iov o = remaining (mem s) iov o.
Proof using Type. intros Hc Ho Hok. apply remaining_frame; [done..|]. intros a Ha. apply put_out. change (zlen [x]) with 1. lia. Qed.

Lemma remaining_cons m b n rest o x : o < n -> m !! (b + o) = Some x ->
  remaining m ((b, n) :: rest) o = x :: remaining m ((b, n) :: rest) (o + 1).
Proof using Type.
  intros Ho Hx. cbn [remaining]. rewrite (peek_cons _ _ _ x) by (done || lia). cbn [app].
  by replace (b + o + 1) with (b + (o + 1)) by lia; replace (n - o - 1) with (n - (o + 1)) by lia.
Qed.

Lemma gather_step s iov b n rest o c x k :
  iov = (b, n) :: rest -> area_ok s (b, n) -> 0 <= o < n -> mem s !! (b + o) = Some x -> 0 <= c < universal_buffer_size s ->
  Forall (area_ok s) iov ->
  gathered (with_mem (<[universal_buffer s + c := x]> (mem s)) s) iov (o + 1) (c + 1) k -> gathered s iov o c k.
Proof using Type.
  intros -> (Hn & Hr & Hd) Ho Hx Hc Hok (iov' & o' & E & ER & Hok' & Ho'). cbn [fst snd] in *.
  set (s1 := with_mem _ s) in *. change (<[universal_buffer s + c := x]> (mem s)) with (put (universal_buffer s + c) [x] (mem s)) in *.
  assert (forall iov o, 0 <= o -> Forall (area_ok s) iov -> remaining (mem s1) iov o = remaining (mem s) iov o) as Hrem by (intros; by apply remaining_stored).
  pose proof (remaining_cons (mem s) b n rest o x ltac:(lia) Hx) as ERo.
  assert (Forall (area_ok s) iov') as Hok''.
  { eapply Forall_impl; [exact Hok'|]. intros y (? & Hry & Hdy). split; [done|]. split; [|done].
    change (y.1 + y.2 <= universal_buffer s \/ universal_buffer s + universal_buffer_size s <= y.1) in Hdy. intros i Hi. specialize (Hry i Hi). cbn [with_mem mem s1 put] in Hry.
    destruct (decide (universal_buffer s + c = y.1 + i)) as [Heq|Hne]; [|by rewrite lookup_insert_ne in Hry]. lia. }
  unfold gathered. rewrite ERo, zlen_cons. rewrite (Hrem ((b, n) :: rest)) in E, ER by (done || lia). rewrite Hrem in ER by (done || apply Ho').
  change (universal_buffer_size s1) with (universal_buffer_size s) in E, ER. change (universal_buffer s1) with (universal_buffer s) in E.
  set (R := remaining (mem s) ((b, n) :: rest) (o + 1)) in *. pose proof (zlen_nonneg R).
  exists iov', o'. split_and!; [|rewrite ER, drop_Z_cons by lia; f_equal; lia|done|done].
  rewrite E. rewrite take_Z_cons by lia. rewrite <-put_cons.
  replace (Z.min (universal_buffer_size s - (c + 1)) (zlen R)) with (Z.min (universal_buffer_size s - c) (1 + zlen R) - 1) by lia.
  replace (c + 1 + (Z.min (universal_buffer_size s - c) (1 + zlen R) - 1)) with (c + Z.min (universal_buffer_size s - c) (1 + zlen R)) by lia.
  by rewrite Z.add_assoc.
Qed.

Lemma gather_spec fuel : forall s iov o c,
  Forall (area_ok s) iov -> offset_ok iov o ->
  room (mem s) (universal_buffer s) (Z.min (universal_buffer_size s) (c + zlen (remaining (mem s) iov o))) ->
  0 <= c <= universal_buffer_size s -> (iov_fuel iov <= fuel + Z.to_nat o)%nat -> gathered s iov o c (gather fuel iov o c s).
Proof using Type.
  induction fuel as [|fuel IH]; intros s iov o c Hok Ho Hr Hc Hf.
  { exfalso. destruct Ho as [Ho0 Ho]. destruct iov as [|[b n] rest]; cbn in *; lia. }
  destruct iov as [|[b n] rest]; cbn [gather]; [apply gather_stop; [done..|by left|done]|].
  pose proof Hok as [(Hn & Hrb & Hd) Hrest]%Forall_cons. destruct Ho as [Ho0 Ho]. cbn [fst snd] in *. destruct (Z.ltb_spec o n) as [Hlt|Hge].
  - erewrite bind_done by done. destruct (Z.ltb_spec c (universal_buffer_size s)) as [Hroom|Hfull].
    + destruct (Hrb o ltac:(lia)) as [x Hx]. erewrite bind_done by (apply on_mem_done; by apply ldb_at).
      rewrite (remaining_cons _ _ _ _ _ x), zlen_cons in Hr by (done || lia). pose proof (zlen_nonneg (remaining (mem s) ((b, n) :: rest) (o + 1))).
      erewrite bind_done by (apply on_mem_done, stb_at, Hr; lia).
      apply (gather_step _ _ b n rest _ _ x); [done|done|lia|done|lia|done|]. apply IH; [by apply (area_ok_put s _ [x])|split; lia| |cbn; lia|lia].
      cbn [with_mem mem universal_buffer universal_buffer_size]. change (<[universal_buffer s + c := x]> (mem s)) with (put (universal_buffer s + c) [x] (mem s)).
      rewrite remaining_stored by (done || lia). apply put_room. eapply room_le; [exact Hr|lia].
    + apply gather_stop; [done|by split|right; lia|done].
  - assert (o = n) as -> by lia. change (iov_fuel ((b, n) :: rest)) with (S (Z.to_nat n) + iov_fuel rest)%nat in Hf.
    assert (gathered s rest 0 c (gather fuel rest 0 c s)) as (iov' & o' & E & ER & Hok' & Ho').
    { apply IH; [done|split; [lia|]| |done|lia].
      - destruct rest as [|[b' n'] rest]; [done|]. by apply Forall_cons in Hrest as [[? _] _].
      - cbn [remaining] in Hr. by rewrite peek_nil in Hr by lia. }
    exists iov', o'. cbn [remaining]. rewrite peek_nil by lia. done.
Qed.

(** The offset of every packet is the number of bytes in the packets before it. *)
Fixpoint offsets_from (n : Z) (ps : list (Packet * list Z)) : Prop :=
  match ps with
  | [] => True
  | (p, l) :: ps => pk_data_offset p = wrap 64 n /\ offsets_from (n + zlen l) ps
  end.

(** A packet of [writev] with data that fits the buffer. *)
Definition write_packet (s : Io) (x : Packet * list Z) : Prop :=
  pk_opcode x.1 = OP_WRITE /\ pk_data x.1 = universal_buffer s /\ pk_data_length x.1 = zlen x.2 /\ 0 < zlen x.2 <= universal_buffer_size s.

Definition sends_all (s : Io) (R : list Z) (total : Z) (r : outcome (Z * Io)) : Prop :=
  exists n s' ps, r = Done (n, s') /\ sent s' = sent s ++ ps /\ concat ps.*2 = R /\ Forall (write_packet s) ps /\ idle s' /\
    (forall a, a < universal_buffer s \/ universal_buffer s + universal_buffer_size s <= a -> mem s' !! a = mem s !! a) /\
    ((forall t p m t' m' q, serve t p m = (t', m', [q]) -> pk_data_length q = pk_data_length p) -> n = wrap 64 (total + zlen R) /\ offsets_from total ps).

(** A server that answers every packet to write and does not write to the memory of its clients. *)
Definition write_server : Prop := forall t p m, pk_opcode p = OP_WRITE -> exists t' q, serve t p m = (t', m, [q]) /\ pk_opcode q = OP_WRITE.

Lemma sends_all_step s R k pkt t q total r (s1 := mkIo (put (universal_buffer s) (take (Z.to_nat k) R) (mem s)) t [] []
    (sent s ++ [(pkt, take (Z.to_nat k) R)]) (files s) (files_count s) (universal_buffer s) (universal_buffer_size s)) :
  0 < k <= zlen R -> k <= universal_buffer_size s -> write_packet s (pkt, take (Z.to_nat k) R) -> pk_data_offset pkt = wrap 64 total ->
  serve (srv s) pkt (put (universal_buffer s) (take (Z.to_nat k) R) (mem s)) = (t, mem s1, [q]) ->
  sends_all s1 (drop (Z.to_nat k) R) (total + pk_data_length q) r -> sends_all s R total r.
Proof using Type.
  intros Hk Hkb Hp Hoff Hq (n & s' & ps & E & Es & Ec & Hps & Ei & Em & Hall).
  assert (zlen (take (Z.to_nat k) R) = k) as Hlen by (unfold zlen in *; rewrite length_take; lia).
  exists n, s', ((pkt, take (Z.to_nat k) R) :: ps). split_and!; [done| | |by constructor|done| |].
  - rewrite Es. cbn. by rewrite <-(assoc_L (++)).
  - cbn. rewrite Ec. apply take_drop.
  - intros a Ha. rewrite Em by done. cbn. apply put_out. rewrite Hlen. lia.
  - intros Hserve. destruct (Hall Hserve) as [-> Ho]. rewrite (Hserve _ _ _ _ _ _ Hq) in *. destruct Hp as (_ & _ & Hpl & _). cbn in Hpl. rewrite Hpl, Hlen in *.
    split; [|cbn; by rewrite Hlen]. f_equal. unfold zlen in *. rewrite length_drop. lia.
Qed.

Lemma offsets_from_wrap ps : forall n n', wrap 64 n = wrap 64 n' -> offsets_from n ps -> offsets_from n' ps.
Proof using Type.
  induction ps as [|[p l] ps IH]; intros n n' Hn; [done|]. intros [Ho H]. split; [by rewrite Ho|]. revert H. apply IH.
  by rewrite <-(wrap_add_l 64 n), <-(wrap_add_l 64 n'), Hn.
Qed.

Lemma sends_all_wrap s R n r : sends_all s R (wrap 64 n) r -> sends_all s R n r.
Proof using Type.
  intros (v & s' & ps & E & Es & Ec & Hps & Ei & Em & Hall). exists v, s', ps. split_and!; [done..|]. intros Hs. destruct (Hall Hs) as [-> Ho].
  split; [by rewrite wrap_add_l|]. eapply offsets_from_wrap; [|exact Ho]. by rewrite wrap_wrap.
Qed.

Lemma writev_loop_spec : write_server -> forall fuel s iov o total,
  Forall (area_ok s) iov -> offset_ok iov o ->
  room (mem s) (universal_buffer s) (Z.min (universal_buffer_size s) (zlen (remaining (mem s) iov o))) -> 0 < universal_buffer_size s ->
  idle s -> (length (remaining (mem s) iov o) < fuel)%nat -> fits 64 total ->
  sends_all s (remaining (mem s) iov o) total (writev_loop fuel iov o total s).
Proof using Type.
  intros Hserve. induction fuel as [|fuel IH]; intros s iov o total Hok Ho Hr Hsz Hi Hf Ht; [lia|]. cbn [writev_loop].
  destruct (gather_spec (iov_fuel iov) s iov o 0 Hok Ho Hr ltac:(lia) ltac:(lia)) as (iov' & o' & E & ER & Hok' & Ho').
  set (R := remaining (mem s) iov o) in *. set (k := Z.min (universal_buffer_size s - 0) (zlen R)) in *. rewrite Z.add_0_l, Z.add_0_r in E. erewrite bind_done by exact E. cbv beta iota.
  pose proof (zlen_nonneg R). destruct (Z.eqb_spec k 0) as [Hk|Hk].
  - assert (R = []) as ER0 by (apply length_zero_iff_nil; unfold zlen in *; lia). rewrite Hk, ER0. cbn [take Z.to_nat put].
    exists total, s, []. split_and!; try done; [by destruct s|by rewrite app_nil_r|].
    intros _. rewrite zlen_nil, Z.add_0_r. split; [by rewrite wrap_small|done].
  - assert (0 < k <= zlen R /\ k <= universal_buffer_size s) as [Hk0 Hkb] by lia.
    assert (zlen (take (Z.to_nat k) R) = k) as Hlen by (unfold zlen in *; rewrite length_take; lia).
    erewrite bind_done by done. set (pkt := mkPacket _ _ _ _ _ _ _ _ _ _).
    destruct (Hserve (srv s) pkt (put (universal_buffer s) (take (Z.to_nat k) R) (mem s)) eq_refl) as (t & q & Eq & Hq).
    rewrite (ask_spec _ _ _ _ t _ q) by done. cbn [with_mem mem inbox sent files files_count universal_buffer universal_buffer_size pkt pk_data pk_data_length].
    pose proof (peek_put (mem s) (universal_buffer s) (take (Z.to_nat k) R)) as Epeek. rewrite Hlen in Epeek. rewrite Epeek.
    apply (sends_all_step s R k pkt t q); [done|done| |cbn; by rewrite wrap_small|done|].
    { unfold write_packet. cbn [fst snd pkt pk_opcode pk_data pk_data_length]. rewrite Hlen. split_and!; done || lia. }
    apply sends_all_wrap. rewrite <-ER. set (s1 := mkIo _ _ _ _ _ _ _ _ _).
    assert (remaining (mem s1) iov' o' = remaining (mem s) iov' o') as Erem.
    { apply remaining_frame; [apply Ho'|done|]. intros a Ha. apply put_out. rewrite Hlen. lia. }
    assert (length (remaining (mem s) iov' o') < length R)%nat as Hdrop by (rewrite ER, length_drop; unfold zlen in *; lia).
    rewrite <-Erem. apply IH; [by apply (area_ok_put s)|done| |done|done|rewrite Erem; lia|by apply wrap_fits].
    rewrite Erem. apply put_room. eapply room_le; [exact Hr|]. cbn [s1 universal_buffer_size]. unfold zlen in *. lia.
Qed.

Lemma remaining_fuel m iov : (length (remaining m iov 0) < iov_fuel iov)%nat.
Proof using Type.
  induction iov as [|[b n] iov IH]; [cbn; lia|]. change (iov_fuel ((b, n) :: iov)) with (S (Z.to_nat n) + iov_fuel iov)%nat. cbn [remaining].
  rewrite length_app. unfold peek. rewrite length_fmap, length_seqZ. lia.
Qed.

(** Copying behind the part of the buffer that is mapped is a fault. *)
Lemma gather_faults fuel : forall s iov o c n,
  Forall (area_ok s) iov -> offset_ok iov o -> room (mem s) (universal_buffer s) n -> mem s !! (universal_buffer s + n) = None ->
  0 <= c <= n -> n < universal_buffer_size s -> n - c < zlen (remaining (mem s) iov o) -> (iov_fuel iov <= fuel + Z.to_nat o)%nat ->
  exists why, gather fuel iov o c s = Panicked why.
Proof using Type.
  induction fuel as [|fuel IH]; intros s iov o c n Hok Ho Hr Hn Hc Hsz Hlen Hf.
  { exfalso. destruct Ho as [Ho0 Ho]. destruct iov as [|[b k] rest]; cbn in *; lia. }
  destruct iov as [|[b k] rest]; [change (zlen (remaining (mem s) [] o)) with 0 in Hlen; lia|]. cbn [gather].
  pose proof Hok as [(Hk & Hrb & Hd) Hrest]%Forall_cons. destruct Ho as [Ho0 Ho]. cbn [fst snd] in *. destruct (Z.ltb_spec o k) as [Hlt|Hge].
  - erewrite bind_done by done. rewrite (proj2 (Z.ltb_lt _ _)) by lia. destruct (Hrb o ltac:(lia)) as [x Hx].
    erewrite bind_done by (apply on_mem_done; by apply ldb_at). rewrite (remaining_cons _ _ _ _ _ x), zlen_cons in Hlen by (done || lia).
    destruct (decide (c = n)) as [->|Hne].
    + unfold bind, on_mem, stb. cbn [with_mem mem]. rewrite Hn. by eexists.
    + erewrite bind_done by (apply on_mem_done, stb_at, Hr; lia).
      apply (IH _ _ _ _ n); cbn [with_mem mem universal_buffer universal_buffer_size]; [by apply (area_ok_put s _ [x])|split; lia|by apply (put_room [x])| |lia|lia| |lia].
      * rewrite lookup_insert_ne by lia. done.
      * pose proof (remaining_stored s c x ((b, k) :: rest) (o + 1)) as E. cbn [put] in E. rewrite E by (done || lia). lia.
  - assert (o = k) as -> by lia. change (iov_fuel ((b, k) :: rest)) with (S (Z.to_nat k) + iov_fuel rest)%nat in Hf.
    cbn [remaining] in Hlen. rewrite peek_nil in Hlen by lia. apply (IH _ _ _ _ n); try done; [split; [lia|]|lia].
    destruct rest as [|[b' n'] rest]; [done|]. by apply Forall_cons in Hrest as [[? _] _].
Qed.

(** Of the buffer, [n] bytes are mapped.  [__posix_init] leaves 4096 of 65536 ([CDir.buffer_one_page_mapped]). *)
Definition buffer_mapped (s : Io) (n : Z) : Prop :=
  0 < n <= universal_buffer_size s /\ room (mem s) (universal_buffer s) n /\
  (n < universal_buffer_size s -> mem s !! (universal_buffer s + n) = None).

(** C37: [writev] sends every byte of its areas, in order, if they fit the [n] bytes of the buffer that are mapped, or
    if all of the buffer is; it faults otherwise.  The library maps one page, so this is the case for up to 4096
    bytes.  The areas are cut into packets that fill the buffer, which the server gets one after the other, and
    the call returns after the last one, whatever lengths the server answers.  Nothing but the buffer is written.
    With a server that takes all the data the result is the number of bytes, and each packet has the offset of its
    data.  No other packet may have been received before the call ([wait_never_ends]). *)
Theorem writev_sends s fd iov n :
  write_server -> Forall (area_ok s) iov -> idle s -> buffer_mapped s n ->
  let data := concat ((fun x => peek (mem s) x.1 x.2) <$> iov) in
  if decide (zlen data <= n \/ n = universal_buffer_size s) then sends_all s data 0 (writev fd iov s)
  else exists why, writev fd iov s = Panicked why.
Proof using Type.
  intros Hserve Hok Hi (Hn & Hr & Hu) data. assert (data = remaining (mem s) iov 0) as ->.
  { unfold data. clear. induction iov as [|[b n] iov IH]; [done|]. cbn. by rewrite IH, Z.add_0_r, Z.sub_0_r. }
  assert (offset_ok iov 0) as Ho by (split; [lia|]; destruct iov as [|[b k] iov]; [done|]; by apply Forall_cons in Hok as [[? _] _]).
  pose proof (zlen_nonneg (remaining (mem s) iov 0)). case_decide as Hd.
  - apply writev_loop_spec; [done..| |lia|done|apply remaining_fuel|done]. eapply room_le; [exact Hr|lia].
  - destruct (gather_faults (iov_fuel iov) s iov 0 0 n Hok Ho Hr (Hu ltac:(lia)) ltac:(lia) ltac:(lia) ltac:(lia) ltac:(lia)) as [why E].
    exists why. unfold writev. destruct (iov_fuel iov) as [|fuel] eqn:Ef; [done|]. cbn [writev_loop]. unfold bind at 1. by rewrite Ef, E.
Qed.

(** ** Formats

    A format of plain characters and conversions without flags, with the arguments of the conversions. *)
Inductive conversion : Type := Dec | UDec | Octal | Hex.

Inductive piece : Type := Char (c : Z) | Conv (k : conversion) (arg : Z).

Definition conv_char (k : conversion) : Z := match k with Dec => 100 | UDec => 117 | Octal => 111 | Hex => 120 end.

Definition conv_text (k : conversion) (arg : Z) : list Z :=
  match k with
  | Dec => signed_text 10 0 (signed 32 arg)
  | UDec => digits 10 false (wrap 32 arg)
  | Octal => digits 8 false (wrap 32 arg)
  | Hex => digits 16 false (wrap 32 arg)
  end.

Definition piece_src (x : piece) : list Z := match x with Char c => [c] | Conv k _ => [37; conv_char k] end.
Definition piece_text (x : piece) : list Z := match x with Char c => [c] | Conv k a => conv_text k a end.
Definition piece_args (x : piece) : list Z := match x with Char _ => [] | Conv _ a => [a] end.

(** A plain character. *)
Definition piece_ok (x : piece) : Prop := match x with Char c => c <> 0 /\ c <> 37 | Conv _ _ => True end.

Definition source (l : list piece) : list Z := concat (piece_src <$> l).
Definition printed (l : list piece) : list Z := concat (piece_text <$> l).
Definition arguments (l : list piece) : list Z := concat (piece_args <$> l).

Lemma conv_writes k a args m ptr size : 0 <= size -> room m ptr (zlen (conv_text k a)) -> 0 < ptr -> zlen (conv_text k a) <= size -> forall c fuel,
  m !! c = Some 37 -> m !! (c + 1) = Some (conv_char k) -> (0 < fuel)%nat ->
  exists fty, determine_format fuel c m = Done (c + 2, fty, m) /\
    std_format ptr size fty (a :: args) m = Done (ptr + zlen (conv_text k a), args, put ptr (conv_text k a) m).
Proof using Type.
  intros Hs Hr Hp Hl c fuel Hc Hk Hf.
  assert (forall (f : M Mem Z), writes f m ptr size (conv_text k a) -> (let* r := f in ret (r, args)) m =
    Done (ptr + zlen (conv_text k a), args, put ptr (conv_text k a) m)) as Hw.
  { intros f (m' & E & Em & _). erewrite bind_done by exact E. rewrite decide_True by done. by rewrite Em. }
  assert (room m ptr (Z.min size (zlen (conv_text k a)))) as Hr' by (eapply room_le; [exact Hr|lia]).
  pose proof (wrap_fits 32 a ltac:(lia)) as Hfit. assert (fits 64 (wrap 32 a)) by (unfold fits in *; lia).
  assert (- 2 ^ 63 < signed 32 a < 2 ^ 63) by (unfold signed, fits in *; case_decide; lia).
  destruct k; cbn [conv_char conv_text] in *; eexists; (split; [by eapply plain_format|]); unfold std_format; rewrite decide_False by done;
    cbn [spec ftype load_arg va_arg obind modifiers]; (apply Hw).
  - by apply format_signed_spec.
  - by apply (format_unsigned_spec _ _ _ _ 10 0).
  - by apply (format_unsigned_spec _ _ _ _ 8 0).
  - by apply (format_unsigned_spec _ _ _ _ 16 0).
Qed.

Lemma fill_out_spec l : forall fuel m out size c ptr args,
  Forall piece_ok l -> bytes_at m c (source l ++ [0]) -> 0 < c -> 0 < out <= ptr ->
  c + zlen (source l) < out \/ out + size <= c -> room m ptr (zlen (printed l)) -> zlen (printed l) <= size - (ptr - out) -> (length l < fuel)%nat ->
  fill_out fuel out size c ptr (arguments l ++ args) m = Done (c + zlen (source l), ptr + zlen (printed l), args, put ptr (printed l) m).
Proof using Type.
  induction l as [|x l IH]; intros [|fuel] m out size c ptr args Hok Hb Hc Hout Hd Hr Hl Hf; cbn [length] in Hf; try lia.
  { apply bytes_at_cons in Hb as [H0 _]. cbn [fill_out]. erewrite bind_done by by apply ldb_at. cbn. by rewrite !Z.add_0_r. }
  apply Forall_cons in Hok as [Hx Hok]. change (source (x :: l)) with (piece_src x ++ source l) in *.
  change (printed (x :: l)) with (piece_text x ++ printed l) in *. change (arguments (x :: l)) with (piece_args x ++ arguments l).
  rewrite <-(assoc_L (++)) in Hb. rewrite <-(assoc_L (++)). apply bytes_at_app in Hb as [Hbx Hb]. rewrite !zlen_app in *.
  pose proof (zlen_nonneg (source l)). pose proof (zlen_nonneg (printed l)). pose proof (zlen_nonneg (piece_text x)). pose proof (zlen_nonneg (piece_src x)).
  assert (fill_out fuel out size (c + zlen (piece_src x)) (ptr + zlen (piece_text x)) (arguments l ++ args) (put ptr (piece_text x) m) =
    Done (c + (zlen (piece_src x) + zlen (source l)), ptr + (zlen (piece_text x) + zlen (printed l)), args, put ptr (piece_text x ++ printed l) m)) as Hrest.
  { rewrite IH; [|done| |lia|lia|lia| |lia|lia].
    - by rewrite !Z.add_assoc, put_app_after.
    - apply bytes_at_put; [done|]. rewrite zlen_app. change (zlen [0]) with 1. lia.
    - apply put_room. intros i Hi. replace (ptr + zlen (piece_text x) + i) with (ptr + (zlen (piece_text x) + i)) by lia. apply Hr. lia. }
  cbn [fill_out]. destruct x as [y|k a]; cbn [piece_src piece_text piece_args] in *.
  - apply bytes_at_cons in Hbx as [Hy _]. erewrite bind_done by by apply ldb_at. destruct Hx as [Hx0 Hx37]. rewrite !(proj2 (Z.eqb_neq y _)) by done.
    change (zlen [y]) with 1 in *. rewrite (proj2 (Z.ltb_lt _ _)) by lia.
    erewrite bind_done by (apply stb_at; rewrite <-(Z.add_0_r ptr); apply Hr; lia). exact Hrest.
  - apply bytes_at_cons in Hbx as [Hy [Hk _]%bytes_at_cons]. erewrite bind_done by by apply ldb_at. cbn [Z.eqb Pos.eqb app].
    destruct (conv_writes k a (arguments l ++ args) m ptr (size - (ptr - out)) ltac:(lia) (room_le m ptr _ (zlen (conv_text k a)) Hr ltac:(lia)) ltac:(lia) ltac:(lia) c (S (base.size m)) Hy Hk ltac:(lia)) as (fty & Ed & Ew).
    erewrite bind_done by exact Ed. cbv beta iota. rewrite (proj2 (Z.eqb_neq (c + 2) _)) by lia. erewrite bind_done by exact Ew. cbv beta iota.
    rewrite (proj2 (Z.eqb_neq (ptr + _) _)) by lia. exact Hrest.
Qed.

(** A piece is printed from at least one character of the format. *)
Lemma source_length l : (length l <= length (source l))%nat.
Proof using Type.
  induction l as [|x l IH]; [done|]. change (source (x :: l)) with (piece_src x ++ source l). rewrite length_app. destruct x; cbn; lia.
Qed.

Lemma source_head l m c : l <> [] -> Forall piece_ok l -> bytes_at m c (source l ++ [0]) -> exists x, m !! c = Some x /\ x <> 0.
Proof using Type.
  destruct l as [|x l]; [done|]. intros _ [Hx _]%Forall_cons Hb. change (source (x :: l)) with (piece_src x ++ source l) in Hb.
  destruct x as [y|k a]; cbn in Hb; apply bytes_at_cons in Hb as [Hy _]; [|by exists 37]. exists y. split; [done|apply Hx].
Qed.

(** [vfprintf] prints.  For a format of plain characters and decimal, octal and hexadecimal conversions whose
    text fits the buffer, and the mapped part of it, the server of the stream gets one packet with exactly that text, every argument
    in its place; the call returns what the server took. *)
Theorem vfprintf_sends s stream format l args f fuel t m r :
  l <> [] -> Forall piece_ok l -> bytes_at (mem s) format (source l ++ [0]) -> 0 < format -> 0 < universal_buffer s ->
  format + zlen (source l) < universal_buffer s \/ universal_buffer s + universal_buffer_size s <= format ->
  room (mem s) (universal_buffer s) (zlen (printed l)) -> zlen (printed l) <= universal_buffer_size s ->
  nth_z (files s) stream = Some f -> idle s -> (1 < fuel)%nat ->
  let pkt := mkPacket (_uuid f) (universal_buffer s) NULL 0 (zlen (printed l)) (_address f) 0 0 (slot_id (length (sent s))) OP_WRITE in
  serve (srv s) pkt (put (universal_buffer s) (printed l) (mem s)) = (t, m, [r]) -> pk_opcode r = OP_WRITE ->
  m !! (format + zlen (source l)) = Some 0 ->
  vfprintf fuel stream format (arguments l ++ args) s = Done (signed 32 (pk_data_length r),
    mkIo m t [] [] (sent s ++ [(pkt, printed l)])
      (set_z (files s) stream (mkFILE (_uuid f) (wrap 64 (_position f + pk_data_length r)) (_address f) (_path f)))
      (files_count s) (universal_buffer s) (universal_buffer_size s)).
Proof using Type.
  intros Hne Hok Hb Hfmt Hub Hd Hr Hl Hf Hi Hfuel pkt Hs Hop H0. destruct fuel as [|[|fuel]]; [lia..|].
  destruct (source_head l _ _ Hne Hok Hb) as (x & Hx & Hx0). pose proof (source_length l). pose proof (room_bound_len _ _ _ Hb) as Hsz. rewrite length_app in Hsz.
  unfold vfprintf. cbn [vfprintf_loop]. erewrite bind_done by (by apply on_mem_done, ldb_at). rewrite (proj2 (Z.eqb_neq x 0)) by done.
  erewrite bind_done by done. cbv zeta. erewrite bind_done.
  2:{ apply on_mem_done. unfold bounded. apply fill_out_spec; cbn [with_mem mem universal_buffer universal_buffer_size]; try done; try lia. }
  cbv beta iota. erewrite bind_done by (by apply file_spec). erewrite bind_done by done. cbn [with_mem mem srv inbox sent files files_count universal_buffer universal_buffer_size].
  replace (universal_buffer s + zlen (printed l) - universal_buffer s) with (zlen (printed l)) by lia. change (wrap 64 0) with 0. fold pkt.
  destruct Hi as [Hi Ho]. erewrite bind_done by done. erewrite bind_done.
  2:{ unfold wait_only. erewrite bind_done by (apply (get_received_answer _ pkt t m r); [exact Hi|cbn; by rewrite Ho|exact Hs]). by rewrite Hop. }
  erewrite bind_done by (by apply (advance_spec _ _ f)). cbn [pop_received modify with_mem with_inbox with_files mem srv inbox sent files files_count universal_buffer universal_buffer_size tail].
  change (pk_data pkt) with (universal_buffer s). change (pk_data_length pkt) with (zlen (printed l)). rewrite peek_put.
  erewrite bind_done by (by apply on_mem_done, ldb_at). done.
Qed.

(** Text that does not fit the buffer is never sent: the loop that fills the buffer waits for room it does not make. *)
Lemma fill_out_hangs l : forall fuel m out size c ptr args,
  Forall (fun x => x <> 0 /\ x <> 37) l -> bytes_at m c l -> out <= ptr -> c + zlen l <= out \/ out + size <= c ->
  room m ptr (size - (ptr - out)) -> 0 <= size - (ptr - out) < zlen l -> fill_out fuel out size c ptr args m = OutOfFuel.
Proof using Type.
  induction l as [|x l IH]; intros fuel m out size c ptr args Hok Hb Hout Hd Hr Hl; [change (zlen (@nil Z)) with 0 in Hl; lia|].
  apply Forall_cons in Hok as [[Hx0 Hx37] Hok]. apply bytes_at_cons in Hb as [Hx Hb]. rewrite zlen_cons in *.
  induction fuel as [|fuel IHf]; [done|]. cbn [fill_out]. erewrite bind_done by by apply ldb_at. rewrite !(proj2 (Z.eqb_neq x _)) by done.
  destruct (Z.ltb_spec (ptr - out) size) as [Hlt|Hge]; [|done].
  erewrite bind_done by (apply stb_at; rewrite <-(Z.add_0_r ptr); apply Hr; lia). change (<[ptr := x]> m) with (put ptr [x] m).
  apply IH; [done| |lia|lia| |lia].
  - apply bytes_at_put; [done|]. change (zlen [x]) with 1. lia.
  - apply put_room. intros i Hi. replace (ptr + 1 + i) with (ptr + (1 + i)) by lia. apply Hr. lia.
Qed.

(** [vfprintf] of plain text that is longer than the buffer never returns, if all of the buffer is mapped. *)
Theorem long_text_hangs s stream format l args fuel :
  Forall (fun x => x <> 0 /\ x <> 37) l -> bytes_at (mem s) format l ->
  format + zlen l <= universal_buffer s \/ universal_buffer s + universal_buffer_size s <= format ->
  room (mem s) (universal_buffer s) (universal_buffer_size s) -> 0 <= universal_buffer_size s < zlen l ->
  vfprintf fuel stream format args s = OutOfFuel.
Proof using Type.
  intros Hok Hb Hd Hr Hl. destruct fuel as [|fuel]; [done|]. unfold vfprintf. cbn [vfprintf_loop].
  destruct l as [|x l]; [change (zlen (@nil Z)) with 0 in Hl; lia|]. pose proof Hb as [Hx _]%bytes_at_cons. pose proof Hok as [[Hx0 _] _]%Forall_cons.
  erewrite bind_done by (by apply on_mem_done, ldb_at). rewrite (proj2 (Z.eqb_neq x 0)) by done. erewrite bind_done by done. cbv zeta.
  apply bind_fuel. unfold on_mem, bounded. cbn [with_mem mem]. rewrite (fill_out_hangs (x :: l)); cbn [with_mem universal_buffer universal_buffer_size]; try done; try lia.
  intros i Hi. apply Hr. lia.
Qed.

(** Plain text that is longer than the mapped part of the buffer is a fault. *)
Lemma fill_out_faults l : forall fuel m out size c ptr args n,
  Forall (fun x => x <> 0 /\ x <> 37) l -> bytes_at m c l -> out <= ptr -> c + zlen l <= out \/ out + size <= c ->
  room m ptr (n - (ptr - out)) -> m !! (out + n) = None -> n < size -> 0 <= n - (ptr - out) < zlen l -> (length l <= fuel)%nat ->
  exists why, fill_out fuel out size c ptr args m = Panicked why.
Proof using Type.
  induction l as [|x l IH]; intros fuel m out size c ptr args n Hok Hb Hout Hd Hr Hn Hsz Hl Hf; [change (zlen (@nil Z)) with 0 in Hl; lia|].
  destruct fuel as [|fuel]; cbn [length] in Hf; [lia|].
  apply Forall_cons in Hok as [[Hx0 Hx37] Hok]. apply bytes_at_cons in Hb as [Hx Hb]. rewrite zlen_cons in *. cbn [fill_out].
  erewrite bind_done by by apply ldb_at. rewrite !(proj2 (Z.eqb_neq x _)) by done. rewrite (proj2 (Z.ltb_lt _ _)) by lia. destruct (decide (ptr = out + n)) as [->|Hne].
  - unfold bind, stb. rewrite Hn. by eexists.
  - erewrite bind_done by (apply stb_at; rewrite <-(Z.add_0_r ptr); apply Hr; lia). change (<[ptr := x]> m) with (put ptr [x] m).
    apply (IH _ _ _ _ _ _ _ n); try done; try lia.
    + apply bytes_at_put; [done|]. change (zlen [x]) with 1. lia.
    + apply put_room. intros i Hi. replace (ptr + 1 + i) with (ptr + (1 + i)) by lia. apply Hr. lia.
    + rewrite put_out; [done|]. change (zlen [x]) with 1. lia.
Qed.

(** [vfprintf] of plain text that is longer than the mapped part of the buffer, a page as the library starts,
    is a fault. *)
Theorem long_text_faults s stream format l args fuel n :
  Forall (fun x => x <> 0 /\ x <> 37) l -> bytes_at (mem s) format l ->
  format + zlen l <= universal_buffer s \/ universal_buffer s + universal_buffer_size s <= format ->
  buffer_mapped s n -> n < universal_buffer_size s -> n < zlen l -> (0 < fuel)%nat -> exists why, vfprintf fuel stream format args s = Panicked why.
Proof using Type.
  intros Hok Hb Hd (Hn & Hr & Hu) Hlt Hl Hf. destruct fuel as [|fuel]; [lia|]. unfold vfprintf. cbn [vfprintf_loop].
  destruct l as [|x l]; [change (zlen (@nil Z)) with 0 in Hl; lia|]. pose proof Hb as [Hx _]%bytes_at_cons. pose proof Hok as [[Hx0 _] _]%Forall_cons.
  erewrite bind_done by (by apply on_mem_done, ldb_at). rewrite (proj2 (Z.eqb_neq x 0)) by done. erewrite bind_done by done. cbv zeta.
  pose proof (room_bound_len _ _ _ Hb). unfold bind at 1, on_mem at 1, bounded. cbn [with_mem mem universal_buffer universal_buffer_size].
  destruct (fill_out_faults (x :: l) (S (size (mem s))) (mem s) (universal_buffer s) (universal_buffer_size s) format (universal_buffer s) args n)
    as [why ->]; try done; try lia; [intros i Hi; apply Hr; lia|by apply Hu|by exists why].
Qed.

(** ** Paths *)

(** The mode at [mode] is one the library accepts. *)
Definition mode_ok (m : Mem) (mode : Z) : Prop := exists flags,
  bounded (fun fuel => mode_flags fuel mode 0) m = Done (Some flags, m) /\ flags <> 0 /\ flags <> MODE_UPDATE.

(** [path] lies at [p], apart from the buffer for paths. *)
Definition path_arg (m : Mem) (path_buf p : Z) (path : list Z) : Prop :=
  cstr_at m p path /\ zlen path < 4095 /\ (p + zlen path < path_buf \/ path_buf + 4096 <= p).

Lemma fopen_spec s path_buf p mode path cwd :
  mode_ok (mem s) mode -> path_arg (mem s) path_buf p path -> room (mem s) path_buf 4096 ->
  nth_z (files s) 3 = Some cwd -> 0 <= files_count s < zlen (files s) ->
  fopen path_buf p mode s = Done (Some (files_count s),
    mkIo (put path_buf (path ++ [0]) (mem s)) (srv s) (outbox s) (inbox s) (sent s)
      (set_z (files s) (files_count s) (mkFILE (0, 0) 0 (_address cwd) path_buf)) (wrap 64 (files_count s + 1))
      (universal_buffer s) (universal_buffer_size s)).
Proof using Type.
  intros (flags & Efl & Hf0 & Hf8) (Hp & Hl & Hd) Hr Hcwd Hc. pose proof (zlen_nonneg path). unfold fopen. erewrite bind_done by (by apply on_mem_done).
  cbv iota. rewrite !(proj2 (Z.eqb_neq flags _)) by done. cbn [orb]. erewrite bind_done by done. erewrite bind_done by (by apply file_spec).
  erewrite bind_done by (apply on_mem_done; by apply strlen_spec). cbv zeta. rewrite (proj2 (Z.ltb_lt _ _)) by lia.
  erewrite bind_done.
  2:{ apply on_mem_done, memcpy_spec; [|intros i Hi; apply Hr; lia|lia]. destruct Hp as [Hp _]. by apply bytes_at_app in Hp as [Hp _]. }
  erewrite bind_done by (apply on_mem_done, stb_at, put_room with (n := 4096); [done|lia]).
  erewrite bind_done by (unfold set_file; rewrite decide_True by done; done).
  unfold ret. do 3 f_equal. cbn [with_mem with_files mem]. by rewrite put_snoc.
Qed.

(** Every open file has the path of the file that was opened last: they share the buffer. *)
Theorem open_files_share_path s path_buf p1 p2 mode1 mode2 path1 path2 cwd :
  let m1 := put path_buf (path1 ++ [0]) (mem s) in
  mode_ok (mem s) mode1 -> mode_ok m1 mode2 -> path_arg (mem s) path_buf p1 path1 -> path_arg m1 path_buf p2 path2 ->
  room (mem s) path_buf 4096 -> nth_z (files s) 3 = Some cwd -> 3 < files_count s < zlen (files s) - 1 -> zlen (files s) < 2 ^ 64 ->
  exists s1 s2 f1 f2, fopen path_buf p1 mode1 s = Done (Some (files_count s), s1) /\ fopen path_buf p2 mode2 s1 = Done (Some (files_count s + 1), s2) /\
    nth_z (files s2) (files_count s) = Some f1 /\ nth_z (files s2) (files_count s + 1) = Some f2 /\
    _path f1 = path_buf /\ _path f2 = path_buf /\ cstr_at (mem s2) path_buf path2.
Proof using Type.
  intros m1 Hm1 Hm2 Hp1 Hp2 Hr Hcwd Hc Hz. eexists _, _, (mkFILE (0, 0) 0 (_address cwd) path_buf), (mkFILE (0, 0) 0 (_address cwd) path_buf).
  split; [by apply (fopen_spec s path_buf p1 mode1 path1 cwd); [..|lia]|].
  assert (wrap 64 (files_count s + 1) = files_count s + 1) as Ew by (apply wrap_small; unfold fits; lia).
  split; [rewrite (fopen_spec _ path_buf p2 mode2 path2 cwd); cbn [mem files files_count]; rewrite ?Ew, ?zlen_set_z; try done|].
  - by apply put_room.
  - rewrite nth_z_set_ne by lia. done.
  - lia.
  - cbn [files files_count mem]. rewrite nth_z_set_ne, !nth_z_set_eq by (rewrite ?zlen_set_z; lia). split_and!; done || (split; [apply put_bytes_at|apply Hp2]).
Qed.

(** The number of a file is divided by the size of the structure twice, so the first forty files have number 0. *)
Lemma fileno_zero stream : 0 <= stream < 40 -> fileno stream = 0.
Proof using Type. intros. unfold fileno, SIZEOF_FILE. apply Z.quot_small. lia. Qed.
End stdio.

(** ** Witnesses *)

(** A server that takes all it is sent and answers every read with [text]. *)
Definition a_server (text : list Z) (t : unit) (p : Packet) (m : Mem) : unit * Mem * list Packet :=
  let reply n := mkPacket (0, 0) 0 0 (pk_data_offset p) n (pk_address p) 0 0 0 (pk_opcode p) in
  if pk_opcode p =? OP_READ then (t, put (pk_data p) text m, [reply (zlen text)]) else (t, m, [reply (pk_data_length p)]).

(** The library with its buffer of [size] bytes at 0x8000, of which [mapped] are mapped, eight bytes of data and
    two strings of the program.  As [__posix_init] leaves it, 4096 of 65536 bytes are mapped. *)
Definition a_program (mapped size : Z) : Io :=
  let m := put 0x1000 [1; 2; 3; 4; 5; 6; 7; 8] (put 0x2000 [104; 105; 37; 100; 0; 114; 0] (put 0x8000 (replicate (Z.to_nat mapped) 0) ∅)) in
  mkIo m tt [] [] [] (replicate 8 (mkFILE (1, 2) 0 77 0)) 4 0x8000 size.

Abbreviation no_id := (fun _ : nat => 0).

Lemma a_program_buffer mapped size n : 0 <= n <= mapped -> room (mem (a_program mapped size)) 0x8000 n.
Proof.
  intros Hs. cbn [a_program mem]. do 2 apply put_room. apply (room_le _ _ (zlen (replicate (Z.to_nat mapped) 0))); [|rewrite zlen_replicate; lia].
  apply bytes_at_room, put_bytes_at.
Qed.

Lemma a_program_unmapped mapped size : 0 <= mapped -> mem (a_program mapped size) !! (0x8000 + mapped) = None.
Proof.
  intros Hm. cbn [a_program mem]. rewrite (put_out _ 0x1000) by (change (zlen _) with 8; lia). rewrite (put_out _ 0x2000) by (change (zlen _) with 7; lia).
  rewrite put_out by (rewrite zlen_replicate; lia). done.
Qed.

Lemma a_program_data mapped size : bytes_at (mem (a_program mapped size)) 0x1000 [1; 2; 3; 4; 5; 6; 7; 8].
Proof. apply put_bytes_at. Qed.

Lemma a_program_format mapped size : bytes_at (mem (a_program mapped size)) 0x2000 [104; 105; 37; 100; 0; 114; 0].
Proof. cbn [a_program mem]. apply bytes_at_put; [apply put_bytes_at|]. change (0x1000 + 8 <= 0x2000 \/ 0x2000 + 7 <= 0x1000). lia. Qed.

Lemma a_program_text mapped size : bytes_at (mem (a_program mapped size)) 0x2000 [104; 105; 37; 100; 0].
Proof. pose proof (a_program_format mapped size) as H. by apply (bytes_at_app _ _ [104; 105; 37; 100; 0]) in H as [H _]. Qed.

Lemma a_program_areas mapped size : Forall (area_ok (a_program mapped size)) [(0x1000, 5); (0x1005, 3)].
Proof.
  pose proof (bytes_at_room _ _ _ (a_program_data mapped size)) as Hr. apply Forall_cons; split; [|apply Forall_singleton]; (split; [done|]; split; [|by left]).
  - intros i Hi. cbn [fst snd] in *. apply Hr. change (zlen _) with 8. lia.
  - intros i Hi. cbn [fst snd] in *. replace (0x1005 + i) with (0x1000 + (5 + i)) by lia. apply Hr. change (zlen _) with 8. lia.
Qed.

Lemma a_program_mapped mapped size : 0 < mapped <= size -> buffer_mapped (a_program mapped size) mapped.
Proof. intros H. split; [done|]. split; [apply a_program_buffer; lia|]. intros _. apply a_program_unmapped. lia. Qed.

Lemma a_server_writes text : write_server (a_server text).
Proof. intros t p m Hp. unfold a_server. rewrite Hp. by eexists _, _. Qed.

(** Two areas of five and three bytes: through the buffer of the library, through a buffer of three bytes, and through
    one of which three bytes are mapped. *)
Lemma writev_sends_witness :
  sends_all (a_server []) (a_program 4096 65536) [1; 2; 3; 4; 5; 6; 7; 8] 0 (writev (a_server []) 1 [(0x1000, 5); (0x1005, 3)] (a_program 4096 65536)) /\
  sends_all (a_server []) (a_program 3 3) [1; 2; 3; 4; 5; 6; 7; 8] 0 (writev (a_server []) 1 [(0x1000, 5); (0x1005, 3)] (a_program 3 3)) /\
  exists why, writev (a_server []) 1 [(0x1000, 5); (0x1005, 3)] (a_program 3 16) = Panicked why.
Proof.
  pose proof (fun mapped size H => writev_sends (a_server []) (a_program mapped size) 1 [(0x1000, 5); (0x1005, 3)] mapped (a_server_writes [])
    (a_program_areas mapped size) (conj eq_refl eq_refl) (a_program_mapped mapped size H)) as Hw.
  assert (forall mapped size, concat ((fun x => peek (mem (a_program mapped size)) x.1 x.2) <$> [(0x1000, 5); (0x1005, 3)]) = [1; 2; 3; 4; 5; 6; 7; 8]) as Ed.
  { intros mapped size. pose proof (a_program_data mapped size) as Hd. apply (bytes_at_app _ _ [1; 2; 3; 4; 5]) in Hd as [H1 H2].
    apply bytes_at_peek in H1, H2. cbn [fmap list_fmap fst snd concat]. change (zlen [1; 2; 3; 4; 5]) with 5 in *. change (zlen [6; 7; 8]) with 3 in *.
    change (0x1000 + 5) with 0x1005 in *. by rewrite H1, H2. }
  cbn zeta in Hw. split_and!.
  - specialize (Hw 4096 65536 ltac:(lia)). rewrite Ed, decide_True in Hw by (left; by vm_compute). exact Hw.
  - specialize (Hw 3 3 ltac:(lia)). rewrite Ed, decide_True in Hw by by right. exact Hw.
  - specialize (Hw 3 16 ltac:(lia)). rewrite Ed, decide_False in Hw by (intros [H|H]; by vm_compute in H). exact Hw.
Defined.

(** "hi%d" with -12, which is sent as "hi-12". *)
Lemma vfprintf_sends_witness : exists s',
  vfprintf (a_server []) no_id 2 1 0x2000 [wrap 64 (-12)] (a_program 16 16) = Done (5, s') /\ (sent s').*2 = [[104; 105; 45; 49; 50]].
Proof.
  eexists. split.
  - refine (eq_trans (vfprintf_sends (a_server []) no_id (a_program 16 16) 1 0x2000 [Char 104; Char 105; Conv Dec (wrap 64 (-12))] []
      (mkFILE (1, 2) 0 77 0) 2 tt _ _ _ _ _ _ _ _ _ _ _ _ _ eq_refl eq_refl _) eq_refl).
    + done.
    + repeat constructor; done.
    + apply a_program_text.
    + done.
    + done.
    + left. by vm_compute.
    + apply a_program_buffer. by vm_compute.
    + by vm_compute.
    + done.
    + done.
    + lia.
    + by vm_compute.
  - by vm_compute.
Defined.

(** Four bytes through a buffer of two: after each packet the pointer moves over the data twice, so the
    third and fourth byte, and so on, are never sent, and bytes after the area are. *)
Example fwrite_skips_data : exists s',
  fwrite (a_server []) no_id 0x1000 1 4 1 (a_program 2 2) = Done (4, s') /\ (sent s').*2 = [[1; 2]; [5; 6]].
Proof. eexists. split; by vm_compute. Qed.

(** One byte is asked for and the four bytes of the answer are written. *)
Example fread_overruns : exists s',
  fread (a_server [9; 9; 9; 9]) no_id 0x1000 1 1 0 (a_program 16 16) = Done (4, s') /\ peek (mem s') 0x1000 6 = [9; 9; 9; 9; 5; 6].
Proof. eexists. split; by vm_compute. Qed.

(** [fgets] puts the terminator after the answer, wherever that is. *)
Example fgets_overruns : exists s',
  fgets (a_server [9; 9; 9; 9]) no_id 1 0x1000 2 0 (a_program 16 16) = Done (0x1000, s') /\ peek (mem s') 0x1000 6 = [9; 9; 9; 9; 0; 6].
Proof. eexists. split; by vm_compute. Qed.
