(* ===== verification/Serial.v ===== *)
(** * The service of the serial driver

    [main] of src/services/driver/uart/src/main.rs: the arguments, the start, and one round of the loop over
    packets, on the device and the requests of Uart; and the service as a C program sees it, through the
    packets of CStdio.  The pages of a packet are mapped into the driver at an address of its own while it
    works on them.

    The theorems: the driver maps the registers its arguments name; what a C program prints is sent over the
    line, character by character; what was typed arrives in the memory of the program that reads; every
    other request is ignored and its pages are given back. *)

From S2P Require Import Prelude Page Bytes CMem CString CFormat Utf8 DuxMem DuxList Ipc DuxIpc Abi DriverArgs VirtioSetup Uart CStdio.

(** ** Start *)

Definition ADDRESS : Z := 0x10000000.

Section start.
(** The status of the system calls; mapping is told the address, the page, the number of pages and the rights. *)
Context (sys_direct_alloc : Z -> Z -> Z -> Z -> Z) (io_set_notify_handler : Z) (sys_reserve_interrupt : Z -> Z).

Definition init (address size : Z) : M Uart unit :=
  if decide (sys_direct_alloc ADDRESS address size 3 <> 0) then panic "mapping UART failed" else ret tt.

(** [usize::from_str_radix(core::str::from_utf8(_).unwrap(), 16).unwrap()] *)
Definition parse_usize (l : list Z) : M Uart Z :=
  unwrap_ok "called `Result::unwrap()` on an `Err` value" (from_utf8 l) ;;
  unwrap_ok "called `Result::unwrap()` on an `Err` value" (from_str_radix 64 l).

(** [main] up to the loop. *)
Definition start (args : list (list Z)) : M Uart unit :=
  match args with
  | arg :: addr :: size :: rest =>
      if decide (rest <> []) then panic "called `Result::unwrap_err()` on an `Ok` value" else
      if decide (arg <> str "--reg") then panic "assertion failed: `(left == right)`" else
      let* addr := parse_usize addr in
      let* size := parse_usize size in
      if decide (io_set_notify_handler <> 0) then panic "failed to set notify handler" else
      init (addr / PAGE_SIZE) (wrap 64 (size + OFFSET_MASK) / PAGE_SIZE) ;;
      if decide (sys_reserve_interrupt 0xa <> 0) then panic "failed to reserve interrupt" else
      interrupt_data_available true
  | _ => panic "called `Option::unwrap()` on a `None` value"
  end.
End start.

(** ** One packet *)

(** A slice that is read, and the start of one that is written. *)
Fixpoint load_slice (n : nat) (a : Z) : M Mem (list Z) :=
  match n with
  | O => ret []
  | S n => let* x := ldb a in let* l := load_slice n (a + 1) in ret (x :: l)
  end.

Fixpoint store_slice (a : Z) (l : list Z) : M Mem unit :=
  match l with
  | [] => ret tt
  | x :: l => stb a x ;; store_slice (a + 1) l
  end.

Definition uuid_pair (n : Z) : Z * Z := let u := UUID_new n in (uuid_x u, uuid_y u).

(** The answers; the other fields are zero. *)
Definition answer (uuid : Z) (op : Op) (rxq : Packet) (length : Z) : Packet :=
  mkPacket (uuid_pair uuid) 0 0 0 length (pk_address rxq) 0 0 0 (op_code op).

Section handle.
Context (mem_dealloc : Z -> Z -> Z) (add_free_range : Z -> Z -> bool).
(** The system call that waits, and how often a request waits at most. *)
Context (io_wait : M Uart unit) (fuel : nat).

Definition non_null (p : Z) : M (Uart * Mem) Z := unwrap "called `Option::unwrap()` on a `None` value" (if decide (p = 0) then None else Some p).

(** One round of the loop: the answer, if there is one. *)
Definition handle (rxq : Packet) : M (Uart * Mem) (option Packet) :=
  let* op := non_null (pk_opcode rxq) in
  let* reply :=
    match Op_try_from op with
    | Ok Read =>
      let* data := non_null (pk_data rxq) in
      let* l := on_fst (on_read io_wait fuel (pk_data_length rxq)) in
      on_snd (store_slice data l) ;;
      ret (Some (answer 0x09090909090555577777 Read rxq (zlen l)))
    | Ok Write =>
      let* data := non_null (pk_data rxq) in
      let* l := on_snd (load_slice (Z.to_nat (pk_data_length rxq)) data) in
      let* len := on_fst (on_write io_wait fuel l) in
      ret (Some (answer 0x10101010101010 Write rxq len))
    | _ => ret None
    end in
  release mem_dealloc add_free_range (pk_data rxq) (pk_data_length rxq) ;;
  release mem_dealloc add_free_range (pk_name rxq) (pk_name_length rxq) ;;
  ret reply.
End handle.

(** ** Slices *)

Lemma load_slice_at l : forall m a, bytes_at m a l -> load_slice (length l) a m = Done (l, m).
Proof.
  induction l as [|x l IH]; intros m a Hb; [done|]. apply bytes_at_cons in Hb as [Hx Hb]. cbn [length load_slice].
  erewrite bind_done by (by apply ldb_at). by erewrite bind_done by (by apply IH).
Qed.

Lemma store_slice_done l : forall m a, room m a (zlen l) -> store_slice a l m = Done (tt, put a l m).
Proof.
  induction l as [|x l IH]; intros m a Hr; [done|]. rewrite zlen_cons in Hr. pose proof (zlen_nonneg l). apply room_tail in Hr as [Hx Hr]; [|lia]. cbn [store_slice].
  erewrite bind_done by (by apply stb_at). rewrite IH by (change (<[a := x]> m) with (put a [x] m); apply put_room; by replace (1 + zlen l - 1) with (zlen l) in Hr by lia).
  by rewrite put_cons.
Qed.

(** ** Start *)

(** The driver maps the pages of the registers it is given and enables the interrupt of received data; the two
    numbers come as the driver library writes them. *)
Theorem start_maps_registers map handler reserve a n u :
  fits 64 a -> fits 64 n -> n + OFFSET_MASK < 2 ^ 64 -> handler = 0 -> reserve 0xa = 0 -> map ADDRESS (a / PAGE_SIZE) ((n + OFFSET_MASK) / PAGE_SIZE) 3 = 0 ->
  start map handler reserve [str "--reg"; hex_text a; hex_text n] u = Done (tt, set_ier (with_bit (ier u) 0 true) u).
Proof.
  intros Ha Hn Hw -> Hr Hm. assert (forall v, fits 64 v -> parse_usize (hex_text v) u = Done (v, u)) as Hp.
  { intros v Hv. unfold parse_usize. erewrite bind_done by (by rewrite hex_text_utf8). by rewrite hex_text_parse by (done || unfold fits in *; lia). }
  unfold start. rewrite decide_False by (intros H; by apply H). rewrite decide_False by (intros H; by apply H). erewrite bind_done by (by apply Hp). erewrite bind_done by (by apply Hp).
  rewrite decide_False by (intros H; by apply H). erewrite bind_done; [|unfold init; rewrite decide_False; [done|]; rewrite wrap_small by (unfold fits in *; change OFFSET_MASK with 4095 in *; lia); intros H; by apply H].
  by rewrite decide_False by (intros H; by apply H).
Qed.

(** ** The service for a program *)

Section service.
Context (mem_dealloc : Z -> Z -> Z) (add_free_range : Z -> Z -> bool) (io_wait : M Uart unit) (fuel : nat).
(** Where the pages of data and of names are mapped in the driver. *)
Context (W WN : Z).

Abbreviation handle := (handle mem_dealloc add_free_range io_wait fuel).

Definition mapped_at (p w : Z) : Z := if decide (p = 0) then 0 else w.

(** The packet as the driver gets it. *)
Definition received (p : Packet) : Packet :=
  mkPacket (pk_uuid p) (mapped_at (pk_data p) W) (mapped_at (pk_name p) WN) (pk_data_offset p) (pk_data_length p) (pk_address p) (pk_flags p) (pk_name_length p) (pk_id p) (pk_opcode p).

(** A packet of a program with the memory [m]: the pages are shared while the driver works.  A driver that panicked
    is there no longer. *)
Definition serve (o : option Uart) (p : Packet) (m : Mem) : option Uart * Mem * list Packet :=
  match o with
  | None => (None, m, [])
  | Some u =>
      match handle (received p) (u, put W (peek m (pk_data p) (pk_data_length p)) (put WN (peek m (pk_name p) (pk_name_length p)) ∅)) with
      | Done (r, (u', w)) => (Some u', put (pk_data p) (peek w W (pk_data_length p)) m, option_list r)
      | _ => (None, m, [])
      end
  end.

(** The pages can be given back. *)
Definition gives_back : Prop := forall data n, data = W \/ data = WN -> mem_dealloc data n = 0 /\ Z.land data OFFSET_MASK = 0 /\ add_free_range data n = true.

Context (Hback : gives_back) (HW : W <> 0) (HWN : WN <> 0).

Lemma release_mapped p w n (s : Uart * Mem) : w = W \/ w = WN -> release mem_dealloc add_free_range (mapped_at p w) n s = Done (tt, s).
Proof using Hback HW HWN.
  intros Hw. unfold release, mapped_at. destruct (Hback w (min_pages_for_range n) Hw) as (E1 & E2 & E3). assert (w <> 0) by (by destruct Hw as [->| ->]).
  destruct (decide (p = 0)); [done|]. rewrite decide_False by done. rewrite E1, E2. rewrite decide_False by (intros H'; by apply H'). rewrite decide_False by (intros H'; by apply H'). by rewrite E3.
Qed.

Lemma non_null_mapped p (s : Uart * Mem) : p <> 0 -> non_null (mapped_at p W) s = Done (W, s).
Proof using HW. intros Hp. unfold mapped_at, non_null. rewrite (decide_False (P := p = 0)) by done. by rewrite decide_False by done. Qed.

Lemma handle_write p u w l u' : pk_opcode p = OP_WRITE -> pk_data p <> 0 -> bytes_at w W l -> zlen l = pk_data_length p ->
  on_write io_wait fuel l u = Done (zlen l, u') ->
  handle (received p) (u, w) = Done (Some (answer 0x10101010101010 Write p (zlen l)), (u', w)).
Proof using Hback HW HWN.
  intros Hop Hd Hb Hl Hw. unfold Serial.handle, received. cbn [pk_opcode pk_data pk_data_length pk_name pk_name_length]. rewrite Hop. erewrite bind_done by done.
  change (Op_try_from OP_WRITE) with (Ok (E := UnknownOp) Write). cbv iota. erewrite bind_done.
  2:{ erewrite bind_done by (by apply non_null_mapped).
      erewrite bind_done by (rewrite <-Hl; unfold zlen; rewrite Nat2Z.id; unfold on_snd; cbn [fst snd]; by rewrite (load_slice_at l)). cbv beta.
      erewrite bind_done by (unfold on_fst; cbn [fst snd]; by rewrite Hw). cbn [snd]. reflexivity. }
  erewrite bind_done by (apply release_mapped; by left). by erewrite bind_done by (apply release_mapped; by right).
Qed.

(** What a program writes is sent over the line. *)
Lemma serve_write p m u l u' : pk_opcode p = OP_WRITE -> 0 < pk_data p -> bytes_at m (pk_data p) l -> zlen l = pk_data_length p ->
  on_write io_wait fuel l u = Done (zlen l, u') -> serve (Some u) p m = (Some u', m, [answer 0x10101010101010 Write p (zlen l)]).
Proof using Hback HW HWN.
  intros Hop Hd Hb Hl Hw. unfold serve. rewrite <-Hl, (bytes_at_peek _ _ _ Hb). erewrite handle_write; [|done|lia|apply put_bytes_at|done|done].
  rewrite peek_put. by rewrite put_self.
Qed.

(** A program prints. *)
Section printing.
(** Waiting ends with room in the transmitter, and sends nothing itself. *)
Context (io_wait_room : forall u, exists u', io_wait u = Done (tt, u') /\ Uart.sent u' = Uart.sent u /\ (0 < room_left u')%nat) (Hfuel : fuel = 2%nat).
Context (slot_id : nat -> Z).

(** C39: what a C program prints is sent over the serial line.  The format has plain characters and the conversions
    %d, %u, %o and %x without flags, the text fits the part of the buffer that is mapped, a page as the library
    starts ([long_text_faults] has the others), and no packet was received before.  [vfprintf] puts the text into
    the buffer and a packet into the ring; when it waits for the answer, the driver gets the packet, maps the buffer,
    writes each byte to the device, waiting whenever the transmitter is full, and answers; the call returns the
    length of the text, and exactly the text has gone over the line behind what was sent before. *)
Theorem printed_text_is_sent s u stream format l args f n mapped :
  srv s = Some u -> l <> [] -> Forall piece_ok l -> bytes_at (mem s) format (source l ++ [0]) -> 0 < format -> 0 < universal_buffer s ->
  format + zlen (source l) < universal_buffer s \/ universal_buffer s + universal_buffer_size s <= format ->
  buffer_mapped s mapped -> zlen (printed l) <= mapped -> universal_buffer_size s < 2 ^ 31 ->
  nth_z (files s) stream = Some f -> idle s -> (1 < n)%nat ->
  exists s' u', vfprintf serve slot_id n stream format (arguments l ++ args) s = Done (zlen (printed l), s') /\
    srv s' = Some u' /\ Uart.sent u' = Uart.sent u ++ printed l /\ mem s' = put (universal_buffer s) (printed l) (mem s) /\ idle s'.
Proof using All.
  intros Hs Hne Hok Hb Hfmt Hub Hd (Hm & Hr & _) Hl Hsz Hf Hi Hn. destruct (write_sends_all io_wait io_wait_room (printed l) u) as (u' & Ew & Hsent).
  pose proof (zlen_nonneg (printed l)) as H0. rewrite <-Hfuel in Ew.
  set (pkt := mkPacket (_uuid f) (universal_buffer s) NULL 0 (zlen (printed l)) (_address f) 0 0 (slot_id (length (sent s))) OP_WRITE).
  assert (serve (srv s) pkt (put (universal_buffer s) (printed l) (mem s)) = (Some u', put (universal_buffer s) (printed l) (mem s), [answer 0x10101010101010 Write pkt (zlen (printed l))])) as Hsv.
  { rewrite Hs. apply serve_write; [reflexivity|exact Hub|apply put_bytes_at|reflexivity|exact Ew]. }
  eexists _, u'. split; [|split; [|split; [exact Hsent|]]].
  - rewrite (vfprintf_sends serve slot_id s stream format l args f n (Some u') _ _ Hne Hok Hb Hfmt Hub Hd (room_le _ _ _ _ Hr Hl) ltac:(lia) Hf Hi Hn Hsv eq_refl).
    + cbn [pk_data_length answer]. unfold signed. rewrite (wrap_small 32) by (unfold fits; lia). f_equal. f_equal. by rewrite decide_True by lia.
    + apply bytes_at_app in Hb as [_ Hz]. rewrite put_out by (pose proof (zlen_nonneg (source l)); lia). specialize (Hz 0 0 eq_refl). by rewrite Z.add_0_r in Hz.
  - reflexivity.
  - split; [reflexivity|]. split; reflexivity.
Qed.
End printing.

Lemma handle_read p u w l u' : pk_opcode p = OP_READ -> pk_data p <> 0 -> on_read io_wait fuel (pk_data_length p) u = Done (l, u') -> room w W (zlen l) ->
  handle (received p) (u, w) = Done (Some (answer 0x09090909090555577777 Read p (zlen l)), (u', put W l w)).
Proof using Hback HW HWN.
  intros Hop Hd Hr Hw. unfold Serial.handle, received. cbn [pk_opcode pk_data pk_data_length pk_name pk_name_length]. rewrite Hop. erewrite bind_done by done.
  change (Op_try_from OP_READ) with (Ok (E := UnknownOp) Read). cbv iota. erewrite bind_done.
  2:{ erewrite bind_done by (by apply non_null_mapped). erewrite bind_done by (unfold on_fst; cbn [fst snd]; by rewrite Hr). cbn [snd].
      erewrite bind_done by (unfold on_snd; cbn [fst snd]; by rewrite (store_slice_done l)). reflexivity. }
  erewrite bind_done by (apply release_mapped; by left). by erewrite bind_done by (apply release_mapped; by right).
Qed.

(** The characters that were typed are in the memory of the program that reads. *)
Lemma serve_read p m u q : pk_opcode p = OP_READ -> 0 < pk_data p -> 0 <= pk_data_length p -> queued u q -> fifo u = [] -> q <> [] -> (0 < fuel)%nat ->
  let l := newline <$> take (Z.to_nat (pk_data_length p)) q in
  exists u' m', serve (Some u) p m = (Some u', m', [answer 0x09090909090555577777 Read p (zlen l)]) /\
    queued u' (drop (Z.to_nat (pk_data_length p)) q) /\ fifo u' = [] /\ bytes_at m' (pk_data p) l /\
    (forall a, a < pk_data p \/ pk_data p + pk_data_length p <= a -> m' !! a = m !! a) /\ forall b n, room m b n -> room m' b n.
Proof using Hback HW HWN.
  intros Hop Hd Hn Hq Hf Hne Hfuel l. assert (fuel = S (pred fuel)) as Ek by lia.
  destruct (on_read_spec io_wait (pred fuel) u q (pk_data_length p) Hq Hf Hne) as (u' & E & Hq' & Hf' & _). rewrite <-Ek in E. fold l in E.
  assert (zlen l <= pk_data_length p) as Hl by (unfold l, zlen; rewrite length_fmap, length_take; lia).
  set (old := peek m (pk_data p) (pk_data_length p)). assert (zlen old = pk_data_length p) as Ho by (by apply zlen_peek).
  set (w := put W old (put WN (peek m (pk_name p) (pk_name_length p)) ∅)).
  assert (room w W (pk_data_length p)) as Hrw by (rewrite <-Ho; apply bytes_at_room, put_bytes_at).
  unfold serve. fold old w. erewrite handle_read; [|done|lia|exact E|intros i Hi; apply Hrw; lia].
  set (new := peek (put W l w) W (pk_data_length p)). assert (zlen new = pk_data_length p) as Hnw by (by apply zlen_peek).
  eexists u', _. split; [reflexivity|]. split; [exact Hq'|]. split; [exact Hf'|]. split; [|split; [intros a Ha; apply put_out; lia|intros b n; apply put_room]].
  intros i x Hx. pose proof (nth_z_Some _ _ _ Hx). apply put_bytes_at. unfold new. rewrite nth_peek by lia. by rewrite (put_bytes_at _ _ _ i x Hx).
Qed.

(** A program reads what was typed: [fread] that asks for more characters than are in the ring gets all of them, in
    order, with carriage returns as newlines, and the ring is empty. *)
Theorem typed_text_is_read slot_id s u q stream ptr count f path :
  srv s = Some u -> queued u q -> fifo u = [] -> q <> [] -> (0 < fuel)%nat -> zlen q < count -> count < 2 ^ 64 -> count <= universal_buffer_size s -> zlen q <= 4096 ->
  nth_z (files s) stream = Some f -> path_at s f path -> idle s -> 0 < universal_buffer s ->
  room (mem s) ptr count -> ptr + count <= universal_buffer s ->
  exists s' u', fread serve slot_id ptr 1 count stream s = Done (zlen q, s') /\ srv s' = Some u' /\ queued u' [] /\ fifo u' = [] /\ bytes_at (mem s') ptr (newline <$> q).
Proof using All.
  intros Hs Hq Hf Hne Hfuel Hc Hc64 Hcs Hq4 Hst Hp Hi Hub Hr Hd. pose proof (zlen_nonneg q) as Hqn.
  set (pkt := packet_of slot_id s OP_READ (wrap 64 (-1), 0) f path 0x1000).
  destruct (serve_read pkt (mem s) u q) as (u' & m' & Hsv & Hq' & Hf' & Hb & _ & Hroom); [reflexivity|exact Hub|cbn; lia|done|done|done|done|].
  assert (take (Z.to_nat (pk_data_length pkt)) q = q) as Et by (apply take_ge; unfold zlen in Hq4; cbn; lia).
  assert (drop (Z.to_nat (pk_data_length pkt)) q = []) as Ed by (apply drop_ge; unfold zlen in Hq4; cbn; lia). rewrite Et in Hb, Hsv. rewrite Ed in Hq'.
  assert (zlen (newline <$> q) = zlen q) as El by apply zlen_fmap. rewrite El in Hsv.
  assert (wrap 64 (1 * count) = count) as Ec by (rewrite Z.mul_1_l; apply wrap_small; unfold fits; lia).
  eexists _, u'. split; [rewrite <-El; apply (fread_copies serve slot_id s ptr 1 count stream (newline <$> q) f path (Some u') m' (answer 0x09090909090555577777 Read pkt (zlen q)))|].
  all: rewrite ?Ec, ?El; try done; try lia.
  - rewrite Hs. exact Hsv.
  - unfold fits. lia.
  - apply Hroom. intros i Hi'. apply Hr. lia.
  - left. unfold chunk. case_match; lia.
  - split; [reflexivity|]. split; [exact Hq'|]. split; [exact Hf'|]. apply put_bytes_at.
Qed.
End service.

(** ** An example *)

(** A device whose transmitter takes three characters before it must be waited for. *)
Definition a_line : Uart := mkUart 1 [] [33] 3 (replicate 4096 0) 0 0.

Definition refill : M Uart unit := modify (fun u => mkUart (ier u) (fifo u) (Uart.sent u) 3 (BUFFER u) (NEW_INDEX u) (USED_INDEX u)).

Definition a_console (mapped size : Z) : Io (Srv := option Uart) :=
  let s := a_program mapped size in
  mkIo (mem s) (Some a_line) [] [] [] (files s) (files_count s) (universal_buffer s) (universal_buffer_size s).

(** "hi%d" with -12, in a program with the buffer as the library leaves it. *)
Lemma printed_text_is_sent_witness : exists s' u',
  vfprintf (serve (fun _ _ => 0) (fun _ _ => true) refill 2 0x50000000 0x60000000) no_id 2 1 0x2000 [wrap 64 (-12)] (a_console 4096 65536) = Done (5, s') /\
  srv s' = Some u' /\ Uart.sent u' = [33; 104; 105; 45; 49; 50].
Proof.
  destruct (printed_text_is_sent (fun _ _ => 0) (fun _ _ => true) refill 2 0x50000000 0x60000000) with (slot_id := no_id) (s := a_console 4096 65536) (u := a_line) (stream := 1) (format := 0x2000)
    (l := [Char 104; Char 105; Conv Dec (wrap 64 (-12))]) (args := @nil Z) (f := mkFILE (1, 2) 0 77 0) (n := 2%nat) (mapped := 4096) as (s' & u' & E & H1 & H2 & _).
  - intros data k [->| ->]; done.
  - lia.
  - lia.
  - intros u. eexists. split; [reflexivity|]. split; [reflexivity|]. cbn. lia.
  - reflexivity.
  - reflexivity.
  - done.
  - repeat constructor; done.
  - exact (a_program_text 4096 65536).
  - lia.
  - cbn. lia.
  - left. by vm_compute.
  - by apply (a_program_mapped 4096 65536).
  - by vm_compute.
  - by vm_compute.
  - reflexivity.
  - split; reflexivity.
  - lia.
  - exists s', u'. split; [exact E|]. split; [exact H1|]. rewrite H2. by vm_compute.
Defined.
