(* ===== verification/CDir.v ===== *)
(** * Memory and directories of the C library

    The functions of dux for C programs (src/lib/rust/dux_ar/src), the start of the C library
    (src/lib/c/std/src/common.c) and its directories (src/lib/c/std/src/dirent.c).

    The theorems: the start of the library makes a buffer of sixteen pages of which one is mapped;
    and a program that opens a directory and reads it to the end gets the names that the server put
    in its list, in order. *)

From S2P Require Import Prelude Bytes CMem CString Ipc DuxMem DuxIpc DuxList CStdio.

(** ** dux for C programs *)

(** A pointer to a page, [None] for a null pointer. *)
Definition non_null (address : Z) : option Z := if address =? NULL then None else Some address.

(** The address and the status. *)
Definition dux_reserve_pages (address count : Z) : M Global (Z * Z) :=
  match (match non_null address with
         | None => Ok None
         | Some a => match Page_new a with Ok a => Ok (Some a) | Err _ => Err tt end
         end : result (option Z) unit) with
  | Err _ => ret (NULL, -2)
  | Ok addr =>
    let* r := reserve_range addr count in
    ret match r with
    | Ok addr => (addr, 0)
    | Err NoSpace => (NULL, -1)
    | Err NoMemory => (NULL, -3)
    end
  end.

(** The pointer as a page. *)
Definition page_arg (address : Z) : option Z :=
  match non_null address with
  | Some a => match Page_new a with Ok a => Some a | Err _ => None end
  | None => None
  end.

Definition dux_unreserve_pages (address count : Z) : M Global Z :=
  match page_arg address with
  | Some addr =>
    let* r := unreserve_range addr count in
    ret match r with
    | Ok _ => 0
    | Err InvalidAddress => -2
    | Err SizeTooLarge => -3
    end
  | None => ret (-1)
  end.

Definition dux_add_free_range (address count : Z) : M Global Z :=
  match page_arg address with
  | Some addr => let* r := add_free_range addr count in ret match r with Ok _ => 0 | Err _ => -2 end
  | None => ret (-1)
  end.

(** The entry, with the bytes at the pointer to the name and the length of 16 bits; [None] is -1. *)
Definition dux_ipc_list_get (list : list Z) (index : Z) : outcome (option (UUID * Z * (option (Datatypes.list Z) * Z))) :=
  let! e := List_get list index in
  Done match e with
  | Some e => Some (e_uuid e, e_size e, (e_name e, match e_name e with Some n => wrap 16 (zlen n) | None => 0 end))
  | None => None
  end.

(** ** The start of the library *)

Section posix_init.
Context (mem_alloc : Z -> Z -> Z -> Z).

(** The address and the size of [universal_buffer]; the function loops for ever when it fails. *)
Definition posix_init : M Global (Z * Z) :=
  let* '(address, status) := dux_reserve_pages NULL 16 in
  if negb (status =? 0) then fun _ => OutOfFuel else
  if negb (mem_alloc address 1 (Z.lor 1 2) =? 0) then fun _ => OutOfFuel else
  ret (address, 16 * SIZE).
End posix_init.

(** ** Directories

    The list is the memory the server shared. *)

Definition OP_LIST : Z := 4.
Definition NAME_MAX : Z := 1024.

Record DIR : Type := mkDIR { _list : list Z; _index : Z }.

(** The static [struct dirent] of [readdir] is [d_name]; the identifier is always 0. *)
Record dirent : Type := mkDirent { d_name : list Z }.

(** Whether there was an entry. *)
Definition readdir : M (DIR * dirent) bool := fun '(dir, ent) =>
  let! r := dux_ipc_list_get (_list dir) (_index dir) in
  match r with
  | None => Done (false, (dir, ent))
  | Some (_, _, (name, name_len)) =>
    let max_len := if NAME_MAX - 1 <? name_len then NAME_MAX - 1 else name_len in
    Done (true, (mkDIR (_list dir) (wrap 64 (_index dir + 1)),
      mkDirent (set_z (Bytes.write (d_name ent) 0 (take (Z.to_nat max_len) (default [] name))) max_len 0)))
  end.

Definition rewinddir (dir : DIR) : DIR := mkDIR (_list dir) 0.
Definition seekdir (dir : DIR) (loc : Z) : DIR := mkDIR (_list dir) (wrap 64 loc).
Definition telldir (dir : DIR) : Z := _index dir.

Section directories.
Context {Srv : Type} (serve : Srv -> Packet -> Mem -> Srv * Mem * list Packet) (slot_id : nat -> Z).

(** [while (ptr != end && *c != '\0') *ptr++ = *c++] *)
Fixpoint fill_path (fuel : nat) (ptr end_ c : Z) : M Mem Z :=
  match fuel with
  | O => fun _ => OutOfFuel
  | S fuel =>
    if ptr =? end_ then ret ptr else
    let* x := ldb c in
    if x =? 0 then ret ptr else stb ptr x ;; fill_path fuel (ptr + 1) end_ (c + 1)
  end.

Definition opendir (path : Z) : M (Io (Srv := Srv)) DIR :=
  let* s := get in
  let out := universal_buffer s in
  let* ptr := on_mem (bounded (fun fuel => fill_path fuel out (out + universal_buffer_size s) path)) in
  let* cwd := file 3 in
  let* s := get in
  submit (mkPacket (0, 0) out NULL 0 (ptr - out) (_address cwd) 0 0 (slot_id (List.length (sent s))) OP_LIST) ;;
  let* cce := wait_for serve true OP_LIST in
  let* s := get in
  ret (mkDIR (peek (mem s) (pk_data cce) (pk_data_length cce)) 0).

(** ** Reading to the end *)

(** A program that reads a directory: the names as strings. *)
Definition c_string (l : list Z) : list Z := match list_find (fun x => x = 0) l with Some (n, _) => take n l | None => l end.

Fixpoint read_names (fuel : nat) : M (DIR * dirent) (list (list Z)) :=
  match fuel with
  | O => fun _ => OutOfFuel
  | S fuel =>
    let* more := readdir in
    if (more : bool) then
      let* name := gets (fun st => c_string (d_name st.2)) in
      let* l := read_names fuel in ret (name :: l)
    else ret []
  end.
End directories.

Lemma c_string_at n rest : 0 ∉ n -> c_string (n ++ 0 :: rest) = n.
Proof.
  intros H0. unfold c_string. assert (list_find (fun x => x = 0) (n ++ 0 :: rest) = Some (length n, 0)) as ->; [|by rewrite take_app_length].
  apply list_find_Some. split_and!; [by rewrite list_lookup_middle|done|]. intros j y Hj Hlt ->. apply H0.
  rewrite lookup_app_l in Hj by done. by eapply list_elem_of_lookup_2.
Qed.

(** A name that fits is the string in the buffer afterwards. *)
Lemma name_stored n d : 0 ∉ n -> zlen n < zlen d -> c_string (set_z (Bytes.write d 0 n) (zlen n) 0) = n.
Proof.
  intros H0 Hl. pose proof (zlen_nonneg n). unfold Bytes.write. rewrite decide_True by lia. change (take (Z.to_nat 0) d) with (@nil Z). cbn [app].
  destruct (drop (Z.to_nat (0 + zlen n)) d) as [|x rest] eqn:E.
  { apply (f_equal length) in E. rewrite length_drop in E. unfold zlen in *. cbn in E. lia. }
  rewrite set_z_app. by apply c_string_at.
Qed.

Definition name_ok (n : list Z) : Prop := (0 ∉ n) /\ zlen n < NAME_MAX.

Lemma readdir_spec dir ent e n :
  List_get (_list dir) (_index dir) = Done (Some e) -> e_name e = Some n -> name_ok n -> zlen (d_name ent) = NAME_MAX ->
  exists ent', readdir (dir, ent) = Done (true, (mkDIR (_list dir) (wrap 64 (_index dir + 1)), ent')) /\
    c_string (d_name ent') = n /\ zlen (d_name ent') = NAME_MAX.
Proof.
  intros Hg Hn [H0 Hl] Hd. pose proof (zlen_nonneg n). unfold readdir, dux_ipc_list_get. rewrite Hg. cbn [obind]. rewrite Hn. change (default [] (Some n)) with n.
  unfold NAME_MAX in *. rewrite (wrap_small 16) by (unfold fits; lia). rewrite (proj2 (Z.ltb_ge _ _)) by lia.
  assert (take (Z.to_nat (zlen n)) n = n) as -> by (apply take_ge; unfold zlen; lia).
  eexists. split; [done|]. cbn [d_name]. split; [by apply name_stored; [|lia]|]. by rewrite zlen_set_z, zlen_write.
Qed.

(** Reading a directory is iterating over its list. *)
Lemma read_names_iter fuel : forall dir ent es ns,
  List_iter fuel (_list dir) (_index dir) = Done es -> e_name <$> es = Some <$> ns -> Forall name_ok ns ->
  zlen (d_name ent) = NAME_MAX -> 0 <= _index dir -> _index dir + Z.of_nat fuel < 2 ^ 64 -> exists st, read_names fuel (dir, ent) = Done (ns, st).
Proof.
  induction fuel as [|fuel IH]; intros dir ent es ns Hes Hns Hok Hd Hi Hf; [done|]. cbn [List_iter] in Hes. cbn [read_names].
  destruct (List_get (_list dir) (_index dir)) as [[e|]| |] eqn:Eg; cbn [obind] in Hes; [|injection Hes as <-|done..].
  - destruct (List_iter fuel (_list dir) (_index dir + 1)) as [l| |] eqn:El; [|done..]. cbn [obind] in Hes. injection Hes as <-.
    destruct ns as [|n ns]; [done|]. cbn in Hns. injection Hns as Hn Hns. apply Forall_cons in Hok as [Hok1 Hok].
    destruct (readdir_spec dir ent e n Eg Hn Hok1 Hd) as (ent' & Er & Ec & Hd'). erewrite bind_done by exact Er. cbv iota.
    assert (wrap 64 (_index dir + 1) = _index dir + 1) as Ew by (apply wrap_small; unfold fits; lia).
    destruct (IH (mkDIR (_list dir) (_index dir + 1)) ent' l ns El Hns Hok Hd') as (st & E); [cbn; lia..|].
    exists st. rewrite Ew. erewrite bind_done by done. cbn [snd]. rewrite Ec. by erewrite bind_done by exact E.
  - destruct ns; [|done]. eexists. unfold readdir, dux_ipc_list_get. erewrite bind_done by (cbn beta iota; rewrite Eg; done). done.
Qed.

Section opening.
Context {Srv : Type} (serve : Srv -> Packet -> Mem -> Srv * Mem * list Packet) (slot_id : nat -> Z).

Lemma fill_path_spec l : forall fuel m ptr end_ c,
  cstr_at m c l -> room m ptr (zlen l) -> ptr + zlen l <= end_ -> c + zlen l < ptr \/ end_ <= c -> (length l < fuel)%nat ->
  fill_path fuel ptr end_ c m = Done (ptr + zlen l, put ptr l m).
Proof using Type.
  induction l as [|x l IH]; intros [|fuel] m ptr end_ c Hc Hr He Hd Hf; cbn [length] in Hf; try lia; cbn [fill_path].
  - change (zlen (@nil Z)) with 0. rewrite Z.add_0_r. case_match; [done|]. apply cstr_at_nil in Hc. by erewrite bind_done by by apply ldb_at.
  - apply cstr_at_cons in Hc as (Hx & Hcx & Hc). rewrite zlen_cons in *. pose proof (zlen_nonneg l). apply room_tail in Hr as [Hp Hr]; [|lia].
    replace (1 + zlen l - 1) with (zlen l) in Hr by lia. rewrite (proj2 (Z.eqb_neq _ _)) by lia. erewrite bind_done by by apply ldb_at.
    rewrite (proj2 (Z.eqb_neq x 0)) by done. erewrite bind_done by by apply stb_at. change (<[ptr := x]> m) with (put ptr [x] m).
    rewrite IH; [|split; [apply bytes_at_put; [apply Hc|rewrite zlen_app; change (zlen [_]) with 1; lia]|apply Hc]|by apply put_room|lia|lia|lia].
    change (put ptr [x] m) with (<[ptr := x]> m). by rewrite put_cons, Z.add_assoc.
Qed.

Lemma opendir_spec (s : Io) p path cwd t m r :
  cstr_at (mem s) p path -> zlen path <= universal_buffer_size s -> room (mem s) (universal_buffer s) (zlen path) ->
  p + zlen path < universal_buffer s \/ universal_buffer s + universal_buffer_size s <= p -> nth_z (files s) 3 = Some cwd -> idle s ->
  let pkt := mkPacket (0, 0) (universal_buffer s) NULL 0 (zlen path) (_address cwd) 0 0 (slot_id (length (sent s))) OP_LIST in
  serve (srv s) pkt (put (universal_buffer s) path (mem s)) = (t, m, [r]) -> pk_opcode r = OP_LIST ->
  exists s', opendir serve slot_id p s = Done (mkDIR (peek m (pk_data r) (pk_data_length r)) 0, s') /\ sent s' = sent s ++ [(pkt, path)].
Proof using Type.
  intros Hp Hl Hr Hd Hcwd Hi pkt Hs Hop. unfold opendir. erewrite bind_done by done. cbv zeta.
  erewrite bind_done.
  2:{ apply on_mem_done. unfold bounded. apply fill_path_spec; [done|done|lia|done|]. pose proof (cstr_at_size _ _ _ Hp). lia. }
  erewrite bind_done by (by apply file_spec). erewrite bind_done by done. cbn [with_mem mem srv inbox sent files files_count universal_buffer universal_buffer_size].
  replace (universal_buffer s + zlen path - universal_buffer s) with (zlen path) by lia. fold pkt.
  rewrite (ask_spec serve _ _ _ _ t m r) by done. eexists. split; [by erewrite bind_done by done|]. cbn [sent with_mem mem pkt pk_data pk_data_length]. by rewrite peek_put.
Qed.

(** C40: a directory is listed.  The path fits the part of the buffer that is mapped, a page as the library starts, and
    no packet was received before.  When the server builds the list of a directory and answers the request of
    [opendir] with its pages, the request has the path the program gave, and reading the directory to the end gives
    the names of the entries, in order; the names have less than 1024 bytes. *)
Theorem directory_listed mem_alloc cap slen g g' b es b' (s : Io) mapped p path cwd t m r ent :
  (forall a n, mem_alloc a n (Z.lor 1 2) = 0) -> 0 <= cap -> 0 <= slen -> entry_offset cap + slen <= 2 ^ 31 ->
  Builder_new cap slen g = Done (Ok b, g') -> Forall item_ok es -> zlen es <= cap ->
  entry_offset cap + names_len es < list_pages cap slen * SIZE -> Builder_add_all mem_alloc es b = Done (Ok tt, b') ->
  Forall name_ok (item_name <$> es) -> zlen (d_name ent) = NAME_MAX ->
  cstr_at (mem s) p path -> buffer_mapped s mapped -> zlen path <= mapped ->
  p + zlen path < universal_buffer s \/ universal_buffer s + universal_buffer_size s <= p -> nth_z (files s) 3 = Some cwd -> idle s ->
  let pkt := mkPacket (0, 0) (universal_buffer s) NULL 0 (zlen path) (_address cwd) 0 0 (slot_id (length (sent s))) OP_LIST in
  serve (srv s) pkt (put (universal_buffer s) path (mem s)) = (t, m, [r]) -> pk_opcode r = OP_LIST ->
  bytes_at m (pk_data r) (data b') -> pk_data_length r = zlen (data b') ->
  exists dir s' st, opendir serve slot_id p s = Done (dir, s') /\ sent s' = sent s ++ [(pkt, path)] /\
    read_names (S (length es)) (dir, ent) = Done (item_name <$> es, st).
Proof using Type.
  intros Ha Hc Hsl Hb Enew Hok Hcap Hfit Eadd Hns Hent Hp (Hm & Hr & _) Hl Hd Hcwd Hi pkt Hs Hop Hbytes Hlen.
  pose proof (Builder_new_built _ _ _ _ _ Hc Hsl Hb Enew) as Hb0. destruct (list_pages_bound cap slen Hc Hsl Hb) as (_ & _ & _ & Hp32).
  destruct (Builder_add_all_spec mem_alloc Ha cap (list_pages cap slen) es b [] Hb0 Hok Hcap Hfit) as (b2 & E & Hb').
  rewrite Eadd in E. injection E as <-.
  destruct (opendir_spec s p path cwd t m r Hp ltac:(lia) (room_le _ _ _ _ Hr Hl) Hd Hcwd Hi Hs Hop) as (s' & Eo & Es). rewrite Hlen, bytes_at_peek in Eo by done.
  destruct (read_names_iter (S (length es)) (mkDIR (data b') 0) ent (item_entry <$> es) (item_name <$> es)) as (st & Er); [|by clear; induction es as [|[[u n] z] es IH]; [|cbn; rewrite IH]|done|done|done| |].
  - apply (built_iter cap (list_pages cap slen)); done || lia.
  - cbn [_index]. assert (entry_offset cap <= 2 ^ 31) by lia. unfold entry_offset, USIZE_BYTES, RAW_ENTRY_BYTES, zlen in *. lia.
  - by exists (mkDIR (data b') 0), s', st.
Qed.
End opening.

(** The buffer of the library has a size of sixteen pages, and one page of memory. *)
Theorem buffer_one_page_mapped g l mem_alloc a l2 :
  resv g l -> first_fit NULL_PAGE_END (16 * SIZE) l = Some (a, l2) -> zlen l < RESERVED_ENTRIES -> (forall a n, mem_alloc a n (Z.lor 1 2) = if decide (n = 1) then 0 else 1) ->
  exists g', posix_init mem_alloc g = Done ((a, 16 * SIZE), g') /\ resv g' l2.
Proof.
  intros Hg Hf Hl Ha. destruct (reserve_range_spec g l 16 Hg ltac:(by vm_compute)) as (g' & l' & r & E & Hg' & Hr). change (pages 16) with 16 in Hr. rewrite Hf, decide_False in Hr by lia.
  destruct Hr as [-> ->]. exists g'. split; [|done]. unfold posix_init, dux_reserve_pages. cbn [non_null Z.eqb].
  erewrite bind_done by (erewrite bind_done by exact E; done). cbv beta iota. cbn [negb Z.eqb]. by rewrite Ha.
Qed.

(** ** Witnesses *)

(** A server with one directory. *)
Definition dir_server (list : list Z) (t : unit) (p : Packet) (m : Mem) : unit * Mem * Datatypes.list Packet :=
  (t, put 0x20000 list m, [mkPacket (0, 0) 0x20000 0 0 (zlen list) (pk_address p) 0 0 0 (pk_opcode p)]).

Definition two_names : list item := [(UUID_new 5, [104; 105], 7); (UUID_new 6, [122], 0)].

Definition two_names_built : Builder :=
  match Builder_add_all (fun _ _ _ => 0) two_names (mkBuilder 0x1000 0 1 104 0 3 []) with Done (_, b) => b | _ => mkBuilder 0 0 0 0 0 0 [] end.

(** The path is "hi%d" of the program; the directory has "hi" and "z". *)
Lemma directory_listed_witness : exists dir s' st,
  opendir (dir_server (data two_names_built)) (fun _ => 0) 0x2000 (a_program 4096 65536) = Done (dir, s') /\
  read_names 3 (dir, mkDirent (replicate (Z.to_nat 1024) 0)) = Done ([[104; 105]; [122]], st).
Proof.
  destruct (directory_listed (dir_server (data two_names_built)) (fun _ => 0) (fun _ _ _ => 0) 3 16 init_global
    (match Builder_new 3 16 init_global with Done (_, g) => g | _ => init_global end) (mkBuilder 0x1000 0 1 104 0 3 []) two_names two_names_built
    (a_program 4096 65536) 4096 0x2000 [104; 105; 37; 100] (mkFILE (1, 2) 0 77 0) tt
    (put 0x20000 (data two_names_built) (put 0x8000 [104; 105; 37; 100] (mem (a_program 4096 65536))))
    (mkPacket (0, 0) 0x20000 0 0 (zlen (data two_names_built)) 77 0 0 0 OP_LIST) (mkDirent (replicate (Z.to_nat 1024) 0)))
    as (dir & s' & st & Eo & _ & Er).
  - intros. reflexivity.
  - lia.
  - lia.
  - by vm_compute.
  - by vm_compute.
  - repeat (apply Forall_cons_2; [by vm_compute|]). apply Forall_nil_2.
  - by vm_compute.
  - by vm_compute.
  - by vm_compute.
  - repeat (apply Forall_cons_2; [split; [set_solver|by vm_compute]|]). apply Forall_nil_2.
  - by vm_compute.
  - split; [|set_solver]. exact (a_program_text 4096 65536).
  - by apply a_program_mapped.
  - by vm_compute.
  - left. by vm_compute.
  - reflexivity.
  - split; reflexivity.
  - reflexivity.
  - reflexivity.
  - apply put_bytes_at.
  - reflexivity.
  - exists dir, s', st. split; [exact Eo|exact Er].
Defined.
