(* ===== verification/Hart.v ===== *)
(** * A RISC-V hart

    The machine the assembly of the kernel runs on, with the instructions it uses, the macros of
    src/kernel/src/arch/riscv/registers.s and the layout of src/kernel/src/arch/riscv/types.s.

    A hart has its registers, the control registers the code uses and memory: that of the kernel,
    which every address space has, and that of the tasks, a memory for each value of [satp].  The lower
    half of the addresses is that of tasks; the kernel may access it only while SUM is set in
    [sstatus].  [mini_panic] halts the hart.

    The lemmas give what each instruction leaves, and what saving and loading registers does to
    memory. *)

From S2P Require Import Prelude Bytes CMem.

(** ** The hart *)

Record Hart : Type := mkHart {
  x : gmap Z Z; pc : Z; user : bool;
  sepc : Z; scause : Z; sstatus : Z; sscratch : Z; satp : Z;
  kmem : Mem; umem : gmap Z Mem;
  claims : list Z; completed : list Z
}.

(** The register [r]; [x0] is always 0. *)
Definition reg_of (g : gmap Z Z) (r : Z) : Z := if r =? 0 then 0 else default 0 (g !! r).

Definition reg (h : Hart) (r : Z) : Z := reg_of (x h) r.

Definition with_x (g : gmap Z Z) (h : Hart) : Hart :=
  mkHart g (pc h) (user h) (sepc h) (scause h) (sstatus h) (sscratch h) (satp h) (kmem h) (umem h) (claims h) (completed h).
Definition with_sepc (v : Z) (h : Hart) : Hart :=
  mkHart (x h) (pc h) (user h) v (scause h) (sstatus h) (sscratch h) (satp h) (kmem h) (umem h) (claims h) (completed h).
Definition with_sstatus (v : Z) (h : Hart) : Hart :=
  mkHart (x h) (pc h) (user h) (sepc h) (scause h) v (sscratch h) (satp h) (kmem h) (umem h) (claims h) (completed h).
Definition with_sscratch (v : Z) (h : Hart) : Hart :=
  mkHart (x h) (pc h) (user h) (sepc h) (scause h) (sstatus h) v (satp h) (kmem h) (umem h) (claims h) (completed h).
Definition with_satp (v : Z) (h : Hart) : Hart :=
  mkHart (x h) (pc h) (user h) (sepc h) (scause h) (sstatus h) (sscratch h) v (kmem h) (umem h) (claims h) (completed h).
Definition with_kmem (m : Mem) (h : Hart) : Hart :=
  mkHart (x h) (pc h) (user h) (sepc h) (scause h) (sstatus h) (sscratch h) (satp h) m (umem h) (claims h) (completed h).
Definition with_umem (m : gmap Z Mem) (h : Hart) : Hart :=
  mkHart (x h) (pc h) (user h) (sepc h) (scause h) (sstatus h) (sscratch h) (satp h) (kmem h) m (claims h) (completed h).
Definition with_plic (l c : list Z) (h : Hart) : Hart :=
  mkHart (x h) (pc h) (user h) (sepc h) (scause h) (sstatus h) (sscratch h) (satp h) (kmem h) (umem h) l c.

(** Bits of [sstatus]. *)
Definition SIE : Z := Z.shiftl 1 1.
Definition SPIE : Z := Z.shiftl 1 5.
Definition SPP : Z := Z.shiftl 1 8.
Definition SUM : Z := Z.shiftl 1 18.

Definition bit (v b : Z) : bool := negb (Z.land v b =? 0).
Definition set_bit (v b : Z) (on : bool) : Z := if on then Z.lor v b else Z.ldiff v b.

(** A trap: the program counter and the cause are kept and interrupts are disabled. *)
Definition enter (cause : Z) (h : Hart) : Hart :=
  let st := set_bit (set_bit (set_bit (sstatus h) SPIE (bit (sstatus h) SIE)) SIE false) SPP (negb (user h)) in
  mkHart (x h) (pc h) false (pc h) cause st (sscratch h) (satp h) (kmem h) (umem h) (claims h) (completed h).

(** [sret] *)
Definition sret : M Hart unit := fun h =>
  let st := set_bit (set_bit (set_bit (sstatus h) SIE (bit (sstatus h) SPIE)) SPIE true) SPP false in
  Done (tt, mkHart (x h) (sepc h) (negb (bit (sstatus h) SPP)) (sepc h) (scause h) st (sscratch h) (satp h) (kmem h) (umem h) (claims h) (completed h)).

(** ** Instructions *)

Definition rd (r : Z) : M Hart Z := gets (fun h => reg h r).
Definition wr (r v : Z) : M Hart unit := modify (fun h => if r =? 0 then h else with_x (<[r := v]> (x h)) h).

(** The lower half of the addresses. *)
Definition is_user (a : Z) : bool := a <? 2 ^ 38.

(** The memory at an address; the kernel has no right to that of tasks without SUM. *)
Definition memory_at (h : Hart) (a : Z) : option Mem :=
  if is_user a then if bit (sstatus h) SUM then umem h !! satp h else None else Some (kmem h).

Definition set_memory (a : Z) (m : Mem) (h : Hart) : Hart :=
  if is_user a then with_umem (<[satp h := m]> (umem h)) h else with_kmem m h.

Definition bytes_of (m : Mem) (a : Z) (n : nat) : option (list Z) := mapM (fun i => m !! (a + i)) (seqZ 0 (Z.of_nat n)).

Definition load (n : nat) (a : Z) : M Hart Z := fun h =>
  match memory_at h a with
  | None => Panicked "page fault in the kernel"
  | Some m => match bytes_of m a n with Some l => Done (le_combine l, h) | None => Panicked "page fault in the kernel" end
  end.

Definition store (n : nat) (a v : Z) : M Hart unit := fun h =>
  match memory_at h a with
  | None => Panicked "page fault in the kernel"
  | Some m => match bytes_of m a n with
              | Some _ => Done (tt, set_memory a (put a (le_split n v) m) h)
              | None => Panicked "page fault in the kernel"
              end
  end.

(** [ld r, off (b)] and [sd r, off (b)] *)
Definition ld (r off b : Z) : M Hart unit := let* a := rd b in let* v := load 8 (wrap 64 (a + off)) in wr r v.
Definition sd (r off b : Z) : M Hart unit := let* a := rd b in let* v := rd r in store 8 (wrap 64 (a + off)) v.

Definition signed_half (w v : Z) : Z := if v <? 2 ^ (w - 1) then v else v + 2 ^ 64 - 2 ^ w.

Definition lw (r off b : Z) : M Hart unit := let* a := rd b in let* v := load 4 (wrap 64 (a + off)) in wr r (signed_half 32 v).
Definition lh (r off b : Z) : M Hart unit := let* a := rd b in let* v := load 2 (wrap 64 (a + off)) in wr r (signed_half 16 v).
Definition lhu (r off b : Z) : M Hart unit := let* a := rd b in let* v := load 2 (wrap 64 (a + off)) in wr r v.
Definition sw (r off b : Z) : M Hart unit := let* a := rd b in let* v := rd r in store 4 (wrap 64 (a + off)) (wrap 32 v).
Definition sh (r off b : Z) : M Hart unit := let* a := rd b in let* v := rd r in store 2 (wrap 64 (a + off)) (wrap 16 v).

Definition mv (r s : Z) : M Hart unit := let* v := rd s in wr r v.
Definition li (r v : Z) : M Hart unit := wr r (wrap 64 v).
Definition addi (r s i : Z) : M Hart unit := let* v := rd s in wr r (wrap 64 (v + i)).
Definition add (r s t : Z) : M Hart unit := let* v := rd s in let* w := rd t in wr r (wrap 64 (v + w)).

(** [csrc sstatus, r] and [csrs sstatus, r] *)
Definition csrc_sstatus (r : Z) : M Hart unit := let* v := rd r in modify (fun h => with_sstatus (Z.ldiff (sstatus h) v) h).
Definition csrs_sstatus (r : Z) : M Hart unit := let* v := rd r in modify (fun h => with_sstatus (Z.lor (sstatus h) v) h).

(** [csrrw r, sscratch, s] *)
Definition csrrw_sscratch (r s : Z) : M Hart unit :=
  let* v := rd s in let* old := gets sscratch in modify (with_sscratch v) ;; wr r old.

Definition mini_panic : M Hart unit := panic "Early panic!".

(** [beqz r, mini_panic] *)
Definition beqz_panic (r : Z) : M Hart unit := let* v := rd r in if v =? 0 then mini_panic else ret tt.

Definition mul (r s t : Z) : M Hart unit := let* v := rd s in let* w := rd t in wr r (wrap 64 (v * w)).
Definition ori (r s i : Z) : M Hart unit := let* v := rd s in wr r (Z.lor v i).
Definition andi (r s i : Z) : M Hart unit := let* v := rd s in wr r (Z.land v (wrap 64 i)).
Definition slli (r s i : Z) : M Hart unit := let* v := rd s in wr r (wrap 64 (Z.shiftl v i)).

Abbreviation ra := 1.
Abbreviation sp := 2.
Abbreviation t0 := 5.
Abbreviation t1 := 6.
Abbreviation t2 := 7.
Abbreviation s0 := 8.
Abbreviation s1 := 9.
Abbreviation a0 := 10.
Abbreviation a1 := 11.
Abbreviation a2 := 12.
Abbreviation a3 := 13.
Abbreviation a6 := 16.
Abbreviation a7 := 17.
Abbreviation s2 := 18.
Abbreviation s3 := 19.
Abbreviation t3 := 28.
Abbreviation t4 := 29.

(** ** Layout (types.s)

    Without the floating point extensions, as they are not defined anywhere. *)

Definition GP_REGBYTES : Z := 8.
Definition REGSTATE_SIZE : Z := 32 * GP_REGBYTES.
Definition TASK_STACK : Z := REGSTATE_SIZE.
Definition TASK_VMS : Z := TASK_STACK + GP_REGBYTES.
Definition TASK_NOTIFY_HANDLER : Z := TASK_VMS + GP_REGBYTES.
Definition TASK_IRQ : Z := TASK_NOTIFY_HANDLER + GP_REGBYTES.
Definition TASK_FLAGS : Z := TASK_IRQ + 4.
Definition TASK_EXECUTOR_ID : Z := TASK_FLAGS + 2.
Definition TASK_PRIORITY : Z := TASK_EXECUTOR_ID + 2.
Definition TASK_PRIORITY_FACTOR : Z := TASK_PRIORITY + 2.
Definition TASK_WAIT_UNTIL : Z := TASK_PRIORITY_FACTOR + 4 + 2.

Definition TASK_FLAG_NOTIFYING : Z := 0x1.
Definition TASK_FLAG_NOTIFIED : Z := 0x2.
Definition SYSCALL_MAX : Z := 20.
Definition SYSCALL_ERR_NOCALL : Z := 1.

Definition PLIC_STRIDE_CONTEXT : Z := 0x1000.
Definition PLIC_CLAIM_OFFSET : Z := 0x20 * 0x10000 + 0x4.

(** ** Saving and loading registers (registers.s) *)

(** [n] registers from [from] on. *)
Fixpoint save_regs (n : nat) (from base : Z) : M Hart unit :=
  match n with
  | O => ret tt
  | S n => sd from (from * GP_REGBYTES) base ;; save_regs n (from + 1) base
  end.

Fixpoint load_regs (n : nat) (from base : Z) : M Hart unit :=
  match n with
  | O => ret tt
  | S n => ld from (from * GP_REGBYTES) base ;; load_regs n (from + 1) base
  end.

Definition save_gp_regs (from to base : Z) : M Hart unit := save_regs (Z.to_nat (to - from + 1)) from base.
Definition load_gp_regs (from to base : Z) : M Hart unit := load_regs (Z.to_nat (to - from + 1)) from base.

(** The lines marked to save the floating point registers, which mark them as clean. *)
Definition fp_clean : M Hart unit :=
  li t0 (Z.shiftl 1 13) ;; csrc_sstatus t0 ;; li t0 (Z.shiftl 1 14) ;; csrs_sstatus t0.

(** ** Words in memory *)

Definition word_at (m : Mem) (a v : Z) : Prop := bytes_at m a (le_split 8 v).

(** An area of the kernel, in the upper half of the addresses. *)
Definition kernel_area (T n : Z) : Prop := 2 ^ 38 <= T /\ T + n <= 2 ^ 64.

Lemma bytes_of_some m a l n : bytes_at m a l -> length l = n -> bytes_of m a n = Some l.
Proof.
  intros Hb <-. unfold bytes_of. apply mapM_Some_2. apply Forall2_same_length_lookup. split; [by rewrite length_seqZ, Nat2Z.id|].
  intros i k v Hk Hv. apply lookup_seqZ in Hk as [-> Hi]. apply Hb. unfold nth_z. rewrite decide_True by lia. rewrite <-Hv. f_equal. lia.
Qed.

Lemma bytes_of_room m a n : room m a (Z.of_nat n) -> is_Some (bytes_of m a n).
Proof.
  intros Hr. unfold bytes_of. apply mapM_is_Some_2. apply Forall_forall. intros i Hi%elem_of_seqZ. apply Hr. lia.
Qed.

Lemma is_user_kernel T n a : kernel_area T n -> T <= a < T + n -> is_user (wrap 64 a) = false /\ wrap 64 a = a.
Proof.
  intros [H1 H2] Ha. rewrite wrap_small by (unfold fits; lia). split; [|done]. unfold is_user. apply Z.ltb_ge. lia.
Qed.

Lemma load_word h a v : is_user a = false -> word_at (kmem h) a v -> fits 64 v -> load 8 a h = Done (v, h).
Proof.
  intros Hu Hw Hf. unfold load, memory_at. rewrite Hu. rewrite (bytes_of_some _ _ _ 8 Hw) by apply length_le_split. by rewrite le_combine_split.
Qed.

Lemma store_word h a v : is_user a = false -> room (kmem h) a 8 -> store 8 a v h = Done (tt, with_kmem (put a (le_split 8 v) (kmem h)) h).
Proof.
  intros Hu Hr. unfold store, memory_at. rewrite Hu. destruct (bytes_of_room _ _ 8%nat Hr) as [l ->]. unfold set_memory. by rewrite Hu.
Qed.

Lemma reg_of_eq g r v : r <> 0 -> reg_of (<[r := v]> g) r = v.
Proof. intros Hr. unfold reg_of. rewrite (proj2 (Z.eqb_neq _ _)) by done. by rewrite lookup_insert_eq. Qed.

Lemma reg_of_ne g r r' v : r <> r' -> reg_of (<[r := v]> g) r' = reg_of g r'.
Proof. intros Hr. unfold reg_of. by rewrite lookup_insert_ne. Qed.

(** The fields of a changed hart, and its registers. *)
Ltac fields := cbn [with_x with_sepc with_sstatus with_sscratch with_satp with_kmem with_umem with_plic
  x pc user sepc scause sstatus sscratch satp kmem umem claims completed].

Ltac regs := unfold reg; fields; repeat first [rewrite reg_of_eq by (done || lia) | rewrite reg_of_ne by (done || lia)].

Lemma with_x_same h : with_x (x h) h = h.
Proof. by destruct h. Qed.

Lemma wr_done r v h : r <> 0 -> wr r v h = Done (tt, with_x (<[r := v]> (x h)) h).
Proof. intros Hr. unfold wr, modify. by rewrite (proj2 (Z.eqb_neq _ _)). Qed.

(** Loading and storing registers in an area of the kernel. *)
Lemma ld_done r off b h T n v :
  r <> 0 -> reg h b = T -> kernel_area T n -> 0 <= off < n -> word_at (kmem h) (T + off) v -> fits 64 v ->
  ld r off b h = Done (tt, with_x (<[r := v]> (x h)) h).
Proof.
  intros Hr Hb Hk Ho Hw Hf. destruct (is_user_kernel T n (T + off) Hk ltac:(lia)) as [Hu Ew]. unfold ld. erewrite bind_done by done. rewrite Hb, Ew in *.
  erewrite bind_done by (by apply load_word). by apply wr_done.
Qed.

Lemma sd_done r off b h T n :
  reg h b = T -> kernel_area T n -> 0 <= off < n -> room (kmem h) (T + off) 8 ->
  sd r off b h = Done (tt, with_kmem (put (T + off) (le_split 8 (reg h r)) (kmem h)) h).
Proof.
  intros Hb Hk Ho Hr. destruct (is_user_kernel T n (T + off) Hk ltac:(lia)) as [Hu Ew]. unfold sd. erewrite bind_done by done. rewrite Hb, Ew in *.
  erewrite bind_done by done. by apply store_word.
Qed.

(** The bytes of a list of words. *)
Definition words_of (l : list Z) : list Z := concat (le_split 8 <$> l).

Lemma words_of_cons v l : words_of (v :: l) = le_split 8 v ++ words_of l.
Proof. done. Qed.

Lemma zlen_words_of l : zlen (words_of l) = 8 * zlen l.
Proof. induction l as [|v l IH]; [done|]. change (words_of (v :: l)) with (le_split 8 v ++ words_of l). rewrite zlen_app, zlen_le_split, zlen_cons, IH. lia. Qed.

Lemma words_of_at m a l i v : bytes_at m a (words_of l) -> nth_z l i = Some v -> word_at m (a + 8 * i) v.
Proof.
  revert a i. induction l as [|w l IH]; intros a i Hb Hi; [by apply nth_z_Some in Hi; change (zlen (@nil Z)) with 0 in Hi; lia|].
  change (words_of (w :: l)) with (le_split 8 w ++ words_of l) in Hb. apply bytes_at_app in Hb as [Hw Hb]. rewrite zlen_le_split in Hb.
  pose proof (nth_z_Some _ _ _ Hi). destruct (decide (i = 0)) as [->|Hne]; [injection Hi as ->; by rewrite Z.mul_0_r, Z.add_0_r|].
  rewrite nth_z_tail in Hi by lia. replace (a + 8 * i) with (a + Z.of_nat 8 + 8 * (i - 1)) by lia. by apply IH.
Qed.

Lemma save_regs_spec n : forall from base h T size,
  reg h base = T -> kernel_area T size -> 0 <= from -> 8 * (from + Z.of_nat n) <= size -> room (kmem h) T size ->
  save_regs n from base h = Done (tt, with_kmem (put (T + 8 * from) (words_of (reg h <$> seqZ from (Z.of_nat n))) (kmem h)) h).
Proof.
  induction n as [|n IH]; intros from base h T size Hb Hk Hf Hs Hr; [by destruct h|]. cbn [save_regs].
  erewrite bind_done by (apply (sd_done _ _ _ _ T size); [done|done|unfold GP_REGBYTES; lia|intros i Hi; rewrite <-Z.add_assoc; apply Hr; unfold GP_REGBYTES in *; lia]).
  rewrite (IH (from + 1) base _ T size); [|done|done|lia|lia|by apply put_room]. rewrite (seqZ_cons from) by lia. rewrite fmap_cons, words_of_cons.
  cbn [with_kmem kmem].
  replace (Z.pred (Z.of_nat (S n))) with (Z.of_nat n) by lia. replace (Z.succ from) with (from + 1) by lia.
  unfold GP_REGBYTES. replace (from * 8) with (8 * from) by lia. rewrite <-put_app_after, zlen_le_split.
  by replace (T + 8 * from + Z.of_nat 8) with (T + 8 * (from + 1)) by lia.
Qed.

Lemma load_regs_spec n : forall from base h T size (c : Z -> Z),
  reg h base = T -> kernel_area T size -> 0 < from -> 8 * (from + Z.of_nat n) <= size ->
  base < from \/ from + Z.of_nat n - 1 <= base ->
  (forall i, from <= i < from + Z.of_nat n -> word_at (kmem h) (T + 8 * i) (c i) /\ fits 64 (c i)) ->
  exists g, load_regs n from base h = Done (tt, with_x g h) /\
    forall r, g !! r = if decide (from <= r < from + Z.of_nat n) then Some (c r) else x h !! r.
Proof.
  induction n as [|n IH]; intros from base h T size c Hb Hk Hf Hs Hne Hc.
  { exists (x h). split; [by destruct h|]. intros r. by rewrite decide_False by lia. }
  cbn [load_regs]. destruct (Hc from ltac:(lia)) as [Hw Hfit].
  erewrite bind_done by (apply (ld_done _ _ _ _ T size (c from)); [lia|done|done|unfold GP_REGBYTES; lia|by replace (from * GP_REGBYTES) with (8 * from) by (unfold GP_REGBYTES; lia)|done]).
  destruct n as [|n'] eqn:En.
  - exists (<[from := c from]> (x h)). split; [done|]. intros r. destruct (decide (r = from)) as [->|Hr].
    + rewrite lookup_insert_eq. by rewrite decide_True by lia.
    + rewrite lookup_insert_ne by done. by rewrite decide_False by lia.
  - rewrite <-En in *. destruct (IH (from + 1) base (with_x (<[from := c from]> (x h)) h) T size c) as (g & E & Hg); [|done|lia|lia|lia|intros i Hi; apply Hc; lia|].
    { regs. exact Hb. }
    exists g. split; [exact E|]. intros r. rewrite Hg. cbn [with_x x]. destruct (decide (r = from)) as [->|Hr].
    + rewrite decide_False, lookup_insert_eq by lia. by rewrite decide_True by lia.
    + rewrite lookup_insert_ne by done. by repeat case_decide; try lia.
Qed.

Lemma csrrw_done r s h : r <> 0 -> csrrw_sscratch r s h = Done (tt, with_x (<[r := sscratch h]> (x h)) (with_sscratch (reg h s) h)).
Proof.
  intros Hr. unfold csrrw_sscratch. erewrite bind_done by done. erewrite bind_done by done. erewrite bind_done by done. by rewrite wr_done.
Qed.

Lemma bit_testbit v k : 0 <= k -> bit v (Z.shiftl 1 k) = Z.testbit v k.
Proof.
  intros Hk. unfold bit. rewrite Z.shiftl_1_l. destruct (Z.testbit v k) eqn:E.
  - rewrite (proj2 (Z.eqb_neq _ _)); [done|]. intros H. apply (f_equal (fun y => Z.testbit y k)) in H. rewrite Z.land_spec, Z.pow2_bits_true, E, Z.bits_0 in H by done. done.
  - rewrite (proj2 (Z.eqb_eq _ _)); [done|]. apply Z.bits_inj'. intros n Hn. rewrite Z.land_spec, Z.bits_0. destruct (decide (n = k)) as [->|Hne]; [by rewrite E|].
    rewrite Z.pow2_bits_false by done. apply andb_false_r.
Qed.

(** The status with the floating point registers clean. *)
Definition fp_sstatus (st : Z) : Z := Z.lor (Z.ldiff st (Z.shiftl 1 13)) (Z.shiftl 1 14).

Lemma fp_sstatus_bit st k : 0 <= k -> k <> 13 -> k <> 14 -> Z.testbit (fp_sstatus st) k = Z.testbit st k.
Proof.
  intros Hk H13 H14. unfold fp_sstatus. rewrite Z.lor_spec, Z.ldiff_spec, !Z.shiftl_1_l, !Z.pow2_bits_false by done.
  by rewrite andb_true_r, orb_false_r.
Qed.

Lemma ldiff_bit st k j : 0 <= k -> Z.testbit (Z.ldiff st (Z.shiftl 1 k)) j = Z.testbit st j && negb (j =? k).
Proof. intros Hk. rewrite Z.ldiff_spec, Z.shiftl_1_l, Z.pow2_bits_eqb by done. by rewrite (Z.eqb_sym k j). Qed.

Lemma set_bit_other v k on j : 0 <= k -> j <> k -> Z.testbit (set_bit v (Z.shiftl 1 k) on) j = Z.testbit v j.
Proof.
  intros Hk Hj. unfold set_bit. destruct on; [|by rewrite ldiff_bit, (proj2 (Z.eqb_neq j k)), andb_true_r].
  by rewrite Z.lor_spec, Z.shiftl_1_l, Z.pow2_bits_false, orb_false_r by done.
Qed.

Lemma li_done r v h : r <> 0 -> li r v h = Done (tt, with_x (<[r := wrap 64 v]> (x h)) h).
Proof. intros Hr. by apply wr_done. Qed.

Lemma csrc_done r h : csrc_sstatus r h = Done (tt, with_sstatus (Z.ldiff (sstatus h) (reg h r)) h).
Proof. done. Qed.

Lemma csrs_done r h : csrs_sstatus r h = Done (tt, with_sstatus (Z.lor (sstatus h) (reg h r)) h).
Proof. done. Qed.

Lemma fp_clean_spec h : exists g, fp_clean h = Done (tt, with_x g (with_sstatus (fp_sstatus (sstatus h)) h)) /\ forall r, r <> t0 -> g !! r = x h !! r.
Proof.
  exists (<[5 := wrap 64 (Z.shiftl 1 14)]> (<[5 := wrap 64 (Z.shiftl 1 13)]> (x h))). split.
  - unfold fp_clean. erewrite bind_done by (by apply li_done). erewrite bind_done by apply csrc_done. erewrite bind_done by (by apply li_done).
    rewrite csrs_done. regs. done.
  - intros r Hr. by rewrite !lookup_insert_ne by done.
Qed.

Lemma reg_some h r v : r <> 0 -> x h !! r = Some v -> reg h r = v.
Proof. intros Hr Hx. unfold reg, reg_of. by rewrite (proj2 (Z.eqb_neq _ _)), Hx. Qed.

Lemma reg_same h g r : g !! r = x h !! r -> reg_of g r = reg h r.
Proof. intros H. unfold reg, reg_of. by rewrite H. Qed.

Lemma reg_with_x h g r : g !! r = x h !! r -> reg (with_x g h) r = reg h r.
Proof. intros H. unfold reg, reg_of. fields. by rewrite H. Qed.

(** ** The memory of tasks *)

Lemma ld_at r off b h a v :
  r <> 0 -> wrap 64 (reg h b + off) = a -> is_user a = false -> word_at (kmem h) a v -> fits 64 v -> ld r off b h = Done (tt, with_x (<[r := v]> (x h)) h).
Proof. intros Hr Ea Hu Hw Hf. unfold ld. erewrite bind_done by done. rewrite Ea. erewrite bind_done by (by apply load_word). by apply wr_done. Qed.

(** Access to the memory of a task. *)
Definition user_area (a n : Z) : Prop := 0 <= a /\ a + n <= 2 ^ 38.

Lemma user_memory h a um : 0 <= a < 2 ^ 38 -> Z.testbit (sstatus h) 18 = true -> umem h !! satp h = Some um -> memory_at h (wrap 64 a) = Some um.
Proof.
  intros Ha Hs Hu. unfold memory_at, is_user. rewrite wrap_small by (unfold fits; lia). rewrite (proj2 (Z.ltb_lt _ _)) by lia.
  by rewrite (bit_testbit _ 18), Hs.
Qed.

Lemma usd_done r off b h a um :
  reg h b + off = a -> user_area a 8 -> Z.testbit (sstatus h) 18 = true -> umem h !! satp h = Some um -> room um a 8 ->
  sd r off b h = Done (tt, with_umem (<[satp h := put a (le_split 8 (reg h r)) um]> (umem h)) h).
Proof.
  intros Ea [H0 H1] Hs Hu Hr. unfold sd. erewrite bind_done by done. erewrite bind_done by done. rewrite Ea. unfold store. erewrite user_memory by (done || lia).
  rewrite wrap_small by (unfold fits; lia). destruct (bytes_of_room _ _ 8%nat Hr) as [l ->]. unfold set_memory, is_user. by rewrite (proj2 (Z.ltb_lt _ _)) by lia.
Qed.

Lemma uld_done r off b h a um v :
  r <> 0 -> reg h b + off = a -> user_area a 8 -> Z.testbit (sstatus h) 18 = true -> umem h !! satp h = Some um -> word_at um a v -> fits 64 v ->
  ld r off b h = Done (tt, with_x (<[r := v]> (x h)) h).
Proof.
  intros Hr Ea [H0 H1] Hs Hu Hw Hf. unfold ld. erewrite bind_done by done. rewrite Ea. erewrite bind_done; [by apply wr_done|].
  unfold load. erewrite user_memory by (done || lia). rewrite wrap_small by (unfold fits; lia). rewrite (bytes_of_some _ _ _ 8 Hw) by apply length_le_split.
  by rewrite le_combine_split.
Qed.

(** ** Fields of less than a word *)

Lemma load_n h a n v : is_user a = false -> bytes_at (kmem h) a (le_split n v) -> fits (8 * Z.of_nat n) v -> load n a h = Done (v, h).
Proof.
  intros Hu Hw Hf. unfold load, memory_at. rewrite Hu. rewrite (bytes_of_some _ _ _ n Hw) by apply length_le_split. by rewrite le_combine_split.
Qed.

Lemma store_n h a n v : is_user a = false -> room (kmem h) a (Z.of_nat n) -> store n a v h = Done (tt, with_kmem (put a (le_split n v) (kmem h)) h).
Proof.
  intros Hu Hr. unfold store, memory_at. rewrite Hu. destruct (bytes_of_room _ _ n Hr) as [l ->]. unfold set_memory. by rewrite Hu.
Qed.

Lemma le_split_4 v : fits 16 v -> le_split 4 v = le_split 2 v ++ [0; 0].
Proof.
  intros Hv. unfold fits in Hv. cbn [le_split app]. repeat f_equal; [|].
  - rewrite !Z.div_div, (Z.div_small v) by lia. done.
  - rewrite !Z.div_div, (Z.div_small v) by lia. done.
Qed.

(** Storing half of a field whose other half is zero. *)
Lemma put_half m a v n : bytes_at m a (le_split 4 v) -> fits 16 v -> fits 16 n -> bytes_at (put a (le_split 2 n) m) a (le_split 4 n).
Proof.
  intros Hb Hv Hn. rewrite (le_split_4 n Hn). apply bytes_at_app. split; [apply put_bytes_at|].
  rewrite (le_split_4 v Hv) in Hb. apply bytes_at_app in Hb as [_ Hb]. rewrite zlen_le_split in *. apply bytes_at_put; [done|]. rewrite zlen_le_split. lia.
Qed.

Lemma add_done r s t h : r <> 0 -> add r s t h = Done (tt, with_x (<[r := wrap 64 (reg h s + reg h t)]> (x h)) h).
Proof. intros Hr. unfold add. erewrite bind_done by done. erewrite bind_done by done. by apply wr_done. Qed.

Lemma mul_done r s t h : r <> 0 -> mul r s t h = Done (tt, with_x (<[r := wrap 64 (reg h s * reg h t)]> (x h)) h).
Proof. intros Hr. unfold mul. erewrite bind_done by done. erewrite bind_done by done. by apply wr_done. Qed.

Lemma mv_done r s h : r <> 0 -> mv r s h = Done (tt, with_x (<[r := reg h s]> (x h)) h).
Proof. intros Hr. unfold mv. erewrite bind_done by done. by apply wr_done. Qed.

Lemma addi_done r s i h : r <> 0 -> addi r s i h = Done (tt, with_x (<[r := wrap 64 (reg h s + i)]> (x h)) h).
Proof. intros Hr. unfold addi. erewrite bind_done by done. by apply wr_done. Qed.

Lemma ori_done r s i h : r <> 0 -> ori r s i h = Done (tt, with_x (<[r := Z.lor (reg h s) i]> (x h)) h).
Proof. intros Hr. unfold ori. erewrite bind_done by done. by apply wr_done. Qed.

Lemma beqz_done r h : reg h r <> 0 -> beqz_panic r h = Done (tt, h).
Proof. intros Hr. unfold beqz_panic. erewrite bind_done by done. by rewrite (proj2 (Z.eqb_neq _ _)). Qed.
