(* ===== verification/Trap.v ===== *)
(** * Traps and context switches

    The assembly of the kernel that enters and leaves tasks: src/kernel/src/arch/riscv/trap.s and timer.s,
    an instruction at a time.  The Rust functions that the code calls are parameters that follow the
    calling convention.

    The theorems: a system call returns to the instruction after it with all registers but the two
    results; a task that was interrupted by the timer and is started again continues with the
    registers, the program counter and the address space it had; and the offsets the assembly uses are
    those of the structure in Rust. *)

From S2P Require Import Prelude Bytes CMem Abi Hart.

(** ** Traps (trap.s) *)

Section traps.
(** How a Rust function of the kernel ends: it returns to the assembly, or it leaves the kernel for a task by
    itself, as [io_wait] and [io_notify_return] do. *)
Inductive CallEnd : Type := Returned | Left.

(** The address of the table, the places behind the two jumps, and the functions by their addresses. *)
Context (sync_trap_table syscall_table behind_call : Z) (call : Z -> M Hart CallEnd).

(** The head of [trap_syscall]: the system call is skipped. *)
Definition syscall_skip : M Hart unit :=
  addi sp sp (-1 * GP_REGBYTES) ;;
  let* pc := gets sepc in
  wr t0 pc ;; addi t0 t0 4 ;;
  let* v := rd t0 in modify (with_sepc v) ;;
  li t1 SYSCALL_MAX.

(** [jalr ra, r] to a function. *)
Definition jalr_call (r : Z) : M Hart CallEnd :=
  let* f := rd r in li 1 behind_call ;; call f.

(** The end of [trap_syscall]: all registers of the task but [a0] and [a1]. *)
Definition syscall_end : M Hart unit :=
  let* v := gets sscratch in
  wr 31 v ;;
  load_gp_regs 1 9 31 ;;
  load_gp_regs 12 31 31 ;;
  sret.

Definition GP_REGORDER : Z := 3.

Definition trap_syscall : M Hart unit :=
  syscall_skip ;;
  let* n := rd a7 in
  let* m := rd t1 in
  if n <? m then
    li t0 syscall_table ;;
    slli a7 a7 GP_REGORDER ;;
    add t0 t0 a7 ;;
    ld t0 0 t0 ;;
    let* e := jalr_call t0 in
    match e with
    | Left => ret tt
    | Returned => fp_clean ;; syscall_end
    end
  else li a0 SYSCALL_ERR_NOCALL ;; syscall_end.

(** [trap_handler]: saving of the registers and the jump through [sync_trap_table]. *)
Definition trap_save : M Hart unit :=
  csrrw_sscratch 31 31 ;;
  beqz_panic 31 ;;
  save_gp_regs 1 30 31 ;;
  let* v := gets sepc in
  wr t0 v ;; addi t0 t0 4 ;; sd t0 (0 * GP_REGBYTES) 31 ;;
  mv a6 31 ;;
  ld sp (REGSTATE_SIZE + 0 * GP_REGBYTES) 31 ;;
  sd 30 (30 * GP_REGBYTES) 31 ;;
  csrrw_sscratch 30 31 ;;
  sd 30 (31 * GP_REGBYTES) 31.

(** The entry of the table for a system call is [jal trap_syscall]; the other ones go to [mini_panic]. *)
Definition trap_handler : M Hart unit :=
  trap_save ;;
  li 28 sync_trap_table ;;
  let* cause := gets scause in
  wr 29 cause ;; slli 29 29 2 ;; add 28 28 29 ;;
  if cause =? 8 then li 1 (sync_trap_table + 8 * 4 + 4) ;; trap_syscall else mini_panic.

(** [trap_start_task], with the task in [a0]. *)
Definition trap_start_task : M Hart unit :=
  li t0 SPP ;; csrc_sstatus t0 ;;
  fp_clean ;;
  ld t0 (REGSTATE_SIZE + 1 * GP_REGBYTES) a0 ;;
  let* v := rd t0 in modify (with_satp v) ;;
  let* v := rd a0 in modify (with_sscratch v) ;;
  ld t0 (0 * GP_REGBYTES) a0 ;;
  let* v := rd t0 in modify (with_sepc v) ;;
  load_gp_regs 1 9 a0 ;;
  load_gp_regs 11 31 a0 ;;
  load_gp_regs 10 10 a0 ;;
  sret.
End traps.

(** ** Interrupts *)

(** The head of [timer_interrupt_handler] and of [external_interrupt_handler]. *)
Definition interrupt_save : M Hart unit :=
  csrrw_sscratch 31 31 ;;
  save_gp_regs 1 30 31 ;;
  csrrw_sscratch 30 31 ;;
  sd 30 (31 * GP_REGBYTES) 31 ;;
  let* v := gets sepc in
  wr 30 v ;; sd 30 (0 * GP_REGBYTES) 31 ;;
  ld sp TASK_STACK 31.

(** [timer_interrupt_handler], up to the jump to [executor_next_task]. *)
Definition timer_interrupt_handler : M Hart unit := interrupt_save ;; beqz_panic sp.

(** ** Tasks

    The structure of a task at [T]: room for the registers, and the fields the assembly reads. *)
Definition TASK_SIZE : Z := TASK_WAIT_UNTIL + 8.

(** [TaskData] of src/kernel/src/task/mod.rs, up to the fields only Rust uses; [RegisterState] is its first. *)
Definition TaskData : struct :=
  ("pc"%string, Pointer) :: replicate 31 ("x"%string, U64) ++
  [("stack"%string, Pointer); ("shared_state"%string, U64); ("notification_handler"%string, Pointer); ("current_irq"%string, U32); ("flags"%string, U16);
   ("executor_id"%string, U16); ("priority"%string, U16); ("priority_factor"%string, U16); ("wait_time"%string, U64)].

(** The offsets of the assembly are those of the structure in Rust, and the registers lie where
    [save_gp_regs] and [load_gp_regs] use them. *)
Lemma task_layout_agrees :
  (Abi.layout TaskData).1 = ((fun r => r * GP_REGBYTES) <$> seqZ 0 32) ++
    [TASK_STACK; TASK_VMS; TASK_NOTIFY_HANDLER; TASK_IRQ; TASK_FLAGS; TASK_EXECUTOR_ID; TASK_PRIORITY; TASK_PRIORITY_FACTOR; TASK_WAIT_UNTIL] /\
  (Abi.layout TaskData).2 = TASK_SIZE.
Proof. by vm_compute. Qed.

Ltac layout :=
  unfold TASK_SIZE, TASK_WAIT_UNTIL, TASK_PRIORITY_FACTOR, TASK_PRIORITY, TASK_EXECUTOR_ID, TASK_FLAGS, TASK_IRQ, TASK_NOTIFY_HANDLER,
    TASK_VMS, TASK_STACK, REGSTATE_SIZE, GP_REGBYTES in *; lia.

Record task_at (m : Mem) (T stack vms handler : Z) : Prop := {
  ta_area : kernel_area T TASK_SIZE;
  ta_room : room m T TASK_SIZE;
  ta_fields : bytes_at m (T + TASK_STACK) (words_of [stack; vms; handler]);
  ta_fits : fits 64 stack /\ fits 64 vms /\ fits 64 handler
}.

(** The saved program counter and registers. *)
Definition context (p : Z) (c : Z -> Z) : list Z := words_of (p :: (c <$> seqZ 1 31)).

Definition fits_all (c : Z -> Z) : Prop := forall r, 1 <= r <= 31 -> fits 64 (c r).

Lemma task_at_field m T stack vms handler i v :
  task_at m T stack vms handler -> nth_z [stack; vms; handler] i = Some v -> word_at m (T + (TASK_STACK + 8 * i)) v /\ fits 64 v.
Proof.
  intros H Hi. split; [rewrite Z.add_assoc; by eapply words_of_at; [apply H|]|]. destruct (ta_fits _ _ _ _ _ H) as (?&?&?).
  apply nth_z_elem in Hi. set_solver.
Qed.

Lemma context_word m T p c i : bytes_at m T (context p c) -> 1 <= i <= 31 -> word_at m (T + 8 * i) (c i).
Proof.
  intros Hb Hi. apply (words_of_at _ _ _ i (c i) Hb). rewrite nth_z_tail by lia. unfold nth_z. rewrite decide_True by lia.
  rewrite list_lookup_fmap, lookup_seqZ_lt by lia. cbn. do 2 f_equal. lia.
Qed.

Lemma context_pc m T p c : bytes_at m T (context p c) -> word_at m T p.
Proof. intros Hb. rewrite <-(Z.add_0_r T). change 0 with (8 * 0). by apply (words_of_at _ _ _ 0 p Hb). Qed.

Lemma zlen_context p c : zlen (context p c) = 256.
Proof. unfold context. rewrite zlen_words_of, zlen_cons, zlen_fmap. done. Qed.

(** The fields are not those of the registers. *)
Lemma task_at_put m T stack vms handler off l :
  task_at m T stack vms handler -> off + zlen l <= TASK_STACK \/ TASK_IRQ <= off -> task_at (put (T + off) l m) T stack vms handler.
Proof.
  intros H Hl. constructor; [apply H|apply put_room, H| |apply H]. apply bytes_at_put; [apply H|]. rewrite zlen_words_of.
  change (zlen [stack; vms; handler]) with 3. unfold TASK_IRQ, TASK_NOTIFY_HANDLER, TASK_VMS, GP_REGBYTES in *. lia.
Qed.

Lemma task_at_context m T stack vms handler p c : task_at m T stack vms handler -> task_at (put T (context p c) m) T stack vms handler.
Proof. intros H. rewrite <-(Z.add_0_r T) at 1. apply task_at_put; [done|]. left. rewrite zlen_context. layout. Qed.

(** The stores of the registers, of [x31] and of the program counter make the context. *)
Lemma put_context T p (c : Z -> Z) m :
  put T (le_split 8 p) (put (T + 31 * 8) (le_split 8 (c 31)) (put (T + 8 * 1) (words_of (c <$> seqZ 1 30)) m)) = put T (context p c) m.
Proof.
  unfold context. assert (seqZ 1 31 = seqZ 1 30 ++ [31]) as -> by done. rewrite fmap_app, words_of_cons.
  assert (words_of ((c <$> seqZ 1 30) ++ (c <$> [31])) = words_of (c <$> seqZ 1 30) ++ le_split 8 (c 31)) as ->.
  { unfold words_of. rewrite fmap_app, concat_app. cbn [fmap list_fmap concat]. by rewrite app_nil_r. }
  rewrite put_app, zlen_le_split, <-put_app_after, zlen_words_of, zlen_fmap. change (zlen (seqZ 1 30)) with 30.
  replace (T + Z.of_nat 8 + 8 * 30) with (T + 31 * 8) by lia. by replace (T + Z.of_nat 8) with (T + 8 * 1) by lia.
Qed.

(** The registers that were swapped out of the way. *)
Lemma save_low h T stack vms handler :
  sscratch h = T -> task_at (kmem h) T stack vms handler ->
  let h1 := with_x (<[31 := T]> (x h)) (with_sscratch (reg h 31) h) in
  save_gp_regs 1 30 31 h1 = Done (tt, with_kmem (put (T + 8 * 1) (words_of (reg h <$> seqZ 1 30)) (kmem h)) h1).
Proof.
  intros Hs Ht h1. unfold save_gp_regs. change (Z.to_nat (30 - 1 + 1)) with 30%nat.
  rewrite (save_regs_spec 30 1 31 h1 T TASK_SIZE); [|unfold h1; by regs|apply Ht|done|by vm_compute|apply Ht].
  assert (reg h1 <$> seqZ 1 (Z.of_nat 30) = reg h <$> seqZ 1 30) as ->; [|done].
  apply list_fmap_ext. intros i r Hr%lookup_seqZ. unfold h1. by regs.
Qed.

Lemma task_room m T stack vms handler off n :
  task_at m T stack vms handler -> 0 <= off -> off + n <= TASK_SIZE -> room m (T + off) n.
Proof. intros Ht H0 Hn i Hi. rewrite <-Z.add_assoc. apply Ht. lia. Qed.

Lemma interrupt_save_spec h T stack vms handler :
  sscratch h = T -> task_at (kmem h) T stack vms handler ->
  exists g, interrupt_save h = Done (tt, with_x g (with_kmem (put T (context (sepc h) (reg h)) (kmem h)) h)) /\ g !! 31 = Some T /\ g !! 2 = Some stack.
Proof.
  intros Hs Ht. unfold interrupt_save. erewrite bind_done by (by apply csrrw_done). rewrite Hs. erewrite bind_done by (by apply (save_low _ _ _ _ _ Hs Ht)).
  erewrite bind_done by (by apply csrrw_done). fields.
  pose proof (task_at_put _ _ _ _ _ (8 * 1) (words_of (reg h <$> seqZ 1 30)) Ht ltac:(left; rewrite zlen_words_of, zlen_fmap; change (zlen (seqZ 1 30)) with 30; layout)) as Ht1.
  erewrite bind_done by (apply (sd_done _ _ _ _ T TASK_SIZE); [by regs|apply Ht|layout|eapply task_room; [exact Ht1|layout..]]).
  erewrite bind_done by done. erewrite bind_done by (by apply wr_done).
  pose proof (task_at_put _ _ _ _ _ (31 * GP_REGBYTES) (le_split 8 (reg h 31)) Ht1 ltac:(left; rewrite zlen_le_split; layout)) as Ht2.
  erewrite bind_done by (apply (sd_done _ _ _ _ T TASK_SIZE); [by regs|apply Ht|layout|regs; eapply task_room; [exact Ht2|layout..]]).
  regs. replace (T + 0 * GP_REGBYTES) with T by layout. change (31 * GP_REGBYTES) with (31 * 8) in *.
  rewrite put_context. fold (reg h).
  pose proof (task_at_context _ _ _ _ _ (sepc h) (reg h) Ht) as Ht3. destruct (task_at_field _ _ _ _ _ 0 stack Ht3 eq_refl) as [Hst Hfit].
  exists (<[2 := stack]> (<[30 := sepc h]> (<[30 := reg h 31]> (<[31 := T]> (x h))))).
  split; [rewrite (ld_done _ _ _ _ T TASK_SIZE stack); [destruct h; cbn in *; by subst|done|by regs|apply Ht|layout| |done]|].
  - fields. by replace (T + TASK_STACK) with (T + (TASK_STACK + 8 * 0)) by lia.
  - fields. split; [|by rewrite lookup_insert_eq]. by rewrite lookup_insert_ne, !(lookup_insert_ne _ 30), lookup_insert_eq.
Qed.

(** ** Starting a task *)

(** Loading registers that were saved at [T]. *)
Lemma load_context h T size p c from to base :
  kernel_area T size -> 256 <= size -> bytes_at (kmem h) T (context p c) -> fits_all c -> reg h base = T ->
  1 <= from <= to -> to <= 31 -> base < from \/ to <= base ->
  exists g, load_gp_regs from to base h = Done (tt, with_x g h) /\ forall r, g !! r = if decide (from <= r <= to) then Some (c r) else x h !! r.
Proof.
  intros Hk Hsz Hb Hf HT Hr1 Hr2 Hbase. unfold load_gp_regs.
  destruct (load_regs_spec (Z.to_nat (to - from + 1)) from base h T size c HT Hk ltac:(lia) ltac:(lia) ltac:(lia)) as (g & E & Hg).
  { intros i Hi. split; [apply (context_word _ _ p); [done|lia]|apply Hf; lia]. }
  exists g. split; [done|]. intros r. rewrite Hg. by repeat case_decide; try lia.
Qed.

(** What [trap_start_task] leaves. *)
Record started (h h' : Hart) (T p vms : Z) (c : Z -> Z) : Prop := {
  st_regs : forall r, 1 <= r <= 31 -> reg h' r = c r;
  st_pc : pc h' = p;
  st_user : user h' = true;
  st_satp : satp h' = vms;
  st_sscratch : sscratch h' = T;
  st_memory : kmem h' = kmem h /\ umem h' = umem h
}.

Lemma trap_start_task_spec h T stack vms handler p c :
  reg h a0 = T -> task_at (kmem h) T stack vms handler -> bytes_at (kmem h) T (context p c) -> fits_all c -> fits 64 p ->
  exists h', trap_start_task h = Done (tt, h') /\ started h h' T p vms c.
Proof.
  intros HT Ht Hb Hf Hp. unfold trap_start_task. erewrite bind_done by (by apply li_done). erewrite bind_done by apply csrc_done. regs.
  set (h1 := with_sstatus _ _). destruct (fp_clean_spec h1) as (g1 & E1 & Hg1). erewrite bind_done by exact E1. fields.
  destruct (task_at_field _ _ _ _ _ 1 vms Ht eq_refl) as [Hv Hvf].
  assert (reg_of g1 a0 = T) as Ha0 by (rewrite (reg_same h1) by (by apply Hg1); unfold h1; by regs).
  erewrite bind_done by (apply (ld_done _ _ _ _ T TASK_SIZE vms); [done|exact Ha0|apply Ht|layout|exact Hv|done]).
  erewrite bind_done by done. erewrite bind_done by done. regs. erewrite bind_done by done. regs. rewrite Ha0.
  erewrite bind_done by done.
  erewrite bind_done by (apply (ld_done _ _ _ _ T TASK_SIZE p); [done|by regs|apply Ht|layout|rewrite Z.add_0_r; by eapply context_pc|done]).
  erewrite bind_done by done. erewrite bind_done by done. regs. set (h2 := with_sepc _ _).
  assert (reg h2 a0 = T) as Ha2 by (unfold h2; by regs).
  destruct (load_context h2 T TASK_SIZE p c 1 9 a0) as (g3 & E3 & Hg3); [apply Ht|layout|done|done|done|lia..|]. erewrite bind_done by exact E3.
  destruct (load_context (with_x g3 h2) T TASK_SIZE p c 11 31 a0) as (g4 & E4 & Hg4); [apply Ht|layout|done|done| |lia..|].
  { rewrite <-Ha2. apply reg_with_x. by rewrite Hg3. }
  erewrite bind_done by exact E4.
  destruct (load_context (with_x g4 (with_x g3 h2)) T TASK_SIZE p c 10 10 a0) as (g5 & E5 & Hg5); [apply Ht|layout|done|done| |lia..|].
  { rewrite <-Ha2. rewrite (reg_with_x (with_x g3 h2)) by (by rewrite Hg4). apply reg_with_x. by rewrite Hg3. }
  erewrite bind_done by exact E5. eexists. split; [done|]. constructor; fields; try done.
  - intros r Hr. apply reg_some; [lia|]. fields. rewrite Hg5. case_decide; [done|]. fields. rewrite Hg4. case_decide; [done|]. fields. rewrite Hg3. by rewrite decide_True by lia.
  - rewrite (bit_testbit _ 8) by done. unfold h2. fields. rewrite fp_sstatus_bit by done. unfold h1. fields. change (wrap 64 SPP) with (Z.shiftl 1 8). by rewrite ldiff_bit, andb_false_r.
Qed.

(** ** Saving on a trap *)

Lemma put_trap_context T p (c : Z -> Z) m :
  put (T + 31 * 8) (le_split 8 (c 31)) (put (T + 30 * 8) (le_split 8 (c 30)) (put T (le_split 8 p) (put (T + 8 * 1) (words_of (c <$> seqZ 1 30)) m))) =
  put T (context p c) m.
Proof.
  rewrite (put_self (T + 30 * 8)).
  - rewrite put_comm by (right; rewrite zlen_le_split; lia). apply put_context.
  - apply bytes_at_put; [|left; rewrite zlen_le_split; lia].
    assert (seqZ 1 30 = seqZ 1 29 ++ [30]) as -> by done. rewrite fmap_app.
    replace (T + 30 * 8) with (T + 8 * 1 + 8 * 29) by lia. apply (words_of_at _ _ _ 29 (c 30) (put_bytes_at _ _ _)).
    rewrite nth_z_app_r; rewrite zlen_fmap; by change (zlen (seqZ 1 29)) with 29.
Qed.

Lemma trap_save_spec h T stack vms handler :
  sscratch h = T -> T <> 0 -> task_at (kmem h) T stack vms handler ->
  exists g, trap_save h = Done (tt, with_x g (with_kmem (put T (context (wrap 64 (sepc h + 4)) (reg h)) (kmem h)) h)) /\
    g !! a6 = Some T /\ g !! sp = Some stack /\ forall r, r <> 2 -> r <> 5 -> r <> 16 -> r <> 30 -> r <> 31 -> g !! r = x h !! r.
Proof.
  intros Hs H0 Ht. unfold trap_save. erewrite bind_done by (by apply csrrw_done). rewrite Hs.
  erewrite bind_done by (unfold beqz_panic; erewrite bind_done by done; regs; by rewrite (proj2 (Z.eqb_neq _ _))).
  erewrite bind_done by (by apply (save_low _ _ _ _ _ Hs Ht)). erewrite bind_done by done. erewrite bind_done by (by apply wr_done).
  erewrite bind_done by (unfold addi; erewrite bind_done by done; by apply wr_done). regs.
  pose proof (task_at_put _ _ _ _ _ (8 * 1) (words_of (reg h <$> seqZ 1 30)) Ht ltac:(left; rewrite zlen_words_of, zlen_fmap; change (zlen (seqZ 1 30)) with 30; layout)) as Ht1.
  erewrite bind_done by (apply (sd_done _ _ _ _ T TASK_SIZE); [by regs|apply Ht|layout|eapply task_room; [exact Ht1|layout..]]).
  regs. change (reg_of (x h)) with (reg h). replace (T + 0 * GP_REGBYTES) with T by layout. set (p := wrap 64 (sepc h + 4)).
  erewrite bind_done by (unfold mv; erewrite bind_done by done; by apply wr_done). regs.
  pose proof (task_at_put _ _ _ _ _ 0 (le_split 8 p) Ht1 ltac:(left; rewrite zlen_le_split; layout)) as Ht2. rewrite Z.add_0_r in Ht2.
  destruct (task_at_field _ _ _ _ _ 0 stack Ht2 eq_refl) as [Hst Hfit].
  erewrite bind_done by (apply (ld_done _ _ _ _ T TASK_SIZE stack); [done|by regs|apply Ht|layout| |done];
    fields; by replace (T + (REGSTATE_SIZE + 0 * GP_REGBYTES)) with (T + (TASK_STACK + 8 * 0)) by layout).
  erewrite bind_done by (apply (sd_done _ _ _ _ T TASK_SIZE); [by regs|apply Ht|layout|eapply task_room; [exact Ht2|layout..]]). regs.
  erewrite bind_done by (by apply csrrw_done). regs.
  pose proof (task_at_put _ _ _ _ _ (30 * GP_REGBYTES) (le_split 8 (reg h 30)) Ht2 ltac:(left; rewrite zlen_le_split; layout)) as Ht3.
  rewrite (sd_done _ _ _ _ T TASK_SIZE); [|by regs|apply Ht|layout|eapply task_room; [exact Ht3|layout..]]. regs.
  change (31 * GP_REGBYTES) with (31 * 8). change (30 * GP_REGBYTES) with (30 * 8). change (reg_of (x h)) with (reg h). rewrite put_trap_context.
  exists (<[30 := reg h 31]> (<[2 := stack]> (<[16 := T]> (<[5 := p]> (<[5 := sepc h]> (<[31 := T]> (x h))))))).
  split; [destruct h; cbn in *; by subst|].
  split_and!; [by rewrite !(lookup_insert_ne _ _ 16), lookup_insert_eq by done|by rewrite !(lookup_insert_ne _ _ 2), lookup_insert_eq by done|]. intros r ?????. by rewrite !lookup_insert_ne by done.
Qed.

(** ** Interrupted by the timer *)

(** The kernel keeps what is saved of a task and its fields. *)
Definition keeps_task (T : Z) (m m' : Mem) : Prop := (forall a, T <= a < T + TASK_IRQ -> m' !! a = m !! a) /\ room m' T TASK_SIZE.

Lemma keeps_task_at T m m' stack vms handler : keeps_task T m m' -> task_at m T stack vms handler -> task_at m' T stack vms handler.
Proof.
  intros [Hk Hr] H. constructor; [apply H|done| |apply H]. intros i v Hi. rewrite Hk; [by apply H|]. apply nth_z_Some in Hi. rewrite zlen_words_of in Hi.
  change (zlen [stack; vms; handler]) with 3 in Hi. layout.
Qed.

Lemma keeps_context T m m' p c : keeps_task T m m' -> bytes_at m T (context p c) -> bytes_at m' T (context p c).
Proof.
  intros [Hk _] H i v Hi. rewrite Hk; [by apply H|]. apply nth_z_Some in Hi. rewrite zlen_context in Hi. layout.
Qed.

(** A task runs on the hart. *)
Record running (h : Hart) (T stack vms handler : Z) : Prop := {
  rn_user : user h = true;
  rn_scratch : sscratch h = T;
  rn_task : task_at (kmem h) T stack vms handler;
  rn_fits : fits_all (reg h) /\ fits 64 (pc h);
  rn_stack : stack <> 0
}.

Definition TIMER : Z := 2 ^ 63 + 5.

(** C7: a task that the timer interrupts continues where it was.  The interrupt saves it; whenever the
    kernel starts it again, on whatever state of the hart, it has all its registers, its program counter
    and its address space, as long as the kernel did not change what was saved. *)
Theorem preempted_task_resumes h T stack vms handler :
  running h T stack vms handler ->
  exists h1, timer_interrupt_handler (enter TIMER h) = Done (tt, h1) /\ reg h1 sp = stack /\ task_at (kmem h1) T stack vms handler /\
    forall h2, reg h2 a0 = T -> keeps_task T (kmem h1) (kmem h2) ->
      exists h3, trap_start_task h2 = Done (tt, h3) /\ (forall r, 1 <= r <= 31 -> reg h3 r = reg h r) /\ pc h3 = pc h /\
        user h3 = true /\ satp h3 = vms /\ sscratch h3 = T.
Proof.
  intros [Hu Hs Ht [Hf Hp] Hst]. destruct (interrupt_save_spec (enter TIMER h) T stack vms handler Hs Ht) as (g & E & H31 & H2).
  eexists. split; [|split; [|split]].
  - unfold timer_interrupt_handler. erewrite bind_done by exact E. unfold beqz_panic. erewrite bind_done by done.
    rewrite (reg_some _ 2 stack) by (done || exact H2). by rewrite (proj2 (Z.eqb_neq _ _)).
  - by apply reg_some.
  - fields. by apply task_at_context.
  - intros h2 Ha0 Hk. fields. destruct (trap_start_task_spec h2 T stack vms handler (pc h) (reg h)) as (h3 & E3 & []); [done| | |done..|].
    + eapply keeps_task_at; [exact Hk|]. by apply task_at_context.
    + eapply keeps_context; [exact Hk|]. apply put_bytes_at.
    + by exists h3.
Qed.

(** ** System calls *)

Lemma syscall_skip_spec h : exists g, syscall_skip h = Done (tt, with_x g (with_sepc (wrap 64 (sepc h + 4)) h)) /\
  g !! t1 = Some SYSCALL_MAX /\ forall r, r <> 2 -> r <> 5 -> r <> 6 -> g !! r = x h !! r.
Proof.
  unfold syscall_skip. erewrite bind_done by (unfold addi; erewrite bind_done by done; by apply wr_done). erewrite bind_done by done.
  erewrite bind_done by (by apply wr_done). erewrite bind_done by (unfold addi; erewrite bind_done by done; by apply wr_done). regs.
  erewrite bind_done by done. erewrite bind_done by done. rewrite li_done by done. regs. eexists. split; [done|].
  split; [by rewrite lookup_insert_eq|]. intros r ???. by rewrite !lookup_insert_ne by done.
Qed.

(** The end of a trap: the registers [from] to [to] and 12 to 31 of the task in [sscratch]. *)
Lemma syscall_end_spec h T stack vms handler p c :
  sscratch h = T -> task_at (kmem h) T stack vms handler -> bytes_at (kmem h) T (context p c) -> fits_all c ->
  exists g, syscall_end h = sret (with_x g h) /\
    forall r, 1 <= r <= 31 -> g !! r = if decide (r = a0 \/ r = a1) then x h !! r else Some (c r).
Proof.
  intros Hs Ht Hb Hf. unfold syscall_end. erewrite bind_done by done. erewrite bind_done by (by apply wr_done). rewrite Hs. set (h1 := with_x _ h).
  destruct (load_context h1 T TASK_SIZE p c 1 9 31) as (g1 & E1 & Hg1); [apply Ht|layout|done|done|unfold h1; by regs|lia..|]. erewrite bind_done by exact E1.
  destruct (load_context (with_x g1 h1) T TASK_SIZE p c 12 31 31) as (g2 & E2 & Hg2); [apply Ht|layout|done|done| |lia..|].
  { rewrite reg_with_x by (by rewrite Hg1). unfold h1. by regs. }
  erewrite bind_done by exact E2. exists g2. split; [done|]. intros r Hr. rewrite Hg2. fields. rewrite Hg1. unfold h1. fields.
  destruct (decide (12 <= r <= 31)); [by rewrite decide_False by lia|]. destruct (decide (1 <= r <= 9)); [by rewrite decide_False by lia|].
  rewrite decide_True by lia. by rewrite lookup_insert_ne by lia.
Qed.

(** A function that returned to the assembly on the hart that runs [T]: it kept what the assembly needs to go back. *)
Record call_kept (T : Z) (hx hy : Hart) : Prop := {
  ck_scratch : sscratch hy = T;
  ck_task : keeps_task T (kmem hx) (kmem hy);
  ck_sepc : sepc hy = sepc hx;
  ck_spp : Z.testbit (sstatus hy) 8 = Z.testbit (sstatus hx) 8
}.

(** The table of the functions, outside of the structure of the task. *)
Record table_at (m : Mem) (T syscall_table : Z) (fs : list Z) : Prop := {
  tb_entries : bytes_at m syscall_table (words_of fs);
  tb_len : zlen fs = SYSCALL_MAX;
  tb_fits : Forall (fits 64) fs;
  tb_area : kernel_area syscall_table (8 * SYSCALL_MAX);
  tb_apart : syscall_table + 8 * SYSCALL_MAX <= T \/ T + TASK_SIZE <= syscall_table
}.

Lemma enter_user h cause : user h = true -> Z.testbit (sstatus (enter cause h)) 8 = false.
Proof. intros Hu. unfold enter. fields. rewrite Hu. unfold set_bit at 1. cbn [negb]. unfold SPP. by rewrite ldiff_bit, andb_false_r. Qed.

Lemma jalr_call_eq behind_call call r h : jalr_call behind_call call r h = call (reg h r) (with_x (<[1 := wrap 64 behind_call]> (x h)) h).
Proof. done. Qed.

(** The head of a trap from a task, up to the test of the number. *)
Lemma trap_head_spec sync_trap_table syscall_table behind_call call h T stack vms handler :
  running h T stack vms handler -> T <> 0 ->
  exists h2, trap_handler sync_trap_table syscall_table behind_call call (enter 8 h) =
    (let* n := rd a7 in let* m := rd t1 in
     if n <? m then li t0 syscall_table ;; slli a7 a7 GP_REGORDER ;; add t0 t0 a7 ;; ld t0 0 t0 ;;
       let* e := jalr_call behind_call call t0 in match e with Left => ret tt | Returned => fp_clean ;; syscall_end end
     else li a0 SYSCALL_ERR_NOCALL ;; syscall_end) h2 /\
    reg h2 a6 = T /\ reg h2 t1 = SYSCALL_MAX /\ (forall r, 10 <= r <= 15 \/ r = a7 -> reg h2 r = reg h r) /\
    kmem h2 = put T (context (wrap 64 (pc h + 4)) (reg h)) (kmem h) /\ sscratch h2 = T /\ sepc h2 = wrap 64 (pc h + 4) /\ Z.testbit (sstatus h2) 8 = false.
Proof.
  intros [Hu Hs Ht [Hf Hp] Hst] H0. pose proof (enter_user h 8 Hu) as Hspp.
  destruct (trap_save_spec (enter 8 h) T stack vms handler Hs H0 Ht) as (g & E & H16 & H2 & Hg). unfold trap_handler. erewrite bind_done by exact E.
  set (h1 := with_x g _) in *. erewrite bind_done by (by apply li_done). erewrite bind_done by done. erewrite bind_done by (by apply wr_done).
  erewrite bind_done by (unfold slli; erewrite bind_done by done; by apply wr_done). erewrite bind_done by (by apply add_done).
  change (scause _ =? 8) with true. cbv iota. erewrite bind_done by (by apply li_done). fields. set (g' := <[1 := _]> _).
  assert (forall r, r <> 1 -> r <> 28 -> r <> 29 -> g' !! r = g !! r) as Hg' by (intros r ???; unfold g'; by rewrite !lookup_insert_ne by done).
  unfold trap_syscall. destruct (syscall_skip_spec (with_x g' h1)) as (g1 & E1 & H6 & Hg1). erewrite bind_done by exact E1. eexists. split; [reflexivity|]. fields.
  split_and!; [by apply reg_some; [|fields; rewrite Hg1, Hg'; [exact H16|done..]]|by apply reg_some| |done..].
  intros r Hr. unfold reg at 1. fields. apply reg_same. rewrite Hg1 by lia. fields. rewrite Hg' by lia. apply Hg; lia.
Qed.

(** The function of a number is looked up in the table and called. *)
Lemma table_lookup behind_call call h2 T syscall_table fs f m p c :
  table_at m T syscall_table fs -> kmem h2 = put T (context p c) m -> nth_z fs (reg h2 a7) = Some f ->
  exists hx, (forall X (k : CallEnd -> M Hart X), (li t0 syscall_table ;; slli a7 a7 GP_REGORDER ;; add t0 t0 a7 ;; ld t0 0 t0 ;; let* e := jalr_call behind_call call t0 in k e) h2 =
      (let* e := call f in k e) hx) /\
    (forall r, 10 <= r <= 16 -> reg hx r = reg h2 r) /\ reg hx a7 = 8 * reg h2 a7 /\
    kmem hx = kmem h2 /\ sscratch hx = sscratch h2 /\ sepc hx = sepc h2 /\ Z.testbit (sstatus hx) 8 = Z.testbit (sstatus h2) 8.
Proof.
  intros [Hte Htl Htf [Hta Htb] Htd] Hk En. pose proof (nth_z_Some _ _ _ En) as Hn. rewrite Htl in Hn. set (n := reg h2 a7) in *.
  assert (fits 64 f) as Hff by (rewrite Forall_forall in Htf; apply Htf; by eapply nth_z_elem). change SYSCALL_MAX with 20 in *.
  assert (wrap 64 (Z.shiftl n GP_REGORDER) = 8 * n) as E8 by (change GP_REGORDER with 3; rewrite Z.shiftl_mul_pow2, wrap_small by (unfold fits; lia); lia).
  exists (with_x (<[1 := wrap 64 behind_call]> (<[5 := f]> (<[5 := syscall_table + 8 * n]> (<[17 := 8 * n]> (<[5 := syscall_table]> (x h2)))))) h2). split.
  - intros X k. erewrite bind_done by (by apply li_done). erewrite bind_done by (unfold slli; erewrite bind_done by done; by apply wr_done). erewrite bind_done by (by apply add_done).
    regs. change (reg_of (x h2) 17) with n. rewrite E8, (wrap_small 64 syscall_table), (wrap_small 64 (syscall_table + _)) by (unfold fits; lia).
    erewrite bind_done.
    2:{ apply (ld_at _ _ _ _ (syscall_table + 8 * n) f); [done| | | |done].
        - regs. change (reg_of (x h2) 17) with n. rewrite wrap_small; unfold fits; lia.
        - unfold is_user. apply Z.ltb_ge. lia.
        - fields. rewrite Hk. eapply words_of_at; [|exact En]. apply bytes_at_put; [done|]. rewrite zlen_words_of, zlen_context, Htl. layout. }
    unfold bind at 1. rewrite jalr_call_eq. by regs.
  - split; [intros r Hr; unfold reg at 1; fields; by rewrite !reg_of_ne by lia|]. split; [by regs|]. by fields.
Qed.

(** The way back to the task. *)
Lemma syscall_end_returns h3 T stack vms handler p c m :
  task_at m T stack vms handler -> bytes_at m T (context p c) -> fits_all c -> keeps_task T m (kmem h3) -> sscratch h3 = T -> Z.testbit (sstatus h3) 8 = false ->
  exists h', syscall_end h3 = Done (tt, h') /\ pc h' = sepc h3 /\ user h' = true /\ sscratch h' = T /\
    (forall r, 1 <= r <= 31 -> r <> a0 -> r <> a1 -> reg h' r = c r) /\ reg h' a0 = reg h3 a0 /\ reg h' a1 = reg h3 a1.
Proof.
  intros Ht Hb Hf Hk Hs3 Hb3. destruct (syscall_end_spec h3 T stack vms handler p c) as (g4 & E4 & Hg4); [done|by eapply keeps_task_at|by eapply keeps_context|done|].
  rewrite E4. eexists. split; [done|]. fields. rewrite (bit_testbit _ 8), Hb3, Hs3 by done. split_and!; [done|done|done| | |].
  - intros r Hr H10 H11. apply reg_some; [lia|]. fields. rewrite Hg4 by done. by rewrite decide_False by lia.
  - apply reg_same. rewrite Hg4 by lia. by rewrite decide_True by lia.
  - apply reg_same. rewrite Hg4 by lia. by rewrite decide_True by lia.
Qed.

(** C8: a system call is a call.  The number selects the function in the table; the function gets the arguments of
    the task and the task itself, and finds eight times the number in [a7].  When it returns and kept what the
    assembly needs, the task continues after the instruction with the two results of the function and all its
    other registers; a function that leaves the kernel by itself, that panics or that never ends is the
    end of the trap as well.  A number without a function gives the error and changes nothing else. *)
Theorem syscall_returns sync_trap_table syscall_table behind_call call h T stack vms handler fs :
  running h T stack vms handler -> T <> 0 -> table_at (kmem h) T syscall_table fs ->
  let trap := trap_handler sync_trap_table syscall_table behind_call call (enter 8 h) in
  let back h' := pc h' = wrap 64 (pc h + 4) /\ user h' = true /\ sscratch h' = T /\ forall r, 1 <= r <= 31 -> r <> a0 -> r <> a1 -> reg h' r = reg h r in
  match nth_z fs (reg h a7) with
  | None => exists h', trap = Done (tt, h') /\ back h' /\ reg h' a0 = SYSCALL_ERR_NOCALL /\ reg h' a1 = reg h a1
  | Some f => exists hx, reg hx a6 = T /\ (forall r, 10 <= r <= 15 -> reg hx r = reg h r) /\ reg hx a7 = 8 * reg h a7 /\ sscratch hx = T /\ task_at (kmem hx) T stack vms handler /\
      match call f hx with
      | Done (Returned, hy) => call_kept T hx hy -> exists h', trap = Done (tt, h') /\ back h' /\ reg h' a0 = reg hy a0 /\ reg h' a1 = reg hy a1
      | Done (Left, hy) => trap = Done (tt, hy)
      | Panicked why => trap = Panicked why
      | OutOfFuel => trap = OutOfFuel
      end
  end.
Proof.
  intros Hrun H0 Htab trap back. destruct (trap_head_spec sync_trap_table syscall_table behind_call call h T stack vms handler Hrun H0) as (h2 & E & Ha6 & Ht1 & Hargs & Hk & Hs2 & Hp2 & Hb2).
  fold trap in E. clearbody trap. destruct Hrun as [Hu Hs Ht [Hf Hp] Hst]. assert (task_at (kmem h2) T stack vms handler) as Ht2 by (rewrite Hk; by apply task_at_context).
  assert (bytes_at (kmem h2) T (context (wrap 64 (pc h + 4)) (reg h))) as Hc2 by (rewrite Hk; apply put_bytes_at).
  assert (fits 64 (reg h a7)) as Hf7 by (apply Hf; lia). assert (reg h2 a7 = reg h a7) as H7 by (apply Hargs; lia).
  destruct (nth_z fs (reg h a7)) as [f|] eqn:En.
  - pose proof (nth_z_Some _ _ _ En) as Hn. rewrite (tb_len _ _ _ _ Htab) in Hn.
    destruct (table_lookup behind_call call h2 T syscall_table fs f (kmem h) (wrap 64 (pc h + 4)) (reg h)) as (hx & Ex & Hx & Hx7 & Hxk); [done|done|by rewrite H7|].
    rewrite H7 in Hx7. erewrite bind_done in E by done. erewrite bind_done in E by done. rewrite Ht1, H7, (proj2 (Z.ltb_lt _ _)) in E by lia.
    rewrite Ex in E. exists hx. split; [by rewrite Hx by lia|]. split; [intros r Hr; rewrite Hx by lia; apply Hargs; lia|]. destruct Hxk as (K1 & K2 & K3 & K4). split; [done|]. split; [by rewrite K2|]. split; [by rewrite K1|].
    unfold bind in E at 1. destruct (call f hx) as [[[] hy]| |]; [|done..]. intros [Hsy Hky Hpy Hby]. destruct (fp_clean_spec hy) as (gf & Ef & Hgf). erewrite bind_done in E by exact Ef. set (h3 := with_x gf _) in E.
    destruct (syscall_end_returns h3 T stack vms handler (wrap 64 (pc h + 4)) (reg h) (kmem h2)) as (h' & E' & P1 & P2 & P3 & P4 & P5 & P6); [done|done|done|by rewrite <-K1|done|unfold h3; fields; by rewrite fp_sstatus_bit, Hby, K4 by done|].
    exists h'. split; [by rewrite E|]. split; [split_and!; [by rewrite P1; unfold h3; fields; rewrite Hpy, K3|done..]|]. rewrite P5, P6. split; apply (reg_same hy); by rewrite Hgf.
  - assert (SYSCALL_MAX <= reg h a7) as Hge.
    { apply Z.le_ngt. intros Hlt. destruct (nth_z_lt fs (reg h a7)) as [y Hy]; [rewrite (tb_len _ _ _ _ Htab); unfold fits in Hf7; lia|congruence]. }
    erewrite bind_done in E by done. erewrite bind_done in E by done. rewrite Ht1, H7, (proj2 (Z.ltb_ge _ _)) in E by lia. erewrite bind_done in E by (by apply li_done). set (h3 := with_x _ h2) in E.
    destruct (syscall_end_returns h3 T stack vms handler (wrap 64 (pc h + 4)) (reg h) (kmem h2)) as (h' & E' & P1 & P2 & P3 & P4 & P5 & P6); [done|done|done|split; [done|apply Ht2]|done|done|].
    exists h'. split; [by rewrite E|]. split; [split_and!; [by rewrite P1|done..]|]. rewrite P5, P6. unfold h3. regs. split; [done|]. apply Hargs. lia.
Qed.

(** ** An example *)

(** The bytes of a task. *)
Definition task_bytes (p : Z) (c : Z -> Z) (stack vms handler irq flags : Z) : list Z :=
  context p c ++ words_of [stack; vms; handler] ++ le_split 4 irq ++ le_split 2 flags ++ replicate 18 0.

Lemma zlen_task_bytes p c stack vms handler irq flags : zlen (task_bytes p c stack vms handler irq flags) = TASK_SIZE.
Proof. unfold task_bytes. rewrite !zlen_app, zlen_context, zlen_words_of, !zlen_le_split. done. Qed.

Lemma task_bytes_at m T p c stack vms handler irq flags :
  bytes_at m T (task_bytes p c stack vms handler irq flags) -> kernel_area T TASK_SIZE -> fits 64 stack /\ fits 64 vms /\ fits 64 handler ->
  task_at m T stack vms handler /\ bytes_at m T (context p c) /\ bytes_at m (T + TASK_IRQ) (le_split 4 irq) /\ bytes_at m (T + TASK_FLAGS) (le_split 2 flags).
Proof.
  intros Hb Hk Hf. pose proof (bytes_at_room _ _ _ Hb) as Hr. rewrite zlen_task_bytes in Hr. unfold task_bytes in Hb.
  apply bytes_at_app in Hb as [Hc Hb]. apply bytes_at_app in Hb as [Hs Hb]. apply bytes_at_app in Hb as [Hi Hb]. apply bytes_at_app in Hb as [Hfl _].
  rewrite !zlen_le_split, !zlen_words_of, !zlen_context in *. change (zlen [stack; vms; handler]) with 3 in *. rewrite <-!Z.add_assoc in *. done.
Qed.

Lemma reg_of_fits g : map_Forall (fun _ v => fits 64 v) g -> fits_all (reg_of g).
Proof. intros H r _. unfold reg_of. case_match; [by unfold fits|]. destruct (g !! r) eqn:E; [by eapply H|by unfold fits]. Qed.

(** A task at [2 ^ 39] that makes the system call [n]. *)
Definition example_regs (n : Z) : gmap Z Z := <[2 := 32768]> (<[10 := 5]> (<[11 := 6]> (<[17 := n]> ∅))).

Lemma example_regs_fit n : fits 64 n -> fits_all (reg_of (example_regs n)).
Proof. intros Hn. apply reg_of_fits. repeat apply map_Forall_insert_2; try done; by unfold fits. Qed.

Definition example_hart (n : Z) : Hart :=
  mkHart (example_regs n) 4096 true 0 0 0 (2 ^ 39) 1 (put (2 ^ 39) (task_bytes 0 (fun _ => 0) (2 ^ 40) 1 8192 0 0) ∅) {[1 := put 32736 (replicate 32 0) ∅]} [] [].

Lemma example_running n : fits 64 n -> running (example_hart n) (2 ^ 39) (2 ^ 40) 1 8192.
Proof.
  intros Hn. constructor; [done|done| | |done].
  - refine (proj1 (task_bytes_at _ _ 0 (fun _ => 0) _ _ _ 0 0 (put_bytes_at _ _ _) _ _)); [split; layout|by unfold fits].
  - split; [by apply example_regs_fit|by unfold fits, example_hart].
Qed.

Lemma preempted_task_resumes_witness : running (example_hart 3) (2 ^ 39) (2 ^ 40) 1 8192 /\
  exists h1, timer_interrupt_handler (enter TIMER (example_hart 3)) = Done (tt, h1) /\ reg h1 sp = 2 ^ 40 /\
    exists h3, trap_start_task (with_x {[10 := 2 ^ 39]} h1) = Done (tt, h3) /\ reg h3 sp = 32768 /\ pc h3 = 4096.
Proof.
  assert (running (example_hart 3) (2 ^ 39) (2 ^ 40) 1 8192) as Hr by (by apply example_running). split; [exact Hr|].
  destruct (preempted_task_resumes _ _ _ _ _ Hr) as (h1 & E1 & Hs & Ht & H). exists h1. split; [exact E1|]. split; [exact Hs|].
  destruct (H (with_x {[10 := 2 ^ 39]} h1)) as (h3 & E3 & Hr3 & Hp & _).
  - apply reg_some; [done|]. fields. apply lookup_singleton_eq.
  - split; [done|apply Ht].
  - exists h3. split; [exact E3|]. split; [rewrite Hr3 by lia; reflexivity|exact Hp].
Defined.

(** A kernel with a table of functions, of which the one at 5003 returns the sum of its arguments. *)
Definition example_table : Z := 2 ^ 39 + 4096.

Definition syscall_hart (n : Z) : Hart :=
  with_kmem (put (2 ^ 39) (task_bytes 0 (fun _ => 0) (2 ^ 40) 1 8192 0 0) (put example_table (words_of (seqZ 5000 20)) ∅)) (example_hart n).

Definition example_call (f : Z) : M Hart CallEnd := fun h =>
  if f =? 5003 then Done (Returned, with_x (<[10 := 0]> (<[11 := reg h 10 + reg h 11]> (x h))) h) else OutOfFuel.

Lemma syscall_hart_running : running (syscall_hart 3) (2 ^ 39) (2 ^ 40) 1 8192.
Proof.
  constructor; [done|done| | |done].
  - refine (proj1 (task_bytes_at _ _ 0 (fun _ => 0) _ _ _ 0 0 (put_bytes_at _ _ _) _ _)); [split; layout|by unfold fits].
  - split; [by apply (example_regs_fit 3)|by unfold fits, syscall_hart, example_hart].
Qed.

Lemma example_table_at : table_at (kmem (syscall_hart 3)) (2 ^ 39) example_table (seqZ 5000 20).
Proof.
  constructor.
  - cbn [kmem syscall_hart]. fields. apply bytes_at_put; [apply put_bytes_at|]. rewrite zlen_task_bytes, zlen_words_of. unfold example_table. change (zlen (seqZ 5000 20)) with 20. layout.
  - reflexivity.
  - apply Forall_forall. intros v Hv. apply elem_of_seqZ in Hv. unfold fits. lia.
  - unfold example_table, SYSCALL_MAX. split; lia.
  - right. unfold example_table. layout.
Qed.

Lemma syscall_returns_witness : exists h', trap_handler 2000 example_table 3000 example_call (enter 8 (syscall_hart 3)) = Done (tt, h') /\
  pc h' = 4100 /\ reg h' a0 = 0 /\ reg h' a1 = 11 /\ reg h' sp = 32768.
Proof.
  destruct (syscall_returns 2000 example_table 3000 example_call _ _ _ _ _ _ syscall_hart_running ltac:(lia) example_table_at) as (hx & _ & Hx & _ & Hsx & Htx & H).
  destruct H as (h' & E & (Hp & _ & _ & Hk) & H0 & H1); [split; [exact Hsx|split; [done|apply Htx]|done|done]|].
  exists h'. split; [exact E|]. split; [rewrite Hp; reflexivity|]. rewrite H0, H1. split; [by regs|]. split; [|rewrite Hk by lia; reflexivity].
  regs. change (reg_of (x hx)) with (reg hx). rewrite !Hx by lia. reflexivity.
Defined.
