(* ===== verification/Notify.v ===== *)
(** * Notifications

    The assembly of the kernel for interrupts and notifications: src/kernel/src/arch/riscv/plic.s and
    syscall.s, an instruction at a time, and the call io_notify_return in src/kernel/src/syscall.rs
    that ends in it.

    The theorems: an interrupt enters the handler of the task that reserved it, and when the handler
    returns the task continues as if nothing had happened and the interrupt is completed; a handler can
    pass its notification on to another task; but access to the memory of tasks stays enabled after
    the return, because the instruction that should disable it uses the wrong register. *)

From S2P Require Import Prelude Bytes CMem Hart Trap.

(** ** Interrupts (plic.s) *)

(** [notification_enter]: the type in [a0], the value in [a1], the address in [a7] and the task in [x31]. *)
Definition notification_enter : M Hart unit :=
  li t0 SPP ;; csrc_sstatus t0 ;;
  sd 0 TASK_WAIT_UNTIL 31 ;;
  let* v := rd 31 in modify (with_sscratch v) ;;
  ld t0 TASK_VMS 31 ;;
  let* v := rd t0 in modify (with_satp v) ;;
  ld t0 (2 * GP_REGBYTES + REGSTATE_SIZE) 31 ;;
  let* v := rd t0 in modify (with_sepc v) ;;
  load_gp_regs 2 2 31 ;;
  li t0 SUM ;; csrs_sstatus t0 ;;
  ld 30 (10 * GP_REGBYTES) 31 ;; sd 30 (-4 * GP_REGBYTES) sp ;;
  ld 30 (11 * GP_REGBYTES) 31 ;; sd 30 (-3 * GP_REGBYTES) sp ;;
  ld 30 (17 * GP_REGBYTES) 31 ;; sd 30 (-2 * GP_REGBYTES) sp ;;
  ld 30 (0 * GP_REGBYTES) 31 ;; sd 30 (-1 * GP_REGBYTES) sp ;;
  csrc_sstatus t0 ;;
  fp_clean ;;
  load_gp_regs 1 1 31 ;;
  load_gp_regs 3 9 31 ;;
  load_gp_regs 12 16 31 ;;
  load_gp_regs 18 31 31 ;;
  sret.

Section notifications.
(** The addresses of the controller and of the table of reservations, and what [executor_get_task]
    leaves. *)
Context (plic_address plic_reservations : Z) (executor_get_task : Hart -> Hart).

(** The address of the claim register in [d], with the registers [e] and [f]. *)
Definition claim_address (d e f : Z) : M Hart unit :=
  li d plic_address ;;
  li e PLIC_CLAIM_OFFSET ;; add d d e ;;
  li e PLIC_STRIDE_CONTEXT ;; li f 1 ;; mul e e f ;; add d d e.

Definition claim_register : Z := wrap 64 (plic_address + PLIC_CLAIM_OFFSET + PLIC_STRIDE_CONTEXT).

(** Reading the claim register takes the next interrupt, or 0 when there is none. *)
Definition read_claim (r b : Z) : M Hart unit :=
  let* a := rd b in
  if a =? claim_register then
    let* h := get in
    modify (with_plic (tail (claims h)) (completed h)) ;; wr r (default 0 (head (claims h)))
  else panic "access to an unknown device".

Definition write_complete (r b : Z) : M Hart unit :=
  let* a := rd b in
  let* v := rd r in
  if a =? claim_register then modify (fun h => with_plic (claims h) (completed h ++ [wrap 32 v]) h)
  else panic "access to an unknown device".

Definition call_get_task : M Hart unit := modify executor_get_task.

Definition external_interrupt_handler : M Hart unit :=
  interrupt_save ;;
  claim_address a0 a1 a2 ;;
  read_claim s0 a0 ;;
  li a0 plic_reservations ;;
  li a2 GP_REGBYTES ;; mul a2 a2 s0 ;; add a0 a0 a2 ;;
  ld a0 (- GP_REGBYTES) a0 ;;
  addi a2 a0 1 ;;
  beqz_panic a2 ;;
  call_get_task ;;
  beqz_panic a0 ;;
  sh s0 TASK_IRQ a0 ;;
  mv 31 a0 ;;
  li a7 (-1) ;;
  mv a1 s0 ;;
  li a0 0 ;;
  notification_enter.

(** ** Returning from a notification (syscall.s) *)

(** The head of [syscall_io_notify_return], with the task in [a0]: the flags, and the interrupt is completed. *)
Definition return_irq : M Hart unit :=
  lhu t0 TASK_FLAGS a0 ;; ori t0 t0 TASK_FLAG_NOTIFIED ;;
  lw t1 TASK_IRQ a0 ;;
  let* irq := rd t1 in
  (if irq =? 0 then andi t0 t0 (Z.lnot TASK_FLAG_NOTIFYING)
   else claim_address t2 t3 t4 ;; write_complete t1 t2 ;; sw 0 TASK_IRQ a0) ;;
  mv 31 a0 ;;
  sh t0 TASK_FLAGS 31.

(** The rest: the task continues with what [notification_enter] pushed. *)
Definition return_task : M Hart unit :=
  ld t0 TASK_VMS 31 ;;
  let* v := rd t0 in modify (with_satp v) ;;
  let* v := rd 31 in modify (with_sscratch v) ;;
  load_gp_regs 2 2 31 ;;
  li t0 SUM ;; csrs_sstatus t0 ;;
  ld a0 (-4 * GP_REGBYTES) sp ;;
  ld a1 (-3 * GP_REGBYTES) sp ;;
  ld a7 (-2 * GP_REGBYTES) sp ;;
  ld t0 (-1 * GP_REGBYTES) sp ;;
  let* v := rd t0 in modify (with_sepc v) ;;
  csrc_sstatus t0 ;;
  fp_clean ;;
  load_gp_regs 1 9 31 ;;
  load_gp_regs 12 16 31 ;;
  load_gp_regs 18 31 31 ;;
  sret.

Definition syscall_io_notify_return : M Hart unit := return_irq ;; return_task.

(** [syscall_io_notify_defer]: the task in [a0], its address in [a1] and the address of the other task
    in [a2].  The loop at 3 waits until the other task has no interrupt; on a single hart nobody ends
    that wait. *)
Definition set_irq (r b : Z) : M Hart unit :=
  addi t1 b TASK_IRQ ;;
  lw t2 0 t1 ;;
  let* v := rd t2 in
  if v =? 0 then sw r 0 t1 ;; li t2 0 else fun _ => OutOfFuel.

(** The words that [notification_enter] pushed go back to the saved registers. *)
Definition pop_saved : M Hart unit :=
  ld t0 (2 * GP_REGBYTES) a0 ;;
  li t1 SUM ;; csrs_sstatus t1 ;;
  ld t2 (-4 * GP_REGBYTES) t0 ;; sd t2 (10 * GP_REGBYTES) a0 ;;
  ld t2 (-3 * GP_REGBYTES) t0 ;; sd t2 (11 * GP_REGBYTES) a0 ;;
  ld t2 (-2 * GP_REGBYTES) t0 ;; sd t2 (17 * GP_REGBYTES) a0 ;;
  ld t2 (-1 * GP_REGBYTES) t0 ;; sd t2 (0 * GP_REGBYTES) a0 ;;
  csrc_sstatus t1.

Definition syscall_io_notify_defer : M Hart unit :=
  let* v := rd a0 in
  let* w := rd a1 in
  (if v =? w then mini_panic else ret tt) ;;
  ld s0 (10 * GP_REGBYTES) a0 ;;
  ld s1 (11 * GP_REGBYTES) a0 ;;
  pop_saved ;;
  lw s2 TASK_IRQ a0 ;; sw 0 TASK_IRQ a0 ;;
  lh t0 TASK_FLAGS a0 ;; ori t0 t0 TASK_FLAG_NOTIFIED ;; sh t0 TASK_FLAGS a0 ;;
  mv s3 a1 ;;
  mv a0 a2 ;;
  call_get_task ;;
  beqz_panic a0 ;;
  let* irq := rd s2 in
  (if irq =? 0 then lhu a3 TASK_FLAGS a0 ;; ori a3 a3 TASK_FLAG_NOTIFYING ;; sh a3 TASK_FLAGS a0
   else set_irq s2 a0) ;;
  mv 31 a0 ;;
  mv a0 s0 ;;
  mv a1 s1 ;;
  mv a7 s3 ;;
  notification_enter.

(** The system call [io_notify_return] of syscall.rs, with the number 9: the Rust function gets the task that
    [trap_handler] passed in [a6] and calls the assembly with it, with the address of the task that runs
    when it defers to another task, and never returns. *)
Definition io_notify_return (current_address : Z) : M Hart unit :=
  trap_save ;;
  let* cause := gets scause in
  if negb (cause =? 8) then mini_panic else
  syscall_skip ;;
  let* n := rd a7 in
  if negb (n =? 9) then panic "another system call" else
  let* defer_to := rd a0 in
  mv a0 a6 ;;
  if defer_to =? 2 ^ 64 - 1 then syscall_io_notify_return
  else li a1 current_address ;; li a2 defer_to ;; syscall_io_notify_defer.
End notifications.

(** ** Entering a handler *)

(** A saved word is moved to the stack of the task. *)
Lemma push_saved koff off h T v um a :
  0 <= koff < TASK_SIZE -> reg h 31 = T -> kernel_area T TASK_SIZE -> word_at (kmem h) (T + koff) v -> fits 64 v ->
  reg h sp + off = a -> user_area a 8 -> Z.testbit (sstatus h) 18 = true -> umem h !! satp h = Some um -> room um a 8 ->
  forall X (k : M Hart X), (ld 30 koff 31 ;; sd 30 off sp ;; k) h =
  k (with_umem (<[satp h := put a (le_split 8 v) um]> (umem h)) (with_x (<[30 := v]> (x h)) h)).
Proof.
  intros Hi HT Hk Hw Hf Ea Ha Hs Hu Hr X k. erewrite bind_done by (by apply (ld_done _ _ _ _ T TASK_SIZE v)).
  erewrite bind_done by (apply (usd_done _ _ _ _ a um); [by regs|done..]). by regs.
Qed.

(** The four words below the stack pointer. *)
Definition frame (p : Z) (c : Z -> Z) : list Z := words_of [c 10; c 11; c 17; p].

Lemma put_frame a p c (um : Mem) :
  put (a + 24) (le_split 8 p) (put (a + 16) (le_split 8 (c 17)) (put (a + 8) (le_split 8 (c 11)) (put a (le_split 8 (c 10)) um))) = put a (frame p c) um.
Proof.
  unfold frame. rewrite !words_of_cons. change (words_of []) with (@nil Z). rewrite app_nil_r.
  rewrite <-!put_app_after, !zlen_le_split. change (Z.of_nat 8) with 8. by rewrite <-!Z.add_assoc.
Qed.

(** Later stores to the memory of the same task. *)
Lemma with_umem_again u u' g g' h : with_umem u' (with_x g' (with_umem u (with_x g h))) = with_umem u' (with_x g' h).
Proof. done. Qed.

(** The pushes of [notification_enter]. *)
Lemma push_frame h T p c um X (k : M Hart X) :
  reg h 31 = T -> kernel_area T TASK_SIZE -> bytes_at (kmem h) T (context p c) -> fits_all c -> fits 64 p -> reg h sp = c 2 ->
  umem h !! satp h = Some um -> user_area (c 2 - 32) 32 -> room um (c 2 - 32) 32 -> Z.testbit (sstatus h) 18 = true ->
  exists g, (ld 30 (10 * GP_REGBYTES) 31 ;; sd 30 (-4 * GP_REGBYTES) sp ;; ld 30 (11 * GP_REGBYTES) 31 ;; sd 30 (-3 * GP_REGBYTES) sp ;;
    ld 30 (17 * GP_REGBYTES) 31 ;; sd 30 (-2 * GP_REGBYTES) sp ;; ld 30 (0 * GP_REGBYTES) 31 ;; sd 30 (-1 * GP_REGBYTES) sp ;; k) h =
    k (with_umem (<[satp h := put (c 2 - 32) (frame p c) um]> (umem h)) (with_x g h)) /\ forall r, r <> 30 -> g !! r = x h !! r.
Proof.
  intros HT Hk Hb Hf Hp Hsp Hum [Hu0 Hu1] Hr Hsum.
  assert (forall i m, 0 <= i <= 24 -> (exists l a, m = put a l um) \/ m = um -> room m (c 2 - 32 + i) 8) as Hroom.
  { intros i m Hi Hm. assert (room um (c 2 - 32 + i) 8) by (intros j Hj; rewrite <-Z.add_assoc; apply Hr; lia).
    destruct Hm as [(l & a & ->)| ->]; [by apply put_room|done]. }
  rewrite (push_saved _ _ _ T (c 10) um (c 2 - 32)); [|layout|done|done|by apply (context_word _ _ p c 10)|apply Hf; lia|rewrite Hsp; layout|split; lia|done|done|rewrite <-(Z.add_0_r (c 2 - 32)); apply Hroom; [lia|by right]].
  rewrite (push_saved _ _ _ T (c 11) (put (c 2 - 32) (le_split 8 (c 10)) um) (c 2 - 32 + 8));
    [|layout|by regs|done|by apply (context_word _ _ p c 11)|apply Hf; lia|regs; change (reg_of (x h) 2) with (reg h 2); rewrite Hsp; layout|split; lia|done|by fields; rewrite lookup_insert_eq|apply Hroom; [lia|left; by eexists _, _]].
  rewrite (push_saved _ _ _ T (c 17) (put (c 2 - 32 + 8) (le_split 8 (c 11)) (put (c 2 - 32) (le_split 8 (c 10)) um)) (c 2 - 32 + 16));
    [|layout|by regs|done|by apply (context_word _ _ p c 17)|apply Hf; lia|regs; change (reg_of (x h) 2) with (reg h 2); rewrite Hsp; layout|split; lia|done|by fields; rewrite lookup_insert_eq|apply put_room, Hroom; [lia|left; by eexists _, _]].
  rewrite (push_saved _ _ _ T p (put (c 2 - 32 + 16) (le_split 8 (c 17)) (put (c 2 - 32 + 8) (le_split 8 (c 11)) (put (c 2 - 32) (le_split 8 (c 10)) um))) (c 2 - 32 + 24));
    [|layout|by regs|done|rewrite Z.add_0_r; by eapply context_pc|done|regs; change (reg_of (x h) 2) with (reg h 2); rewrite Hsp; layout|split; lia|done|by fields; rewrite lookup_insert_eq|do 2 apply put_room; apply Hroom; [lia|left; by eexists _, _]].
  fields. rewrite put_frame. exists (<[30 := p]> (<[30 := c 17]> (<[30 := c 11]> (<[30 := c 10]> (x h))))). split.
  - rewrite !with_umem_again. by rewrite !(insert_insert_eq (umem h)).
  - intros r Hr30. by rewrite !lookup_insert_ne by done.
Qed.

(** All registers but the stack pointer and [a0], [a1] and [a7], and the return to the task. *)
Lemma load_rest h T size p c (k : M Hart unit) :
  kernel_area T size -> 256 <= size -> bytes_at (kmem h) T (context p c) -> fits_all c -> reg h 31 = T ->
  exists g, (load_gp_regs 3 9 31 ;; load_gp_regs 12 16 31 ;; load_gp_regs 18 31 31 ;; k) h = k (with_x g h) /\
    forall r, 1 <= r <= 31 -> g !! r = if decide (r = 1 \/ r = 2 \/ r = 10 \/ r = 11 \/ r = 17) then x h !! r else Some (c r).
Proof.
  intros Hk Hsz Hb Hf HT.
  destruct (load_context h T size p c 3 9 31) as (g1 & E1 & Hg1); [done..|lia|lia|lia|]. erewrite bind_done by exact E1.
  destruct (load_context (with_x g1 h) T size p c 12 16 31) as (g2 & E2 & Hg2); [done..|by rewrite reg_with_x by (by rewrite Hg1)|lia|lia|lia|]. erewrite bind_done by exact E2.
  destruct (load_context (with_x g2 (with_x g1 h)) T size p c 18 31 31) as (g3 & E3 & Hg3); [done..| |lia|lia|lia|].
  { rewrite (reg_with_x (with_x g1 h)) by (by rewrite Hg2). by rewrite reg_with_x by (by rewrite Hg1). }
  erewrite bind_done by exact E3. exists g3. split; [done|]. intros r Hr. rewrite Hg3. fields. rewrite Hg2. fields. rewrite Hg1.
  repeat case_decide; try lia; done.
Qed.

(** What entering the handler of the task [T] leaves. *)
Record notified (h h' : Hart) (T vms handler p : Z) (c : Z -> Z) (um : Mem) : Prop := {
  nt_pc : pc h' = handler;
  nt_user : user h' = true;
  nt_satp : satp h' = vms;
  nt_sscratch : sscratch h' = T;
  nt_regs : forall r, 1 <= r <= 31 -> reg h' r = if decide (r = 10 \/ r = 11 \/ r = 17) then reg h r else c r;
  nt_kmem : kmem h' = put (T + TASK_WAIT_UNTIL) (le_split 8 0) (kmem h);
  nt_umem : umem h' = <[vms := put (c 2 - 32) (frame p c) um]> (umem h);
  nt_plic : claims h' = claims h /\ completed h' = completed h;
  nt_sum : Z.testbit (sstatus h') 18 = false
}.

Lemma notification_enter_spec h T stack vms handler p c um :
  reg h 31 = T -> task_at (kmem h) T stack vms handler -> bytes_at (kmem h) T (context p c) -> fits_all c -> fits 64 p ->
  umem h !! vms = Some um -> user_area (c 2 - 32) 32 -> room um (c 2 - 32) 32 ->
  exists h', notification_enter h = Done (tt, h') /\ notified h h' T vms handler p c um.
Proof.
  intros HT Ht Hb Hf Hp Hum [Hu0 Hu1] Hroom. unfold notification_enter. erewrite bind_done by (by apply li_done). erewrite bind_done by apply csrc_done. regs.
  erewrite bind_done by (apply (sd_done _ _ _ _ T TASK_SIZE); [by regs|apply Ht|layout|eapply task_room; [exact Ht|layout..]]). regs.
  change (reg_of (x h) 0) with 0. set (m := put (T + TASK_WAIT_UNTIL) (le_split 8 0) (kmem h)).
  assert (task_at m T stack vms handler) as Htm by (apply task_at_put; [done|right; layout]).
  assert (bytes_at m T (context p c)) as Hbm by (apply bytes_at_put; [done|right; rewrite zlen_context; layout]).
  erewrite bind_done by done. erewrite bind_done by done. regs. change (reg_of (x h) 31) with (reg h 31). rewrite HT.
  destruct (task_at_field _ _ _ _ _ 1 vms Htm eq_refl) as [Hv Hvf]. destruct (task_at_field _ _ _ _ _ 2 handler Htm eq_refl) as [Hh Hhf].
  erewrite bind_done by (apply (ld_done _ _ _ _ T TASK_SIZE vms); [done|by regs|apply Ht|layout|exact Hv|done]).
  erewrite bind_done by done. erewrite bind_done by done. regs.
  erewrite bind_done by (apply (ld_done _ _ _ _ T TASK_SIZE handler); [done|by regs|apply Ht|layout|exact Hh|done]).
  erewrite bind_done by done. erewrite bind_done by done. regs.
  set (h2 := with_sepc _ _). assert (reg h2 31 = T) as H31 by (unfold h2; by regs).
  destruct (load_context h2 T TASK_SIZE p c 2 2 31) as (g3 & E3 & Hg3); [apply Ht|layout|done|done|done|lia..|]. erewrite bind_done by exact E3.
  erewrite bind_done by (by apply li_done). erewrite bind_done by apply csrs_done. regs. change (wrap 64 SUM) with SUM. set (h3 := with_sstatus _ _).
  assert (forall r, r <> 2 -> r <> 5 -> x h3 !! r = x h !! r) as Hx3.
  { intros r H2 H5. unfold h3. fields. rewrite lookup_insert_ne, Hg3 by done. rewrite decide_False by lia. unfold h2. fields. by rewrite !lookup_insert_ne by done. }
  assert (reg h3 2 = c 2) as Hsp3 by (apply reg_some; [done|]; unfold h3; fields; rewrite lookup_insert_ne, Hg3 by done; by rewrite decide_True by lia).
  assert (reg h3 31 = T) as H313 by (rewrite <-HT; unfold reg, reg_of; by rewrite Hx3).
  edestruct (push_frame h3 T p c um) as (g4 & E4 & Hg4); [done|apply Ht|done|done|done|done|done|by split|done| |rewrite E4; clear E4].
  { unfold h3, SUM. fields. by rewrite Z.lor_spec, Z.shiftl_1_l, Z.pow2_bits_true, orb_true_r. }
  erewrite bind_done by apply csrc_done. fields. set (h4 := with_sstatus _ _).
  destruct (fp_clean_spec h4) as (g5 & E5 & Hg5). erewrite bind_done by exact E5. set (h5 := with_x g5 _).
  assert (forall r, r <> 5 -> r <> 30 -> x h5 !! r = x h3 !! r) as Hx5 by (intros r H5 H30; unfold h5; fields; rewrite Hg5 by done; unfold h4; fields; by apply Hg4).
  assert (reg h5 31 = T) as H315 by (rewrite <-H313; unfold reg, reg_of; by rewrite Hx5).
  destruct (load_context h5 T TASK_SIZE p c 1 1 31) as (g6 & E6 & Hg6); [apply Ht|layout|done|done|done|lia..|]. erewrite bind_done by exact E6.
  edestruct (load_rest (with_x g6 h5) T TASK_SIZE p c) as (g7 & E7 & Hg7); [apply Ht|layout|done|done| |rewrite E7; clear E7].
  { rewrite <-H315. apply reg_with_x. by rewrite Hg6. }
  assert (sstatus h4 = Z.ldiff (sstatus h3) SUM) as Est.
  { unfold h4. fields. f_equal. apply reg_some; [done|]. fields. rewrite Hg4 by done. unfold h3. fields. by rewrite lookup_insert_eq. }
  eexists. split; [done|]. constructor; fields; try done.
  - rewrite (bit_testbit _ 8) by done. unfold h5. fields. rewrite fp_sstatus_bit by done. rewrite Est. unfold SUM at 1. rewrite ldiff_bit by done. unfold h3, h2. fields.
    rewrite Z.lor_spec. change (wrap 64 SPP) with (Z.shiftl 1 8). rewrite ldiff_bit by done. by rewrite andb_false_r.
  - intros r Hr. destruct (decide (r = 10 \/ r = 11 \/ r = 17)) as [Hs|Hs].
    + apply reg_same. rewrite Hg7 by done. rewrite decide_True by lia. fields. rewrite Hg6, decide_False by lia. rewrite Hx5 by lia. apply Hx3; lia.
    + apply reg_some; [lia|]. fields. rewrite Hg7 by done. case_decide; [|done]. fields. rewrite Hg6. case_decide; [done|]. assert (r = 2) as -> by lia.
      rewrite Hx5 by done. unfold h3. fields. rewrite lookup_insert_ne, Hg3 by done. by rewrite decide_True by lia.
  - unfold h5. unfold SPP, SPIE, SIE. rewrite !set_bit_other by done. fields. rewrite fp_sstatus_bit, Est by done. unfold SUM. by rewrite ldiff_bit, andb_false_r.
Qed.

(** ** The interrupt of a task *)

Definition irq_at (m : Mem) (T irq flags : Z) : Prop :=
  bytes_at m (T + TASK_IRQ) (le_split 4 irq) /\ bytes_at m (T + TASK_FLAGS) (le_split 2 flags) /\ fits 31 irq /\ fits 15 flags.

Section small_fields.
Context (h : Hart) (T irq flags b : Z) (stack vms handler : Z).
Context (Ht : task_at (kmem h) T stack vms handler) (Hi : irq_at (kmem h) T irq flags) (Hb : reg h b = T).

Lemma field_address off : 0 <= off < TASK_SIZE -> is_user (wrap 64 (T + off)) = false /\ wrap 64 (T + off) = T + off.
Proof using Ht. intros Ho. apply (is_user_kernel T TASK_SIZE); [apply Ht|lia]. Qed.

Lemma lw_irq r : r <> 0 -> lw r TASK_IRQ b h = Done (tt, with_x (<[r := irq]> (x h)) h).
Proof using All.
  intros Hr. destruct Hi as (H1 & _ & Hf & _). destruct (field_address TASK_IRQ ltac:(layout)) as [Hu Ew]. unfold lw. erewrite bind_done by done. rewrite Hb, Ew in *.
  erewrite bind_done by (apply load_n; [done..|unfold fits in *; lia]). unfold signed_half. rewrite (proj2 (Z.ltb_lt _ _)) by (unfold fits in *; lia). by apply wr_done.
Qed.

Lemma lhu_flags r : r <> 0 -> lhu r TASK_FLAGS b h = Done (tt, with_x (<[r := flags]> (x h)) h).
Proof using All.
  intros Hr. destruct Hi as (_ & H1 & _ & Hf). destruct (field_address TASK_FLAGS ltac:(layout)) as [Hu Ew]. unfold lhu. erewrite bind_done by done. rewrite Hb, Ew in *.
  erewrite bind_done by (apply load_n; [done..|unfold fits in *; lia]). by apply wr_done.
Qed.

Lemma lh_flags r : r <> 0 -> lh r TASK_FLAGS b h = Done (tt, with_x (<[r := flags]> (x h)) h).
Proof using All.
  intros Hr. destruct Hi as (_ & H1 & _ & Hf). destruct (field_address TASK_FLAGS ltac:(layout)) as [Hu Ew]. unfold lh. erewrite bind_done by done. rewrite Hb, Ew in *.
  erewrite bind_done by (apply load_n; [done..|unfold fits in *; lia]). unfold signed_half. rewrite (proj2 (Z.ltb_lt _ _)) by (unfold fits in *; lia). by apply wr_done.
Qed.

Lemma sh_field r off : 0 <= off -> off + 2 <= TASK_SIZE -> sh r off b h = Done (tt, with_kmem (put (T + off) (le_split 2 (wrap 16 (reg h r))) (kmem h)) h).
Proof using Ht Hb.
  intros H0 H1. destruct (field_address off ltac:(lia)) as [Hu Ew]. unfold sh. erewrite bind_done by done. erewrite bind_done by done. rewrite Hb, Ew in *.
  apply store_n; [done|]. by eapply task_room.
Qed.

Lemma sw_field r off : 0 <= off -> off + 4 <= TASK_SIZE -> sw r off b h = Done (tt, with_kmem (put (T + off) (le_split 4 (wrap 32 (reg h r))) (kmem h)) h).
Proof using Ht Hb.
  intros H0 H1. destruct (field_address off ltac:(lia)) as [Hu Ew]. unfold sw. erewrite bind_done by done. erewrite bind_done by done. rewrite Hb, Ew in *.
  apply store_n; [done|]. by eapply task_room.
Qed.
End small_fields.

Lemma context_put m T p c off l : bytes_at m T (context p c) -> 256 <= off -> bytes_at (put (T + off) l m) T (context p c).
Proof. intros Hb Ho. apply bytes_at_put; [done|]. rewrite zlen_context. lia. Qed.

Lemma claim_address_spec plic d e f h :
  d <> 0 -> e <> 0 -> f <> 0 -> d <> e -> d <> f -> e <> f ->
  exists g, claim_address plic d e f h = Done (tt, with_x g h) /\ g !! d = Some (claim_register plic) /\
    forall r, r <> d -> r <> e -> r <> f -> g !! r = x h !! r.
Proof.
  intros Hd He Hf Hde Hdf Hef. unfold claim_address. erewrite bind_done by (by apply li_done). erewrite bind_done by (by apply li_done).
  erewrite bind_done by (by apply add_done). regs. erewrite bind_done by (by apply li_done). erewrite bind_done by (by apply li_done).
  erewrite bind_done by (by apply mul_done). regs. rewrite add_done by done. regs. eexists. split; [done|]. split.
  - rewrite lookup_insert_eq. f_equal. unfold claim_register. change (wrap 64 (wrap 64 PLIC_STRIDE_CONTEXT * wrap 64 1)) with PLIC_STRIDE_CONTEXT.
    change (wrap 64 PLIC_CLAIM_OFFSET) with PLIC_CLAIM_OFFSET. rewrite !wrap_add_l. by rewrite <-Z.add_assoc, wrap_add_l, Z.add_assoc.
  - intros r ???. by rewrite !lookup_insert_ne by done.
Qed.

(** ** An interrupt

    [executor_get_task] finds the task [D] of an address, keeps the registers a function must keep and
    the structure of the task, and changes nothing else the assembly uses. *)
Record get_task_ok (get_task : Hart -> Hart) (address D : Z) : Prop := {
  gt_result : forall h, reg h a0 = address -> reg (get_task h) a0 = D;
  gt_saved : forall h r, r = 8 \/ r = 9 \/ r = 18 \/ r = 19 -> reg (get_task h) r = reg h r;
  gt_task : forall h a, D <= a < D + TASK_SIZE -> kmem (get_task h) !! a = kmem h !! a;
  gt_rest : forall h, satp (get_task h) = satp h /\ umem (get_task h) = umem h /\ claims (get_task h) = claims h /\ completed (get_task h) = completed h
}.

(** A memory with the same structure of the task. *)
Definition same_task (D : Z) (m m' : Mem) : Prop := forall a, D <= a < D + TASK_SIZE -> m' !! a = m !! a.

Lemma same_task_bytes D m m' off l : same_task D m m' -> 0 <= off -> off + zlen l <= TASK_SIZE -> bytes_at m (D + off) l -> bytes_at m' (D + off) l.
Proof. intros Hs H0 Hl Hb i v Hi. pose proof (nth_z_Some _ _ _ Hi). rewrite Hs by lia. by apply Hb. Qed.

Lemma same_task_at D m m' stack vms handler : same_task D m m' -> task_at m D stack vms handler -> task_at m' D stack vms handler.
Proof.
  intros Hs Ht. constructor; [apply Ht| | |apply Ht].
  - intros i Hi. rewrite Hs by lia. by apply Ht.
  - eapply same_task_bytes; [done|layout| |apply Ht]. rewrite zlen_words_of. change (zlen [stack; vms; handler]) with 3. layout.
Qed.

Lemma same_task_context D m m' p c : same_task D m m' -> bytes_at m D (context p c) -> bytes_at m' D (context p c).
Proof.
  intros Hs Hb. pose proof (same_task_bytes D m m' 0 (context p c) Hs) as H. rewrite Z.add_0_r, zlen_context in H. apply H; [done|layout|done].
Qed.

Lemma same_task_irq D m m' irq flags : same_task D m m' -> irq_at m D irq flags -> irq_at m' D irq flags.
Proof.
  intros Hs (H1 & H2 & H3). split; [|split; [|done]]; (eapply same_task_bytes; [done|layout| |done]; rewrite zlen_le_split; layout).
Qed.

(** The interrupt [n] for the task [D] while a task [C] runs; [m] is the memory after [C] is saved. *)
Record interrupt_for (plic_reservations : Z) (h : Hart) (m : Mem) (n address D : Z) (rest : list Z) : Prop := {
  if_claims : claims h = n :: rest;
  if_source : 1 <= n < 1024;
  if_table : kernel_area plic_reservations (8 * n);
  if_reserved : word_at m (plic_reservations + 8 * (n - 1)) address;
  if_address : fits 64 address /\ address <> 2 ^ 64 - 1;
  if_task : D <> 0
}.

(** The handler of [D] was entered with the type [ty], the value [v] and the sender [from]. *)
Record handling (h1 : Hart) (D stack vms handler p : Z) (c : Z -> Z) (ty v from irq flags : Z) : Prop := {
  hd_pc : pc h1 = handler;
  hd_user : user h1 = true;
  hd_satp : satp h1 = vms;
  hd_sscratch : sscratch h1 = D;
  hd_args : reg h1 a0 = ty /\ reg h1 a1 = v /\ reg h1 a7 = from;
  hd_regs : forall r, 1 <= r <= 31 -> r <> 10 -> r <> 11 -> r <> 17 -> reg h1 r = c r;
  hd_frame : exists um, umem h1 !! vms = Some um /\ bytes_at um (c 2 - 32) (frame p c);
  hd_task : task_at (kmem h1) D stack vms handler;
  hd_irq : irq_at (kmem h1) D irq flags;
  hd_sum : Z.testbit (sstatus h1) 18 = false
}.

(** The end of the interrupt handler and of a deferred notification. *)
Lemma enter_handler h D stack vms handler p c um irq flags :
  reg h 31 = D -> task_at (kmem h) D stack vms handler -> irq_at (kmem h) D irq flags -> bytes_at (kmem h) D (context p c) -> fits_all c -> fits 64 p ->
  umem h !! vms = Some um -> user_area (c 2 - 32) 32 -> room um (c 2 - 32) 32 ->
  exists h', notification_enter h = Done (tt, h') /\ handling h' D stack vms handler p c (reg h a0) (reg h a1) (reg h a7) irq flags /\
    umem h' = <[vms := put (c 2 - 32) (frame p c) um]> (umem h) /\ kmem h' = put (D + TASK_WAIT_UNTIL) (le_split 8 0) (kmem h) /\
    claims h' = claims h /\ completed h' = completed h.
Proof.
  intros H31 Ht Hi Hb Hf Hp Hum Hua Hur. destruct (notification_enter_spec h D stack vms handler p c um) as (h' & E & []); [done..|].
  exists h'. split; [done|]. destruct nt_plic0 as [-> ->]. rewrite nt_umem0, nt_kmem0. split; [|done]. constructor; [done..| | | | | |done].
  - split_and!; rewrite nt_regs0 by lia; by rewrite decide_True by lia.
  - intros r Hr ???. rewrite nt_regs0 by lia. by rewrite decide_False by lia.
  - rewrite nt_umem0, lookup_insert_eq. eexists. split; [done|]. apply put_bytes_at.
  - rewrite nt_kmem0. apply task_at_put; [done|]. right. layout.
  - rewrite nt_kmem0. destruct Hi as (H1 & H2 & H3). split; [|split; [|done]]; (apply bytes_at_put; [done|]; rewrite !zlen_le_split; layout).
Qed.

(** An interrupt reaches the driver that reserved it.  Whatever task runs, it is saved, the interrupt is
    claimed, and the handler of the task [D] that reserved the source runs in its address space with its
    registers, told the source; what the handler must not lose lies in the frame below its stack pointer. *)
Theorem interrupt_reaches_driver plic reservations get_task h C stackC vmsC handlerC n address D stack vms handler rest p c um flags :
  running h C stackC vmsC handlerC -> get_task_ok get_task address D ->
  let m := put C (context (pc h) (reg h)) (kmem h) in
  interrupt_for reservations h m n address D rest -> task_at m D stack vms handler -> irq_at m D 0 flags -> bytes_at m D (context p c) -> fits_all c -> fits 64 p ->
  umem h !! vms = Some um -> user_area (c 2 - 32) 32 -> room um (c 2 - 32) 32 ->
  exists h1, external_interrupt_handler plic reservations get_task (enter (2 ^ 63 + 9) h) = Done (tt, h1) /\
    handling h1 D stack vms handler p c 0 n (2 ^ 64 - 1) n flags /\ claims h1 = rest /\ completed h1 = completed h /\
    umem h1 = <[vms := put (c 2 - 32) (frame p c) um]> (umem h) /\
    exists hx, kmem hx = m /\ forall a, a < D \/ D + TASK_SIZE <= a -> kmem h1 !! a = kmem (get_task hx) !! a.
Proof.
  intros [Hu Hs HtC [HfC HpC] HstC] Hget m [Hcl Hn Htab Hres [Haf Ha1] HD] Ht Hi Hb Hf Hp Hum Hua Hur. unfold external_interrupt_handler.
  destruct (interrupt_save_spec (enter (2 ^ 63 + 9) h) C stackC vmsC handlerC Hs HtC) as (g & E & _ & _). erewrite bind_done by exact E. change (put C _ _) with m. set (h1 := with_x g _).
  destruct (claim_address_spec plic 10 11 12 h1) as (g1 & E1 & Hg1 & _); [done..|]. erewrite bind_done by exact E1.
  erewrite bind_done.
  2:{ unfold read_claim. erewrite bind_done by done. rewrite (reg_some _ 10 (claim_register plic)) by (done || exact Hg1). rewrite Z.eqb_refl.
      erewrite bind_done by done. erewrite bind_done by done. by apply wr_done. }
  fields. unfold h1. fields. change (claims (enter _ h)) with (claims h). change (completed (enter _ h)) with (completed h). rewrite Hcl. change (default 0 (head (n :: rest))) with n. cbn [tail].
  erewrite bind_done by (by apply li_done). erewrite bind_done by (by apply li_done). erewrite bind_done by (by apply mul_done). erewrite bind_done by (by apply add_done). regs.
  change (wrap 64 GP_REGBYTES) with 8. assert (fits 64 reservations) as Hrf by (destruct Htab; unfold fits; lia). rewrite (wrap_small _ reservations) by done.
  rewrite (wrap_small _ (8 * n)) by (unfold fits; lia).
  erewrite bind_done by (apply (ld_at _ _ _ _ (reservations + 8 * (n - 1)) address); [done| | |exact Hres|done];
    [regs; rewrite wrap_add_l, wrap_small; destruct Htab; unfold fits, GP_REGBYTES; lia|destruct Htab; unfold is_user; apply Z.ltb_ge; lia]).
  erewrite bind_done by (by apply addi_done). erewrite bind_done by (apply beqz_done; regs; rewrite wrap_small by (unfold fits in *; lia); unfold fits in *; lia). regs.
  erewrite bind_done by done. set (h2 := with_x _ _). set (h3 := get_task h2). destruct Hget as [Gr Gs Gt Gx].
  assert (reg h3 10 = D) as H3a by (apply Gr; unfold h2; by regs). assert (reg h3 8 = n) as H3s by (unfold h3; rewrite Gs by lia; unfold h2; by regs).
  assert (same_task D m (kmem h3)) as H3m by (intros a Ha; unfold h3; by rewrite Gt).
  erewrite bind_done by (apply beqz_done; by rewrite H3a).
  erewrite bind_done by (apply (sh_field h3 D 10 stack vms handler); [by eapply same_task_at|done|layout..]). rewrite H3s, (wrap_small 16 n) by (unfold fits; lia).
  erewrite bind_done by (by apply mv_done). erewrite bind_done by (by apply li_done). erewrite bind_done by (by apply mv_done). erewrite bind_done by (by apply li_done). regs.
  change (reg_of (x h3)) with (reg h3). rewrite H3a, H3s. destruct (Gx h2) as (Gsat & Gum & Gcl & Gco). fold h3 in Gsat, Gum, Gcl, Gco. set (h4 := with_x _ _).
  destruct (enter_handler h4 D stack vms handler p c um n flags) as (h5 & E5 & Hh5 & Eu5 & Ek5 & Ec5 & Ed5).
  - unfold h4. by regs.
  - unfold h4. fields. apply task_at_put; [by eapply same_task_at|right; layout].
  - destruct (same_task_irq _ _ _ _ _ H3m Hi) as (I1 & I2 & _ & I4). unfold h4. fields. split; [|split; [|split; [unfold fits; lia|done]]].
    + eapply put_half; [exact I1|by unfold fits|unfold fits; lia].
    + apply bytes_at_put; [done|]. rewrite !zlen_le_split. layout.
  - unfold h4. fields. apply context_put; [by eapply same_task_context|layout].
  - done.
  - done.
  - unfold h4. fields. by rewrite Gum.
  - done.
  - done.
  - exists h5. split; [done|]. rewrite Ec5, Ed5, Eu5. unfold h4 in Hh5, Ek5 |- *. fields. rewrite Gcl, Gco, Gum. split; [revert Hh5; by regs|]. split_and!; [done..|].
    exists h2. split; [done|]. intros a Ha. rewrite Ek5. fields. by rewrite !put_out by (rewrite zlen_le_split; layout).
Qed.

(** ** Returning *)

(** The handler of [D] calls [io_notify_return] with [v]: the registers and the frame are as they were when
    it was entered. *)
Record handler_calls (h : Hart) (D stack vms handler p : Z) (c : Z -> Z) (v irq flags : Z) : Prop := {
  hc_run : running h D stack vms handler;
  hc_irq : irq_at (kmem h) D irq flags;
  hc_satp : satp h = vms;
  hc_args : reg h a0 = v /\ reg h a7 = 9;
  hc_regs : forall r, 1 <= r <= 31 -> r <> 10 -> r <> 11 -> r <> 17 -> reg h r = c r;
  hc_frame : exists um, umem h !! vms = Some um /\ bytes_at um (c 2 - 32) (frame p c);
  hc_saved : fits_all c /\ fits 64 p /\ user_area (c 2 - 32) 32;
  hc_task : D <> 0
}.

(** A word of the frame. *)
Lemma frame_word um a p c i v : bytes_at um a (frame p c) -> nth_z [c 10; c 11; c 17; p] i = Some v -> word_at um (a + 8 * i) v.
Proof. apply words_of_at. Qed.

(** Storing the interrupt and the flags of a task. *)
Lemma irq_stored m T irq flags irq' flags' :
  irq_at m T irq flags -> fits 31 irq' -> fits 15 flags' -> irq_at (put (T + TASK_FLAGS) (le_split 2 flags') (put (T + TASK_IRQ) (le_split 4 irq') m)) T irq' flags'.
Proof.
  intros _ H1 H2. split; [|split; [apply put_bytes_at|done]]. apply bytes_at_put; [apply put_bytes_at|]. rewrite !zlen_le_split. layout.
Qed.

Lemma flags_stored m T irq flags flags' : irq_at m T irq flags -> fits 15 flags' -> irq_at (put (T + TASK_FLAGS) (le_split 2 flags') m) T irq flags'.
Proof.
  intros (H1 & _ & H3 & _) H2. split; [|split; [apply put_bytes_at|done]]. apply bytes_at_put; [done|]. rewrite !zlen_le_split. layout.
Qed.

(** The head of the system call. *)
Lemma io_notify_return_head plic get_task address h D stack vms handler p c v irq flags :
  handler_calls h D stack vms handler p c v irq flags ->
  exists h1, io_notify_return plic get_task address (enter 8 h) =
    (if v =? 2 ^ 64 - 1 then syscall_io_notify_return plic else li a1 address ;; li a2 v ;; syscall_io_notify_defer get_task) h1 /\
    reg h1 a0 = D /\ kmem h1 = put D (context (wrap 64 (pc h + 4)) (reg h)) (kmem h) /\ umem h1 = umem h /\ satp h1 = satp h /\
    claims h1 = claims h /\ completed h1 = completed h /\ Z.testbit (sstatus h1) 8 = false.
Proof.
  intros [[Hu Hs Ht [Hf Hp] Hst] Hi Hsat [Ha0 Ha7] Hr _ _ HD]. destruct (trap_save_spec (enter 8 h) D stack vms handler Hs HD Ht) as (g & E & H16 & _ & Hg).
  unfold io_notify_return. erewrite bind_done by exact E. set (h1 := with_x g _) in *. erewrite bind_done by done. change (scause h1 =? 8) with true. cbv iota. cbn [negb].
  destruct (syscall_skip_spec h1) as (g1 & E1 & _ & Hg1). erewrite bind_done by exact E1. erewrite bind_done by done.
  assert (forall r, r = 10 \/ r = 17 -> reg (with_x g1 (with_sepc (wrap 64 (sepc h1 + 4)) h1)) r = reg h r) as Hargs.
  { intros r Hr'. unfold reg. fields. rewrite (reg_same h1) by (apply Hg1; lia). unfold h1, reg. fields. apply reg_same. apply Hg; lia. }
  rewrite Hargs, Ha7 by lia. cbn [Z.eqb Pos.eqb negb]. erewrite bind_done by done. rewrite Hargs, Ha0 by lia. erewrite bind_done by (by apply mv_done).
  rewrite (reg_some _ 16 D) by (done || (fields; rewrite Hg1 by done; exact H16)).
  eexists. split; [done|]. fields. split_and!; [by regs|done..|]. by apply enter_user.
Qed.

(** The flags after a notification. *)
Definition returned_flags (irq flags : Z) : Z :=
  if irq =? 0 then Z.land (Z.lor flags TASK_FLAG_NOTIFIED) (wrap 64 (Z.lnot TASK_FLAG_NOTIFYING)) else Z.lor flags TASK_FLAG_NOTIFIED.

Lemma returned_flags_fits irq flags : fits 15 flags -> fits 15 (returned_flags irq flags).
Proof.
  intros Hf. assert (fits 15 (Z.lor flags TASK_FLAG_NOTIFIED)) as Hl by (apply fits_lor; [lia|done|by unfold fits, TASK_FLAG_NOTIFIED]).
  unfold returned_flags. case_match; [|done]. rewrite Z.land_comm. by apply fits_land_r.
Qed.

Lemma return_irq_spec plic h D stack vms handler irq flags :
  reg h a0 = D -> task_at (kmem h) D stack vms handler -> irq_at (kmem h) D irq flags ->
  exists g m, return_irq plic h = Done (tt, with_x g (with_kmem m (with_plic (claims h) (completed h ++ if irq =? 0 then [] else [irq]) h))) /\
    g !! 31 = Some D /\ task_at m D stack vms handler /\ irq_at m D 0 (returned_flags irq flags) /\
    (forall a, a < D + TASK_IRQ \/ D + TASK_SIZE <= a -> m !! a = kmem h !! a).
Proof.
  intros Ha Ht Hi. pose proof Hi as (_ & _ & Hif & Hff). pose proof (returned_flags_fits irq flags Hff) as Hrf. unfold return_irq.
  erewrite bind_done by (by apply (lhu_flags h D irq flags 10 stack vms handler)). erewrite bind_done by (by apply ori_done). regs.
  erewrite bind_done by (by apply (lw_irq _ D irq flags 10 stack vms handler); [..|by regs|]). regs. erewrite bind_done by done. regs.
  unfold returned_flags in *. destruct (Z.eqb_spec irq 0) as [->|Hne].
  - erewrite bind_done by (unfold andi; erewrite bind_done by done; by apply wr_done). erewrite bind_done by (by apply mv_done). regs. change (reg_of (x h) 10) with (reg h 10). rewrite Ha.
    rewrite (sh_field _ D 31 stack vms handler); [|done|by regs|layout..]. regs. rewrite (wrap_small 16) by (unfold fits in *; lia).
    match goal with |- context [Done (tt, ?s) = _] => exists (x s), (kmem s) end. fields. split; [rewrite app_nil_r; by destruct h|]. split; [by rewrite lookup_insert_eq|]. split; [apply task_at_put; [done|right; layout]|].
    split; [by eapply flags_stored|]. intros a Hx. apply put_out. rewrite zlen_le_split. layout.
  - destruct (claim_address_spec plic 7 28 29 (with_x (<[6:=irq]> (<[5:=Z.lor flags TASK_FLAG_NOTIFIED]> (<[5:=flags]> (x h)))) h)) as (g1 & E1 & Hg7 & Hg1); [done..|].
    assert (forall r, r <> 5 -> r <> 6 -> r <> 7 -> r <> 28 -> r <> 29 -> g1 !! r = x h !! r) as Hgx by (intros r ?????; rewrite Hg1 by done; fields; by rewrite !lookup_insert_ne by done).
    erewrite bind_done.
    2:{ erewrite bind_done by exact E1. erewrite bind_done.
        2:{ unfold write_complete. erewrite bind_done by done. rewrite (reg_some _ 7 (claim_register plic)) by (done || exact Hg7). erewrite bind_done by done.
            rewrite (reg_some _ 6 irq); [by rewrite Z.eqb_refl|done|fields; rewrite Hg1 by done; fields; by rewrite lookup_insert_eq]. }
        apply (sw_field _ D 10 stack vms handler); [done|rewrite <-Ha; apply reg_same; by apply Hgx|layout..]. }
    fields. rewrite (wrap_small 32 irq) by (unfold fits in *; lia). change (wrap 32 (reg _ 0)) with 0.
    erewrite bind_done by (by apply mv_done). fields. unfold reg at 1. fields. rewrite (reg_same h) by (by apply Hgx). rewrite Ha.
    rewrite (sh_field _ D 31 stack vms handler); [|apply task_at_put; [done|right; layout]|by regs|layout..].
    assert (reg_of g1 5 = Z.lor flags TASK_FLAG_NOTIFIED) as E5 by (unfold reg_of; rewrite Hg1 by done; fields; by rewrite lookup_insert_ne, lookup_insert_eq by done).
    regs. rewrite E5, (wrap_small 16) by (unfold fits in *; lia). match goal with |- context [Done (tt, ?s) = _] => exists (x s), (kmem s) end. fields. split; [by destruct h|]. split; [by rewrite lookup_insert_eq|].
    split; [do 2 (apply task_at_put; [|right; layout]); done|]. split; [by eapply irq_stored|]. intros a Hx. rewrite !put_out; [done|rewrite zlen_le_split; layout..].
Qed.

(** The task [D] continues at [p] with the registers [c]. *)
Record continues (h h' : Hart) (D vms p : Z) (c : Z -> Z) : Prop := {
  ct_pc : pc h' = p;
  ct_user : user h' = true;
  ct_satp : satp h' = vms;
  ct_sscratch : sscratch h' = D;
  ct_regs : forall r, 1 <= r <= 31 -> reg h' r = c r;
  ct_memory : kmem h' = kmem h /\ umem h' = umem h;
  ct_plic : claims h' = claims h /\ completed h' = completed h;
  ct_sum : Z.testbit (sstatus h') 18 = negb (Z.testbit p 18)
}.

Lemma return_task_spec h D stack vms handler q c c' p um :
  reg h 31 = D -> task_at (kmem h) D stack vms handler -> bytes_at (kmem h) D (context q c') -> fits_all c' ->
  (forall r, 1 <= r <= 31 -> r <> 10 -> r <> 11 -> r <> 17 -> c' r = c r) -> fits_all c -> fits 64 p ->
  umem h !! vms = Some um -> bytes_at um (c 2 - 32) (frame p c) -> user_area (c 2 - 32) 32 -> Z.testbit (sstatus h) 8 = false ->
  exists h', return_task h = Done (tt, h') /\ continues h h' D vms p c.
Proof.
  intros HD Ht Hb Hf' Hcc Hf Hp Hum Hfr [Hu0 Hu1] Hspp. unfold return_task. destruct (task_at_field _ _ _ _ _ 1 vms Ht eq_refl) as [Hv Hvf].
  erewrite bind_done by (apply (ld_done _ _ _ _ D TASK_SIZE vms); [done|done|apply Ht|layout|exact Hv|done]).
  erewrite bind_done by done. erewrite bind_done by done. regs. erewrite bind_done by done. erewrite bind_done by done. regs. change (reg_of (x h) 31) with (reg h 31). rewrite HD.
  set (h1 := with_sscratch _ _). destruct (load_context h1 D TASK_SIZE q c' 2 2 31) as (g1 & E1 & Hg1); [apply Ht|layout|done|done|unfold h1; by regs|lia..|]. erewrite bind_done by exact E1.
  erewrite bind_done by (by apply li_done). erewrite bind_done by apply csrs_done. regs. change (wrap 64 SUM) with SUM. set (h2 := with_sstatus _ _).
  assert (reg h2 2 = c 2) as Hsp by (apply reg_some; [done|]; unfold h2; fields; rewrite lookup_insert_ne, Hg1 by done; rewrite decide_True by lia; by rewrite Hcc).
  assert (Z.testbit (sstatus h2) 18 = true) as Hsum by (unfold h2, SUM; fields; by rewrite Z.lor_spec, Z.shiftl_1_l, Z.pow2_bits_true, orb_true_r).
  assert (forall i v, nth_z [c 10; c 11; c 17; p] i = Some v -> word_at um (c 2 - 32 + 8 * i) v) as Hw by (intros; by eapply frame_word).
  assert (forall i r v h3, 0 <= i <= 3 -> nth_z [c 10; c 11; c 17; p] i = Some v -> r <> 0 -> reg h3 2 = c 2 -> Z.testbit (sstatus h3) 18 = true ->
    umem h3 = umem h -> satp h3 = vms -> ld r ((i - 4) * GP_REGBYTES) 2 h3 = Done (tt, with_x (<[r := v]> (x h3)) h3)) as Hpop.
  { intros i r v h3 Hi Hv' Hr H2 H18 Em Es. apply (uld_done _ _ _ _ (c 2 - 32 + 8 * i) um); [done|rewrite H2; layout|split; lia|done|by rewrite Em, Es|by apply Hw|].
    apply nth_z_elem in Hv'. rewrite !elem_of_cons, elem_of_nil in Hv'. destruct_or!; subst v; try done; apply Hf; lia. }
  erewrite bind_done by (by apply (Hpop 0 10)). erewrite bind_done by (apply (Hpop 1 11); [lia|done|done|by regs|done..]).
  erewrite bind_done by (apply (Hpop 2 17); [lia|done|done|by regs|done..]). erewrite bind_done by (apply (Hpop 3 5); [lia|done|done|by regs|done..]).
  erewrite bind_done by done. erewrite bind_done by done. regs. erewrite bind_done by apply csrc_done. regs. set (h3 := with_sstatus _ _).
  destruct (fp_clean_spec h3) as (g4 & E4 & Hg4). erewrite bind_done by exact E4. set (h4 := with_x g4 _).
  assert (forall r, r <> 2 -> r <> 5 -> r <> 10 -> r <> 11 -> r <> 17 -> g4 !! r = x h !! r) as Hx4.
  { intros r ?????. rewrite Hg4 by done. unfold h3, h2. fields. rewrite !lookup_insert_ne, Hg1 by done. rewrite decide_False by lia. unfold h1. fields. by rewrite lookup_insert_ne by done. }
  assert (reg h4 31 = D) as H314 by (rewrite <-HD; apply reg_same; by apply Hx4).
  destruct (load_context h4 D TASK_SIZE q c' 1 9 31) as (g5 & E5 & Hg5); [apply Ht|layout|done|done|done|lia..|]. erewrite bind_done by exact E5.
  destruct (load_context (with_x g5 h4) D TASK_SIZE q c' 12 16 31) as (g6 & E6 & Hg6); [apply Ht|layout|done|done|by rewrite reg_with_x by (by rewrite Hg5)|lia..|].
  erewrite bind_done by exact E6.
  destruct (load_context (with_x g6 (with_x g5 h4)) D TASK_SIZE q c' 18 31 31) as (g7 & E7 & Hg7); [apply Ht|layout|done|done| |lia..|].
  { rewrite (reg_with_x (with_x g5 h4)) by (by rewrite Hg6). by rewrite reg_with_x by (by rewrite Hg5). }
  erewrite bind_done by exact E7. eexists. split; [done|].
  assert (forall k, 0 <= k -> k <> 13 -> k <> 14 -> Z.testbit (sstatus h4) k = Z.testbit (sstatus h2) k && negb (Z.testbit p k)) as Hst.
  { intros k ???. unfold h4. fields. rewrite fp_sstatus_bit by done. unfold h3. fields. by rewrite Z.ldiff_spec. }
  constructor; fields; try done.
  - rewrite (bit_testbit _ 8) by done. rewrite Hst by done. unfold h2, SUM. fields. rewrite Z.lor_spec, Z.shiftl_1_l, Z.pow2_bits_false by done. unfold h1. fields. by rewrite Hspp.
  - intros r Hr. apply reg_some; [lia|]. fields. rewrite Hg7. fields. rewrite Hg6. fields. rewrite Hg5.
    repeat case_decide; try (rewrite <-Hcc by lia; done).
    change (x h4) with g4. rewrite Hg4 by lia. unfold h3. fields. rewrite lookup_insert_ne by lia. assert (r = 10 \/ r = 11 \/ r = 17) as [-> |[-> | ->]] by lia.
    + by rewrite !lookup_insert_ne, lookup_insert_eq by done.
    + by rewrite lookup_insert_ne, lookup_insert_eq by done.
    + by rewrite lookup_insert_eq.
  - unfold SPP, SPIE, SIE. rewrite !set_bit_other by done. by rewrite Hst, Hsum by done.
Qed.

(** A task whose handler was entered, and which calls [io_notify_return] with all ones, continues at the
    instruction where it was interrupted with all 31 registers as they were then, in its own address
    space; the interrupt is completed at the PLIC, exactly once, and the task has no interrupt and is
    notified no longer.  The handler may have changed [a0], [a1] and [a7]: they are taken from the
    frame below its stack pointer.  Access to the memory of tasks stays on in the kernel afterwards
    unless bit 18 of the program counter is set: the instruction that should turn it off clears the
    bits of the program counter instead. *)
Theorem notification_returns plic get_task address h D stack vms handler p c irq flags :
  handler_calls h D stack vms handler p c (2 ^ 64 - 1) irq flags ->
  exists h', io_notify_return plic get_task address (enter 8 h) = Done (tt, h') /\
    pc h' = p /\ user h' = true /\ satp h' = vms /\ sscratch h' = D /\ (forall r, 1 <= r <= 31 -> reg h' r = c r) /\
    umem h' = umem h /\ completed h' = completed h ++ (if irq =? 0 then [] else [irq]) /\ irq_at (kmem h') D 0 (returned_flags irq flags) /\
    Z.testbit (sstatus h') 18 = negb (Z.testbit p 18) /\ forall a, a < D \/ D + TASK_SIZE <= a -> kmem h' !! a = kmem h !! a.
Proof.
  intros Hc. destruct (io_notify_return_head plic get_task address _ _ _ _ _ _ _ _ _ _ Hc) as (h1 & E & Ha0 & Em & Eu & Es & Ecl & Eco & Hspp).
  destruct Hc as [[Hu Hs Ht [Hf Hp] Hst] Hi Hsat [Hb0 Ha7] Hr (um & Hum & Hfr) (Hfc & Hfp & Hua) HD]. rewrite E, Z.eqb_refl. clear E. unfold syscall_io_notify_return.
  assert (task_at (kmem h1) D stack vms handler) as Ht1 by (rewrite Em; by apply task_at_context).
  assert (irq_at (kmem h1) D irq flags) as Hi1.
  { destruct Hi as (H1 & H2 & H3). rewrite Em. split; [|split; [|done]]; (apply bytes_at_put; [done|]; rewrite zlen_context; layout). }
  destruct (return_irq_spec plic h1 D stack vms handler irq flags Ha0 Ht1 Hi1) as (g & m & E & H31 & Htm & Him & Hm). erewrite bind_done by exact E. set (h2 := with_x g _).
  destruct (return_task_spec h2 D stack vms handler (wrap 64 (pc h + 4)) c (reg h) p um) as (h3 & E3 & [H1 H2 H3 H4 H5 [H6 H7] [H8 H9] H10]); try done.
  - by apply reg_some.
  - unfold h2. fields. intros i v Hv. pose proof (nth_z_Some _ _ _ Hv) as Hl. rewrite zlen_context in Hl. rewrite Hm by layout. rewrite Em. by apply put_bytes_at.
  - unfold h2. fields. by rewrite Eu.
  - exists h3. split; [done|]. rewrite H6, H7, H9. unfold h2. fields. rewrite Eu, Eco. split_and!; [done..|].
    intros a Ha. rewrite Hm by layout. rewrite Em. apply put_out. rewrite zlen_context. layout.
Qed.

(** ** Examples *)

(** The driver at [2 ^ 39 + 4096] has reserved the second source. *)
Definition driver_task : Z := 2 ^ 39 + 4096.
Definition driver_regs (r : Z) : Z := if r =? 2 then 32768 else 7.
Definition reserved : Z := 2 ^ 39 + 8192.

Definition driver_memory : gmap Z Mem := {[2 := put 32736 (frame 1000 driver_regs) ∅]}.

Definition interrupted_hart : Hart :=
  mkHart (example_regs 3) 4096 true 0 0 0 (2 ^ 39) 1
    (put (2 ^ 39) (task_bytes 0 (fun _ => 0) (2 ^ 40) 1 8192 0 0)
      (put driver_task (task_bytes 1000 driver_regs (2 ^ 41) 2 2000 0 0) (put reserved (words_of [2 ^ 64 - 1; 7]) ∅)))
    driver_memory [2] [].

Definition example_get_task (h : Hart) : Hart := with_x (<[10 := driver_task]> (x h)) h.

Lemma driver_regs_fit : fits_all driver_regs.
Proof. intros r _. unfold driver_regs, fits. case_match; lia. Qed.

Lemma example_get_task_ok : get_task_ok example_get_task 7 driver_task.
Proof.
  constructor; unfold example_get_task.
  - intros h _. by regs.
  - intros h r Hr. apply reg_same. fields. by rewrite lookup_insert_ne by lia.
  - done.
  - done.
Qed.

Lemma driver_in_memory p c stack vms handler m :
  let k := put (2 ^ 39) (context p c) (put (2 ^ 39) (task_bytes 0 (fun _ => 0) stack vms handler 0 0)
    (put driver_task (task_bytes 1000 driver_regs (2 ^ 41) 2 2000 0 0) m)) in
  task_at k driver_task (2 ^ 41) 2 2000 /\ bytes_at k driver_task (context 1000 driver_regs) /\ irq_at k driver_task 0 0.
Proof.
  intros k. destruct (task_bytes_at k driver_task 1000 driver_regs (2 ^ 41) 2 2000 0 0) as (H1 & H2 & H3 & H4).
  - unfold k, driver_task. do 2 (apply bytes_at_put; [|rewrite ?zlen_context, ?zlen_task_bytes; left; layout]). apply put_bytes_at.
  - unfold driver_task. split; layout.
  - unfold fits. lia.
  - split; [exact H1|]. split; [exact H2|]. split; [exact H3|]. split; [exact H4|]. unfold fits. lia.
Qed.

Lemma interrupted_running : running interrupted_hart (2 ^ 39) (2 ^ 40) 1 8192.
Proof.
  constructor; [reflexivity|reflexivity| | |lia].
  - refine (proj1 (task_bytes_at _ _ 0 (fun _ => 0) _ _ _ 0 0 (put_bytes_at _ _ _) _ _)); [split; layout|unfold fits; lia].
  - split; [apply example_regs_fit|]; unfold fits; cbn [pc interrupted_hart]; lia.
Qed.

Lemma interrupt_reaches_driver_witness :
  exists h1, external_interrupt_handler (2 ^ 38) reserved example_get_task (enter (2 ^ 63 + 9) interrupted_hart) = Done (tt, h1) /\
    pc h1 = 2000 /\ satp h1 = 2 /\ reg h1 a0 = 0 /\ reg h1 a1 = 2 /\ reg h1 sp = 32768.
Proof.
  destruct (driver_in_memory (pc interrupted_hart) (reg interrupted_hart) (2 ^ 40) 1 8192 (put reserved (words_of [2 ^ 64 - 1; 7]) ∅)) as (H1 & H2 & H3).
  destruct (interrupt_reaches_driver (2 ^ 38) reserved example_get_task interrupted_hart _ _ _ _ 2 7 driver_task (2 ^ 41) 2 2000 [] 1000 driver_regs
    (put 32736 (frame 1000 driver_regs) ∅) 0 interrupted_running example_get_task_ok) as (h1 & E & [P1 _ P2 _ (P3 & P4 & _) P5 _ _ _ _] & _).
  - constructor; [reflexivity|lia|unfold reserved; split; lia| |unfold fits; lia|unfold driver_task; lia].
    change (word_at (put (2 ^ 39) (context (pc interrupted_hart) (reg interrupted_hart)) (kmem interrupted_hart)) (reserved + 8 * 1) 7).
    unfold word_at, interrupted_hart at 3. cbn [kmem].
    do 3 (apply bytes_at_put; [|rewrite ?zlen_context, ?zlen_task_bytes; left; unfold driver_task, reserved; layout]).
    apply (words_of_at _ _ [2 ^ 64 - 1; 7]); [apply put_bytes_at|reflexivity].
  - exact H1.
  - exact H3.
  - exact H2.
  - exact driver_regs_fit.
  - unfold fits. lia.
  - reflexivity.
  - cbn. split; lia.
  - apply (bytes_at_room _ _ (frame 1000 driver_regs)), put_bytes_at.
  - exists h1. split; [exact E|]. rewrite (P5 2) by lia. split; [exact P1|]. split; [exact P2|]. split; [exact P3|]. split; [exact P4|]. reflexivity.
Defined.

(** The driver in its handler, at the end of the interrupt. *)
Definition handler_hart : Hart :=
  mkHart (<[10 := 2 ^ 64 - 1]> (<[17 := 9]> (list_to_map ((fun r => (r, driver_regs r)) <$> seqZ 1 31)))) 2048 true 0 0 0 driver_task 2
    (put driver_task (task_bytes 1000 driver_regs (2 ^ 41) 2 2000 2 0) ∅) driver_memory [] [1].

Lemma handler_hart_calls : handler_calls handler_hart driver_task (2 ^ 41) 2 2000 1000 driver_regs (2 ^ 64 - 1) 2 0.
Proof.
  destruct (task_bytes_at (kmem handler_hart) driver_task 1000 driver_regs (2 ^ 41) 2 2000 2 0) as (H1 & H2 & H3 & H4);
    [apply put_bytes_at|unfold driver_task; split; layout|unfold fits; lia|].
  constructor.
  - constructor; [reflexivity|reflexivity|exact H1| |lia]. split; [|unfold fits; cbn [pc handler_hart]; lia]. apply reg_of_fits.
    do 2 (apply map_Forall_insert_2; [unfold fits; lia|]). intros r v Hv. apply elem_of_list_to_map_2, list_elem_of_fmap in Hv as (i & [= -> ->] & Hi). apply driver_regs_fit. apply elem_of_seqZ in Hi. lia.
  - split; [exact H3|]. split; [exact H4|]. unfold fits. lia.
  - reflexivity.
  - split; reflexivity.
  - intros r Hr ???. apply reg_some; [lia|]. cbn [x handler_hart]. rewrite !lookup_insert_ne by lia.
    apply elem_of_list_to_map_1; [rewrite <-list_fmap_compose; apply NoDup_fmap_2; [intros ??; exact id|apply NoDup_seqZ]|].
    apply list_elem_of_fmap. exists r. split; [reflexivity|]. apply elem_of_seqZ. lia.
  - eexists. split; [reflexivity|]. apply put_bytes_at.
  - split; [exact driver_regs_fit|]. split; [unfold fits; lia|]. cbn. split; lia.
  - unfold driver_task. lia.
Qed.

Lemma notification_returns_witness :
  exists h', io_notify_return (2 ^ 38) example_get_task 7 (enter 8 handler_hart) = Done (tt, h') /\
    pc h' = 1000 /\ reg h' a0 = 7 /\ completed h' = [1; 2] /\ irq_at (kmem h') driver_task 0 2 /\ Z.testbit (sstatus h') 18 = true.
Proof.
  destruct (notification_returns (2 ^ 38) example_get_task 7 handler_hart _ _ _ _ _ _ _ _ handler_hart_calls) as (h' & E & H1 & _ & _ & _ & H2 & _ & H3 & H4 & H5).
  exists h'. split; [exact E|]. split; [exact H1|]. split; [by rewrite H2 by lia|]. split; [exact H3|]. split; [exact H4|exact (proj1 H5)].
Defined.
