(* ===== verification/Handler.v ===== *)
(** * Notification handlers of drivers

    The assembly in src/services/driver/uart/src/main.rs, pci/src/notification.rs and
    virtio_block/src/notification.rs: the kernel jumps there, the registers a Rust function may change are
    saved below the words the kernel pushed, the function is called, and a system call returns to the
    kernel.  The function is a parameter that follows the calling convention.

    The theorems: an interrupt is transparent to the driver it is for.  From the interrupt, whatever task
    runs, through the kernel, the assembly of the driver and its function, and back through the kernel, the
    driver continues where it was with all its registers, and the interrupt is completed once. *)

From S2P Require Import Prelude Bytes CMem Hart Trap Notify.

(** ** Instructions of a task: only its own memory is there *)

Definition u_memory (h : Hart) (a : Z) : option Mem := if is_user a then umem h !! satp h else None.

Definition u_sd (r off b : Z) : M Hart unit := fun h =>
  let a := wrap 64 (reg h b + off) in
  match u_memory h a with
  | None => Panicked "page fault"
  | Some m => match bytes_of m a 8 with
              | Some _ => Done (tt, with_umem (<[satp h := put a (le_split 8 (reg h r)) m]> (umem h)) h)
              | None => Panicked "page fault"
              end
  end.

Definition u_ld (r off b : Z) : M Hart unit := fun h =>
  let a := wrap 64 (reg h b + off) in
  match u_memory h a with
  | None => Panicked "page fault"
  | Some m => match bytes_of m a 8 with Some l => wr r (le_combine l) h | None => Panicked "page fault" end
  end.

Lemma u_sd_done r off b h a um :
  reg h b + off = a -> user_area a 8 -> umem h !! satp h = Some um -> room um a 8 ->
  u_sd r off b h = Done (tt, with_umem (<[satp h := put a (le_split 8 (reg h r)) um]> (umem h)) h).
Proof.
  intros Ea [H0 H1] Hu Hr. unfold u_sd, u_memory, is_user. rewrite Ea, wrap_small by (unfold fits; lia). rewrite (proj2 (Z.ltb_lt _ _)) by lia.
  rewrite Hu. by destruct (bytes_of_room _ _ 8%nat Hr) as [l ->].
Qed.

Lemma u_ld_done r off b h a um v :
  r <> 0 -> reg h b + off = a -> user_area a 8 -> umem h !! satp h = Some um -> word_at um a v -> fits 64 v ->
  u_ld r off b h = Done (tt, with_x (<[r := v]> (x h)) h).
Proof.
  intros Hr Ea [H0 H1] Hu Hw Hf. unfold u_ld, u_memory, is_user. rewrite Ea, wrap_small by (unfold fits; lia). rewrite (proj2 (Z.ltb_lt _ _)) by lia.
  rewrite Hu, (bytes_of_some _ _ _ 8 Hw) by apply length_le_split. rewrite le_combine_split by done. by apply wr_done.
Qed.

(** ** The assembly *)

Fixpoint save_at (i : Z) (l : list Z) : M Hart unit :=
  match l with
  | [] => ret tt
  | r :: l => u_sd r (i * GP_REGBYTES) sp ;; save_at (i + 1) l
  end.

Fixpoint restore_at (i : Z) (l : list Z) : M Hart unit :=
  match l with
  | [] => ret tt
  | r :: l => u_ld r (i * GP_REGBYTES) sp ;; restore_at (i + 1) l
  end.

(** [t0] to [t6], [a3] to [a6], [a2] and [ra]. *)
Definition saved_regs : list Z := [5; 6; 7; 28; 29; 30; 31; 13; 14; 15; 16; 12; 1].

Definition NOTIFY_RETURN : Z := 9.

Section entry.
(** The function of the driver. *)
Context (notification_handler : Hart -> Hart).

(** The part the serial and the PCI driver share, up to the result of the function. *)
Definition entry_call : M Hart unit :=
  addi sp sp (- (13 + 4) * GP_REGBYTES) ;;
  save_at 0 saved_regs ;;
  mv a2 a7 ;;
  modify notification_handler ;;
  restore_at 0 saved_regs ;;
  addi sp sp ((13 + 4) * GP_REGBYTES) ;;
  li a7 NOTIFY_RETURN.

(** [notification_handler_entry] of the serial driver, up to the system call. *)
Definition uart_entry : M Hart unit := entry_call ;; li a0 (-1).

(** That of the PCI driver: the result is the task to defer to. *)
Definition pci_entry : M Hart unit := entry_call.
End entry.

(** [notification_handler] of the block driver. *)
Definition block_entry : M Hart unit := li a0 (-1) ;; li a7 NOTIFY_RETURN.

(** ** Saving and restoring *)

Lemma save_at_spec l : forall i a h um,
  reg h sp = a -> 0 <= i -> user_area a (8 * (i + zlen l)) -> umem h !! satp h = Some um -> room um a (8 * (i + zlen l)) ->
  save_at i l h = Done (tt, with_umem (<[satp h := put (a + 8 * i) (words_of (reg h <$> l)) um]> (umem h)) h).
Proof.
  induction l as [|r l IH]; intros i a h um Ha Hi [H0 H1] Hu Hr.
  - cbn. f_equal. f_equal. by rewrite insert_id by done; destruct h.
  - rewrite zlen_cons in *. pose proof (zlen_nonneg l). cbn [save_at]. erewrite bind_done.
    2:{ apply (u_sd_done _ _ _ _ (a + 8 * i) um); [rewrite Ha; unfold GP_REGBYTES; lia|split; lia|done|]. intros j Hj. rewrite <-Z.add_assoc. apply Hr. lia. }
    rewrite (IH _ a _ (put (a + 8 * i) (le_split 8 (reg h r)) um)).
    + f_equal. f_equal. fields. rewrite insert_insert_eq. cbn [fmap list_fmap]. rewrite words_of_cons, <-put_app_after, zlen_le_split.
      replace (a + 8 * (i + 1)) with (a + 8 * i + Z.of_nat 8) by lia. done.
    + done.
    + lia.
    + split; lia.
    + fields. by rewrite lookup_insert_eq.
    + apply put_room. by replace (i + 1 + zlen l) with (i + (1 + zlen l)) by lia.
Qed.

Lemma restore_at_spec l : forall i a h um vs,
  NoDup l -> 2 ∉ l -> 0 ∉ l -> length vs = length l -> Forall (fits 64) vs ->
  reg h sp = a -> 0 <= i -> user_area a (8 * (i + zlen l)) -> umem h !! satp h = Some um -> bytes_at um (a + 8 * i) (words_of vs) ->
  exists g, restore_at i l h = Done (tt, with_x g h) /\ (forall k r v, l !! k = Some r -> vs !! k = Some v -> g !! r = Some v) /\
    forall r, r ∉ l -> g !! r = x h !! r.
Proof.
  induction l as [|r l IH]; intros i a h um vs Hnd H2 H0 Hlen Hf Ha Hi [Hu0 Hu1] Hu Hb.
  - exists (x h). split; [by destruct h|]. split; [done|done].
  - destruct vs as [|v vs]; [done|]. apply NoDup_cons in Hnd as [Hni Hnd]. apply Forall_cons in Hf as [Hv Hf]. rewrite zlen_cons in *. pose proof (zlen_nonneg l).
    rewrite words_of_cons in Hb. apply bytes_at_app in Hb as [Hb1 Hb2]. rewrite zlen_le_split in Hb2. cbn [restore_at]. erewrite bind_done.
    2:{ apply (u_ld_done _ _ _ _ (a + 8 * i) um v); [set_solver|rewrite Ha; unfold GP_REGBYTES; lia|split; lia|done|done|done]. }
    destruct (IH (i + 1) a (with_x (<[r := v]> (x h)) h) um vs) as (g & E & H3 & H4); [done|set_solver|set_solver|cbn in Hlen; lia|done| |lia|split; lia|done| |].
    { rewrite <-Ha. apply reg_with_x. apply lookup_insert_ne. set_solver. }
    { by replace (a + 8 * (i + 1)) with (a + 8 * i + Z.of_nat 8) by lia. }
    exists g. split; [exact E|]. split.
    + intros [|k] r' v' Hr Hv'; cbn in Hr, Hv'; [|by eapply H3]. simplify_eq. rewrite H4 by done. fields. apply lookup_insert_eq.
    + intros r' Hr'. rewrite H4 by set_solver. fields. apply lookup_insert_ne. set_solver.
Qed.

(** ** The function of the driver *)

(** The registers a function must keep. *)
Definition callee_saved (r : Z) : Prop := r = 2 \/ r = 3 \/ r = 4 \/ r = 8 \/ r = 9 \/ 18 <= r <= 27.

(** The function keeps these registers, the stack of its caller and the structure of the task. *)
Record call_ok (call : Hart -> Hart) (D : Z) : Prop := {
  co_regs : forall h r, callee_saved r -> reg (call h) r = reg h r;
  co_fits : forall h, fits_all (reg h) -> fits_all (reg (call h)) /\ pc (call h) = pc h;
  co_stack : forall h um, umem h !! satp h = Some um -> exists um', umem (call h) !! satp h = Some um' /\
    forall a, reg h sp <= a < reg h sp + 136 -> um' !! a = um !! a;
  co_task : forall h, same_task D (kmem h) (kmem (call h));
  co_state : forall h, user (call h) = user h /\ satp (call h) = satp h /\ sscratch (call h) = sscratch h /\ claims (call h) = claims h /\ completed (call h) = completed h
}.

(** After the call of the function all registers are as before but [a0], [a1] and [a7]. *)
Record called (h h' : Hart) (D : Z) (um um' : Mem) : Prop := {
  cd_regs : forall r, 1 <= r <= 31 -> r <> 10 -> r <> 11 -> r <> 17 -> reg h' r = reg h r;
  cd_a7 : reg h' a7 = NOTIFY_RETURN;
  cd_fits : fits_all (reg h') /\ pc h' = pc h;
  cd_umem : umem h' !! satp h = Some um';
  cd_frame : forall a, reg h sp - 32 <= a < reg h sp -> um' !! a = um !! a;
  cd_task : same_task D (kmem h) (kmem h');
  cd_state : user h' = user h /\ satp h' = satp h /\ sscratch h' = sscratch h /\ claims h' = claims h /\ completed h' = completed h
}.

(** The function is called in the state [hc] with the arguments of the handler, and leaves the memory and its
    results to the system call. *)
Record handed (call : Hart -> Hart) (h hc h' : Hart) : Prop := {
  ha_args : reg hc a0 = reg h a0 /\ reg hc a1 = reg h a1 /\ reg hc a2 = reg h a7;
  ha_kmem : kmem hc = kmem h /\ kmem h' = kmem (call hc);
  ha_umem : umem h' = umem (call hc) /\ forall v, v <> satp h -> umem hc !! v = umem h !! v
}.

Lemma fits_all_insert g r v : fits_all (reg_of g) -> fits 64 v -> fits_all (reg_of (<[r := v]> g)).
Proof.
  intros Hg Hv k Hk. destruct (decide (k = r)) as [->|Hne]; [by rewrite reg_of_eq by lia|]. rewrite reg_of_ne by done. by apply Hg.
Qed.

Lemma saved_12 : 12 ∈ saved_regs.
Proof. unfold saved_regs. set_solver. Qed.

Lemma entry_call_spec call D h um :
  call_ok call D -> fits_all (reg h) -> umem h !! satp h = Some um -> user_area (reg h sp - 136) 136 -> room um (reg h sp - 136) 136 ->
  exists h2 h' um', entry_call call h = Done (tt, h') /\ called h h' D um um' /\ handed call h h2 h' /\
    satp h2 = satp h /\ reg h' a0 = reg (call h2) a0 /\ reg h' a1 = reg (call h2) a1.
Proof.
  intros Hc Hf Hu [Hua Hub] Hr. unfold entry_call. set (b := reg h sp - 136) in *. assert (fits 64 b) as Hbf by (unfold fits; lia).
  erewrite bind_done by (by apply addi_done). replace (wrap 64 (reg h 2 + - (13 + 4) * GP_REGBYTES)) with b by (rewrite wrap_small; unfold b, GP_REGBYTES, fits in *; lia).
  set (h1 := with_x _ _). assert (reg h1 sp = b) as Hsp1 by (unfold h1; by regs).
  assert (reg h1 <$> saved_regs = reg h <$> saved_regs) as Esv by (apply list_fmap_ext; intros k r Hk%list_elem_of_lookup_2; unfold h1; regs; rewrite reg_of_ne; [done|]; set_solver).
  erewrite bind_done.
  2:{ apply (save_at_spec _ 0 b h1 um); [done|done|change (zlen saved_regs) with 13; split; lia|done|].
      change (zlen saved_regs) with 13. intros j Hj. apply Hr. lia. }
  rewrite Esv, Z.mul_0_r, Z.add_0_r. set (um1 := put b (words_of (reg h <$> saved_regs)) um). fields. set (h1' := with_umem _ h1).
  erewrite bind_done by (by apply mv_done). set (h2 := with_x _ h1'). erewrite bind_done by done. set (h3 := call h2).
  destruct (co_stack _ _ Hc h2 um1) as (um3 & Hu3 & Hst); [unfold h2, h1'; fields; apply lookup_insert_eq|].
  destruct (co_state _ _ Hc h2) as (Hus & Hsat & Hscr & Hcl & Hco). fold h3 in Hu3, Hus, Hsat, Hscr, Hcl, Hco.
  assert (reg h2 sp = b) as Hsp2 by (unfold h2; by regs). rewrite Hsp2 in Hst.
  assert (reg h3 sp = b) as Hsp3 by (unfold h3; rewrite (co_regs _ _ Hc) by (by left); done).
  assert (fits_all (reg h2)) as Hf2 by (unfold h2, h1', h1, reg; fields; apply fits_all_insert; [by apply fits_all_insert|regs; rewrite ?reg_of_ne by done; apply Hf; lia]).
  destruct (restore_at_spec saved_regs 0 b h3 um3 (reg h <$> saved_regs)) as (g & E & Hg & Hg').
  - by apply (bool_decide_unpack _).
  - by apply (bool_decide_unpack _).
  - by apply (bool_decide_unpack _).
  - by rewrite length_fmap.
  - apply Forall_fmap, Forall_forall. intros r Hin. apply Hf. unfold saved_regs in Hin. rewrite !elem_of_cons, elem_of_nil in Hin. lia.
  - done.
  - done.
  - change (zlen saved_regs) with 13. split; lia.
  - by rewrite Hsat.
  - rewrite Z.mul_0_r, Z.add_0_r. intros j v Hj. pose proof (nth_z_Some _ _ _ Hj) as Hl. rewrite zlen_words_of, zlen_fmap in Hl. change (zlen saved_regs) with 13 in Hl. rewrite Hst by lia. by apply put_bytes_at.
  - erewrite bind_done by exact E. erewrite bind_done by (by apply addi_done). rewrite reg_with_x by (apply Hg'; by apply (bool_decide_unpack _)). rewrite Hsp3.
    replace (wrap 64 (b + (13 + 4) * GP_REGBYTES)) with (reg h sp) by (rewrite wrap_small; unfold b, GP_REGBYTES, fits in *; lia).
    rewrite li_done by done. fields. exists h2. eexists _, um3. split; [done|].
    assert (forall r, r <> 2 -> r <> 17 -> r ∉ saved_regs -> reg_of (<[17 := wrap 64 NOTIFY_RETURN]> (<[2 := reg h sp]> g)) r = reg h3 r) as Hkeep.
    { intros r H2 H17 Hn. rewrite !reg_of_ne by done. apply reg_same. by apply Hg'. }
    split; [constructor; fields|].
    + intros r Hr1 H10 H11 H17. unfold reg at 1. fields. destruct (decide (r = 2)) as [->|H2]; [rewrite reg_of_ne by done; by apply reg_of_eq|].
      destruct (decide (r ∈ saved_regs)) as [Hin|Hn].
      * apply list_elem_of_lookup_1 in Hin as [k Hk]. rewrite !reg_of_ne by done. unfold reg_of. rewrite (proj2 (Z.eqb_neq _ _)) by lia.
        rewrite (Hg k r (reg h r)); [done|done|]. by rewrite list_lookup_fmap, Hk.
      * rewrite Hkeep by done. unfold h3. rewrite (co_regs _ _ Hc).
        -- unfold h2, h1', h1. regs. assert (r <> 12) by (intros ->; exact (Hn saved_12)). by rewrite !reg_of_ne by done.
        -- unfold callee_saved. unfold saved_regs in Hn. rewrite !not_elem_of_cons in Hn. lia.
    + by regs.
    + split; [|exact (proj2 (co_fits _ _ Hc h2 Hf2))]. unfold reg. fields. do 2 (apply fits_all_insert; [|first [apply Hf; lia|by unfold fits]]).
      intros r Hrr. destruct (decide (r ∈ saved_regs)) as [Hin|Hn].
      * apply list_elem_of_lookup_1 in Hin as [k Hk]. unfold reg_of. case_match; [by unfold fits|]. rewrite (Hg k r (reg h r)); [by apply Hf|done|]. by rewrite list_lookup_fmap, Hk.
      * rewrite (reg_same h3) by (by apply Hg'). by apply (co_fits _ _ Hc h2 Hf2).
    + exact Hu3.
    + intros a Ha. rewrite Hst by (unfold b; lia). unfold um1. apply put_out. rewrite zlen_words_of, zlen_fmap. change (zlen saved_regs) with 13. unfold b. lia.
    + apply (co_task _ _ Hc h2).
    + rewrite Hus, Hsat, Hscr, Hcl, Hco. done.
    + assert ((10 ∉ saved_regs) /\ (11 ∉ saved_regs)) as [Hn10 Hn11] by (by apply (bool_decide_unpack _)).
      split; [|split; [done|split; unfold reg at 1; fields; by apply Hkeep]].
      split; [split_and!; unfold h2, h1', h1; by regs|done|]. split; [done|]. intros v Hv. unfold h2, h1'. fields. by apply lookup_insert_ne.
Qed.

(** ** From the kernel to the function and back *)

Section drivers.
Context (D stack vms handler p : Z) (c : Z -> Z).
Context (Hstack : stack <> 0) (HD : D <> 0) (Hfc : fits_all c) (Hfp : fits 64 p).

Lemma handling_fits h1 ty v from irq flags : handling h1 D stack vms handler p c ty v from irq flags -> fits 64 ty -> fits 64 v -> fits 64 from -> fits_all (reg h1).
Proof using Hfc.
  intros [_ _ _ _ (E1 & E2 & E3) Hr _ _ _ _] H1 H2 H3 r Hr'. destruct (decide (r = 10)) as [->|]; [by rewrite E1|]. destruct (decide (r = 11)) as [->|]; [by rewrite E2|].
  destruct (decide (r = 17)) as [->|]; [by rewrite E3|]. rewrite Hr by done. by apply Hfc.
Qed.

(** The state in which a driver makes the system call, when the function was called in between. *)
Lemma called_calls h1 h2 um um' ty v from irq flags w :
  handling h1 D stack vms handler p c ty v from irq flags -> called h1 h2 D um um' -> bytes_at um (c 2 - 32) (frame p c) -> user_area (c 2 - 32) 32 -> reg h2 a0 = w ->
  handler_calls h2 D stack vms handler p c w irq flags.
Proof using Hstack HD Hfc Hfp.
  intros [P1 P2 P3 P4 P5 P6 _ P7 P8 _] [C1 C2 [C3 C3'] C4 C5 C6 (C7 & C8 & C9 & _)] Hb Hua Hw. assert (reg h1 sp = c 2) as Hsp by (by apply P6).
  constructor; try done.
  - constructor; [by rewrite C7|by rewrite C9|by eapply same_task_at| |done]. split; [done|]. rewrite C3', P1. apply P7.
  - by eapply same_task_irq.
  - by rewrite C8.
  - intros r Hr H10 H11 H17. rewrite C1 by done. by apply P6.
  - exists um'. rewrite <-P3. split; [done|]. intros j b Hj. pose proof (nth_z_Some _ _ _ Hj) as Hl. unfold frame in Hl. rewrite zlen_words_of in Hl.
    change (zlen [c 10; c 11; c 17; p]) with 4 in Hl. rewrite C5 by (rewrite Hsp; lia). by apply Hb.
Qed.

(** The serial driver: the function gets the type, the value and the sender, and all ones is returned. *)
Lemma uart_entry_spec call h1 um ty v from irq flags :
  call_ok call D -> handling h1 D stack vms handler p c ty v from irq flags -> fits 64 ty -> fits 64 v -> fits 64 from ->
  umem h1 !! vms = Some um -> bytes_at um (c 2 - 32) (frame p c) -> user_area (c 2 - 136) 136 -> room um (c 2 - 136) 136 ->
  exists hc h2, uart_entry call h1 = Done (tt, h2) /\ handler_calls h2 D stack vms handler p c (2 ^ 64 - 1) irq flags /\
    (reg hc a0 = ty /\ reg hc a1 = v /\ reg hc a2 = from) /\ handed call h1 hc h2 /\ claims h2 = claims h1 /\ completed h2 = completed h1.
Proof using All.
  intros Hc Hh H1 H2 H3 Hu Hb Hua Hr. pose proof (handling_fits _ _ _ _ _ _ Hh H1 H2 H3) as Hf. pose proof Hh as [_ _ P3 _ (A0 & A1 & A7) P6 _ _ _ _].
  assert (reg h1 sp = c 2) as Hsp by (by apply P6). destruct (entry_call_spec call D h1 um) as (hc & h2 & um' & E & Hcd & [(B0 & B1 & B2) Bk Bu] & _); [done|done|by rewrite P3|by rewrite Hsp|by rewrite Hsp|].
  unfold uart_entry. erewrite bind_done by exact E. rewrite li_done by done. exists hc. eexists. split; [done|].
  assert (called h1 (with_x (<[10 := 2 ^ 64 - 1]> (x h2)) h2) D um um') as Hcd'.
  { destruct Hcd as [C1 C2 [C3 C3'] C4 C5 C6 C7]. constructor; try done.
    - intros r Hr' H10 H11 H17. rewrite <-C1 by done. apply reg_of_ne. lia.
    - rewrite <-C2. by apply reg_of_ne.
    - split; [|done]. apply (fits_all_insert (x h2)); [done|unfold fits; lia]. }
  split; [eapply called_calls; [done|exact Hcd'|done| |]|].
  - destruct Hua. split; lia.
  - by regs.
  - rewrite B0, B1, B2. split; [done|]. split; [by split|]. fields. apply Hcd.
Qed.

(** The block driver. *)
Lemma block_entry_spec h1 um ty v from irq flags :
  handling h1 D stack vms handler p c ty v from irq flags -> fits 64 ty -> fits 64 v -> fits 64 from ->
  umem h1 !! vms = Some um -> bytes_at um (c 2 - 32) (frame p c) -> user_area (c 2 - 32) 32 ->
  exists h2, block_entry h1 = Done (tt, h2) /\ handler_calls h2 D stack vms handler p c (2 ^ 64 - 1) irq flags /\ kmem h2 = kmem h1 /\ completed h2 = completed h1.
Proof using All.
  intros Hh H1 H2 H3 Hu Hb Hua. pose proof (handling_fits _ _ _ _ _ _ Hh H1 H2 H3) as Hf. pose proof Hh as [_ _ P3 _ _ P6 _ _ _ _]. unfold block_entry.
  erewrite bind_done by (by apply li_done). rewrite li_done by done. fields. eexists. split; [done|]. split; [|done].
  eapply (called_calls h1 _ um um); [done| |done|done|by regs]. constructor; fields; try done.
  - intros r Hr H10 H11 H17. unfold reg at 1. fields. by rewrite !reg_of_ne by done.
  - by regs.
  - split; [|done]. unfold reg. fields. do 2 (apply fits_all_insert; [|by unfold fits]). exact Hf.
  - by rewrite P3.
Qed.
End drivers.

(** C9: an interrupt is transparent to the driver it is for.  Whatever task runs when the interrupt arrives,
    it is saved and claimed, the function of the driver runs with the number of the interrupt, and after it
    the driver continues at the instruction where it was, with all 31 registers and in its address
    space; the interrupt is completed exactly once and the driver has none.  The four words of the kernel
    and the thirteen of the driver below the stack pointer do not meet. *)
Theorem interrupt_is_transparent plic reservations get_task current call h C stackC vmsC handlerC n address D stack vms handler rest p c um flags :
  running h C stackC vmsC handlerC -> get_task_ok get_task address D -> call_ok call D -> stack <> 0 ->
  let m := put C (context (pc h) (reg h)) (kmem h) in
  interrupt_for reservations h m n address D rest -> task_at m D stack vms handler -> irq_at m D 0 flags -> bytes_at m D (context p c) -> fits_all c -> fits 64 p ->
  umem h !! vms = Some um -> user_area (c 2 - 136) 136 -> room um (c 2 - 136) 136 ->
  exists h1 hc h2 h3, external_interrupt_handler plic reservations get_task (enter (2 ^ 63 + 9) h) = Done (tt, h1) /\ pc h1 = handler /\
    uart_entry call h1 = Done (tt, h2) /\ (reg hc a0 = 0 /\ reg hc a1 = n /\ reg hc a2 = 2 ^ 64 - 1) /\ umem h2 = umem (call hc) /\
    io_notify_return plic get_task current (enter 8 h2) = Done (tt, h3) /\
    pc h3 = p /\ user h3 = true /\ satp h3 = vms /\ sscratch h3 = D /\ (forall r, 1 <= r <= 31 -> reg h3 r = c r) /\
    claims h1 = rest /\ completed h3 = completed h ++ [n] /\ irq_at (kmem h3) D 0 (returned_flags n flags).
Proof.
  intros Hrun Hget Hcall Hst m Hint Ht Hi Hb Hf Hp Hum Hua Hur. pose proof (if_source _ _ _ _ _ _ _ Hint) as Hn. pose proof (if_task _ _ _ _ _ _ _ Hint) as HD.
  destruct (interrupt_reaches_driver plic reservations get_task h C stackC vmsC handlerC n address D stack vms handler rest p c um flags) as (h1 & E1 & Hh & Hcl & Hco & Eu & _);
    [done..|destruct Hua; split; lia| |].
  { intros j Hj. replace (c 2 - 32 + j) with (c 2 - 136 + (104 + j)) by lia. apply Hur. lia. }
  destruct (uart_entry_spec D stack vms handler p c Hst HD Hf Hp call h1 (put (c 2 - 32) (frame p c) um) 0 n (2 ^ 64 - 1) n flags) as (hc & h2 & E2 & Hc & Hargs & [_ _ [Hcu _]] & Hcl2 & Hco2).
  - done.
  - done.
  - by unfold fits.
  - unfold fits. lia.
  - by unfold fits.
  - rewrite Eu. apply lookup_insert_eq.
  - apply put_bytes_at.
  - done.
  - by apply put_room.
  - destruct (notification_returns plic get_task current h2 D stack vms handler p c n flags Hc) as (h3 & E3 & G1 & G2 & G3 & G4 & G5 & _ & G6 & G7 & _).
    exists h1, hc, h2, h3. split; [exact E1|]. split; [apply Hh|]. split; [exact E2|]. split; [exact Hargs|]. split; [exact Hcu|]. split; [exact E3|]. split_and!; try done.
    rewrite G6, Hco2, Hco. by rewrite (proj2 (Z.eqb_neq _ _)) by lia.
Qed.

(** ** An example *)

Definition with_stack : Hart := with_umem {[2 := put 32632 (replicate 136 0) ∅]} interrupted_hart.

(** A function that changes [t0] and [a0]. *)
Definition example_call (h : Hart) : Hart := with_x (<[5 := 77]> (<[10 := 1]> (x h))) h.

Lemma example_call_ok D : call_ok example_call D.
Proof.
  split; unfold example_call.
  - intros h r Hr. unfold callee_saved in Hr. unfold reg. fields. by rewrite !reg_of_ne by lia.
  - intros h Hf. split; [|done]. unfold reg. fields. by do 2 (apply fits_all_insert; [|by unfold fits]).
  - intros h um Hu. by exists um.
  - done.
  - done.
Qed.

Lemma interrupt_is_transparent_witness :
  exists h1 h2 h3, external_interrupt_handler (2 ^ 38) reserved example_get_task (enter (2 ^ 63 + 9) with_stack) = Done (tt, h1) /\
    uart_entry example_call h1 = Done (tt, h2) /\ io_notify_return (2 ^ 38) example_get_task 7 (enter 8 h2) = Done (tt, h3) /\
    pc h3 = 1000 /\ reg h3 5 = 7 /\ completed h3 = [2].
Proof.
  destruct (driver_in_memory (pc with_stack) (reg with_stack) (2 ^ 40) 1 8192 (put reserved (words_of [2 ^ 64 - 1; 7]) ∅)) as (H1 & H2 & H3).
  destruct (interrupt_is_transparent (2 ^ 38) reserved example_get_task 7 example_call with_stack (2 ^ 39) (2 ^ 40) 1 8192 2 7 driver_task (2 ^ 41) 2 2000 [] 1000 driver_regs
    (put 32632 (replicate 136 0) ∅) 0) as (h1 & hc & h2 & h3 & E1 & _ & E2 & _ & _ & E3 & P1 & _ & _ & _ & P2 & _ & P3 & _).
  - destruct interrupted_running as [R1 R2 R3 R4 R5]. by split.
  - exact example_get_task_ok.
  - apply example_call_ok.
  - lia.
  - constructor; [reflexivity|lia|unfold reserved; split; lia| |unfold fits; lia|unfold driver_task; lia].
    change (word_at (put (2 ^ 39) (context (pc with_stack) (reg with_stack)) (kmem interrupted_hart)) (reserved + 8 * 1) 7).
    unfold word_at, interrupted_hart. cbn [kmem].
    do 3 (apply bytes_at_put; [|rewrite ?zlen_context, ?zlen_task_bytes; left; unfold driver_task, reserved; layout]).
    apply (words_of_at _ _ [2 ^ 64 - 1; 7]); [apply put_bytes_at|reflexivity].
  - exact H1.
  - exact H3.
  - exact H2.
  - exact driver_regs_fit.
  - unfold fits. lia.
  - reflexivity.
  - cbn. split; lia.
  - apply (bytes_at_room _ _ (replicate 136 0)), put_bytes_at.
  - exists h1, h2, h3. split; [exact E1|]. split; [exact E2|]. split; [exact E3|]. split; [exact P1|]. split; [by rewrite P2 by lia|exact P3].
Defined.
