(* ===== verification/Defer.v ===== *)
(** * Deferred notifications

    [syscall_io_notify_defer] of src/kernel/src/arch/riscv/syscall.s: the handler of a driver passes its
    notification on to another task.  The PCI driver does so with the interrupts of the devices
    (src/services/driver/pci/src/notification.rs).

    The theorems: the interrupt goes over to the other task, whose handler is entered, and what the first
    driver was doing when it was interrupted is saved as if it had been preempted; when the other task
    already has an interrupt the kernel waits for ever. *)

From S2P Require Import Prelude Bytes CMem Hart Trap Notify Handler.

(** ** The saved registers *)

Lemma words_put l : forall m a i v, bytes_at m a (words_of l) -> 0 <= i < zlen l -> bytes_at (put (a + 8 * i) (le_split 8 v) m) a (words_of (set_z l i v)).
Proof.
  induction l as [|w l IH]; intros m a i v Hb Hi; [change (zlen (@nil Z)) with 0 in Hi; lia|]. rewrite zlen_cons in Hi. rewrite words_of_cons in Hb.
  apply bytes_at_app in Hb as [Hw Hb]. rewrite zlen_le_split in Hb. destruct (decide (i = 0)) as [->|Hne].
  - rewrite set_z_0, words_of_cons, Z.mul_0_r, Z.add_0_r. apply bytes_at_app. rewrite zlen_le_split. split; [apply put_bytes_at|]. apply bytes_at_put; [done|]. rewrite zlen_le_split. lia.
  - replace i with (1 + (i - 1)) by lia. rewrite set_z_cons by lia. rewrite words_of_cons. apply bytes_at_app. rewrite zlen_le_split. split.
    + apply bytes_at_put; [done|]. rewrite !zlen_le_split. lia.
    + replace (a + 8 * (1 + (i - 1))) with (a + Z.of_nat 8 + 8 * (i - 1)) by lia. apply IH; [done|lia].
Qed.

(** What the pops make of the saved words. *)
Lemma popped_context q (c' : Z -> Z) p (c : Z -> Z) : (forall r, 1 <= r <= 31 -> r <> 10 -> r <> 11 -> r <> 17 -> c' r = c r) ->
  set_z (set_z (set_z (set_z (q :: (c' <$> seqZ 1 31)) 10 (c 10)) 11 (c 11)) 17 (c 17)) 0 p = p :: (c <$> seqZ 1 31).
Proof.
  intros H. change (seqZ 1 31) with [1; 2; 3; 4; 5; 6; 7; 8; 9; 10; 11; 12; 13; 14; 15; 16; 17; 18; 19; 20; 21; 22; 23; 24; 25; 26; 27; 28; 29; 30; 31].
  cbn [fmap list_fmap]. unfold set_z. rewrite !decide_True by lia. simpl. by rewrite !H by lia.
Qed.

Section pop.
Context (D stack vms handler : Z).

(** A word goes from the stack of the task to its place in the structure. *)
Lemma pop_word i k h um v base X (K : M Hart X) :
  reg h t0 = base + 32 -> reg h a0 = D -> task_at (kmem h) D stack vms handler -> 0 <= i <= 3 -> 0 <= k <= 31 -> user_area base 32 ->
  Z.testbit (sstatus h) 18 = true -> umem h !! satp h = Some um -> word_at um (base + 8 * i) v -> fits 64 v ->
  (ld t2 ((i - 4) * GP_REGBYTES) t0 ;; sd t2 (k * GP_REGBYTES) a0 ;; K) h = K (with_kmem (put (D + 8 * k) (le_split 8 v) (kmem h)) (with_x (<[7 := v]> (x h)) h)).
Proof using Type.
  intros Ht0 Ha0 Ht Hi Hk [Hu0 Hu1] Hs Hu Hw Hf.
  erewrite bind_done by (apply (uld_done _ _ _ _ (base + 8 * i) um v); [done|rewrite Ht0; unfold GP_REGBYTES; lia|split; lia|done..]).
  erewrite bind_done.
  2:{ apply (sd_done _ _ _ _ D TASK_SIZE); [by regs|apply Ht|layout|]. fields. eapply task_room; [exact Ht|layout..]. }
  fields. unfold reg. fields. rewrite reg_of_eq by done. unfold GP_REGBYTES. by rewrite (Z.mul_comm k 8).
Qed.

(** The words that are changed by the pops lie in the saved registers. *)
Lemma pop_saved_spec h um q c' p c :
  reg h a0 = D -> task_at (kmem h) D stack vms handler -> bytes_at (kmem h) D (context q c') -> fits_all c' -> fits_all c -> fits 64 p ->
  (forall r, 1 <= r <= 31 -> r <> 10 -> r <> 11 -> r <> 17 -> c' r = c r) ->
  umem h !! satp h = Some um -> bytes_at um (c 2 - 32) (frame p c) -> user_area (c 2 - 32) 32 ->
  exists g m st, pop_saved h = Done (tt, with_x g (with_kmem m (with_sstatus st h))) /\ (forall r, r <> 5 -> r <> 6 -> r <> 7 -> g !! r = x h !! r) /\
    bytes_at m D (context p c) /\ task_at m D stack vms handler /\ (forall a, a < D \/ D + 256 <= a -> m !! a = kmem h !! a).
Proof using Type.
  intros Ha0 Ht Hb Hf' Hf Hp Hcc Hu Hfr Hua. unfold pop_saved. assert (c' 2 = c 2) as E2 by (by apply Hcc).
  assert (forall i v, nth_z [c 10; c 11; c 17; p] i = Some v -> word_at um (c 2 - 32 + 8 * i) v) as Hw by (intros; by eapply frame_word).
  erewrite bind_done.
  2:{ apply (ld_done _ _ _ _ D TASK_SIZE (c' 2)); [done|done|apply Ht|layout| |by apply Hf']. unfold GP_REGBYTES. apply (context_word _ _ q c' 2 Hb). lia. }
  erewrite bind_done by (by apply li_done). erewrite bind_done by apply csrs_done. regs. change (wrap 64 SUM) with SUM. set (h1 := with_sstatus _ _).
  assert (Z.testbit (sstatus h1) 18 = true) as Hs by (unfold h1, SUM; fields; by rewrite Z.lor_spec, Z.shiftl_1_l, Z.pow2_bits_true, orb_true_r).
  change (-4 * GP_REGBYTES) with ((0 - 4) * GP_REGBYTES). rewrite (pop_word 0 10 h1 um (c 10) (c 2 - 32));
    [|unfold h1; regs; lia|unfold h1; by regs|done|lia|lia|done|done|done|by apply (Hw 0)|by apply Hf].
  set (h2 := with_kmem _ _). assert (task_at (kmem h2) D stack vms handler) as Ht2 by (apply task_at_put; [done|left; rewrite zlen_le_split; layout]).
  change (-3 * GP_REGBYTES) with ((1 - 4) * GP_REGBYTES). rewrite (pop_word 1 11 h2 um (c 11) (c 2 - 32));
    [|unfold h2, h1; regs; lia|unfold h2, h1; by regs|done|lia|lia|done|done|done|by apply (Hw 1)|by apply Hf].
  set (h3 := with_kmem _ _). assert (task_at (kmem h3) D stack vms handler) as Ht3 by (apply task_at_put; [done|left; rewrite zlen_le_split; layout]).
  change (-2 * GP_REGBYTES) with ((2 - 4) * GP_REGBYTES). rewrite (pop_word 2 17 h3 um (c 17) (c 2 - 32));
    [|unfold h3, h2, h1; regs; lia|unfold h3, h2, h1; by regs|done|lia|lia|done|done|done|by apply (Hw 2)|by apply Hf].
  set (h4 := with_kmem _ _). assert (task_at (kmem h4) D stack vms handler) as Ht4 by (apply task_at_put; [done|left; rewrite zlen_le_split; layout]).
  change (-1 * GP_REGBYTES) with ((3 - 4) * GP_REGBYTES). rewrite (pop_word 3 0 h4 um p (c 2 - 32));
    [|unfold h4, h3, h2, h1; regs; lia|unfold h4, h3, h2, h1; by regs|done|lia|lia|done|done|done|by apply (Hw 3)|done].
  set (h5 := with_kmem _ _). rewrite csrc_done. exists (x h5), (kmem h5), (Z.ldiff (sstatus h5) (reg h5 t1)). split; [reflexivity|]. unfold h5. fields. split.
  - intros r H5 H6 H7. unfold h4, h3, h2, h1. fields. by rewrite !lookup_insert_ne by done.
  - split; [|split; [apply task_at_put; [done|left; rewrite zlen_le_split; layout]|]].
    + unfold h4, h3, h2, h1. fields. unfold context. rewrite <-(popped_context q c' p c Hcc). unfold context in Hb.
      do 4 (apply words_put; [|rewrite ?zlen_set_z, zlen_cons, zlen_fmap; change (zlen (seqZ 1 31)) with 31; lia]). done.
    + intros a Ha. unfold h4, h3, h2, h1. fields. by rewrite !put_out by (rewrite zlen_le_split; lia).
Qed.
End pop.

(** ** Passing the interrupt on *)

(** What follows the task that defers: the other task gets the interrupt and its handler is entered. *)
Definition defer_tail (get_task : Hart -> Hart) : M Hart unit :=
  call_get_task get_task ;;
  beqz_panic a0 ;;
  let* irq := rd s2 in
  (if irq =? 0 then lhu a3 TASK_FLAGS a0 ;; ori a3 a3 TASK_FLAG_NOTIFYING ;; sh a3 TASK_FLAGS a0
   else set_irq s2 a0) ;;
  mv 31 a0 ;; mv a0 s0 ;; mv a1 s1 ;; mv a7 s3 ;; notification_enter.

(** The structure of a task that has passed its notification on: it will go on where it was interrupted. *)
Record deferred (m : Mem) (D stack vms handler p : Z) (c : Z -> Z) (flags : Z) : Prop := {
  df_task : task_at m D stack vms handler;
  df_context : bytes_at m D (context p c);
  df_irq : irq_at m D 0 (Z.lor flags TASK_FLAG_NOTIFIED)
}.

Lemma deferred_same m m' D stack vms handler p c flags : same_task D m m' -> deferred m D stack vms handler p c flags -> deferred m' D stack vms handler p c flags.
Proof. intros Hs []. split; [by eapply same_task_at|by eapply same_task_context|by eapply same_task_irq]. Qed.

Lemma defer_head get_task h D stack vms handler cur A q c' p c um irq flags :
  reg h a0 = D -> reg h a1 = cur -> reg h a2 = A -> D <> cur ->
  task_at (kmem h) D stack vms handler -> irq_at (kmem h) D irq flags -> bytes_at (kmem h) D (context q c') -> fits_all c' -> fits_all c -> fits 64 p ->
  (forall r, 1 <= r <= 31 -> r <> 10 -> r <> 11 -> r <> 17 -> c' r = c r) ->
  umem h !! satp h = Some um -> bytes_at um (c 2 - 32) (frame p c) -> user_area (c 2 - 32) 32 ->
  exists g m st, syscall_io_notify_defer get_task h = defer_tail get_task (with_x g (with_kmem m (with_sstatus st h))) /\
    g !! 8 = Some (c' 10) /\ g !! 9 = Some (c' 11) /\ g !! 18 = Some irq /\ g !! 19 = Some cur /\ g !! 10 = Some A /\
    deferred m D stack vms handler p c flags /\ forall a, a < D \/ D + TASK_SIZE <= a -> m !! a = kmem h !! a.
Proof.
  intros Ha0 Ha1 Ha2 Hne Ht Hi Hb Hf' Hf Hp Hcc Hu Hfr Hua. unfold syscall_io_notify_defer. erewrite bind_done by done. erewrite bind_done by done.
  rewrite Ha0, Ha1, (proj2 (Z.eqb_neq _ _)) by done. erewrite bind_done by done.
  erewrite bind_done by (apply (ld_done _ _ _ _ D TASK_SIZE (c' 10)); [done|done|apply Ht|layout|apply (context_word _ _ q c' 10 Hb); lia|by apply Hf']).
  erewrite bind_done by (apply (ld_done _ _ _ _ D TASK_SIZE (c' 11)); [done|by regs|apply Ht|layout|apply (context_word _ _ q c' 11 Hb); lia|by apply Hf']).
  set (h1 := with_x _ _). destruct (pop_saved_spec D stack vms handler h1 um q c' p c) as (g & m & st & E & Hg & Hc & Htm & Hm); [unfold h1; by regs|eassumption..|].
  erewrite bind_done by exact E. set (h2 := with_x g _). assert (reg h2 a0 = D) as H20 by (unfold h2, h1, reg; fields; rewrite (reg_same h1) by (by apply Hg); unfold h1; by regs).
  assert (irq_at m D irq flags) as Him.
  { destruct Hi as (I1 & I2 & I3). split; [|split; [|done]]; intros i v Hv; pose proof (nth_z_Some _ _ _ Hv) as Hl; rewrite zlen_le_split in Hl; (rewrite Hm; [|layout]); [by apply I1|by apply I2]. }
  erewrite bind_done by (by apply (lw_irq h2 D irq flags a0 stack vms handler)).
  erewrite bind_done by (apply (sw_field _ D a0 stack vms handler); [done|by regs|layout..]). fields. set (h3 := with_kmem _ _).
  assert (reg h3 a0 = D) as H30 by (unfold h3; regs; exact H20). assert (task_at (kmem h3) D stack vms handler) as Ht3 by (apply task_at_put; [done|right; layout]).
  assert (irq_at (kmem h3) D 0 flags) as Hi3.
  { destruct Him as (I1 & I2 & I3 & I4). split; [apply put_bytes_at|split; [|done]]. apply bytes_at_put; [done|]. rewrite !zlen_le_split. layout. }
  erewrite bind_done by (by apply (lh_flags h3 D 0 flags a0 stack vms handler)). erewrite bind_done by (by apply ori_done). regs.
  erewrite bind_done by (apply (sh_field _ D a0 stack vms handler); [done|by regs|layout..]). regs.
  erewrite bind_done by (by apply mv_done). erewrite bind_done by (by apply mv_done). regs.
  assert (fits 15 (Z.lor flags TASK_FLAG_NOTIFIED)) as Hff by (apply fits_lor; [lia|apply Hi|by unfold fits, TASK_FLAG_NOTIFIED]).
  rewrite (wrap_small 16) by (unfold fits in *; lia).
  match goal with |- context [bind _ _ ?s = _] => exists (x s), (kmem s), st end. split; [reflexivity|]. fields.
  assert (forall r, r <> 5 -> r <> 6 -> r <> 7 -> r <> 18 -> x h3 !! r = x h1 !! r) as H3 by (intros r ????; unfold h3, h2; fields; rewrite lookup_insert_ne by done; by apply Hg).
  assert (forall r, r <> 5 -> r <> 6 -> r <> 7 -> r <> 18 -> reg_of (x h3) r = reg h1 r) as H3r by (intros; by apply reg_same, H3).
  split_and!.
  - rewrite !lookup_insert_ne, H3 by done. unfold h1. fields. by rewrite lookup_insert_ne, lookup_insert_eq by done.
  - rewrite !lookup_insert_ne, H3 by done. unfold h1. fields. by rewrite lookup_insert_eq.
  - rewrite !lookup_insert_ne by done. unfold h3, h2. fields. by rewrite lookup_insert_eq.
  - rewrite lookup_insert_ne, lookup_insert_eq, H3r by done. unfold h1. regs. by f_equal.
  - rewrite lookup_insert_eq, H3r by done. unfold h1. regs. by f_equal.
  - split; [apply task_at_put; [done|right; layout]| |by eapply flags_stored]. apply context_put; [|layout]. unfold h3. fields. apply context_put; [done|layout].
  - intros a Ha. unfold h3, h2. fields. rewrite !put_out by (rewrite !zlen_le_split; layout). apply Hm. layout.
Qed.

(** The other task, which waits for the notification. *)
Record receiver (h : Hart) (T stack vms handler p : Z) (c : Z -> Z) (um : Mem) (irq flags : Z) : Prop := {
  rc_task : task_at (kmem h) T stack vms handler;
  rc_irq : irq_at (kmem h) T irq flags;
  rc_context : bytes_at (kmem h) T (context p c);
  rc_fits : fits_all c /\ fits 64 p;
  rc_space : umem h !! vms = Some um;
  rc_stack : user_area (c 2 - 32) 32 /\ room um (c 2 - 32) 32;
  rc_there : T <> 0
}.

(** The other task gets the interrupt when it has none; else the loop does not end. *)
Lemma set_irq_spec T stack vms handler flags h1 irqT : reg h1 a0 = T -> task_at (kmem h1) T stack vms handler -> irq_at (kmem h1) T irqT flags ->
  exists g, (forall r, r <> 6 -> r <> 7 -> g !! r = x h1 !! r) /\
    set_irq s2 a0 h1 = if irqT =? 0 then Done (tt, with_x g (with_kmem (put (T + TASK_IRQ) (le_split 4 (wrap 32 (reg h1 s2))) (kmem h1)) h1)) else OutOfFuel.
Proof.
  intros Ha Ht Hi. unfold set_irq. erewrite bind_done by (by apply addi_done). rewrite Ha. set (h2 := with_x _ h1).
  destruct (field_address h1 T stack vms handler Ht TASK_IRQ ltac:(layout)) as [Hu Ew]. destruct Hi as (I1 & _ & If & _). rewrite Ew in Hu.
  assert (wrap 64 (reg h2 t1 + 0) = T + TASK_IRQ) as Ea by (unfold h2; regs; by rewrite !Ew, Z.add_0_r, Ew).
  erewrite bind_done.
  2:{ unfold lw. erewrite bind_done by done. rewrite Ea. erewrite bind_done by (apply load_n; [done..|unfold fits in *; lia]).
      unfold signed_half. rewrite (proj2 (Z.ltb_lt _ _)) by (unfold fits in *; lia). by apply wr_done. }
  erewrite bind_done by done. regs. destruct (Z.eqb_spec irqT 0) as [->|_]; [|exists (x h1); done].
  erewrite bind_done.
  2:{ unfold sw. erewrite bind_done by done. erewrite bind_done by done. regs. change (reg_of (x h2) 6) with (reg h2 6). rewrite Ea.
      apply store_n; [done|]. eapply (task_room (kmem h1)); [exact Ht|layout..]. }
  rewrite li_done by done. eexists. split; [|unfold h2; regs; reflexivity]. intros r H6 H7. fields. by rewrite !lookup_insert_ne by done.
Qed.

Section tail.
Context (get_task : Hart -> Hart) (h : Hart) (A T stack vms handler p : Z) (c : Z -> Z) (um : Mem) (flags : Z).
Context (ty v from irq : Z).
Context (Hget : get_task_ok get_task A T) (Hne : irq <> 0) (Hirq : fits 31 irq).
Context (H8 : reg h s0 = ty) (H9 : reg h s1 = v) (H18 : reg h s2 = irq) (H19 : reg h s3 = from) (H10 : reg h a0 = A).

Lemma tail_same : same_task T (kmem h) (kmem (get_task h)).
Proof using Hget. intros a Ha. by apply Hget. Qed.

(** Up to the test of the interrupt of the other task. *)
Lemma tail_head irqT : receiver h T stack vms handler p c um irqT flags ->
  defer_tail get_task h = (set_irq s2 a0 ;; mv 31 a0 ;; mv a0 s0 ;; mv a1 s1 ;; mv a7 s3 ;; notification_enter) (get_task h) /\ reg (get_task h) a0 = T.
Proof using Hget Hne H18 H10.
  intros Hr. destruct Hget as [Gr Gs Gt Gx]. pose proof (Gr h H10) as E. split; [|done]. unfold defer_tail. erewrite bind_done by done.
  erewrite bind_done by (apply beqz_done; rewrite E; apply Hr). erewrite bind_done by done. rewrite Gs, H18 by lia. by rewrite (proj2 (Z.eqb_neq irq 0)) by done.
Qed.

(** A task that has an interrupt does not get another one. *)
Lemma tail_spins irqT : receiver h T stack vms handler p c um irqT flags -> irqT <> 0 -> defer_tail get_task h = OutOfFuel.
Proof using Hget Hne H18 H10.
  intros Hr Hn. destruct (tail_head irqT Hr) as [-> E]. destruct (set_irq_spec T stack vms handler flags (get_task h) irqT) as (g & _ & Es).
  - done.
  - eapply same_task_at; [apply tail_same|apply Hr].
  - eapply same_task_irq; [apply tail_same|apply Hr].
  - rewrite (proj2 (Z.eqb_neq irqT 0)) in Es by done. unfold bind. by rewrite Es.
Qed.

Lemma tail_spec : receiver h T stack vms handler p c um 0 flags ->
  exists h1, defer_tail get_task h = Done (tt, h1) /\ handling h1 T stack vms handler p c ty v from irq flags /\
    umem h1 = <[vms := put (c 2 - 32) (frame p c) um]> (umem h) /\ claims h1 = claims h /\ completed h1 = completed h /\
    forall a, a < T \/ T + TASK_SIZE <= a -> kmem h1 !! a = kmem (get_task h) !! a.
Proof using All.
  intros Hr. destruct (tail_head 0 Hr) as [-> E]. pose proof tail_same as Hs. destruct Hr as [Ht Hi Hb [Hf Hp] Hu [Hua Hur] _].
  destruct (set_irq_spec T stack vms handler flags (get_task h) 0) as (g & Hg & Es); [done|by eapply same_task_at|by eapply same_task_irq|].
  destruct Hget as [_ Gs _ Gx]. destruct (Gx h) as (_ & Gu & Gc & Gd). erewrite bind_done by exact Es. rewrite Gs, H18 by lia. rewrite (wrap_small 32) by (unfold fits in *; lia). set (h2 := with_x g _).
  assert (forall r, r <> 6 -> r <> 7 -> reg h2 r = reg (get_task h) r) as H2r by (intros; by apply reg_same, Hg).
  do 4 (erewrite bind_done by (by apply mv_done)). regs. change (reg_of (x h2)) with (reg h2). rewrite !H2r by done. rewrite E, !Gs, H8, H9, H19 by lia.
  set (h3 := with_x _ _). destruct (enter_handler h3 T stack vms handler p c um irq flags) as (h1 & E1 & Hh & Eu & Ek & Ec & Ed).
  - unfold h3. by regs.
  - unfold h3, h2. fields. apply task_at_put; [by eapply same_task_at|right; layout].
  - destruct (same_task_irq _ _ _ _ _ Hs Hi) as (I1 & I2 & _ & I4). unfold h3, h2. fields. split; [apply put_bytes_at|split; [|done]]. apply bytes_at_put; [done|]. rewrite !zlen_le_split. layout.
  - unfold h3, h2. fields. apply context_put; [by eapply same_task_context|layout].
  - done.
  - done.
  - unfold h3, h2. fields. by rewrite Gu.
  - done.
  - done.
  - exists h1. split; [done|]. rewrite Ec, Ed, Eu, Ek. unfold h3, h2 in Hh |- *. fields. rewrite Gu, Gc, Gd. split; [revert Hh; by regs|]. split_and!; [done..|].
    intros a Ha. by rewrite !put_out by (rewrite zlen_le_split; layout).
Qed.
End tail.

Lemma receiver_same h h' T stack vms handler p c um irq flags :
  receiver h T stack vms handler p c um irq flags -> same_task T (kmem h) (kmem h') -> umem h' !! vms = umem h !! vms -> receiver h' T stack vms handler p c um irq flags.
Proof.
  intros [] Hs Hu. constructor; [by eapply same_task_at|by eapply same_task_irq|by eapply same_task_context|done|by rewrite Hu|done|done].
Qed.

(** The structures of two tasks do not overlap. *)
Definition disjoint_tasks (D T : Z) : Prop := D + TASK_SIZE <= T \/ T + TASK_SIZE <= D.

Lemma disjoint_same D T m m' : disjoint_tasks D T -> (forall a, a < D \/ D + TASK_SIZE <= a -> m' !! a = m !! a) -> same_task T m m'.
Proof. intros Hd Hm a Ha. apply Hm. unfold disjoint_tasks in Hd. lia. Qed.

Section deferring.
Context (plic : Z) (get_task : Hart -> Hart) (current : Z) (h : Hart) (D stack vms handler p : Z) (c : Z -> Z) (A irq flags : Z).
Context (T stackT vmsT handlerT pT : Z) (cT : Z -> Z) (umT : Mem) (irqT flagsT : Z).
Context (Hcalls : handler_calls h D stack vms handler p c A irq flags) (Hne : irq <> 0) (HA : A <> 2 ^ 64 - 1) (Hcur : fits 64 current) (HDc : D <> current).
Context (HgetT : get_task_ok get_task A T) (HgetD : forall s, same_task D (kmem s) (kmem (get_task s))) (Hdis : disjoint_tasks D T).
Context (Hrec : receiver h T stackT vmsT handlerT pT cT umT irqT flagsT).

(** From the system call to the other task. *)
Lemma deferral_head : exists h1, io_notify_return plic get_task current (enter 8 h) = defer_tail get_task h1 /\
  reg h1 s0 = A /\ reg h1 s1 = reg h a1 /\ reg h1 s2 = irq /\ reg h1 s3 = current /\ reg h1 a0 = A /\ deferred (kmem h1) D stack vms handler p c flags /\
  receiver h1 T stackT vmsT handlerT pT cT umT irqT flagsT /\ umem h1 = umem h /\ claims h1 = claims h /\ completed h1 = completed h.
Proof using All.
  destruct (io_notify_return_head plic get_task current _ _ _ _ _ _ _ _ _ _ Hcalls) as (h1 & E & Ha0 & Em & Eu & Es & Ecl & Eco & _).
  destruct Hcalls as [[Hu Hs Ht [Hf Hp] Hst] Hi Hsat [Hb0 Ha7] Hr (um & Hum & Hfr) (Hfc & Hfp & Hua) HD]. rewrite E, (proj2 (Z.eqb_neq _ _)) by done. clear E.
  assert (fits 64 A) as HAf by (rewrite <-Hb0; apply Hf; lia).
  erewrite bind_done by (by apply li_done). erewrite bind_done by (by apply li_done). rewrite !wrap_small by done. set (h2 := with_x _ _).
  assert (task_at (kmem h2) D stack vms handler) as Ht2 by (unfold h2; fields; rewrite Em; by apply task_at_context).
  assert (irq_at (kmem h2) D irq flags) as Hi2.
  { destruct Hi as (H1 & H2 & H3). unfold h2. fields. rewrite Em. split; [|split; [|done]]; (apply bytes_at_put; [done|]; rewrite zlen_context; layout). }
  destruct (defer_head get_task h2 D stack vms handler current A (wrap 64 (pc h + 4)) (reg h) p c um irq flags) as (g & m & st & E & G8 & G9 & G18 & G19 & G10 & Hd & Hm); try done.
  - unfold h2. by regs.
  - unfold h2. by regs.
  - unfold h2. by regs.
  - unfold h2. fields. rewrite Em. apply put_bytes_at.
  - unfold h2. fields. by rewrite Eu, Es, Hsat.
  - eexists. split; [exact E|]. unfold h2 in Hm |- *. fields. rewrite Eu, Ecl, Eco. split_and!; try (by apply reg_some); try done.
    + rewrite <-Hb0. by apply reg_some.
    + eapply receiver_same; [done| |fields; by rewrite Eu]. apply (disjoint_same D); [done|]. intros a Ha. fields. rewrite Hm by done. fields. rewrite Em. apply put_out. rewrite zlen_context. layout.
Qed.

(** A notification that a handler defers: the other task has the interrupt and its handler runs, with the
    address it was deferred to as the type and what the first handler left in [a1] as the value; the task
    that deferred will go on where it was interrupted, and the interrupt is not completed. *)
Lemma notification_is_deferred : irqT = 0 ->
  exists h1, io_notify_return plic get_task current (enter 8 h) = Done (tt, h1) /\
    handling h1 T stackT vmsT handlerT pT cT A (reg h a1) current irq flagsT /\ deferred (kmem h1) D stack vms handler p c flags /\
    umem h1 = <[vmsT := put (cT 2 - 32) (frame pT cT) umT]> (umem h) /\ claims h1 = claims h /\ completed h1 = completed h.
Proof using All.
  intros H0. destruct deferral_head as (h1 & E & E8 & E9 & E18 & E19 & E10 & Hd & Hrec1 & Eu & Ecl & Eco). rewrite E.
  pose proof (hc_irq _ _ _ _ _ _ _ _ _ _ Hcalls) as (_ & _ & Hirq & _). rewrite H0 in Hrec1.
  destruct (tail_spec get_task h1 A T stackT vmsT handlerT pT cT umT flagsT A (reg h a1) current irq) as (h2 & E2 & Hh & Eu2 & Ecl2 & Eco2 & Hk); [done..|].
  exists h2. rewrite Eu2, Ecl2, Eco2, Eu. split_and!; try done. eapply deferred_same; [|exact Hd].
  intros a Ha. rewrite <-(HgetD h1 a) by done. apply Hk. unfold disjoint_tasks in Hdis. lia.
Qed.

(** The kernel waits for ever when the other task has an interrupt. *)
Lemma deferral_spins : irqT <> 0 -> io_notify_return plic get_task current (enter 8 h) = OutOfFuel.
Proof using All.
  intros Hn. destruct deferral_head as (h1 & E & E8 & E9 & E18 & E19 & E10 & Hd & Hrec1 & _). rewrite E.
  eapply (tail_spins get_task h1 A T stackT vmsT handlerT pT cT umT flagsT); [exact HgetT|exact Hne|exact E18|exact E10|exact Hrec1|exact Hn].
Qed.
End deferring.

(** ** A device interrupt through the PCI driver *)

(** The function of the PCI driver: it answers the interrupt [n] with the address [A] of a driver, and touches
    neither the structure nor the memory of that driver's task. *)
Record forwards (call : Hart -> Hart) (n A T : Z) : Prop := {
  fw_answer : forall s, reg s a0 = 0 -> reg s a1 = n -> reg s a2 = 2 ^ 64 - 1 -> reg (call s) a0 = A;
  fw_task : forall s, same_task T (kmem s) (kmem (call s));
  fw_memory : forall s v, v <> satp s -> umem (call s) !! v = umem s !! v
}.

Lemma pci_entry_spec call h1 D stack vms handler p c um n flags A T :
  stack <> 0 -> D <> 0 -> fits_all c -> fits 64 p -> 1 <= n < 1024 ->
  call_ok call D -> forwards call n A T -> handling h1 D stack vms handler p c 0 n (2 ^ 64 - 1) n flags ->
  umem h1 !! vms = Some um -> bytes_at um (c 2 - 32) (frame p c) -> user_area (c 2 - 136) 136 -> room um (c 2 - 136) 136 ->
  exists h2, pci_entry call h1 = Done (tt, h2) /\ handler_calls h2 D stack vms handler p c A n flags /\ same_task T (kmem h1) (kmem h2) /\
    (forall v, v <> vms -> umem h2 !! v = umem h1 !! v) /\ completed h2 = completed h1.
Proof.
  intros Hst HD Hfc Hfp Hn Hc [F1 F2 F3] Hh Hu Hb Hua Hr. assert (fits_all (reg h1)) as Hf by (eapply handling_fits; [exact Hfc|exact Hh|unfold fits; lia..]).
  pose proof Hh as [_ _ P3 _ (A0 & A1 & A7) P6 _ _ _ _]. assert (reg h1 sp = c 2) as Hsp by (by apply P6).
  destruct (entry_call_spec call D h1 um) as (hc & h2 & um' & E & Hcd & [(B0 & B1 & B2) [Bk Bk'] [Bu Bu']] & Bs & R0 & _); [done|done|by rewrite P3|by rewrite Hsp|by rewrite Hsp|].
  exists h2. split; [exact E|]. split; [eapply (called_calls D stack vms handler p c Hst HD Hfc Hfp h1 h2 um um'); [exact Hh|exact Hcd|exact Hb|destruct Hua; split; lia|]|].
  - rewrite R0. apply F1; congruence.
  - split; [rewrite Bk', <-Bk; apply F2|]. split; [|apply Hcd]. intros v Hv. rewrite Bu, F3 by congruence. apply Bu'. congruence.
Qed.

(** C10: an interrupt of a device reaches its driver through the PCI driver, and both continue as if nothing had
    happened.  The kernel claims the interrupt [n] and runs the handler of the PCI driver [D], which
    answers with the address of the driver [T] of the device; the kernel moves the interrupt to [T] and
    runs its handler, and when that returns, [T] continues where it was with all registers and the
    interrupt is completed, exactly once.  The structure of [D] holds what it was doing when it was
    interrupted, not its handler. *)
Theorem interrupt_is_forwarded plic reservations get_task current current' call h C stackC vmsC handlerC n address D stack vms handler rest p c um flags
    A T stackT vmsT handlerT pT cT umT flagsT :
  running h C stackC vmsC handlerC -> get_task_ok get_task address D -> get_task_ok get_task A T -> call_ok call D -> forwards call n A T ->
  stack <> 0 -> stackT <> 0 -> A <> 2 ^ 64 - 1 -> fits 64 current -> D <> current -> disjoint_tasks D T -> vmsT <> vms ->
  let m := put C (context (pc h) (reg h)) (kmem h) in
  interrupt_for reservations h m n address D rest -> task_at m D stack vms handler -> irq_at m D 0 flags -> bytes_at m D (context p c) -> fits_all c -> fits 64 p ->
  umem h !! vms = Some um -> user_area (c 2 - 136) 136 -> room um (c 2 - 136) 136 -> receiver (with_kmem m h) T stackT vmsT handlerT pT cT umT 0 flagsT ->
  exists h1 h2 h3 h4 h5, external_interrupt_handler plic reservations get_task (enter (2 ^ 63 + 9) h) = Done (tt, h1) /\ pc h1 = handler /\
    pci_entry call h1 = Done (tt, h2) /\ io_notify_return plic get_task current (enter 8 h2) = Done (tt, h3) /\
    handling h3 T stackT vmsT handlerT pT cT A (reg h2 a1) current n flagsT /\ completed h3 = completed h /\
    block_entry h3 = Done (tt, h4) /\ io_notify_return plic get_task current' (enter 8 h4) = Done (tt, h5) /\
    pc h5 = pT /\ user h5 = true /\ satp h5 = vmsT /\ sscratch h5 = T /\ (forall r, 1 <= r <= 31 -> reg h5 r = cT r) /\ completed h5 = completed h ++ [n] /\
    deferred (kmem h5) D stack vms handler p c flags.
Proof.
  intros Hrun Hget HgetT Hcall Hfw Hst HstT HA Hcur HDc Hdis Hvms m Hint Ht Hi Hb Hf Hp Hum Hua Hur Hrec.
  pose proof (if_source _ _ _ _ _ _ _ Hint) as Hn. pose proof (if_task _ _ _ _ _ _ _ Hint) as HD.
  destruct (interrupt_reaches_driver plic reservations get_task h C stackC vmsC handlerC n address D stack vms handler rest p c um flags) as (h1 & E1 & Hh & Hcl & Hco & Eu & hx & Ex & Hk);
    [done..|destruct Hua; split; lia|intros j Hj; replace (c 2 - 32 + j) with (c 2 - 136 + (104 + j)) by lia; apply Hur; lia|].
  destruct (pci_entry_spec call h1 D stack vms handler p c (put (c 2 - 32) (frame p c) um) n flags A T) as (h2 & E2 & Hc & Hs2 & Hu2 & Hco2);
    [done..|rewrite Eu; apply lookup_insert_eq|apply put_bytes_at|done|by apply put_room|].
  assert (receiver h2 T stackT vmsT handlerT pT cT umT 0 flagsT) as Hrec2.
  { eapply receiver_same; [exact Hrec| |rewrite Hu2, Eu by done; fields; by apply lookup_insert_ne]. fields. intros a Ha. rewrite Hs2 by done.
    rewrite Hk by (unfold disjoint_tasks in Hdis; lia). transitivity (kmem hx !! a); [by apply HgetT|by rewrite Ex]. }
  destruct (notification_is_deferred plic get_task current h2 D stack vms handler p c A n flags T stackT vmsT handlerT pT cT umT 0 flagsT) as (h3 & E3 & Hh3 & Hd3 & Eu3 & _ & Eco3);
    try done; [lia|intros s a Ha; by apply Hget|].
  destruct Hrec2 as [_ _ _ [HfT HpT] _ [HuaT HurT] HT].
  assert (fits_all (reg h2)) as Hf2 by apply Hc. assert (fits 64 A) as HAf by (rewrite <-(proj1 (hc_args _ _ _ _ _ _ _ _ _ _ Hc)); apply Hf2; lia).
  destruct (block_entry_spec T stackT vmsT handlerT pT cT HstT HT HfT HpT h3 (put (cT 2 - 32) (frame pT cT) umT) A (reg h2 a1) current n flagsT) as (h4 & E4 & Hc4 & Ek4 & Eco4);
    [done|done|apply Hf2; lia|done|rewrite Eu3; apply lookup_insert_eq|apply put_bytes_at|done|].
  destruct (notification_returns plic get_task current' h4 T stackT vmsT handlerT pT cT n flagsT Hc4) as (h5 & E5 & G1 & G2 & G3 & G4 & G5 & _ & G6 & _ & _ & G7).
  exists h1, h2, h3, h4, h5. split; [exact E1|]. split; [apply Hh|]. split; [exact E2|]. split; [exact E3|]. split; [exact Hh3|]. split; [congruence|]. split; [exact E4|]. split; [exact E5|].
  split_and!; try done; [rewrite G6, Eco4, Eco3, Hco2, Hco; by rewrite (proj2 (Z.eqb_neq _ _)) by lia|].
  eapply deferred_same; [|exact Hd3]. intros a Ha. rewrite <-Ek4. apply G7. unfold disjoint_tasks in Hdis. lia.
Qed.

(** ** An example *)

(** The driver of the device, whose address is 9. *)
Definition device_task : Z := 2 ^ 39 + 16384.

Definition device_memory : Mem := put device_task (task_bytes 3000 driver_regs (2 ^ 42) 3 2500 0 0) (put reserved (words_of [2 ^ 64 - 1; 7]) ∅).

Definition device_hart : Hart :=
  with_kmem (put (2 ^ 39) (task_bytes 0 (fun _ => 0) (2 ^ 40) 1 8192 0 0) (put driver_task (task_bytes 1000 driver_regs (2 ^ 41) 2 2000 0 0) device_memory))
    (with_umem {[2 := put 32632 (replicate 136 0) ∅; 3 := put 32736 (replicate 32 0) ∅]} interrupted_hart).

Definition two_tasks (h : Hart) : Hart := with_x (<[10 := if reg h 10 =? 7 then driver_task else device_task]> (x h)) h.

Definition example_forward (h : Hart) : Hart := with_x (<[5 := 77]> (<[10 := 9]> (x h))) h.

Lemma device_get_task_ok address D : address = 7 /\ D = driver_task \/ address = 9 /\ D = device_task -> get_task_ok two_tasks address D.
Proof.
  intros H. constructor; unfold two_tasks.
  - intros h E. regs. change (reg_of (x h) 10) with (reg h 10). rewrite E. by destruct H as [[-> ->]|[-> ->]].
  - intros h r Hr. apply reg_same. fields. by rewrite lookup_insert_ne by lia.
  - done.
  - done.
Qed.

Lemma example_forward_ok D : call_ok example_forward D.
Proof.
  split; unfold example_forward.
  - intros h r Hr. unfold callee_saved in Hr. unfold reg. fields. by rewrite !reg_of_ne by lia.
  - intros h Hf. split; [|done]. unfold reg. fields. by do 2 (apply fits_all_insert; [|by unfold fits]).
  - intros h um Hu. by exists um.
  - done.
  - done.
Qed.

Lemma device_running : running device_hart (2 ^ 39) (2 ^ 40) 1 8192.
Proof.
  destruct interrupted_running as [R1 R2 _ R4 R5]. constructor; [exact R1|exact R2| |exact R4|exact R5].
  refine (proj1 (task_bytes_at _ _ 0 (fun _ => 0) _ _ _ 0 0 (put_bytes_at _ _ _) _ _)); [split; layout|unfold fits; lia].
Qed.

Lemma device_receives : let m := put (2 ^ 39) (context (pc device_hart) (reg device_hart)) (kmem device_hart) in
  receiver (with_kmem m device_hart) device_task (2 ^ 42) 3 2500 3000 driver_regs (put 32736 (replicate 32 0) ∅) 0 0.
Proof.
  intros m. destruct (task_bytes_at m device_task 3000 driver_regs (2 ^ 42) 3 2500 0 0) as (H1 & H2 & H3 & H4).
  - unfold m, device_hart. fields. do 3 (apply bytes_at_put; [|rewrite ?zlen_context, ?zlen_task_bytes; unfold driver_task, device_task; layout]). apply put_bytes_at.
  - unfold device_task. split; layout.
  - unfold fits. lia.
  - constructor; [exact H1|split; [exact H3|split; [exact H4|unfold fits; lia]]|exact H2|split; [exact driver_regs_fit|unfold fits; lia]|reflexivity| |unfold device_task; lia].
    split; [cbn; split; lia|]. apply (bytes_at_room _ _ (replicate 32 0)), put_bytes_at.
Qed.

Lemma interrupt_is_forwarded_witness :
  exists h1 h2 h3 h4 h5, external_interrupt_handler (2 ^ 38) reserved two_tasks (enter (2 ^ 63 + 9) device_hart) = Done (tt, h1) /\
    pci_entry example_forward h1 = Done (tt, h2) /\ io_notify_return (2 ^ 38) two_tasks 7 (enter 8 h2) = Done (tt, h3) /\ pc h3 = 2500 /\
    block_entry h3 = Done (tt, h4) /\ io_notify_return (2 ^ 38) two_tasks 9 (enter 8 h4) = Done (tt, h5) /\ pc h5 = 3000 /\ satp h5 = 3 /\ completed h5 = [2].
Proof.
  destruct (driver_in_memory (pc device_hart) (reg device_hart) (2 ^ 40) 1 8192 device_memory) as (H1 & H2 & H3).
  destruct (interrupt_is_forwarded (2 ^ 38) reserved two_tasks 7 9 example_forward device_hart (2 ^ 39) (2 ^ 40) 1 8192 2 7 driver_task (2 ^ 41) 2 2000 [] 1000 driver_regs
    (put 32632 (replicate 136 0) ∅) 0 9 device_task (2 ^ 42) 3 2500 3000 driver_regs (put 32736 (replicate 32 0) ∅) 0) as (h1 & h2 & h3 & h4 & h5 & E1 & _ & E2 & E3 & P3 & _ & E4 & E5 & P1 & _ & P2 & _ & _ & P4 & _).
  - exact device_running.
  - apply device_get_task_ok. by left.
  - apply device_get_task_ok. by right.
  - apply example_forward_ok.
  - split; unfold example_forward; [intros s _ _ _; by regs|done|done].
  - lia.
  - lia.
  - lia.
  - unfold fits. lia.
  - unfold driver_task. lia.
  - unfold disjoint_tasks, driver_task, device_task. left. layout.
  - lia.
  - constructor; [reflexivity|lia|unfold reserved; split; lia| |unfold fits; lia|unfold driver_task; lia].
    change (word_at (put (2 ^ 39) (context (pc device_hart) (reg device_hart)) (kmem device_hart)) (reserved + 8 * 1) 7).
    unfold word_at, device_hart at 3. fields. unfold device_memory.
    do 4 (apply bytes_at_put; [|rewrite ?zlen_context, ?zlen_task_bytes, ?zlen_le_split; unfold driver_task, device_task, reserved; layout]).
    apply (words_of_at _ _ [2 ^ 64 - 1; 7]); [apply put_bytes_at|reflexivity].
  - exact H1.
  - exact H3.
  - exact H2.
  - exact driver_regs_fit.
  - unfold fits. lia.
  - reflexivity.
  - cbn. split; lia.
  - apply (bytes_at_room _ _ (replicate 136 0)), put_bytes_at.
  - exact device_receives.
  - exists h1, h2, h3, h4, h5. split; [exact E1|]. split; [exact E2|]. split; [exact E3|]. split; [apply P3|]. split; [exact E4|]. split; [exact E5|]. split; [exact P1|]. split; [exact P2|]. exact P4.
Defined.
